(* ===== verification/_CoqProject ===== *)
-Q . S2P
Prelude.v
Machine.v
Kernel.v
Riscv.v
Strings.v
Spinlock.v
Kalloc.v
Vm.v
VmSpec.v
UserMem.v
Proc.v
Scheduler.v
Uart.v
Printf.v
Console.v
Sleeplock.v
ConsoleSpec.v
Plic.v
Virtio.v
Bio.v
BioSpec.v
VirtioSpec.v
Log.v
LogSpec.v
Fs.v
FsSpec.v
FsView.v
FsRead.v
FsAlloc.v
FsWrite.v
FsDir.v
Pipe.v
PipeSpec.v
File.v
Procs.v
Exec.v
SysArgs.v
Sysfile.v
Sysproc.v
Syscall.v
Trap.v
TrapSpec.v
Main.v
Typed.v
TypedFs.v
TypedSys.v
User.v
Ulib.v
Umalloc.v
Regex.v
Grep.v
Find.v
Cat.v
Wc.v
Ls.v
Utils.v
Tests.v
TestBase.v
TestFiles.v
TestProcs.v
TestMemory.v
Usertests.v
Shell.v
ShellSpec.v
ShellPrint.v
Mkfs.v
MkfsSpec.v
MkfsImage.v
MkfsRead.v
LogSpace.v
