(* ===== verification/Prelude.v ===== *)
(** * xv6 (RISC-V): a verification development

    xv6 is a small Unix for RISC-V multiprocessors.  The repository has three
    parts: the kernel (src/xv6/kernel), the user programs (src/xv6/user) and
    the program that builds the disk image (src/xv6/mkfs).  This library
    translates the C code of all three into executable definitions, one per C
    function and with its name, and proves what makes each part correct.

    ** How the kernel is modelled

    Kernel.v has the structures of the kernel's headers as records, the global
    variables and the machine as one state [kstate], and the type [K A] of a
    kernel function.  A run on one hart returns ([Ok]), stops (panic(), a bad
    address, the end of the model's bounds) or gives up the processor
    ([Yield]) and goes on in whatever state the rest of the system has left;
    so a sleeping process, a spinning acquire() and the disk device are all
    "what happens at a [Yield]".  C integers are kept at their width ([u32],
    [i32], ... below).  Memory (Machine.v) is a map from addresses to bytes;
    page tables and the free list of pages live in it, as in C.

    - Machine: param.h, memlayout.h, riscv.h (constants, address and PTE macros)
    - Riscv: the control and status registers of riscv.h
    - Kernel: the structures of proc.h, file.h, fs.h, buf.h, ...; the monad
    - Strings: string.c;  Spinlock: spinlock.c and the interrupt flags
    - Kalloc: kalloc.c;  Vm, VmSpec, UserMem: vm.c
    - Proc, Scheduler, Procs: proc.c (scheduling; the life cycle of a process)
    - Uart, Printf, Console, ConsoleSpec, Plic: uart.c, printf.c, console.c,
      plic.c
    - Sleeplock: sleeplock.c;  Virtio, VirtioSpec: virtio_disk.c
    - Bio, BioSpec: bio.c;  Log, LogSpec, LogSpace: log.c
    - Fs, FsSpec, FsView, FsRead, FsAlloc, FsWrite, FsDir: fs.c
    - Pipe, PipeSpec, File: pipe.c, file.c
    - Exec: exec.c;  SysArgs, Sysfile, Sysproc, Syscall: the system calls
    - Trap, TrapSpec: trap.c;  Main: start.c, main.c
    - Typed, TypedFs, TypedSys: the types of the kernel's variables, kept by
      every function of the kernel

    The interfaces: the buffer cache is proved against the class [DiskDriver]
    with the laws [DiskLaw] (BioSpec), which say that a request, when the
    driver returns, has moved the block between the buffer and the disk.
    VirtioSpec proves these laws of the virtio driver, for every device that
    keeps [VirtioDevice]: it carries out the chain of descriptors that the
    driver has put in the queue.  The
    log and the file system are proved against the view of the cache [bcache]
    that BioSpec establishes, and never look at buffers or the LRU list.

    ** How the user programs are modelled

    A user program is a tree of system calls ([prog], User.v), run against a
    kernel given by its replies.  Arrays and strings are lists of bytes, with
    an access outside of one a [Crash].

    - User: user.h;  Ulib: ulib.c, printf.c;  Umalloc: umalloc.c
    - Shell, ShellSpec, ShellPrint: sh.c
    - Regex, Grep, Find: the pattern language, grep.c, find.c
    - Cat, Wc, Ls, Utils: cat.c, wc.c, ls.c; echo.c, kill.c, ln.c, mkdir.c,
      rm.c, zombie.c, init.c
    - Tests: forktest.c, stressfs.c, grind.c
    - TestBase, TestFiles, TestProcs, TestMemory, Usertests: usertests.c, the
      tests by subject, and the program that runs them

    Mkfs is mkfs.c, a program of the host that writes an image file, sector by
    sector; MkfsSpec, MkfsImage and MkfsRead are its theorems, which meet those
    of the kernel's file system in the on-disk format of FsView.

    ** What the theorems show

    - Crash safety (LogSpec): a crash between any two block writes of commit()
      followed by recovery leaves all or nothing of the transaction; recovery
      may itself be interrupted; log_write() absorbs and writes nothing.
      FsWrite: so a write to a file leaves the old file or the new one.
      LogSpace: the space begin_op() reserves is never exceeded, and the log
      that mkfs makes is one block too small for it.
    - Refinement: the buffer cache is a block device (BioSpec), the page
      allocator a stack of pages (Kalloc); what is written to a pipe and what
      is read from it go through one bounded queue (PipeSpec); the console
      turns the characters typed into the lines of an abstract line editor
      (ConsoleSpec); the disk driver moves the sector asked for and gives its
      descriptors back (VirtioSpec).
    - Page tables (VmSpec): mappages() in terms of the abstract page table, and
      the round trip through copyout() and copyin().
    - Locks: mutual exclusion of spinlocks for every interleaving of their
      atomic instructions (Spinlock), acquire()/release() and sleep locks as
      functions; wakeup() and kill() (Proc); every process that stays
      runnable gets a turn in each round of scheduler() (Scheduler).
    - File-system formats (FsSpec): inodes, bitmaps, directory entries, path
      splitting; MkfsImage, MkfsRead and FsRead: the image mkfs writes holds
      the files it was given, no two of them sharing a block, and the kernel's
      ilock() and readi() read them.
    - Files (FsAlloc, FsWrite): balloc(), bmap(), iupdate() and writei() inside of
      a transaction change one file as asked, give it blocks that were free, and
      leave every other inode and block in use as it was.  FsDir: a directory is
      a map from names to inode numbers for dirlookup() and dirlink().
    - User programs: the shell's parser terminates and inverts printing;
      malloc() and free() keep the free list well formed and blocks apart; grep
      and find match regular languages; grep, wc and cat do their jobs however
      the kernel splits their input; memmove() on overlapping ranges; numbers
      printed and read back; grind's random numbers.
    - The test suite (Usertests, TestProcs): what the exit status of usertests
      says about the tests; that it cannot run on a kernel without fork(); which
      data pipe1() accepts.
    - Types (Typed, TypedFs, TypedSys): whatever the order in which the harts,
      the interrupts and the device take their turns, every array of the kernel
      keeps its length, every integer its width and every stored pointer its
      range; each function of the kernel is proved to keep this between any two
      of its [Yield]s, against the class [TypedDriver] for the disk driver.
    - Errors: what this version of the kernel gets wrong: uvmcopy() and so
      fork() never succeed, and a store to an unmapped address crashes the
      kernel; what it gets right: unknown system calls, failing kill().

    ** Bounds and fuel

    Loops over a known number of rounds get that number, so no theorem about
    them has a bound.  Loops that wait ([Fuel]) stop the model with [NoFuel]
    when it is used up; the theorems about functions with such loops are for
    the case that there is nothing to wait for, or hold for every fuel.  The
    shell's parser recurses at most as deep as the line is long, the pattern
    matchers as the pattern and text, grep(), cat() and wc() as often as there
    are bytes to read: the theorems give the fuel that is enough and prove that
    the programs end with it.

    ** What is not modelled

    - Interrupts in the middle of a kernel function: a function runs to its
      next [Yield]; the instruction-level interleaving is modelled for the
      spinlock itself, which is what makes the rest sound.
    - The TLB and the caches of a hart: sfence_vma() and the fences have no
      effect on the state.
    - Pages that hold a pipe or a trapframe are kept as those structures, beside
      the byte memory; arrays local to a kernel function are lists.
    - malloc() in the shell is taken to succeed.
    - The assembly code (trampoline.S, kernelvec.S, swtch.S, entry.S, the
      generated system-call stubs): [Yield] and the ends of usertrap() and
      usertrapret() are its boundary.
    - In usertests.c, children that spin until they are killed have no result
      ([spin]), and the tests are run by the theorems about the driver only as
      far as their exit status goes: a kernel that several of their processes
      share is not modelled on the side of the programs.
    - ramdisk.c and testcow.c, which are not built; declarations (defs.h). *)

From Stdlib Require Import ZArith Lia Ascii.
From stdpp Require Import base numbers list gmap strings.

#[global] Open Scope Z_scope.

(** ** Machine integers

    A C integer of width [w] is a [Z]; the functions below are the conversions
    C performs when a value is stored into an object of that type.  Unsigned
    types wrap modulo [2^w]; gcc's signed types wrap to the two's-complement
    representative. *)

Definition u8 (z : Z) : Z := z mod 2 ^ 8.
Definition u16 (z : Z) : Z := z mod 2 ^ 16.
Definition u32 (z : Z) : Z := z mod 2 ^ 32.
Definition u64 (z : Z) : Z := z mod 2 ^ 64.

Definition signed (w z : Z) : Z :=
  let u := z mod 2 ^ w in if u <? 2 ^ (w - 1) then u else u - 2 ^ w.

Definition i16 (z : Z) : Z := signed 16 z.
Definition i32 (z : Z) : Z := signed 32 z.
Definition i64 (z : Z) : Z := signed 64 z.

(** C's truth value of an integer, and of a comparison used as an integer. *)
Definition truth (z : Z) : bool := negb (z =? 0).
Definition b2z (b : bool) : Z := if b then 1 else 0.

(** ** String literals *)

(** The characters of a string literal, without the final NUL. *)
Fixpoint chars (s : string) : list Z :=
  match s with
  | EmptyString => []
  | String c s => Z.of_N (N_of_ascii c) :: chars s
  end.

Definition newline : string := String (ascii_of_nat 10) EmptyString.
Definition tab : string := String (ascii_of_nat 9) EmptyString.

(** ** Automation *)

Create HintDb xv6.
Create Rewrite HintDb xv6_rw.

Ltac zb :=
  repeat match goal with
  | H : (_ =? _) = true |- _ => apply Z.eqb_eq in H
  | H : (_ =? _) = false |- _ => apply Z.eqb_neq in H
  | H : (_ <? _) = true |- _ => apply Z.ltb_lt in H
  | H : (_ <? _) = false |- _ => apply Z.ltb_ge in H
  | H : (_ <=? _) = true |- _ => apply Z.leb_le in H
  | H : (_ <=? _) = false |- _ => apply Z.leb_gt in H
  | H : (_ && _) = true |- _ => apply andb_true_iff in H as [? ?]
  | H : (_ || _) = false |- _ => apply orb_false_iff in H as [? ?]
  | H : negb _ = true |- _ => apply negb_true_iff in H
  | H : negb _ = false |- _ => apply negb_false_iff in H
  | H : bool_decide _ = true |- _ => apply bool_decide_eq_true in H
  | H : bool_decide _ = false |- _ => apply bool_decide_eq_false in H
  end.

(** Division and remainder by constants, reduced to linear arithmetic. *)
Ltac zmod := Z.div_mod_to_equations; lia.

(** ** Record update

    [r <| f := v |>] is [r] with its field [f] set to [v]; [r <| f ::= g |>]
    applies [g] to the field.  The update function of a field is computed from
    the record's eta-expansion. *)
Class Eta (R : Type) := eta : R -> R.
Class Field {R E : Type} (g : R -> E) := update : (E -> E) -> R -> R.
#[global] Arguments update {R E} g {Field} _ _.

Ltac solve_field :=
  lazymatch goal with
  | |- @Field ?R ?E ?g =>
      let inst := constr:(_ : Eta R) in
      let h := match inst with ?h => h end in
      let e := eval unfold h in h in
      lazymatch eval pattern g in e with
      | ?k _ => let u := eval cbv beta in (λ f : E -> E, k (λ r, f (g r))) in exact u
      end
  end.

#[global] Hint Extern 1 (Field _) => solve_field : typeclass_instances.

Declare Scope record_scope.
#[global] Open Scope record_scope.
Notation "r <| f := v |>" := (update f (λ _, v) r)
  (at level 1, v at level 99, left associativity) : record_scope.
Notation "r <| f ::= g |>" := (update f g r)
  (at level 1, g at level 99, left associativity) : record_scope.

(** ** Facts about the machine integers *)

Lemma u32_small z : 0 <= z < 2 ^ 32 -> u32 z = z.
Proof. intros H. apply Z.mod_small. exact H. Qed.

Lemma u64_small z : 0 <= z < 2 ^ 64 -> u64 z = z.
Proof. intros H. apply Z.mod_small. exact H. Qed.

Lemma u8_small z : 0 <= z < 2 ^ 8 -> u8 z = z.
Proof. intros H. apply Z.mod_small. exact H. Qed.

Lemma u32_range z : 0 <= u32 z < 2 ^ 32.
Proof. apply Z.mod_pos_bound. lia. Qed.

Lemma u64_range z : 0 <= u64 z < 2 ^ 64.
Proof. apply Z.mod_pos_bound. lia. Qed.

Lemma u8_range z : 0 <= u8 z < 2 ^ 8.
Proof. apply Z.mod_pos_bound. lia. Qed.

Lemma u32_add_l a b : u32 (u32 a + b) = u32 (a + b).
Proof. apply Zplus_mod_idemp_l. Qed.

Lemma u32_sub_l a b : u32 (u32 a - b) = u32 (a - b).
Proof. apply Zminus_mod_idemp_l. Qed.

Lemma i32_small z : - 2 ^ 31 <= z < 2 ^ 31 -> i32 z = z.
Proof.
  intros H. unfold i32, signed. change (2 ^ (32 - 1)) with (2 ^ 31).
  destruct (Z_lt_dec z 0) as [Hn|Hn].
  - assert (E : z mod 2 ^ 32 = z + 2 ^ 32) by (symmetry; apply (Z.mod_unique_pos _ _ (-1)); lia).
    rewrite E. destruct (Z.ltb_spec (z + 2 ^ 32) (2 ^ 31)); lia.
  - rewrite Z.mod_small by lia. destruct (Z.ltb_spec z (2 ^ 31)); lia.
Qed.

Lemma signed_mod w z : 0 < w -> - 2 ^ (w - 1) <= z < 2 ^ (w - 1) -> signed w (z mod 2 ^ w) = z.
Proof.
  intros Hw H. unfold signed. rewrite Z.mod_mod by (apply Z.pow_nonzero; lia).
  assert (E2 : 2 ^ w = 2 * 2 ^ (w - 1)) by (rewrite <- Z.pow_succ_r by lia; f_equal; lia).
  destruct (Z_lt_dec z 0) as [Hn|Hn].
  - assert (E : z mod 2 ^ w = z + 2 ^ w) by (symmetry; apply (Z.mod_unique_pos _ _ (-1)); lia).
    rewrite E. destruct (Z.ltb_spec (z + 2 ^ w) (2 ^ (w - 1))); lia.
  - rewrite Z.mod_small by lia. destruct (Z.ltb_spec z (2 ^ (w - 1))); lia.
Qed.

Lemma i32_range z : - 2 ^ 31 <= i32 z < 2 ^ 31.
Proof.
  unfold i32, signed. change (2 ^ (32 - 1)) with (2 ^ 31).
  pose proof (Z.mod_pos_bound z (2 ^ 32) ltac:(lia)).
  destruct (Z.ltb_spec (z mod 2 ^ 32) (2 ^ 31)); lia.
Qed.

#[export] Hint Resolve u32_range u64_range u8_range i32_range : xv6.

(** ** Lists as C arrays *)

(** [upd i f l]: apply [f] to the [i]-th element in place. *)
Definition upd {A} (i : nat) (f : A -> A) (l : list A) : list A := alter f i l.

(** Read an array of integers with default 0 (used where the index is known
    to be in range by the loop that reads it). *)
Definition aget (l : list Z) (i : Z) : Z := default 0 (l !! Z.to_nat i).
Definition aset (l : list Z) (i v : Z) : list Z := <[Z.to_nat i := v]> l.

Arguments upd : simpl never.

Lemma length_upd {A} i (f : A -> A) l : length (upd i f l) = length l.
Proof. apply length_alter. Qed.

Lemma upd_lookup {A} i (f : A -> A) l j :
  upd i f l !! j = if decide (i = j) then f <$> l !! j else l !! j.
Proof.
  unfold upd. case_decide as E; subst.
  - apply list_lookup_alter_eq.
  - by apply list_lookup_alter_ne.
Qed.

Lemma upd_id {A} i (f : A -> A) l x : l !! i = Some x -> f x = x -> upd i f l = l.
Proof.
  intros Hl Hf. apply list_eq. intros j. rewrite upd_lookup.
  case_decide as E; [subst|done]. by rewrite Hl; simpl; rewrite Hf.
Qed.

Lemma upd_upd {A} i (f g : A -> A) l : upd i f (upd i g l) = upd i (λ x, f (g x)) l.
Proof.
  apply list_eq. intros j. rewrite !upd_lookup. case_decide; [|done].
  by destruct (l !! j).
Qed.

Lemma upd_ext {A} i (f g : A -> A) l x : l !! i = Some x -> f x = g x -> upd i f l = upd i g l.
Proof.
  intros Hl Hf. apply list_eq. intros j. rewrite !upd_lookup. case_decide as E; [subst|done].
  rewrite Hl. simpl. by rewrite Hf.
Qed.

Lemma aget_aset_eq l i v :
  0 <= i < Z.of_nat (length l) -> aget (aset l i v) i = v.
Proof.
  intros H. unfold aget, aset. rewrite list_lookup_insert_eq; [done|lia].
Qed.

Lemma aget_aset_ne l i j v : 0 <= i -> 0 <= j -> i <> j -> aget (aset l i v) j = aget l j.
Proof. intros. unfold aget, aset. rewrite list_lookup_insert_ne; [done|lia]. Qed.

Lemma length_aset l i v : length (aset l i v) = length l.
Proof. apply length_insert. Qed.

Lemma aget_app_l l1 l2 i : 0 <= i < Z.of_nat (length l1) -> aget (l1 ++ l2) i = aget l1 i.
Proof. intros. unfold aget. rewrite lookup_app_l; [done|lia]. Qed.

(** A list whose elements are those of another, changed one by one. *)
Lemma length_pointwise {A B} (f : nat -> A -> B) (l : list A) (l' : list B) :
  (∀ i, l' !! i = f i <$> l !! i) -> length l' = length l.
Proof.
  intros E. apply Nat.le_antisymm; apply Nat.nlt_ge; intros Hlt.
  - apply lookup_lt_is_Some_2 in Hlt as [x Hx]. by rewrite E, lookup_ge_None_2 in Hx by lia.
  - apply lookup_lt_is_Some_2 in Hlt as [x Hx]. specialize (E (length l')).
    by rewrite Hx, lookup_ge_None_2 in E by lia.
Qed.

(** [zrange a n] = [a; a+1; ...; a+n-1]. *)
Definition zrange (a : Z) (n : nat) : list Z := (λ i : nat, a + Z.of_nat i) <$> seq 0 n.

Lemma length_zrange a n : length (zrange a n) = n.
Proof. unfold zrange. by rewrite length_fmap, length_seq. Qed.

Lemma elem_of_zrange a n x : x ∈ zrange a n <-> a <= x < a + Z.of_nat n.
Proof.
  unfold zrange. rewrite list_elem_of_fmap. split.
  - intros (i & -> & Hi). apply elem_of_seq in Hi. lia.
  - intros H. exists (Z.to_nat (x - a)). split; [lia|]. apply elem_of_seq. lia.
Qed.

Lemma zrange_S a n : zrange a (S n) = a :: zrange (a + 1) n.
Proof.
  unfold zrange. simpl. f_equal; [lia|].
  rewrite <- fmap_S_seq, <- list_fmap_compose. apply list_fmap_ext.
  intros ? x ?. simpl. lia.
Qed.

Lemma zrange_app a n k : zrange a (n + k) = zrange a n ++ zrange (a + Z.of_nat n) k.
Proof.
  unfold zrange. rewrite seq_app, fmap_app. f_equal. simpl.
  apply list_eq. intros i. rewrite !list_lookup_fmap.
  destruct (decide (i < k)%nat).
  - rewrite !lookup_seq_lt by lia. simpl. f_equal. lia.
  - rewrite !lookup_seq_ge by lia. done.
Qed.

Lemma mapM_app_some {A B} (f : A -> option B) l1 l2 b1 :
  mapM f l1 = Some b1 -> mapM f (l1 ++ l2) = app b1 <$> mapM f l2.
Proof.
  revert b1. induction l1 as [|x l1 IH]; intros b1; simpl.
  { intros [= <-]. by destruct (mapM f l2). }
  destruct (f x) as [y|]; [|done]. simpl. destruct (mapM f l1) as [c|] eqn:E; [|done].
  intros [= <-]. rewrite (IH c eq_refl). by destruct (mapM f l2).
Qed.

#[export] Hint Rewrite @length_upd @length_aset @length_insert : xv6_rw.
