(* ===== verification/Machine.v ===== *)
(** * The machine: constants, address arithmetic and memory

    Models src/xv6/kernel/{types,param,memlayout,riscv}.h and the kernel's view
    of memory as bytes.  The address-splitting and PTE macros of riscv.h are
    kept bit-level ([Z.land], [Z.shiftl], ...); the lemmas below give their
    arithmetic meaning, which is what the clients use. *)

From Stdlib Require Import ZArith Lia.
From stdpp Require Import base numbers list gmap strings.
From S2P Require Import Prelude.

(** ** param.h *)
Definition NPROC : Z := 64.
Definition NCPU : Z := 8.
Definition NOFILE : Z := 16.
Definition NFILE : Z := 100.
Definition NINODE : Z := 50.
Definition NDEV : Z := 10.
Definition ROOTDEV : Z := 1.
Definition MAXARG : Z := 32.
Definition MAXOPBLOCKS : Z := 10.
Definition LOGSIZE : Z := MAXOPBLOCKS * 3.
Definition NBUF : Z := MAXOPBLOCKS * 3.
Definition FSSIZE : Z := 2000.
Definition MAXPATH : Z := 128.

(** ** riscv.h: pages *)
Definition PGSIZE : Z := 4096.
Definition PGSHIFT : Z := 12.

(** [PGSIZE] as the count of bytes of a page, for loops over one. *)
Definition PGN : nat := Z.to_nat PGSIZE.
#[global] Arguments PGN : simpl never.

Lemma PGN_Z : Z.of_nat PGN = 4096.
Proof. apply Z2Nat.id. done. Qed.

Definition PGROUNDUP (sz : Z) : Z := Z.land (u64 (sz + PGSIZE - 1)) (Z.lnot (PGSIZE - 1)).
Definition PGROUNDDOWN (a : Z) : Z := Z.land a (Z.lnot (PGSIZE - 1)).

Definition PTE_V : Z := Z.shiftl 1 0.
Definition PTE_R : Z := Z.shiftl 1 1.
Definition PTE_W : Z := Z.shiftl 1 2.
Definition PTE_X : Z := Z.shiftl 1 3.
Definition PTE_U : Z := Z.shiftl 1 4.

Definition PA2PTE (pa : Z) : Z := u64 (Z.shiftl (Z.shiftr pa 12) 10).
Definition PTE2PA (pte : Z) : Z := u64 (Z.shiftl (Z.shiftr pte 10) 12).
Definition PTE_FLAGS (pte : Z) : Z := Z.land pte 0x3FF.

Definition PXMASK : Z := 0x1FF.
Definition PXSHIFT (level : Z) : Z := PGSHIFT + 9 * level.
Definition PX (level va : Z) : Z := Z.land (Z.shiftr va (PXSHIFT level)) PXMASK.
Definition MAXVA : Z := Z.shiftl 1 (9 + 9 + 9 + 12 - 1).

(** ** riscv.h: status and interrupt bits *)
Definition MSTATUS_MPP_MASK : Z := Z.shiftl 3 11.
Definition MSTATUS_MPP_M : Z := Z.shiftl 3 11.
Definition MSTATUS_MPP_S : Z := Z.shiftl 1 11.
Definition MSTATUS_MPP_U : Z := Z.shiftl 0 11.
Definition MSTATUS_MIE : Z := Z.shiftl 1 3.
Definition SSTATUS_SPP : Z := Z.shiftl 1 8.
Definition SSTATUS_SPIE : Z := Z.shiftl 1 5.
Definition SSTATUS_UPIE : Z := Z.shiftl 1 4.
Definition SSTATUS_SIE : Z := Z.shiftl 1 1.
Definition SSTATUS_UIE : Z := Z.shiftl 1 0.
Definition SIE_SEIE : Z := Z.shiftl 1 9.
Definition SIE_STIE : Z := Z.shiftl 1 5.
Definition SIE_SSIE : Z := Z.shiftl 1 1.
Definition MIE_MEIE : Z := Z.shiftl 1 11.
Definition MIE_MTIE : Z := Z.shiftl 1 7.
Definition MIE_MSIE : Z := Z.shiftl 1 3.
Definition SATP_SV39 : Z := Z.shiftl 8 60.
Definition MAKE_SATP (pagetable : Z) : Z := Z.lor SATP_SV39 (Z.shiftr pagetable 12).

(** ** memlayout.h *)
Definition UART0 : Z := 0x10000000.
Definition UART0_IRQ : Z := 10.
Definition VIRTIO0 : Z := 0x10001000.
Definition VIRTIO0_IRQ : Z := 1.
Definition CLINT : Z := 0x2000000.
Definition CLINT_MTIMECMP (hartid : Z) : Z := CLINT + 0x4000 + 8 * hartid.
Definition CLINT_MTIME : Z := CLINT + 0xBFF8.
Definition PLIC : Z := 0x0c000000.
Definition PLIC_PRIORITY : Z := PLIC + 0x0.
Definition PLIC_PENDING : Z := PLIC + 0x1000.
Definition PLIC_MENABLE (hart : Z) : Z := PLIC + 0x2000 + hart * 0x100.
Definition PLIC_SENABLE (hart : Z) : Z := PLIC + 0x2080 + hart * 0x100.
Definition PLIC_MPRIORITY (hart : Z) : Z := PLIC + 0x200000 + hart * 0x2000.
Definition PLIC_SPRIORITY (hart : Z) : Z := PLIC + 0x201000 + hart * 0x2000.
Definition PLIC_MCLAIM (hart : Z) : Z := PLIC + 0x200004 + hart * 0x2000.
Definition PLIC_SCLAIM (hart : Z) : Z := PLIC + 0x201004 + hart * 0x2000.
Definition KERNBASE : Z := 0x80000000.
Definition PHYSTOP : Z := KERNBASE + 128 * 1024 * 1024.
Definition TRAMPOLINE : Z := MAXVA - PGSIZE.
Definition KSTACK (p : Z) : Z := TRAMPOLINE - (p + 1) * 2 * PGSIZE.
Definition TRAPFRAME : Z := TRAMPOLINE - PGSIZE.

(** ** Memory: bytes at kernel addresses; an absent byte reads as 0 *)
Abbreviation memory := (gmap Z Z).

Definition load8 (m : memory) (a : Z) : Z := default 0 (m !! a).
Definition store8 (m : memory) (a v : Z) : memory := <[a := u8 v]> m.

(** Little-endian loads and stores of [n] bytes. *)
Fixpoint load_le (n : nat) (m : memory) (a : Z) : Z :=
  match n with
  | O => 0
  | S n => load8 m a + 256 * load_le n m (a + 1)
  end.

Fixpoint store_le (n : nat) (m : memory) (a v : Z) : memory :=
  match n with
  | O => m
  | S n => store_le n (store8 m a v) (a + 1) (v / 256)
  end.

Definition load64 (m : memory) (a : Z) : Z := load_le 8 m a.
Definition store64 (m : memory) (a v : Z) : memory := store_le 8 m a v.
Definition load32 (m : memory) (a : Z) : Z := load_le 4 m a.
Definition store32 (m : memory) (a v : Z) : memory := store_le 4 m a v.
Definition load16 (m : memory) (a : Z) : Z := load_le 2 m a.
Definition store16 (m : memory) (a v : Z) : memory := store_le 2 m a v.

(** [n] bytes read from, and a list of bytes written at, an address. *)
Definition load_bytes (m : memory) (a : Z) (n : nat) : list Z :=
  (λ i : nat, load8 m (a + Z.of_nat i)) <$> seq 0 n.

Fixpoint store_bytes (m : memory) (a : Z) (l : list Z) : memory :=
  match l with
  | [] => m
  | b :: l => store_bytes (store8 m a b) (a + 1) l
  end.

(** An integer object as the bytes it occupies, least significant first. *)
Fixpoint le_bytes (n : nat) (v : Z) : list Z :=
  match n with O => [] | S n => u8 v :: le_bytes n (v / 256) end.

Fixpoint le_val (l : list Z) : Z :=
  match l with [] => 0 | b :: l => b + 256 * le_val l end.

(** A structure inside an array of bytes: [n] bytes at offset [off], and the
    array with the bytes [b] stored there. *)
Definition slice (off : Z) (n : nat) (l : list Z) : list Z := take n (drop (Z.to_nat off) l).
Definition splice (off : Z) (b l : list Z) : list Z :=
  take (Z.to_nat off) l ++ b ++ drop (Z.to_nat off + length b) l.

Definition get32 (off : Z) (l : list Z) : Z := le_val (slice off 4 l).
Definition get16 (off : Z) (l : list Z) : Z := le_val (slice off 2 l).
Definition set32 (off v : Z) (l : list Z) : list Z := splice off (le_bytes 4 v) l.
Definition set16 (off v : Z) (l : list Z) : list Z := splice off (le_bytes 2 v) l.

(** [eq_outside m m' a n]: the two memories agree outside [a, a+n). *)
Definition eq_outside (m m' : memory) (a n : Z) : Prop :=
  ∀ x, x < a ∨ a + n <= x -> load8 m' x = load8 m x.

(** Every byte of the memory is a byte. *)
Definition mem_wf (m : memory) : Prop := ∀ a, 0 <= load8 m a < 256.

(** ** Lemmas: bytes and words *)

Lemma load8_store8_eq m a v : load8 (store8 m a v) a = u8 v.
Proof. unfold load8, store8. by rewrite lookup_insert_eq. Qed.

Lemma load8_store8_ne m a b v : a <> b -> load8 (store8 m a v) b = load8 m b.
Proof. intros. unfold load8, store8. by rewrite lookup_insert_ne. Qed.

Lemma mem_wf_store8 m a v : mem_wf m -> mem_wf (store8 m a v).
Proof.
  intros H b. destruct (decide (a = b)) as [->|].
  - rewrite load8_store8_eq. apply u8_range.
  - rewrite load8_store8_ne by done. apply H.
Qed.

Lemma mem_wf_empty : mem_wf ∅.
Proof. intros a. unfold load8. rewrite lookup_empty. simpl. lia. Qed.

Lemma load_le_ext n m m' a :
  (∀ x, a <= x < a + Z.of_nat n -> load8 m' x = load8 m x) ->
  load_le n m' a = load_le n m a.
Proof.
  revert a. induction n as [|n IH]; intros a H; [done|]. simpl.
  rewrite H by lia. rewrite IH; [done|]. intros; apply H; lia.
Qed.

Lemma store_le_out n m a v b :
  b < a ∨ a + Z.of_nat n <= b -> load8 (store_le n m a v) b = load8 m b.
Proof.
  revert m a v. induction n as [|n IH]; intros m a v H; [done|]. simpl.
  rewrite IH by lia. apply load8_store8_ne. lia.
Qed.

Lemma load_store_le n m a v : load_le n (store_le n m a v) a = v mod 256 ^ Z.of_nat n.
Proof.
  revert m a v. induction n as [|n IH]; intros m a v.
  { simpl. by rewrite Z.mod_1_r. }
  cbn [load_le store_le]. rewrite IH, store_le_out by lia.
  rewrite load8_store8_eq. unfold u8.
  rewrite Nat2Z.inj_succ, Z.pow_succ_r by lia.
  change (2 ^ 8) with 256. rewrite (Z.rem_mul_r v 256 (256 ^ Z.of_nat n)); lia.
Qed.

Lemma load_store_le_disj n k m a b v :
  a + Z.of_nat n <= b ∨ b + Z.of_nat k <= a ->
  load_le n (store_le k m b v) a = load_le n m a.
Proof. intros. apply load_le_ext. intros. apply store_le_out. lia. Qed.

Lemma mem_wf_store_le n m a v : mem_wf m -> mem_wf (store_le n m a v).
Proof.
  revert m a v. induction n as [|n IH]; intros m a v H; [done|].
  simpl. apply IH, mem_wf_store8, H.
Qed.

Lemma load_le_range n m a : mem_wf m -> 0 <= load_le n m a < 256 ^ Z.of_nat n.
Proof.
  intros Hm. revert a. induction n as [|n IH]; intros a; [simpl; lia|].
  cbn [load_le]. rewrite Nat2Z.inj_succ, Z.pow_succ_r by lia.
  specialize (IH (a + 1)). pose proof (Hm a). lia.
Qed.

Lemma load64_store64_eq m a v : 0 <= v < 2 ^ 64 -> load64 (store64 m a v) a = v.
Proof.
  intros. unfold load64, store64. rewrite load_store_le.
  change (256 ^ Z.of_nat 8) with (2 ^ 64). by apply Z.mod_small.
Qed.

Lemma load64_store64_ne m a b v :
  a + 8 <= b ∨ b + 8 <= a -> load64 (store64 m a v) b = load64 m b.
Proof. intros. apply load_store_le_disj. lia. Qed.

Lemma load64_range m a : mem_wf m -> 0 <= load64 m a < 2 ^ 64.
Proof. intros H. apply (load_le_range 8 m a H). Qed.

Lemma mem_wf_store64 m a v : mem_wf m -> mem_wf (store64 m a v).
Proof. apply mem_wf_store_le. Qed.

Lemma load64_outside m m' a n b :
  eq_outside m m' a n -> b + 8 <= a ∨ a + n <= b -> load64 m' b = load64 m b.
Proof. intros He Hb. apply load_le_ext. intros. apply He. lia. Qed.

Lemma eq_outside_store64 m a v : eq_outside m (store64 m a v) a 8.
Proof. intros x Hx. apply store_le_out. lia. Qed.

Lemma eq_outside_trans m1 m2 m3 a n :
  eq_outside m1 m2 a n -> eq_outside m2 m3 a n -> eq_outside m1 m3 a n.
Proof. intros H1 H2 x Hx. rewrite H2, H1; done. Qed.

Lemma eq_outside_weaken m m' a n b k :
  eq_outside m m' a n -> b <= a -> a + n <= b + k -> eq_outside m m' b k.
Proof. intros H ?? x Hx. apply H. lia. Qed.

Lemma length_load_bytes m a n : length (load_bytes m a n) = n.
Proof. unfold load_bytes. by rewrite length_fmap, length_seq. Qed.

Lemma load_bytes_S m a n : load_bytes m a (S n) = load8 m a :: load_bytes m (a + 1) n.
Proof.
  unfold load_bytes. simpl. f_equal; [by rewrite Z.add_0_r|].
  rewrite <- fmap_S_seq, <- list_fmap_compose. apply list_fmap_ext.
  intros ? x ?. simpl. f_equal. lia.
Qed.

Lemma store_bytes_out m a l b :
  b < a ∨ a + Z.of_nat (length l) <= b -> load8 (store_bytes m a l) b = load8 m b.
Proof.
  revert m a. induction l as [|x l IH]; intros m a H; [done|]. simpl in *.
  rewrite IH by lia. apply load8_store8_ne. lia.
Qed.

Lemma load_store_bytes m a l :
  Forall (λ b, 0 <= b < 256) l -> load_bytes (store_bytes m a l) a (length l) = l.
Proof.
  intros Hl. revert m a. induction Hl as [|x l Hx Hl IH]; intros m a; [done|].
  cbn [length store_bytes]. rewrite load_bytes_S. f_equal; [|apply IH].
  rewrite store_bytes_out by lia. rewrite load8_store8_eq. by apply u8_small.
Qed.

Lemma load8_store_bytes m a l x b :
  a <= x -> l !! Z.to_nat (x - a) = Some b -> load8 (store_bytes m a l) x = u8 b.
Proof.
  revert m a. induction l as [|c l IH]; intros m a Hx Hb; [by rewrite lookup_nil in Hb|].
  simpl. destruct (Z.eq_dec x a) as [->|Hne].
  - replace (Z.to_nat (a - a)) with 0%nat in Hb by lia. injection Hb as ->.
    rewrite store_bytes_out by lia. apply load8_store8_eq.
  - apply IH; [lia|]. replace (Z.to_nat (x - a)) with (S (Z.to_nat (x - (a + 1)))) in Hb by lia. done.
Qed.

Lemma eq_outside_store_bytes m a l : eq_outside m (store_bytes m a l) a (Z.of_nat (length l)).
Proof. intros x Hx. apply store_bytes_out. lia. Qed.

Lemma mem_wf_store_bytes m a l : mem_wf m -> mem_wf (store_bytes m a l).
Proof.
  revert m a. induction l as [|x l IH]; intros m a H; [done|].
  simpl. apply IH, mem_wf_store8, H.
Qed.

Lemma length_le_bytes n v : length (le_bytes n v) = n.
Proof. revert v. induction n as [|n IH]; intros v; simpl; [done|]. by rewrite IH. Qed.

Lemma le_val_bytes n v : le_val (le_bytes n v) = v mod 256 ^ Z.of_nat n.
Proof.
  revert v. induction n as [|n IH]; intros v; [simpl; by rewrite Z.mod_1_r|].
  cbn [le_val le_bytes]. rewrite IH. unfold u8.
  rewrite Nat2Z.inj_succ, Z.pow_succ_r by lia.
  change (2 ^ 8) with 256. rewrite (Z.rem_mul_r v 256 (256 ^ Z.of_nat n)); lia.
Qed.

Lemma le_bytes_range n v : Forall (λ b, 0 <= b < 256) (le_bytes n v).
Proof. revert v. induction n; intros v; simpl; constructor; [apply u8_range|auto]. Qed.

Lemma length_splice off b l :
  0 <= off -> (Z.to_nat off + length b <= length l)%nat -> length (splice off b l) = length l.
Proof. intros. unfold splice. rewrite !length_app, length_take, length_drop. lia. Qed.

Lemma slice_splice_eq off b l :
  0 <= off -> (Z.to_nat off + length b <= length l)%nat -> slice off (length b) (splice off b l) = b.
Proof.
  intros H1 H2. unfold slice, splice.
  rewrite drop_app_length' by (rewrite length_take; lia). by rewrite take_app_length.
Qed.

Lemma splice_lookup off b l i :
  (Z.to_nat off + length b <= length l)%nat ->
  splice off b l !! i =
    if decide (Z.to_nat off <= i < Z.to_nat off + length b)%nat then b !! (i - Z.to_nat off)%nat
    else l !! i.
Proof.
  intros H. unfold splice. destruct (decide (i < Z.to_nat off)%nat) as [Hi|Hi].
  - rewrite lookup_app_l by (rewrite length_take; lia). rewrite lookup_take_lt by lia.
    by rewrite decide_False by lia.
  - rewrite lookup_app_r by (rewrite length_take; lia). rewrite length_take, Nat.min_l by lia.
    case_decide.
    + by rewrite lookup_app_l by lia.
    + rewrite lookup_app_r by lia. rewrite lookup_drop. f_equal. lia.
Qed.

Lemma slice_splice_in off b l off' n :
  0 <= off <= off' -> (Z.to_nat off + length b <= length l)%nat ->
  (Z.to_nat off' + n <= Z.to_nat off + length b)%nat ->
  slice off' n (splice off b l) = slice (off' - off) n b.
Proof.
  intros H0 H1 H2. unfold slice. apply list_eq. intros i.
  destruct (decide (i < n)%nat).
  - rewrite !lookup_take_lt, !lookup_drop, splice_lookup by lia. rewrite decide_True by lia.
    f_equal. lia.
  - rewrite !lookup_take_ge by lia. done.
Qed.

Lemma slice_splice_ne off b l off' n :
  (Z.to_nat off + length b <= length l)%nat ->
  (Z.to_nat off' + n <= Z.to_nat off ∨ Z.to_nat off + length b <= Z.to_nat off')%nat ->
  slice off' n (splice off b l) = slice off' n l.
Proof.
  intros H1 H2. unfold slice. apply list_eq. intros i.
  destruct (decide (i < n)%nat).
  - rewrite !lookup_take_lt, !lookup_drop, splice_lookup by lia. by rewrite decide_False by lia.
  - rewrite !lookup_take_ge by lia. done.
Qed.

#[export] Hint Resolve mem_wf_store8 mem_wf_store64 mem_wf_store_le mem_wf_store_bytes mem_wf_empty : xv6.

(** ** Lemmas: pages *)

Lemma PGROUNDDOWN_eq a : PGROUNDDOWN a = a - a mod PGSIZE.
Proof.
  unfold PGROUNDDOWN. change (PGSIZE - 1) with (Z.ones 12).
  rewrite <- Z.ldiff_land, Z.ldiff_ones_r by lia.
  rewrite Z.shiftr_div_pow2, Z.shiftl_mul_pow2 by lia.
  change (2 ^ 12) with 4096. change PGSIZE with 4096. zmod.
Qed.

Lemma PGROUNDUP_eq sz :
  0 <= sz -> sz + 4095 < 2 ^ 64 -> PGROUNDUP sz = (sz + 4095) / 4096 * 4096.
Proof.
  intros. unfold PGROUNDUP. rewrite u64_small by (change PGSIZE with 4096; lia).
  change (Z.land (sz + PGSIZE - 1) (Z.lnot (PGSIZE - 1))) with (PGROUNDDOWN (sz + PGSIZE - 1)).
  rewrite PGROUNDDOWN_eq. change PGSIZE with 4096. zmod.
Qed.

Lemma PGROUNDDOWN_aligned a : a mod PGSIZE = 0 -> PGROUNDDOWN a = a.
Proof. intros H. rewrite PGROUNDDOWN_eq, H. lia. Qed.

Lemma PGROUNDUP_aligned a : 0 <= a -> a + 4095 < 2 ^ 64 -> a mod PGSIZE = 0 -> PGROUNDUP a = a.
Proof. intros ?? H. rewrite PGROUNDUP_eq by done. change PGSIZE with 4096 in H. zmod. Qed.

Lemma PX_eq level va :
  0 <= level -> PX level va = va / 2 ^ (12 + 9 * level) mod 512.
Proof.
  intros. unfold PX, PXSHIFT, PGSHIFT. change PXMASK with (Z.ones 9).
  rewrite Z.land_ones, Z.shiftr_div_pow2 by lia. done.
Qed.

Lemma PX_range level va : 0 <= level -> 0 <= PX level va < 512.
Proof. intros. rewrite PX_eq by done. apply Z.mod_pos_bound. lia. Qed.

(** The three indices and the page offset determine a 39-bit address. *)
Lemma PX_split va :
  0 <= va < 2 ^ 39 ->
  va = PX 2 va * 2 ^ 30 + PX 1 va * 2 ^ 21 + PX 0 va * 2 ^ 12 + va mod PGSIZE.
Proof.
  intros H. rewrite !PX_eq by lia.
  change (2 ^ (12 + 9 * 2)) with 1073741824. change (2 ^ (12 + 9 * 1)) with 2097152.
  change (2 ^ (12 + 9 * 0)) with 4096. change (2 ^ 30) with 1073741824.
  change (2 ^ 21) with 2097152. change (2 ^ 12) with 4096. change PGSIZE with 4096.
  change (2 ^ 39) with 549755813888 in H. zmod.
Qed.

Lemma PX_inj va va' :
  0 <= va < 2 ^ 39 -> 0 <= va' < 2 ^ 39 ->
  PX 2 va = PX 2 va' -> PX 1 va = PX 1 va' -> PX 0 va = PX 0 va' ->
  PGROUNDDOWN va = PGROUNDDOWN va'.
Proof.
  intros H H' E2 E1 E0. rewrite !PGROUNDDOWN_eq.
  rewrite (PX_split va H) at 1. rewrite (PX_split va' H') at 1. rewrite E2, E1, E0. lia.
Qed.

Lemma PX_PGROUNDDOWN level va : 0 <= level -> PX level (PGROUNDDOWN va) = PX level va.
Proof.
  intros. rewrite !PX_eq, PGROUNDDOWN_eq by done. f_equal.
  assert (E : va - va mod PGSIZE = va / PGSIZE * PGSIZE) by (change PGSIZE with 4096; zmod).
  rewrite E, Z.pow_add_r by lia. change (2 ^ 12) with 4096. change PGSIZE with 4096.
  rewrite <- (Z.div_div (va / 4096 * 4096)), <- (Z.div_div va) by lia.
  by rewrite Z.div_mul by lia.
Qed.

(** ** Lemmas: page-table entries *)

Definition page_ok (pa : Z) : Prop := pa mod PGSIZE = 0 ∧ 0 <= pa < 2 ^ 56.

Lemma PA2PTE_eq pa : page_ok pa -> PA2PTE pa = pa / 4096 * 1024.
Proof.
  intros [H1 H2]. unfold PA2PTE. rewrite Z.shiftr_div_pow2, Z.shiftl_mul_pow2 by lia.
  change (2 ^ 12) with 4096. change (2 ^ 10) with 1024. apply u64_small. zmod.
Qed.

Lemma lor_low a f : 0 <= f < 1024 -> Z.lor (a * 1024) f = a * 1024 + f.
Proof.
  intros. change 1024 with (2 ^ 10). rewrite <- Z.shiftl_mul_pow2 by lia.
  symmetry. apply Z.add_nocarry_lor.
  { apply Z.bits_inj'. intros n Hn. rewrite Z.land_spec, Z.bits_0.
    destruct (Z_lt_dec n 10).
    - rewrite Z.shiftl_spec_low by lia. done.
    - replace (Z.testbit f n) with false; [apply andb_false_r|].
      symmetry. rewrite <- (Z.mod_small f (2 ^ 10)) by lia.
      apply Z.mod_pow2_bits_high. lia. }
Qed.

Lemma PTE2PA_PA2PTE pa flags :
  page_ok pa -> 0 <= flags < 1024 -> PTE2PA (Z.lor (PA2PTE pa) flags) = pa.
Proof.
  intros Hp Hf. rewrite PA2PTE_eq by done. rewrite lor_low by done.
  destruct Hp as [H1 H2]. change PGSIZE with 4096 in H1. unfold PTE2PA.
  rewrite Z.shiftr_div_pow2, Z.shiftl_mul_pow2 by lia.
  change (2 ^ 12) with 4096. change (2 ^ 10) with 1024.
  rewrite Z.div_add_l by lia. rewrite (Z.div_small flags) by lia.
  rewrite u64_small; zmod.
Qed.

Lemma PTE_FLAGS_PA2PTE pa flags :
  page_ok pa -> 0 <= flags < 1024 -> PTE_FLAGS (Z.lor (PA2PTE pa) flags) = flags.
Proof.
  intros Hp Hf. rewrite PA2PTE_eq by done. rewrite lor_low by done.
  unfold PTE_FLAGS. change 0x3FF with (Z.ones 10). rewrite Z.land_ones by lia.
  change (2 ^ 10) with 1024. rewrite Z.add_comm, Z.mod_add by lia. by apply Z.mod_small.
Qed.

Lemma PTE2PA_aligned pte : PTE2PA pte mod PGSIZE = 0.
Proof.
  unfold PTE2PA, u64. rewrite Z.shiftr_div_pow2, Z.shiftl_mul_pow2 by lia.
  change (2 ^ 64) with (4096 * 2 ^ 52). change (2 ^ 12) with 4096. change PGSIZE with 4096.
  rewrite Z.mul_comm, Zmult_mod_distr_l, Z.mul_comm. apply Z.mod_mul. lia.
Qed.

#[export] Hint Resolve PX_range PTE2PA_aligned : xv6.

#[global] Arguments load64 : simpl never.
#[global] Arguments store64 : simpl never.
#[global] Arguments PTE2PA : simpl never.
#[global] Arguments PA2PTE : simpl never.
#[global] Arguments PX : simpl never.
#[global] Arguments PGROUNDUP : simpl never.
#[global] Arguments PGROUNDDOWN : simpl never.

(** Proofs about these go through the lemmas above; closed terms still compute
    with [vm_compute]. *)
#[global] Opaque load64 store64 PGN PTE2PA PA2PTE PX PGROUNDUP PGROUNDDOWN.
