(* ===== verification/Kernel.v ===== *)
(** * The kernel's data model and the monad its functions run in

    The structures of src/xv6/kernel/*.h as records, the kernel's global
    variables and the machine as one state [kstate], and the type [K A] of a
    kernel function returning an [A].

    A run of a kernel function on one hart ends in
    - [Ok a s]: it returned [a] in state [s];
    - [Stop e s]: it never returns: panic(), a load or store at an address the
      kernel does not map, or the model's loop bound or the device's input ran
      out;
    - [Yield w s k]: it gave up the processor in state [s] (sched() switched
      to the scheduler, or acquire() is spinning on a lock held elsewhere) and
      continues with [k s'] in whatever state [s'] the rest of the system has
      then produced. *)

From Stdlib Require Import ZArith Lia.
From stdpp Require Import base numbers list gmap strings.
From S2P Require Import Prelude Machine.

(** spinlock.h: [struct spinlock]; [lk_cpu] is the index of the holder in [cpus] *)
Record spinlock := Spinlock {
  lk_locked : Z;
  lk_name : string;
  lk_cpu : option nat
}.
#[global] Instance eta_spinlock : Eta spinlock := λ r, Spinlock (lk_locked r) (lk_name r)
    (lk_cpu r).

(** sleeplock.h: [struct sleeplock]; its inner spinlock [lk->lk] is [L_sleep id] in the lock table *)
Record sleeplock := Sleeplock {
  sl_locked : Z;
  sl_name : string;
  sl_pid : Z
}.
#[global] Instance eta_sleeplock : Eta sleeplock := λ r, Sleeplock (sl_locked r) (sl_name r)
    (sl_pid r).

(** proc.h: [struct context], the registers [swtch] saves *)
Record context := Context {
  c_ra : Z; c_sp : Z; c_s0 : Z; c_s1 : Z; c_s2 : Z; c_s3 : Z; c_s4 : Z; c_s5 : Z; c_s6 : Z;
  c_s7 : Z; c_s8 : Z; c_s9 : Z; c_s10 : Z; c_s11 : Z
}.
#[global] Instance eta_context : Eta context := λ r, Context (c_ra r) (c_sp r) (c_s0 r)
    (c_s1 r) (c_s2 r) (c_s3 r) (c_s4 r) (c_s5 r) (c_s6 r) (c_s7 r) (c_s8 r) (c_s9 r) (c_s10 r)
    (c_s11 r).

(** proc.h: [struct cpu] *)
Record cpu := Cpu {
  cp_proc : option nat;
  cp_context : context;
  cp_noff : Z; cp_intena : Z
}.
#[global] Instance eta_cpu : Eta cpu := λ r, Cpu (cp_proc r) (cp_context r) (cp_noff r)
    (cp_intena r).

(** proc.h: [struct trapframe] *)
Record trapframe := Trapframe {
  tf_kernel_satp : Z; tf_kernel_sp : Z; tf_kernel_trap : Z; tf_epc : Z; tf_kernel_hartid :
  Z; tf_ra : Z; tf_sp : Z;
  tf_gp : Z; tf_tp : Z; tf_t0 : Z; tf_t1 : Z; tf_t2 : Z; tf_s0 : Z; tf_s1 : Z; tf_a0 : Z;
  tf_a1 : Z; tf_a2 : Z; tf_a3 : Z; tf_a4 : Z; tf_a5 : Z;
  tf_a6 : Z; tf_a7 : Z; tf_s2 : Z; tf_s3 : Z; tf_s4 : Z; tf_s5 : Z; tf_s6 : Z; tf_s7 : Z;
  tf_s8 : Z; tf_s9 : Z; tf_s10 : Z; tf_s11 : Z; tf_t3 : Z;
  tf_t4 : Z; tf_t5 : Z; tf_t6 : Z
}.
#[global] Instance eta_trapframe : Eta trapframe := λ r, Trapframe (tf_kernel_satp r)
    (tf_kernel_sp r) (tf_kernel_trap r) (tf_epc r) (tf_kernel_hartid r) (tf_ra r) (tf_sp r)
    (tf_gp r) (tf_tp r) (tf_t0 r) (tf_t1 r) (tf_t2 r) (tf_s0 r) (tf_s1 r) (tf_a0 r) (tf_a1 r)
    (tf_a2 r) (tf_a3 r) (tf_a4 r) (tf_a5 r) (tf_a6 r) (tf_a7 r) (tf_s2 r) (tf_s3 r) (tf_s4 r)
    (tf_s5 r) (tf_s6 r) (tf_s7 r) (tf_s8 r) (tf_s9 r) (tf_s10 r) (tf_s11 r) (tf_t3 r)
    (tf_t4 r) (tf_t5 r) (tf_t6 r).

(** proc.h: [enum procstate] *)
Inductive procstate := UNUSED | USED | SLEEPING | RUNNABLE | RUNNING | ZOMBIE.

#[global] Instance procstate_eq_dec : EqDecision procstate.
Proof. solve_decision. Defined.

(** The objects whose addresses name a sleep channel ([void *chan]). *)
Inductive slockid := SL_inode (i : nat) | SL_buf (b : nat).

#[global] Instance slockid_eq_dec : EqDecision slockid.
Proof. solve_decision. Defined.

Inductive channel :=
| Ch_null
| Ch_proc (p : nat)          (* wait(): the process itself *)
| Ch_sleeplock (l : slockid)
| Ch_pipe_nread (pi : Z) | Ch_pipe_nwrite (pi : Z)
| Ch_log | Ch_ticks | Ch_disk_free | Ch_buf (b : nat)
| Ch_cons_r | Ch_uart_tx_r.

#[global] Instance channel_eq_dec : EqDecision channel.
Proof. solve_decision. Defined.

(** proc.h: [struct proc]; its lock is [L_proc i], pointers to tables are indices *)
Record proc := Proc {
  p_state : procstate;
  p_chan : channel;
  p_killed : Z; p_xstate : Z; p_pid : Z;
  p_parent : option nat;
  p_kstack : Z; p_sz : Z; p_pagetable : Z; p_trapframe : Z;
  p_context : context;
  p_ofile : list (option nat);
  p_cwd : option nat;
  p_name : list Z
}.
#[global] Instance eta_proc : Eta proc := λ r, Proc (p_state r) (p_chan r) (p_killed r)
    (p_xstate r) (p_pid r) (p_parent r) (p_kstack r) (p_sz r) (p_pagetable r) (p_trapframe r)
    (p_context r) (p_ofile r) (p_cwd r) (p_name r).

(** file.h: the [type] of a [struct file] *)
Inductive filetype := FD_NONE | FD_PIPE | FD_INODE | FD_DEVICE.

#[global] Instance filetype_eq_dec : EqDecision filetype.
Proof. solve_decision. Defined.

(** file.h: [struct file] *)
Record file := File {
  f_type : filetype;
  f_ref : Z; f_readable : Z; f_writable : Z; f_pipe : Z;
  f_ip : option nat;
  f_off : Z; f_major : Z
}.
#[global] Instance eta_file : Eta file := λ r, File (f_type r) (f_ref r) (f_readable r)
    (f_writable r) (f_pipe r) (f_ip r) (f_off r) (f_major r).

(** file.h: [struct inode]; its sleep lock is [SL_inode i] *)
Record inode := Inode {
  i_dev : Z; i_inum : Z; i_ref : Z; i_valid : Z; i_type : Z; i_major : Z; i_minor : Z;
  i_nlink : Z; i_size : Z;
  i_addrs : list Z
}.
#[global] Instance eta_inode : Eta inode := λ r, Inode (i_dev r) (i_inum r) (i_ref r)
    (i_valid r) (i_type r) (i_major r) (i_minor r) (i_nlink r) (i_size r) (i_addrs r).

(** fs.h: [struct superblock] *)
Record superblock := Superblock {
  sb_magic : Z; sb_size : Z; sb_nblocks : Z; sb_ninodes : Z; sb_nlog : Z; sb_logstart : Z;
  sb_inodestart : Z;
  sb_bmapstart : Z
}.
#[global] Instance eta_superblock : Eta superblock := λ r, Superblock (sb_magic r) (sb_size r)
    (sb_nblocks r) (sb_ninodes r) (sb_nlog r) (sb_logstart r) (sb_inodestart r)
    (sb_bmapstart r).

(** fs.h: [struct dinode] *)
Record dinode := Dinode {
  d_type : Z; d_major : Z; d_minor : Z; d_nlink : Z; d_size : Z;
  d_addrs : list Z
}.
#[global] Instance eta_dinode : Eta dinode := λ r, Dinode (d_type r) (d_major r) (d_minor r)
    (d_nlink r) (d_size r) (d_addrs r).

(** buf.h: [struct buf]; its sleep lock is [SL_buf i]; [b_prev]/[b_next] are indices into the
    buffer array, the list head being the entry at index [NBUF] *)
Record buf := Buf {
  b_valid : Z; b_disk : Z; b_dev : Z; b_blockno : Z; b_refcnt : Z;
  b_prev : nat; b_next : nat;
  b_data : list Z
}.
#[global] Instance eta_buf : Eta buf := λ r, Buf (b_valid r) (b_disk r) (b_dev r)
    (b_blockno r) (b_refcnt r) (b_prev r) (b_next r) (b_data r).

(** log.c: [struct log] with its [struct logheader lh] *)
Record logstate := Logstate {
  lg_start : Z; lg_size : Z; lg_outstanding : Z; lg_committing : Z; lg_dev : Z; lh_n : Z;
  lh_block : list Z
}.
#[global] Instance eta_logstate : Eta logstate := λ r, Logstate (lg_start r) (lg_size r)
    (lg_outstanding r) (lg_committing r) (lg_dev r) (lh_n r) (lh_block r).

(** pipe.c: [struct pipe]; its lock is [L_pipe addr] *)
Record pipe := Pipe {
  pi_data : list Z;
  pi_nread : Z; pi_nwrite : Z; pi_readopen : Z; pi_writeopen : Z
}.
#[global] Instance eta_pipe : Eta pipe := λ r, Pipe (pi_data r) (pi_nread r) (pi_nwrite r)
    (pi_readopen r) (pi_writeopen r).

(** console.c: the [cons] structure *)
Record consstate := Consstate {
  co_buf : list Z;
  co_r : Z; co_w : Z; co_e : Z
}.
#[global] Instance eta_consstate : Eta consstate := λ r, Consstate (co_buf r) (co_r r)
    (co_w r) (co_e r).

(** uart.c: the transmit buffer [uart_tx_buf] and its indices *)
Record uartstate := Uartstate {
  ut_buf : list Z;
  ut_w : Z; ut_r : Z
}.
#[global] Instance eta_uartstate : Eta uartstate := λ r, Uartstate (ut_buf r) (ut_w r)
    (ut_r r).

(** virtio.h: [struct virtq_desc] *)
Record vdesc := Vdesc {
  vd_addr : Z; vd_len : Z; vd_flags : Z; vd_next : Z
}.
#[global] Instance eta_vdesc : Eta vdesc := λ r, Vdesc (vd_addr r) (vd_len r) (vd_flags r)
    (vd_next r).

(** virtio.h: [struct virtq_avail] *)
Record vavail := Vavail {
  va_flags : Z; va_idx : Z;
  va_ring : list Z
}.
#[global] Instance eta_vavail : Eta vavail := λ r, Vavail (va_flags r) (va_idx r) (va_ring r).

(** virtio.h: [struct virtq_used]; a ring element is (id, len) *)
Record vused := Vused {
  vu_flags : Z; vu_idx : Z;
  vu_ring : list (Z * Z)
}.
#[global] Instance eta_vused : Eta vused := λ r, Vused (vu_flags r) (vu_idx r) (vu_ring r).

(** virtio.h: [struct virtio_blk_req] *)
Record vreq := Vreq {
  vr_type : Z; vr_reserved : Z; vr_sector : Z
}.
#[global] Instance eta_vreq : Eta vreq := λ r, Vreq (vr_type r) (vr_reserved r) (vr_sector r).

(** virtio_disk.c: one entry of [disk.info] *)
Record vinfo := Vinfo {
  vi_b : option nat;
  vi_status : Z
}.
#[global] Instance eta_vinfo : Eta vinfo := λ r, Vinfo (vi_b r) (vi_status r).

(** virtio_disk.c: [struct disk]; the three DMA pages are viewed as the structures they hold *)
Record diskstate := Diskstate {
  dk_desc : list vdesc;
  dk_avail : vavail;
  dk_used : vused;
  dk_free : list Z;
  dk_used_idx : Z;
  dk_info : list vinfo;
  dk_ops : list vreq
}.
#[global] Instance eta_diskstate : Eta diskstate := λ r, Diskstate (dk_desc r) (dk_avail r)
    (dk_used r) (dk_free r) (dk_used_idx r) (dk_info r) (dk_ops r).

(** riscv.h: the control and status registers one hart exposes through [r_*]/[w_*] *)
Record hart := Hart {
  h_tp : Z; h_sstatus : Z; h_sepc : Z; h_scause : Z; h_stval : Z; h_stvec : Z; h_satp : Z;
  h_sip : Z; h_sie : Z; h_mstatus : Z;
  h_mepc : Z; h_medeleg : Z; h_mideleg : Z; h_mie : Z; h_mtvec : Z; h_mscratch : Z;
  h_pmpaddr0 : Z; h_pmpcfg0 : Z; h_mcounteren : Z
}.
#[global] Instance eta_hart : Eta hart := λ r, Hart (h_tp r) (h_sstatus r) (h_sepc r)
    (h_scause r) (h_stval r) (h_stvec r) (h_satp r) (h_sip r) (h_sie r) (h_mstatus r)
    (h_mepc r) (h_medeleg r) (h_mideleg r) (h_mie r) (h_mtvec r) (h_mscratch r) (h_pmpaddr0 r)
    (h_pmpcfg0 r) (h_mcounteren r).

(** file.h: the device functions [devsw] can hold: console.c's. *)
Inductive devid := Dev_console.

(** Every spinlock of the kernel, by the variable that holds it. *)
Inductive lockid :=
| L_pid | L_wait | L_proc (i : nat)
| L_kmem | L_bcache | L_itable | L_ftable | L_log
| L_cons | L_uart | L_pr | L_ticks | L_vdisk
| L_pipe (a : Z) | L_sleep (l : slockid).

#[global] Instance lockid_eq_dec : EqDecision lockid.
Proof. solve_decision. Defined.

#[global] Instance slockid_countable : Countable slockid.
Proof.
  refine (inj_countable'
    (λ l, match l with SL_inode i => inl i | SL_buf b => inr b end)
    (λ x, match x with inl i => SL_inode i | inr b => SL_buf b end) _).
  by intros [].
Defined.

Definition lockid_code (l : lockid) : nat * Z + slockid :=
  match l with
  | L_pid => inl (0%nat, 0) | L_wait => inl (1%nat, 0) | L_proc i => inl (2%nat, Z.of_nat i)
  | L_kmem => inl (3%nat, 0) | L_bcache => inl (4%nat, 0) | L_itable => inl (5%nat, 0)
  | L_ftable => inl (6%nat, 0) | L_log => inl (7%nat, 0) | L_cons => inl (8%nat, 0)
  | L_uart => inl (9%nat, 0) | L_pr => inl (10%nat, 0) | L_ticks => inl (11%nat, 0)
  | L_vdisk => inl (12%nat, 0) | L_pipe a => inl (13%nat, a) | L_sleep l => inr l
  end.

Definition lockid_decode (x : nat * Z + slockid) : lockid :=
  match x with
  | inl (0%nat, _) => L_pid | inl (1%nat, _) => L_wait | inl (2%nat, z) => L_proc (Z.to_nat z)
  | inl (3%nat, _) => L_kmem | inl (4%nat, _) => L_bcache | inl (5%nat, _) => L_itable
  | inl (6%nat, _) => L_ftable | inl (7%nat, _) => L_log | inl (8%nat, _) => L_cons
  | inl (9%nat, _) => L_uart | inl (10%nat, _) => L_pr | inl (11%nat, _) => L_ticks
  | inl (12%nat, _) => L_vdisk | inl (_, a) => L_pipe a | inr l => L_sleep l
  end.

#[global] Instance lockid_countable : Countable lockid.
Proof.
  refine (inj_countable' lockid_code lockid_decode _).
  intros []; simpl; try done. by rewrite Nat2Z.id.
Defined.

(** The state of the machine and of the kernel's global variables.

    - [k_cur]: the hart that is executing; [k_harts]: every hart's registers;
    - [k_mem]: memory at the kernel's (direct-mapped) addresses;
    - [k_mmio_in]: the values the next volatile loads from device registers
      return (the devices are arbitrary: every theorem holds for every such
      sequence); [k_mmio_out]: the stores to device registers, latest last;
    - [k_disk]: the blocks of the disk; [k_dhist]: the block writes it has
      completed, latest last;
    - [k_tframes], [k_pipes]: the structures held by pages that kalloc()
      returned and the kernel cast to [struct trapframe *] / [struct pipe *];
    - the others are the kernel's variables of the same name. *)
Record kstate := Kstate {
  k_cur : nat;
  k_harts : list hart;
  k_mem : memory;
  k_mmio_in : list Z;
  k_mmio_out : list (Z * Z);
  k_disk : gmap Z (list Z);
  k_dhist : list (Z * list Z);
  k_locks : gmap lockid spinlock;
  k_slocks : gmap slockid sleeplock;
  k_cpus : list cpu;
  k_procs : list proc;
  k_initproc : option nat;
  k_nextpid : Z;
  k_tframes : gmap Z trapframe;
  k_freelist : Z; k_kpgtbl : Z; k_ticks : Z;
  k_bufs : list buf;
  k_log : logstate;
  k_sb : superblock;
  k_inodes : list inode;
  k_files : list file;
  k_devsw : list (option devid * option devid);
  k_pipes : gmap Z pipe;
  k_cons : consstate;
  k_uart : uartstate;
  k_vdisk : diskstate;
  k_locking : Z; k_panicked : Z; k_first : Z; k_started : Z
}.
#[global] Instance eta_kstate : Eta kstate := λ r, Kstate (k_cur r) (k_harts r) (k_mem r)
    (k_mmio_in r) (k_mmio_out r) (k_disk r) (k_dhist r) (k_locks r) (k_slocks r) (k_cpus r)
    (k_procs r) (k_initproc r) (k_nextpid r) (k_tframes r) (k_freelist r) (k_kpgtbl r)
    (k_ticks r) (k_bufs r) (k_log r) (k_sb r) (k_inodes r) (k_files r) (k_devsw r) (k_pipes r)
    (k_cons r) (k_uart r) (k_vdisk r) (k_locking r) (k_panicked r) (k_first r) (k_started r).

(** Two states are equal when their fields are. *)
Lemma kstate_ext (s s' : kstate) :
  k_cur s = k_cur s' -> k_harts s = k_harts s' -> k_mem s = k_mem s' ->
  k_mmio_in s = k_mmio_in s' -> k_mmio_out s = k_mmio_out s' -> k_disk s = k_disk s' ->
  k_dhist s = k_dhist s' -> k_locks s = k_locks s' -> k_slocks s = k_slocks s' ->
  k_cpus s = k_cpus s' -> k_procs s = k_procs s' -> k_initproc s = k_initproc s' ->
  k_nextpid s = k_nextpid s' -> k_tframes s = k_tframes s' -> k_freelist s = k_freelist s' ->
  k_kpgtbl s = k_kpgtbl s' -> k_ticks s = k_ticks s' -> k_bufs s = k_bufs s' ->
  k_log s = k_log s' -> k_sb s = k_sb s' -> k_inodes s = k_inodes s' ->
  k_files s = k_files s' -> k_devsw s = k_devsw s' -> k_pipes s = k_pipes s' ->
  k_cons s = k_cons s' -> k_uart s = k_uart s' -> k_vdisk s = k_vdisk s' ->
  k_locking s = k_locking s' -> k_panicked s = k_panicked s' -> k_first s = k_first s' ->
  k_started s = k_started s' ->
  s = s'.
Proof. destruct s, s'. simpl. intros. by subst. Qed.

(** ** Kernel functions *)

Inductive stop :=
| Panic (msg : string)   (* panic(msg) *)
| Fault                  (* access outside the kernel's address space or an array *)
| NoFuel                 (* the bound on the model's waiting loops is exhausted *)
| NoInput.               (* [k_mmio_in] is exhausted: no further device reads are given *)

(** Why the processor was given up: acquire() found [l] held; sched() switched
    to the scheduler; the scheduler switched to process [p]; main() waits for
    the first hart to set [started]. *)
Inductive why := W_spin (l : lockid) | W_sched | W_run (p : nat) | W_started.

Inductive out (A : Type) : Type :=
| Ok (a : A) (s : kstate)
| Stop (e : stop) (s : kstate)
| Yield (w : why) (s : kstate) (k : kstate -> out A).
Arguments Ok {A} a s.
Arguments Stop {A} e s.
Arguments Yield {A} w s k.

Definition K (A : Type) : Type := kstate -> out A.

Fixpoint bindo {A B} (o : out A) (f : A -> kstate -> out B) : out B :=
  match o with
  | Ok a s => f a s
  | Stop e s => Stop e s
  | Yield w s k => Yield w s (λ s', bindo (k s') f)
  end.

Definition ret {A} (a : A) : K A := λ s, Ok a s.
Definition kbind {A B} (m : K A) (f : A -> K B) : K B := λ s, bindo (m s) f.

(** The C sequencing and assignment of a call's result. *)
Declare Scope kernel_scope.
#[global] Open Scope kernel_scope.
Notation "m ≫= f" := (kbind m f) : kernel_scope.
Notation "x ← m ; k" := (kbind m (λ x, k)) : kernel_scope.
Notation "' x ← m ; k" := (kbind m (λ x, k)) : kernel_scope.
Notation "m ;; k" := (kbind m (λ _, k)) : kernel_scope.

(** Number of times a waiting loop (a spin, or a sleep that is re-checked on
    wake-up) goes around before the model gives up with [NoFuel]. *)
Class Fuel := fuel : nat.

Definition gets {A} (f : kstate -> A) : K A := λ s, Ok (f s) s.
Definition modify (f : kstate -> kstate) : K unit := λ s, Ok tt (f s).
Definition halt {A} (e : stop) : K A := λ s, Stop e s.
Definition panic {A} (msg : string) : K A := halt (Panic msg).
Definition fault {A} : K A := halt Fault.
Definition yield_cpu (w : why) : K unit := λ s, Yield w s (λ s', Ok tt s').

(** Dereference: an absent array element or a null pointer faults. *)
Definition deref {A} (o : option A) : K A := match o with Some a => ret a | None => fault end.

(** [loop n body x]: a C loop run for at most [n] rounds; [body] returns
    [inl x'] to go around with loop variables [x'], [inr r] to leave. *)
Fixpoint loop {X R} (n : nat) (body : X -> K (X + R)) (x : X) : K R :=
  match n with
  | O => halt NoFuel
  | S n => r ← body x;
           match r with inl x' => loop n body x' | inr r => ret r end
  end.

(** [foreach l body]: [for (x in l) body], left early by [Some r] (a [return]
    or [break] in the body). *)
Fixpoint foreach {X R} (l : list X) (body : X -> K (option R)) : K (option R) :=
  match l with
  | [] => ret None
  | x :: l => r ← body x;
              match r with Some r => ret (Some r) | None => foreach l body end
  end.

(** [for_all l body]: a loop whose body never leaves early. *)
Fixpoint for_all {X} (l : list X) (body : X -> K unit) : K unit :=
  match l with
  | [] => ret tt
  | x :: l => body x ;; for_all l body
  end.

Definition when (b : bool) (m : K unit) : K unit := if b then m else ret tt.

(** *** Table entries *)
Definition getp (i : nat) : K proc := o ← gets (λ s, k_procs s !! i); deref o.
Definition updp (i : nat) (f : proc -> proc) : K unit :=
  getp i ;; modify (λ s, s <| k_procs ::= upd i f |>).
Definition getf (i : nat) : K file := o ← gets (λ s, k_files s !! i); deref o.
Definition updf (i : nat) (f : file -> file) : K unit :=
  getf i ;; modify (λ s, s <| k_files ::= upd i f |>).
Definition geti (i : nat) : K inode := o ← gets (λ s, k_inodes s !! i); deref o.
Definition updi (i : nat) (f : inode -> inode) : K unit :=
  geti i ;; modify (λ s, s <| k_inodes ::= upd i f |>).
Definition getb (i : nat) : K buf := o ← gets (λ s, k_bufs s !! i); deref o.
Definition updb (i : nat) (f : buf -> buf) : K unit :=
  getb i ;; modify (λ s, s <| k_bufs ::= upd i f |>).
Definition gettf (a : Z) : K trapframe := o ← gets (λ s, k_tframes s !! a); deref o.
Definition updtf (a : Z) (f : trapframe -> trapframe) : K unit :=
  t ← gettf a; modify (λ s, s <| k_tframes ::= <[a := f t]> |>).
Definition getpipe (a : Z) : K pipe := o ← gets (λ s, k_pipes s !! a); deref o.
Definition updpipe (a : Z) (f : pipe -> pipe) : K unit :=
  p ← getpipe a; modify (λ s, s <| k_pipes ::= <[a := f p]> |>).
Definition hart_get {A} (f : hart -> A) : K A :=
  o ← gets (λ s, k_harts s !! k_cur s); h ← deref o; ret (f h).
Definition hart_set (f : hart -> hart) : K unit :=
  o ← gets (λ s, k_harts s !! k_cur s);
  deref o ;; modify (λ s, s <| k_harts ::= upd (k_cur s) f |>).

(** *** Memory

    The kernel's page table direct-maps RAM and maps a stack per process high
    in the address space; any other address faults. *)
Definition kaddr_ok (a n : Z) : bool :=
  ((KERNBASE <=? a) && (a + n <=? PHYSTOP))
  || ((KSTACK (NPROC - 1) <=? a) && (a + n <=? TRAMPOLINE)).

Definition kload64 (a : Z) : K Z :=
  if kaddr_ok a 8 then gets (λ s, load64 (k_mem s) a) else fault.
Definition kstore64 (a v : Z) : K unit :=
  if kaddr_ok a 8 then modify (λ s, s <| k_mem ::= λ m, store64 m a v |>) else fault.
Definition kload_bytes (a : Z) (n : nat) : K (list Z) :=
  if kaddr_ok a (Z.of_nat n) then gets (λ s, load_bytes (k_mem s) a n) else fault.
Definition kstore_bytes (a : Z) (l : list Z) : K unit :=
  if kaddr_ok a (Z.of_nat (length l))
  then modify (λ s, s <| k_mem ::= λ m, store_bytes m a l |>) else fault.

(** *** Device registers *)
Definition mmio_read (a : Z) : K Z := λ s,
  match k_mmio_in s with
  | [] => Stop NoInput s
  | v :: r => Ok v (s <| k_mmio_in := r |>)
  end.
Definition mmio_write (a v : Z) : K unit :=
  modify (λ s, s <| k_mmio_out ::= λ o, o ++ [(a, v)] |>).

(** ** The state at boot

    C gives static storage the value zero; hart [i] finds its number in tp
    (start() puts it there), and the devices' input is [input]. *)
Definition zero_context : context := Context 0 0 0 0 0 0 0 0 0 0 0 0 0 0.
Definition zero_cpu : cpu := Cpu None zero_context 0 0.
Definition zero_proc : proc :=
  Proc UNUSED Ch_null 0 0 0 None 0 0 0 0 zero_context
    (replicate (Z.to_nat NOFILE) None) None (replicate 16 0).
Definition zero_file : file := File FD_NONE 0 0 0 0 None 0 0.
Definition zero_inode : inode := Inode 0 0 0 0 0 0 0 0 0 (replicate 13 0).
Definition zero_buf : buf := Buf 0 0 0 0 0 0 0 (replicate 1024 0).
Definition zero_hart (i : nat) : hart := Hart (Z.of_nat i) 0 0 0 0 0 0 0 0 0 0 0 0 0 0 0 0 0 0.
Definition zero_vdisk : diskstate :=
  Diskstate (replicate 8 (Vdesc 0 0 0 0)) (Vavail 0 0 (replicate 8 0))
    (Vused 0 0 (replicate 8 (0, 0))) (replicate 8 0) 0 (replicate 8 (Vinfo None 0))
    (replicate 8 (Vreq 0 0 0)).

Definition boot (input : list Z) (disk : gmap Z (list Z)) : kstate :=
  Kstate 0 (zero_hart <$> seq 0 (Z.to_nat NCPU)) ∅ input [] disk [] ∅ ∅
    (replicate (Z.to_nat NCPU) zero_cpu) (replicate (Z.to_nat NPROC) zero_proc) None 1 ∅
    0 0 0 (replicate (Z.to_nat (NBUF + 1)) zero_buf)
    (Logstate 0 0 0 0 0 0 (replicate (Z.to_nat LOGSIZE) 0)) (Superblock 0 0 0 0 0 0 0 0)
    (replicate (Z.to_nat NINODE) zero_inode) (replicate (Z.to_nat NFILE) zero_file)
    (replicate (Z.to_nat NDEV) (None, None)) ∅
    (Consstate (replicate 128 0) 0 0 0) (Uartstate (replicate 32 0) 0 0) zero_vdisk
    0 0 1 0.

(** *** Symbols the linker script and the assembly files place *)
Class Symbols := {
  end_ : Z; etext : Z; trampoline : Z; uservec : Z; userret : Z; kernelvec : Z;
  forkret_addr : Z; usertrap_addr : Z; timervec : Z; main_addr : Z; timer_scratch : Z
}.

(** A layout of the kind the linker produces, for examples. *)
Definition example_symbols : Symbols := {|
  end_ := KERNBASE + 0x21d20; etext := KERNBASE + 0x8000; trampoline := KERNBASE + 0x7000;
  uservec := KERNBASE + 0x7000; userret := KERNBASE + 0x709c; kernelvec := KERNBASE + 0x5a30;
  forkret_addr := KERNBASE + 0x19d4; usertrap_addr := KERNBASE + 0x2a1c;
  timervec := KERNBASE + 0x5ac0; main_addr := KERNBASE + 0xe2c;
  timer_scratch := KERNBASE + 0x9000 |}.

(** ** Reasoning about outcomes *)

(** [post G R E Q o]: every return of [o] satisfies [Q], every stop is allowed
    by [E], and whenever the run gives up the processor it does so in a state
    where [G] holds and resumes in any state the rely [R] allows. *)
Fixpoint post {A} (G : why -> kstate -> Prop) (R : kstate -> kstate -> Prop)
    (E : stop -> Prop) (Q : A -> kstate -> Prop) (o : out A) : Prop :=
  match o with
  | Ok a s => Q a s
  | Stop e _ => E e
  | Yield w s k => G w s ∧ ∀ s', R s s' -> post G R E Q (k s')
  end.

(** Whatever the rest of the system does, and however often the run waits:
    if it returns, it returns according to [Q]. *)
Definition any_return {A} (Q : A -> Prop) (o : out A) : Prop :=
  post (λ _ _, True) (λ _ _, True) (λ _, True) (λ a _, Q a) o.

Lemma post_bind {A B} G R E Q (o : out A) (f : A -> kstate -> out B) :
  post G R E (λ a s, post G R E Q (f a s)) o -> post G R E Q (bindo o f).
Proof.
  induction o as [a s|e s|w s k IH]; simpl; intros H; [done|done|].
  destruct H as [H1 H2]. split; [done|]. intros s' Hs. apply IH, H2, Hs.
Qed.

Lemma post_mono {A} (G G' : why -> kstate -> Prop) (R R' : kstate -> kstate -> Prop)
    (E E' : stop -> Prop) (Q Q' : A -> kstate -> Prop) o :
  (∀ w s, G w s -> G' w s) -> (∀ s s', R' s s' -> R s s') -> (∀ e, E e -> E' e) ->
  (∀ a s, Q a s -> Q' a s) -> post G R E Q o -> post G' R' E' Q' o.
Proof.
  intros HG HR HE HQ. induction o as [a s|e s|w s k IH]; simpl; intros H; auto.
  destruct H as [H1 H2]. split; auto.
Qed.

Lemma any_return_bind {A B} (Q : B -> Prop) (m : K A) (f : A -> K B) s :
  (∀ a s', any_return Q (f a s')) -> any_return Q ((m ≫= f) s).
Proof.
  intros H. unfold any_return. apply post_bind.
  induction (m s) as [a s'|e s'|w s' k IH]; simpl; [apply H|done|].
  split; [done|]. intros. apply IH.
Qed.

Lemma any_return_bind_post {A B} (P : A -> Prop) (Q : B -> Prop) (m : K A) (f : A -> K B) s :
  any_return P (m s) -> (∀ a s', P a -> any_return Q (f a s')) -> any_return Q ((m ≫= f) s).
Proof.
  intros HP H. unfold any_return. apply post_bind.
  revert HP. unfold any_return. apply post_mono; auto.
Qed.

Lemma any_return_loop {X R} (Q : R -> Prop) n (body : X -> K (X + R)) x s :
  (∀ x s, any_return (λ r, match r with inl _ => True | inr b => Q b end) (body x s)) ->
  any_return Q (loop n body x s).
Proof.
  intros Hb. revert x s. induction n as [|n IH]; intros x s; [done|].
  change (loop (S n) body x) with (r ← body x; match r with inl y => loop n body y | inr r => ret r end).
  eapply any_return_bind_post; [apply Hb|]. intros [y|r] s' Hr; [apply IH|exact Hr].
Qed.

(** Symbolic execution of runs that do not wait. *)
Lemma bind_ok {A B} (m : K A) (f : A -> K B) s a s' :
  m s = Ok a s' -> (m ≫= f) s = f a s'.
Proof. intros H. unfold kbind. by rewrite H. Qed.

Lemma bind_stop {A B} (m : K A) (f : A -> K B) s e s' :
  m s = Stop e s' -> (m ≫= f) s = Stop e s'.
Proof. intros H. unfold kbind. by rewrite H. Qed.

Lemma bind_inv {A B} (m : K A) (f : A -> K B) s b s' :
  (m ≫= f) s = Ok b s' -> ∃ a s1, m s = Ok a s1 ∧ f a s1 = Ok b s'.
Proof.
  unfold kbind. destruct (m s) as [a s1|e s1|w s1 k]; simpl; intros H; try done. eauto.
Qed.

Lemma bind_then {A} (m m' : K unit) (k : K A) s s' :
  (m ;; m') s = Ok tt s' -> (m ;; m' ;; k) s = k s'.
Proof. unfold kbind. destruct (m s); simpl; [|done..]. intros E. by rewrite E. Qed.

Lemma bind_gets {A B} (g : kstate -> A) (f : A -> K B) s : (gets g ≫= f) s = f (g s) s.
Proof. done. Qed.

Lemma bind_modify {B} g (f : unit -> K B) s : (modify g ≫= f) s = f tt (g s).
Proof. done. Qed.

Lemma bind_ret {A B} (a : A) (f : A -> K B) s : (ret a ≫= f) s = f a s.
Proof. done. Qed.

Lemma getp_ok i p s : k_procs s !! i = Some p -> getp i s = Ok p s.
Proof. intros H. unfold getp. rewrite bind_gets. by rewrite H. Qed.

Lemma updp_ok i p f s :
  k_procs s !! i = Some p -> updp i f s = Ok tt (s <| k_procs ::= upd i f |>).
Proof. intros H. unfold updp. by rewrite (bind_ok _ _ _ _ _ (getp_ok i p s H)). Qed.

Lemma getb_ok i b s : k_bufs s !! i = Some b -> getb i s = Ok b s.
Proof. intros H. unfold getb. rewrite bind_gets. by rewrite H. Qed.

Lemma updb_ok i b f s :
  k_bufs s !! i = Some b -> updb i f s = Ok tt (s <| k_bufs ::= upd i f |>).
Proof. intros H. unfold updb. by rewrite (bind_ok _ _ _ _ _ (getb_ok i b s H)). Qed.

Lemma kload64_ok a s : kaddr_ok a 8 = true -> kload64 a s = Ok (load64 (k_mem s) a) s.
Proof. intros H. unfold kload64. by rewrite H. Qed.

Lemma kstore64_ok a v s :
  kaddr_ok a 8 = true -> kstore64 a v s = Ok tt (s <| k_mem ::= λ m, store64 m a v |>).
Proof. intros H. unfold kstore64. by rewrite H. Qed.

Lemma kaddr_ok_ram a n : KERNBASE <= a -> a + n <= PHYSTOP -> kaddr_ok a n = true.
Proof. intros. unfold kaddr_ok. apply orb_true_iff. left. apply andb_true_iff. split; lia. Qed.

Lemma kaddr_ok_null n : 0 <= n -> kaddr_ok 0 n = false.
Proof.
  intros. unfold kaddr_ok.
  replace (KERNBASE <=? 0) with false by reflexivity.
  by replace (KSTACK (NPROC - 1) <=? 0) with false by reflexivity.
Qed.

(** Equality of two states, field by field. *)
Ltac keq := apply kstate_ext; simpl; try reflexivity.

Lemma ok_eq {A} (a : A) s s' : s = s' -> Ok a s = Ok a s'.
Proof. by intros ->. Qed.

(** One step of a run whose next call is known to return. *)
Ltac krun H := rewrite (bind_ok _ _ _ _ _ H).

(** Continue from the same state written as [x]. *)
Ltac kstate_is x :=
  lazymatch goal with
  | |- ?f ?s = _ => let E := fresh in assert (E : s = x) by keq; rewrite E; clear E
  end.
