(* ===== verification/Riscv.v ===== *)
(** * riscv.h: the control and status registers

    The inline functions r_*() and w_*() of riscv.h, each one instruction that
    reads or writes a register of the hart that executes it, and intr_on(),
    intr_off() and intr_get(), which are made of them.  The registers are the
    fields of [hart] (Kernel.v).  A read followed by a write of the same
    register is a single update of it ([hart_rmw]); nothing comes between the
    two on the hart itself. *)

From Stdlib Require Import ZArith Lia.
From stdpp Require Import base numbers list gmap strings.
From S2P Require Import Prelude Machine Kernel.

(** which hart (core) is this? *)
Definition r_mhartid : K Z := c ← gets k_cur; ret (Z.of_nat c).

Definition r_mstatus : K Z := hart_get h_mstatus.
Definition w_mstatus (x : Z) : K unit := hart_set (λ h, h <| h_mstatus := x |>).
Definition w_mepc (x : Z) : K unit := hart_set (λ h, h <| h_mepc := x |>).
Definition r_sstatus : K Z := hart_get h_sstatus.
Definition w_sstatus (x : Z) : K unit := hart_set (λ h, h <| h_sstatus := x |>).
Definition r_sip : K Z := hart_get h_sip.
Definition w_sip (x : Z) : K unit := hart_set (λ h, h <| h_sip := x |>).
Definition r_sie : K Z := hart_get h_sie.
Definition w_sie (x : Z) : K unit := hart_set (λ h, h <| h_sie := x |>).
Definition r_mie : K Z := hart_get h_mie.
Definition w_mie (x : Z) : K unit := hart_set (λ h, h <| h_mie := x |>).
Definition w_sepc (x : Z) : K unit := hart_set (λ h, h <| h_sepc := x |>).
Definition r_sepc : K Z := hart_get h_sepc.
Definition r_medeleg : K Z := hart_get h_medeleg.
Definition w_medeleg (x : Z) : K unit := hart_set (λ h, h <| h_medeleg := x |>).
Definition r_mideleg : K Z := hart_get h_mideleg.
Definition w_mideleg (x : Z) : K unit := hart_set (λ h, h <| h_mideleg := x |>).
Definition w_stvec (x : Z) : K unit := hart_set (λ h, h <| h_stvec := x |>).
Definition r_stvec : K Z := hart_get h_stvec.
Definition w_mtvec (x : Z) : K unit := hart_set (λ h, h <| h_mtvec := x |>).
Definition w_pmpcfg0 (x : Z) : K unit := hart_set (λ h, h <| h_pmpcfg0 := x |>).
Definition w_pmpaddr0 (x : Z) : K unit := hart_set (λ h, h <| h_pmpaddr0 := x |>).
Definition w_satp (x : Z) : K unit := hart_set (λ h, h <| h_satp := x |>).
Definition r_satp : K Z := hart_get h_satp.
Definition w_mscratch (x : Z) : K unit := hart_set (λ h, h <| h_mscratch := x |>).
Definition r_scause : K Z := hart_get h_scause.
Definition r_stval : K Z := hart_get h_stval.
Definition w_mcounteren (x : Z) : K unit := hart_set (λ h, h <| h_mcounteren := x |>).
Definition r_mcounteren : K Z := hart_get h_mcounteren.
Definition r_tp : K Z := hart_get h_tp.
Definition w_tp (x : Z) : K unit := hart_set (λ h, h <| h_tp := x |>).

(** The bit of sstatus that lets the hart take interrupts. *)
Definition sie_on (sstatus : Z) : bool := truth (Z.land sstatus SSTATUS_SIE).

Definition intr_on : K unit := x ← r_sstatus; w_sstatus (Z.lor x SSTATUS_SIE).
Definition intr_off : K unit := x ← r_sstatus; w_sstatus (Z.land x (Z.lnot SSTATUS_SIE)).
Definition intr_get : K Z := x ← r_sstatus; ret (b2z (sie_on x)).

(** ** Reading and writing one register *)

Lemma hart_get_ok {A} (g : hart -> A) s h :
  k_harts s !! k_cur s = Some h -> hart_get g s = Ok (g h) s.
Proof. intros Hh. unfold hart_get. by rewrite bind_gets, Hh. Qed.

Lemma hart_set_ok f s h :
  k_harts s !! k_cur s = Some h -> hart_set f s = Ok tt (s <| k_harts ::= upd (k_cur s) f |>).
Proof. intros Hh. unfold hart_set. by rewrite bind_gets, Hh. Qed.

(** A read, a computation and a write are one update of the hart: all that
    matters is what becomes of the hart that was there. *)
Lemma hart_rmw {A} (g : hart -> A) (w : A -> hart -> hart) (f : hart -> hart) s h :
  k_harts s !! k_cur s = Some h -> w (g h) h = f h ->
  (x ← hart_get g; hart_set (w x)) s = Ok tt (s <| k_harts ::= upd (k_cur s) f |>).
Proof.
  intros Hh Hw. rewrite (bind_ok _ _ _ _ _ (hart_get_ok g s h Hh)), (hart_set_ok _ _ _ Hh).
  f_equal. keq. by eapply upd_ext.
Qed.

Lemma intr_on_set s h :
  k_harts s !! k_cur s = Some h ->
  intr_on s = Ok tt (s <| k_harts ::= upd (k_cur s)
    (λ h, h <| h_sstatus ::= λ x, Z.lor x SSTATUS_SIE |>) |>).
Proof. intros Hh. by apply (hart_rmw _ _ _ s h Hh). Qed.

Lemma intr_off_set s h :
  k_harts s !! k_cur s = Some h ->
  intr_off s = Ok tt (s <| k_harts ::= upd (k_cur s)
    (λ h, h <| h_sstatus ::= λ x, Z.land x (Z.lnot SSTATUS_SIE) |>) |>).
Proof. intros Hh. by apply (hart_rmw _ _ _ s h Hh). Qed.

Lemma intr_get_value s h :
  k_harts s !! k_cur s = Some h -> intr_get s = Ok (b2z (sie_on (h_sstatus h))) s.
Proof. intros Hh. unfold intr_get, r_sstatus. by rewrite (bind_ok _ _ _ _ _ (hart_get_ok _ s h Hh)). Qed.
