(* ===== verification/Strings.v ===== *)
(** * string.c

    The memory functions work on addresses in [memory]; the string functions
    work on the array a pointer points into, a list of bytes, and return [None]
    when the C code would read or write outside that array. *)

From Stdlib Require Import ZArith Lia.
From stdpp Require Import base numbers list gmap strings.
From S2P Require Import Prelude Machine Kernel.

(** ** Memory functions *)

(** [for(i = 0; i < n; i++) cdst[i] = c;] *)
Fixpoint memset (m : memory) (dst c : Z) (n : nat) : memory :=
  match n with
  | O => m
  | S n => memset (store8 m dst c) (dst + 1) c n
  end.

(** [while(n-- > 0){ if( *s1 != *s2) return *s1 - *s2; s1++, s2++; } return 0;] *)
Fixpoint memcmp (m : memory) (s1 s2 : Z) (n : nat) : Z :=
  match n with
  | O => 0
  | S n => if load8 m s1 =? load8 m s2 then memcmp m (s1 + 1) (s2 + 1) n
           else load8 m s1 - load8 m s2
  end.

(** [while(n-- > 0) *d++ = *s++;] *)
Fixpoint copy_forward (m : memory) (d s : Z) (n : nat) : memory :=
  match n with
  | O => m
  | S n => copy_forward (store8 m d (load8 m s)) (d + 1) (s + 1) n
  end.

(** [while(n-- > 0) *--d = *--s;] *)
Fixpoint copy_backward (m : memory) (d s : Z) (n : nat) : memory :=
  match n with
  | O => m
  | S n => copy_backward (store8 m (d - 1) (load8 m (s - 1))) (d - 1) (s - 1) n
  end.

Definition memmove (m : memory) (dst src : Z) (n : nat) : memory :=
  match n with
  | O => m
  | _ => if (src <? dst) && (dst <? src + Z.of_nat n)
         then copy_backward m (dst + Z.of_nat n) (src + Z.of_nat n) n
         else copy_forward m dst src n
  end.

Definition memcpy (m : memory) (dst src : Z) (n : nat) : memory := memmove m dst src n.

(** The same calls made by kernel code: every byte touched must be mapped. *)
Definition kmemset (dst c : Z) (n : nat) : K unit :=
  if kaddr_ok dst (Z.of_nat n)
  then modify (λ s, s <| k_mem ::= λ m, memset m dst c n |>) else fault.

Definition kmemmove (dst src : Z) (n : nat) : K unit :=
  if kaddr_ok dst (Z.of_nat n) && kaddr_ok src (Z.of_nat n)
  then modify (λ s, s <| k_mem ::= λ m, memmove m dst src n |>) else fault.

(** ** String functions *)

Fixpoint strncmp (p q : list Z) (n : nat) {struct n} : option Z :=
  match n with
  | O => Some 0
  | S n =>
      match p, q with
      | a :: p', b :: q' => if truth a && (a =? b) then strncmp p' q' n else Some (u8 a - u8 b)
      | _, _ => None
      end
  end.

(** [while(n-- > 0) *s++ = 0;] *)
Fixpoint zero_fill (n : nat) (s : list Z) : option (list Z) :=
  match n, s with
  | O, _ => Some s
  | S n, _ :: s => cons 0 <$> zero_fill n s
  | _, _ => None
  end.

Fixpoint strncpy (s t : list Z) (n : nat) {struct n} : option (list Z) :=
  match n with
  | O => Some s
  | S n =>
      match s, t with
      | _ :: s', c :: t' =>
          if c =? 0 then cons 0 <$> zero_fill n s' else cons c <$> strncpy s' t' n
      | _, _ => None
      end
  end.

(** [*s = 0;] *)
Definition put_nul (s : list Z) : option (list Z) :=
  match s with _ :: s => Some (0 :: s) | [] => None end.

(** [while(--n > 0 && ( *s++ = *t++) != 0) ; *s = 0;], entered with [k = n - 1] *)
Fixpoint safestrcpy_loop (k : nat) (s t : list Z) : option (list Z) :=
  match k with
  | O => put_nul s
  | S k =>
      match s, t with
      | _ :: s', c :: t' =>
          if c =? 0 then cons 0 <$> put_nul s' else cons c <$> safestrcpy_loop k s' t'
      | _, _ => None
      end
  end.

Definition safestrcpy (s t : list Z) (n : Z) : option (list Z) :=
  if n <=? 0 then Some s else safestrcpy_loop (Z.to_nat (n - 1)) s t.

Fixpoint strlen (s : list Z) : option Z :=
  match s with
  | [] => None
  | c :: s => if c =? 0 then Some 0 else Z.succ <$> strlen s
  end.

(** ** Specifications *)

(** The C string held by an array, cut at [n] bytes: the bytes before the first NUL. *)
Fixpoint cstr (n : nat) (l : list Z) : list Z :=
  match n, l with
  | S n, c :: l => if c =? 0 then [] else c :: cstr n l
  | _, _ => []
  end.

Definition bytes_ok (l : list Z) : Prop := Forall (λ b, 0 <= b < 256) l.

(** ** Lemmas *)

Lemma load8_memset m dst c n x :
  load8 (memset m dst c n) x =
    if decide (dst <= x < dst + Z.of_nat n) then u8 c else load8 m x.
Proof.
  revert m dst. induction n as [|n IH]; intros m dst.
  { simpl. rewrite decide_False; [done|lia]. }
  cbn [memset]. rewrite IH. destruct (decide (x = dst)) as [->|Hne].
  - rewrite decide_False, decide_True by lia. apply load8_store8_eq.
  - rewrite load8_store8_ne by done.
    destruct (decide (dst + 1 <= x < dst + 1 + Z.of_nat n));
      destruct (decide (dst <= x < dst + Z.of_nat (S n))); try done; lia.
Qed.

Lemma mem_wf_memset m dst c n : mem_wf m -> mem_wf (memset m dst c n).
Proof. intros H x. rewrite load8_memset. case_decide; [apply u8_range|apply H]. Qed.

Lemma eq_outside_memset m dst c n : eq_outside m (memset m dst c n) dst (Z.of_nat n).
Proof. intros x Hx. rewrite load8_memset. by rewrite decide_False by lia. Qed.

Lemma load64_memset0 m dst n a :
  dst <= a -> a + 8 <= dst + Z.of_nat n -> load64 (memset m dst 0 n) a = 0.
Proof.
  intros H1 H2. Transparent load64. unfold load64. Opaque load64.
  assert (Hz : ∀ x, dst <= x < dst + Z.of_nat n -> load8 (memset m dst 0 n) x = 0).
  { intros x Hx. rewrite load8_memset. by rewrite decide_True by lia. }
  cbn [load_le]. rewrite !Hz by lia. lia.
Qed.

Lemma load8_copy_forward m d s n x :
  mem_wf m -> d <= s ∨ s + Z.of_nat n <= d ->
  load8 (copy_forward m d s n) x =
    if decide (d <= x < d + Z.of_nat n) then load8 m (s + (x - d)) else load8 m x.
Proof.
  intros Hm. revert m d s Hm. induction n as [|n IH]; intros m d s Hm Hd.
  { simpl. by rewrite decide_False by lia. }
  cbn [copy_forward]. rewrite IH by (auto with xv6 || lia).
  destruct (decide (x = d)) as [->|Hne].
  - rewrite decide_False, decide_True, load8_store8_eq by lia.
    rewrite u8_small by apply Hm. f_equal. lia.
  - destruct (decide (d <= x < d + Z.of_nat (S n))).
    + rewrite decide_True by lia. rewrite load8_store8_ne by lia. f_equal. lia.
    + rewrite decide_False by lia. by rewrite load8_store8_ne.
Qed.

Lemma load8_copy_backward m d s n x :
  mem_wf m -> s <= d ->
  load8 (copy_backward m d s n) x =
    if decide (d - Z.of_nat n <= x < d) then load8 m (s - (d - x)) else load8 m x.
Proof.
  intros Hm. revert m d s Hm. induction n as [|n IH]; intros m d s Hm Hd.
  { simpl. by rewrite decide_False by lia. }
  cbn [copy_backward]. rewrite IH by (auto with xv6 || lia).
  destruct (decide (x = d - 1)) as [->|Hne].
  - rewrite decide_False, decide_True, load8_store8_eq by lia.
    rewrite u8_small by apply Hm. f_equal. lia.
  - destruct (decide (d - Z.of_nat (S n) <= x < d)).
    + rewrite decide_True by lia. rewrite load8_store8_ne by lia. f_equal. lia.
    + rewrite decide_False by lia. by rewrite load8_store8_ne.
Qed.

Lemma load8_memmove m d s n x :
  mem_wf m ->
  load8 (memmove m d s n) x =
    if decide (d <= x < d + Z.of_nat n) then load8 m (s + (x - d)) else load8 m x.
Proof.
  intros Hm. unfold memmove. destruct n as [|n].
  { by rewrite decide_False by lia. }
  set (k := S n). destruct ((s <? d) && (d <? s + Z.of_nat k)) eqn:E.
  - zb. rewrite load8_copy_backward by (done || lia).
    destruct (decide (d <= x < d + Z.of_nat k)).
    + rewrite decide_True by lia. f_equal. lia.
    + by rewrite decide_False by lia.
  - apply load8_copy_forward; [done|].
    apply andb_false_iff in E as [E|E]; zb; lia.
Qed.

Lemma mem_wf_memmove m d s n : mem_wf m -> mem_wf (memmove m d s n).
Proof. intros H x. rewrite load8_memmove by done. case_decide; apply H. Qed.

#[export] Hint Resolve mem_wf_memset mem_wf_memmove : xv6.

Lemma load_bytes_ext m m' a b n :
  (∀ i, 0 <= i < Z.of_nat n -> load8 m' (b + i) = load8 m (a + i)) ->
  load_bytes m' b n = load_bytes m a n.
Proof.
  intros H. unfold load_bytes. apply list_fmap_ext. intros i x Hx.
  apply lookup_seq in Hx as [-> Hx]. apply H. lia.
Qed.

(** memmove() copies the source as it was before the call, whatever the
    overlap of the two regions, and changes nothing else. *)
Lemma memmove_copies (m : memory) (dst src : Z) (n : nat) :
  mem_wf m ->
  load_bytes (memmove m dst src n) dst n = load_bytes m src n
  ∧ eq_outside m (memmove m dst src n) dst (Z.of_nat n).
Proof.
  intros Hm. split.
  - apply load_bytes_ext. intros i Hi. rewrite load8_memmove by done.
    rewrite decide_True by lia. f_equal. lia.
  - intros x Hx. rewrite load8_memmove by done. by rewrite decide_False by lia.
Qed.

Lemma memcmp_zero m s1 s2 n :
  memcmp m s1 s2 n = 0 <-> load_bytes m s1 n = load_bytes m s2 n.
Proof.
  revert s1 s2. induction n as [|n IH]; intros s1 s2; [done|].
  cbn [memcmp]. rewrite !load_bytes_S. destruct (Z.eqb_spec (load8 m s1) (load8 m s2)) as [E|E].
  - rewrite E, IH. split; [by intros ->|]. intros [=]. done.
  - split; [lia|]. intros [=]. done.
Qed.

Lemma length_zero_fill n s s' : zero_fill n s = Some s' -> s' = replicate n 0 ++ drop n s.
Proof.
  revert s s'. induction n as [|n IH]; intros s s'; simpl; [by intros [= ->]|].
  destruct s as [|c s]; [done|]. intros H. apply fmap_Some in H as (l & Hl & ->).
  simpl. f_equal. by apply IH.
Qed.

Lemma zero_fill_total n s : (n <= length s)%nat -> is_Some (zero_fill n s).
Proof.
  revert s. induction n as [|n IH]; intros [|c s] H; simpl in *; try (by eexists); try lia.
  destruct (IH s ltac:(lia)) as [l ->]. by eexists.
Qed.

Lemma strncpy_spec s t n s' :
  strncpy s t n = Some s' ->
  s' = cstr n t ++ replicate (n - length (cstr n t)) 0 ++ drop n s.
Proof.
  revert s t s'. induction n as [|n IH]; intros s t s'; simpl; [by intros [= ->]|].
  destruct s as [|x s]; [done|]. destruct t as [|c t]; [done|].
  destruct (Z.eqb_spec c 0) as [->|Hc]; intros H; apply fmap_Some in H as (l & Hl & ->).
  - simpl. f_equal. by apply length_zero_fill.
  - simpl. f_equal. by apply IH.
Qed.

Lemma strncpy_total s t n :
  (n <= length s)%nat -> (n <= length t)%nat -> is_Some (strncpy s t n).
Proof.
  revert s t. induction n as [|n IH]; intros [|x s] [|c t] Hs Ht; simpl in *;
    try (by eexists); try lia.
  destruct (c =? 0).
  - destruct (zero_fill_total n s ltac:(lia)) as [l ->]. by eexists.
  - destruct (IH s t ltac:(lia) ltac:(lia)) as [l ->]. by eexists.
Qed.

Lemma cstr_length n l : (length (cstr n l) <= n)%nat.
Proof.
  revert l. induction n as [|n IH]; intros [|c l]; simpl; try lia.
  destruct (c =? 0); simpl; [lia|]. specialize (IH l). lia.
Qed.

Lemma safestrcpy_loop_spec k s t s' :
  safestrcpy_loop k s t = Some s' ->
  length s' = length s ∧ ∃ r, s' = cstr k t ++ 0 :: r.
Proof.
  revert s t s'. induction k as [|k IH]; intros s t s'; simpl.
  - destruct s as [|x s]; [done|]. intros [= <-]. split; [done|]. by exists s.
  - destruct s as [|x s]; [done|]. destruct t as [|c t]; [done|].
    destruct (Z.eqb_spec c 0) as [->|Hc]; intros H; apply fmap_Some in H as (l & Hl & ->).
    + destruct s as [|y s]; [done|]. injection Hl as <-. split; [done|]. by exists (0 :: s).
    + destruct (IH _ _ _ Hl) as [Hlen [r Hr]]. simpl. split; [by rewrite Hlen|].
      exists r. by rewrite Hr.
Qed.

Lemma safestrcpy_total k s t :
  (k < length s)%nat -> (k <= length t)%nat -> is_Some (safestrcpy_loop k s t).
Proof.
  revert s t. induction k as [|k IH]; intros [|x s] [|c t] Hs Ht; simpl in *;
    try (by eexists); try lia.
  destruct (c =? 0).
  - destruct s as [|y s]; simpl in *; [lia|]. by eexists.
  - destruct (IH s t ltac:(lia) ltac:(lia)) as [l ->]. by eexists.
Qed.

Lemma strncmp_zero p q n :
  bytes_ok p -> bytes_ok q -> (n <= length p)%nat -> (n <= length q)%nat ->
  ∃ r, strncmp p q n = Some r ∧ (r = 0 <-> cstr n p = cstr n q).
Proof.
  revert p q. induction n as [|n IH]; intros [|a p] [|b q] Hp Hq Lp Lq; simpl in *;
    try lia; try (by eexists).
  apply Forall_cons in Hp as [Ha Hp]. apply Forall_cons in Hq as [Hb Hq].
  unfold truth. destruct (Z.eqb_spec a 0) as [->|Hna]; simpl.
  - eexists; split; [done|]. rewrite !u8_small by lia.
    destruct (Z.eqb_spec b 0) as [->|]; split; try done; try lia.
  - destruct (Z.eqb_spec a b) as [<-|Hab].
    + destruct (IH p q Hp Hq ltac:(lia) ltac:(lia)) as (r & Hr & Hi).
      exists r. split; [done|]. destruct (Z.eqb_spec a 0); [done|]. rewrite Hi.
      split; [by intros ->|]. by intros [=].
    + eexists; split; [done|]. rewrite !u8_small by lia.
      destruct (Z.eqb_spec b 0); split; try done; try lia. intros [=]. done.
Qed.

Lemma strlen_spec s n :
  strlen s = Some n <->
  0 <= n ∧ s !! Z.to_nat n = Some 0 ∧ ∀ i c, (i < Z.to_nat n)%nat -> s !! i = Some c -> c <> 0.
Proof.
  revert n. induction s as [|c s IH]; intros n; simpl.
  { split; [done|]. intros (_ & H & _). by rewrite lookup_nil in H. }
  destruct (Z.eqb_spec c 0) as [->|Hc].
  - split.
    + intros [= <-]. split; [lia|]. split; [done|]. intros i x Hi. simpl in Hi. lia.
    + intros (H0 & _ & H). destruct (Z.to_nat n) as [|k] eqn:E; [f_equal; lia|].
      by destruct (H 0%nat 0 ltac:(lia)).
  - split.
    + intros H. apply fmap_Some in H as (k & Hk & ->). apply IH in Hk as (H0 & H1 & H2).
      rewrite Z2Nat.inj_succ by lia. split; [lia|]. split; [done|].
      intros [|i] x Hi; simpl; [by intros [= <-]|]. apply H2. lia.
    + intros (H0 & H1 & H2). destruct (Z.to_nat n) as [|k] eqn:E; [by injection H1|].
      replace n with (Z.succ (n - 1)) by lia.
      destruct (IH (n - 1)) as [_ HI]. rewrite HI; [done|].
      replace (Z.to_nat (n - 1)) with k by lia. split; [lia|]. split; [done|].
      intros i x Hi. apply (H2 (S i)). lia.
Qed.

Lemma kmemset_ok dst c n s :
  kaddr_ok dst (Z.of_nat n) = true ->
  kmemset dst c n s = Ok tt (s <| k_mem ::= λ m, memset m dst c n |>).
Proof. intros H. unfold kmemset. by rewrite H. Qed.

#[global] Arguments memset : simpl never.
#[global] Arguments memmove : simpl never.
#[global] Opaque memset memmove.
