(* ===== verification/Spinlock.v ===== *)
(** * spinlock.c (and cpuid/mycpu of proc.c)

    First the functions, in the monad of Kernel.v; then the laws their clients
    use: acquire() on a free lock enters the state [enter l s], and release()
    from there returns to [s] exactly.  Last, the lock at the granularity of
    its atomic instructions, run by any number of harts, with mutual exclusion
    proved by induction on the interleavings. *)

From Stdlib Require Import ZArith Lia.
From stdpp Require Import base numbers list gmap strings.
From S2P Require Import Prelude Machine Kernel Riscv.

(** ** proc.c: the current CPU *)
Definition cpuid : K Z := id ← r_tp; ret (i32 id).
Definition mycpu : K nat := id ← cpuid; ret (Z.to_nat id).

Definition getcpu (c : nat) : K cpu := o ← gets (λ s, k_cpus s !! c); deref o.
Definition updcpu (c : nat) (f : cpu -> cpu) : K unit :=
  getcpu c ;; modify (λ s, s <| k_cpus ::= upd c f |>).

(** ** The lock table; an object never initialised is zeroed static storage *)
Definition lock_of (s : kstate) (l : lockid) : spinlock :=
  default (Spinlock 0 "" None) (k_locks s !! l).
Definition getlock (l : lockid) : K spinlock := gets (λ s, lock_of s l).
Definition setlock (l : lockid) (f : spinlock -> spinlock) : K unit :=
  modify (λ s, s <| k_locks ::= <[l := f (lock_of s l)]> |>).

Definition initlock (l : lockid) (name : string) : K unit :=
  setlock l (λ _, Spinlock 0 name None).

Definition holding (l : lockid) : K bool :=
  lk ← getlock l; c ← mycpu;
  ret (truth (lk_locked lk) && bool_decide (lk_cpu lk = Some c)).

(** [noff] counts nested critical sections; it is a C [int] whose overflow is
    undefined, so it is kept as an unbounded integer. *)
Definition push_off : K unit :=
  old ← intr_get;
  intr_off ;;
  c ← mycpu; cp ← getcpu c;
  when (cp_noff cp =? 0) (updcpu c (λ cp, cp <| cp_intena := old |>)) ;;
  updcpu c (λ cp, cp <| cp_noff ::= λ n, n + 1 |>).

Definition pop_off : K unit :=
  c ← mycpu;
  on ← intr_get;
  if truth on then panic "pop_off - interruptible" else
  cp ← getcpu c;
  if cp_noff cp <? 1 then panic "pop_off" else
  updcpu c (λ cp, cp <| cp_noff ::= λ n, n - 1 |>) ;;
  cp ← getcpu c;
  when ((cp_noff cp =? 0) && truth (cp_intena cp)) intr_on.

(** [while(__sync_lock_test_and_set(&lk->locked, 1) != 0) ;] *)
Fixpoint spin (n : nat) (l : lockid) : K unit :=
  match n with
  | O => halt NoFuel
  | S n =>
      lk ← getlock l;
      setlock l (λ lk, lk <| lk_locked := 1 |>) ;;
      if truth (lk_locked lk) then yield_cpu (W_spin l) ;; spin n l else ret tt
  end.

Definition acquire `{Fuel} (l : lockid) : K unit :=
  push_off ;;
  h ← holding l;
  if h then panic "acquire" else
  spin fuel l ;;
  c ← mycpu;
  setlock l (λ lk, lk <| lk_cpu := Some c |>).

Definition release (l : lockid) : K unit :=
  h ← holding l;
  if negb h then panic "release" else
  setlock l (λ lk, lk <| lk_cpu := None |>) ;;
  setlock l (λ lk, lk <| lk_locked := 0 |>) ;;
  pop_off.

(** ** The laws clients use *)

(** The executing hart's registers and [struct cpu] are in step: its number is
    in tp, interrupts are off inside a critical section, and outside one
    [intena] records whether they are on. *)
Record quiet (s : kstate) (h : hart) (cp : cpu) : Prop := {
  q_hart : k_harts s !! k_cur s = Some h;
  q_cpu : k_cpus s !! k_cur s = Some cp;
  q_tp : h_tp h = Z.of_nat (k_cur s);
  q_range : Z.of_nat (k_cur s) < 2 ^ 31;
  q_noff : 0 <= cp_noff cp;
  q_out : cp_noff cp = 0 -> cp_intena cp = b2z (sie_on (h_sstatus h));
  q_in : 0 < cp_noff cp -> sie_on (h_sstatus h) = false
}.

Lemma quiet_ext s s' h cp :
  quiet s h cp -> k_cur s' = k_cur s -> k_harts s' = k_harts s -> k_cpus s' = k_cpus s ->
  quiet s' h cp.
Proof. intros [] E1 E2 E3. by constructor; rewrite ?E1, ?E2, ?E3. Qed.

Definition lock_free (l : lockid) (s : kstate) : Prop :=
  ∃ name, k_locks s !! l = Some (Spinlock 0 name None).

Definition pushed (s : kstate) : kstate :=
  s <| k_harts ::= upd (k_cur s)
         (λ h, h <| h_sstatus ::= λ x, Z.land x (Z.lnot SSTATUS_SIE) |>) |>
    <| k_cpus ::= upd (k_cur s) (λ cp, cp <| cp_noff ::= λ n, n + 1 |>) |>.

(** The state inside the critical section of [l] entered from [s]. *)
Definition enter (l : lockid) (s : kstate) : kstate :=
  (pushed s) <| k_locks ::= <[l := Spinlock 1 (lk_name (lock_of s l)) (Some (k_cur s))]> |>.

Lemma sie_off_off x : sie_on (Z.land x (Z.lnot SSTATUS_SIE)) = false.
Proof.
  unfold sie_on, truth. rewrite <- Z.land_assoc.
  replace (Z.land (Z.lnot SSTATUS_SIE) SSTATUS_SIE) with 0 by reflexivity.
  by rewrite Z.land_0_r.
Qed.

Lemma sie_bit x : sie_on x = Z.testbit x 1.
Proof.
  unfold sie_on, truth. change SSTATUS_SIE with (2 ^ 1).
  destruct (Z.testbit x 1) eqn:E.
  - apply negb_true_iff, Z.eqb_neq. intros H.
    assert (Z.testbit (Z.land x (2 ^ 1)) 1 = false) by (rewrite H; apply Z.bits_0).
    rewrite Z.land_spec, E, Z.pow2_bits_true in H0 by lia. done.
  - apply negb_false_iff, Z.eqb_eq. apply Z.bits_inj'. intros n Hn.
    rewrite Z.land_spec, Z.bits_0, Z.pow2_bits_eqb by lia.
    destruct (Z.eqb_spec 1 n) as [<-|]; [by rewrite E|apply andb_false_r].
Qed.

Lemma sie_off_id x : sie_on x = false -> Z.land x (Z.lnot SSTATUS_SIE) = x.
Proof.
  rewrite sie_bit. intros E. rewrite <- Z.ldiff_land. apply Z.bits_inj'. intros n Hn.
  change SSTATUS_SIE with (2 ^ 1). rewrite Z.ldiff_spec, Z.pow2_bits_eqb by lia.
  destruct (Z.eqb_spec 1 n) as [<-|]; [by rewrite E|]. by rewrite andb_true_r.
Qed.

Lemma sie_on_off_id x :
  sie_on x = true -> Z.lor (Z.land x (Z.lnot SSTATUS_SIE)) SSTATUS_SIE = x.
Proof.
  rewrite sie_bit. intros E. rewrite <- Z.ldiff_land. apply Z.bits_inj'. intros n Hn.
  change SSTATUS_SIE with (2 ^ 1). rewrite Z.lor_spec, Z.ldiff_spec, Z.pow2_bits_eqb by lia.
  destruct (Z.eqb_spec 1 n) as [<-|]; [by rewrite E|]. by rewrite andb_true_r, orb_false_r.
Qed.

Lemma truth_b2z b : truth (b2z b) = b.
Proof. by destruct b. Qed.

Lemma mycpu_ok s h cp : quiet s h cp -> mycpu s = Ok (k_cur s) s.
Proof.
  intros [Hh Hc Ht Hr _ _ _]. unfold mycpu, cpuid, r_tp, hart_get.
  unfold kbind, gets, ret. simpl. rewrite Hh. simpl.
  rewrite Ht, i32_small by lia. by rewrite Nat2Z.id.
Qed.

Lemma intr_get_ok s h cp : quiet s h cp -> intr_get s = Ok (b2z (sie_on (h_sstatus h))) s.
Proof.
  intros Hq. apply intr_get_value, Hq.
Qed.

Lemma intr_off_ok s h cp :
  quiet s h cp ->
  intr_off s = Ok tt (s <| k_harts ::= upd (k_cur s)
    (λ h, h <| h_sstatus ::= λ x, Z.land x (Z.lnot SSTATUS_SIE) |>) |>).
Proof.
  intros Hq. eapply intr_off_set, Hq.
Qed.

(** Inside a critical section the hart is still in step, with interrupts off. *)
Lemma quiet_pushed s h cp :
  quiet s h cp ->
  quiet (pushed s) (h <| h_sstatus ::= λ x, Z.land x (Z.lnot SSTATUS_SIE) |>)
                   (cp <| cp_noff ::= λ n, n + 1 |>).
Proof.
  intros [Hh Hc Ht Hr Hn Ho Hi]. constructor; simpl.
  - rewrite upd_lookup, decide_True by done. by rewrite Hh.
  - rewrite upd_lookup, decide_True by done. by rewrite Hc.
  - done.
  - done.
  - lia.
  - lia.
  - intros _. apply sie_off_off.
Qed.

Lemma quiet_enter l s h cp :
  quiet s h cp ->
  quiet (enter l s) (h <| h_sstatus ::= λ x, Z.land x (Z.lnot SSTATUS_SIE) |>)
                    (cp <| cp_noff ::= λ n, n + 1 |>).
Proof. intros Hq. exact (quiet_ext _ (enter l s) _ _ (quiet_pushed s h cp Hq) eq_refl eq_refl eq_refl). Qed.

Lemma updcpu_ok c cp f s :
  k_cpus s !! c = Some cp -> updcpu c f s = Ok tt (s <| k_cpus ::= upd c f |>).
Proof.
  intros H. unfold updcpu, getcpu. unfold kbind, gets. simpl. by rewrite H.
Qed.

Lemma getcpu_ok c cp s : k_cpus s !! c = Some cp -> getcpu c s = Ok cp s.
Proof. intros H. unfold getcpu. rewrite bind_gets. by rewrite H. Qed.

Lemma push_off_ok s h cp : quiet s h cp -> push_off s = Ok tt (pushed s).
Proof.
  intros Hq. unfold push_off. krun (intr_get_ok s h cp Hq). krun (intr_off_ok s h cp Hq).
  set (s1 := s <| k_harts ::= _ |>).
  destruct Hq as [Hh Hc Ht Hr Hn Ho Hi].
  assert (Hm : mycpu s1 = Ok (k_cur s) s1).
  { unfold mycpu, cpuid, r_tp, hart_get. unfold kbind, gets. simpl.
    rewrite upd_lookup, decide_True by done. rewrite Hh. simpl.
    rewrite Ht, i32_small by lia. unfold ret. simpl. by rewrite Nat2Z.id. }
  krun Hm. assert (Hc1 : k_cpus s1 !! k_cur s = Some cp) by exact Hc.
  krun (getcpu_ok _ _ _ Hc1).
  destruct (Z.eqb_spec (cp_noff cp) 0) as [E|E]; simpl.
  - krun (updcpu_ok _ _ (λ cp, cp <| cp_intena := b2z (sie_on (h_sstatus h)) |>) _ Hc1).
    rewrite (updcpu_ok _ (cp <| cp_intena := b2z (sie_on (h_sstatus h)) |>)).
    + unfold pushed. f_equal. subst s1. keq. rewrite upd_upd.
      eapply upd_ext; [exact Hc|]. destruct cp; simpl in *. by rewrite (Ho E).
    + simpl. rewrite upd_lookup, decide_True by done. by rewrite Hc.
  - rewrite bind_ret. by rewrite (updcpu_ok _ _ _ _ Hc1).
Qed.

Lemma lock_free_of l s : lock_free l s -> ∃ name, lock_of s l = Spinlock 0 name None.
Proof. intros [name H]. exists name. unfold lock_of. by rewrite H. Qed.

Section client.
Context `{F : Fuel} (Hfuel : (1 <= fuel)%nat).

Lemma acquire_ok l s h cp :
  quiet s h cp -> lock_free l s -> acquire l s = Ok tt (enter l s).
Proof using Hfuel.
  intros Hq Hl. unfold acquire. krun (push_off_ok s h cp Hq).
  pose proof (quiet_pushed s h cp Hq) as Hq1.
  destruct (lock_free_of l s Hl) as [name E].
  assert (E1 : lock_of (pushed s) l = Spinlock 0 name None) by exact E.
  assert (Hh : holding l (pushed s) = Ok false (pushed s)).
  { unfold holding, getlock. rewrite bind_gets. krun (mycpu_ok _ _ _ Hq1). by rewrite E1. }
  krun Hh. simpl.
  assert (Hs : spin fuel l (pushed s) =
    Ok tt ((pushed s) <| k_locks ::= <[l := Spinlock 1 name None]> |>)).
  { destruct fuel as [|n]; [lia|]. simpl. unfold getlock, setlock.
    rewrite bind_gets, bind_modify. rewrite E1. done. }
  krun Hs. set (s2 := (pushed s) <| k_locks ::= _ |>).
  assert (Hm : mycpu s2 = Ok (k_cur s) s2).
  { exact (mycpu_ok s2 _ _ (quiet_ext _ s2 _ _ Hq1 eq_refl eq_refl eq_refl)). }
  krun Hm. unfold setlock, modify, enter. rewrite E. f_equal. subst s2. keq.
  unfold lock_of. simpl. rewrite lookup_insert_eq. simpl. by rewrite insert_insert_eq.
Qed.

Lemma lock_of_enter l s : lock_of (enter l s) l = Spinlock 1 (lk_name (lock_of s l)) (Some (k_cur s)).
Proof. unfold lock_of at 1. simpl. by rewrite lookup_insert_eq. Qed.

End client.

Lemma pop_off_ok s h cp : quiet s h cp -> pop_off (pushed s) = Ok tt s.
Proof.
  intros Hq. pose proof (quiet_pushed s h cp Hq) as Hq2.
  unfold pop_off. krun (mycpu_ok _ _ _ Hq2). krun (intr_get_ok _ _ _ Hq2).
  simpl. rewrite sie_off_off. simpl. krun (getcpu_ok _ _ _ (q_cpu _ _ _ Hq2)).
  destruct Hq as [Hqh Hqc Ht Hr Hn Ho Hi]. simpl.
  replace (cp_noff cp + 1 <? 1) with false by (symmetry; apply Z.ltb_ge; lia).
  krun (updcpu_ok _ _ (λ cp, cp <| cp_noff ::= λ n, n - 1 |>) _ (q_cpu _ _ _ Hq2)).
  set (s3 := (pushed s) <| k_cpus ::= _ |>).
  assert (Ec : k_cpus s3 = k_cpus s).
  { subst s3. simpl. rewrite upd_upd. eapply upd_id; [exact Hqc|]. destruct cp. unfold update. simpl. f_equal. lia. }
  rewrite (bind_ok (getcpu (k_cur (pushed s))) _ s3 cp s3) by (apply getcpu_ok; by rewrite Ec).
  destruct (sie_on (h_sstatus h)) eqn:Es.
  - assert (E0 : cp_noff cp = 0).
    { destruct (Z.eq_dec (cp_noff cp) 0) as [|Hne]; [lia|]. specialize (Hi ltac:(lia)). congruence. }
    rewrite (Ho E0), E0. simpl. rewrite (intr_on_set _ _ (q_hart _ _ _ Hq2 : k_harts s3 !! k_cur s3 = _)). f_equal.
    keq; [|exact Ec].
    rewrite upd_upd. eapply upd_id; [exact Hqh|]. destruct h. unfold update. simpl. f_equal. by apply sie_on_off_id.
  - assert (Ew : ((cp_noff cp =? 0) && truth (cp_intena cp)) = false).
    { destruct (Z.eqb_spec (cp_noff cp) 0) as [E0|]; [|done]. by rewrite (Ho E0). }
    rewrite Ew. simpl. unfold ret. f_equal. keq; [|exact Ec].
    eapply upd_id; [exact Hqh|]. destruct h. unfold update. simpl. f_equal. by apply sie_off_id.
Qed.

Lemma release_ok l s h cp :
  quiet s h cp -> lock_free l s -> release l (enter l s) = Ok tt s.
Proof.
  intros Hq [name Hl]. pose proof (quiet_enter l s h cp Hq) as Hq1. unfold release.
  assert (Hh : holding l (enter l s) = Ok true (enter l s)).
  { unfold holding, getlock. rewrite bind_gets. krun (mycpu_ok _ _ _ Hq1).
    rewrite lock_of_enter. simpl. rewrite bool_decide_eq_true_2 by done. done. }
  krun Hh. simpl. unfold setlock at 1 2. rewrite !bind_modify.
  set (s1 := _ <| k_locks ::= _ |>).
  assert (E1 : s1 = pushed s).
  { subst s1. unfold enter, pushed. keq. rewrite !insert_insert_eq. unfold lock_of. simpl.
    rewrite lookup_insert_eq. simpl. rewrite lookup_insert_eq. simpl.
    unfold lock_of. rewrite Hl. simpl. by apply insert_id. }
  rewrite E1. by apply (pop_off_ok s h cp).
Qed.

Lemma lock_free_enter l l' s : l <> l' -> lock_free l s -> lock_free l (enter l' s).
Proof. intros Hne [n H]. exists n. simpl. by rewrite lookup_insert_ne. Qed.

Lemma lock_free_ext l s s' : lock_free l s -> k_locks s' = k_locks s -> lock_free l s'.
Proof. intros [n H] E. exists n. by rewrite E. Qed.

Lemma quiet_boot input disk : quiet (boot input disk) (zero_hart 0) zero_cpu.
Proof. by constructor. Qed.

Lemma initlock_ok l name s :
  initlock l name s = Ok tt (s <| k_locks ::= <[l := Spinlock 0 name None]> |>).
Proof. done. Qed.

(** ** The lock, one atomic instruction at a time

    [nharts] harts run acquire()/release() on one lock; [m_pc !! i] says where
    hart [i] is.  Each rule is one access of spinlock.c to the shared lock
    word or holder field. *)
Module Mutex.

Inductive pc :=
| Outside     (* not using the lock *)
| Spinning    (* acquire(): past the holding() check, at the atomic swap *)
| Won         (* the swap returned 0; lk->cpu not yet set *)
| Inside      (* in the critical section *)
| Leaving     (* release(): lk->cpu cleared, lk->locked not yet *)
| Panicked.   (* a holding() check failed: panic("acquire") or panic("release") *)

#[global] Instance pc_eq_dec : EqDecision pc.
Proof. solve_decision. Defined.

Record mstate := MState { m_lk : spinlock; m_pc : list pc }.

(** [lk->locked && lk->cpu == mycpu()] evaluated by hart [i] *)
Definition holds (lk : spinlock) (i : nat) : bool :=
  truth (lk_locked lk) && bool_decide (lk_cpu lk = Some i).

Inductive step : mstate -> mstate -> Prop :=
| st_check lk pcs i : pcs !! i = Some Outside -> holds lk i = false ->
    step (MState lk pcs) (MState lk (<[i := Spinning]> pcs))
| st_check_panic lk pcs i : pcs !! i = Some Outside -> holds lk i = true ->
    step (MState lk pcs) (MState lk (<[i := Panicked]> pcs))
| st_swap_fail lk pcs i : pcs !! i = Some Spinning -> truth (lk_locked lk) = true ->
    step (MState lk pcs) (MState (lk <| lk_locked := 1 |>) pcs)
| st_swap_win lk pcs i : pcs !! i = Some Spinning -> truth (lk_locked lk) = false ->
    step (MState lk pcs) (MState (lk <| lk_locked := 1 |>) (<[i := Won]> pcs))
| st_set_cpu lk pcs i : pcs !! i = Some Won ->
    step (MState lk pcs) (MState (lk <| lk_cpu := Some i |>) (<[i := Inside]> pcs))
| st_release lk pcs i : pcs !! i = Some Inside -> holds lk i = true ->
    step (MState lk pcs) (MState (lk <| lk_cpu := None |>) (<[i := Leaving]> pcs))
| st_release_panic lk pcs i : pcs !! i = Some Inside -> holds lk i = false ->
    step (MState lk pcs) (MState lk (<[i := Panicked]> pcs))
| st_unlock lk pcs i : pcs !! i = Some Leaving ->
    step (MState lk pcs) (MState (lk <| lk_locked := 0 |>) (<[i := Outside]> pcs)).

(** initlock(), with every hart outside *)
Definition init (name : string) (nharts : nat) : mstate :=
  MState (Spinlock 0 name None) (replicate nharts Outside).

Inductive reachable (name : string) (nharts : nat) : mstate -> Prop :=
| r_init : reachable name nharts (init name nharts)
| r_step m m' : reachable name nharts m -> step m m' -> reachable name nharts m'.

Definition owns (p : pc) : bool :=
  match p with Won | Inside | Leaving => true | _ => false end.

(** Either nobody owns the lock and its fields say so, or exactly one hart
    does, and the fields match its position. *)
Definition inv (m : mstate) : Prop :=
  (∀ i, m_pc m !! i <> Some Panicked) ∧
  ((lk_locked (m_lk m) = 0 ∧ lk_cpu (m_lk m) = None ∧
    ∀ i p, m_pc m !! i = Some p -> owns p = false)
   ∨ (lk_locked (m_lk m) = 1 ∧ ∃ o po, m_pc m !! o = Some po ∧ owns po = true ∧
      lk_cpu (m_lk m) = (if decide (po = Inside) then Some o else None) ∧
      ∀ i p, m_pc m !! i = Some p -> owns p = true -> i = o)).

Lemma inv_init name n : inv (init name n).
Proof.
  split; [|left; split; [done|split; [done|]]]; simpl.
  - intros i H. apply lookup_replicate in H as [H _]. done.
  - intros i p H. apply lookup_replicate in H as [-> _]. done.
Qed.

Lemma insert_cases (l : list pc) i x j y :
  <[i := x]> l !! j = Some y -> (i = j ∧ y = x) ∨ (i <> j ∧ l !! j = Some y).
Proof.
  intros H. destruct (decide (i = j)) as [->|]; [left|right].
  - apply list_lookup_insert_Some in H as [(_ & -> & _)|[Hne _]]; done.
  - rewrite list_lookup_insert_ne in H by done. done.
Qed.

Lemma insert_same (l : list pc) i x y : l !! i = Some y -> <[i := x]> l !! i = Some x.
Proof. intros H. apply list_lookup_insert_eq. by eapply lookup_lt_Some. Qed.

Lemma inv_holds m i :
  inv m -> holds (m_lk m) i = true <-> m_pc m !! i = Some Inside.
Proof.
  intros [_ [(Hl & Hc & Hn)|(Hl & o & po & Ho & Hw & Hc & Hu)]]; unfold holds; rewrite Hl, Hc; simpl.
  - split; [done|]. intros H. by apply Hn in H.
  - rewrite bool_decide_eq_true. case_decide as E.
    + subst. split; [by intros [= ->]|]. intros H. f_equal. symmetry. by eapply Hu.
    + split; [done|]. intros H. assert (i = o) as -> by (by eapply Hu). congruence.
Qed.

Lemma inv_step m m' : inv m -> step m m' -> inv m'.
Proof.
  intros Hi Hs. pose proof (λ i, inv_holds m i Hi) as Hh.
  destruct Hi as [Hp Hd].
  destruct Hs as [lk pcs i H1 H2|lk pcs i H1 H2|lk pcs i H1 H2|lk pcs i H1 H2|lk pcs i H1
                 |lk pcs i H1 H2|lk pcs i H1 H2|lk pcs i H1]; simpl in *.
  2: by apply Hh in H2; rewrite H1 in H2.
  6: by apply Hh in H1; rewrite H2 in H1.
  all: split; [intros j Hj; try (apply insert_cases in Hj as [[-> ?]|[? Hj]]; [done|]); by eapply Hp|].
  all: destruct Hd as [(Hl & Hc & Hn)|(Hl & o & po & Ho & Hw & Hc & Hu)].
  all: try (by apply Hn in H1); try (by rewrite Hl in H2).
  - left. split; [done|]. split; [done|]. intros j p Hj.
    apply insert_cases in Hj as [[-> ->]|[? Hj]]; [done|by eapply Hn].
  - right. split; [done|]. exists o, po. simpl.
    assert (i <> o) by (intros ->; rewrite Ho in H1; by injection H1 as ->).
    split; [by rewrite list_lookup_insert_ne|]. split; [done|]. split; [done|].
    intros j p Hj Hq. apply insert_cases in Hj as [[-> ->]|[? Hj]]; [done|by eapply Hu].
  - right. split; [done|]. by exists o, po.
  - right. split; [done|]. exists i, Won. simpl. split; [by eapply insert_same|].
    split; [done|]. split; [done|]. intros j p Hj Hq.
    apply insert_cases in Hj as [[-> ->]|[? Hj]]; [done|]. apply Hn in Hj. congruence.
  - right. split; [done|]. exists i, Inside. simpl.
    assert (i = o) as -> by (by eapply Hu).
    split; [by eapply insert_same|]. split; [done|]. split; [done|]. intros j p Hj Hq.
    apply insert_cases in Hj as [[-> ->]|[? Hj]]; [done|by eapply Hu].
  - right. split; [done|]. exists i, Leaving. simpl.
    assert (i = o) as -> by (by eapply Hu).
    split; [by eapply insert_same|]. split; [done|]. split; [done|]. intros j p Hj Hq.
    apply insert_cases in Hj as [[-> ->]|[? Hj]]; [done|by eapply Hu].
  - left. assert (i = o) as -> by (by eapply Hu). assert (po = Leaving) as -> by congruence.
    split; [done|]. split; [done|]. intros j p Hj.
    apply insert_cases in Hj as [[-> ->]|[? Hj]]; [done|].
    destruct (owns p) eqn:E; [|done]. by apply (Hu j p Hj) in E.
Qed.

Lemma inv_reachable name n m : reachable name n m -> inv m.
Proof. induction 1; [apply inv_init|by eapply inv_step]. Qed.

End Mutex.

(** ** Properties *)

(** C7: mutual exclusion.  In every interleaving of the atomic steps of any
    number of harts running acquire() and release() on an initialised lock, at
    most one hart is in the critical section, holding() is true exactly for
    that hart, and neither holding() check ever panics. *)
Theorem spinlock_mutual_exclusion (name : string) (nharts : nat) (m : Mutex.mstate) :
  Mutex.reachable name nharts m ->
  (∀ i j, Mutex.m_pc m !! i = Some Mutex.Inside -> Mutex.m_pc m !! j = Some Mutex.Inside -> i = j)
  ∧ (∀ i, Mutex.holds (Mutex.m_lk m) i = true <-> Mutex.m_pc m !! i = Some Mutex.Inside)
  ∧ (∀ i, Mutex.m_pc m !! i <> Some Mutex.Panicked).
Proof.
  intros Hr. pose proof (Mutex.inv_reachable _ _ _ Hr) as Hi. split; [|split].
  - intros i j Hin Hj. apply (Mutex.inv_holds m i Hi) in Hin. apply (Mutex.inv_holds m j Hi) in Hj.
    unfold Mutex.holds in *. zb. congruence.
  - intros i. by apply Mutex.inv_holds.
  - apply Hi.
Qed.

Lemma spinlock_mutual_exclusion_witness :
  let lk := Spinlock 1 "l" None in
  Mutex.reachable "l" 2 (Mutex.MState (lk <| lk_cpu := Some 1%nat |>) [Mutex.Outside; Mutex.Inside])
  ∧ Mutex.holds (lk <| lk_cpu := Some 1%nat |>) 0 = false.
Proof.
  intros lk.
  assert (Hr : Mutex.reachable "l" 2
    (Mutex.MState (lk <| lk_cpu := Some 1%nat |>) [Mutex.Outside; Mutex.Inside])).
  { eapply Mutex.r_step.
    - eapply Mutex.r_step.
      + eapply Mutex.r_step; [apply Mutex.r_init|]. by apply Mutex.st_check with (i := 1%nat).
      + by apply Mutex.st_swap_win with (i := 1%nat).
    - by apply (Mutex.st_set_cpu lk [Mutex.Outside; Mutex.Won] 1). }
  split; [exact Hr|].
  destruct (spinlock_mutual_exclusion "l" 2 _ Hr) as (_ & Hh & _).
  destruct (Mutex.holds (lk <| lk_cpu := Some 1%nat |>) 0) eqn:E; [|reflexivity].
  apply Hh in E. simpl in E. discriminate.
Defined.


