(* ===== verification/Kalloc.v ===== *)
(** * kalloc.c: the physical page allocator

    The free list is the C one: [kmem.freelist] is the address of the first
    free page, and each free page holds the address of the next in its first
    eight bytes.  [kmem_inv s l] says that this list spells out [l]; the
    operations are then shown to refine a stack of free pages. *)

From Stdlib Require Import ZArith Lia.
From stdpp Require Import base numbers list gmap strings.
From S2P Require Import Prelude Machine Kernel Strings Riscv Spinlock.

(** kfree() changes only the freed page. *)
Lemma eq_outside_free m p v :
  eq_outside m (store64 (memset m p 1 PGN) p v) p 4096.
Proof.
  eapply eq_outside_trans; [apply (eq_outside_memset m p 1 PGN)|].
  eapply eq_outside_weaken; [apply eq_outside_store64|lia|lia].
Qed.

Section kalloc.
Context `{Fuel} `{Symbols}.

(** The page stops being a [struct pipe] or [struct trapframe] when it is
    overwritten with junk. *)
Definition drop_views (pa : Z) (s : kstate) : kstate :=
  s <| k_pipes ::= delete pa |> <| k_tframes ::= delete pa |>.

Definition kfree (pa : Z) : K unit :=
  if negb (pa mod PGSIZE =? 0) || (pa <? end_) || (PHYSTOP <=? pa) then panic "kfree" else
  (* Fill with junk to catch dangling refs. *)
  kmemset pa 1 PGN ;;
  modify (drop_views pa) ;;
  acquire L_kmem ;;
  next ← gets k_freelist;
  kstore64 pa next ;;
  modify (λ s, s <| k_freelist := pa |>) ;;
  release L_kmem.

Definition kalloc : K Z :=
  acquire L_kmem ;;
  r ← gets k_freelist;
  when (truth r) (next ← kload64 r; modify (λ s, s <| k_freelist := next |>)) ;;
  release L_kmem ;;
  when (truth r) (kmemset r 5 PGN) ;;
  ret r.

(** The loop's bound: one round per page that fits, and the final test. *)
Definition freerange (pa_start pa_end : Z) : K unit :=
  let p := PGROUNDUP pa_start in
  loop (S (Z.to_nat ((pa_end - p) / PGSIZE)))
    (λ p, if p + PGSIZE <=? pa_end then kfree p ;; ret (inl (p + PGSIZE)) else ret (inr tt)) p.

Definition kinit : K unit :=
  initlock L_kmem "kmem" ;;
  freerange end_ PHYSTOP.

(** ** The representation *)

Definition ram_page (p : Z) : Prop := p mod PGSIZE = 0 ∧ end_ <= p ∧ p + PGSIZE <= PHYSTOP.

Fixpoint freelist_chain (m : memory) (head : Z) (l : list Z) : Prop :=
  match l with
  | [] => head = 0
  | p :: l => head = p ∧ freelist_chain m (load64 m p) l
  end.

Record kmem_inv (s : kstate) (l : list Z) : Prop := {
  km_chain : freelist_chain (k_mem s) (k_freelist s) l;
  km_nodup : NoDup l;
  km_pages : Forall ram_page l;
  km_wf : mem_wf (k_mem s)
}.

(** What the linker script guarantees about [end]. *)
Definition end_ok : Prop := KERNBASE <= end_.

(** ** Lemmas *)

Lemma pages_apart p q : ram_page p -> ram_page q -> p <> q -> p + 4096 <= q ∨ q + 4096 <= p.
Proof. intros (Hp & _ & _) (Hq & _ & _) Hne. change PGSIZE with 4096 in *. zmod. Qed.

(** A free page is a whole page: where another one starts does not matter. *)
Lemma freelist_chain_ext m m' h l p :
  freelist_chain m h l -> Forall ram_page l -> ram_page p -> p ∉ l ->
  eq_outside m m' p 4096 -> freelist_chain m' h l.
Proof.
  revert h. induction l as [|q l IH]; intros h Hc Hl Hp Hn He; [done|].
  destruct Hc as [-> Hc]. apply Forall_cons in Hl as [Hq Hl].
  apply not_elem_of_cons in Hn as [Hne Hn]. split; [done|].
  rewrite (load64_outside m m' p 4096 q He); [by apply IH|].
  destruct (pages_apart p q Hp Hq Hne); lia.
Qed.

Lemma ram_page_kaddr p n :
  end_ok -> ram_page p -> 0 <= n <= 4096 -> kaddr_ok p n = true.
Proof.
  intros He (_ & H1 & H2) Hn. apply kaddr_ok_ram; [unfold end_ok in He; lia|].
  change PGSIZE with 4096 in *. lia.
Qed.

Lemma ram_page_nz p : end_ok -> ram_page p -> p <> 0.
Proof. intros He (_ & H1 & _). unfold end_ok in He. change KERNBASE with 2147483648 in He. lia. Qed.

Lemma ram_page_range p : end_ok -> ram_page p -> 0 <= p < 2 ^ 64.
Proof.
  intros He (_ & H1 & H2). unfold end_ok in He. change KERNBASE with 2147483648 in *.
  change PHYSTOP with 2281701376 in *. change PGSIZE with 4096 in *. lia.
Qed.

Lemma freelist_chain_head m h l : end_ok -> freelist_chain m h l -> Forall ram_page l -> 0 <= h < 2 ^ 64.
Proof.
  intros He Hc Hl. destruct l as [|p l]; simpl in Hc; [subst; lia|].
  destruct Hc as [-> _]. apply Forall_cons in Hl as [Hp _]. by apply ram_page_range.
Qed.

Section specs.
Context (Hfuel : (1 <= fuel)%nat) (Hend : end_ok).

Lemma kfree_ok s h cp l p :
  quiet s h cp -> lock_free L_kmem s -> kmem_inv s l -> ram_page p -> p ∉ l ->
  let s' := (drop_views p s)
     <| k_mem := store64 (memset (k_mem s) p 1 PGN) p (k_freelist s) |>
     <| k_freelist := p |> in
  kfree p s = Ok tt s' ∧ kmem_inv s' (p :: l).
Proof.
  intros Hq Hl [Hc Hd Hf Hw] Hp Hn. simpl. split.
  - unfold kfree. pose proof Hp as (Ha & Hlo & Hhi).
    rewrite Ha. simpl. replace (p <? end_) with false by (symmetry; apply Z.ltb_ge; lia).
    replace (PHYSTOP <=? p) with false
      by (symmetry; apply Z.leb_gt; change PGSIZE with 4096 in *; lia). simpl.
    krun (kmemset_ok p 1 PGN s (ram_page_kaddr p (Z.of_nat PGN) Hend Hp ltac:(rewrite PGN_Z; lia))).
    rewrite bind_modify. set (s1 := drop_views p _).
    assert (Hq1 : quiet s1 h cp) by exact (quiet_ext _ s1 _ _ Hq eq_refl eq_refl eq_refl).
    assert (Hl1 : lock_free L_kmem s1) by exact (lock_free_ext _ _ s1 Hl eq_refl).
    krun (acquire_ok Hfuel L_kmem s1 h cp Hq1 Hl1). rewrite bind_gets.
    krun (kstore64_ok p (k_freelist (enter L_kmem s1)) (enter L_kmem s1)
            (ram_page_kaddr p 8 Hend Hp ltac:(lia))).
    rewrite bind_modify.
    set (s2 := s1 <| k_mem ::= λ m, store64 m p (k_freelist s1) |> <| k_freelist := p |>).
    assert (Hq2 : quiet s2 h cp) by exact (quiet_ext _ s2 _ _ Hq eq_refl eq_refl eq_refl).
    assert (Hl2 : lock_free L_kmem s2) by exact (lock_free_ext _ _ s2 Hl eq_refl).
    subst s1. kstate_is (enter L_kmem s2). rewrite (release_ok L_kmem s2 h cp Hq2 Hl2).
    apply ok_eq. subst s2. unfold drop_views. by keq.
  - constructor; simpl.
    + split; [done|]. rewrite load64_store64_eq by (by eapply freelist_chain_head).
      eapply freelist_chain_ext; eauto using eq_outside_free.
    + by constructor.
    + by constructor.
    + auto with xv6.
Qed.

Lemma kalloc_ok s h cp p l :
  quiet s h cp -> lock_free L_kmem s -> kmem_inv s (p :: l) ->
  let s' := s <| k_mem ::= λ m, memset m p 5 PGN |> <| k_freelist := load64 (k_mem s) p |> in
  kalloc s = Ok p s' ∧ kmem_inv s' l.
Proof.
  intros Hq Hl [Hc Hd Hf Hw]. simpl in Hc. destruct Hc as [Hh Hc].
  apply Forall_cons in Hf as [Hp Hf]. apply NoDup_cons in Hd as [Hn Hd]. simpl. split.
  - unfold kalloc. krun (acquire_ok Hfuel L_kmem s h cp Hq Hl). rewrite bind_gets.
    change (k_freelist (enter L_kmem s)) with (k_freelist s). rewrite Hh.
    assert (Ht : truth p = true).
    { unfold truth. apply negb_true_iff, Z.eqb_neq. by apply ram_page_nz. }
    rewrite Ht. cbn [when].
    rewrite (bind_ok _ _ _ tt (enter L_kmem (s <| k_freelist := load64 (k_mem s) p |>))).
    2:{ krun (kload64_ok p (enter L_kmem s) (ram_page_kaddr p 8 Hend Hp ltac:(lia))). done. }
    set (s2 := s <| k_freelist := load64 (k_mem s) p |>).
    assert (Hq2 : quiet s2 h cp) by exact (quiet_ext _ s2 _ _ Hq eq_refl eq_refl eq_refl).
    assert (Hl2 : lock_free L_kmem s2) by exact (lock_free_ext _ _ s2 Hl eq_refl).
    krun (release_ok L_kmem s2 h cp Hq2 Hl2).
    krun (kmemset_ok p 5 PGN s2 (ram_page_kaddr p (Z.of_nat PGN) Hend Hp ltac:(rewrite PGN_Z; lia))). done.
  - constructor; simpl; [|done|done|auto with xv6].
    eapply freelist_chain_ext; eauto. rewrite <- PGN_Z. apply eq_outside_memset.
Qed.

Lemma kalloc_empty s h cp :
  quiet s h cp -> lock_free L_kmem s -> kmem_inv s [] -> kalloc s = Ok 0 s.
Proof.
  intros Hq Hl [Hc _ _ _]. simpl in Hc. unfold kalloc.
  krun (acquire_ok Hfuel L_kmem s h cp Hq Hl). rewrite bind_gets.
  change (k_freelist (enter L_kmem s)) with (k_freelist s). rewrite Hc. simpl.
  rewrite bind_ret. by krun (release_ok L_kmem s h cp Hq Hl).
Qed.

(** Where kfree() refuses the address it changes nothing and panics. *)
Lemma kfree_bad s p :
  p mod PGSIZE <> 0 ∨ p < end_ ∨ PHYSTOP <= p -> kfree p s = Stop (Panic "kfree") s.
Proof.
  intros Hp. unfold kfree.
  replace (negb (p mod PGSIZE =? 0) || (p <? end_) || (PHYSTOP <=? p)) with true; [done|].
  symmetry. rewrite !orb_true_iff, negb_true_iff, Z.eqb_neq, Z.ltb_lt, Z.leb_le. tauto.
Qed.

(** ** kinit() *)

(** The pages of [n] consecutive page frames from [p], last one first. *)
Fixpoint pages_down (p : Z) (n : nat) : list Z :=
  match n with O => [] | S n => p + PGSIZE * Z.of_nat n :: pages_down p n end.

(** The part of the state kalloc.c may change. *)
Definition kmem_frame (s s' : kstate) : Prop :=
  ∃ m f p t, s' = s <| k_pipes := p |> <| k_tframes := t |> <| k_mem := m |> <| k_freelist := f |>.

Lemma kmem_frame_refl s : kmem_frame s s.
Proof. exists (k_mem s), (k_freelist s), (k_pipes s), (k_tframes s). by keq. Qed.

Lemma kmem_frame_trans s1 s2 s3 : kmem_frame s1 s2 -> kmem_frame s2 s3 -> kmem_frame s1 s3.
Proof. intros (m&f&p&t&->) (m'&f'&p'&t'&->). exists m', f', p', t'. by keq. Qed.

Lemma kmem_frame_free s p m f :
  kmem_frame s ((drop_views p s) <| k_mem := m |> <| k_freelist := f |>).
Proof. exists m, f, (delete p (k_pipes s)), (delete p (k_tframes s)). by keq. Qed.

Lemma kmem_frame_quiet s s' h cp : kmem_frame s s' -> quiet s h cp -> quiet s' h cp.
Proof. intros (m&f&p&t&->) Hq. by eapply quiet_ext. Qed.

Lemma kmem_frame_lock s s' l : kmem_frame s s' -> lock_free l s -> lock_free l s'.
Proof. intros (m&f&p&t&->) Hl. by eapply lock_free_ext. Qed.

Lemma elem_of_pages_down p n q :
  q ∈ pages_down p n <-> ∃ i : nat, (i < n)%nat ∧ q = p + PGSIZE * Z.of_nat i.
Proof.
  induction n as [|n IH]; simpl; [split; [by intros ?%elem_of_nil|intros (i & ? & _); lia]|].
  rewrite elem_of_cons, IH. split.
  - intros [->|(i & Hi & ->)]; [exists n|exists i]; split; auto; lia.
  - intros (i & Hi & ->). destruct (decide (i = n)) as [->|]; [by left|right].
    exists i. split; [lia|done].
Qed.

Lemma freerange_loop s0 h cp p0 pa_end (done_ todo : nat) s :
  let go := loop (S todo) (λ p, if p + PGSIZE <=? pa_end then kfree p ;; ret (inl (p + PGSIZE))
                                else ret (inr tt)) in
  p0 mod PGSIZE = 0 -> end_ <= p0 -> pa_end <= PHYSTOP ->
  p0 + PGSIZE * Z.of_nat (done_ + todo) <= pa_end < p0 + PGSIZE * Z.of_nat (S (done_ + todo)) ->
  kmem_frame s0 s -> quiet s0 h cp -> lock_free L_kmem s0 ->
  kmem_inv s (pages_down p0 done_) ->
  ∃ s', go (p0 + PGSIZE * Z.of_nat done_) s = Ok tt s' ∧ kmem_frame s0 s' ∧
    kmem_inv s' (pages_down p0 (done_ + todo)).
Proof.
  intros go Ha Hlo Hhi. subst go. revert done_ s.
  induction todo as [|todo IH]; intros dn s Hr Hf Hq Hl Hk.
  - exists s. rewrite Nat.add_0_r in *. split; [|done]. cbn [loop].
    destruct (Z.leb_spec (p0 + PGSIZE * Z.of_nat dn + PGSIZE) pa_end); [lia|done].
  - set (p := p0 + PGSIZE * Z.of_nat dn) in *.
    assert (Hp : ram_page p).
    { subst p. split; [|change PGSIZE with 4096 in *; lia].
      change PGSIZE with 4096 in *. rewrite Z.mul_comm, Z.mod_add; lia. }
    assert (Hn : p ∉ pages_down p0 dn).
    { intros (i & Hi & E)%elem_of_pages_down. subst p. change PGSIZE with 4096 in *. lia. }
    destruct (kfree_ok s h cp _ p (kmem_frame_quiet _ _ _ _ Hf Hq) (kmem_frame_lock _ _ _ Hf Hl) Hk Hp Hn)
      as [E Hk'].
    match type of Hk' with kmem_inv ?x _ => set (s1 := x) in * end.
    destruct (IH (S dn) s1) as (s' & Hs' & Hf' & Hi').
    { by replace (S dn + todo)%nat with (dn + S todo)%nat by lia. }
    { eapply kmem_frame_trans; [exact Hf|apply kmem_frame_free]. }
    { done. } { done. } { exact Hk'. }
    exists s'. replace (dn + S todo)%nat with (S dn + todo)%nat by lia. split; [|done].
    rewrite <- Hs'. cbn [loop].
    replace (p + PGSIZE <=? pa_end) with true
      by (symmetry; apply Z.leb_le; subst p; change PGSIZE with 4096 in *; lia).
    unfold kbind at 1. unfold kbind at 1. rewrite E. cbn [bindo ret].
    replace (p0 + PGSIZE * Z.of_nat (S dn)) with (p + PGSIZE) by (subst p; lia).
    done.
Qed.

(** [n] pages fit between [end], rounded up, and the top of memory. *)
Definition npages : nat := Z.to_nat ((PHYSTOP - PGROUNDUP end_) / PGSIZE).

Lemma ram_page_pages_down p : end_ <= PHYSTOP -> ram_page p <-> p ∈ pages_down (PGROUNDUP end_) npages.
Proof.
  intros Hhi. unfold end_ok in Hend. rewrite elem_of_pages_down. unfold npages, ram_page.
  change KERNBASE with 2147483648 in *. change PHYSTOP with 2281701376 in *.
  change PGSIZE with 4096 in *. rewrite (PGROUNDUP_eq end_) by lia. split.
  - intros (H1 & H2 & H3). exists (Z.to_nat ((p - (end_ + 4095) / 4096 * 4096) / 4096)).
    split; [|rewrite Z2Nat.id]; zmod.
  - intros (i & Hi & ->). split; [rewrite (Z.mul_comm 4096), Z.mod_add by lia; by rewrite Z.mod_mul|].
    assert (Z.of_nat i < (2281701376 - (end_ + 4095) / 4096 * 4096) / 4096) by lia. zmod.
Qed.

Lemma kinit_ok s h cp :
  quiet s h cp -> k_freelist s = 0 -> mem_wf (k_mem s) -> end_ <= PHYSTOP ->
  ∃ s', kinit s = Ok tt s' ∧
    kmem_frame (s <| k_locks ::= <[L_kmem := Spinlock 0 "kmem" None]> |>) s' ∧
    kmem_inv s' (pages_down (PGROUNDUP end_) npages).
Proof.
  intros Hq Hf Hm Hhi. unfold kinit. krun (initlock_ok L_kmem "kmem" s).
  set (s1 := s <| k_locks ::= _ |>). unfold freerange. fold npages.
  unfold end_ok in Hend. pose proof (PGROUNDUP_eq end_) as E.
  assert (Hr : end_ <= PGROUNDUP end_ < end_ + 4096 ∧ PGROUNDUP end_ mod PGSIZE = 0).
  { change KERNBASE with 2147483648 in *. change PHYSTOP with 2281701376 in *.
    change PGSIZE with 4096. rewrite E by lia. split; zmod. }
  destruct Hr as [Hr Ha].
  destruct (freerange_loop s1 h cp (PGROUNDUP end_) PHYSTOP 0 npages s1) as (s' & E1 & F & Ki).
  - done.
  - lia.
  - lia.
  - unfold npages. change PHYSTOP with 2281701376 in *. change PGSIZE with 4096 in *.
    change (0 + ?x)%nat with x. zmod.
  - apply kmem_frame_refl.
  - exact (quiet_ext _ s1 _ _ Hq eq_refl eq_refl eq_refl).
  - exists "kmem"%string. apply lookup_insert_eq.
  - constructor; [exact Hf|constructor|constructor|exact Hm].
  - exists s'. split; [|done]. rewrite <- E1. f_equal. change PGSIZE with 4096. lia.
Qed.

(** ** Refinement to a stack of pages *)

Inductive kop := Op_alloc | Op_free (p : Z).

(** A client's calls, with kalloc()'s results; kfree() returns nothing. *)
Fixpoint run_kops (ops : list kop) : K (list Z) :=
  match ops with
  | [] => ret []
  | Op_alloc :: ops => r ← kalloc; rs ← run_kops ops; ret (r :: rs)
  | Op_free p :: ops => kfree p ;; run_kops ops
  end.

Definition ram_pageb (p : Z) : bool :=
  (p mod PGSIZE =? 0) && (end_ <=? p) && (p + PGSIZE <=? PHYSTOP).

(** The specification: a stack; freeing a page that is free already, or is not
    an allocatable page, has no specified behaviour. *)
Fixpoint stack_kops (ops : list kop) (l : list Z) : option (list Z * list Z) :=
  match ops with
  | [] => Some ([], l)
  | Op_alloc :: ops =>
      '(rs, l') ← stack_kops ops (tail l); Some (default 0 (head l) :: rs, l')
  | Op_free p :: ops =>
      if ram_pageb p && bool_decide (p ∉ l) then stack_kops ops (p :: l) else None
  end%stdpp.

Lemma ram_pageb_spec p : ram_pageb p = true <-> ram_page p.
Proof.
  unfold ram_pageb, ram_page. rewrite !andb_true_iff, Z.eqb_eq, !Z.leb_le. tauto.
Qed.

Lemma kalloc_refines s h cp l :
  quiet s h cp -> lock_free L_kmem s -> kmem_inv s l ->
  ∃ s', kalloc s = Ok (default 0 (head l)) s' ∧ kmem_frame s s' ∧ kmem_inv s' (tail l).
Proof.
  intros Hq Hl Hk. destruct l as [|p l].
  - exists s. split; [by eapply kalloc_empty|]. split; [apply kmem_frame_refl|done].
  - destruct (kalloc_ok s h cp p l Hq Hl Hk) as [E Hk']. eexists. split; [exact E|]. split; [|done].
    exists (memset (k_mem s) p 5 PGN), (load64 (k_mem s) p), (k_pipes s), (k_tframes s). by keq.
Qed.

Lemma kfree_refines s h cp l p :
  quiet s h cp -> lock_free L_kmem s -> kmem_inv s l -> ram_page p -> p ∉ l ->
  ∃ s', kfree p s = Ok tt s' ∧ kmem_frame s s' ∧ kmem_inv s' (p :: l).
Proof.
  intros Hq Hl Hk Hp Hn. destruct (kfree_ok s h cp l p Hq Hl Hk Hp Hn) as [E Hk'].
  eexists. split; [exact E|]. split; [apply kmem_frame_free|done].
Qed.

Lemma run_kops_refines s h cp l ops rs l' :
  quiet s h cp -> lock_free L_kmem s -> kmem_inv s l -> stack_kops ops l = Some (rs, l') ->
  ∃ s', run_kops ops s = Ok rs s' ∧ kmem_frame s s' ∧ kmem_inv s' l'.
Proof.
  intros Hq Hl. revert s l rs l' Hq Hl.
  induction ops as [|[|p] ops IH]; intros s l rs l' Hq Hl Hk; simpl.
  - intros [= <- <-]. exists s. split; [done|]. split; [apply kmem_frame_refl|done].
  - intros E. apply bind_Some in E as ([rs1 l1] & E & [= <- <-]).
    destruct (kalloc_refines s h cp l Hq Hl Hk) as (s1 & E1 & F1 & K1).
    destruct (IH s1 (tail l) rs1 l1) as (s2 & E2 & F2 & K2);
      eauto using kmem_frame_quiet, kmem_frame_lock.
    exists s2. split; [|eauto using kmem_frame_trans]. krun E1. by krun E2.
  - destruct (ram_pageb p && bool_decide (p ∉ l)) eqn:Hp; [|done]. zb.
    intros E. apply ram_pageb_spec in H1.
    destruct (kfree_refines s h cp l p Hq Hl Hk H1 H2) as (s1 & E1 & F1 & K1).
    destruct (IH s1 (p :: l) rs l') as (s2 & E2 & F2 & K2);
      eauto using kmem_frame_quiet, kmem_frame_lock.
    exists s2. split; [|eauto using kmem_frame_trans]. by krun E1.
Qed.
End specs.
End kalloc.

(** ** Properties *)

(** C8: kalloc.c refines a stack of pages.  Any sequence of kalloc() and
    kfree() calls a client may make (it frees only allocatable pages that are
    not free already) returns exactly the pages the stack specification does,
    0 when the stack is empty, and ends with the linked list in memory spelling
    out the specification's stack; nothing but the pages, the list head and the
    views of freed pages changes, and the kmem lock is free again. *)
Theorem kalloc_refines_stack `{Fuel} `{Symbols} (s : kstate) (h : hart) (cp : cpu)
    (l l' rs : list Z) (ops : list kop) :
  (1 <= fuel)%nat -> end_ok -> quiet s h cp -> lock_free L_kmem s -> kmem_inv s l ->
  stack_kops ops l = Some (rs, l') ->
  ∃ s', run_kops ops s = Ok rs s' ∧ kmem_frame s s' ∧ kmem_inv s' l'.
Proof. eauto using run_kops_refines. Qed.

Lemma kalloc_refines_stack_witness :
  let H : Fuel := 1%nat in let H0 := example_symbols in
  let s := (boot [] ∅) <| k_locks := {[L_kmem := Spinlock 0 "kmem" None]} |> in
  let p := KERNBASE + 0x100000 in
  ∃ s', run_kops [Op_free p; Op_free (p + PGSIZE); Op_alloc; Op_alloc; Op_alloc] s
          = Ok [p + PGSIZE; p; 0] s' ∧ kmem_inv s' [].
Proof.
  intros H H0 s p.
  destruct (kalloc_refines_stack s (zero_hart 0) zero_cpu [] [] [p + PGSIZE; p; 0]
    [Op_free p; Op_free (p + PGSIZE); Op_alloc; Op_alloc; Op_alloc]) as (s' & E & _ & Ki).
  - apply le_n.
  - done.
  - eapply quiet_ext; [apply (quiet_boot [] ∅)|reflexivity..].
  - by exists "kmem"%string.
  - constructor; [reflexivity|constructor|constructor|exact mem_wf_empty].
  - vm_compute. reflexivity.
  - exists s'. exact (conj E Ki).
Defined.

(** C28: after kinit() every page between the kernel's end and the top of
    memory is free, exactly once, and nothing else is. *)
Theorem kinit_frees_all `{Fuel} `{Symbols} (s : kstate) (h : hart) (cp : cpu) :
  (1 <= fuel)%nat -> end_ok -> end_ <= PHYSTOP ->
  quiet s h cp -> k_freelist s = 0 -> mem_wf (k_mem s) ->
  ∃ s' l, kinit s = Ok tt s' ∧ kmem_inv s' l ∧ lock_free L_kmem s' ∧ quiet s' h cp
    ∧ ∀ p, p ∈ l <-> ram_page p.
Proof.
  intros Hfuel Hend Hhi Hq Hf Hm.
  destruct (kinit_ok Hfuel Hend s h cp Hq Hf Hm Hhi) as (s' & E & F & Ki).
  exists s', (pages_down (PGROUNDUP end_) npages). split; [done|]. split; [done|].
  split; [eapply kmem_frame_lock; [exact F|]; exists "kmem"%string; apply lookup_insert_eq|].
  split; [eapply kmem_frame_quiet; [exact F|]; by eapply quiet_ext|].
  intros p. symmetry. by apply ram_page_pages_down.
Qed.

Lemma kinit_frees_all_witness :
  let H : Fuel := 1%nat in let H0 := example_symbols in
  ∃ s' l, kinit (boot [] ∅) = Ok tt s' ∧ kmem_inv s' l ∧ lock_free L_kmem s'
    ∧ ∀ p, p ∈ l <-> ram_page p.
Proof.
  cbv zeta.
  destruct (@kinit_frees_all 1%nat example_symbols (boot [] ∅) (zero_hart 0) zero_cpu)
    as (s' & l & E & Ki & Hl & _ & Hp).
  - apply le_n.
  - done.
  - done.
  - apply quiet_boot.
  - reflexivity.
  - exact mem_wf_empty.
  - exists s', l. exact (conj E (conj Ki (conj Hl Hp))).
Defined.
