(* ===== verification/Vm.v ===== *)
(** * vm.c: page tables (and proc_mapstacks of proc.c)

    A page table is three levels of pages in [k_mem], read and written eight
    bytes at a time through the kernel's direct map, as the C code does.  A
    null [pte_t *] or [pagetable_t] is 0.  Buffers of the kernel that the
    copy functions read or fill are byte lists: [copyout] takes the bytes at
    [src], [copyin] and [copyinstr] return the bytes they stored from [dst]
    on, together with their result. *)

From Stdlib Require Import ZArith Lia.
From stdpp Require Import base numbers list gmap strings.
From S2P Require Import Prelude Machine Kernel Strings Riscv Spinlock Kalloc.

Section vm.
Context `{Fuel} `{Symbols}.

(** The body of walk()'s loop, once per level above the lowest. *)
Fixpoint walk_levels (levels : list Z) (pagetable va : Z) (alloc : bool) : K Z :=
  match levels with
  | [] => ret (pagetable + 8 * PX 0 va)
  | level :: levels =>
      let pte := pagetable + 8 * PX level va in
      v ← kload64 pte;
      if truth (Z.land v PTE_V) then walk_levels levels (PTE2PA v) va alloc
      else if negb alloc then ret 0
      else
        pagetable ← kalloc;
        if pagetable =? 0 then ret 0
        else
          kmemset pagetable 0 PGN ;;
          kstore64 pte (Z.lor (PA2PTE pagetable) PTE_V) ;;
          walk_levels levels pagetable va alloc
  end.

Definition walk (pagetable va : Z) (alloc : bool) : K Z :=
  if MAXVA <=? va then panic "walk" else walk_levels [2; 1] pagetable va alloc.

Definition walkaddr (pagetable va : Z) : K Z :=
  if MAXVA <=? va then ret 0 else
  pte ← walk pagetable va false;
  if pte =? 0 then ret 0 else
  v ← kload64 pte;
  if Z.land v PTE_V =? 0 then ret 0 else
  if Z.land v PTE_U =? 0 then ret 0 else
  ret (PTE2PA v).

(** One round of mappages()'s loop. *)
Definition mappages_body (pagetable last perm : Z) (x : Z * Z) : K (Z * Z + Z) :=
  let '(a, pa) := x in
  pte ← walk pagetable a true;
  if pte =? 0 then ret (inr (-1)) else
  v ← kload64 pte;
  if truth (Z.land v PTE_V) then panic "mappages: remap" else
  kstore64 pte (Z.lor (Z.lor (PA2PTE pa) perm) PTE_V) ;;
  if a =? last then ret (inr 0)
  else ret (inl (u64 (a + PGSIZE), u64 (pa + PGSIZE))).

(** The loop ends at [last], or in walk()'s panic at [MAXVA] when the range
    wraps around: that bounds its rounds. *)
Definition mappages (pagetable va size pa perm : Z) : K Z :=
  if size =? 0 then panic "mappages: size" else
  let a := PGROUNDDOWN va in
  let last := PGROUNDDOWN (u64 (va + size - 1)) in
  let top := if a <=? last then Z.min last MAXVA else MAXVA in
  loop (S (Z.to_nat ((top - a) / PGSIZE))) (mappages_body pagetable last perm) (a, pa).

Definition kvmmap (kpgtbl va pa sz perm : Z) : K unit :=
  r ← mappages kpgtbl va sz pa perm;
  if negb (r =? 0) then panic "kvmmap" else ret tt.

(** One round of uvmunmap()'s loop. *)
Definition uvmunmap_body (pagetable stop : Z) (do_free : bool) (a : Z) : K (Z + unit) :=
  if a <? stop then
    pte ← walk pagetable a false;
    if pte =? 0 then panic "uvmunmap: walk" else
    v ← kload64 pte;
    if Z.land v PTE_V =? 0 then panic "uvmunmap: not mapped" else
    if PTE_FLAGS v =? PTE_V then panic "uvmunmap: not a leaf" else
    when do_free (kfree (PTE2PA v)) ;;
    kstore64 pte 0 ;;
    ret (inl (u64 (a + PGSIZE)))
  else ret (inr tt).

Definition uvmunmap (pagetable va npages : Z) (do_free : bool) : K unit :=
  if negb (va mod PGSIZE =? 0) then panic "uvmunmap: not aligned" else
  loop (S (Z.to_nat npages))
    (uvmunmap_body pagetable (u64 (va + npages * PGSIZE)) do_free) va.

Definition uvmcreate : K Z :=
  pagetable ← kalloc;
  if pagetable =? 0 then ret 0 else
  kmemset pagetable 0 PGN ;;
  ret pagetable.

(** [src], [sz]: the bytes of initcode and their number. *)
Definition uvmfirst (pagetable : Z) (src : list Z) : K unit :=
  if PGSIZE <=? Z.of_nat (length src) then panic "uvmfirst: more than a page" else
  mem ← kalloc;
  kmemset mem 0 PGN ;;
  mappages pagetable 0 PGSIZE mem (Z.lor (Z.lor (Z.lor PTE_W PTE_R) PTE_X) PTE_U) ;;
  kstore_bytes mem src.

Definition uvmdealloc (pagetable oldsz newsz : Z) : K Z :=
  if oldsz <=? newsz then ret oldsz else
  when (PGROUNDUP newsz <? PGROUNDUP oldsz)
    (let npages := i32 (u64 (PGROUNDUP oldsz - PGROUNDUP newsz) / PGSIZE) in
     uvmunmap pagetable (PGROUNDUP newsz) (u64 npages) true) ;;
  ret newsz.

Definition uvmalloc_loop (n : nat) (pagetable oldsz newsz xperm : Z) (a : Z) : K Z :=
  loop n (λ a,
    if a <? newsz then
      mem ← kalloc;
      if mem =? 0 then uvmdealloc pagetable a oldsz ;; ret (inr 0) else
      kmemset mem 0 PGN ;;
      r ← mappages pagetable a PGSIZE mem (Z.lor (Z.lor PTE_R PTE_U) xperm);
      if negb (r =? 0) then kfree mem ;; uvmdealloc pagetable a oldsz ;; ret (inr 0)
      else ret (inl (u64 (a + PGSIZE)))
    else ret (inr newsz)) a.

Definition uvmalloc (pagetable oldsz newsz xperm : Z) : K Z :=
  if newsz <? oldsz then ret oldsz else
  let oldsz := PGROUNDUP oldsz in
  uvmalloc_loop (S (Z.to_nat ((newsz - oldsz + PGSIZE - 1) / PGSIZE)))
    pagetable oldsz newsz xperm oldsz.

(** [depth] bounds the recursion: a page table has three levels. *)
Fixpoint freewalk_depth (depth : nat) (pagetable : Z) : K unit :=
  match depth with
  | O => halt NoFuel
  | S depth =>
      for_all (zrange 0 512) (λ i,
        pte ← kload64 (pagetable + 8 * i);
        if truth (Z.land pte PTE_V) && (Z.land pte (Z.lor (Z.lor PTE_R PTE_W) PTE_X) =? 0)
        then freewalk_depth depth (PTE2PA pte) ;; kstore64 (pagetable + 8 * i) 0
        else if truth (Z.land pte PTE_V) then panic "freewalk: leaf" else ret tt) ;;
      kfree pagetable
  end.

Definition freewalk (pagetable : Z) : K unit := freewalk_depth (3 + fuel) pagetable.

Definition uvmfree (pagetable sz : Z) : K unit :=
  when (0 <? sz) (uvmunmap pagetable 0 (PGROUNDUP sz / PGSIZE) true) ;;
  freewalk pagetable.

(** The statements from the label [err] to the end of the loop body, repeated
    while the second mappages() fails. *)
Fixpoint uvmcopy_err (n : nat) (old i pa flags : Z) : K unit :=
  match n with
  | O => halt NoFuel
  | S n =>
      uvmunmap old i PGSIZE false ;;
      r ← mappages old i PGSIZE pa flags;
      if negb (r =? 0) then uvmcopy_err n old i pa flags else ret tt
  end.

(** Both outcomes of the first mappages() run into the code at [err]. *)
Definition uvmcopy (old new sz : Z) : K Z :=
  loop (S (Z.to_nat ((sz + PGSIZE - 1) / PGSIZE))) (λ i,
    if i <? sz then
      pte ← walk old i false;
      if pte =? 0 then panic "uvmcopy: pte should exist" else
      v ← kload64 pte;
      if Z.land v PTE_V =? 0 then panic "uvmcopy: page not present" else
      let pa := PTE2PA v in
      let flags := Z.land (Z.lor (PTE_FLAGS v) PTE_R) (Z.lnot PTE_W) in
      mappages new i PGSIZE pa flags ;;
      uvmcopy_err fuel old i pa flags ;;
      ret (inl (u64 (i + PGSIZE)))
    else ret (inr (-1))) 0.

Definition uvmclear (pagetable va : Z) : K unit :=
  pte ← walk pagetable va false;
  if pte =? 0 then panic "uvmclear" else
  v ← kload64 pte;
  kstore64 pte (Z.land v (Z.lnot PTE_U)).

(** Rounds a copy of [len] bytes can take: a first partial page, whole pages,
    a last partial one, and the final test. *)
Definition copy_rounds (len : Z) : nat := Z.to_nat (len / PGSIZE) + 3.

(** One round of copyout()'s loop. *)
Definition copyout_body (pagetable : Z) (x : Z * list Z) : K (Z * list Z + Z) :=
  let '(dstva, src) := x in
  let len := Z.of_nat (length src) in
  if 0 <? len then
    let va0 := PGROUNDDOWN dstva in
    pa0 ← walkaddr pagetable va0;
    if pa0 =? 0 then ret (inr (-1)) else
    let n := Z.min (PGSIZE - (dstva - va0)) len in
    kstore_bytes (pa0 + (dstva - va0)) (take (Z.to_nat n) src) ;;
    ret (inl (u64 (va0 + PGSIZE), drop (Z.to_nat n) src))
  else ret (inr 0).

Definition copyout (pagetable dstva : Z) (src : list Z) : K Z :=
  loop (copy_rounds (Z.of_nat (length src))) (copyout_body pagetable) (dstva, src).

(** One round of copyin()'s loop. *)
Definition copyin_body (pagetable : Z) (x : Z * Z * list Z) : K (Z * Z * list Z + Z * list Z) :=
  let '(srcva, len, dst) := x in
  if 0 <? len then
    let va0 := PGROUNDDOWN srcva in
    pa0 ← walkaddr pagetable va0;
    if pa0 =? 0 then ret (inr (-1, dst)) else
    let n := Z.min (PGSIZE - (srcva - va0)) len in
    b ← kload_bytes (pa0 + (srcva - va0)) (Z.to_nat n);
    ret (inl (u64 (va0 + PGSIZE), len - n, dst ++ b))
  else ret (inr (0, dst)).

Definition copyin (pagetable srcva len : Z) : K (Z * list Z) :=
  loop (copy_rounds len) (copyin_body pagetable) (srcva, len, []).

(** copyinstr()'s inner loop over the [n] bytes of one page at [p]: the bytes
    stored, and whether a NUL was. *)
Fixpoint copy_until_nul (b : list Z) : list Z * bool :=
  match b with
  | [] => ([], false)
  | c :: b => if c =? 0 then ([0], true)
              else let '(d, got_null) := copy_until_nul b in (c :: d, got_null)
  end.

(** One round of copyinstr()'s outer loop. *)
Definition copyinstr_body (pagetable : Z) (x : Z * Z * list Z * bool)
    : K (Z * Z * list Z * bool + Z * list Z) :=
  let '(srcva, max, dst, got_null) := x in
  if negb got_null && (0 <? max) then
    let va0 := PGROUNDDOWN srcva in
    pa0 ← walkaddr pagetable va0;
    if pa0 =? 0 then ret (inr (-1, dst)) else
    let n := Z.min (PGSIZE - (srcva - va0)) max in
    b ← kload_bytes (pa0 + (srcva - va0)) (Z.to_nat n);
    let '(d, got_null) := copy_until_nul b in
    ret (inl (u64 (va0 + PGSIZE), max - n, dst ++ d, got_null))
  else ret (inr (if got_null then 0 else -1, dst)).

Definition copyinstr (pagetable srcva max : Z) : K (Z * list Z) :=
  loop (copy_rounds max) (copyinstr_body pagetable) (srcva, max, [], false).

(** ** The kernel's own page table *)

Definition proc_mapstacks (kpgtbl : Z) : K unit :=
  for_all (zrange 0 (Z.to_nat NPROC)) (λ i,
    pa ← kalloc;
    if pa =? 0 then panic "kalloc" else
    kvmmap kpgtbl (KSTACK i) pa PGSIZE (Z.lor PTE_R PTE_W)).

Definition kvmmake : K Z :=
  kpgtbl ← kalloc;
  kmemset kpgtbl 0 PGN ;;
  kvmmap kpgtbl UART0 UART0 PGSIZE (Z.lor PTE_R PTE_W) ;;
  kvmmap kpgtbl VIRTIO0 VIRTIO0 PGSIZE (Z.lor PTE_R PTE_W) ;;
  kvmmap kpgtbl PLIC PLIC 0x400000 (Z.lor PTE_R PTE_W) ;;
  kvmmap kpgtbl KERNBASE KERNBASE (etext - KERNBASE) (Z.lor PTE_R PTE_X) ;;
  kvmmap kpgtbl etext etext (PHYSTOP - etext) (Z.lor PTE_R PTE_W) ;;
  kvmmap kpgtbl TRAMPOLINE trampoline PGSIZE (Z.lor PTE_R PTE_X) ;;
  proc_mapstacks kpgtbl ;;
  ret kpgtbl.

Definition kvminit : K unit :=
  p ← kvmmake; modify (λ s, s <| k_kpgtbl := p |>).

(** sfence_vma() has no effect the model can see: it has no TLB. *)
Definition kvminithart : K unit :=
  p ← gets k_kpgtbl; w_satp (MAKE_SATP p).
End vm.
