(* ===== verification/VmSpec.v ===== *)
(** * Page tables: representation and specifications

    [table m pt path] is the page-table page reached from the root [pt] by the
    indices of [path] (deepest first); [pt_inv m pt l] says that the pages so
    reached are distinct pages of RAM, none of them in the free list [l].
    [vlookup m pt va] is then the abstract page table: the leaf entry of [va],
    0 where a level is missing.  walk(), mappages() and uvmunmap() are
    specified by their effect on [vlookup]; walkaddr(), copyin() and copyout()
    by the user memory it defines. *)

From Stdlib Require Import ZArith Lia.
From stdpp Require Import base numbers list gmap strings.
From S2P Require Import Prelude Machine Kernel Strings Riscv Spinlock Kalloc Vm.

(** ** Representation *)

Fixpoint table (m : memory) (pt : Z) (path : list Z) : option Z :=
  match path with
  | [] => Some pt
  | i :: p =>
      match table m pt p with
      | Some t => let v := load64 m (t + 8 * i) in
                  if truth (Z.land v PTE_V) then Some (PTE2PA v) else None
      | None => None
      end
  end.

Definition idx (i : Z) : Prop := 0 <= i < 512.

(** A path to a page of the table (not to a page it maps). *)
Definition tpath (p : list Z) : Prop := (length p <= 2)%nat ∧ Forall idx p.

Definition vpath (va : Z) : list Z := [PX 1 va; PX 2 va].

Definition vlookup (m : memory) (pt va : Z) : Z :=
  match table m pt (vpath va) with Some t => load64 m (t + 8 * PX 0 va) | None => 0 end.

Section spec.
Context `{Fuel} `{Symbols}.

Record pt_inv (m : memory) (pt : Z) (l : list Z) : Prop := {
  pt_ram : ∀ p t, tpath p -> table m pt p = Some t -> ram_page t;
  pt_free : ∀ p t, tpath p -> table m pt p = Some t -> t ∉ l;
  pt_inj : ∀ p q t, tpath p -> tpath q -> table m pt p = Some t -> table m pt q = Some t -> p = q
}.

Lemma vpath_tpath va : tpath (vpath va).
Proof.
  split; [done|]. apply Forall_cons; split; [apply PX_range; lia|].
  apply Forall_cons; split; [apply PX_range; lia|constructor].
Qed.

Lemma tpath_tail i p : tpath (i :: p) -> tpath p.
Proof. intros [H1 H2]. apply Forall_cons in H2 as [_ H2]. simpl in H1. split; [lia|done]. Qed.

Lemma pt_inv_weaken m pt l l' : pt_inv m pt l -> (∀ x, x ∈ l' -> x ∈ l) -> pt_inv m pt l'.
Proof.
  intros [H1 H2 H3] Hs. constructor; [eauto| |eauto].
  intros p t Hp Ht Hin. eapply H2; eauto.
Qed.

(** *** Changes that leave the tables alone *)

(** A change of one page that is not a page of the table. *)
Lemma table_outside m m' pt f p :
  (∀ q t, tpath q -> table m pt q = Some t -> ram_page t ∧ t <> f) -> ram_page f ->
  eq_outside m m' f 4096 -> Forall idx p -> (length p <= 3)%nat ->
  table m' pt p = table m pt p.
Proof.
  intros Ht Hf He. induction p as [|i p IH]; intros Hi Hl; [done|]. simpl in *.
  apply Forall_cons in Hi as [Hi Hp]. rewrite IH by (done || lia).
  destruct (table m pt p) as [t|] eqn:E; [|done].
  destruct (Ht p t) as [Hr Hne]; [split; [lia|done]|done|].
  rewrite (load64_outside m m' f 4096); [done|done|].
  destruct (pages_apart t f Hr Hf Hne); unfold idx in Hi; lia.
Qed.

Lemma entry_apart t i t' j :
  ram_page t -> ram_page t' -> idx i -> idx j -> t <> t' ∨ i <> j ->
  t + 8 * i + 8 <= t' + 8 * j ∨ t' + 8 * j + 8 <= t + 8 * i.
Proof.
  intros Ht Ht' Hi Hj Hne. unfold idx in *. destruct (Z.eq_dec t t') as [->|Hn]; [lia|].
  destruct (pages_apart t t' Ht Ht' Hn); lia.
Qed.

(** A change of one entry: only paths through it can change. *)
Lemma table_store m pt l p i t v q :
  pt_inv m pt l -> tpath p -> idx i -> table m pt p = Some t ->
  Forall idx q -> (length q <= 3)%nat -> (∀ r, q <> r ++ i :: p) ->
  table (store64 m (t + 8 * i) v) pt q = table m pt q.
Proof.
  intros Hinv Hp Hi Ht. induction q as [|j q IH]; intros Hq Hl Hn; [done|]. simpl in *.
  apply Forall_cons in Hq as [Hj Hq].
  rewrite IH by (first [done|lia|intros r ->; by apply (Hn (j :: r))]).
  destruct (table m pt q) as [t'|] eqn:E; [|done].
  assert (Hq' : tpath q) by (split; [lia|done]).
  rewrite load64_store64_ne; [done|].
  apply entry_apart; eauto using pt_ram.
  destruct (Z.eq_dec t t') as [<-|]; [right|by left]. intros ->.
  apply (Hn []). simpl. f_equal. eauto using pt_inj.
Qed.

(** A change of a leaf entry changes no table. *)
Lemma table_store_leaf m pt l p i t v q :
  pt_inv m pt l -> tpath p -> length p = 2%nat -> idx i -> table m pt p = Some t -> tpath q ->
  table (store64 m (t + 8 * i) v) pt q = table m pt q.
Proof.
  intros Hinv Hp Hl Hi Ht [Hq1 Hq2]. eapply table_store; eauto.
  intros r ->. rewrite length_app in Hq1. simpl in Hq1. lia.
Qed.

Lemma pt_inv_ext m m' pt l :
  pt_inv m pt l -> (∀ q, tpath q -> table m' pt q = table m pt q) -> pt_inv m' pt l.
Proof.
  intros [H1 H2 H3] He. constructor.
  - intros p t Hp. rewrite He by done. eauto.
  - intros p t Hp. rewrite He by done. eauto.
  - intros p q t Hp Hq. rewrite !He by done. eauto.
Qed.

Lemma vpath_inj va va' :
  0 <= va < MAXVA -> 0 <= va' < MAXVA -> vpath va = vpath va' -> PX 0 va = PX 0 va' ->
  PGROUNDDOWN va = PGROUNDDOWN va'.
Proof.
  intros Hv Hv' [=] H0'. change MAXVA with (2 ^ 38) in *. apply PX_inj; lia.
Qed.

Lemma vpath_round va : vpath (PGROUNDDOWN va) = vpath va.
Proof. unfold vpath. by rewrite !PX_PGROUNDDOWN by lia. Qed.

Lemma vlookup_round m pt va : vlookup m pt (PGROUNDDOWN va) = vlookup m pt va.
Proof. unfold vlookup. by rewrite vpath_round, PX_PGROUNDDOWN by lia. Qed.

(** Storing the leaf entry of [va] updates the abstract page table at its page. *)
Lemma vlookup_store m pt l va t v va' :
  pt_inv m pt l -> 0 <= va < MAXVA -> 0 <= va' < MAXVA -> 0 <= v < 2 ^ 64 ->
  table m pt (vpath va) = Some t ->
  vlookup (store64 m (t + 8 * PX 0 va) v) pt va' =
    if decide (PGROUNDDOWN va' = PGROUNDDOWN va) then v else vlookup m pt va'.
Proof.
  intros Hinv Hva Hva' Hv Ht. unfold vlookup.
  pose proof (vpath_tpath va) as Hp. pose proof (vpath_tpath va') as Hp'.
  assert (Hi : idx (PX 0 va)) by (apply PX_range; lia).
  assert (Hi' : idx (PX 0 va')) by (apply PX_range; lia).
  rewrite (table_store_leaf m pt l (vpath va) (PX 0 va) t v (vpath va')) by done.
  case_decide as E.
  - assert (E1 : vpath va' = vpath va) by (by rewrite <- vpath_round, E, vpath_round).
    assert (E0 : PX 0 va' = PX 0 va)
      by (by rewrite <- (PX_PGROUNDDOWN 0 va'), E, PX_PGROUNDDOWN by lia).
    rewrite E1, E0, Ht. by apply load64_store64_eq.
  - destruct (table m pt (vpath va')) as [t'|] eqn:E'; [|done].
    apply load64_store64_ne, entry_apart; eauto using pt_ram.
    destruct (Z.eq_dec t t') as [<-|]; [right|by left]. intros E0. apply E.
    apply vpath_inj; eauto using pt_inj.
Qed.

(** *** A new page-table page *)

Lemma lor_range a b n : 0 <= n -> 0 <= a < 2 ^ n -> 0 <= b < 2 ^ n -> 0 <= Z.lor a b < 2 ^ n.
Proof.
  intros Hn Ha Hb. assert (H1 : 0 <= Z.lor a b) by (apply Z.lor_nonneg; lia).
  split; [done|]. destruct (Z.eq_dec (Z.lor a b) 0) as [->|Hne]; [lia|].
  apply Z.log2_lt_pow2; [lia|]. rewrite Z.log2_lor by lia.
  assert (Hlog : ∀ x, 0 <= x < 2 ^ n -> x <> 0 -> Z.log2 x < n)
    by (intros; apply Z.log2_lt_pow2; lia).
  destruct (Z.eq_dec a 0) as [->|Ha0]; destruct (Z.eq_dec b 0) as [->|Hb0];
    [done|simpl|simpl|apply Z.max_lub_lt; auto].
  - rewrite Z.max_r by apply Z.log2_nonneg. auto.
  - rewrite Z.max_l by apply Z.log2_nonneg. auto.
Qed.

Lemma PA2PTE_range pa : 0 <= PA2PTE pa < 2 ^ 64.
Proof. Transparent PA2PTE. unfold PA2PTE. apply u64_range. Opaque PA2PTE. Qed.

Lemma pte_range pa perm : 0 <= perm < 1024 -> 0 <= Z.lor (Z.lor (PA2PTE pa) perm) PTE_V < 2 ^ 64.
Proof.
  intros. change PTE_V with 1. apply lor_range; [lia| |lia].
  apply lor_range; [lia|apply PA2PTE_range|lia].
Qed.

Lemma pte_valid x : truth (Z.land (Z.lor x PTE_V) PTE_V) = true.
Proof.
  unfold truth. apply negb_true_iff, Z.eqb_neq. change PTE_V with 1. intros E.
  assert (E0 : Z.testbit (Z.land (Z.lor x 1) 1) 0 = false) by (rewrite E; done).
  rewrite Z.land_spec, Z.lor_spec in E0. simpl in E0.
  by rewrite orb_true_r in E0.
Qed.

Lemma ram_page_ok p : end_ok -> ram_page p -> page_ok p.
Proof.
  intros He Hp. pose proof (ram_page_range p He Hp) as Hr. destruct Hp as (H1 & H2 & H3).
  split; [done|]. change PHYSTOP with 2281701376 in *. change PGSIZE with 4096 in *. lia.
Qed.

Section newtable.
Context (m : memory) (pt : Z) (l : list Z) (f : Z) (p : list Z) (i t : Z).
Context (Hend : end_ok) (Hinv : pt_inv m pt (f :: l)) (Hf : ram_page f) (Hfl : f ∉ l).
Context (Hp : tpath (i :: p)) (Ht : table m pt p = Some t) (Hnone : table m pt (i :: p) = None).

Let m1 : memory := memset (memset m f 5 PGN) f 0 PGN.
Let m2 : memory := store64 m1 (t + 8 * i) (Z.lor (PA2PTE f) PTE_V).

Lemma newtable_old q : Forall idx q -> (length q <= 3)%nat -> table m1 pt q = table m pt q.
Proof.
  intros Hq Hl. apply table_outside with (f := f); try done.
  - intros r t' Hr Ht'. split; [eauto using pt_ram|]. intros ->.
    eapply pt_free; [exact Hinv|exact Hr|exact Ht'|]. apply list_elem_of_here.
  - subst m1. rewrite <- PGN_Z. eapply eq_outside_trans; apply eq_outside_memset.
Qed.

Lemma newtable_inv1 : pt_inv m1 pt (f :: l).
Proof.
  eapply pt_inv_ext; [exact Hinv|]. intros q [Hq1 Hq2]. apply newtable_old; [done|lia].
Qed.

Lemma newtable_zero j : idx j -> load64 m2 (f + 8 * j) = 0.
Proof.
  intros Hj. subst m2.
  assert (Hne : t <> f).
  { intros ->. eapply pt_free; [exact Hinv|exact (tpath_tail _ _ Hp)|exact Ht|apply list_elem_of_here]. }
  assert (Hi : idx i) by (destruct Hp as [_ Hp']; by apply Forall_cons in Hp' as [? _]).
  rewrite load64_store64_ne.
  - unfold idx in Hj. subst m1. apply load64_memset0; rewrite ?PGN_Z; lia.
  - apply entry_apart; auto. eauto using pt_ram, tpath_tail.
Qed.

(** After the new page is linked in, exactly one path is new. *)
Lemma newtable_table q :
  tpath q -> table m2 pt q = if decide (q = i :: p) then Some f else table m pt q.
Proof.
  intros Hq. assert (Hi : idx i) by (destruct Hp as [_ Hp']; by apply Forall_cons in Hp' as [? _]).
  pose proof (tpath_tail _ _ Hp) as Hp'. pose proof newtable_inv1 as Hinv1.
  assert (Ht1 : table m1 pt p = Some t).
  { rewrite newtable_old; [done|apply Hp'|destruct Hp'; lia]. }
  assert (Hself : table m2 pt (i :: p) = Some f).
  { simpl. subst m2. rewrite (table_store m1 pt (f :: l)) with (p := p) (t := t).
    - rewrite Ht1. rewrite load64_store64_eq.
      + rewrite pte_valid. f_equal. apply PTE2PA_PA2PTE; [by apply ram_page_ok|done].
      + change PTE_V with 1. apply lor_range; [lia|apply PA2PTE_range|lia].
    - done. - done. - done. - done. - apply Hp'. - destruct Hp'; lia.
    - intros r E. apply (f_equal length) in E. rewrite length_app in E. simpl in E. lia. }
  case_decide as E; [by subst|].
  assert (Hd : (∃ j, q = j :: i :: p) ∨ ¬ ∃ j, q = j :: i :: p).
  { destruct q as [|j q]; [right; by intros [? ?]|].
    destruct (decide (q = i :: p)) as [->|]; [left; eauto|right; intros [? [=]]; done]. }
  destruct Hd as [[j ->]|Hn].
  - assert (idx j) by (destruct Hq as [_ Hq]; by apply Forall_cons in Hq as [? _]).
    change (table m2 pt (j :: i :: p) = table m pt (j :: i :: p)). simpl in Hself, Hnone |- *.
    rewrite Hself, Hnone. by rewrite newtable_zero.
  - subst m2. rewrite (table_store m1 pt (f :: l)) with (p := p) (t := t); try done.
    + apply newtable_old; [apply Hq|destruct Hq; lia].
    + apply Hq.
    + destruct Hq; lia.
    + intros r ->. destruct Hq as [Hq _]. rewrite length_app in Hq. simpl in Hq.
      destruct r as [|j [|j' r]]; [done|by apply Hn; exists j|simpl in Hq; lia].
Qed.

Lemma newtable_inv : pt_inv m2 pt l.
Proof.
  assert (Hnew : ∀ q t', tpath q -> table m pt q = Some t' -> t' <> f).
  { intros q t' Hq Ht' ->. eapply pt_free; [exact Hinv|exact Hq|exact Ht'|apply list_elem_of_here]. }
  constructor.
  - intros q t' Hq. rewrite newtable_table by done. case_decide; [by intros [= <-]|].
    eauto using pt_ram.
  - intros q t' Hq. rewrite newtable_table by done. case_decide; [by intros [= <-]|].
    intros Ht' Hin. eapply pt_free; [exact Hinv|exact Hq|exact Ht'|by apply list_elem_of_further].
  - intros q r t' Hq Hr. rewrite !newtable_table by done. repeat case_decide; subst; try done.
    + intros [= <-] E. by apply Hnew in E.
    + intros E [= <-]. by apply Hnew in E.
    + eauto using pt_inj.
Qed.

(** The abstract page table does not change. *)
Lemma newtable_vlookup va : vlookup m2 pt va = vlookup m pt va.
Proof.
  unfold vlookup. pose proof (vpath_tpath va) as Hv.
  assert (Hi0 : idx (PX 0 va)) by (apply PX_range; lia).
  rewrite newtable_table by done. case_decide as E.
  - rewrite E, Hnone. by apply newtable_zero.
  - destruct (table m pt (vpath va)) as [t'|] eqn:Et; [|done].
    assert (Hi : idx i) by (destruct Hp as [_ Hp']; by apply Forall_cons in Hp' as [? _]).
    pose proof (tpath_tail _ _ Hp) as Hp'.
    assert (Hr' : ram_page t') by eauto using pt_ram.
    assert (Hnf : t' <> f).
    { intros ->. eapply pt_free; [exact Hinv|exact Hv|exact Et|apply list_elem_of_here]. }
    subst m2. rewrite load64_store64_ne.
    + apply load64_outside with (a := f) (n := 4096).
      * subst m1. rewrite <- PGN_Z. eapply eq_outside_trans; apply eq_outside_memset.
      * destruct (pages_apart t' f Hr' Hf Hnf); unfold idx in Hi0; lia.
    + apply entry_apart; eauto using pt_ram. left. intros ->.
      assert (E2 : p = vpath va) by eauto using pt_inj. subst p. destruct Hp as [Hp2 _].
      simpl in Hp2. lia.
Qed.
End newtable.

(** ** walk() *)

Section walk.
Context (Hfuel : (1 <= fuel)%nat) (Hend : end_ok).

Lemma entry_kaddr t i : ram_page t -> idx i -> kaddr_ok (t + 8 * i) 8 = true.
Proof.
  intros (_ & H1 & H2) Hi. unfold idx in Hi. unfold end_ok in Hend.
  apply kaddr_ok_ram; change PGSIZE with 4096 in *; lia.
Qed.

(** The path the remaining levels of a walk to [va] add to [p]. *)
Definition walk_path (va : Z) (levels p : list Z) : list Z :=
  foldl (λ p level, PX level va :: p) p levels.

Lemma walk_path_cons va levels p j : walk_path va levels (j :: p) = walk_path va levels [] ++ j :: p.
Proof.
  unfold walk_path. revert p j. induction levels as [|lv levels IH] using rev_ind; intros p j; [done|].
  rewrite !foldl_app. simpl. by rewrite IH.
Qed.

Lemma table_none_app m pt r p : table m pt p = None -> table m pt (r ++ p) = None.
Proof. intros E. induction r as [|j r IH]; simpl; [done|]. by rewrite IH. Qed.

(** Without allocation: the entry's address, or null where a level is missing. *)
Lemma walk_levels_find va levels pt p t s l :
  pt_inv (k_mem s) pt l -> Forall (λ lv, 0 <= lv) levels -> (length levels + length p <= 2)%nat ->
  Forall idx p -> table (k_mem s) pt p = Some t ->
  walk_levels levels t va false s =
    Ok (match table (k_mem s) pt (walk_path va levels p) with
        | Some t => t + 8 * PX 0 va | None => 0 end) s.
Proof.
  intros Hinv. revert p t. induction levels as [|lv levels IH]; intros p t Hlv Hl Hp Ht.
  { simpl. by rewrite Ht. }
  apply Forall_cons in Hlv as [Hlv0 Hlv]. simpl in Hl.
  assert (Hi : idx (PX lv va)) by (by apply PX_range).
  cbn [walk_levels]. krun (kload64_ok (t + 8 * PX lv va) s
    (entry_kaddr _ _ (pt_ram _ _ _ Hinv p t ltac:(split; [lia|done]) Ht) Hi)).
  change (walk_path va (lv :: levels) p) with (walk_path va levels (PX lv va :: p)).
  destruct (truth (Z.land (load64 (k_mem s) (t + 8 * PX lv va)) PTE_V)) eqn:Ev.
  - apply IH; [done|simpl; lia|by constructor|]. simpl. by rewrite Ht, Ev.
  - simpl. rewrite walk_path_cons.
    rewrite table_none_app; [done|]. simpl. by rewrite Ht, Ev.
Qed.

Lemma walk_find va pt s l :
  pt_inv (k_mem s) pt l -> 0 <= va < MAXVA ->
  walk pt va false s =
    Ok (match table (k_mem s) pt (vpath va) with
        | Some t => t + 8 * PX 0 va | None => 0 end) s.
Proof.
  intros Hinv Hva. unfold walk. replace (MAXVA <=? va) with false by (symmetry; apply Z.leb_gt; lia).
  apply (walk_levels_find va [2; 1] pt [] pt s l); try done.
  repeat constructor; lia.
Qed.

(** The pages the table and the allocator own, and what a change by them keeps. *)
Definition owns (m : memory) (pt : Z) (l : list Z) (q : Z) : Prop :=
  q ∈ l ∨ ∃ p, tpath p ∧ table m pt p = Some q.

Definition in_page (x q : Z) : Prop := q <= x < q + PGSIZE.

Record pt_step (s s' : kstate) (pt : Z) (l l' : list Z) : Prop := {
  ps_frame : kmem_frame s s';
  ps_kmem : kmem_inv s' l';
  ps_inv : pt_inv (k_mem s') pt l';
  ps_owns : ∀ q, owns (k_mem s') pt l' q -> owns (k_mem s) pt l q;
  ps_data : ∀ x, (∀ q, owns (k_mem s) pt l q -> ~ in_page x q) ->
            load8 (k_mem s') x = load8 (k_mem s) x
}.

Lemma pt_step_refl s pt l :
  kmem_inv s l -> pt_inv (k_mem s) pt l -> pt_step s s pt l l.
Proof. constructor; auto using kmem_frame_refl. Qed.

Lemma pt_step_trans s1 s2 s3 pt l1 l2 l3 :
  pt_step s1 s2 pt l1 l2 -> pt_step s2 s3 pt l2 l3 -> pt_step s1 s3 pt l1 l3.
Proof.
  intros [F1 K1 I1 O1 D1] [F2 K2 I2 O2 D2]. constructor; eauto using kmem_frame_trans.
  intros x Hx. rewrite D2; [by apply D1|]. intros q Hq. eauto.
Qed.

Lemma kmem_inv_outside s s' l q m :
  kmem_inv s l -> ram_page q -> q ∉ l -> eq_outside (k_mem s) m q 4096 -> mem_wf m ->
  k_mem s' = m -> k_freelist s' = k_freelist s -> kmem_inv s' l.
Proof.
  intros [Hc Hd Hp _] Hq Hn He Hm <- Ef. constructor; [|done|done|done].
  rewrite Ef. by eapply freelist_chain_ext.
Qed.

Lemma eq_outside_entry m t i v : idx i -> eq_outside m (store64 m (t + 8 * i) v) t 4096.
Proof.
  intros Hi. unfold idx in Hi. eapply eq_outside_weaken; [apply eq_outside_store64|lia|lia].
Qed.

(** kalloc(), memset() and the store that links the new page in. *)
Lemma newtable_step s h cp pt f l p i t :
  quiet s h cp -> lock_free L_kmem s -> kmem_inv s (f :: l) -> pt_inv (k_mem s) pt (f :: l) ->
  tpath (i :: p) -> table (k_mem s) pt p = Some t -> table (k_mem s) pt (i :: p) = None ->
  ∃ s', (∀ k : Z -> K Z,
      (pagetable ← kalloc;
       if pagetable =? 0 then ret 0
       else kmemset pagetable 0 PGN ;;
            kstore64 (t + 8 * i) (Z.lor (PA2PTE pagetable) PTE_V) ;; k pagetable) s = k f s')
    ∧ pt_step s s' pt (f :: l) l ∧ table (k_mem s') pt (i :: p) = Some f
    ∧ (∀ va, vlookup (k_mem s') pt va = vlookup (k_mem s) pt va).
Proof.
  intros Hq Hl Hk Hinv Hp Ht Hn. pose proof (tpath_tail _ _ Hp) as Hp'.
  assert (Hi : idx i) by (destruct Hp as [_ Hx]; by apply Forall_cons in Hx as [? _]).
  assert (Hf : ram_page f) by (pose proof (km_pages _ _ Hk) as Hx; by apply Forall_cons in Hx as [? _]).
  assert (Hfl : f ∉ l) by (pose proof (km_nodup _ _ Hk) as Hx; by apply NoDup_cons in Hx as [? _]).
  assert (Hr : ram_page t) by eauto using pt_ram.
  assert (Htl : t ∉ l).
  { intros Hx. eapply pt_free; [exact Hinv|exact Hp'|exact Ht|by apply list_elem_of_further]. }
  pose proof (kalloc_ok Hfuel Hend s h cp f l Hq Hl Hk) as [E Hk1].
  set (s1 := _ <| k_freelist := _ |>) in *.
  set (s3 := s1 <| k_mem ::= λ m, memset m f 0 PGN |>
                <| k_mem ::= λ m, store64 m (t + 8 * i) (Z.lor (PA2PTE f) PTE_V) |>).
  exists s3. split.
  { intros k. krun E. clear E.
    replace (f =? 0) with false by (symmetry; apply Z.eqb_neq; by apply ram_page_nz).
    krun (kmemset_ok f 0 PGN s1 (ram_page_kaddr f (Z.of_nat PGN) Hend Hf ltac:(rewrite PGN_Z; lia))).
    by krun (kstore64_ok (t + 8 * i) (Z.lor (PA2PTE f) PTE_V)
               (s1 <| k_mem ::= λ m, memset m f 0 PGN |>) (entry_kaddr t i Hr Hi)). }
  assert (Em : k_mem s3 = store64 (memset (memset (k_mem s) f 5 PGN) f 0 PGN) (t + 8 * i)
                            (Z.lor (PA2PTE f) PTE_V)) by done.
  pose proof (newtable_table (k_mem s) pt l f p i t Hend Hinv Hf Hp Ht Hn) as Htab.
  rewrite <- Em in Htab. split; [|split].
  - constructor.
    + exists (k_mem s3), (k_freelist s3), (k_pipes s), (k_tframes s). subst s3 s1. by keq.
    + set (s2 := s1 <| k_mem := memset (k_mem s1) f 0 PGN |>).
      assert (Hk2 : kmem_inv s2 l).
      { eapply (kmem_inv_outside s1 s2 l f); [exact Hk1|exact Hf|done| | |reflexivity|reflexivity].
        - rewrite <- PGN_Z. apply eq_outside_memset.
        - apply mem_wf_memset, Hk1. }
      eapply (kmem_inv_outside s2 s3 l t); [exact Hk2|done|done|apply eq_outside_entry, Hi| |exact Em|].
      * apply mem_wf_store64, mem_wf_memset, mem_wf_memset, Hk.
      * subst s3 s2 s1. simpl. reflexivity.
    + rewrite Em. by apply (newtable_inv (k_mem s) pt l f p i t).
    + intros q [Hx|(r & Hr1 & Hx)]; [left; by apply list_elem_of_further|].
      rewrite Htab in Hx by done. case_decide; [left; injection Hx as <-; apply list_elem_of_here|].
      right. eauto.
    + intros x Hx. rewrite Em.
      assert (Hxf : ~ in_page x f) by (apply Hx; left; apply list_elem_of_here).
      assert (Hxt : ~ in_page x t) by (apply Hx; right; eauto).
      unfold in_page in *. change PGSIZE with 4096 in *.
      rewrite (eq_outside_entry _ t i _ Hi) by lia.
      rewrite !eq_outside_memset; rewrite ?PGN_Z; [done|lia|lia].
  - rewrite Htab by done. by rewrite decide_True.
  - intros va. rewrite Em. by apply (newtable_vlookup (k_mem s) pt l f p i t).
Qed.

Lemma kalloc_none s h cp :
  quiet s h cp -> lock_free L_kmem s -> kmem_inv s [] -> ∀ k : Z -> K Z,
  (pagetable ← kalloc; if pagetable =? 0 then ret 0 else k pagetable) s = Ok 0 s.
Proof. intros Hq Hl Hk k. by krun (kalloc_empty Hfuel s h cp Hq Hl Hk). Qed.

(** With allocation: null only when memory is exhausted; otherwise every level
    now exists.  Either way the abstract page table is the same. *)
Lemma walk_levels_alloc va levels pt p t s h cp l :
  quiet s h cp -> lock_free L_kmem s -> kmem_inv s l -> pt_inv (k_mem s) pt l ->
  Forall (λ lv, 0 <= lv) levels -> (length levels + length p <= 2)%nat ->
  Forall idx p -> table (k_mem s) pt p = Some t ->
  ∃ r s' l', walk_levels levels t va true s = Ok r s' ∧ pt_step s s' pt l l'
    ∧ (∀ va', vlookup (k_mem s') pt va' = vlookup (k_mem s) pt va')
    ∧ ((r = 0 ∧ l' = []) ∨
       ∃ t', table (k_mem s') pt (walk_path va levels p) = Some t' ∧ r = t' + 8 * PX 0 va).
Proof.
  intros Hq Hl Hk Hinv. revert p t s l Hq Hl Hk Hinv.
  induction levels as [|lv levels IH]; intros p t s l Hq Hl Hk Hinv Hlv Hlen Hp Ht.
  { exists (t + 8 * PX 0 va), s, l. split; [done|]. split; [by apply pt_step_refl|]. eauto. }
  apply Forall_cons in Hlv as [Hlv0 Hlv]. simpl in Hlen.
  assert (Hi : idx (PX lv va)) by (by apply PX_range).
  assert (Hp' : tpath p) by (split; [lia|done]).
  assert (Hip : tpath (PX lv va :: p)) by (split; [simpl; lia|by constructor]).
  cbn [walk_levels].
  krun (kload64_ok (t + 8 * PX lv va) s (entry_kaddr _ _ (pt_ram _ _ _ Hinv p t Hp' Ht) Hi)).
  change (walk_path va (lv :: levels) p) with (walk_path va levels (PX lv va :: p)).
  destruct (truth (Z.land (load64 (k_mem s) (t + 8 * PX lv va)) PTE_V)) eqn:Ev.
  - apply (IH (PX lv va :: p) _ s l); try done; [simpl; lia|by constructor|].
    simpl. by rewrite Ht, Ev.
  - assert (Hn : table (k_mem s) pt (PX lv va :: p) = None) by (simpl; by rewrite Ht, Ev).
    cbn [negb]. destruct l as [|f l].
    + exists 0, s, []. split; [by apply (kalloc_none s h cp)|].
      split; [by apply pt_step_refl|]. auto.
    + destruct (newtable_step s h cp pt f l p (PX lv va) t Hq Hl Hk Hinv Hip Ht Hn)
        as (s1 & E & Hst & Ht1 & Hv1).
      destruct (IH (PX lv va :: p) f s1 l) as (r & s2 & l2 & E2 & Hst2 & Hv2 & Hr); try done.
      * eauto using kmem_frame_quiet, ps_frame.
      * eauto using kmem_frame_lock, ps_frame.
      * by eapply ps_kmem.
      * by eapply ps_inv.
      * simpl. lia.
      * by constructor.
      * exists r, s2, l2. split; [by rewrite E|]. split; [by eapply pt_step_trans|].
        split; [|done]. intros va'. by rewrite Hv2.
Qed.

Lemma walk_alloc va pt s h cp l :
  quiet s h cp -> lock_free L_kmem s -> kmem_inv s l -> pt_inv (k_mem s) pt l ->
  0 <= va < MAXVA ->
  ∃ r s' l', walk pt va true s = Ok r s' ∧ pt_step s s' pt l l'
    ∧ (∀ va', vlookup (k_mem s') pt va' = vlookup (k_mem s) pt va')
    ∧ ((r = 0 ∧ l' = []) ∨
       ∃ t', table (k_mem s') pt (vpath va) = Some t' ∧ r = t' + 8 * PX 0 va).
Proof.
  intros Hq Hl Hk Hinv Hva. unfold walk.
  replace (MAXVA <=? va) with false by (symmetry; apply Z.leb_gt; lia).
  apply (walk_levels_alloc va [2; 1] pt [] pt s h cp l); try done. repeat constructor; lia.
Qed.

(** ** Storing a leaf entry *)

Lemma leaf_step s pt l va t v :
  kmem_inv s l -> pt_inv (k_mem s) pt l -> table (k_mem s) pt (vpath va) = Some t ->
  let s' := s <| k_mem ::= λ m, store64 m (t + 8 * PX 0 va) v |> in
  kstore64 (t + 8 * PX 0 va) v s = Ok tt s' ∧ pt_step s s' pt l l
  ∧ (∀ q, tpath q -> table (k_mem s') pt q = table (k_mem s) pt q).
Proof.
  intros Hk Hinv Ht s'. pose proof (vpath_tpath va) as Hp.
  assert (Hi : idx (PX 0 va)) by (apply PX_range; lia).
  assert (Hr : ram_page t) by eauto using pt_ram.
  assert (Em : k_mem s' = store64 (k_mem s) (t + 8 * PX 0 va) v) by done.
  assert (Htab : ∀ q, tpath q -> table (k_mem s') pt q = table (k_mem s) pt q).
  { intros q Hq. rewrite Em. by apply table_store_leaf with (l := l) (p := vpath va). }
  split; [apply kstore64_ok, entry_kaddr; done|]. split; [|done]. constructor.
  - exists (k_mem s'), (k_freelist s), (k_pipes s), (k_tframes s). subst s'. by keq.
  - eapply (kmem_inv_outside s s' l t); [done|done| |apply eq_outside_entry, Hi| |exact Em|done].
    + eauto using pt_free.
    + apply mem_wf_store64, Hk.
  - by eapply pt_inv_ext.
  - intros q [Hx|(r & Hr1 & Hx)]; [by left|right]. rewrite Htab in Hx by done. eauto.
  - intros x Hx. rewrite Em. apply (eq_outside_entry _ t (PX 0 va) _ Hi).
    assert (Hxt : ~ in_page x t) by (apply Hx; right; eauto).
    unfold in_page in Hxt. change PGSIZE with 4096 in Hxt. lia.
Qed.

(** ** mappages() *)

(** The pages of [a, b) are mapped to consecutive frames from [pa]; every other
    entry is as it was. *)
Definition mapped (m m' : memory) (pt a b pa perm : Z) : Prop :=
  ∀ va, 0 <= va < MAXVA ->
    vlookup m' pt va =
      if decide (a <= va < b) then Z.lor (Z.lor (PA2PTE (pa + (PGROUNDDOWN va - a))) perm) PTE_V
      else vlookup m pt va.

Definition unmapped (m : memory) (pt a b : Z) : Prop :=
  ∀ va, a <= va < b -> truth (Z.land (vlookup m pt va) PTE_V) = false.

(** What a run of mappages() over [a, last + PGSIZE) ends in. *)
Definition map_result (s : kstate) (pt a last pa perm : Z) (l : list Z) (r : Z) (s' : kstate) : Prop :=
  ∃ l' b, pt_step s s' pt l l' ∧ mapped (k_mem s) (k_mem s') pt a b pa perm
    ∧ b mod PGSIZE = 0 ∧ a <= b
    ∧ ((r = 0 ∧ b = last + PGSIZE) ∨ (r = -1 ∧ l' = [] ∧ b <= last)).

Lemma aligned_round a va :
  a mod PGSIZE = 0 -> (PGROUNDDOWN va = a <-> a <= va < a + PGSIZE).
Proof. intros Ha. rewrite PGROUNDDOWN_eq. change PGSIZE with 4096 in *. zmod. Qed.

Lemma vlookup_table m pt va t :
  table m pt (vpath va) = Some t -> load64 m (t + 8 * PX 0 va) = vlookup m pt va.
Proof. intros E. unfold vlookup. by rewrite E. Qed.

Lemma entry_nz t i : ram_page t -> idx i -> (t + 8 * i =? 0) = false.
Proof.
  intros Ht Hi. pose proof (ram_page_nz t Hend Ht). pose proof (ram_page_range t Hend Ht).
  unfold idx in Hi. apply Z.eqb_neq. lia.
Qed.

Lemma map_body_ok pt last a pa perm s h cp l :
  quiet s h cp -> lock_free L_kmem s -> kmem_inv s l -> pt_inv (k_mem s) pt l ->
  a mod PGSIZE = 0 -> 0 <= a < MAXVA -> 0 <= perm < 1024 ->
  truth (Z.land (vlookup (k_mem s) pt a) PTE_V) = false ->
  ∃ r s' l', mappages_body pt last perm (a, pa) s = Ok r s' ∧ pt_step s s' pt l l'
    ∧ ((r = inr (-1) ∧ l' = [] ∧ mapped (k_mem s) (k_mem s') pt a a pa perm)
       ∨ (r = (if a =? last then inr 0 else inl (u64 (a + PGSIZE), u64 (pa + PGSIZE)))
          ∧ mapped (k_mem s) (k_mem s') pt a (a + PGSIZE) pa perm)).
Proof.
  intros Hq Hl Hk Hinv Ha Hva Hperm Hun. unfold mappages_body.
  destruct (walk_alloc a pt s h cp l Hq Hl Hk Hinv Hva) as (r & s1 & l1 & E & St & Hv & Hr).
  krun E. destruct Hr as [[-> ->]|(t & Ht & ->)].
  - exists (inr (-1)), s1, []. split; [done|]. split; [done|]. left. split; [done|]. split; [done|].
    intros va Hva'. rewrite decide_False by lia. apply Hv.
  - pose proof (ps_inv _ _ _ _ _ St) as Hinv1.
    assert (Hr : ram_page t) by eauto using pt_ram, vpath_tpath.
    assert (Hi : idx (PX 0 a)) by (apply PX_range; lia).
    rewrite entry_nz by done.
    krun (kload64_ok (t + 8 * PX 0 a) s1 (entry_kaddr _ _ Hr Hi)).
    rewrite (vlookup_table _ pt a t Ht), Hv, Hun.
    destruct (leaf_step s1 pt l1 a t (Z.lor (Z.lor (PA2PTE pa) perm) PTE_V)
                (ps_kmem _ _ _ _ _ St) Hinv1 Ht) as (E2 & St2 & _).
    krun E2. eexists _, _, l1. split; [|split; [by eapply pt_step_trans|right; split; [done|]]].
    { by destruct (a =? last). }
    intros va Hva'. simpl.
    rewrite (vlookup_store (k_mem s1) pt l1 a t) by (done || by apply pte_range).
    rewrite (PGROUNDDOWN_aligned a) by done. rewrite Hv.
    repeat case_decide; try done; rewrite aligned_round in * by done; try lia.
    do 3 f_equal. apply aligned_round in H2; [|done]. lia.
Qed.

Lemma mapped_app m1 m2 m3 pt a b c pa perm :
  a mod PGSIZE = 0 -> b mod PGSIZE = 0 -> a <= b <= c ->
  mapped m1 m2 pt a b pa perm -> mapped m2 m3 pt b c (pa + (b - a)) perm ->
  mapped m1 m3 pt a c pa perm.
Proof.
  intros Ha Hb Hab H12 H23 va Hva. rewrite (H23 va Hva), (H12 va Hva).
  repeat case_decide; try done; try lia. do 3 f_equal. lia.
Qed.

Lemma mappages_loop_ok n pt a pa perm s h cp l :
  let last := a + PGSIZE * Z.of_nat n in
  quiet s h cp -> lock_free L_kmem s -> kmem_inv s l -> pt_inv (k_mem s) pt l ->
  a mod PGSIZE = 0 -> 0 <= a -> last < MAXVA -> 0 <= perm < 1024 ->
  0 <= pa -> pa + PGSIZE * Z.of_nat n < 2 ^ 64 ->
  unmapped (k_mem s) pt a (last + PGSIZE) ->
  ∃ r s', loop (S n) (mappages_body pt last perm) (a, pa) s = Ok r s'
    ∧ map_result s pt a last pa perm l r s'.
Proof.
  intros last. subst last. revert a pa s l.
  induction n as [|n IH]; intros a pa s l Hq Hl Hk Hinv Ha Ha0 Hlast Hperm Hpa Hpa2 Hun;
    set (last := a + PGSIZE * Z.of_nat _) in *.
  all: assert (Hal : a <= last) by (subst last; change PGSIZE with 4096; lia).
  all: destruct (map_body_ok pt last a pa perm s h cp l Hq Hl Hk Hinv Ha ltac:(lia) Hperm)
      as (r & s1 & l1 & E & St & Hr);
    [apply Hun; change PGSIZE with 4096; lia|].
  all: change (loop (S ?k) ?f ?x) with
        (r ← f x; match r with inl y => loop k f y | inr r => ret r end); krun E.
  all: destruct Hr as [(-> & -> & Hm)|(-> & Hm)];
    [exists (-1), s1; split; [done|]; exists [], a; split; [done|]; split; [done|];
     split; [done|]; split; [lia|]; auto|].
  - replace (a =? last) with true by (symmetry; apply Z.eqb_eq; subst last; lia).
    exists 0, s1. split; [done|]. exists l1, (a + PGSIZE). split; [done|]. split; [done|].
    split; [change PGSIZE with 4096 in *; zmod|].
    split; [change PGSIZE with 4096; lia|]. left. subst last. split; [done|lia].
  - assert (Hne : a <> last) by (subst last; change PGSIZE with 4096; lia).
    replace (a =? last) with false by (symmetry; by apply Z.eqb_neq).
    assert (HM : MAXVA = 2 ^ 38) by reflexivity.
    rewrite (u64_small (a + PGSIZE)) by (subst last; change PGSIZE with 4096 in *; lia).
    rewrite (u64_small (pa + PGSIZE)) by (change PGSIZE with 4096 in *; lia).
    assert (El : last = a + PGSIZE + PGSIZE * Z.of_nat n) by (subst last; lia).
    destruct (IH (a + PGSIZE) (pa + PGSIZE) s1 l1) as (r & s2 & E2 & l2 & b & St2 & Hm2 & Hb & Hab & Hres).
    + eauto using kmem_frame_quiet, ps_frame.
    + eauto using kmem_frame_lock, ps_frame.
    + by eapply ps_kmem.
    + by eapply ps_inv.
    + change PGSIZE with 4096 in *; zmod.
    + change PGSIZE with 4096; lia.
    + lia.
    + done.
    + change PGSIZE with 4096; lia.
    + lia.
    + assert (HL : last + PGSIZE <= MAXVA).
      { rewrite HM. rewrite HM in Hlast. clear -Ha Hlast El. change PGSIZE with 4096 in *. zmod. }
      rewrite <- El. intros va Hva. rewrite Hm by (change PGSIZE with 4096 in *; lia).
      rewrite decide_False by lia. apply Hun. change PGSIZE with 4096 in *; lia.
    + rewrite <- El in E2, Hres. exists r, s2. split; [done|]. exists l2, b.
      split; [by eapply pt_step_trans|]. split; [|split; [done|split; [|done]]].
      * eapply (mapped_app _ _ _ pt a (a + PGSIZE) b); eauto;
          [change PGSIZE with 4096 in *; zmod|change PGSIZE with 4096 in *; lia|].
        by replace (pa + (a + PGSIZE - a)) with (pa + PGSIZE) by lia.
      * change PGSIZE with 4096 in *; lia.
Qed.

Lemma mappages_ok pt va size pa perm s h cp l :
  let a := PGROUNDDOWN va in let last := PGROUNDDOWN (va + size - 1) in
  quiet s h cp -> lock_free L_kmem s -> kmem_inv s l -> pt_inv (k_mem s) pt l ->
  0 <= va -> 0 < size -> va + size <= MAXVA -> 0 <= perm < 1024 ->
  0 <= pa -> pa + (last - a) < 2 ^ 64 ->
  unmapped (k_mem s) pt a (last + PGSIZE) ->
  ∃ r s', mappages pt va size pa perm s = Ok r s' ∧ map_result s pt a last pa perm l r s'.
Proof.
  intros a last Hq Hl Hk Hinv Hva Hsz Hmax Hperm Hpa Hpa2 Hun. unfold mappages.
  replace (size =? 0) with false by (symmetry; apply Z.eqb_neq; lia).
  assert (HM : MAXVA = 2 ^ 38) by reflexivity.
  rewrite u64_small by lia. fold a last.
  assert (Ha : a mod PGSIZE = 0 ∧ a <= va < a + PGSIZE)
    by (subst a; rewrite PGROUNDDOWN_eq; change PGSIZE with 4096; zmod).
  assert (Hb : last mod PGSIZE = 0 ∧ last <= va + size - 1 < last + PGSIZE)
    by (subst last; rewrite PGROUNDDOWN_eq; change PGSIZE with 4096; zmod).
  assert (Hal : a <= last ∧ last = a + PGSIZE * Z.of_nat (Z.to_nat ((last - a) / PGSIZE)))
    by (clear -Ha Hb Hsz; change PGSIZE with 4096 in *; zmod).
  destruct Hal as [Hal El].
  replace (a <=? last) with true by (symmetry; apply Z.leb_le; lia).
  rewrite Z.min_l by lia. revert El. generalize (Z.to_nat ((last - a) / PGSIZE)). intros n El.
  clearbody last. subst last.
  apply mappages_loop_ok with (h := h) (cp := cp); try done; try lia; try apply Ha.
  clear -Ha Hva. change PGSIZE with 4096 in *. zmod.
Qed.

(** ** User memory *)

(** The frame walkaddr() finds for [va], 0 if the user may not access it. *)
Definition upa (m : memory) (pt va : Z) : Z :=
  if MAXVA <=? va then 0 else
  let v := vlookup m pt va in
  if Z.land v PTE_V =? 0 then 0 else if Z.land v PTE_U =? 0 then 0 else PTE2PA v.

Lemma walkaddr_ok pt va s l :
  pt_inv (k_mem s) pt l -> 0 <= va -> walkaddr pt va s = Ok (upa (k_mem s) pt va) s.
Proof.
  intros Hinv Hva. unfold walkaddr, upa. destruct (Z.leb_spec MAXVA va) as [|Hlt]; [done|].
  krun (walk_find va pt s l Hinv (conj Hva Hlt)). unfold vlookup.
  destruct (table (k_mem s) pt (vpath va)) as [t|] eqn:E; [|done].
  assert (Hr : ram_page t) by eauto using pt_ram, vpath_tpath.
  assert (Hi : idx (PX 0 va)) by (apply PX_range; lia).
  rewrite entry_nz by done. krun (kload64_ok (t + 8 * PX 0 va) s (entry_kaddr _ _ Hr Hi)).
  by repeat case_match.
Qed.

(** The byte at user address [va]. *)
Definition ubyte (m : memory) (pt va : Z) : option Z :=
  if upa m pt va =? 0 then None else Some (load8 m (upa m pt va + va mod PGSIZE)).

(** User pages are RAM pages of their own: neither free nor part of the page
    table, and no frame is mapped twice. *)
Record user_inv (m : memory) (pt : Z) (l : list Z) : Prop := {
  u_ram : ∀ va, 0 <= va -> upa m pt va <> 0 -> ram_page (upa m pt va);
  u_own : ∀ va, 0 <= va -> upa m pt va <> 0 -> ~ owns m pt l (upa m pt va);
  u_inj : ∀ va va', 0 <= va -> 0 <= va' -> upa m pt va <> 0 -> upa m pt va = upa m pt va' ->
          PGROUNDDOWN va = PGROUNDDOWN va'
}.

Lemma upa_round m pt va : 0 <= va -> upa m pt (PGROUNDDOWN va) = upa m pt va.
Proof.
  intros Hva. unfold upa. rewrite vlookup_round.
  replace (MAXVA <=? PGROUNDDOWN va) with (MAXVA <=? va); [done|].
  rewrite PGROUNDDOWN_eq. change MAXVA with (2 ^ 38). change PGSIZE with 4096.
  destruct (Z.leb_spec (2 ^ 38) va); destruct (Z.leb_spec (2 ^ 38) (va - va mod 4096)); try done; zmod.
Qed.

(** Within one page, the bytes a copy reads are the user's bytes. *)
Lemma ubyte_chunk m pt va n :
  0 <= va -> va mod PGSIZE + Z.of_nat n <= PGSIZE -> upa m pt va <> 0 ->
  mapM (ubyte m pt) (zrange va n) = Some (load_bytes m (upa m pt va + va mod PGSIZE) n).
Proof.
  intros Hva Hn Hu.
  assert (Hg : ∀ k x, va <= x -> x + Z.of_nat k <= va + Z.of_nat n ->
    mapM (ubyte m pt) (zrange x k) =
      Some (load_bytes m (upa m pt va + (va mod PGSIZE + (x - va))) k)).
  { induction k as [|k IH]; intros x Hx Hk; [done|].
    rewrite zrange_S, load_bytes_S. simpl.
    assert (E : upa m pt x = upa m pt va).
    { rewrite <- (upa_round m pt x), <- (upa_round m pt va) by lia. f_equal.
      rewrite !PGROUNDDOWN_eq. change PGSIZE with 4096 in *. zmod. }
    assert (Eb : ubyte m pt x = Some (load8 m (upa m pt va + x mod PGSIZE))).
    { unfold ubyte. rewrite E. by replace (upa m pt va =? 0) with false by (symmetry; by apply Z.eqb_neq). }
    rewrite Eb.
    simpl. rewrite IH by lia. simpl. do 2 f_equal.
    - f_equal. change PGSIZE with 4096 in *. zmod.
    - f_equal. lia. }
  rewrite Hg by lia. do 2 f_equal. lia.
Qed.

(** Pages a copy of [len] bytes at [va] touches. *)
Definition npages_at (va len : Z) : Z := if 0 <? len then (va mod PGSIZE + len + PGSIZE - 1) / PGSIZE else 0.

Lemma copy_rounds_enough va len : 0 <= va -> 0 <= len -> npages_at va len < Z.of_nat (copy_rounds len).
Proof.
  intros. unfold npages_at, copy_rounds. destruct (Z.ltb_spec 0 len); [|lia].
  assert (0 <= len / PGSIZE) by (apply Z.div_pos; change PGSIZE with 4096; lia).
  rewrite Nat2Z.inj_add, Z2Nat.id by lia. change PGSIZE with 4096 in *. zmod.
Qed.

(** What the loops of copyin() and copyout() do next. *)
Lemma next_chunk va len :
  0 <= va -> 0 < len ->
  let off := va mod PGSIZE in let n := Z.min (PGSIZE - off) len in
  va - PGROUNDDOWN va = off ∧ 0 < n <= len ∧ off + n <= PGSIZE
  ∧ npages_at (PGROUNDDOWN va + PGSIZE) (len - n) < npages_at va len
  ∧ (len - n = 0 ∨ PGROUNDDOWN va + PGSIZE = va + n).
Proof.
  intros Hva Hlen off n. subst off n. unfold npages_at. rewrite PGROUNDDOWN_eq.
  replace (0 <? len) with true by (symmetry; apply Z.ltb_lt; lia).
  change PGSIZE with 4096 in *.
  assert (Hr : 0 <= va mod 4096 < 4096) by (apply Z.mod_pos_bound; lia).
  replace ((va - va mod 4096 + 4096) mod 4096) with 0 by zmod.
  split; [lia|]. split; [lia|]. split; [lia|]. split; [|lia].
  destruct (Z.ltb_spec 0 (len - Z.min (4096 - va mod 4096) len)).
  - rewrite Z.min_l by lia.
    replace (va mod 4096 + len + 4096 - 1)
      with (0 + (len - (4096 - va mod 4096)) + 4096 - 1 + 1 * 4096) by lia.
    rewrite Z.div_add by lia. lia.
  - apply Z.div_str_pos. lia.
Qed.

Lemma upa_lt m pt va : upa m pt va <> 0 -> va < MAXVA.
Proof. unfold upa. destruct (Z.leb_spec MAXVA va); [done|lia]. Qed.

Lemma copyin_loop_ok n pt va len dst s l :
  pt_inv (k_mem s) pt l -> user_inv (k_mem s) pt l -> 0 <= va -> 0 <= len ->
  npages_at va len < Z.of_nat n ->
  ∃ d, loop n (copyin_body pt) (va, len, dst) s =
    Ok (match mapM (ubyte (k_mem s) pt) (zrange va (Z.to_nat len)) with
        | Some bs => (0, dst ++ bs)
        | None => (-1, dst ++ d)
        end) s.
Proof.
  intros Hinv Hu. revert va len dst. induction n as [|n IH]; intros va len dst Hva Hlen Hn.
  { unfold npages_at in Hn. destruct (Z.ltb_spec 0 len); [|lia].
    assert (0 <= (va mod PGSIZE + len + PGSIZE - 1) / PGSIZE)
      by (change PGSIZE with 4096; zmod). lia. }
  change (loop (S n) (copyin_body pt) ?x) with
    (r ← copyin_body pt x; match r with inl y => loop n (copyin_body pt) y | inr r => ret r end).
  destruct (Z.eq_dec len 0) as [->|Hne].
  { exists []. simpl. by rewrite app_nil_r. }
  destruct (next_chunk va len Hva ltac:(lia)) as (Eoff & Hc & Hoff & Hpg & Hnext).
  set (c := Z.min _ _) in *.
  assert (Ebody : copyin_body pt (va, len, dst) s =
    (if upa (k_mem s) pt va =? 0 then Ok (inr (-1, dst)) s
     else Ok (inl (u64 (PGROUNDDOWN va + PGSIZE), len - c,
            dst ++ load_bytes (k_mem s) (upa (k_mem s) pt va + va mod PGSIZE) (Z.to_nat c))) s)).
  { unfold copyin_body. replace (0 <? len) with true by (symmetry; apply Z.ltb_lt; lia).
    rewrite Eoff. fold c.
    krun (walkaddr_ok pt (PGROUNDDOWN va) s l Hinv ltac:(rewrite PGROUNDDOWN_eq; change PGSIZE with 4096; zmod)).
    rewrite upa_round by done. destruct (Z.eqb_spec (upa (k_mem s) pt va) 0) as [|Hnz]; [done|].
    unfold kload_bytes. pose proof (u_ram _ _ _ Hu va Hva Hnz) as (_ & Hlo & Hhi).
    assert (0 <= va mod PGSIZE) by (apply Z.mod_pos_bound; done).
    rewrite kaddr_ok_ram; [done|unfold end_ok in Hend; lia|lia]. }
  unfold kbind. rewrite Ebody. clear Ebody.
  destruct (Z.eqb_spec (upa (k_mem s) pt va) 0) as [Ez|Hnz]; cbn [bindo].
  - exists []. rewrite app_nil_r. replace (Z.to_nat len) with (S (Z.to_nat (len - 1))) by lia.
    rewrite zrange_S. simpl. unfold ubyte at 1.
    assert (Eb : ubyte (k_mem s) pt va = None) by (unfold ubyte; by rewrite Ez).
    by rewrite Eb.
  - pose proof (upa_lt _ _ _ Hnz) as Hlt. assert (HM : MAXVA = 2 ^ 38) by reflexivity.
    assert (Hpr : 0 <= PGROUNDDOWN va <= va) by (rewrite PGROUNDDOWN_eq; change PGSIZE with 4096; zmod).
    rewrite u64_small by (change PGSIZE with 4096; lia).
    destruct (IH (PGROUNDDOWN va + PGSIZE) (len - c)
      (dst ++ load_bytes (k_mem s) (upa (k_mem s) pt va + va mod PGSIZE) (Z.to_nat c))) as [d E];
      [change PGSIZE with 4096; lia|lia|lia|].
    exists (load_bytes (k_mem s) (upa (k_mem s) pt va + va mod PGSIZE) (Z.to_nat c) ++ d).
    rewrite E. clear E. f_equal.
    replace (Z.to_nat len) with (Z.to_nat c + Z.to_nat (len - c))%nat by lia.
    rewrite zrange_app, (mapM_app_some _ _ _ _ (ubyte_chunk _ pt va (Z.to_nat c) Hva ltac:(lia) Hnz)).
    assert (Ez : zrange (PGROUNDDOWN va + PGSIZE) (Z.to_nat (len - c)) =
                 zrange (va + Z.of_nat (Z.to_nat c)) (Z.to_nat (len - c))).
    { destruct Hnext as [E0|E0]; [by rewrite E0|]. f_equal. lia. }
    rewrite Ez. destruct (mapM _ (zrange (va + _) _)); simpl; by rewrite <- app_assoc.
Qed.

(** *** Writes to user pages *)

Lemma table_user m m' pt l q p :
  pt_inv m pt l -> ram_page q -> ~ owns m pt l q -> eq_outside m m' q 4096 -> tpath p ->
  table m' pt p = table m pt p.
Proof.
  intros Hinv Hq Hown He [Hp1 Hp2]. apply table_outside with (f := q); try done; [|lia].
  intros r t Hr Ht. split; [eauto using pt_ram|]. intros ->. apply Hown. right. eauto.
Qed.

Lemma vlookup_user m m' pt l q va :
  pt_inv m pt l -> ram_page q -> ~ owns m pt l q -> eq_outside m m' q 4096 ->
  vlookup m' pt va = vlookup m pt va.
Proof.
  intros Hinv Hq Hown He. unfold vlookup. pose proof (vpath_tpath va) as Hv.
  rewrite (table_user m m' pt l q) by done.
  destruct (table m pt (vpath va)) as [t|] eqn:E; [|done].
  assert (Hi : idx (PX 0 va)) by (apply PX_range; lia). unfold idx in Hi.
  assert (Hne : t <> q) by (intros ->; apply Hown; right; eauto).
  eapply load64_outside; [exact He|].
  destruct (pages_apart t q (pt_ram _ _ _ Hinv _ _ Hv E) Hq Hne); lia.
Qed.

(** Only user memory changes. *)
Record user_step (s s' : kstate) (pt : Z) (l : list Z) : Prop := {
  us_frame : s' = s <| k_mem := k_mem s' |>;
  us_kmem : kmem_inv s' l;
  us_inv : pt_inv (k_mem s') pt l;
  us_user : user_inv (k_mem s') pt l;
  us_look : ∀ va, vlookup (k_mem s') pt va = vlookup (k_mem s) pt va
}.

Lemma upa_ext m m' pt : (∀ va, vlookup m' pt va = vlookup m pt va) -> ∀ va, upa m' pt va = upa m pt va.
Proof. intros E va. unfold upa. by rewrite E. Qed.

Lemma user_step_page s s' pt l q :
  kmem_inv s l -> pt_inv (k_mem s) pt l -> user_inv (k_mem s) pt l ->
  ram_page q -> ~ owns (k_mem s) pt l q ->
  s' = s <| k_mem := k_mem s' |> -> eq_outside (k_mem s) (k_mem s') q 4096 -> mem_wf (k_mem s') ->
  user_step s s' pt l.
Proof.
  intros Hk Hinv Hu Hq Hown Es He Hm.
  assert (Ht : ∀ p, tpath p -> table (k_mem s') pt p = table (k_mem s) pt p)
    by (intros; by apply table_user with (l := l) (q := q)).
  assert (Hv : ∀ va, vlookup (k_mem s') pt va = vlookup (k_mem s) pt va)
    by (intros; by apply vlookup_user with (l := l) (q := q)).
  pose proof (upa_ext _ _ pt Hv) as Hup.
  constructor; [done| |by eapply pt_inv_ext| |done].
  - eapply (kmem_inv_outside s s' l q); try done; [|by rewrite Es].
    intros Hx. apply Hown. by left.
  - destruct Hu as [U1 U2 U3]. constructor; setoid_rewrite Hup; eauto.
    intros va Hva Hnz Ho. apply (U2 va Hva Hnz).
    destruct Ho as [Ho|(p & Hp & Ho)]; [by left|right]. rewrite Ht in Ho by done. eauto.
Qed.

Lemma user_step_refl s pt l :
  kmem_inv s l -> pt_inv (k_mem s) pt l -> user_inv (k_mem s) pt l -> user_step s s pt l.
Proof. intros. constructor; try done. by keq. Qed.

Lemma user_step_trans s1 s2 s3 pt l :
  user_step s1 s2 pt l -> user_step s2 s3 pt l -> user_step s1 s3 pt l.
Proof.
  intros [E1 _ _ _ L1] [E2 K2 I2 U2 L2]. constructor; try done.
  - rewrite E2 at 1. rewrite E1 at 1. by keq.
  - intros va. by rewrite L2.
Qed.

(** The first [k] bytes of [src] have been written at [va]. *)
Definition written (m m' : memory) (pt va : Z) (src : list Z) (k : Z) : Prop :=
  ∀ x, 0 <= x ->
    ubyte m' pt x = if decide (va <= x < va + k) then src !! Z.to_nat (x - va) else ubyte m pt x.

Lemma copyout_chunk s pt l va src :
  kmem_inv s l -> pt_inv (k_mem s) pt l -> user_inv (k_mem s) pt l ->
  0 <= va -> upa (k_mem s) pt va <> 0 -> bytes_ok src ->
  va mod PGSIZE + Z.of_nat (length src) <= PGSIZE ->
  let s' := s <| k_mem ::= λ m, store_bytes m (upa (k_mem s) pt va + va mod PGSIZE) src |> in
  kstore_bytes (upa (k_mem s) pt va + va mod PGSIZE) src s = Ok tt s' ∧
  user_step s s' pt l ∧ written (k_mem s) (k_mem s') pt va src (Z.of_nat (length src)).
Proof.
  intros Hk Hinv Hu Hva Hnz Hb Hlen s'.
  pose proof (u_ram _ _ _ Hu va Hva Hnz) as Hr. pose proof Hr as (_ & Hlo & Hhi).
  pose proof (u_own _ _ _ Hu va Hva Hnz) as Hown.
  assert (Ho : 0 <= va mod PGSIZE < PGSIZE) by (by apply Z.mod_pos_bound).
  assert (Em : k_mem s' = store_bytes (k_mem s) (upa (k_mem s) pt va + va mod PGSIZE) src) by done.
  assert (St : user_step s s' pt l).
  { eapply user_step_page; [done|done|done|exact Hr|exact Hown| | |].
    - by keq.
    - rewrite Em. change PGSIZE with 4096 in *.
      eapply eq_outside_weaken; [apply eq_outside_store_bytes|lia|lia].
    - rewrite Em. apply mem_wf_store_bytes, Hk. }
  split; [|split; [done|]].
  { unfold kstore_bytes. rewrite kaddr_ok_ram; [done|unfold end_ok in Hend; lia|lia]. }
  pose proof (upa_ext _ _ pt (us_look _ _ _ _ St)) as Hup.
  intros x Hx. unfold ubyte. rewrite Hup. case_decide as E.
  - assert (Ex : upa (k_mem s) pt x = upa (k_mem s) pt va ∧ x mod PGSIZE = va mod PGSIZE + (x - va)).
    { rewrite <- (upa_round _ pt x), <- (upa_round _ pt va) by lia. rewrite !PGROUNDDOWN_eq.
      change PGSIZE with 4096 in *.
      assert (x - x mod 4096 = va - va mod 4096) as -> by zmod. split; [done|zmod]. }
    destruct Ex as [-> ->]. replace (upa (k_mem s) pt va =? 0) with false by (symmetry; by apply Z.eqb_neq).
    destruct (lookup_lt_is_Some_2 src (Z.to_nat (x - va)) ltac:(lia)) as [b Eb].
    rewrite Em, (load8_store_bytes _ _ _ _ b), Eb; [|lia|].
    + f_equal. apply u8_small. change (2 ^ 8) with 256. by apply (Forall_lookup_1 _ _ _ _ Hb Eb).
    + rewrite <- Eb. f_equal. lia.
  - destruct (Z.eqb_spec (upa (k_mem s) pt x) 0) as [|Hxz]; [done|]. f_equal. rewrite Em.
    assert (Hxo : 0 <= x mod PGSIZE < PGSIZE) by (by apply Z.mod_pos_bound).
    apply store_bytes_out.
    destruct (Z.eq_dec (upa (k_mem s) pt x) (upa (k_mem s) pt va)) as [Ex|Ex].
    + pose proof (u_inj _ _ _ Hu x va Hx Hva Hxz Ex) as Er. rewrite !PGROUNDDOWN_eq in Er. lia.
    + destruct (pages_apart _ _ (u_ram _ _ _ Hu x Hx Hxz) Hr Ex); change PGSIZE with 4096 in *; lia.
Qed.

Lemma written_app m1 m2 m3 pt va src c k :
  0 <= c <= k -> (Z.to_nat c <= length src)%nat ->
  written m1 m2 pt va (take (Z.to_nat c) src) c ->
  written m2 m3 pt (va + c) (drop (Z.to_nat c) src) (k - c) ->
  written m1 m3 pt va src k.
Proof.
  intros Hc Hl W1 W2 x Hx. rewrite (W2 x Hx), (W1 x Hx).
  repeat case_decide; try done; try lia.
  - rewrite lookup_drop. f_equal. lia.
  - by rewrite lookup_take_lt by lia.
Qed.

Lemma written_zero m pt va src : written m m pt va src 0.
Proof. intros x Hx. by rewrite decide_False by lia. Qed.

Lemma copyout_loop_ok n pt va src s l :
  kmem_inv s l -> pt_inv (k_mem s) pt l -> user_inv (k_mem s) pt l -> 0 <= va -> bytes_ok src ->
  npages_at va (Z.of_nat (length src)) < Z.of_nat n ->
  ∃ r s' k, loop n (copyout_body pt) (va, src) s = Ok r s' ∧ user_step s s' pt l
    ∧ written (k_mem s) (k_mem s') pt va src k
    ∧ ((r = 0 ∧ k = Z.of_nat (length src)) ∨
       (r = -1 ∧ 0 <= k < Z.of_nat (length src) ∧ ubyte (k_mem s) pt (va + k) = None)).
Proof.
  revert va src s. induction n as [|n IH]; intros va src s Hk Hinv Hu Hva Hb Hn.
  { unfold npages_at in Hn. destruct (Z.ltb_spec 0 (Z.of_nat (length src))); [|lia].
    assert (0 <= (va mod PGSIZE + Z.of_nat (length src) + PGSIZE - 1) / PGSIZE)
      by (change PGSIZE with 4096; zmod). lia. }
  change (loop (S n) (copyout_body pt) ?x) with
    (r ← copyout_body pt x; match r with inl y => loop n (copyout_body pt) y | inr r => ret r end).
  destruct (decide (src = [])) as [->|Hne].
  { exists 0, s, 0. split; [done|]. split; [by apply user_step_refl|].
    split; [apply written_zero|by left]. }
  assert (Hlen : 0 < Z.of_nat (length src)) by (destruct src; simpl in *; [done|lia]).
  destruct (next_chunk va (Z.of_nat (length src)) Hva Hlen) as (Eoff & Hc & Hoff & Hpg & Hnext).
  set (c := Z.min _ _) in *.
  assert (Hpr : 0 <= PGROUNDDOWN va <= va) by (rewrite PGROUNDDOWN_eq; change PGSIZE with 4096; zmod).
  destruct (Z.eq_dec (upa (k_mem s) pt va) 0) as [Ez|Hnz].
  - assert (E : copyout_body pt (va, src) s = Ok (inr (-1)) s).
    { unfold copyout_body. replace (0 <? _) with true by (symmetry; by apply Z.ltb_lt).
      krun (walkaddr_ok pt (PGROUNDDOWN va) s l Hinv ltac:(lia)).
      by rewrite upa_round, Ez by done. }
    krun E. exists (-1), s, 0. split; [done|]. split; [by apply user_step_refl|].
    split; [apply written_zero|]. right. split; [done|]. split; [lia|].
    unfold ubyte. by rewrite Z.add_0_r, Ez.
  - destruct (copyout_chunk s pt l va (take (Z.to_nat c) src) Hk Hinv Hu Hva Hnz) as (E1 & St & W).
    { by apply Forall_take. } { rewrite length_take. lia. }
    match type of St with user_step _ ?x _ _ => set (s1 := x) in * end.
    rewrite length_take, Nat.min_l, Z2Nat.id in W by lia.
    pose proof (upa_lt _ _ _ Hnz) as Hlt. assert (HM : MAXVA = 2 ^ 38) by reflexivity.
    assert (E : copyout_body pt (va, src) s =
      Ok (inl (PGROUNDDOWN va + PGSIZE, drop (Z.to_nat c) src)) s1).
    { unfold copyout_body. replace (0 <? _) with true by (symmetry; by apply Z.ltb_lt).
      krun (walkaddr_ok pt (PGROUNDDOWN va) s l Hinv ltac:(lia)).
      rewrite upa_round by done. rewrite Eoff. fold c.
      replace (upa (k_mem s) pt va =? 0) with false by (symmetry; by apply Z.eqb_neq).
      krun E1. by rewrite u64_small by (change PGSIZE with 4096; lia). }
    krun E.
    assert (El : Z.of_nat (length (drop (Z.to_nat c) src)) = Z.of_nat (length src) - c)
      by (rewrite length_drop; lia).
    destruct (IH (PGROUNDDOWN va + PGSIZE) (drop (Z.to_nat c) src) s1) as (r & s2 & k & E2 & St2 & W2 & Hr).
    + by eapply us_kmem. + by eapply us_inv. + by eapply us_user.
    + change PGSIZE with 4096; lia.
    + by apply Forall_drop.
    + rewrite El. lia.
    + rewrite El in Hr. exists r, s2, (c + k). split; [done|]. split; [by eapply user_step_trans|].
      assert (Hk0 : k = 0 ∨ PGROUNDDOWN va + PGSIZE = va + c).
      { destruct Hnext as [E0|E0]; [left; destruct Hr; lia|by right]. }
      split.
      * destruct Hk0 as [->|E0]; [|rewrite E0 in W2].
        -- intros x Hx. rewrite (W2 x Hx), (W x Hx).
           repeat case_decide; try done; try lia. by rewrite lookup_take_lt by lia.
        -- eapply (written_app _ (k_mem s1) _ pt va src c); [lia|lia|done|].
           by replace (c + k - c) with k by lia.
      * destruct Hr as [[-> ->]|(-> & Hk1 & Hu1)]; [left; split; [done|lia]|right].
        split; [done|]. split; [lia|].
        destruct Hnext as [E0|E0]; [lia|]. rewrite E0 in Hu1.
        rewrite (W (va + c + k) ltac:(lia)), decide_False in Hu1 by lia.
        by rewrite Z.add_assoc.
Qed.
End walk.
End spec.

(** ** A fresh page table *)

Lemma pt_inv_empty `{Symbols} m pt l :
  (∀ i, idx i -> load64 m (pt + 8 * i) = 0) -> ram_page pt -> pt ∉ l ->
  pt_inv m pt l ∧ (∀ va, vlookup m pt va = 0) ∧ (∀ p t, tpath p -> table m pt p = Some t -> p = [] ∧ t = pt).
Proof.
  intros Hz Hr Hn.
  assert (Hs : ∀ i p, Forall idx (i :: p) -> table m pt (i :: p) = None).
  { intros i p. revert i. induction p as [|j p IH]; intros i Hi; apply Forall_cons in Hi as [Hi Hp].
    - simpl. by rewrite Hz.
    - change (table m pt (i :: j :: p)) with
        (match table m pt (j :: p) with
         | Some t => let v := load64 m (t + 8 * i) in
                     if truth (Z.land v PTE_V) then Some (PTE2PA v) else None
         | None => None end). by rewrite IH. }
  assert (Ht : ∀ p t, tpath p -> table m pt p = Some t -> p = [] ∧ t = pt).
  { intros [|i p] t [_ Hp]; [intros [= <-]; done|]. by rewrite Hs. }
  split; [|split; [|done]].
  - constructor.
    + intros p t Hp E. by destruct (Ht p t Hp E) as [_ ->].
    + intros p t Hp E. by destruct (Ht p t Hp E) as [_ ->].
    + intros p q t Hp Hq E E'. destruct (Ht p t Hp E) as [-> _]. by destruct (Ht q t Hq E') as [-> _].
  - intros va. unfold vlookup, vpath. rewrite Hs; [done|]. apply vpath_tpath.
Qed.

(** A machine with an empty page table at [ex_pt] and three free pages. *)
Definition ex_page (i : Z) : Z := KERNBASE + 0x100000 + i * PGSIZE.
Definition ex_pt : Z := ex_page 0.
Definition ex_state : kstate :=
  (boot [] ∅) <| k_locks := {[L_kmem := Spinlock 0 "kmem" None]} |>
    <| k_freelist := ex_page 1 |>
    <| k_mem := store64 (store64 ∅ (ex_page 1) (ex_page 2)) (ex_page 2) (ex_page 3) |>.

Lemma load64_empty a : load64 ∅ a = 0.
Proof.
  Transparent load64. unfold load64. Opaque load64.
  assert (E : ∀ n x, load_le n ∅ x = 0); [|apply E].
  induction n as [|n IH]; intros x; [done|]. simpl. rewrite IH. unfold load8.
  by rewrite lookup_empty.
Qed.

Lemma ex_load i j : 0 <= i < 10 -> idx j -> i <> 1 -> i <> 2 ->
  load64 (k_mem ex_state) (ex_page i + 8 * j) = 0.
Proof.
  intros Hi Hj H1 H2. unfold idx in Hj. unfold ex_state, ex_page. simpl.
  change PGSIZE with 4096. rewrite !load64_store64_ne by lia. apply load64_empty.
Qed.

Lemma ex_ram i : 0 <= i < 10 -> @ram_page example_symbols (ex_page i).
Proof.
  intros Hi. unfold ram_page, ex_page. change PGSIZE with 4096. change PHYSTOP with 2281701376.
  change KERNBASE with 2147483648. change (@end_ example_symbols) with (2147483648 + 0x21d20).
  split; [|lia]. replace (2147483648 + 0x100000 + i * 4096) with ((524544 + i) * 4096) by lia.
  apply Z.mod_mul. lia.
Qed.

Lemma ex_kmem : @kmem_inv example_symbols ex_state [ex_page 1; ex_page 2; ex_page 3].
Proof.
  constructor.
  - simpl. split; [done|]. split; [by vm_compute|]. split; [by vm_compute|by vm_compute].
  - refine (bool_decide_eq_true_1 _ _). by vm_compute.
  - repeat constructor; by apply ex_ram.
  - unfold ex_state. simpl. auto with xv6.
Qed.

Lemma ex_quiet : quiet ex_state (zero_hart 0) zero_cpu ∧ lock_free L_kmem ex_state.
Proof. split; [by constructor|by exists "kmem"%string]. Qed.

Lemma ex_table :
  let l := [ex_page 1; ex_page 2; ex_page 3] in
  @pt_inv example_symbols (k_mem ex_state) ex_pt l ∧ (∀ va, vlookup (k_mem ex_state) ex_pt va = 0)
  ∧ (∀ p t, tpath p -> table (k_mem ex_state) ex_pt p = Some t -> p = [] ∧ t = ex_pt).
Proof.
  apply (@pt_inv_empty example_symbols).
  - intros i Hi. by apply (ex_load 0).
  - by apply ex_ram.
  - refine (bool_decide_eq_true_1 _ _). by vm_compute.
Qed.

(** ** Properties *)

(** C17: mappages() maps exactly the pages of its range.  On a well-formed page
    table whose entries for the range are free, it returns 0 with every page of
    [PGROUNDDOWN(va), PGROUNDDOWN(va+size-1)] mapped to the consecutive frames
    from [pa] with permission [perm], or -1 when the allocator ran out, with a
    prefix of the range mapped; every other entry of the abstract page table
    is unchanged, and the table stays well-formed. *)
Theorem mappages_spec `{Fuel} `{Symbols} (pt va size pa perm : Z) (s : kstate) (h : hart)
    (cp : cpu) (l : list Z) :
  let a := PGROUNDDOWN va in let last := PGROUNDDOWN (va + size - 1) in
  (1 <= fuel)%nat -> end_ok ->
  quiet s h cp -> lock_free L_kmem s -> kmem_inv s l -> pt_inv (k_mem s) pt l ->
  0 <= va -> 0 < size -> va + size <= MAXVA -> 0 <= perm < 1024 ->
  0 <= pa -> pa + (last - a) < 2 ^ 64 ->
  unmapped (k_mem s) pt a (last + PGSIZE) ->
  ∃ r s', mappages pt va size pa perm s = Ok r s' ∧ map_result s pt a last pa perm l r s'.
Proof. intros. by eapply mappages_ok. Qed.

Lemma mappages_spec_witness :
  let H : Fuel := 1%nat in let H0 := example_symbols in
  ∃ r s', mappages ex_pt 0 PGSIZE (ex_page 4) (Z.lor PTE_R PTE_U) ex_state = Ok r s'
    ∧ map_result ex_state ex_pt 0 0 (ex_page 4) (Z.lor PTE_R PTE_U)
        [ex_page 1; ex_page 2; ex_page 3] r s'.
Proof.
  intros H H0. destruct ex_quiet as [Hq Hl]. destruct ex_table as (Hp & Hv & _).
  apply (mappages_spec ex_pt 0 PGSIZE (ex_page 4) (Z.lor PTE_R PTE_U) ex_state
           (zero_hart 0) zero_cpu [ex_page 1; ex_page 2; ex_page 3]).
  - apply le_n.
  - done.
  - exact Hq.
  - exact Hl.
  - exact ex_kmem.
  - exact Hp.
  - lia.
  - done.
  - done.
  - done.
  - done.
  - vm_compute. reflexivity.
  - intros va _. rewrite Hv. reflexivity.
Defined.

(** C22: copyout() followed by copyin() of the same range returns the bytes
    written, whatever page boundaries the range crosses, and copyout() changes
    no other byte of user memory and no mapping. *)
Theorem copyout_copyin_roundtrip `{Fuel} `{Symbols} (pt va : Z) (src : list Z) (s : kstate) (l : list Z) :
  (1 <= fuel)%nat -> end_ok ->
  kmem_inv s l -> pt_inv (k_mem s) pt l -> user_inv (k_mem s) pt l -> 0 <= va -> bytes_ok src ->
  (∀ x, va <= x < va + Z.of_nat (length src) -> ubyte (k_mem s) pt x <> None) ->
  ∃ s', copyout pt va src s = Ok 0 s'
    ∧ copyin pt va (Z.of_nat (length src)) s' = Ok (0, src) s'
    ∧ (∀ x, 0 <= x -> ~ (va <= x < va + Z.of_nat (length src)) ->
         ubyte (k_mem s') pt x = ubyte (k_mem s) pt x)
    ∧ (∀ x, vlookup (k_mem s') pt x = vlookup (k_mem s) pt x).
Proof.
  intros Hfuel Hend Hk Hinv Hu Hva Hb Hm.
  destruct (copyout_loop_ok Hfuel Hend (copy_rounds (Z.of_nat (length src))) pt va src s l)
    as (r & s' & k & E & St & W & Hr); try done.
  { apply copy_rounds_enough; lia. }
  destruct Hr as [[-> ->]|(_ & Hk1 & Hn)]; [|exfalso; apply (Hm (va + k)); [lia|done]].
  exists s'. split; [exact E|]. split; [|split].
  - destruct (copyin_loop_ok Hfuel Hend (copy_rounds (Z.of_nat (length src))) pt va
      (Z.of_nat (length src)) [] s' l (us_inv _ _ _ _ St) (us_user _ _ _ _ St) Hva ltac:(lia)) as [d E2].
    { apply copy_rounds_enough; lia. }
    unfold copyin. rewrite E2. rewrite Nat2Z.id.
    assert (Em : ∀ n, (n <= length src)%nat ->
      mapM (ubyte (k_mem s') pt) (zrange va n) = Some (take n src)).
    { induction n as [|n IH]; intros Hn; [by rewrite take_0|].
      replace (S n) with (n + 1)%nat by lia. rewrite zrange_app.
      rewrite (mapM_app_some _ _ _ _ (IH ltac:(lia))). rewrite zrange_S. simpl.
      rewrite (W (va + Z.of_nat n)) by lia. rewrite decide_True by lia.
      destruct (lookup_lt_is_Some_2 src n ltac:(lia)) as [b Eb].
      replace (Z.to_nat (va + Z.of_nat n - va)) with n by lia. rewrite Eb. simpl.
      by rewrite Nat.add_1_r, (take_S_r _ _ _ Eb). }
    by rewrite Em, take_ge by lia.
  - intros x Hx Hn. rewrite (W x Hx). by rewrite decide_False by done.
  - apply us_look with (l := l). done.
Qed.

(** A machine where page 0 of [ex_pt] is mapped to [ex_page 4]. *)
Lemma ex_user :
  let H : Fuel := 1%nat in let H0 := example_symbols in
  ∃ s l, kmem_inv s l ∧ pt_inv (k_mem s) ex_pt l ∧ user_inv (k_mem s) ex_pt l
    ∧ (∀ va, 0 <= va < PGSIZE -> ubyte (k_mem s) ex_pt va <> None).
Proof.
  intros H H0. destruct ex_quiet as [Hq Hl]. destruct ex_table as (Hp & Hv & Ht).
  assert (He : end_ok) by (by vm_compute).
  destruct (@mappages_ok H H0 (le_n _) He ex_pt 0 PGSIZE (ex_page 4) (Z.lor PTE_R PTE_U) ex_state
    (zero_hart 0) zero_cpu [ex_page 1; ex_page 2; ex_page 3] Hq Hl ex_kmem Hp
    ltac:(lia) ltac:(done) ltac:(done) ltac:(done) ltac:(done) ltac:(vm_compute; reflexivity)
    ltac:(intros va _; by rewrite Hv)) as (r & s & E & l & b & St & Hm & _ & Hb & Hr).
  assert (Er : r = 0).
  { assert (Ec : match mappages ex_pt 0 PGSIZE (ex_page 4) (Z.lor PTE_R PTE_U) ex_state with
                 | Ok r _ => r =? 0 | _ => false end = true) by (vm_compute; reflexivity).
    rewrite E in Ec. by apply Z.eqb_eq in Ec. }
  clear E.
  destruct Hr as [[_ ->]|(Er' & _)]; [|congruence].
  change (PGROUNDDOWN (0 + PGSIZE - 1)) with (PGROUNDDOWN 4095) in *.
  rewrite !PGROUNDDOWN_eq in Hm. change (mapped (k_mem ex_state) (k_mem s) ex_pt 0 4096 (ex_page 4)
    (Z.lor PTE_R PTE_U)) in Hm.
  assert (Hup : ∀ va, 0 <= va -> upa (k_mem s) ex_pt va = if decide (va < 4096) then ex_page 4 else 0).
  { intros va Hva. unfold upa. destruct (Z.leb_spec MAXVA va) as [Hge|Hlt].
    - rewrite decide_False; [done|]. change MAXVA with (2 ^ 38) in Hge. lia.
    - rewrite (Hm va) by lia. case_decide as E1; case_decide; try lia; [|by rewrite Hv].
      rewrite PGROUNDDOWN_eq. change PGSIZE with 4096. rewrite Z.mod_small by lia.
      replace (ex_page 4 + (va - va - 0)) with (ex_page 4) by lia. by vm_compute. }
  exists s, l. split; [apply St|]. split; [apply St|]. split.
  - constructor.
    + intros va Hva. rewrite Hup by done. case_decide; [|done]. intros _. by apply ex_ram.
    + intros va Hva. rewrite Hup by done. case_decide; [|done]. intros _ Ho.
      apply (ps_owns _ _ _ _ _ St) in Ho as [Ho|(p & Hpp & Ho)].
      * revert Ho. refine (bool_decide_eq_true_1 _ _). by vm_compute.
      * destruct (Ht _ _ Hpp Ho) as [_ Ho']. by vm_compute in Ho'.
    + intros va va' Hva Hva'. rewrite !Hup by done. repeat case_decide; try done. intros _ _.
      rewrite !PGROUNDDOWN_eq. change PGSIZE with 4096. rewrite !Z.mod_small by lia. lia.
  - intros va Hva. change PGSIZE with 4096 in Hva. unfold ubyte. rewrite Hup by lia.
    by rewrite decide_True by lia.
Qed.

Lemma copyout_copyin_roundtrip_witness :
  let H : Fuel := 1%nat in let H0 := example_symbols in
  ∃ s s', copyout ex_pt 100 [1; 2; 3] s = Ok 0 s' ∧ copyin ex_pt 100 3 s' = Ok (0, [1; 2; 3]) s'.
Proof.
  intros H H0. destruct ex_user as (s & l & Hk & Hp & Hu & Hb).
  destruct (copyout_copyin_roundtrip ex_pt 100 [1; 2; 3] s l) as (s' & E1 & E2 & _).
  - apply le_n.
  - done.
  - exact Hk.
  - exact Hp.
  - exact Hu.
  - lia.
  - repeat constructor; lia.
  - intros x Hx. apply Hb. change PGSIZE with 4096. simpl in Hx. lia.
  - exists s, s'. exact (conj E1 E2).
Defined.

Lemma uvmcopy_returns `{Fuel} `{Symbols} (old new sz : Z) (s : kstate) :
  any_return (λ r, r = -1) (uvmcopy old new sz s).
Proof.
  unfold uvmcopy. apply any_return_loop. intros i s1. destruct (i <? sz); [|done].
  apply any_return_bind. intros pte s2. destruct (pte =? 0); [done|].
  apply any_return_bind. intros v s3. destruct (Z.land v PTE_V =? 0); [done|].
  apply any_return_bind. intros _ s4. by apply any_return_bind.
Qed.

(** uvmcopy() never reports success: whatever the page tables, the memory
    and the size, if it returns at all it returns -1. *)
Theorem uvmcopy_never_succeeds `{Fuel} `{Symbols} (old new sz : Z) (s : kstate) :
  any_return (λ r, r = -1) (uvmcopy old new sz s).
Proof. apply uvmcopy_returns. Qed.
