(* ===== verification/UserMem.v ===== *)
(** * User memory, byte by byte

    What a driver that copies bytes one at a time to or from the memory of a
    process needs of copyout() and copyin(): an interface over VmSpec.v for
    console.c and pipe.c. *)

From Stdlib Require Import ZArith Lia.
From stdpp Require Import base numbers list gmap strings.
From S2P Require Import Prelude Machine Kernel Riscv Spinlock Kalloc Vm VmSpec.

Section user.
Context `{Fuel} `{Symbols} (Hfuel : (1 <= fuel)%nat) (Hend : end_ok).

(** The page table [pt] and its user pages are intact, [l] being the free pages. *)
Record user_ok (pt : Z) (l : list Z) (s : kstate) : Prop := {
  uo_kmem : kmem_inv s l;
  uo_pt : pt_inv (k_mem s) pt l;
  uo_user : user_inv (k_mem s) pt l
}.

Lemma user_ok_ext pt l s s' :
  user_ok pt l s -> k_mem s' = k_mem s -> k_freelist s' = k_freelist s -> user_ok pt l s'.
Proof.
  intros [[K1 K2 K3 K4] Hp Hu] Em Ef. constructor; [|by rewrite Em|by rewrite Em].
  constructor; [by rewrite Em, Ef|done|done|by rewrite Em].
Qed.

(** The running process is [p], and its user memory is in order. *)
Record uproc (h : hart) (cp : cpu) (p : nat) (px : proc) (l : list Z) (s : kstate) : Prop := {
  up_quiet : quiet s h cp;
  up_cur : cp_proc cp = Some p;
  up_proc : k_procs s !! p = Some px;
  up_user : user_ok (p_pagetable px) l s
}.

(** The [n] bytes from [va] on are mapped for the user. *)
Definition mapped_user (m : memory) (pt va n : Z) : Prop := ∀ x, va <= x < va + n -> ubyte m pt x <> None.

Lemma copyout_byte pt l va c s :
  user_ok pt l s -> 0 <= va -> 0 <= c < 256 -> ubyte (k_mem s) pt va <> None ->
  ∃ m, copyout pt va [c] s = Ok 0 (s <| k_mem := m |>) ∧ user_ok pt l (s <| k_mem := m |>)
    ∧ written (k_mem s) m pt va [c] 1.
Proof using Hfuel Hend.
  intros [Hk Hp Hu] Hva Hc Hm.
  destruct (copyout_loop_ok Hfuel Hend (copy_rounds 1) pt va [c] s l) as (r & s' & k & E & St & W & Hr);
    try done; [by apply Forall_singleton|by apply copy_rounds_enough|].
  destruct Hr as [[-> ->]|(_ & Hk1 & Hn)].
  - destruct St as [Ef Sk Sp Su _]. exists (k_mem s'). rewrite <- Ef. done.
  - simpl in Hk1. replace k with 0 in Hn by lia. by rewrite Z.add_0_r in Hn.
Qed.

Lemma copyin_byte pt l va b s :
  user_ok pt l s -> 0 <= va -> ubyte (k_mem s) pt va = Some b -> copyin pt va 1 s = Ok (0, [b]) s.
Proof using Hfuel Hend.
  intros [Hk Hp Hu] Hva Hm.
  destruct (copyin_loop_ok Hfuel Hend (copy_rounds 1) pt va 1 [] s l Hp Hu Hva ltac:(lia)) as [d E];
    [by apply copy_rounds_enough|].
  unfold copyin. rewrite E. simpl. by rewrite Z.add_0_r, Hm.
Qed.

(** A byte written leaves the rest of a buffer mapped. *)
Lemma mapped_written m m' pt va src k a n :
  written m m' pt va src k -> k <= Z.of_nat (length src) -> 0 <= a ->
  mapped_user m pt a n -> mapped_user m' pt a n.
Proof.
  intros W Hk Ha Hm x Hx. rewrite (W x) by lia. case_decide as Hd; [|by apply Hm].
  intros E. apply lookup_ge_None in E. lia.
Qed.

Lemma mapped_below m pt va n x : mapped_user m pt va n -> va <= x < va + n -> x < MAXVA.
Proof.
  intros Hm Hx. specialize (Hm x Hx). unfold ubyte in Hm. apply (upa_lt Hfuel m pt).
  destruct (Z.eqb_spec (upa m pt x) 0); [done|done].
Qed.
End user.
