(* ===== verification/Proc.v ===== *)
(** * proc.c: the running process, sleeping, waking and scheduling

    A process is an index into [k_procs].  swtch() is a [Yield]: sched() gives
    the processor to the scheduler and continues when the scheduler has
    switched back, on whatever hart that was; the scheduler gives it to the
    process it chose.  The life cycle of processes (allocproc() to wait()) is
    in Procs.v, which needs the file system. *)

From Stdlib Require Import ZArith Lia.
From stdpp Require Import base numbers list gmap strings.
From S2P Require Import Prelude Machine Kernel Strings Riscv Spinlock Kalloc Vm.

(** The process table, in the order the loops [for(p = proc; p < &proc[NPROC]; p++)] visit it. *)
Definition proc_indices : list nat := seq 0 (Z.to_nat NPROC).

Section proc.
Context `{Fuel} `{Symbols}.

Definition myproc : K (option nat) :=
  push_off ;;
  c ← mycpu; cp ← getcpu c;
  pop_off ;;
  ret (cp_proc cp).

(** [myproc()] where the code dereferences the result. *)
Definition curproc : K nat := o ← myproc; deref o.

Definition procinit : K unit :=
  initlock L_pid "nextpid" ;;
  initlock L_wait "wait_lock" ;;
  for_all proc_indices (λ p,
    initlock (L_proc p) "proc" ;;
    updp p (λ x, x <| p_state := UNUSED |>) ;;
    updp p (λ x, x <| p_kstack := KSTACK (Z.of_nat p) |>)).

Definition allocpid : K Z :=
  acquire L_pid ;;
  pid ← gets k_nextpid;
  modify (λ s, s <| k_nextpid ::= λ n, i32 (n + 1) |>) ;;
  release L_pid ;;
  ret pid.

Definition sched : K unit :=
  p ← curproc;
  h ← holding (L_proc p);
  if negb h then panic "sched p->lock" else
  c ← mycpu; cp ← getcpu c;
  if negb (cp_noff cp =? 1) then panic "sched locks" else
  x ← getp p;
  if bool_decide (p_state x = RUNNING) then panic "sched running" else
  on ← intr_get;
  if truth on then panic "sched interruptible" else
  c ← mycpu; cp ← getcpu c;
  let intena := cp_intena cp in
  yield_cpu W_sched ;;
  c ← mycpu; updcpu c (λ cp, cp <| cp_intena := intena |>).

Definition yield : K unit :=
  p ← curproc;
  acquire (L_proc p) ;;
  updp p (λ x, x <| p_state := RUNNABLE |>) ;;
  sched ;;
  release (L_proc p).

Definition sleep (chan : channel) (lk : lockid) : K unit :=
  p ← curproc;
  acquire (L_proc p) ;;
  release lk ;;
  updp p (λ x, x <| p_chan := chan |>) ;;
  updp p (λ x, x <| p_state := SLEEPING |>) ;;
  sched ;;
  updp p (λ x, x <| p_chan := Ch_null |>) ;;
  release (L_proc p) ;;
  acquire lk.

(** The body of wakeup()'s loop. *)
Definition wakeup_one (chan : channel) (p : nat) : K unit :=
  me ← myproc;
  when (negb (bool_decide (me = Some p)))
    (acquire (L_proc p) ;;
     x ← getp p;
     when (bool_decide (p_state x = SLEEPING) && bool_decide (p_chan x = chan))
       (updp p (λ x, x <| p_state := RUNNABLE |>)) ;;
     release (L_proc p)).

Definition wakeup (chan : channel) : K unit := for_all proc_indices (wakeup_one chan).

(** The body of kill()'s loop: whether [p] was the process to kill. *)
Definition kill_one (pid : Z) (p : nat) : K (option Z) :=
  acquire (L_proc p) ;;
  x ← getp p;
  if p_pid x =? pid then
    updp p (λ x, x <| p_killed := 1 |>) ;;
    x ← getp p;
    when (bool_decide (p_state x = SLEEPING)) (updp p (λ x, x <| p_state := RUNNABLE |>)) ;;
    release (L_proc p) ;;
    ret (Some 0)
  else release (L_proc p) ;; ret None.

Definition kill (pid : Z) : K Z :=
  r ← foreach proc_indices (kill_one pid);
  ret (default (-1) r).

Definition setkilled (p : nat) : K unit :=
  acquire (L_proc p) ;;
  updp p (λ x, x <| p_killed := 1 |>) ;;
  release (L_proc p).

Definition killed (p : nat) : K Z :=
  acquire (L_proc p) ;;
  x ← getp p;
  release (L_proc p) ;;
  ret (p_killed x).

(** The body of scheduler()'s loop over the processes, on the CPU [c]. *)
Definition sched_one (c p : nat) : K unit :=
  acquire (L_proc p) ;;
  x ← getp p;
  when (bool_decide (p_state x = RUNNABLE))
    (updp p (λ x, x <| p_state := RUNNING |>) ;;
     updcpu c (λ cp, cp <| cp_proc := Some p |>) ;;
     yield_cpu (W_run p) ;;
     updcpu c (λ cp, cp <| cp_proc := None |>)) ;;
  release (L_proc p).

(** One round of scheduler()'s infinite loop. *)
Definition scheduler_round (c : nat) : K unit :=
  intr_on ;;
  for_all proc_indices (sched_one c).

(** The scheduler never returns: any finite number of rounds ends in [NoFuel]. *)
Definition scheduler : K unit :=
  c ← mycpu;
  updcpu c (λ cp, cp <| cp_proc := None |>) ;;
  loop fuel (λ _ : unit, scheduler_round c ;; ret (inl tt)) tt.

(** ** Copying to and from a user or a kernel address

    A kernel-side buffer is either memory at an address, or a local variable of
    the calling C function, whose new contents the copy returns. *)
Inductive dest := D_user (va : Z) | D_mem (a : Z) | D_local.
Inductive source := S_user (va : Z) | S_mem (a : Z) | S_local (b : list Z).

Definition dest_add (d : dest) (n : Z) : dest :=
  match d with D_user va => D_user (u64 (va + n)) | D_mem a => D_mem (a + n) | D_local => D_local end.
Definition source_add (d : source) (n : Z) : source :=
  match d with
  | S_user va => S_user (u64 (va + n)) | S_mem a => S_mem (a + n)
  | S_local b => S_local (drop (Z.to_nat n) b)
  end.

Definition either_copyout (dst : dest) (src : list Z) : K (Z * list Z) :=
  p ← myproc;
  match dst with
  | D_user va => p ← deref p; x ← getp p; r ← copyout (p_pagetable x) va src; ret (r, [])
  | D_mem a => kstore_bytes a src ;; ret (0, [])
  | D_local => ret (0, src)
  end.

Definition either_copyin (src : source) (len : Z) : K (Z * list Z) :=
  p ← myproc;
  match src with
  | S_user va => p ← deref p; x ← getp p; copyin (p_pagetable x) va len
  | S_mem a => b ← kload_bytes a (Z.to_nat len); ret (0, b)
  | S_local b => if Z.of_nat (length b) <? len then fault else ret (0, take (Z.to_nat len) b)
  end.

(** ** Specifications *)

(** Every process lock is free and the table has its static size. *)
Record procs_idle (s : kstate) : Prop := {
  pi_len : length (k_procs s) = Z.to_nat NPROC;
  pi_free : ∀ i, (i < Z.to_nat NPROC)%nat -> lock_free (L_proc i) s
}.

Lemma procs_idle_ext s s' :
  procs_idle s -> length (k_procs s') = length (k_procs s) -> k_locks s' = k_locks s ->
  procs_idle s'.
Proof.
  intros [H1 H2] El Ek. constructor; [by rewrite El|]. intros i Hi. eapply lock_free_ext; eauto.
Qed.

Lemma myproc_ok s h cp : quiet s h cp -> myproc s = Ok (cp_proc cp) s.
Proof.
  intros Hq. unfold myproc. krun (push_off_ok s h cp Hq). pose proof (quiet_pushed s h cp Hq) as Hq1.
  krun (mycpu_ok _ _ _ Hq1). krun (getcpu_ok _ _ _ (q_cpu _ _ _ Hq1)). by krun (pop_off_ok s h cp Hq).
Qed.

Lemma curproc_ok s h cp p : quiet s h cp -> cp_proc cp = Some p -> curproc s = Ok p s.
Proof. intros Hq E. unfold curproc. krun (myproc_ok s h cp Hq). by rewrite E. Qed.

(** A critical section that updates process [p] under its own lock. *)
Lemma proc_section s s1 h cp p f :
  quiet s h cp -> lock_free (L_proc p) s ->
  s1 = (enter (L_proc p) s) <| k_procs ::= upd p f |> ->
  release (L_proc p) s1 = Ok tt (s <| k_procs ::= upd p f |>).
Proof.
  intros Hq Hl ->. set (s2 := s <| k_procs ::= upd p f |>).
  assert (Hq2 : quiet s2 h cp) by (by eapply quiet_ext).
  assert (Hl2 : lock_free (L_proc p) s2) by (by eapply lock_free_ext).
  assert (E : (enter (L_proc p) s) <| k_procs ::= upd p f |> = enter (L_proc p) s2)
    by (subst s2; unfold enter, pushed, lock_of; by keq).
  rewrite E. by apply (release_ok _ s2 h cp).
Qed.

Definition wake_proc (chan : channel) (x : proc) : proc :=
  if bool_decide (p_state x = SLEEPING) && bool_decide (p_chan x = chan)
  then x <| p_state := RUNNABLE |> else x.

Section specs.
Context (Hfuel : (1 <= fuel)%nat).

Lemma wakeup_one_ok chan p x s h cp :
  quiet s h cp -> lock_free (L_proc p) s -> k_procs s !! p = Some x ->
  wakeup_one chan p s =
    Ok tt (s <| k_procs ::= upd p (λ x, if decide (cp_proc cp = Some p) then x else wake_proc chan x) |>).
Proof.
  intros Hq Hl Hx. unfold wakeup_one. krun (myproc_ok s h cp Hq).
  destruct (decide (cp_proc cp = Some p)) as [E|E].
  - rewrite bool_decide_eq_true_2 by done. simpl. apply ok_eq. keq. symmetry. by eapply upd_id.
  - rewrite bool_decide_eq_false_2 by done. cbn [negb when].
    krun (acquire_ok Hfuel (L_proc p) s h cp Hq Hl).
    assert (Hx1 : k_procs (enter (L_proc p) s) !! p = Some x) by exact Hx.
    krun (getp_ok _ _ _ Hx1).
    rewrite (bind_ok _ _ _ tt ((enter (L_proc p) s) <| k_procs ::= upd p (wake_proc chan) |>)).
    { by apply (proc_section s _ h cp). }
    unfold wake_proc. destruct (_ && _) eqn:Ew; cbn [when].
    + rewrite (updp_ok _ _ _ _ Hx1). apply ok_eq. keq. eapply upd_ext; [exact Hx|]. by rewrite Ew.
    + apply ok_eq. keq. symmetry. eapply upd_id; [exact Hx|]. by rewrite Ew.
Qed.

(** A loop over the first processes of the table, each round updating its own. *)
Lemma for_all_procs (body : nat -> K unit) (g : nat -> proc -> proc) n s h cp :
  quiet s h cp -> procs_idle s -> (n <= Z.to_nat NPROC)%nat ->
  (∀ p x s1, quiet s1 h cp -> lock_free (L_proc p) s1 -> k_procs s1 !! p = Some x ->
     body p s1 = Ok tt (s1 <| k_procs ::= upd p (g p) |>)) ->
  ∃ ps, for_all (seq 0 n) body s = Ok tt (s <| k_procs := ps |>)
    ∧ ∀ i, ps !! i = if decide (i < n)%nat then g i <$> k_procs s !! i else k_procs s !! i.
Proof.
  intros Hq Hi Hn Hb.
  assert (Hg : ∀ k a s1, (a + k <= Z.to_nat NPROC)%nat -> quiet s1 h cp -> procs_idle s1 ->
    ∃ ps, for_all (seq a k) body s1 = Ok tt (s1 <| k_procs := ps |>)
      ∧ ∀ i, ps !! i = if decide (a <= i < a + k)%nat then g i <$> k_procs s1 !! i
                       else k_procs s1 !! i).
  { induction k as [|k IH]; intros a s1 Ha Hq1 Hi1.
    - exists (k_procs s1). split; [simpl; apply ok_eq; by keq|]. intros i. by rewrite decide_False by lia.
    - destruct (lookup_lt_is_Some_2 (k_procs s1) a) as [x Hx]; [rewrite (pi_len _ Hi1); lia|].
      specialize (Hb a x s1 Hq1 (pi_free _ Hi1 a ltac:(lia)) Hx).
      set (s2 := s1 <| k_procs ::= upd a (g a) |>) in *.
      destruct (IH (S a) s2) as (ps & E & Hps); [lia|by eapply quiet_ext| |].
      { eapply procs_idle_ext; [done| |done]. subst s2. simpl. apply length_upd. }
      exists ps. cbn [seq for_all]. krun Hb. split.
      + rewrite E. apply ok_eq. subst s2. by keq.
      + intros i. rewrite Hps. subst s2. simpl. rewrite upd_lookup.
        repeat case_decide; subst; try done; lia. }
  destruct (Hg n 0%nat s ltac:(lia) Hq Hi) as (ps & E & Hps). exists ps. split; [done|].
  intros i. rewrite Hps. repeat case_decide; try done; lia.
Qed.

(** wakeup(): exactly the other processes sleeping on [chan] become runnable. *)
Lemma wakeup_ok chan s h cp :
  quiet s h cp -> procs_idle s ->
  ∃ ps, wakeup chan s = Ok tt (s <| k_procs := ps |>)
    ∧ ∀ i, ps !! i = (λ x, if decide (cp_proc cp = Some i) then x else wake_proc chan x)
                       <$> k_procs s !! i.
Proof.
  intros Hq Hi.
  destruct (for_all_procs (wakeup_one chan)
    (λ p x, if decide (cp_proc cp = Some p) then x else wake_proc chan x)
    (Z.to_nat NPROC) s h cp Hq Hi (le_n _)) as (ps & E & Hps).
  { intros. by eapply wakeup_one_ok. }
  exists ps. split; [done|]. intros i. rewrite Hps. case_decide as Hlt; [done|].
  rewrite lookup_ge_None_2; [done|]. rewrite (pi_len _ Hi). lia.
Qed.

Definition kill_proc (x : proc) : proc :=
  let x := x <| p_killed := 1 |> in
  if bool_decide (p_state x = SLEEPING) then x <| p_state := RUNNABLE |> else x.

Lemma kill_one_ok pid p x s h cp :
  quiet s h cp -> lock_free (L_proc p) s -> k_procs s !! p = Some x ->
  kill_one pid p s =
    if p_pid x =? pid then Ok (Some 0) (s <| k_procs ::= upd p kill_proc |>) else Ok None s.
Proof.
  intros Hq Hl Hx. unfold kill_one. krun (acquire_ok Hfuel (L_proc p) s h cp Hq Hl).
  assert (Hx1 : k_procs (enter (L_proc p) s) !! p = Some x) by exact Hx.
  krun (getp_ok _ _ _ Hx1). destruct (p_pid x =? pid).
  - krun (updp_ok _ _ (λ x, x <| p_killed := 1 |>) _ Hx1).
    set (s1 := (enter (L_proc p) s) <| k_procs ::= upd p (λ x, x <| p_killed := 1 |>) |>).
    assert (Hx2 : k_procs s1 !! p = Some (x <| p_killed := 1 |>)).
    { subst s1. simpl. rewrite upd_lookup, decide_True by done. by rewrite Hx. }
    krun (getp_ok _ _ _ Hx2).
    rewrite (bind_ok _ _ _ tt ((enter (L_proc p) s) <| k_procs ::= upd p kill_proc |>)).
    { by krun (proc_section s ((enter (L_proc p) s) <| k_procs ::= upd p kill_proc |>) h cp
        p kill_proc Hq Hl eq_refl). }
    destruct (bool_decide (p_state (x <| p_killed := 1 |>) = SLEEPING)) eqn:Es; cbn [when].
    + rewrite (updp_ok _ _ _ _ Hx2). apply ok_eq. subst s1. keq. rewrite upd_upd.
      eapply upd_ext; [exact Hx|]. unfold kill_proc. by rewrite Es.
    + apply ok_eq. subst s1. keq. eapply upd_ext; [exact Hx|]. unfold kill_proc. by rewrite Es.
  - by krun (release_ok (L_proc p) s h cp Hq Hl).
Qed.

Lemma kill_scan pid s h cp k a :
  quiet s h cp -> procs_idle s -> (a + k <= Z.to_nat NPROC)%nat ->
  (foreach (seq a k) (kill_one pid) s = Ok None s ∧
     ∀ i x, (a <= i < a + k)%nat -> k_procs s !! i = Some x -> p_pid x <> pid)
  ∨ ∃ i x, (a <= i < a + k)%nat ∧ k_procs s !! i = Some x ∧ p_pid x = pid
     ∧ (∀ j y, (a <= j < i)%nat -> k_procs s !! j = Some y -> p_pid y <> pid)
     ∧ foreach (seq a k) (kill_one pid) s = Ok (Some 0) (s <| k_procs ::= upd i kill_proc |>).
Proof.
  intros Hq Hi. revert a. induction k as [|k IH]; intros a Ha; [left; split; [done|]; intros; lia|].
  destruct (lookup_lt_is_Some_2 (k_procs s) a) as [x Hx]; [rewrite (pi_len _ Hi); lia|].
  pose proof (kill_one_ok pid a x s h cp Hq (pi_free _ Hi a ltac:(lia)) Hx) as E.
  destruct (Z.eqb_spec (p_pid x) pid) as [Ep|Ep].
  - right. exists a, x. split; [lia|]. split; [done|]. split; [done|]. split; [intros; lia|].
    cbn [seq foreach]. by krun E.
  - destruct (IH (S a) ltac:(lia)) as [[E2 Hn]|(i & y & Hir & Hy & Hpy & Hbef & E2)].
    + left. split; [cbn [seq foreach]; by krun E|]. intros i y Hir Hy.
      destruct (decide (i = a)) as [->|]; [congruence|]. apply (Hn i y); [lia|done].
    + right. exists i, y. split; [lia|]. split; [done|]. split; [done|]. split.
      * intros j z Hj Hz. destruct (decide (j = a)) as [->|]; [congruence|]. apply (Hbef j z); [lia|done].
      * cbn [seq foreach]. by krun E.
Qed.

Lemma kill_ok pid s h cp :
  quiet s h cp -> procs_idle s ->
  (kill pid s = Ok (-1) s ∧ ∀ i x, k_procs s !! i = Some x -> p_pid x <> pid)
  ∨ ∃ i x, k_procs s !! i = Some x ∧ p_pid x = pid
     ∧ (∀ j y, (j < i)%nat -> k_procs s !! j = Some y -> p_pid y <> pid)
     ∧ kill pid s = Ok 0 (s <| k_procs ::= upd i kill_proc |>).
Proof.
  intros Hq Hi. unfold kill, proc_indices.
  destruct (kill_scan pid s h cp (Z.to_nat NPROC) 0 Hq Hi ltac:(lia))
    as [[E Hn]|(i & x & Hir & Hx & Hp & Hb & E)].
  - left. split; [by krun E|]. intros i x Hx. apply (Hn i x); [|done].
    apply lookup_lt_Some in Hx. rewrite (pi_len _ Hi) in Hx. lia.
  - right. exists i, x. split; [done|]. split; [done|]. split; [|by krun E].
    intros j y Hj. apply Hb. lia.
Qed.
End specs.
End proc.

(** ** Properties *)

(** C31: wakeup(chan) makes runnable exactly the processes sleeping on [chan],
    the caller's own excepted; it changes nothing else, in the process table or
    elsewhere, and leaves every lock and the interrupt state as it was. *)
Theorem wakeup_spec `{Fuel} (chan : channel) (s : kstate) (h : hart) (cp : cpu) :
  (1 <= fuel)%nat -> quiet s h cp -> procs_idle s ->
  ∃ ps, wakeup chan s = Ok tt (s <| k_procs := ps |>)
    ∧ ∀ i, ps !! i = (λ x, if decide (cp_proc cp = Some i) then x else wake_proc chan x)
                       <$> k_procs s !! i.
Proof. intros. by eapply wakeup_ok. Qed.

(** An idle machine, all process locks initialised, whose process 3 sleeps. *)
Definition ex_procs : kstate :=
  (boot [] ∅) <| k_locks := list_to_map ((λ i, (L_proc i, Spinlock 0 "proc" None)) <$> proc_indices) |>
    <| k_procs ::= upd 3 (λ x, x <| p_state := SLEEPING |> <| p_chan := Ch_ticks |> <| p_pid := 7 |>) |>.

Lemma ex_procs_idle : procs_idle ex_procs.
Proof.
  constructor; [done|]. intros i Hi. exists "proc"%string.
  change (k_locks ex_procs) with
    (list_to_map ((λ i, (L_proc i, Spinlock 0 "proc" None)) <$> proc_indices) : gmap lockid spinlock).
  apply elem_of_list_to_map_1.
  - rewrite <- list_fmap_compose. apply NoDup_fmap_2; [by intros ?? [=]|apply NoDup_seq].
  - apply list_elem_of_fmap. exists i. split; [done|]. apply elem_of_seq. lia.
Qed.

Lemma wakeup_spec_witness :
  let H : Fuel := 1%nat in
  ∃ ps, wakeup Ch_ticks ex_procs = Ok tt (ex_procs <| k_procs := ps |>)
    ∧ (p_state <$> ps !! 3%nat) = Some RUNNABLE.
Proof.
  intros H. destruct (wakeup_spec Ch_ticks ex_procs (zero_hart 0) zero_cpu) as (ps & E & Hps).
  - apply le_n.
  - by constructor.
  - exact ex_procs_idle.
  - exists ps. split; [exact E|]. rewrite Hps. reflexivity.
Defined.

(** kill(pid) marks the first process with that pid killed, makes it
    runnable if it sleeps, and returns 0; with no such process it returns -1
    and changes nothing. *)
Theorem kill_spec `{Fuel} (pid : Z) (s : kstate) (h : hart) (cp : cpu) :
  (1 <= fuel)%nat -> quiet s h cp -> procs_idle s ->
  (kill pid s = Ok (-1) s ∧ ∀ i x, k_procs s !! i = Some x -> p_pid x <> pid)
  ∨ ∃ i x, k_procs s !! i = Some x ∧ p_pid x = pid
     ∧ (∀ j y, (j < i)%nat -> k_procs s !! j = Some y -> p_pid y <> pid)
     ∧ kill pid s = Ok 0 (s <| k_procs ::= upd i kill_proc |>).
Proof. intros. by eapply kill_ok. Qed.

Lemma kill_spec_witness :
  let H : Fuel := 1%nat in
  (kill 7 ex_procs = Ok (-1) ex_procs ∧ ∀ i x, k_procs ex_procs !! i = Some x -> p_pid x <> 7)
  ∨ ∃ i x, k_procs ex_procs !! i = Some x ∧ p_pid x = 7
     ∧ (∀ j y, (j < i)%nat -> k_procs ex_procs !! j = Some y -> p_pid y <> 7)
     ∧ kill 7 ex_procs = Ok 0 (ex_procs <| k_procs ::= upd i kill_proc |>).
Proof.
  intros H. apply (kill_spec 7 ex_procs (zero_hart 0) zero_cpu).
  - apply le_n.
  - by constructor.
  - exact ex_procs_idle.
Defined.
