(* ===== verification/Scheduler.v ===== *)
(** * The scheduler gives every runnable process its turn

    scheduler() of proc.c never returns, and its model stops only when its
    rounds are used up; what can be said of it is whom it switches to.  A run
    is followed through all its switches, with any behaviour of the rest of the
    system at each of them that keeps to the rules of sched(): the processor
    comes back on the same hart with p->lock held, and nothing else. *)

From Stdlib Require Import ZArith Lia.
From stdpp Require Import base numbers list gmap strings.
From S2P Require Import Prelude Machine Kernel Strings Riscv Spinlock Proc.

(** A switch: its reason, and the state in which the processor is given up. *)
Definition turn : Type := why * kstate.

(** Every run of [o], [R] being what the rest of the system may do at a switch,
    returns according to [Q] or stops according to [E]; [t] is the list of the
    switches so far. *)
Fixpoint every {A} (R : why -> kstate -> kstate -> Prop) (E : list turn -> stop -> Prop)
    (Q : list turn -> A -> kstate -> Prop) (t : list turn) (o : out A) : Prop :=
  match o with
  | Ok a s => Q t a s
  | Stop e _ => E t e
  | Yield w s k => ∀ s', R w s s' -> every R E Q (t ++ [(w, s)]) (k s')
  end.

Lemma every_bind {A B} R E Q t (o : out A) (f : A -> kstate -> out B) :
  every R E (λ t a s, every R E Q t (f a s)) t o -> every R E Q t (bindo o f).
Proof.
  revert t. induction o as [a s|e s|w s k IH]; simpl; intros t H; [done|done|].
  intros s' Hs. apply IH, H, Hs.
Qed.

Lemma every_mono {A} R (E E' : list turn -> stop -> Prop) (Q Q' : list turn -> A -> kstate -> Prop) t o :
  (∀ t e, E t e -> E' t e) -> (∀ t a s, Q t a s -> Q' t a s) -> every R E Q t o -> every R E' Q' t o.
Proof.
  intros HE HQ. revert t. induction o as [a s|e s|w s k IH]; simpl; intros t H; auto.
Qed.

(** ** Interrupts turned on again *)

Lemma sie_on_lor x : sie_on (Z.lor x SSTATUS_SIE) = true.
Proof.
  rewrite sie_bit, Z.lor_spec. change SSTATUS_SIE with (2 ^ 1).
  rewrite Z.pow2_bits_true by lia. apply orb_true_r.
Qed.

Lemma sie_lor_off x : sie_on x = false -> Z.land (Z.lor x SSTATUS_SIE) (Z.lnot SSTATUS_SIE) = x.
Proof.
  intros E. rewrite Z.land_lor_distr_l.
  replace (Z.land SSTATUS_SIE (Z.lnot SSTATUS_SIE)) with 0 by reflexivity.
  rewrite Z.lor_0_r. by apply sie_off_id.
Qed.

(** ** The scheduler's hart *)

(** The hart runs outside of any critical section; unlike in [quiet], what
    intena says is left over from the process that ran last. *)
Record scheduling (s : kstate) (h : hart) (cp : cpu) : Prop := {
  sc_hart : k_harts s !! k_cur s = Some h;
  sc_cpu : k_cpus s !! k_cur s = Some cp;
  sc_tp : h_tp h = Z.of_nat (k_cur s);
  sc_range : Z.of_nat (k_cur s) < 2 ^ 31;
  sc_noff : cp_noff cp = 0
}.

(** The state with intena brought into step, as the next push_off() does. *)
Definition synced (h : hart) (s : kstate) : kstate :=
  s <| k_cpus ::= upd (k_cur s) (λ cp, cp <| cp_intena := b2z (sie_on (h_sstatus h)) |>) |>.

Lemma quiet_synced s h cp :
  scheduling s h cp -> quiet (synced h s) h (cp <| cp_intena := b2z (sie_on (h_sstatus h)) |>).
Proof.
  intros [Hh Hc Ht Hr Hn]. constructor; simpl; try done; try lia.
  rewrite upd_lookup, decide_True by done. by rewrite Hc.
Qed.

Lemma push_off_synced s h cp : scheduling s h cp -> push_off s = Ok tt (pushed (synced h s)).
Proof.
  intros [Hh Hc Ht Hr Hn]. unfold push_off.
  assert (Hg : intr_get s = Ok (b2z (sie_on (h_sstatus h))) s) by (by apply intr_get_value).
  set (s1 := s <| k_harts ::= upd (k_cur s) (λ h, h <| h_sstatus ::= λ x, Z.land x (Z.lnot SSTATUS_SIE) |>) |>).
  assert (Ho : intr_off s = Ok tt s1) by (by eapply intr_off_set).
  assert (Hm : mycpu s1 = Ok (k_cur s) s1).
  { unfold mycpu, cpuid, r_tp, hart_get, kbind, gets. simpl. rewrite upd_lookup, decide_True by done.
    rewrite Hh. simpl. rewrite Ht, i32_small by lia. unfold ret. simpl. by rewrite Nat2Z.id. }
  assert (Hc1 : k_cpus s1 !! k_cur s = Some cp) by exact Hc.
  krun Hg. krun Ho. krun Hm. krun (getcpu_ok _ _ _ Hc1). rewrite Hn. simpl.
  krun (updcpu_ok _ _ (λ cp, cp <| cp_intena := b2z (sie_on (h_sstatus h)) |>) _ Hc1).
  rewrite (updcpu_ok _ (cp <| cp_intena := b2z (sie_on (h_sstatus h)) |>)).
  - unfold pushed, synced. apply ok_eq. subst s1. by keq.
  - simpl. rewrite upd_lookup, decide_True by done. by rewrite Hc.
Qed.

Section scheduler.
Context `{Fuel} (Hfuel : (1 <= fuel)%nat).

Lemma acquire_synced l s h cp :
  scheduling s h cp -> lock_free l s -> acquire l s = Ok tt (enter l (synced h s)).
Proof using Hfuel.
  intros Hs Hl. rewrite <- (acquire_ok Hfuel l _ _ _ (quiet_synced s h cp Hs)) by exact Hl.
  unfold acquire. rewrite !(bind_ok _ _ _ _ _ (push_off_synced s h cp Hs)).
  by rewrite (bind_ok _ _ _ _ _ (push_off_ok _ _ _ (quiet_synced s h cp Hs))).
Qed.

(** The state after release() of [l], whose critical section is the only one. *)
Definition leave (l : lockid) (on : bool) (s : kstate) : kstate :=
  s <| k_harts ::= upd (k_cur s) (λ h, h <| h_sstatus ::= λ x, if on then Z.lor x SSTATUS_SIE else x |>) |>
    <| k_cpus ::= upd (k_cur s) (λ cp, cp <| cp_noff := 0 |>) |>
    <| k_locks ::= <[l := Spinlock 0 (lk_name (lock_of s l)) None]> |>.

(** The hart is inside the critical section of [l], and of no other lock. *)
Record inside (l : lockid) (s : kstate) (h : hart) (cp : cpu) : Prop := {
  in_quiet : quiet s h cp;
  in_noff : cp_noff cp = 1;
  in_intena : cp_intena cp = 0 ∨ cp_intena cp = 1;
  in_lock : ∃ name, k_locks s !! l = Some (Spinlock 1 name (Some (k_cur s)))
}.

Lemma quiet_leave l s h cp :
  inside l s h cp ->
  quiet (leave l (truth (cp_intena cp)) s)
    (h <| h_sstatus ::= λ x, if truth (cp_intena cp) then Z.lor x SSTATUS_SIE else x |>)
    (cp <| cp_noff := 0 |>).
Proof.
  intros [[Hh Hc Ht Hr Hn Ho Hi] E1 Hin Hl]. specialize (Hi ltac:(lia)).
  constructor; simpl; try done; try lia.
  - rewrite upd_lookup, decide_True by done. by rewrite Hh.
  - rewrite upd_lookup, decide_True by done. by rewrite Hc.
  - intros _. destruct Hin as [-> | ->]; simpl; [by rewrite Hi|by rewrite sie_on_lor].
Qed.

Lemma enter_leave l s h cp : inside l s h cp -> enter l (leave l (truth (cp_intena cp)) s) = s.
Proof.
  intros [[Hh Hc Ht Hr Hn Ho Hi] E1 Hin [name Hl]]. specialize (Hi ltac:(lia)).
  unfold enter, pushed, leave. keq.
  - rewrite upd_upd. eapply upd_id; [exact Hh|]. destruct h; unfold update; simpl in *. f_equal.
    destruct (truth _); [by apply sie_lor_off|by apply sie_off_id].
  - unfold lock_of. simpl. rewrite lookup_insert_eq, insert_insert_eq. simpl. rewrite Hl. simpl.
    by apply insert_id.
  - rewrite upd_upd. eapply upd_id; [exact Hc|]. destruct cp; unfold update; simpl in *. by subst.
Qed.

Lemma release_leave l s h cp :
  inside l s h cp -> release l s = Ok tt (leave l (truth (cp_intena cp)) s).
Proof.
  intros Hi. rewrite <- (enter_leave l s h cp Hi) at 1.
  apply (release_ok _ _ _ _ (quiet_leave l s h cp Hi)). eexists. simpl. by rewrite lookup_insert_eq.
Qed.

(** ** A round *)

(** The rules of sched(): the process [p] switched to gives the processor back
    to the scheduler on the same hart, inside the critical section of p->lock
    only, with no other process lock taken, and meanwhile no other process that
    was runnable has stopped being so (it is this scheduler that runs them). *)
Record hands_back (p : nat) (s s' : kstate) : Prop := {
  hb_cur : k_cur s' = k_cur s;
  hb_inside : ∃ h cp, inside (L_proc p) s' h cp;
  hb_len : length (k_procs s') = length (k_procs s);
  hb_free : ∀ q, (q < Z.to_nat NPROC)%nat -> q <> p -> lock_free (L_proc q) s';
  hb_ready : ∀ q x, q <> p -> k_procs s !! q = Some x -> p_state x = RUNNABLE ->
    ∃ y, k_procs s' !! q = Some y ∧ p_state y = RUNNABLE
}.

Definition runnable (p : nat) (s : kstate) : Prop :=
  ∃ x, k_procs s !! p = Some x ∧ p_state x = RUNNABLE.

(** The rest of the system: processes keep to the rules, and [p] comes back
    runnable, as from yield(). *)
Definition busy (p : nat) (w : why) (s s' : kstate) : Prop :=
  ∀ q, w = W_run q -> hands_back q s s' ∧ (q = p -> runnable p s').

(** A switch as it should be: to a process that runs, locked by this hart, which
    has it as its current process and interrupts off. *)
Definition good_turn (c : nat) (tn : turn) : Prop :=
  ∃ q x h cp, tn.1 = W_run q ∧ k_cur tn.2 = c ∧ k_procs tn.2 !! q = Some x ∧ p_state x = RUNNING
    ∧ cp_proc cp = Some q ∧ inside (L_proc q) tn.2 h cp.

(** How often [p] was switched to. *)
Fixpoint turns_of (p : nat) (t : list turn) : nat :=
  match t with
  | [] => 0
  | (W_run q, _) :: t => (if decide (q = p) then 1 else 0) + turns_of p t
  | _ :: t => turns_of p t
  end.

(** Between two processes of a round, on hart [c]. *)
Record between (c p : nat) (s : kstate) : Prop := {
  bt_cur : k_cur s = c;
  bt_hart : ∃ h cp, scheduling s h cp;
  bt_idle : procs_idle s;
  bt_runnable : runnable p s
}.

Lemma turns_of_app p t1 t2 : turns_of p (t1 ++ t2) = (turns_of p t1 + turns_of p t2)%nat.
Proof. induction t1 as [|[[] ?] t1 IH]; simpl; rewrite ?IH; lia. Qed.

(** The state in which the scheduler switches to [q]. *)
Definition switched (c q : nat) (s : kstate) : kstate :=
  (enter (L_proc q) s) <| k_procs ::= upd q (λ x, x <| p_state := RUNNING |>) |>
    <| k_cpus ::= upd c (λ cp, cp <| cp_proc := Some q |>) |>.

Lemma inside_switched q s h cp :
  quiet s h cp -> cp_noff cp = 0 -> lock_free (L_proc q) s ->
  ∃ h', inside (L_proc q) (switched (k_cur s) q s) h'
    (cp <| cp_noff := 1 |> <| cp_proc := Some q |>).
Proof.
  intros Hq E0 Hl. pose proof (quiet_enter (L_proc q) s h cp Hq) as Hq1. eexists.
  destruct Hq1 as [Hh Hc Ht Hr Hn Ho Hi]. constructor.
  - constructor; simpl in *; try done; try lia; [|intros _; apply sie_off_off].
    rewrite upd_lookup, decide_True by done. rewrite Hc. destruct cp; simpl in *. by subst.
  - done.
  - simpl. rewrite (q_out _ _ _ Hq E0). destruct (sie_on (h_sstatus h)); [by right|by left].
  - exists (lk_name (lock_of s (L_proc q))). simpl. by rewrite lookup_insert_eq.
Qed.

(** The processor comes back: p->lock is released and the loop goes on. *)
Lemma after_turn c p q s s' h cp :
  k_cur s = c -> hands_back q s s' -> k_cpus s' !! c = Some cp -> inside (L_proc q) s' h cp ->
  runnable p s' -> length (k_procs s) = Z.to_nat NPROC ->
  let s2 := s' <| k_cpus ::= upd c (λ cp, cp <| cp_proc := None |>) |> in
  ∃ s3, release (L_proc q) s2 = Ok tt s3 ∧ between c p s3.
Proof.
  intros Ec [Hcur _ Hlen Hfree _] Hcp Hin Hp Hl s2.
  assert (Hin2 : inside (L_proc q) s2 h (cp <| cp_proc := None |>)).
  { destruct Hin as [[Hh Hc Ht Hr Hn Ho Hi] I1 I2 I3]. constructor; [|done|done|done].
    constructor; simpl in *; try done. rewrite upd_lookup, decide_True by congruence.
    by rewrite Hc. }
  eexists. split; [by eapply release_leave|].
  pose proof (quiet_leave _ _ _ _ Hin2) as Hq. constructor.
  - simpl. congruence.
  - eexists _, _. destruct Hq. by constructor.
  - constructor; [simpl; congruence|]. intros i Hi. destruct (decide (i = q)) as [->|Hne].
    + eexists. simpl. by rewrite lookup_insert_eq.
    + destruct (Hfree i Hi Hne) as [n Hn]. exists n. simpl. rewrite lookup_insert_ne by congruence. done.
  - exact Hp.
Qed.

(** What one process of the round may do to the list of switches. *)
Definition progress (c p : nat) (n : nat) (t t' : list turn) : Prop :=
  Forall (good_turn c) t' ∧ (turns_of p t + n <= turns_of p t')%nat.

Lemma switch_ok c q x s h cp :
  quiet s h cp -> c = k_cur s -> k_procs s !! q = Some x ->
  (updp q (λ x, x <| p_state := RUNNING |>) ;;
   updcpu c (λ cp, cp <| cp_proc := Some q |>) ;;
   yield_cpu (W_run q) ;;
   updcpu c (λ cp, cp <| cp_proc := None |>)) (enter (L_proc q) s)
  = Yield (W_run q) (switched c q s) (updcpu c (λ cp, cp <| cp_proc := None |>)).
Proof.
  intros Hq -> Hx. assert (Hx1 : k_procs (enter (L_proc q) s) !! q = Some x) by exact Hx.
  krun (updp_ok _ _ (λ x, x <| p_state := RUNNING |>) _ Hx1).
  pose proof (q_cpu _ _ _ (quiet_enter (L_proc q) s h cp Hq)) as Hc.
  set (s1 := (enter (L_proc q) s) <| k_procs ::= _ |>).
  assert (Hc1 : k_cpus s1 !! k_cur s = Some (cp <| cp_noff ::= λ n, n + 1 |>)) by exact Hc.
  by krun (updcpu_ok _ _ (λ cp, cp <| cp_proc := Some q |>) _ Hc1).
Qed.

Lemma switched_good c q x s h cp :
  quiet s h cp -> cp_noff cp = 0 -> lock_free (L_proc q) s -> k_procs s !! q = Some x -> c = k_cur s ->
  good_turn c (W_run q, switched c q s).
Proof.
  intros Hq E0 Hl Hx ->. destruct (inside_switched q s h cp Hq E0 Hl) as [h' Hin].
  exists q, (x <| p_state := RUNNING |>), h', (cp <| cp_noff := 1 |> <| cp_proc := Some q |>).
  split_and!; try done. simpl. rewrite upd_lookup, decide_True by done. by rewrite Hx.
Qed.

(** A process that was runnable is still so when [q] has had its turn. *)
Lemma runnable_after c p q s s' :
  runnable p s -> busy p (W_run q) (switched c q s) s' -> runnable p s'.
Proof.
  intros (x & Hx & Hr) Hb. destruct (Hb q eq_refl) as [[_ _ _ _ Hk] Hpq].
  destruct (decide (q = p)) as [E|Hne]; [by apply Hpq|]. apply (Hk p x); [congruence| |done].
  simpl. by rewrite upd_lookup, decide_False by congruence.
Qed.

Lemma sched_one_ok (c p q : nat) t s E :
  between c p s -> Forall (good_turn c) t -> (q < Z.to_nat NPROC)%nat ->
  every (busy p) E (λ t' _ s', between c p s' ∧ progress c p (if decide (q = p) then 1 else 0) t t')
    t (sched_one c q s).
Proof using Hfuel.
  intros [Ec (h & cp & Hs) Hi Hp] Ht Hq. pose proof (pi_free _ Hi q Hq) as Hl.
  unfold sched_one. krun (acquire_synced _ s h cp Hs Hl).
  pose proof (quiet_synced s h cp Hs) as Hqs. set (s0 := synced h s) in *.
  assert (Hl0 : lock_free (L_proc q) s0) by exact Hl.
  destruct (lookup_lt_is_Some_2 (k_procs s) q) as [x Hx]; [by rewrite (pi_len _ Hi)|].
  assert (Hx1 : k_procs (enter (L_proc q) s0) !! q = Some x) by exact Hx.
  krun (getp_ok _ _ _ Hx1). case_bool_decide as Hst; cbn [when].
  - unfold kbind at 1. rewrite (switch_ok c q x s0 _ _ Hqs (eq_sym Ec) Hx). cbn [bindo every].
    intros s' Hb. pose proof (runnable_after c p q s0 s' Hp Hb) as Hp'.
    destruct (Hb q eq_refl) as [Hh _]. destruct (hb_inside _ _ _ Hh) as (h2 & cp2 & Hin).
    assert (Hc : k_cpus s' !! c = Some cp2).
    { rewrite <- Ec. rewrite <- (q_cpu _ _ _ (in_quiet _ _ _ _ Hin)). by rewrite (hb_cur _ _ _ Hh). }
    rewrite (updcpu_ok c cp2 _ s' Hc). cbn [bindo].
    destruct (after_turn c p q (switched c q s0) s' h2 cp2) as (s3 & -> & H3); try done.
    { simpl. rewrite length_upd. exact (pi_len _ Hi). }
    split; [exact H3|]. split.
    + apply Forall_app. split; [done|]. apply Forall_singleton.
      by eapply switched_good; [exact Hqs|exact (sc_noff _ _ _ Hs)|exact Hl|exact Hx|].
    + rewrite turns_of_app. simpl. case_decide; lia.
  - rewrite bind_ret, (release_ok _ s0 _ _ Hqs Hl0). split.
    + constructor; [done| |by eapply procs_idle_ext|done]. eexists _, _. destruct Hqs. constructor; try done.
      exact (sc_noff _ _ _ Hs).
    + split; [done|]. rewrite decide_False; [lia|]. intros ->. destruct Hp as (y & Hy & Hr). congruence.
Qed.

(** A round, from process [a] on. *)
Lemma sched_from_ok (c p : nat) E k : ∀ a t s,
  between c p s -> Forall (good_turn c) t -> (a + k <= Z.to_nat NPROC)%nat ->
  every (busy p) E
    (λ t' _ s', between c p s' ∧ progress c p (if decide (a <= p < a + k)%nat then 1 else 0) t t')
    t (for_all (seq a k) (sched_one c) s).
Proof using Hfuel.
  induction k as [|k IH]; intros a t s Hb Ht Ha.
  - split; [done|]. split; [done|]. rewrite decide_False by lia. lia.
  - cbn [seq for_all]. apply every_bind. eapply every_mono; [exact (λ _ _ H, H)| |apply sched_one_ok; [done|done|lia]].
    intros t1 _ s1 (Hb1 & Ht1 & Hn1). eapply every_mono; [exact (λ _ _ H, H)| |apply (IH (S a) t1 s1 Hb1 Ht1); lia].
    intros t2 _ s2 (Hb2 & Ht2 & Hn2). split; [done|]. split; [done|].
    repeat case_decide; lia.
Qed.

Lemma intr_on_between c p s : between c p s -> ∃ s', intr_on s = Ok tt s' ∧ between c p s'.
Proof.
  intros [Ec (h & cp & [Hh Hc Ht Hr Hn]) Hi Hp]. rewrite (intr_on_set _ _ Hh).
  eexists. split; [reflexivity|]. constructor; [done| |by eapply procs_idle_ext|done].
  exists (h <| h_sstatus ::= λ x, Z.lor x SSTATUS_SIE |>), cp. constructor; simpl; try done. rewrite upd_lookup, decide_True by done.
  by rewrite Hh.
Qed.

Lemma round_ok (c p : nat) E t s :
  between c p s -> Forall (good_turn c) t ->
  every (busy p) E (λ t' _ s', between c p s' ∧ progress c p 1 t t') t (scheduler_round c s).
Proof using Hfuel.
  intros Hb Ht. unfold scheduler_round. destruct (intr_on_between c p s Hb) as (s1 & E1 & Hb1).
  krun E1. eapply every_mono; [exact (λ _ _ H, H)| |apply (sched_from_ok c p E (Z.to_nat NPROC) 0 t s1 Hb1 Ht); lia].
  intros t' _ s' (Hb' & Ht' & Hn). split; [done|]. split; [done|].
  rewrite decide_True in Hn; [lia|]. destruct (bt_runnable _ _ _ Hb') as (x & Hx & _).
  apply lookup_lt_Some in Hx. rewrite (pi_len _ (bt_idle _ _ _ Hb')) in Hx. lia.
Qed.

Lemma rounds_ok (c p n : nat) : ∀ t s,
  between c p s -> Forall (good_turn c) t ->
  every (busy p) (λ t' e, e = NoFuel ∧ progress c p n t t') (λ _ _ _, False)
    t (loop n (λ _ : unit, scheduler_round c ;; ret (inl tt : unit + unit)) tt s).
Proof using Hfuel.
  induction n as [|n IH]; intros t s Hb Ht; [split; [done|]; split; [done|lia]|].
  cbn [loop]. apply every_bind, every_bind. eapply every_mono; [exact (λ _ _ H, H)| |by apply round_ok].
  intros t1 _ s1 (Hb1 & Ht1 & Hn1). cbn [ret every bindo]. eapply every_mono; [|exact (λ _ _ _ H, H)|by apply IH].
  intros t2 e (-> & Ht2 & Hn2). split; [done|]. split; [done|lia].
Qed.

Lemma scheduler_ok s h cp p :
  scheduling s h cp -> procs_idle s -> runnable p s ->
  every (busy p) (λ t e, e = NoFuel ∧ progress (k_cur s) p fuel [] t) (λ _ _ _, False) [] (scheduler s).
Proof using Hfuel.
  intros Hs Hi Hp. destruct Hs as [Hh Hc Ht Hr Hn]. unfold scheduler.
  assert (Hm : mycpu s = Ok (k_cur s) s).
  { unfold mycpu, cpuid, r_tp, hart_get, kbind, gets. simpl. rewrite Hh. simpl.
    rewrite Ht, i32_small by lia. unfold ret. simpl. by rewrite Nat2Z.id. }
  krun Hm. krun (updcpu_ok _ _ (λ cp, cp <| cp_proc := None |>) _ Hc).
  apply rounds_ok; [|done]. constructor; [done| |by eapply procs_idle_ext|done].
  exists h, (cp <| cp_proc := None |>). constructor; simpl; try done.
  rewrite upd_lookup, decide_True by done. by rewrite Hc.
Qed.

(** A process that yields at once gives the processor back by the rules. *)
Lemma hands_back_yield q s h cp :
  quiet s h cp -> cp_noff cp = 0 -> procs_idle s -> (q < Z.to_nat NPROC)%nat ->
  hands_back q (switched (k_cur s) q s)
    ((switched (k_cur s) q s) <| k_procs ::= upd q (λ x, x <| p_state := RUNNABLE |>) |>).
Proof.
  intros Hq E0 Hi Hlt. destruct (inside_switched q s h cp Hq E0 (pi_free _ Hi q Hlt)) as [h' [Hq' I1 I2 I3]].
  constructor; [done| |simpl; apply length_upd| |].
  - eexists _, _. constructor; [|done|done|done]. by eapply quiet_ext.
  - intros i Hi' Hne. destruct (pi_free _ Hi i Hi') as [n Hn]. exists n. simpl.
    rewrite lookup_insert_ne by congruence. done.
  - intros i x Hne Hx Hr. exists x. split; [|done]. simpl in *. by rewrite upd_lookup, decide_False by congruence.
Qed.
End scheduler.

(** ** Properties *)

(** C15: starvation freedom of scheduler().  Whatever the processes do with the
    processor, as long as each gives it back by the rules of sched(), the
    scheduler never returns, never panics and gives every process that stays
    runnable a turn in each of its rounds (of which the model runs [fuel]);
    whenever it switches to a process, that process is RUNNING, it is the
    hart's current process, and its lock is held, interrupts being off. *)
Theorem scheduler_starvation_free `{Fuel} (s : kstate) (h : hart) (cp : cpu) (p : nat) :
  (1 <= fuel)%nat -> scheduling s h cp -> procs_idle s -> runnable p s ->
  every (busy p)
    (λ t e, e = NoFuel ∧ Forall (good_turn (k_cur s)) t ∧ (fuel <= turns_of p t)%nat)
    (λ _ _ _, False) [] (scheduler s).
Proof. intros Hf Hs Hi Hp. exact (scheduler_ok Hf s h cp p Hs Hi Hp). Qed.

(** A machine whose process 3 is runnable. *)
Definition ex_ready : kstate := ex_procs <| k_procs ::= upd 3 (λ x, x <| p_state := RUNNABLE |>) |>.

Lemma scheduler_starvation_free_witness :
  let H : Fuel := 5%nat in
  every (busy 3)
    (λ t e, e = NoFuel ∧ Forall (good_turn 0) t ∧ (5 <= turns_of 3 t)%nat)
    (λ _ _ _, False) [] (scheduler ex_ready)
  ∧ busy 3 (W_run 3) (switched 0 3 ex_ready)
      ((switched 0 3 ex_ready) <| k_procs ::= upd 3 (λ x, x <| p_state := RUNNABLE |>) |>).
Proof.
  intros H. assert (Hi : procs_idle ex_ready).
  { eapply procs_idle_ext; [exact ex_procs_idle| |reflexivity]. apply length_upd. }
  split.
  - apply (scheduler_starvation_free ex_ready (zero_hart 0) zero_cpu 3).
    + unfold fuel, H. lia.
    + by constructor.
    + exact Hi.
    + eexists. split; reflexivity.
  - intros q [= <-]. split.
    + apply (hands_back_yield 3 ex_ready (zero_hart 0) zero_cpu); [by constructor|done|exact Hi|].
      unfold NPROC. lia.
    + intros _. eexists. split; reflexivity.
Defined.
