(* ===== verification/Uart.v ===== *)
(** * uart.c: the 16550a serial port

    ReadReg() and WriteReg() are volatile accesses to device registers, so
    [mmio_read]/[mmio_write].  Waiting for the device to be ready ends when it
    is, or when the given device input ends.  uartintr() is in Console.v. *)

From Stdlib Require Import ZArith Lia.
From stdpp Require Import base numbers list gmap strings.
From S2P Require Import Prelude Machine Kernel Riscv Spinlock Proc.

Definition RHR : Z := 0.
Definition THR : Z := 0.
Definition IER : Z := 1.
Definition IER_RX_ENABLE : Z := Z.shiftl 1 0.
Definition IER_TX_ENABLE : Z := Z.shiftl 1 1.
Definition FCR : Z := 2.
Definition FCR_FIFO_ENABLE : Z := Z.shiftl 1 0.
Definition FCR_FIFO_CLEAR : Z := Z.shiftl 3 1.
Definition LCR : Z := 3.
Definition LCR_EIGHT_BITS : Z := Z.shiftl 3 0.
Definition LCR_BAUD_LATCH : Z := Z.shiftl 1 7.
Definition LSR : Z := 5.
Definition LSR_TX_IDLE : Z := Z.shiftl 1 5.
Definition UART_TX_BUF_SIZE : Z := 32.

Definition ReadReg (reg : Z) : K Z := v ← mmio_read (UART0 + reg); ret (u8 v).
Definition WriteReg (reg v : Z) : K unit := mmio_write (UART0 + reg) (u8 v).

(** [for(;;) ;] *)
Definition spin_forever {A} : K A := halt NoFuel.

Section uart.
Context `{Fuel} `{Symbols}.

Definition uartinit : K unit :=
  WriteReg IER 0x00 ;;
  WriteReg LCR LCR_BAUD_LATCH ;;
  WriteReg 0 0x03 ;;
  WriteReg 1 0x00 ;;
  WriteReg LCR LCR_EIGHT_BITS ;;
  WriteReg FCR (Z.lor FCR_FIFO_ENABLE FCR_FIFO_CLEAR) ;;
  WriteReg IER (Z.lor IER_TX_ENABLE IER_RX_ENABLE) ;;
  initlock L_uart "uart".

(** One round of uartstart()'s loop; each round that goes on reads a register. *)
Definition uartstart_body (_ : unit) : K (unit + unit) :=
  u ← gets k_uart;
  if ut_w u =? ut_r u then ret (inr tt) else
  v ← ReadReg LSR;
  if Z.land v LSR_TX_IDLE =? 0 then ret (inr tt) else
  c ← deref (ut_buf u !! Z.to_nat (ut_r u mod UART_TX_BUF_SIZE));
  modify (λ s, s <| k_uart ::= λ u, u <| ut_r ::= λ r, u64 (r + 1) |> |>) ;;
  wakeup Ch_uart_tx_r ;;
  WriteReg THR c ;;
  ret (inl tt).

Definition uartstart : K unit :=
  n ← gets (λ s, S (length (k_mmio_in s)));
  loop n uartstart_body tt.

Definition uartputc (c : Z) : K unit :=
  acquire L_uart ;;
  pk ← gets k_panicked;
  if truth pk then spin_forever else
  loop (S fuel) (λ _ : unit,
    u ← gets k_uart;
    if ut_w u =? u64 (ut_r u + UART_TX_BUF_SIZE)
    then sleep Ch_uart_tx_r L_uart ;; ret (inl tt) else ret (inr tt)) tt ;;
  modify (λ s, s <| k_uart ::= λ u,
    u <| ut_buf ::= λ b, aset b (ut_w u mod UART_TX_BUF_SIZE) (u8 c) |>
      <| ut_w ::= λ w, u64 (w + 1) |> |>) ;;
  uartstart ;;
  release L_uart.

Definition uartputc_sync (c : Z) : K unit :=
  push_off ;;
  pk ← gets k_panicked;
  if truth pk then spin_forever else
  n ← gets (λ s, S (length (k_mmio_in s)));
  loop n (λ _ : unit,
    v ← ReadReg LSR;
    if Z.land v LSR_TX_IDLE =? 0 then ret (inl tt) else ret (inr tt)) tt ;;
  WriteReg THR c ;;
  pop_off.

Definition uartgetc : K Z :=
  v ← ReadReg LSR;
  if truth (Z.land v 0x01) then ReadReg RHR else ret (-1).
End uart.
