(* ===== verification/Printf.v ===== *)
(** * printf.c, and consputc() of console.c

    The console's formatted output.  The arguments of a call are a list of
    tagged values; taking one of the wrong type, or one too many, is undefined
    behaviour in C and a fault here. *)

From Stdlib Require Import ZArith Lia Ascii.
From stdpp Require Import base numbers list gmap strings.
From S2P Require Import Prelude Machine Kernel Riscv Spinlock Proc Uart.

Definition BACKSPACE : Z := 0x100.

(** [digits[d]] *)
Definition digits (d : Z) : Z := if d <? 10 then 48 + d else 87 + d.

(** printint()'s [do ... while] loop: the digits of [x], last one first.  An
    unsigned int has at most 32 digits in any base. *)
Fixpoint digits_rev (n : nat) (x base : Z) : list Z :=
  match n with
  | O => []
  | S n => digits (x mod base) :: (if x / base =? 0 then [] else digits_rev n (x / base) base)
  end.

(** [buf[i-1], ..., buf[0]]: what printint() prints. *)
Definition printint_chars (xx base : Z) (sign : bool) : list Z :=
  let neg := sign && (xx <? 0) in
  let x := if neg then u32 (- xx) else u32 xx in
  let buf := digits_rev 32 x base in
  let buf := if neg then buf ++ [45] else buf in
  rev buf.

(** [x] shifted left four bits at a time, its top digit printed each time. *)
Fixpoint printptr_chars (n : nat) (x : Z) : list Z :=
  match n with
  | O => []
  | S n => digits (Z.shiftr x 60) :: printptr_chars n (u64 (Z.shiftl x 4))
  end.

Inductive parg := A_int (v : Z) | A_ptr (v : Z) | A_str (s : option (list Z)).

Section printf.
Context `{Fuel} `{Symbols}.

Definition consputc (c : Z) : K unit :=
  if c =? BACKSPACE then uartputc_sync 8 ;; uartputc_sync 32 ;; uartputc_sync 8
  else uartputc_sync c.

Definition printint (xx base : Z) (sign : bool) : K unit :=
  for_all (printint_chars xx base sign) consputc.

Definition printptr (x : Z) : K unit :=
  consputc 48 ;; consputc 120 ;; for_all (printptr_chars 16 x) consputc.

(** printf()'s loop over the format. *)
Fixpoint printf_loop (fmt : list Z) (ap : list parg) : K unit :=
  match fmt with
  | [] => ret tt
  | c :: fmt =>
      if negb (c =? 37) then consputc c ;; printf_loop fmt ap else
      match fmt with
      | [] => ret tt
      | c :: fmt =>
          if c =? 100 (* d *) then
            match ap with A_int v :: ap => printint v 10 true ;; printf_loop fmt ap | _ => fault end
          else if c =? 120 (* x *) then
            match ap with A_int v :: ap => printint v 16 true ;; printf_loop fmt ap | _ => fault end
          else if c =? 112 (* p *) then
            match ap with A_ptr v :: ap => printptr v ;; printf_loop fmt ap | _ => fault end
          else if c =? 115 (* s *) then
            match ap with
            | A_str s :: ap =>
                for_all (default (chars "(null)") s) consputc ;; printf_loop fmt ap
            | _ => fault
            end
          else if c =? 37 then consputc 37 ;; printf_loop fmt ap
          else consputc 37 ;; consputc c ;; printf_loop fmt ap
      end
  end.

Definition printf (fmt : string) (ap : list parg) : K unit :=
  locking ← gets k_locking;
  when (truth locking) (acquire L_pr) ;;
  printf_loop (chars fmt) ap ;;
  when (truth locking) (release L_pr).

(** panic(): what happens on the way to the endless loop that [Kernel.panic],
    used everywhere else, abstracts to [Panic s]. *)
Definition panic_and_freeze (s : string) : K unit :=
  modify (λ st, st <| k_locking := 0 |>) ;;
  printf "panic: " [] ;;
  printf s [] ;;
  printf newline [] ;;
  modify (λ st, st <| k_panicked := 1 |>) ;;
  spin_forever.

Definition printfinit : K unit :=
  initlock L_pr "pr" ;;
  modify (λ s, s <| k_locking := 1 |>).
End printf.

(** ** Decimal output is a numeral *)

(** The number a list of decimal digit characters denotes. *)
Definition digit_val (c : Z) : Z := if c <? 58 then c - 48 else c - 87.
Definition numeral (base : Z) (l : list Z) : Z := foldl (λ acc c, base * acc + digit_val c) 0 l.

Definition is_digit (base c : Z) : Prop := ∃ d, 0 <= d < base ∧ c = digits d.

Lemma digit_val_digits d : 0 <= d < 16 -> digit_val (digits d) = d.
Proof.
  intros Hd. unfold digit_val, digits. destruct (Z.ltb_spec d 10).
  - destruct (Z.ltb_spec (48 + d) 58); lia.
  - destruct (Z.ltb_spec (87 + d) 58); lia.
Qed.

Lemma numeral_app base l c : numeral base (l ++ [c]) = base * numeral base l + digit_val c.
Proof. unfold numeral. by rewrite foldl_app. Qed.

Lemma digits_rev_numeral n x base :
  2 <= base <= 16 -> 0 <= x < base ^ Z.of_nat n ->
  numeral base (rev (digits_rev n x base)) = x ∧ Forall (is_digit base) (digits_rev n x base).
Proof.
  intros Hb. revert x. induction n as [|n IH]; intros x Hx.
  { change (Z.of_nat 0) with 0 in Hx. rewrite Z.pow_0_r in Hx. assert (x = 0) as -> by lia.
    split; [done|constructor]. }
  rewrite Nat2Z.inj_succ, Z.pow_succ_r in Hx by lia.
  assert (Hm : 0 <= x mod base < base) by (apply Z.mod_pos_bound; lia).
  pose proof (Z.div_mod x base ltac:(lia)) as Hdm.
  cbn [digits_rev rev]. destruct (Z.eqb_spec (x / base) 0) as [E|E].
  - simpl. rewrite E in Hdm. split; [|constructor; [by exists (x mod base)|constructor]].
    unfold numeral. simpl. rewrite digit_val_digits by lia. lia.
  - destruct (IH (x / base)) as [IHn IHd].
    { split; [apply Z.div_pos; lia|]. apply Z.div_lt_upper_bound; lia. }
    split; [|constructor; [by exists (x mod base)|done]].
    simpl. rewrite numeral_app, IHn, digit_val_digits by lia. lia.
Qed.

(** ** Properties *)

(** printint(xx, base, 1) prints, for every int [xx] (the smallest one
    included) and base 10 or 16, an optional minus sign exactly when [xx] is
    negative, followed by digits of that base whose numeral is the absolute
    value of [xx]; and the characters, sign included, fit the 16-byte buffer
    printint() collects them in. *)
Theorem printint_numeral (xx base : Z) :
  - 2 ^ 31 <= xx < 2 ^ 31 -> base = 10 ∨ base = 16 ->
  ∃ ds, printint_chars xx base true = (if xx <? 0 then 45 :: ds else ds)
    ∧ Forall (is_digit base) ds ∧ numeral base ds = Z.abs xx
    ∧ (length (printint_chars xx base true) <= 16)%nat.
Proof.
  intros Hx Hb. unfold printint_chars. cbn [andb].
  set (x := if xx <? 0 then u32 (- xx) else u32 xx).
  assert (Ex : x = Z.abs xx).
  { subst x. destruct (Z.ltb_spec xx 0); rewrite u32_small by lia; lia. }
  assert (Hd : ∀ n, (10 <= n)%nat -> digits_rev n x base = digits_rev 10 x base).
  { assert (Hg : ∀ k n y, 0 <= y < base ^ Z.of_nat (S k) -> (S k <= n)%nat ->
                  digits_rev n y base = digits_rev (S k) y base).
    { induction k as [|k IH]; intros n y Hy Hn; (destruct n as [|n]; [lia|]); cbn [digits_rev].
      - assert (E : y / base = 0) by (apply Z.div_small; lia). by rewrite E.
      - destruct (Z.eqb_spec (y / base) 0); [done|]. f_equal. apply IH; [|lia].
        rewrite Nat2Z.inj_succ, Z.pow_succ_r in Hy by lia.
        split; [apply Z.div_pos; lia|]. apply Z.div_lt_upper_bound; lia. }
    intros n Hn. apply Hg; [|done]. rewrite Ex. destruct Hb as [-> | ->]; simpl; lia. }
  destruct (digits_rev_numeral 32 x base) as [Hnum Hdig]; [lia| |].
  { rewrite Ex. destruct Hb as [-> | ->]; simpl; lia. }
  exists (rev (digits_rev 32 x base)).
  assert (Hlen : ∀ n y, (length (digits_rev n y base) <= n)%nat).
  { induction n as [|n IH]; intros y; simpl; [lia|]. destruct (_ =? 0); simpl; [lia|].
    specialize (IH (y / base)). lia. }
  split; [|split; [by apply Forall_rev|split; [by rewrite Hnum|]]].
  - destruct (xx <? 0); [by rewrite rev_app_distr|done].
  - rewrite length_rev, Hd by lia. specialize (Hlen 10%nat x).
    destruct (xx <? 0); rewrite ?length_app; cbn [length]; lia.
Qed.

Lemma printint_numeral_witness :
  printint_chars (- 2 ^ 31) 10 true = chars "-2147483648"
  ∧ ∃ ds, printint_chars (- 2 ^ 31) 10 true = 45 :: ds ∧ numeral 10 ds = 2 ^ 31.
Proof.
  split; [reflexivity|].
  destruct (printint_numeral (- 2 ^ 31) 10 ltac:(lia) ltac:(left; reflexivity))
    as (ds & E & _ & Hn & _).
  exists ds. split; [exact E|exact Hn].
Defined.
