(* ===== verification/Console.v ===== *)
(** * console.c (with uartintr() of uart.c and procdump() of proc.c)

    The console input buffer is a ring of 128 bytes with three unsigned
    indices: [r, w) is input ready for consoleread(), [w, e) the line being
    edited.  ConsoleSpec.v relates it to that pair of byte sequences. *)

From Stdlib Require Import ZArith Lia Ascii.
From stdpp Require Import base numbers list gmap strings.
From S2P Require Import Prelude Machine Kernel Riscv Spinlock Proc Uart Printf.

Definition INPUT_BUF_SIZE : Z := 128.
Definition CONSOLE : nat := 1.

(** [C(x)]: the character Control-x *)
Definition C (x : Z) : Z := x - 64.

Section console.
Context `{Fuel} `{Symbols}.

Definition getcons : K consstate := gets k_cons.
Definition updcons (f : consstate -> consstate) : K unit := modify (λ s, s <| k_cons ::= f |>).

(** [for(i = 0; i < n; i++)], left by a failing copy. *)
Definition consolewrite (src : source) (n : Z) : K Z :=
  loop (S (Z.to_nat n)) (λ i,
    if i <? n then
      ' (r, b) ← either_copyin (source_add src i) 1;
      if r =? -1 then ret (inr i) else
      c ← deref (head b);
      uartputc c ;;
      ret (inl (i + 1))
    else ret (inr i)) 0.

(** The inner loop of consoleread(): wait for input; whether the reader was
    killed meanwhile (the lock is then released). *)
Definition cons_wait : K bool :=
  loop (S fuel) (λ _ : unit,
    co ← getcons;
    if negb (co_r co =? co_w co) then ret (inr false) else
    p ← curproc;
    k ← killed p;
    if truth k then release L_cons ;; ret (inr true) else
    sleep Ch_cons_r L_cons ;; ret (inl tt)) tt.

(** One round of consoleread()'s outer loop.  [inr None]: returned -1. *)
Definition consoleread_body (target : Z) (x : dest * Z * list Z)
    : K (dest * Z * list Z + option (Z * list Z)) :=
  let '(dst, n, got) := x in
  if negb (0 <? n) then ret (inr (Some (n, got))) else
  k ← cons_wait;
  if k : bool then ret (inr None) else
  co ← getcons;
  c ← deref (co_buf co !! Z.to_nat (co_r co mod INPUT_BUF_SIZE));
  updcons (λ co, co <| co_r ::= λ r, u32 (r + 1) |>) ;;
  if c =? C 68 then
    (* end-of-file: saved for next time if something was read *)
    when (u32 n <? target) (updcons (λ co, co <| co_r ::= λ r, u32 (r - 1) |>)) ;;
    ret (inr (Some (n, got)))
  else
    ' (r, b) ← either_copyout dst [c];
    if r =? -1 then ret (inr (Some (n, got))) else
    let n := n - 1 in
    if c =? 10 then ret (inr (Some (n, got ++ b)))
    else ret (inl (dest_add dst 1, n, got ++ b)).

Definition consoleread (dst : dest) (n : Z) : K (Z * list Z) :=
  let target := u32 n in
  acquire L_cons ;;
  r ← loop (S (Z.to_nat n)) (consoleread_body target) (dst, n, []);
  match r with
  | None => ret (-1, [])
  | Some (n, got) => release L_cons ;; ret (i32 (u32 (target - n)), got)
  end.

Definition state_name (st : procstate) : string :=
  match st with
  | UNUSED => "unused" | USED => "used" | SLEEPING => "sleep "
  | RUNNABLE => "runble" | RUNNING => "run   " | ZOMBIE => "zombie"
  end.

(** The C string a [char name[16]] holds. *)
Fixpoint until_nul (l : list Z) : list Z :=
  match l with [] => [] | c :: l => if c =? 0 then [] else c :: until_nul l end.

Definition procdump : K unit :=
  printf newline [] ;;
  for_all proc_indices (λ p,
    x ← getp p;
    if bool_decide (p_state x = UNUSED) then ret tt else
    printf "%d %s %s" [A_int (p_pid x); A_str (Some (chars (state_name (p_state x))));
                       A_str (Some (until_nul (p_name x)))] ;;
    printf newline []).

(** One round of the loop that kills a line.  Reading [cons.buf] when nothing is
    being edited, which C's [&&] avoids, has no effect. *)
Definition cons_kill_body (_ : unit) : K (unit + unit) :=
  co ← getcons;
  c ← deref (co_buf co !! Z.to_nat (u32 (co_e co - 1) mod INPUT_BUF_SIZE));
  if negb (co_e co =? co_w co) && negb (c =? 10) then
    updcons (λ co, co <| co_e ::= λ e, u32 (e - 1) |>) ;;
    consputc BACKSPACE ;; ret (inl tt)
  else ret (inr tt).

(** Kill line: the loop goes around once per byte of the line being edited. *)
Definition cons_kill_line : K unit :=
  co ← getcons;
  loop (S (Z.to_nat (u32 (co_e co - co_w co)))) cons_kill_body tt.

Definition cons_backspace : K unit :=
  co ← getcons;
  when (negb (co_e co =? co_w co))
    (updcons (λ co, co <| co_e ::= λ e, u32 (e - 1) |>) ;; consputc BACKSPACE).

(** The [default] case: an ordinary character. *)
Definition cons_insert (c : Z) : K unit :=
  co ← getcons;
  when (negb (c =? 0) && (u32 (co_e co - co_r co) <? INPUT_BUF_SIZE))
    (let c := if c =? 13 then 10 else c in
     consputc c ;;
     updcons (λ co, co <| co_buf ::= λ b, aset b (co_e co mod INPUT_BUF_SIZE) (u8 c) |>
                       <| co_e ::= λ e, u32 (e + 1) |>) ;;
     co ← getcons;
     when ((c =? 10) || (c =? C 68) || (u32 (co_e co - co_r co) =? INPUT_BUF_SIZE))
       (updcons (λ co, co <| co_w := co_e co |>) ;; wakeup Ch_cons_r)).

Definition consoleintr (c : Z) : K unit :=
  acquire L_cons ;;
  (if c =? C 80 then procdump
   else if c =? C 85 then cons_kill_line
   else if (c =? C 72) || (c =? 127) then cons_backspace
   else cons_insert c) ;;
  release L_cons.

Definition consoleinit : K unit :=
  initlock L_cons "cons" ;;
  uartinit ;;
  modify (λ s, s <| k_devsw ::= <[CONSOLE := (Some Dev_console, Some Dev_console)]> |>).

(** Each round reads the line status register. *)
Definition uartintr : K unit :=
  n ← gets (λ s, S (length (k_mmio_in s)));
  loop n (λ _ : unit,
    c ← uartgetc;
    if c =? -1 then ret (inr tt) else consoleintr c ;; ret (inl tt)) tt ;;
  acquire L_uart ;;
  uartstart ;;
  release L_uart.
End console.
