(* ===== verification/Sleeplock.v ===== *)
(** * sleeplock.c

    A sleep lock is named by the object it protects ([SL_inode i], [SL_buf i]);
    its inner spinlock is [L_sleep id].  The laws: acquiresleep() of a free
    lock takes it for the current process, releasesleep() gives it back, and
    holdingsleep() tells exactly which process has it. *)

From Stdlib Require Import ZArith Lia.
From stdpp Require Import base numbers list gmap strings.
From S2P Require Import Prelude Machine Kernel Riscv Spinlock Proc.

Definition slock_of (s : kstate) (l : slockid) : sleeplock :=
  default (Sleeplock 0 "" 0) (k_slocks s !! l).

Section sleeplock.
Context `{Fuel} `{Symbols}.

Definition getslock (l : slockid) : K sleeplock := gets (λ s, slock_of s l).
Definition updslock (l : slockid) (f : sleeplock -> sleeplock) : K unit :=
  modify (λ s, s <| k_slocks ::= <[l := f (slock_of s l)]> |>).

Definition initsleeplock (l : slockid) (name : string) : K unit :=
  initlock (L_sleep l) "sleep lock" ;;
  updslock l (λ lk, lk <| sl_name := name |>) ;;
  updslock l (λ lk, lk <| sl_locked := 0 |>) ;;
  updslock l (λ lk, lk <| sl_pid := 0 |>).

Definition mypid : K Z := p ← curproc; x ← getp p; ret (p_pid x).

Definition acquiresleep (l : slockid) : K unit :=
  acquire (L_sleep l) ;;
  loop (S fuel) (λ _ : unit,
    lk ← getslock l;
    if truth (sl_locked lk) then sleep (Ch_sleeplock l) (L_sleep l) ;; ret (inl tt)
    else ret (inr tt)) tt ;;
  updslock l (λ lk, lk <| sl_locked := 1 |>) ;;
  pid ← mypid;
  updslock l (λ lk, lk <| sl_pid := pid |>) ;;
  release (L_sleep l).

Definition releasesleep (l : slockid) : K unit :=
  acquire (L_sleep l) ;;
  updslock l (λ lk, lk <| sl_locked := 0 |>) ;;
  updslock l (λ lk, lk <| sl_pid := 0 |>) ;;
  wakeup (Ch_sleeplock l) ;;
  release (L_sleep l).

(** [lk->locked && (lk->pid == myproc()->pid)]: myproc() is called only if locked *)
Definition holdingsleep (l : slockid) : K bool :=
  acquire (L_sleep l) ;;
  lk ← getslock l;
  r ← (if truth (sl_locked lk) then pid ← mypid; ret (sl_pid lk =? pid) else ret false);
  release (L_sleep l) ;;
  ret r.
End sleeplock.

(** ** Laws *)

(** A process runs, outside any critical section, on a machine where no other
    process is in the middle of using what it uses: the process locks are free
    and nobody sleeps waiting for a sleep lock or for the disk. *)
Record calm (s : kstate) (h : hart) (cp : cpu) (p : nat) (px : proc) : Prop := {
  c_quiet : quiet s h cp;
  c_noff : cp_noff cp = 0;
  c_cur : cp_proc cp = Some p;
  c_idle : procs_idle s;
  c_proc : k_procs s !! p = Some px;
  c_running : p_state px = RUNNING;
  c_nochan : p_chan px = Ch_null;
  c_nowait : ∀ i x, k_procs s !! i = Some x -> p_state x = SLEEPING ->
    match p_chan x with Ch_sleeplock _ | Ch_disk_free | Ch_buf _ => False | _ => True end
}.

Lemma calm_ext s s' h cp p px :
  calm s h cp p px -> k_cur s' = k_cur s -> k_harts s' = k_harts s -> k_cpus s' = k_cpus s ->
  k_procs s' = k_procs s -> k_locks s' = k_locks s -> calm s' h cp p px.
Proof.
  intros [] E1 E2 E3 E4 E5. constructor; rewrite ?E4; try done.
  - by eapply quiet_ext.
  - eapply procs_idle_ext; [done|by rewrite E4|done].
Qed.

(** Leaving the critical section of [l] after changing other parts of the state. *)
Lemma leave_ok l s0 s h cp :
  quiet s h cp -> lock_free l s -> s0 = enter l s -> release l s0 = Ok tt s.
Proof. intros Hq Hl ->. by eapply release_ok. Qed.

Lemma enter_slocks l s f :
  (enter l s) <| k_slocks ::= f |> = enter l (s <| k_slocks ::= f |>).
Proof. unfold enter, pushed, lock_of. by keq. Qed.

Lemma procs_idle_enter l s : (∀ i, l <> L_proc i) -> procs_idle s -> procs_idle (enter l s).
Proof.
  intros Hl [H1 H2]. constructor; [exact H1|]. intros i Hi. apply lock_free_enter; [|by apply H2].
  intros E. by apply (Hl i).
Qed.

(** Nobody sleeps on the channel: wakeup() does nothing. *)
Lemma wakeup_nobody `{Fuel} chan s h cp :
  (1 <= fuel)%nat -> quiet s h cp -> procs_idle s ->
  (∀ i x, k_procs s !! i = Some x -> p_state x = SLEEPING -> p_chan x <> chan) ->
  wakeup chan s = Ok tt s.
Proof.
  intros Hf Hq Hi Hn. destruct (wakeup_ok Hf chan s h cp Hq Hi) as (ps & -> & Hps).
  apply ok_eq. keq. apply list_eq. intros i. rewrite Hps.
  destruct (k_procs s !! i) as [x|] eqn:E; [|done]. simpl. f_equal.
  case_decide; [done|]. unfold wake_proc. destruct (decide (p_state x = SLEEPING)) as [Es|Es].
  - rewrite (bool_decide_eq_false_2 (p_chan x = chan)) by (by eapply Hn). by rewrite andb_false_r.
  - by rewrite (bool_decide_eq_false_2 (p_state x = SLEEPING)).
Qed.

Section laws.
Context `{Fuel} (Hfuel : (1 <= fuel)%nat).

Lemma mypid_ok s h cp p px :
  quiet s h cp -> cp_proc cp = Some p -> k_procs s !! p = Some px -> mypid s = Ok (p_pid px) s.
Proof.
  intros Hq Hc Hp. unfold mypid. krun (curproc_ok s h cp p Hq Hc). by krun (getp_ok _ _ _ Hp).
Qed.

Lemma acquiresleep_ok l s h cp p px name opid :
  calm s h cp p px -> lock_free (L_sleep l) s -> k_slocks s !! l = Some (Sleeplock 0 name opid) ->
  acquiresleep l s = Ok tt (s <| k_slocks ::= <[l := Sleeplock 1 name (p_pid px)]> |>).
Proof.
  intros Hc Hl Hs. unfold acquiresleep. pose proof (c_quiet _ _ _ _ _ Hc) as Hq.
  krun (acquire_ok Hfuel (L_sleep l) s h cp Hq Hl). pose proof (quiet_enter (L_sleep l) s h cp Hq) as Hq1.
  set (s1 := enter (L_sleep l) s) in *.
  assert (E1 : slock_of s1 l = Sleeplock 0 name opid) by (unfold slock_of; simpl; by rewrite Hs).
  rewrite (bind_ok _ _ _ tt s1).
  2:{ cbn [loop]. unfold getslock. unfold kbind at 1. rewrite bind_gets, E1. done. }
  unfold updslock. rewrite bind_modify, E1. set (s2 := s1 <| k_slocks ::= _ |>).
  rewrite (bind_ok mypid _ s2 (p_pid px) s2).
  2:{ eapply (mypid_ok s2); [eapply quiet_ext; [exact Hq1|done..]|exact (c_cur _ _ _ _ _ Hc)|exact (c_proc _ _ _ _ _ Hc)]. }
  rewrite bind_modify. set (s3 := s <| k_slocks ::= <[l := Sleeplock 1 name (p_pid px)]> |>).
  apply (leave_ok _ _ s3 h cp); [by eapply quiet_ext|by eapply lock_free_ext|].
  subst s3. rewrite <- enter_slocks. subst s2 s1. keq. unfold slock_of. simpl.
  rewrite lookup_insert_eq. simpl. by rewrite insert_insert_eq.
Qed.

Lemma releasesleep_ok l s h cp p px lk :
  calm s h cp p px -> lock_free (L_sleep l) s -> k_slocks s !! l = Some lk ->
  releasesleep l s = Ok tt (s <| k_slocks ::= <[l := Sleeplock 0 (sl_name lk) 0]> |>).
Proof.
  intros Hc Hl Hs. unfold releasesleep. pose proof (c_quiet _ _ _ _ _ Hc) as Hq.
  krun (acquire_ok Hfuel (L_sleep l) s h cp Hq Hl). pose proof (quiet_enter (L_sleep l) s h cp Hq) as Hq1.
  unfold updslock. rewrite !bind_modify.
  set (s3 := s <| k_slocks ::= <[l := Sleeplock 0 (sl_name lk) 0]> |>).
  match goal with |- (wakeup _ ≫= _) ?x = _ => assert (E : x = enter (L_sleep l) s3) end.
  { subst s3. rewrite <- enter_slocks. keq. unfold slock_of. simpl.
    rewrite lookup_insert_eq. simpl. rewrite insert_insert_eq. by rewrite Hs. }
  rewrite E. assert (Hq3 : quiet s3 h cp) by (by eapply quiet_ext).
  rewrite (bind_ok _ _ _ tt (enter (L_sleep l) s3)).
  2:{ eapply wakeup_nobody; [done|exact (quiet_enter _ _ _ _ Hq3)| |].
      - apply procs_idle_enter; [done|]. eapply procs_idle_ext; [exact (c_idle _ _ _ _ _ Hc)|done..].
      - intros i x Hx Hsl Hch. pose proof (c_nowait _ _ _ _ _ Hc i x Hx Hsl) as Hn. by rewrite Hch in Hn. }
  apply (leave_ok _ _ s3 h cp); [done|by eapply lock_free_ext|done].
Qed.

Lemma holdingsleep_ok l s h cp p px lk :
  calm s h cp p px -> lock_free (L_sleep l) s -> k_slocks s !! l = Some lk ->
  holdingsleep l s = Ok (truth (sl_locked lk) && (sl_pid lk =? p_pid px)) s.
Proof.
  intros Hc Hl Hs. unfold holdingsleep. pose proof (c_quiet _ _ _ _ _ Hc) as Hq.
  krun (acquire_ok Hfuel (L_sleep l) s h cp Hq Hl). pose proof (quiet_enter (L_sleep l) s h cp Hq) as Hq1.
  unfold getslock. rewrite bind_gets.
  assert (E1 : slock_of (enter (L_sleep l) s) l = lk) by (unfold slock_of; simpl; by rewrite Hs).
  rewrite E1. rewrite (bind_ok _ _ _ (truth (sl_locked lk) && (sl_pid lk =? p_pid px)) (enter (L_sleep l) s)).
  2:{ destruct (truth (sl_locked lk)); [|done].
      by krun (mypid_ok (enter (L_sleep l) s) _ _ p px Hq1 (c_cur _ _ _ _ _ Hc) (c_proc _ _ _ _ _ Hc)). }
  by krun (release_ok (L_sleep l) s h cp Hq Hl).
Qed.
End laws.


(** A machine on which process 0 (pid 1) runs with the given locks initialised. *)
Definition ex_running (locks : list lockid) (slocks : list slockid) : kstate :=
  (boot [] ∅)
    <| k_locks := list_to_map ((λ l, (l, Spinlock 0 "lock" None)) <$> (L_proc <$> proc_indices) ++ locks) |>
    <| k_slocks := list_to_map ((λ l, (l, Sleeplock 0 "sleep" 0)) <$> slocks) |>
    <| k_procs ::= upd 0 (λ x, x <| p_state := RUNNING |> <| p_pid := 1 |>) |>
    <| k_cpus ::= upd 0 (λ c, c <| cp_proc := Some 0%nat |>) |>.

Definition ex_cpu : cpu := zero_cpu <| cp_proc := Some 0%nat |>.
Definition ex_proc : proc := zero_proc <| p_state := RUNNING |> <| p_pid := 1 |>.

Lemma ex_running_free locks slocks l :
  NoDup locks -> (∀ i, L_proc i ∉ locks) -> l ∈ (L_proc <$> proc_indices) ++ locks ->
  lock_free l (ex_running locks slocks).
Proof.
  intros Hd Hp Hl. exists "lock"%string.
  change (k_locks (ex_running locks slocks)) with
    (list_to_map ((λ l, (l, Spinlock 0 "lock" None)) <$> (L_proc <$> proc_indices) ++ locks)
       : gmap lockid spinlock).
  apply elem_of_list_to_map_1.
  - rewrite <- list_fmap_compose. apply NoDup_fmap_2; [by intros ??|]. apply NoDup_app. split.
    { apply NoDup_fmap_2; [by intros ?? [=]|apply NoDup_seq]. }
    split; [|done]. intros x Hx. apply list_elem_of_fmap in Hx as (i & -> & _). apply Hp.
  - apply list_elem_of_fmap. by exists l.
Qed.

Lemma ex_running_calm locks slocks :
  NoDup locks -> (∀ i, L_proc i ∉ locks) ->
  calm (ex_running locks slocks) (zero_hart 0) ex_cpu 0 ex_proc.
Proof.
  intros Hd Hp. constructor; try done.
  - constructor; [done|]. intros i Hi. apply ex_running_free; [done|done|].
    apply elem_of_app. left. apply list_elem_of_fmap. exists i. split; [done|]. apply elem_of_seq. lia.
  - intros i x Hx Hs. exfalso.
    change (k_procs _) with (upd 0 (λ x, x <| p_state := RUNNING |> <| p_pid := 1 |>)
      (replicate (Z.to_nat NPROC) zero_proc)) in Hx.
    rewrite upd_lookup in Hx. destruct (replicate _ zero_proc !! i) as [y|] eqn:E; [|by case_decide].
    apply lookup_replicate_1 in E as [-> _]. case_decide; simpl in Hx; by injection Hx as <-.
Qed.

