(* ===== verification/ConsoleSpec.v ===== *)
(** * The console's line discipline

    What is typed at the console, as a pair of byte sequences: the input ready
    to be read and the line being edited.  [keystroke] says what a character
    does to the pair and what is echoed; consoleintr() implements it on the
    ring buffer of 128 bytes with its free-running indices, and consoleread()
    delivers the ready input to user memory line by line. *)

From Stdlib Require Import ZArith Lia Ascii.
From stdpp Require Import base numbers list gmap strings.
From S2P Require Import Prelude Machine Kernel Riscv Spinlock Kalloc Vm VmSpec UserMem Proc Uart Printf Console Sleeplock.

(** ** The specification *)

(** A character typed: the new ready input, the new line, the echo. *)
Definition keystroke (c : Z) (rd ed : list Z) : list Z * list Z * list Z :=
  if c =? C 85 then (rd, [], concat (replicate (length ed) [8; 32; 8]))
  else if (c =? C 72) || (c =? 127) then
    (rd, take (length ed - 1) ed, if bool_decide (ed = []) then [] else [8; 32; 8])
  else if (c =? 0) || (INPUT_BUF_SIZE <=? Z.of_nat (length (rd ++ ed))) then (rd, ed, [])
  else
    let c := if c =? 13 then 10 else c in
    if (c =? 10) || (c =? C 68) || (Z.of_nat (length (rd ++ ed)) + 1 =? INPUT_BUF_SIZE)
    then (rd ++ ed ++ [c], [], [c]) else (rd, ed ++ [c], [c]).

(** A sequence of characters typed. *)
Fixpoint type_all (cs rd ed : list Z) : list Z * list Z * list Z :=
  match cs with
  | [] => (rd, ed, [])
  | c :: cs =>
      let '(rd1, ed1, e1) := keystroke c rd ed in
      let '(rd2, ed2, e2) := type_all cs rd1 ed1 in (rd2, ed2, e1 ++ e2)
  end.

(** What a read of at most [n] bytes takes of the ready input: up to the end of
    a line, or to an end-of-file mark, which is left for the next read unless it
    is the first.  [None]: the reader waits for more. *)
Fixpoint read_line (n : nat) (first : bool) (rd : list Z) : option (list Z * list Z) :=
  match n, rd with
  | O, _ => Some ([], rd)
  | S _, [] => None
  | S n, c :: rd' =>
      if c =? C 68 then Some ([], if first then rd' else rd)
      else if c =? 10 then Some ([c], rd')
      else match read_line n false rd' with
           | Some (out, rest) => Some (c :: out, rest)
           | None => None
           end
  end.

(** ** The ring *)

Definition ring (buf : list Z) (from : Z) (n : nat) : list Z :=
  (λ i, aget buf ((from + i) mod INPUT_BUF_SIZE)) <$> zrange 0 n.

(** The ring holds [rd], ready, and then [ed], being edited. *)
Record cons_holds (co : consstate) (rd ed : list Z) : Prop := {
  ch_len : length (co_buf co) = Z.to_nat INPUT_BUF_SIZE;
  ch_r : 0 <= co_r co < 2 ^ 32;
  ch_w : co_w co = u32 (co_r co + Z.of_nat (length rd));
  ch_e : co_e co = u32 (co_r co + Z.of_nat (length (rd ++ ed)));
  ch_max : Z.of_nat (length (rd ++ ed)) <= INPUT_BUF_SIZE;
  ch_ring : ring (co_buf co) (co_r co) (length (rd ++ ed)) = rd ++ ed;
  ch_line : Forall (λ c, c <> 10) ed;
  ch_bytes : Forall (λ c, 0 <= c < 256) (rd ++ ed)
}.

Lemma length_ring buf from n : length (ring buf from n) = n.
Proof. unfold ring. by rewrite length_fmap, length_zrange. Qed.

Lemma ring_S buf from n : ring buf from (S n) = aget buf (from mod INPUT_BUF_SIZE) :: ring buf (from + 1) n.
Proof.
  unfold ring. rewrite zrange_S. cbn [fmap list_fmap]. rewrite Z.add_0_r. f_equal.
  unfold zrange. rewrite <- !list_fmap_compose. apply list_fmap_ext. intros ? i _. simpl. do 2 f_equal. lia.
Qed.

Lemma ring_snoc buf from n :
  ring buf from (S n) = ring buf from n ++ [aget buf ((from + Z.of_nat n) mod INPUT_BUF_SIZE)].
Proof.
  unfold ring. replace (S n) with (n + 1)%nat by lia. rewrite zrange_app, fmap_app, zrange_S. done.
Qed.

Lemma ring_take buf from n m : (n <= m)%nat -> ring buf from n = take n (ring buf from m).
Proof.
  intros Hn. unfold ring. replace m with (n + (m - n))%nat by lia.
  rewrite zrange_app, fmap_app, take_app_le, take_ge; [done| |]; rewrite length_fmap, length_zrange; lia.
Qed.

Lemma u32_mod_input z : u32 z mod INPUT_BUF_SIZE = z mod INPUT_BUF_SIZE.
Proof. unfold u32. change INPUT_BUF_SIZE with 128. change (2 ^ 32) with 4294967296. zmod. Qed.

Lemma ring_u32 buf from n : ring buf (u32 from) n = ring buf from n.
Proof.
  unfold ring. apply list_fmap_ext. intros ? i _. f_equal.
  by rewrite <- Zplus_mod_idemp_l, u32_mod_input, Zplus_mod_idemp_l.
Qed.

Lemma ring_aset buf from n c :
  length buf = Z.to_nat INPUT_BUF_SIZE -> Z.of_nat n < INPUT_BUF_SIZE ->
  ring (aset buf ((from + Z.of_nat n) mod INPUT_BUF_SIZE) c) from n = ring buf from n.
Proof.
  intros Hb Hn. unfold ring. apply list_fmap_ext. intros ? i Hi.
  apply list_elem_of_lookup_2, elem_of_zrange in Hi. change INPUT_BUF_SIZE with 128 in *.
  apply aget_aset_ne; [by apply Z.mod_pos_bound|by apply Z.mod_pos_bound|]. zmod.
Qed.

(** ** The operations on the ring *)

Lemma cons_count co rd ed :
  cons_holds co rd ed -> u32 (co_e co - co_r co) = Z.of_nat (length (rd ++ ed)).
Proof.
  intros [_ Hr _ -> Hm _ _ _]. unfold u32. change INPUT_BUF_SIZE with 128 in *.
  change (2 ^ 32) with 4294967296 in *. zmod.
Qed.

Lemma cons_line_count co rd ed :
  cons_holds co rd ed -> u32 (co_e co - co_w co) = Z.of_nat (length ed).
Proof.
  intros [_ Hr -> -> Hm _ _ _]. rewrite length_app in *. unfold u32. change INPUT_BUF_SIZE with 128 in *.
  change (2 ^ 32) with 4294967296 in *. zmod.
Qed.

Lemma cons_no_line co rd ed : cons_holds co rd ed -> (co_e co =? co_w co) = bool_decide (ed = []).
Proof.
  intros Hc. pose proof (cons_line_count co rd ed Hc) as E. destruct Hc as [_ Hr Hw He _ _ _ _].
  assert (0 <= co_e co < 2 ^ 32) by (rewrite He; apply u32_range).
  assert (0 <= co_w co < 2 ^ 32) by (rewrite Hw; apply u32_range).
  case_bool_decide as Hd; [subst; rewrite app_nil_r in He; apply Z.eqb_eq; congruence|].
  apply Z.eqb_neq. intros Ee. rewrite Ee, Z.sub_diag in E. destruct ed; [done|].
  unfold u32 in E. rewrite Z.mod_0_l in E by lia. simpl in E. lia.
Qed.

Lemma cons_none_ready co rd ed : cons_holds co rd ed -> (co_r co =? co_w co) = bool_decide (rd = []).
Proof.
  intros [_ Hr Hw _ Hm _ _ _]. rewrite length_app in Hm. unfold u32 in Hw.
  change INPUT_BUF_SIZE with 128 in *. change (2 ^ 32) with 4294967296 in *.
  case_bool_decide as Hd; [subst; simpl in Hw; apply Z.eqb_eq; zmod|].
  apply Z.eqb_neq. destruct rd; [done|]. simpl length in *. zmod.
Qed.

Definition cons_push (c : Z) (co : consstate) : consstate :=
  co <| co_buf ::= λ b, aset b (co_e co mod INPUT_BUF_SIZE) c |> <| co_e ::= λ e, u32 (e + 1) |>.

Lemma cons_push_ring co rd ed c :
  cons_holds co rd ed -> Z.of_nat (length (rd ++ ed)) < INPUT_BUF_SIZE ->
  ring (co_buf (cons_push c co)) (co_r co) (length (rd ++ ed ++ [c])) = rd ++ ed ++ [c]
  ∧ co_e (cons_push c co) = u32 (co_r co + Z.of_nat (length (rd ++ ed ++ [c]))).
Proof.
  intros [Hl Hr Hw He Hm Hg Hn Hb] Hlt. rewrite !app_assoc, !(length_app _ [c]).
  replace (length (rd ++ ed) + length [c])%nat with (S (length (rd ++ ed))) by (simpl; lia). split.
  - rewrite ring_snoc. simpl co_buf. rewrite He, u32_mod_input, ring_aset by done. rewrite Hg. do 2 f_equal.
    apply aget_aset_eq. rewrite Hl. by apply Z.mod_pos_bound.
  - simpl. rewrite He. unfold u32. change (2 ^ 32) with 4294967296. zmod.
Qed.

Lemma cons_push_count co rd ed c :
  cons_holds co rd ed -> Z.of_nat (length (rd ++ ed)) < INPUT_BUF_SIZE ->
  u32 (co_e (cons_push c co) - co_r co) = Z.of_nat (length (rd ++ ed)) + 1.
Proof.
  intros Hc Hlt. destruct (cons_push_ring co rd ed c Hc Hlt) as [_ ->]. destruct Hc as [_ Hr _ _ _ _ _ _].
  rewrite !app_assoc, !(length_app _ [c]). simpl length. unfold u32. change INPUT_BUF_SIZE with 128 in *.
  change (2 ^ 32) with 4294967296 in *. zmod.
Qed.

Lemma cons_push_ok co rd ed c :
  cons_holds co rd ed -> Z.of_nat (length (rd ++ ed)) < INPUT_BUF_SIZE -> c <> 10 -> 0 <= c < 256 ->
  cons_holds (cons_push c co) rd (ed ++ [c]).
Proof.
  intros Hc Hlt Hne Hcr. destruct (cons_push_ring co rd ed c Hc Hlt) as [E1 E2]. destruct Hc as [Hl Hr Hw He Hm Hg Hn Hb].
  constructor; try done.
  - simpl. by rewrite length_aset.
  - rewrite app_assoc, length_app. simpl. lia.
  - apply Forall_app. split; [done|by apply Forall_singleton].
  - rewrite app_assoc. apply Forall_app. split; [done|by apply Forall_singleton].
Qed.

Lemma cons_commit_ok co rd ed c :
  cons_holds co rd ed -> Z.of_nat (length (rd ++ ed)) < INPUT_BUF_SIZE -> 0 <= c < 256 ->
  cons_holds (cons_push c co <| co_w := co_e (cons_push c co) |>) (rd ++ ed ++ [c]) [].
Proof.
  intros Hc Hlt Hcr. destruct (cons_push_ring co rd ed c Hc Hlt) as [E1 E2]. destruct Hc as [Hl Hr Hw He Hm Hg Hn Hb].
  constructor; rewrite ?app_nil_r; try done.
  - simpl. by rewrite length_aset.
  - rewrite app_assoc, length_app. simpl. lia.
  - rewrite app_assoc. apply Forall_app. split; [done|by apply Forall_singleton].
Qed.

Lemma cons_erase_ok co rd ed x :
  cons_holds co rd (ed ++ [x]) -> cons_holds (co <| co_e ::= λ e, u32 (e - 1) |>) rd ed.
Proof.
  intros [Hl Hr Hw He Hm Hg Hn Hb]. apply Forall_app in Hn as [Hn _].
  rewrite app_assoc, length_app in *. simpl in *.
  apply Forall_app in Hb as [Hb _]. constructor; try done; [|lia|].
  - simpl. rewrite He. unfold u32. change (2 ^ 32) with 4294967296. zmod.
  - simpl. rewrite (ring_take _ _ _ (length (rd ++ ed) + 1)) by lia. rewrite Hg. by rewrite take_app_length.
Qed.

(** The last byte of the line. *)
Lemma cons_last co rd ed x :
  cons_holds co rd (ed ++ [x]) -> co_buf co !! Z.to_nat (u32 (co_e co - 1) mod INPUT_BUF_SIZE) = Some x.
Proof.
  intros [Hl Hr Hw He Hm Hg Hn Hb]. rewrite app_assoc, length_app in *. simpl in *.
  replace (length (rd ++ ed) + 1)%nat with (S (length (rd ++ ed))) in * by lia.
  rewrite ring_snoc in Hg. apply app_inj_2 in Hg as [_ [= Hx]]; [|done].
  rewrite u32_mod_input. replace ((co_e co - 1) mod INPUT_BUF_SIZE)
    with ((co_r co + Z.of_nat (length (rd ++ ed))) mod INPUT_BUF_SIZE).
  2:{ rewrite He. unfold u32. change INPUT_BUF_SIZE with 128. change (2 ^ 32) with 4294967296. zmod. }
  unfold aget in Hx. destruct (_ !! _) as [y|] eqn:E; [by simpl in Hx; subst|].
  apply lookup_ge_None in E. rewrite Hl in E.
  pose proof (Z.mod_pos_bound (co_r co + Z.of_nat (length (rd ++ ed))) INPUT_BUF_SIZE ltac:(done)). lia.
Qed.

(** The first byte of the ready input. *)
Lemma cons_first co x rd ed :
  cons_holds co (x :: rd) ed ->
  co_buf co !! Z.to_nat (co_r co mod INPUT_BUF_SIZE) = Some x
  ∧ cons_holds (co <| co_r ::= λ r, u32 (r + 1) |>) rd ed.
Proof.
  intros [Hl Hr Hw He Hm Hg Hn Hb]. rewrite <- app_comm_cons in *. simpl length in *.
  rewrite ring_S in Hg. injection Hg as Hx Hg. apply Forall_cons in Hb as [_ Hb]. split.
  - unfold aget in Hx. destruct (_ !! _) as [y|] eqn:E; [by simpl in Hx; subst|].
    apply lookup_ge_None in E. rewrite Hl in E.
    pose proof (Z.mod_pos_bound (co_r co) INPUT_BUF_SIZE ltac:(done)). lia.
  - constructor; simpl; try done; [apply u32_range| | |lia|by rewrite ring_u32].
    + rewrite Hw. unfold u32. change (2 ^ 32) with 4294967296. zmod.
    + rewrite He. unfold u32. change (2 ^ 32) with 4294967296. zmod.
Qed.

(** ** The echo *)

(** The UART's transmitter is idle each time one of the next [n] reads of its
    status register happens, and the kernel has not panicked. *)
Definition idle (v : Z) : Prop := Z.land (u8 v) LSR_TX_IDLE <> 0.
Record online (n : nat) (s : kstate) : Prop := {
  on_panicked : k_panicked s = 0;
  on_idle : Forall idle (k_mmio_in s);
  on_enough : (n <= length (k_mmio_in s))%nat
}.

(** The characters [cs] have gone to the UART. *)
Definition sent (cs : list Z) (s : kstate) : kstate :=
  s <| k_mmio_in ::= drop (length cs) |>
    <| k_mmio_out ::= λ o, o ++ ((λ c, (UART0 + THR, c)) <$> cs) |>.

Lemma sent_nil s : sent [] s = s.
Proof. unfold sent. keq. by rewrite app_nil_r. Qed.

Lemma sent_sent cs1 cs2 s : sent cs2 (sent cs1 s) = sent (cs1 ++ cs2) s.
Proof.
  unfold sent. keq.
  - by rewrite drop_drop, length_app.
  - by rewrite fmap_app, app_assoc.
Qed.

Lemma online_sent cs n s : online (length cs + n) s -> online n (sent cs s).
Proof.
  intros [H1 H2 H3]. constructor; [done|by apply Forall_drop|]. simpl. rewrite length_drop. lia.
Qed.

Lemma online_le n m s : (m <= n)%nat -> online n s -> online m s.
Proof. intros Hm [H1 H2 H3]. constructor; [done|done|lia]. Qed.

Lemma quiet_sent cs s h cp : quiet s h cp -> quiet (sent cs s) h cp.
Proof. intros Hq. by eapply quiet_ext. Qed.

Lemma uartputc_sync_ok c n s h cp :
  quiet s h cp -> online (S n) s -> uartputc_sync c s = Ok tt (sent [u8 c] s).
Proof.
  intros Hq [Hp Hi Hn]. destruct (k_mmio_in s) as [|v r] eqn:Em; [simpl in Hn; lia|].
  apply Forall_cons in Hi as [Hv _]. unfold uartputc_sync. krun (push_off_ok s h cp Hq).
  rewrite bind_gets. change (k_panicked (pushed s)) with (k_panicked s). rewrite Hp. change (truth 0) with false.
  cbn match. rewrite bind_gets. change (k_mmio_in (pushed s)) with (k_mmio_in s). rewrite Em.
  set (s1 := (pushed s) <| k_mmio_in := r |>).
  assert (E : loop (S (length (v :: r))) (λ _ : unit, v ← ReadReg LSR;
     if Z.land v LSR_TX_IDLE =? 0 then ret (inl tt) else ret (inr tt)) tt (pushed s) = Ok tt s1).
  { cbn [loop]. unfold ReadReg, mmio_read, kbind. change (k_mmio_in (pushed s)) with (k_mmio_in s).
    rewrite Em. cbn [bindo ret]. destruct (Z.eqb_spec (Z.land (u8 v) LSR_TX_IDLE) 0) as [E|E]; [done|]. done. }
  krun E. unfold WriteReg, mmio_write. rewrite bind_modify.
  transitivity (pop_off (pushed (sent [u8 c] s))).
  { f_equal. unfold pushed, sent. subst s1. keq. by rewrite Em. }
  exact (pop_off_ok _ _ _ (quiet_sent [u8 c] s h cp Hq)).
Qed.

Lemma consputc_ok c n s h cp :
  quiet s h cp -> online (S n) s -> 0 <= c < 256 -> consputc c s = Ok tt (sent [c] s).
Proof.
  intros Hq Ho Hc. unfold consputc. replace (c =? BACKSPACE) with false.
  2:{ symmetry. apply Z.eqb_neq. unfold BACKSPACE. lia. }
  rewrite (uartputc_sync_ok c n s h cp Hq Ho). unfold u8. by rewrite Z.mod_small.
Qed.

Lemma consputc_backspace n s h cp :
  quiet s h cp -> online (3 + n) s -> consputc BACKSPACE s = Ok tt (sent [8; 32; 8] s).
Proof.
  intros Hq Ho. unfold consputc. rewrite Z.eqb_refl.
  krun (uartputc_sync_ok 8 _ s h cp Hq Ho).
  pose proof (online_sent [u8 8] (2 + n) s Ho) as Ho1. pose proof (quiet_sent [u8 8] s h cp Hq) as Hq1.
  krun (uartputc_sync_ok 32 _ _ h cp Hq1 Ho1).
  pose proof (online_sent [u8 32] (1 + n) _ Ho1) as Ho2. pose proof (quiet_sent [u8 32] _ h cp Hq1) as Hq2.
  rewrite (uartputc_sync_ok 8 _ _ h cp Hq2 Ho2). by rewrite !sent_sent.
Qed.

(** ** The interrupt handler *)

(** [s] with the console as in [co] and [cs] echoed. *)
Definition typed (cs : list Z) (co : consstate) (s : kstate) : kstate := (sent cs s) <| k_cons := co |>.

Lemma typed_typed cs1 co1 cs2 co2 s : typed cs2 co2 (typed cs1 co1 s) = typed (cs1 ++ cs2) co2 s.
Proof. unfold typed. rewrite <- sent_sent. unfold sent. by keq. Qed.

Lemma quiet_typed cs co s h cp : quiet s h cp -> quiet (typed cs co s) h cp.
Proof. intros Hq. by eapply quiet_ext. Qed.

Lemma online_typed cs co n s : online (length cs + n) s -> online n (typed cs co s).
Proof. intros Ho. destruct (online_sent cs n s Ho). by constructor. Qed.

Lemma typed_enter cs co l s : typed cs co (enter l s) = enter l (typed cs co s).
Proof. unfold typed, sent, enter, pushed, lock_of. by keq. Qed.

Section intr.
Context `{Fuel} `{Symbols} (Hfuel : (1 <= fuel)%nat).

(** One byte erased, on the screen too. *)
Definition erased (co : consstate) : consstate := co <| co_e ::= λ e, u32 (e - 1) |>.

Lemma erase_ok n s h cp :
  quiet s h cp -> online (3 + n) s ->
  consputc BACKSPACE (s <| k_cons ::= erased |>) = Ok tt (typed [8; 32; 8] (erased (k_cons s)) s).
Proof.
  intros Hq Ho. erewrite consputc_backspace; [|by eapply quiet_ext|by destruct Ho; constructor].
  apply ok_eq. unfold typed, sent. by keq.
Qed.

Lemma cons_backspace_ok rd ed s h cp :
  quiet s h cp -> (ed <> [] -> online 3 s) -> cons_holds (k_cons s) rd ed ->
  ∃ co, cons_backspace s = Ok tt (typed (if bool_decide (ed = []) then [] else [8; 32; 8]) co s)
    ∧ cons_holds co rd (take (length ed - 1) ed).
Proof.
  intros Hq Ho Hc. unfold cons_backspace, getcons. rewrite bind_gets, (cons_no_line _ _ _ Hc).
  destruct ed as [|x ed' _] using rev_ind.
  - exists (k_cons s). split; [|done]. apply ok_eq. unfold typed. rewrite sent_nil. by keq.
  - rewrite bool_decide_eq_false_2 by (by destruct ed').
    cbn [negb when]. exists (erased (k_cons s)). unfold updcons. rewrite bind_modify.
    split; [apply (erase_ok 0 s h cp Hq), Ho; by destruct ed'|]. apply cons_erase_ok in Hc. rewrite length_app. simpl. by rewrite Nat.add_sub, take_app_length.
Qed.

Lemma kill_body_done rd s : cons_holds (k_cons s) rd [] -> cons_kill_body tt s = Ok (inr tt) s.
Proof.
  intros Hc. unfold cons_kill_body, getcons. rewrite bind_gets, (cons_no_line _ _ _ Hc).
  destruct (lookup_lt_is_Some_2 (co_buf (k_cons s)) (Z.to_nat (u32 (co_e (k_cons s) - 1) mod INPUT_BUF_SIZE)))
    as [c ->]; [|done].
  rewrite (ch_len _ _ _ Hc).
  pose proof (Z.mod_pos_bound (u32 (co_e (k_cons s) - 1)) INPUT_BUF_SIZE ltac:(done)). lia.
Qed.

Lemma kill_body_next rd ed x n s h cp :
  quiet s h cp -> online (3 + n) s -> cons_holds (k_cons s) rd (ed ++ [x]) ->
  cons_kill_body tt s = Ok (inl tt) (typed [8; 32; 8] (erased (k_cons s)) s).
Proof.
  intros Hq Ho Hc. unfold cons_kill_body, getcons.
  rewrite bind_gets, (cons_no_line _ _ _ Hc), (cons_last _ _ _ _ Hc).
  rewrite bool_decide_eq_false_2 by (by destruct ed). cbn [deref]. rewrite bind_ret.
  pose proof (ch_line _ _ _ Hc) as Hn. apply Forall_app in Hn as [_ [Hn _]%Forall_cons].
  apply Z.eqb_neq in Hn as ->. cbn [negb andb]. unfold updcons. rewrite bind_modify.
  by krun (erase_ok n s h cp Hq Ho).
Qed.

Lemma cons_kill_loop n : ∀ rd ed s h cp,
  (length ed <= n)%nat -> quiet s h cp -> online (3 * length ed) s -> cons_holds (k_cons s) rd ed ->
  ∃ co, loop (S n) cons_kill_body tt s
    = Ok tt (typed (concat (replicate (length ed) [8; 32; 8])) co s) ∧ cons_holds co rd [].
Proof.
  induction n as [|n IH]; intros rd ed s h cp Hn Hq Ho Hc.
  all: destruct ed as [|x ed _] using rev_ind.
  2:{ rewrite length_app in Hn. simpl in Hn. lia. }
  1,2: exists (k_cons s); split; [|done]; cbn [loop]; krun (kill_body_done rd s Hc);
    unfold typed; rewrite sent_nil; apply ok_eq; by keq.
  rewrite length_app in *. cbn [length] in *.
  change (loop (S (S n)) cons_kill_body tt) with
    (r ← cons_kill_body tt; match r with inl x => loop (S n) cons_kill_body x | inr r => ret r end).
  assert (Ho' : online (3 + 3 * length ed) s) by (eapply online_le; [|exact Ho]; lia).
  krun (kill_body_next rd ed x _ s h cp Hq Ho' Hc). set (s1 := typed _ _ s).
  destruct (IH rd ed s1 h cp) as (co & E & Hc'); [lia|by apply quiet_typed|by apply online_typed| |].
  { exact (cons_erase_ok _ _ _ _ Hc). }
  exists co. split; [|done]. rewrite E. subst s1. rewrite typed_typed. by rewrite Nat.add_1_r.
Qed.

Lemma cons_kill_ok rd ed s h cp :
  quiet s h cp -> online (3 * length ed) s -> cons_holds (k_cons s) rd ed ->
  ∃ co, cons_kill_line s = Ok tt (typed (concat (replicate (length ed) [8; 32; 8])) co s)
    ∧ cons_holds co rd [].
Proof.
  intros Hq Ho Hc. unfold cons_kill_line. unfold getcons at 1. rewrite bind_gets.
  rewrite (cons_line_count _ _ _ Hc), Nat2Z.id. by eapply cons_kill_loop.
Qed.

(** Who is woken when the ready input has grown from [rd] to [rd']. *)
Definition woken (cp : cpu) (rd rd' : list Z) (ps ps' : list proc) : Prop :=
  ∀ i, ps' !! i = (λ x, if decide (rd' = rd ∨ cp_proc cp = Some i) then x else wake_proc Ch_cons_r x)
                    <$> ps !! i.

Lemma woken_none cp rd ps : woken cp rd rd ps ps.
Proof. intros i. destruct (ps !! i); simpl; [|done]. by rewrite decide_True by (by left). Qed.

Lemma cons_insert_ok c rd ed s h cp rd' ed' echo :
  quiet s h cp -> procs_idle s -> online (length echo) s -> cons_holds (k_cons s) rd ed -> 0 <= c < 256 ->
  c <> C 85 -> c <> C 72 -> c <> 127 -> keystroke c rd ed = (rd', ed', echo) ->
  ∃ co ps, cons_insert c s = Ok tt ((typed echo co s) <| k_procs := ps |>)
    ∧ cons_holds co rd' ed' ∧ woken cp rd rd' (k_procs s) ps.
Proof using Hfuel.
  intros Hq Hi Ho Hc Hr H1 H2 H3 Hk. unfold keystroke in Hk.
  apply Z.eqb_neq in H1, H2, H3. rewrite H1, H2, H3 in Hk. cbn [orb] in Hk.
  unfold cons_insert. unfold getcons at 1. rewrite bind_gets, (cons_count _ _ _ Hc).
  destruct ((c =? 0) || (INPUT_BUF_SIZE <=? Z.of_nat (length (rd ++ ed)))) eqn:E0.
  - injection Hk as <- <- <-. exists (k_cons s), (k_procs s). split; [|split; [done|apply woken_none]].
    replace (negb (c =? 0) && _) with false.
    2:{ destruct (c =? 0); [done|]. cbn [negb andb orb] in *. symmetry. zb. by apply Z.ltb_ge. }
    cbn [when]. apply ok_eq. unfold typed. rewrite sent_nil. by keq.
  - apply orb_false_iff in E0 as [E0 E1]. rewrite E0. zb. cbn [negb andb].
    replace (_ <? _) with true by (symmetry; by apply Z.ltb_lt). cbn [when].
    set (k := if c =? 13 then 10 else c) in *. assert (Hkr : 0 <= k < 256) by (subst k; destruct (c =? 13); lia).
    assert (Ho1 : online 1 s) by (by destruct (_ || _ || _) in Hk; injection Hk as <- <- <-).
    krun (consputc_ok k 0 s h cp Hq Ho1 Hkr). unfold updcons at 1. rewrite bind_modify.
    rewrite (u8_small k) by lia. set (co := cons_push k (k_cons s)). set (s1 := _ <| k_cons ::= _ |>).
    assert (Es : s1 = typed [k] co s) by (subst s1; unfold typed; by keq). clearbody s1. subst s1.
    unfold getcons. rewrite bind_gets. change (k_cons (typed [k] co s)) with co.
    change (co_r co) with (co_r (k_cons s)).
    assert (En : u32 (co_e co - co_r (k_cons s)) = _) by exact (cons_push_count _ _ _ k Hc E1). rewrite En.
    destruct (_ || _ || _) eqn:Ec; injection Hk as <- <- <-; cbn [when].
    + unfold updcons. rewrite bind_modify.
      set (s2 := _ <| k_cons ::= _ |>). set (co2 := co <| co_w := co_e co |>).
      assert (Es : s2 = typed [k] co2 s) by (subst s2; unfold typed; by keq). clearbody s2. subst s2.
      destruct (wakeup_ok Hfuel Ch_cons_r (typed [k] co2 s) h cp) as (ps & E & Hps).
      { by apply quiet_typed. } { by eapply procs_idle_ext. }
      exists co2, ps. split; [exact E|]. split; [by apply cons_commit_ok|]. intros i. rewrite Hps.
      apply option_fmap_ext. intros x. destruct (decide (cp_proc cp = Some i)) as [Hm|Hm].
      * by rewrite decide_True by (by right).
      * rewrite decide_False; [done|]. intros [Hl|]; [|done].
        apply (f_equal length) in Hl. rewrite !length_app in Hl. simpl in Hl. lia.
    + exists co, (k_procs s). split; [apply ok_eq; by keq|]. split; [|apply woken_none].
      apply cons_push_ok; [done|done| |done]. intros ->. by rewrite Z.eqb_refl in Ec.
Qed.

(** The part of consoleintr() inside its critical section. *)
Definition keypress (c : Z) : K unit :=
  if c =? C 85 then cons_kill_line
  else if (c =? C 72) || (c =? 127) then cons_backspace
  else cons_insert c.

Lemma length_erase n : length (concat (replicate n [8; 32; 8])) = (3 * n)%nat.
Proof. induction n as [|n IH]; [done|]. cbn [replicate concat]. rewrite length_app, IH. simpl. lia. Qed.

Lemma keypress_ok c rd ed s h cp rd' ed' echo :
  quiet s h cp -> procs_idle s -> online (length echo) s -> cons_holds (k_cons s) rd ed -> 0 <= c < 256 ->
  keystroke c rd ed = (rd', ed', echo) ->
  ∃ co ps, keypress c s = Ok tt ((typed echo co s) <| k_procs := ps |>)
    ∧ cons_holds co rd' ed' ∧ woken cp rd rd' (k_procs s) ps.
Proof using Hfuel.
  intros Hq Hi Ho Hc Hr Hk. unfold keypress. pose proof Hk as Hk0. unfold keystroke in Hk.
  destruct (c =? C 85) eqn:E1; [|destruct ((c =? C 72) || (c =? 127)) eqn:E2].
  - injection Hk as <- <- <-. rewrite length_erase in Ho.
    destruct (cons_kill_ok rd ed s h cp Hq Ho Hc) as (co & -> & Hc').
    exists co, (k_procs s). split; [apply ok_eq; by keq|]. split; [done|apply woken_none].
  - injection Hk as <- <- <-. destruct (cons_backspace_ok rd ed s h cp Hq) as (co & -> & Hc'); [|done|].
    { intros Hne. by rewrite bool_decide_eq_false_2 in Ho. }
    exists co, (k_procs s). split; [apply ok_eq; by keq|]. split; [done|apply woken_none].
  - zb. by eapply cons_insert_ok.
Qed.

Lemma consoleintr_ok c rd ed s h cp rd' ed' echo :
  quiet s h cp -> procs_idle s -> lock_free L_cons s -> online (length echo) s ->
  cons_holds (k_cons s) rd ed -> 0 <= c < 256 -> c <> C 80 -> keystroke c rd ed = (rd', ed', echo) ->
  ∃ co ps, consoleintr c s = Ok tt ((typed echo co s) <| k_procs := ps |>)
    ∧ cons_holds co rd' ed' ∧ woken cp rd rd' (k_procs s) ps.
Proof using Hfuel.
  intros Hq Hi Hl Ho Hc Hr Hp Hk. unfold consoleintr. krun (acquire_ok Hfuel L_cons s h cp Hq Hl).
  apply Z.eqb_neq in Hp as ->.
  destruct (keypress_ok c rd ed (enter L_cons s) _ _ rd' ed' echo (quiet_enter L_cons s h cp Hq))
    as (co & ps & E & Hc' & Hw); [by apply procs_idle_enter|by destruct Ho|done|done|done|].
  exists co, ps. split; [|done]. unfold keypress in E. krun E.
  set (s1 := (typed echo co s) <| k_procs := ps |>).
  assert (Es : (typed echo co (enter L_cons s)) <| k_procs := ps |> = enter L_cons s1).
  { subst s1. unfold typed, sent, enter, pushed, lock_of. by keq. }
  rewrite Es. apply (release_ok _ s1 h cp); [by eapply quiet_ext|by eapply lock_free_ext].
Qed.
End intr.

(** ** Reading *)
Section read.
Context `{Fuel} `{Symbols} (Hfuel : (1 <= fuel)%nat) (Hend : end_ok).
Context (h : hart) (cp : cpu) (p : nat) (px : proc) (l : list Z).
Notation pt := (p_pagetable px).
Notation reader := (uproc h cp p px l).

Lemma reader_cons f s : reader s -> reader (s <| k_cons ::= f |>).
Proof.
  intros [H1 H2 H3 H4]. constructor; [by eapply quiet_ext|done|done|by eapply user_ok_ext].
Qed.

Lemma cons_wait_ok c rd ed s : cons_holds (k_cons s) (c :: rd) ed -> cons_wait s = Ok false s.
Proof.
  intros Hc. unfold cons_wait. cbn [loop]. unfold getcons.
  unfold kbind at 1. unfold kbind at 1. cbn [gets bindo]. rewrite (cons_none_ready _ _ _ Hc).
  by rewrite bool_decide_eq_false_2.
Qed.

(** A byte reaches the user. *)
Lemma either_copyout_ok va c s :
  reader s -> 0 <= va -> 0 <= c < 256 -> ubyte (k_mem s) pt va <> None ->
  ∃ m, either_copyout (D_user va) [c] s = Ok (0, []) (s <| k_mem := m |>)
    ∧ reader (s <| k_mem := m |>) ∧ written (k_mem s) m pt va [c] 1.
Proof using Hfuel Hend.
  intros [Hq Hp Hx Hu] Hva Hc Hm. destruct (copyout_byte Hfuel Hend pt l va c s Hu Hva Hc Hm) as (m & E & Hu' & W).
  exists m. split; [|split; [|done]].
  - unfold either_copyout. krun (myproc_ok s h cp Hq). rewrite Hp. cbn [deref]. rewrite bind_ret.
    krun (getp_ok _ _ _ Hx). by krun E.
  - constructor; [by eapply quiet_ext|done|done|done].
Qed.

(** The bytes of [out] taken from the console into user memory at [va]. *)
Record delivered (va : Z) (out rest ed : list Z) (s s' : kstate) : Prop := {
  dl_frame : s' = s <| k_cons := k_cons s' |> <| k_mem := k_mem s' |>;
  dl_reader : reader s';
  dl_cons : cons_holds (k_cons s') rest ed;
  dl_mem : written (k_mem s) (k_mem s') pt va out (Z.of_nat (length out))
}.

Lemma delivered_nil va rest ed s : reader s -> cons_holds (k_cons s) rest ed -> delivered va [] rest ed s s.
Proof. intros Hr Hc. constructor; [by keq|done|done|by apply written_zero]. Qed.

Lemma delivered_cons f va rest ed s :
  reader s -> cons_holds (f (k_cons s)) rest ed -> delivered va [] rest ed s (s <| k_cons ::= f |>).
Proof. intros Hr Hc. constructor; [by keq|by apply reader_cons|done|by apply written_zero]. Qed.

(** One byte and then the rest of the line. *)
Lemma delivered_more va c out rest ed s m s' f :
  written (k_mem s) m pt va [c] 1 ->
  delivered (va + 1) out rest ed (s <| k_cons ::= f |> <| k_mem := m |>) s' ->
  delivered va (c :: out) rest ed s s'.
Proof.
  intros W [Ef Hr Hc Hw]. constructor; [rewrite Ef; by keq|done|done|].
  apply (written_app Hfuel (k_mem s) m (k_mem s') pt va (c :: out) 1); [simpl; lia|simpl; lia|exact W|].
  replace (Z.of_nat (length (c :: out)) - 1) with (Z.of_nat (length out)) by (simpl; lia). exact Hw.
Qed.

Definition take_one (co : consstate) : consstate := co <| co_r ::= λ r, u32 (r + 1) |>.

(** The start of a round: the first byte of the ready input is taken. *)
Lemma read_body_start n got c rd ed s (k : Z -> K (dest * Z * list Z + option (Z * list Z))) :
  0 < n -> cons_holds (k_cons s) (c :: rd) ed ->
  (if negb (0 <? n) then ret (inr (Some (n, got))) else
   b ← cons_wait;
   if b : bool then ret (inr None) else
   co ← getcons;
   c ← deref (co_buf co !! Z.to_nat (co_r co mod INPUT_BUF_SIZE));
   updcons (λ co, co <| co_r ::= λ r, u32 (r + 1) |>) ;;
   k c) s = k c (s <| k_cons ::= take_one |>).
Proof.
  intros Hn Hc. replace (0 <? n) with true by (symmetry; by apply Z.ltb_lt). cbn [negb].
  krun (cons_wait_ok c rd ed s Hc). unfold getcons. rewrite bind_gets.
  destruct (cons_first _ _ _ _ Hc) as [-> _]. cbn [deref]. rewrite bind_ret. unfold updcons.
  by rewrite bind_modify.
Qed.

Lemma put_back co : 0 <= co_r co < 2 ^ 32 -> (take_one co) <| co_r ::= λ r, u32 (r - 1) |> = co.
Proof.
  intros Hr. destruct co as [b r w e]. unfold take_one, update. simpl in *. f_equal. unfold u32.
  change (2 ^ 32) with 4294967296 in *. zmod.
Qed.

Lemma read_loop_ok target rd : ∀ n va ed s out rest,
  0 <= n <= target -> target < 2 ^ 31 -> 0 <= va -> reader s -> cons_holds (k_cons s) rd ed ->
  mapped_user (k_mem s) pt va n -> read_line (Z.to_nat n) (n =? target) rd = Some (out, rest) ->
  ∃ s', loop (S (Z.to_nat n)) (consoleread_body target) (D_user va, n, []) s
        = Ok (Some (n - Z.of_nat (length out), [])) s'
    ∧ delivered va out rest ed s s'.
Proof using Hfuel Hend.
  induction rd as [|c rd IH]; intros n va ed s out rest Hn Ht Hva Hr Hc Hm Hl.
  all: destruct (Z.eq_dec n 0) as [->|Hnz]; [injection Hl as <- <-; exists s; split; [done|by apply delivered_nil]|].
  all: replace (Z.to_nat n) with (S (Z.to_nat (n - 1))) in * by lia; cbn [read_line] in Hl.
  { done. }
  destruct (cons_first _ _ _ _ Hc) as [_ Hc1].
  pose proof (ch_bytes _ _ _ Hc) as Hb. apply Forall_cons in Hb as [Hb _].
  set (s1 := s <| k_cons ::= take_one |>). pose proof (reader_cons take_one s Hr : reader s1) as Hr1.
  assert (Hm1 : ubyte (k_mem s1) pt va <> None) by (apply Hm; lia).
  change (loop (S ?a) ?f ?x s) with
    ((r ← f x; match r with inl y => loop a f y | inr r => ret r end) s).
  unfold consoleread_body at 1. unfold kbind at 1.
  rewrite (read_body_start n [] c rd ed s) by (done || lia).
  destruct (c =? C 68).
  - injection Hl as <- <-. rewrite u32_small by lia.
    destruct (Z.eqb_spec n target) as [->|Hne].
    + rewrite Z.ltb_irrefl. exists s1. split; [cbn; by rewrite Z.sub_0_r|by apply delivered_cons].
    + replace (n <? target) with true by (symmetry; apply Z.ltb_lt; lia).
      exists (s <| k_cons ::= λ co, (take_one co) <| co_r ::= λ r, u32 (r - 1) |> |>).
      split; [cbn; rewrite Z.sub_0_r; apply ok_eq; by keq|]. apply delivered_cons; [done|].
      by rewrite put_back by exact (ch_r _ _ _ Hc).
  - destruct (either_copyout_ok va c s1 Hr1 Hva Hb Hm1) as (m & E & Hr2 & W).
    set (s2 := s1 <| k_mem := m |>) in *. krun E. cbn [Z.eqb]. rewrite app_nil_r.
    destruct (c =? 10).
    + injection Hl as <- <-. exists s2. split; [done|]. eapply delivered_more; [exact W|].
      by apply delivered_nil.
    + destruct (read_line _ false rd) as [[out' rest']|] eqn:El; [|done]. injection Hl as <- <-.
      destruct (IH (n - 1) (va + 1) ed s2 out' rest') as (s' & E2 & D); try done; try lia.
      { intros x Hx. eapply (mapped_written Hfuel _ _ _ _ _ _ va n W); [simpl; lia|done|done|lia]. }
      { rewrite <- El. f_equal. apply Z.eqb_neq. lia. }
      exists s'. split; [|by eapply delivered_more]. cbn [dest_add].
      assert (va < MAXVA) by (eapply (mapped_below Hfuel _ _ _ _ va Hm); lia).
      rewrite u64_small by (change MAXVA with 274877906944 in *; lia).
      replace (n - Z.of_nat (length (c :: out'))) with (n - 1 - Z.of_nat (length out')) by (simpl; lia).
      exact E2.
Qed.
End read.

Lemma read_line_length n : ∀ first rd out rest,
  read_line n first rd = Some (out, rest) -> (length out <= n)%nat.
Proof.
  induction n as [|n IH]; intros first rd out rest; [by intros [= <- <-]|].
  destruct rd as [|c rd]; [done|]. cbn [read_line].
  destruct (c =? C 68); [by intros [= <- <-]; simpl; lia|].
  destruct (c =? 10); [intros [= <- <-]; simpl; lia|].
  destruct (read_line n false rd) as [[o r]|] eqn:E; [|done]. intros [= <- <-]. apply IH in E. simpl. lia.
Qed.

Lemma consoleread_ok `{Fuel} `{Symbols} h cp p px l n va rd ed s out rest :
  (1 <= fuel)%nat -> end_ok ->
  0 <= n < 2 ^ 31 -> 0 <= va -> uproc h cp p px l s -> lock_free L_cons s -> cons_holds (k_cons s) rd ed ->
  mapped_user (k_mem s) (p_pagetable px) va n -> read_line (Z.to_nat n) true rd = Some (out, rest) ->
  ∃ s', consoleread (D_user va) n s = Ok (Z.of_nat (length out), []) s'
    ∧ delivered h cp p px l va out rest ed s s'.
Proof.
  intros Hfuel Hend Hn Hva [Hq Hp Hx Hu] Hl Hc Hm Hr. unfold consoleread.
  krun (acquire_ok Hfuel L_cons s h cp Hq Hl). rewrite u32_small by lia.
  pose proof (quiet_enter L_cons s h cp Hq) as Hq1. set (s1 := enter L_cons s) in *.
  set (h1 := h <| h_sstatus ::= _ |>) in Hq1. set (cp1 := cp <| cp_noff ::= _ |>) in Hq1.
  assert (Hr1 : uproc h1 cp1 p px l s1) by (constructor; [exact Hq1|done|done|by eapply user_ok_ext]).
  destruct (read_loop_ok Hfuel Hend h1 cp1 p px l n rd n va ed s1 out rest) as (s2 & E & [Ef Hr2 Hc' Hw]);
    try done; [lia|lia|by rewrite Z.eqb_refl|].
  set (s3 := s <| k_cons := k_cons s2 |> <| k_mem := k_mem s2 |>).
  assert (Es : s2 = enter L_cons s3) by (rewrite Ef; subst s1 s3; unfold enter, pushed, lock_of; by keq).
  assert (Hq3 : quiet s3 h cp) by (by eapply quiet_ext).
  exists s3. krun E. rewrite Es. krun (release_ok L_cons s3 h cp Hq3 (lock_free_ext _ _ s3 Hl eq_refl)).
  apply read_line_length in Hr. split.
  - unfold ret. do 2 f_equal. rewrite u32_small by lia. rewrite i32_small; lia.
  - constructor; [by keq| |done|exact Hw]. constructor; [done|done|done|].
    eapply user_ok_ext; [exact (up_user _ _ _ _ _ _ Hr2)|done|]. by rewrite Ef.
Qed.

(** ** Typing and reading *)

Definition typable (c : Z) : Prop := 0 <= c < 256 ∧ c <> C 80.

(** Nobody but sleepers is touched by a wakeup, and not the running process. *)
Lemma woken_frame cp rd rd' s s' p px :
  woken cp rd rd' (k_procs s) (k_procs s') -> k_locks s' = k_locks s -> procs_idle s ->
  cp_proc cp = Some p -> k_procs s !! p = Some px ->
  procs_idle s' ∧ k_procs s' !! p = Some px.
Proof.
  intros Hw El Hi Hp Hx. split.
  - eapply procs_idle_ext; [done| |done]. eapply length_pointwise. exact Hw.
  - rewrite Hw, Hx. simpl. by rewrite decide_True by (by right).
Qed.

Section session.
Context `{Fuel} `{Symbols} (Hfuel : (1 <= fuel)%nat).
Context (h : hart) (cp : cpu) (p : nat) (px : proc) (l : list Z).

Lemma type_all_ok cs : ∀ rd ed s rd' ed' echo,
  uproc h cp p px l s -> procs_idle s -> lock_free L_cons s -> cons_holds (k_cons s) rd ed ->
  Forall typable cs -> type_all cs rd ed = (rd', ed', echo) -> online (length echo) s ->
  ∃ s', for_all cs consoleintr s = Ok tt s'
    ∧ uproc h cp p px l s' ∧ lock_free L_cons s' ∧ k_mem s' = k_mem s
    ∧ cons_holds (k_cons s') rd' ed'
    ∧ k_mmio_out s' = k_mmio_out s ++ ((λ c, (UART0 + THR, c)) <$> echo).
Proof using Hfuel.
  induction cs as [|c cs IH]; intros rd ed s rd' ed' echo Hr Hi Hl Hc Hcs Ht Ho; cbn [type_all] in Ht.
  - injection Ht as <- <- <-. exists s. split_and!; try done. simpl. by rewrite app_nil_r.
  - destruct (keystroke c rd ed) as [[rd1 ed1] e1] eqn:Ek.
    destruct (type_all cs rd1 ed1) as [[rd2 ed2] e2] eqn:Et. injection Ht as <- <- <-.
    apply Forall_cons in Hcs as [[Hb Hp] Hcs]. rewrite length_app in Ho.
    destruct (consoleintr_ok Hfuel c rd ed s h cp rd1 ed1 e1) as (co & ps & E & Hc1 & Hw); try done.
    { exact (up_quiet _ _ _ _ _ _ Hr). } { eapply online_le; [|exact Ho]. lia. }
    set (s1 := (typed e1 co s) <| k_procs := ps |>) in *.
    destruct Hr as [Hq Hcur Hx Hu].
    destruct (woken_frame cp rd rd1 s s1 p px Hw eq_refl Hi Hcur Hx) as [Hi1 Hx1].
    destruct (IH rd1 ed1 s1 rd2 ed2 e2) as (s' & E' & Hr' & Hl' & Hm' & Hc' & Ho'); try done.
    { constructor; [by eapply quiet_ext|done|done|by eapply user_ok_ext]. }
    { destruct (online_sent e1 _ s Ho). by constructor. }
    exists s'. split_and!; try done.
    + cbn [for_all]. by krun E.
    + rewrite Ho'. simpl. by rewrite fmap_app, app_assoc.
Qed.
End session.

(** ** Properties *)

(** C14: the console's line discipline, end to end.  Characters that arrive at
    consoleintr() one by one are echoed and edited (backspace, kill line) as
    [type_all] says, on a ring buffer whose indices may wrap around and which
    drops what does not fit; a line becomes readable when it is complete, and
    consoleread() then stores exactly that line (or its first [n] bytes) in the
    reader's memory, where an end-of-file mark ends it, and leaves the rest. *)
Theorem console_line_discipline `{Fuel} `{Symbols} (h : hart) (cp : cpu) (p : nat) (px : proc) (l : list Z)
    (s : kstate) (cs rd ed rd' ed' echo : list Z) (n va : Z) (out rest : list Z) :
  (1 <= fuel)%nat -> end_ok ->
  uproc h cp p px l s -> procs_idle s -> lock_free L_cons s -> cons_holds (k_cons s) rd ed ->
  Forall typable cs -> type_all cs rd ed = (rd', ed', echo) -> online (length echo) s ->
  0 <= n < 2 ^ 31 -> 0 <= va -> mapped_user (k_mem s) (p_pagetable px) va n ->
  read_line (Z.to_nat n) true rd' = Some (out, rest) ->
  ∃ s1 s2,
    for_all cs consoleintr s = Ok tt s1
    ∧ k_mmio_out s1 = k_mmio_out s ++ ((λ c, (UART0 + THR, c)) <$> echo)
    ∧ cons_holds (k_cons s1) rd' ed'
    ∧ consoleread (D_user va) n s1 = Ok (Z.of_nat (length out), []) s2
    ∧ cons_holds (k_cons s2) rest ed'
    ∧ written (k_mem s) (k_mem s2) (p_pagetable px) va out (Z.of_nat (length out)).
Proof.
  intros Hfuel Hend Hr Hi Hl Hc Hcs Ht Ho Hn Hva Hm Hrd.
  destruct (type_all_ok Hfuel h cp p px l cs rd ed s rd' ed' echo) as (s1 & E1 & Hr1 & Hl1 & Em & Hc1 & Eo);
    try done.
  destruct (consoleread_ok h cp p px l n va rd' ed' s1 out rest) as (s2 & E2 & [_ _ Hc2 Hw]); try done.
  { by rewrite Em. }
  exists s1, s2. rewrite Em in Hw. done.
Qed.

(** A machine on which process 0 runs, with an idle UART. *)
Definition ex_console : kstate :=
  ex_procs <| k_locks ::= <[L_cons := Spinlock 0 "cons" None]> |>
    <| k_cpus ::= upd 0 (λ c, c <| cp_proc := Some 0%nat |>) |>
    <| k_procs ::= upd 0 (λ x, x <| p_pagetable := ex_pt |>) |>
    <| k_mmio_in := replicate 20 32 |>.

Lemma ex_console_idle : procs_idle ex_console.
Proof.
  pose proof ex_procs_idle as [H1 H2]. constructor; [done|].
  intros i Hi. destruct (H2 i Hi) as [n Hn]. exists n. unfold ex_console.
  change (<[L_cons := Spinlock 0 "cons" None]> (k_locks ex_procs) !! L_proc i = Some (Spinlock 0 n None)).
  by rewrite lookup_insert_ne.
Qed.

Lemma console_line_discipline_witness :
  let H : Fuel := 1%nat in let H0 : Symbols := example_symbols in
  ∃ s s1 s2 pt, for_all [97; 98; 8; 99; 13] consoleintr s = Ok tt s1
    ∧ consoleread (D_user 5) 100 s1 = Ok (3, []) s2
    ∧ ubyte (k_mem s2) pt 5 = Some 97 ∧ ubyte (k_mem s2) pt 6 = Some 99 ∧ ubyte (k_mem s2) pt 7 = Some 10.
Proof.
  intros H H0. destruct ex_user as (s0 & l & Hk & Hp & Hu & Hm).
  set (s := ex_console <| k_mem := k_mem s0 |> <| k_freelist := k_freelist s0 |>).
  set (px := default (zero_proc) (k_procs s !! 0%nat)).
  set (cp := zero_cpu <| cp_proc := Some 0%nat |>).
  assert (Hr : uproc (zero_hart 0) cp 0 px l s).
  { constructor; [by constructor|done|reflexivity|].
    destruct Hk as [K1 K2 K3 K4]. constructor; [by constructor|exact Hp|exact Hu]. }
  destruct (console_line_discipline (zero_hart 0) cp 0 px l s [97; 98; 8; 99; 13] [] []
      [97; 99; 10] [] [97; 98; 8; 32; 8; 99; 10] 100 5 [97; 99; 10] []) as (s1 & s2 & E1 & _ & _ & E2 & _ & W).
  - apply le_n.
  - done.
  - exact Hr.
  - eapply procs_idle_ext; [exact ex_console_idle|reflexivity|reflexivity].
  - exists "cons"%string. apply lookup_insert_eq.
  - by constructor.
  - repeat constructor; unfold C; lia.
  - reflexivity.
  - constructor; [reflexivity|by repeat constructor|simpl; lia].
  - lia.
  - lia.
  - intros x Hx. apply Hm. change PGSIZE with 4096. lia.
  - reflexivity.
  - exists s, s1, s2, (p_pagetable px). split_and!; [exact E1|exact E2|..].
    all: rewrite W by lia; reflexivity.
Defined.
