(* ===== verification/Plic.v ===== *)
(** * plic.c: the interrupt controller *)

From Stdlib Require Import ZArith Lia.
From stdpp Require Import base numbers list gmap strings.
From S2P Require Import Prelude Machine Kernel Riscv Spinlock.

Definition plicinit : K unit :=
  mmio_write (PLIC + UART0_IRQ * 4) 1 ;;
  mmio_write (PLIC + VIRTIO0_IRQ * 4) 1.

Definition plicinithart : K unit :=
  hart ← cpuid;
  mmio_write (PLIC_SENABLE hart) (Z.lor (Z.shiftl 1 UART0_IRQ) (Z.shiftl 1 VIRTIO0_IRQ)) ;;
  mmio_write (PLIC_SPRIORITY hart) 0.

Definition plic_claim : K Z :=
  hart ← cpuid;
  irq ← mmio_read (PLIC_SCLAIM hart);
  ret (i32 (u32 irq)).

Definition plic_complete (irq : Z) : K unit :=
  hart ← cpuid;
  mmio_write (PLIC_SCLAIM hart) (u32 irq).
