(* ===== verification/Virtio.v ===== *)
(** * virtio_disk.c: the disk driver

    The three DMA pages are kept as the structures the driver casts them to
    ([dk_desc], [dk_avail], [dk_used]); the device is part of what runs while
    the driver sleeps.  The class [DiskDriver] is what the buffer cache asks of
    a driver; virtio_disk_rw() is the kernel's instance of it. *)

From Stdlib Require Import ZArith Lia.
From stdpp Require Import base numbers list gmap strings.
From S2P Require Import Prelude Machine Kernel Strings Riscv Spinlock Kalloc Proc.

(** [disk_rw b write]: read or write the block of buffer [b]. *)
Class DiskDriver := disk_rw : nat -> bool -> K unit.

(** Where the linker placed the objects whose addresses the device is given. *)
Class DiskLayout := {
  ops_addr : Z -> Z;          (* &disk.ops[i] *)
  status_addr : Z -> Z;       (* &disk.info[i].status *)
  bufdata_addr : nat -> Z     (* b->data *)
}.

(** ** virtio.h *)
Definition BSIZE : Z := 1024.
Definition NUM : Z := 8.
Definition VIRTIO_MMIO_MAGIC_VALUE : Z := 0x000.
Definition VIRTIO_MMIO_VERSION : Z := 0x004.
Definition VIRTIO_MMIO_DEVICE_ID : Z := 0x008.
Definition VIRTIO_MMIO_VENDOR_ID : Z := 0x00c.
Definition VIRTIO_MMIO_DEVICE_FEATURES : Z := 0x010.
Definition VIRTIO_MMIO_DRIVER_FEATURES : Z := 0x020.
Definition VIRTIO_MMIO_QUEUE_SEL : Z := 0x030.
Definition VIRTIO_MMIO_QUEUE_NUM_MAX : Z := 0x034.
Definition VIRTIO_MMIO_QUEUE_NUM : Z := 0x038.
Definition VIRTIO_MMIO_QUEUE_READY : Z := 0x044.
Definition VIRTIO_MMIO_QUEUE_NOTIFY : Z := 0x050.
Definition VIRTIO_MMIO_INTERRUPT_STATUS : Z := 0x060.
Definition VIRTIO_MMIO_INTERRUPT_ACK : Z := 0x064.
Definition VIRTIO_MMIO_STATUS : Z := 0x070.
Definition VIRTIO_MMIO_QUEUE_DESC_LOW : Z := 0x080.
Definition VIRTIO_MMIO_QUEUE_DESC_HIGH : Z := 0x084.
Definition VIRTIO_MMIO_DRIVER_DESC_LOW : Z := 0x090.
Definition VIRTIO_MMIO_DRIVER_DESC_HIGH : Z := 0x094.
Definition VIRTIO_MMIO_DEVICE_DESC_LOW : Z := 0x0a0.
Definition VIRTIO_MMIO_DEVICE_DESC_HIGH : Z := 0x0a4.
Definition VIRTIO_CONFIG_S_ACKNOWLEDGE : Z := 1.
Definition VIRTIO_CONFIG_S_DRIVER : Z := 2.
Definition VIRTIO_CONFIG_S_DRIVER_OK : Z := 4.
Definition VIRTIO_CONFIG_S_FEATURES_OK : Z := 8.
Definition VIRTIO_BLK_F_RO : Z := 5.
Definition VIRTIO_BLK_F_SCSI : Z := 7.
Definition VIRTIO_BLK_F_CONFIG_WCE : Z := 11.
Definition VIRTIO_BLK_F_MQ : Z := 12.
Definition VIRTIO_F_ANY_LAYOUT : Z := 27.
Definition VIRTIO_RING_F_INDIRECT_DESC : Z := 28.
Definition VIRTIO_RING_F_EVENT_IDX : Z := 29.
Definition VRING_DESC_F_NEXT : Z := 1.
Definition VRING_DESC_F_WRITE : Z := 2.
Definition VIRTIO_BLK_T_IN : Z := 0.
Definition VIRTIO_BLK_T_OUT : Z := 1.

Section virtio.
Context `{Fuel} `{Symbols} `{DiskLayout}.

Definition getvd : K diskstate := gets k_vdisk.
Definition updvd (f : diskstate -> diskstate) : K unit := modify (λ s, s <| k_vdisk ::= f |>).

Definition readR (r : Z) : K Z := v ← mmio_read (VIRTIO0 + r); ret (u32 v).
Definition writeR (r v : Z) : K unit := mmio_write (VIRTIO0 + r) (u32 v).

(** [features &= ~(1 << bit)] *)
Definition clear_bit (features bit : Z) : Z := Z.land features (Z.lnot (Z.shiftl 1 bit)).

(** [||] stops at the first mismatch, so later registers are then not read. *)
Definition virtio_probe : K bool :=
  magic ← readR VIRTIO_MMIO_MAGIC_VALUE;
  if negb (magic =? 0x74726976) then ret false else
  version ← readR VIRTIO_MMIO_VERSION;
  if negb (version =? 2) then ret false else
  device ← readR VIRTIO_MMIO_DEVICE_ID;
  if negb (device =? 2) then ret false else
  vendor ← readR VIRTIO_MMIO_VENDOR_ID;
  ret (vendor =? 0x554d4551).

Definition virtio_disk_init : K unit :=
  initlock L_vdisk "virtio_disk" ;;
  found ← virtio_probe;
  if negb found then panic "could not find virtio disk" else
  writeR VIRTIO_MMIO_STATUS 0 ;;
  let status := Z.lor 0 VIRTIO_CONFIG_S_ACKNOWLEDGE in
  writeR VIRTIO_MMIO_STATUS status ;;
  let status := Z.lor status VIRTIO_CONFIG_S_DRIVER in
  writeR VIRTIO_MMIO_STATUS status ;;
  features ← readR VIRTIO_MMIO_DEVICE_FEATURES;
  let features := foldl clear_bit features
    [VIRTIO_BLK_F_RO; VIRTIO_BLK_F_SCSI; VIRTIO_BLK_F_CONFIG_WCE; VIRTIO_BLK_F_MQ;
     VIRTIO_F_ANY_LAYOUT; VIRTIO_RING_F_EVENT_IDX; VIRTIO_RING_F_INDIRECT_DESC] in
  writeR VIRTIO_MMIO_DRIVER_FEATURES features ;;
  let status := Z.lor status VIRTIO_CONFIG_S_FEATURES_OK in
  writeR VIRTIO_MMIO_STATUS status ;;
  status ← readR VIRTIO_MMIO_STATUS;
  if Z.land status VIRTIO_CONFIG_S_FEATURES_OK =? 0
  then panic "virtio disk FEATURES_OK unset" else
  writeR VIRTIO_MMIO_QUEUE_SEL 0 ;;
  ready ← readR VIRTIO_MMIO_QUEUE_READY;
  if truth ready then panic "virtio disk should not be ready" else
  max ← readR VIRTIO_MMIO_QUEUE_NUM_MAX;
  if max =? 0 then panic "virtio disk has no queue 0" else
  if max <? NUM then panic "virtio disk max queue too short" else
  desc ← kalloc; avail ← kalloc; used ← kalloc;
  if negb (truth desc) || negb (truth avail) || negb (truth used)
  then panic "virtio disk kalloc" else
  kmemset desc 0 PGN ;;
  kmemset avail 0 PGN ;;
  kmemset used 0 PGN ;;
  updvd (λ d, d <| dk_desc := replicate 8 (Vdesc 0 0 0 0) |>
                <| dk_avail := Vavail 0 0 (replicate 8 0) |>
                <| dk_used := Vused 0 0 (replicate 8 (0, 0)) |>) ;;
  writeR VIRTIO_MMIO_QUEUE_NUM NUM ;;
  writeR VIRTIO_MMIO_QUEUE_DESC_LOW desc ;;
  writeR VIRTIO_MMIO_QUEUE_DESC_HIGH (Z.shiftr desc 32) ;;
  writeR VIRTIO_MMIO_DRIVER_DESC_LOW avail ;;
  writeR VIRTIO_MMIO_DRIVER_DESC_HIGH (Z.shiftr avail 32) ;;
  writeR VIRTIO_MMIO_DEVICE_DESC_LOW used ;;
  writeR VIRTIO_MMIO_DEVICE_DESC_HIGH (Z.shiftr used 32) ;;
  writeR VIRTIO_MMIO_QUEUE_READY 0x1 ;;
  for_all (zrange 0 (Z.to_nat NUM)) (λ i, updvd (λ d, d <| dk_free ::= λ f, aset f i 1 |>)) ;;
  let status := Z.lor status VIRTIO_CONFIG_S_DRIVER_OK in
  writeR VIRTIO_MMIO_STATUS status.

Definition alloc_desc : K Z :=
  r ← foreach (zrange 0 (Z.to_nat NUM)) (λ i,
    d ← getvd;
    if truth (aget (dk_free d) i)
    then updvd (λ d, d <| dk_free ::= λ f, aset f i 0 |>) ;; ret (Some i)
    else ret None);
  ret (default (-1) r).

Definition free_desc (i : Z) : K unit :=
  if NUM <=? i then panic "free_desc 1" else
  d ← getvd;
  f ← deref (dk_free d !! Z.to_nat i);
  if truth f then panic "free_desc 2" else
  updvd (λ d, d <| dk_desc ::= <[Z.to_nat i := Vdesc 0 0 0 0]> |>
                <| dk_free ::= λ f, aset f i 1 |>) ;;
  wakeup Ch_disk_free.

(** One round of free_chain()'s loop. *)
Definition free_chain_body (i : Z) : K (Z + unit) :=
  d ← getvd;
  de ← deref (dk_desc d !! Z.to_nat i);
  free_desc i ;;
  if truth (Z.land (vd_flags de) VRING_DESC_F_NEXT) then ret (inl (vd_next de))
  else ret (inr tt).

(** A chain visits a descriptor at most once: free_desc() panics at a second visit. *)
Definition free_chain (i : Z) : K unit := loop (S (Z.to_nat NUM)) free_chain_body i.

(** The three indices, or [None] for the result -1. *)
Definition alloc3_desc : K (option (Z * Z * Z)) :=
  i0 ← alloc_desc;
  if i0 <? 0 then ret None else
  i1 ← alloc_desc;
  if i1 <? 0 then free_desc i0 ;; ret None else
  i2 ← alloc_desc;
  if i2 <? 0 then free_desc i0 ;; free_desc i1 ;; ret None else
  ret (Some (i0, i1, i2)).

(** Fill in the three descriptors of a request. *)
Definition format_request (b : nat) (write : bool) (sector : Z) (idx : Z * Z * Z) (d : diskstate)
    : diskstate :=
  let '(i0, i1, i2) := idx in
  d <| dk_ops ::= <[Z.to_nat i0 := Vreq (if write then VIRTIO_BLK_T_OUT else VIRTIO_BLK_T_IN) 0 sector]> |>
    <| dk_desc ::= <[Z.to_nat i0 := Vdesc (ops_addr i0) 16 VRING_DESC_F_NEXT i1]> |>
    <| dk_desc ::= <[Z.to_nat i1 := Vdesc (bufdata_addr b) BSIZE
         (Z.lor (if write then 0 else VRING_DESC_F_WRITE) VRING_DESC_F_NEXT) i2]> |>
    <| dk_info ::= upd (Z.to_nat i0) (λ x, x <| vi_status := 0xff |>) |>
    <| dk_desc ::= <[Z.to_nat i2 := Vdesc (status_addr i0) 1 VRING_DESC_F_WRITE 0]> |>.

(** One round of the loop that waits for three descriptors. *)
Definition rw_alloc_body (_ : unit) : K (unit + Z * Z * Z) :=
  r ← alloc3_desc;
  match r with
  | Some idx => ret (inr idx)
  | None => sleep Ch_disk_free L_vdisk ;; ret (inl tt)
  end.

(** One round of the loop that waits for the transfer. *)
Definition rw_wait_body (b : nat) (_ : unit) : K (unit + unit) :=
  x ← getb b;
  if b_disk x =? 1 then sleep (Ch_buf b) L_vdisk ;; ret (inl tt) else ret (inr tt).

Definition virtio_disk_rw (b : nat) (write : bool) : K unit :=
  x ← getb b;
  let sector := u32 (b_blockno x * (BSIZE / 512)) in
  acquire L_vdisk ;;
  idx ← loop (S fuel) rw_alloc_body tt;
  let '(i0, i1, i2) := idx in
  updvd (format_request b write sector idx) ;;
  updb b (λ x, x <| b_disk := 1 |>) ;;
  updvd (λ d, d <| dk_info ::= upd (Z.to_nat i0) (λ x, x <| vi_b := Some b |>) |>) ;;
  updvd (λ d, d <| dk_avail ::= λ a,
    a <| va_ring ::= λ r, aset r (va_idx a mod NUM) i0 |> |>) ;;
  updvd (λ d, d <| dk_avail ::= λ a, a <| va_idx ::= λ i, u16 (i + 1) |> |>) ;;
  writeR VIRTIO_MMIO_QUEUE_NOTIFY 0 ;;
  loop (S fuel) (rw_wait_body b) tt ;;
  updvd (λ d, d <| dk_info ::= upd (Z.to_nat i0) (λ x, x <| vi_b := None |>) |>) ;;
  free_chain i0 ;;
  release L_vdisk.

#[local] Instance virtio_driver : DiskDriver := virtio_disk_rw.

(** One round of virtio_disk_intr()'s loop. *)
Definition intr_body (_ : unit) : K (unit + unit) :=
  d ← getvd;
  if negb (dk_used_idx d =? vu_idx (dk_used d)) then
    ' (id, _) ← deref (vu_ring (dk_used d) !! Z.to_nat (dk_used_idx d mod NUM));
    x ← deref (dk_info d !! Z.to_nat id);
    if negb (vi_status x =? 0) then panic "virtio_disk_intr status" else
    b ← deref (vi_b x);
    updb b (λ x, x <| b_disk := 0 |>) ;;
    wakeup (Ch_buf b) ;;
    updvd (λ d, d <| dk_used_idx ::= λ i, u16 (i + 1) |>) ;;
    ret (inl tt)
  else ret (inr tt).

(** The used ring is examined once per completed request: at most 2^16 apart. *)
Definition virtio_disk_intr : K unit :=
  acquire L_vdisk ;;
  st ← readR VIRTIO_MMIO_INTERRUPT_STATUS;
  writeR VIRTIO_MMIO_INTERRUPT_ACK (Z.land st 0x3) ;;
  d ← getvd;
  loop (S (Z.to_nat (u16 (vu_idx (dk_used d) - dk_used_idx d)))) intr_body tt ;;
  release L_vdisk.
End virtio.
