(* ===== verification/Bio.v ===== *)
(** * bio.c: the buffer cache

    [k_bufs] holds the NBUF buffers and, at index [bcache_head], the list head; [b_next]
    and [b_prev] are the C pointers.  The cache is used through bread(),
    bwrite() and brelse(); it reaches the disk through the interface
    [DiskDriver]. *)

From Stdlib Require Import ZArith Lia.
From stdpp Require Import base numbers list gmap strings.
From S2P Require Import Prelude Machine Kernel Riscv Spinlock Proc Sleeplock Virtio.

(** [&bcache.head] *)
Definition bcache_head : nat := Z.to_nat NBUF.

Section bio.
Context `{Fuel} `{Symbols} `{DiskDriver}.

Definition set_next (b n : nat) : K unit := updb b (λ x, x <| b_next := n |>).
Definition set_prev (b n : nat) : K unit := updb b (λ x, x <| b_prev := n |>).

(** Insert [b] after the list head. *)
Definition push_front (b : nat) : K unit :=
  h ← getb bcache_head;
  set_next b (b_next h) ;;
  set_prev b bcache_head ;;
  set_prev (b_next h) b ;;
  set_next bcache_head b.

Definition binit : K unit :=
  initlock L_bcache "bcache" ;;
  set_prev bcache_head bcache_head ;;
  set_next bcache_head bcache_head ;;
  for_all (seq 0 bcache_head) (λ b,
    h ← getb bcache_head;
    set_next b (b_next h) ;;
    set_prev b bcache_head ;;
    initsleeplock (SL_buf b) "buffer" ;;
    h ← getb bcache_head;
    set_prev (b_next h) b ;;
    set_next bcache_head b).

(** The two searches of bget(): a list of NBUF buffers ends in the head. *)
Definition bget_cached (dev blockno : Z) : K (option nat) :=
  h ← getb bcache_head;
  loop (S bcache_head) (λ b,
    if bool_decide (b = bcache_head) then ret (inr None) else
    x ← getb b;
    if (b_dev x =? dev) && (b_blockno x =? blockno) then ret (inr (Some b))
    else ret (inl (b_next x))) (b_next h).

Definition bget_unused : K (option nat) :=
  h ← getb bcache_head;
  loop (S bcache_head) (λ b,
    if bool_decide (b = bcache_head) then ret (inr None) else
    x ← getb b;
    if b_refcnt x =? 0 then ret (inr (Some b)) else ret (inl (b_prev x))) (b_prev h).

Definition bget (dev blockno : Z) : K nat :=
  acquire L_bcache ;;
  c ← bget_cached dev blockno;
  match c with
  | Some b =>
      updb b (λ x, x <| b_refcnt ::= λ n, u32 (n + 1) |>) ;;
      release L_bcache ;;
      acquiresleep (SL_buf b) ;;
      ret b
  | None =>
      u ← bget_unused;
      match u with
      | Some b =>
          updb b (λ x, x <| b_dev := dev |> <| b_blockno := blockno |>
                         <| b_valid := 0 |> <| b_refcnt := 1 |>) ;;
          release L_bcache ;;
          acquiresleep (SL_buf b) ;;
          ret b
      | None => panic "bget: no buffers"
      end
  end.

Definition bread (dev blockno : Z) : K nat :=
  b ← bget dev blockno;
  x ← getb b;
  when (negb (truth (b_valid x))) (disk_rw b false ;; updb b (λ x, x <| b_valid := 1 |>)) ;;
  ret b.

Definition bwrite (b : nat) : K unit :=
  h ← holdingsleep (SL_buf b);
  if negb h then panic "bwrite" else disk_rw b true.

Definition brelse (b : nat) : K unit :=
  h ← holdingsleep (SL_buf b);
  if negb h then panic "brelse" else
  releasesleep (SL_buf b) ;;
  acquire L_bcache ;;
  updb b (λ x, x <| b_refcnt ::= λ n, u32 (n - 1) |>) ;;
  x ← getb b;
  when (b_refcnt x =? 0)
    (set_prev (b_next x) (b_prev x) ;;
     set_next (b_prev x) (b_next x) ;;
     push_front b) ;;
  release L_bcache.

Definition bpin (b : nat) : K unit :=
  acquire L_bcache ;;
  updb b (λ x, x <| b_refcnt ::= λ n, u32 (n + 1) |>) ;;
  release L_bcache.

Definition bunpin (b : nat) : K unit :=
  acquire L_bcache ;;
  updb b (λ x, x <| b_refcnt ::= λ n, u32 (n - 1) |>) ;;
  release L_bcache.

(** [b->data], read and modified by the code that holds [b] locked. *)
Definition bdata (b : nat) : K (list Z) := x ← getb b; ret (b_data x).
Definition set_bdata (b : nat) (f : list Z -> list Z) : K unit :=
  updb b (λ x, x <| b_data ::= f |>).
End bio.
