(* ===== verification/BioSpec.v ===== *)
(** * The buffer cache's contract

    What the log and the file system rely on.  A client sees a block device:
    the contents [V n] of every block [n] as bread() returns them, the blocks
    that are pinned, and the buffers the running process holds.  [bcache] relates
    that view to the LRU list, reference counts, sleep locks and buffers of
    bio.c, and each function is shown to implement its effect on the view. *)

From Stdlib Require Import ZArith Lia.
From stdpp Require Import base numbers functions list gmap strings.
From S2P Require Import Prelude Machine Kernel Riscv Spinlock Proc Sleeplock Virtio Bio.

(** ** The disk driver's contract *)

(** Runs in which [env w s] is what the rest of the machine (devices, interrupt
    handlers, the scheduler) makes of state [s] while the process waits for [w]. *)
Fixpoint run (env : why -> kstate -> kstate) {A} (o : out A) : out A :=
  match o with
  | Yield w s k => run env (k (env w s))
  | o => o
  end.

Lemma run_bind {A B} env (m : K A) (f : A -> K B) s a s' :
  run env (m s) = Ok a s' -> run env ((m ≫= f) s) = run env (f a s').
Proof.
  unfold kbind. induction (m s) as [b s1|e s1|w s1 k IH]; cbn [run bindo]; intros E.
  - by injection E as -> ->.
  - done.
  - by apply IH.
Qed.

Definition zero_block : list Z := replicate (Z.to_nat BSIZE) 0.
Definition dblock (d : gmap Z (list Z)) (n : Z) : list Z := default zero_block (d !! n).

(** A transfer of the block of buffer [b] (whose fields are [x]) that is done. *)
Definition disk_done (b : nat) (write : bool) (x : buf) (s : kstate) : kstate :=
  if write
  then s <| k_disk ::= <[b_blockno x := b_data x]> |>
         <| k_dhist ::= λ l, l ++ [(b_blockno x, b_data x)] |>
  else s <| k_bufs ::= upd b (λ y, y <| b_data := dblock (k_disk s) (b_blockno x) |>) |>.

(** What bio.c relies on: called by a process that holds no spinlock, the driver
    returns with the transfer done, having changed nothing else but its own
    structures and the device's registers. *)
Class DiskLaw `{DiskDriver} (env : why -> kstate -> kstate) := {
  drv_ok : diskstate -> Prop;
  disk_rw_ok : ∀ b write s h cp p px x,
    calm s h cp p px -> lock_free L_vdisk s -> drv_ok (k_vdisk s) ->
    (b < bcache_head)%nat -> k_bufs s !! b = Some x -> b_disk x = 0 -> 0 <= b_blockno x < 2 ^ 31 ->
    ∃ v i o,
      run env (disk_rw b write s) =
        Ok tt ((disk_done b write x s) <| k_vdisk := v |> <| k_mmio_in := i |> <| k_mmio_out := o |>)
      ∧ drv_ok v
}.

(** ** The list of buffers *)

(** Each element of [l] points to the next ([n]), and that one back ([p]). *)
Fixpoint linked (n p : nat -> nat) (l : list nat) : Prop :=
  match l with
  | a :: l' => match l' with b :: _ => n a = b ∧ p b = a | [] => True end ∧ linked n p l'
  | [] => True
  end.

Definition nx (bufs : list buf) (i : nat) : nat := default 0%nat (b_next <$> bufs !! i).
Definition pv (bufs : list buf) (i : nat) : nat := default 0%nat (b_prev <$> bufs !! i).

(** [bcache.head.next] and on: the buffers [o], most recently used first. *)
Definition ring (bufs : list buf) (o : list nat) : Prop :=
  linked (nx bufs) (pv bufs) (bcache_head :: o ++ [bcache_head]) ∧ o ≡ₚ seq 0 bcache_head.

Lemma linked_app n p l1 a l2 :
  linked n p (l1 ++ a :: l2) <-> linked n p (l1 ++ [a]) ∧ linked n p (a :: l2).
Proof.
  induction l1 as [|x l1 IH]; [simpl; tauto|].
  destruct l1 as [|y l1]; [simpl; tauto|]. simpl in *. rewrite IH. tauto.
Qed.

Lemma linked_ext n p n' p' l :
  (∀ a, a ∈ removelast l -> n' a = n a) -> (∀ a, a ∈ tail l -> p' a = p a) ->
  linked n p l -> linked n' p' l.
Proof.
  induction l as [|a l IH]; [done|]. intros Hn Hp [H1 H2]. destruct l as [|b l]; [done|].
  split.
  - rewrite (Hn a), (Hp b); [done|simpl; set_solver|simpl; set_solver].
  - apply IH; [|intros c Hc; apply Hp; simpl in *; set_solver|done].
    intros c Hc. apply Hn. change (c ∈ a :: removelast (b :: l)). set_solver.
Qed.

Lemma linked_rev n p l : linked n p l -> linked p n (reverse l).
Proof.
  induction l as [|a l IH]; [done|]. intros [H1 H2]. rewrite reverse_cons.
  destruct l as [|b l]; [done|]. rewrite reverse_cons, <- app_assoc. simpl.
  apply linked_app. rewrite reverse_cons in IH. split; [by apply IH|]. destruct H1. simpl. auto.
Qed.

(** The list without [b]. *)
Lemma linked_remove n p h l1 b l2 :
  NoDup (h :: l1 ++ b :: l2) ->
  linked n p (h :: l1 ++ b :: l2 ++ [h]) ->
  linked (<[p b := n b]> n) (<[n b := p b]> p) (h :: l1 ++ l2 ++ [h])
  ∧ p b ∈ h :: l1 ∧ n b ∈ l2 ++ [h].
Proof.
  intros Hd Hl.
  destruct (exists_last (l := h :: l1)) as (q & x & Eq); [done|].
  destruct (l2 ++ [h]) as [|y r] eqn:Er; [by destruct l2|].
  change (h :: l1 ++ ?t) with ((h :: l1) ++ t) in *. rewrite Eq, <- app_assoc in Hl |- *. simpl in Hl |- *.
  apply linked_app in Hl as [Hq Hx]. destruct Hx as [[Nx Pb] [[Nb Py] Hy]].
  assert (Hxm : x ∈ h :: l1) by (rewrite Eq; set_solver).
  assert (Hym : y ∈ l2 ++ [h]) by (rewrite Er; set_solver).
  apply NoDup_app in Hd as (Hd1 & Hd2 & Hd3). apply NoDup_cons in Hd3 as [Hb Hd3].
  rewrite Nb, Pb. split; [|clear -Hxm Hym Eq; split; set_solver].
  apply linked_app. split; [|split; [split|]].
  - eapply linked_ext; [| |exact Hq].
    + intros a Ha. rewrite fn_lookup_insert_ne; [done|]. intros <-.
      rewrite removelast_last in Ha. rewrite Eq in Hd1. apply NoDup_app in Hd1. set_solver.
    + intros a Ha. rewrite fn_lookup_insert_ne; [done|]. intros <-. rewrite <- Eq in Ha. simpl in Ha.
      apply NoDup_cons in Hd1 as [Hh Hd1]. apply elem_of_app in Hym as [Hym|Hym]; set_solver.
  - apply fn_lookup_insert.
  - apply fn_lookup_insert.
  - eapply linked_ext; [| |exact Hy].
    + intros a Ha. rewrite fn_lookup_insert_ne; [done|]. intros <-.
      rewrite <- Er, removelast_last in Ha. set_solver.
    + intros a Ha. rewrite fn_lookup_insert_ne; [done|]. intros <-. simpl in Ha.
      assert (Hn : NoDup (y :: r)); [|apply NoDup_cons in Hn; tauto].
      rewrite <- Er. apply NoDup_app. split; [done|]. split; [set_solver|apply NoDup_singleton].
Qed.

(** [b], in no list, put at the front: the four assignments of brelse(). *)
Lemma linked_push n p h b l :
  NoDup (b :: h :: l) -> linked n p (h :: l ++ [h]) ->
  linked (<[h := b]> (<[b := n h]> n)) (<[n h := b]> (<[b := h]> p)) (h :: b :: l ++ [h]).
Proof.
  intros Hd Hl. apply NoDup_cons in Hd as [Hb Hd]. apply NoDup_cons in Hd as [Hh Hd].
  destruct (l ++ [h]) as [|y r] eqn:Er; [by destruct l|]. destruct Hl as [[Nh Py] Hy].
  assert (Hym : y ∈ l ++ [h]) by (rewrite Er; set_solver).
  assert (Hyb : y <> b) by (intros ->; apply elem_of_app in Hym; set_solver).
  rewrite Nh. split; [|split; [|]].
  - split; [apply fn_lookup_insert|]. rewrite fn_lookup_insert_ne by done. apply fn_lookup_insert.
  - split; [|apply fn_lookup_insert]. rewrite fn_lookup_insert_ne by set_solver. apply fn_lookup_insert.
  - eapply linked_ext; [| |exact Hy].
    + intros a Ha. rewrite <- Er, removelast_last in Ha.
      rewrite !fn_lookup_insert_ne; [done|set_solver|set_solver].
    + intros a Ha. simpl in Ha.
      assert (Hn : NoDup (y :: r)).
      { rewrite <- Er. apply NoDup_app. split; [done|]. split; [set_solver|apply NoDup_singleton]. }
      assert (Ha' : a ∈ l ++ [h]) by (rewrite Er; set_solver). apply NoDup_cons in Hn as [Hn _].
      rewrite !fn_lookup_insert_ne; [done| |].
      * intros <-. apply elem_of_app in Ha'. set_solver.
      * intros <-. done.
Qed.

(** ** Searching the list *)

Definition find_buf (P : buf -> bool) (bufs : list buf) (o : list nat) : option nat :=
  List.find (λ b, match bufs !! b with Some x => P x | None => false end) o.

(** One round of bget()'s two searches. *)
Definition search (next : buf -> nat) (P : buf -> bool) (b : nat) : K (nat + option nat) :=
  if bool_decide (b = bcache_head) then ret (inr None) else
  x ← getb b;
  if P x then ret (inr (Some b)) else ret (inl (next x)).

Lemma search_ok next P p o a s :
  linked (λ i, default 0%nat (next <$> k_bufs s !! i)) p (a :: o ++ [bcache_head]) ->
  (∀ b, b ∈ o -> b <> bcache_head ∧ (b < length (k_bufs s))%nat) ->
  loop (S (length o)) (search next P) (default 0%nat (next <$> k_bufs s !! a)) s
  = Ok (find_buf P (k_bufs s) o) s.
Proof.
  revert a. induction o as [|b o IH]; intros a [[Na Pb] Hl] Ho.
  - rewrite Na. cbn [loop]. by rewrite (bind_ok _ _ _ (inr None) s) by (unfold search; by rewrite bool_decide_eq_true_2).
  - rewrite Na. destruct (Ho b) as [Hb Hlt]; [set_solver|].
    destruct (lookup_lt_is_Some_2 _ _ Hlt) as [x Hx].
    assert (E : search next P b s = Ok (if P x then inr (Some b) else inl (next x)) s).
    { unfold search. rewrite bool_decide_eq_false_2 by done. krun (getb_ok _ _ _ Hx). by destruct (P x). }
    cbn [length]. remember (S (length o)) as n eqn:En. cbn [loop]. krun E. unfold find_buf. cbn [List.find].
    rewrite Hx. destruct (P x); [done|]. subst n.
    specialize (IH b Hl). rewrite Hx in IH. apply IH. intros c Hc. apply Ho. set_solver.
Qed.

Lemma ring_mem bufs o b : ring bufs o -> b ∈ o <-> (b < bcache_head)%nat.
Proof. intros [_ Hp]. rewrite Hp, elem_of_seq. lia. Qed.

Lemma ring_nodup bufs o : ring bufs o -> NoDup (bcache_head :: o).
Proof.
  intros [_ Hp]. rewrite Hp. apply NoDup_cons. split; [|apply NoDup_seq].
  rewrite elem_of_seq. lia.
Qed.

Lemma find_buf_some P bufs o b :
  find_buf P bufs o = Some b -> ∃ x, b ∈ o ∧ bufs !! b = Some x ∧ P x = true.
Proof.
  intros H. apply List.find_some in H as [Hb H]. apply list_elem_of_In in Hb.
  destruct (bufs !! b) as [x|] eqn:E; [|done]. by exists x.
Qed.

Lemma find_buf_none P bufs o b x :
  find_buf P bufs o = None -> b ∈ o -> bufs !! b = Some x -> P x = false.
Proof.
  intros H Hb Hx. apply list_elem_of_In in Hb. pose proof (List.find_none _ _ H b Hb) as E.
  simpl in E. by rewrite Hx in E.
Qed.

Definition is_block (dev n : Z) (x : buf) : bool := (b_dev x =? dev) && (b_blockno x =? n).

Section search.
Context (s : kstate) (o : list nat) (Hr : ring (k_bufs s) o) (Hlen : length (k_bufs s) = S bcache_head).

Lemma ring_len : length o = bcache_head.
Proof using Hr. destruct Hr as [_ Hp]. rewrite Hp. apply length_seq. Qed.

Lemma ring_range b : b ∈ o -> b <> bcache_head ∧ (b < length (k_bufs s))%nat.
Proof using Hr Hlen. intros Hb. apply (ring_mem _ _ _ Hr) in Hb. lia. Qed.

Lemma bget_cached_ok dev n :
  bget_cached dev n s = Ok (find_buf (is_block dev n) (k_bufs s) o) s.
Proof using Hr Hlen.
  destruct (lookup_lt_is_Some_2 (k_bufs s) bcache_head ltac:(lia)) as [hd Hh].
  unfold bget_cached. krun (getb_ok _ _ _ Hh).
  pose proof (search_ok b_next (is_block dev n) _ o bcache_head s (proj1 Hr) ring_range) as E.
  rewrite ring_len, Hh in E. exact E.
Qed.

Lemma bget_unused_ok :
  bget_unused s = Ok (find_buf (λ x, b_refcnt x =? 0) (k_bufs s) (reverse o)) s.
Proof using Hr Hlen.
  destruct (lookup_lt_is_Some_2 (k_bufs s) bcache_head ltac:(lia)) as [hd Hh].
  unfold bget_unused. krun (getb_ok _ _ _ Hh).
  assert (Hl : linked (pv (k_bufs s)) (nx (k_bufs s)) (bcache_head :: reverse o ++ [bcache_head])).
  { pose proof (linked_rev _ _ _ (proj1 Hr)) as Hl. rewrite reverse_cons, reverse_app in Hl. exact Hl. }
  pose proof (search_ok b_prev (λ x, b_refcnt x =? 0) _ (reverse o) bcache_head s Hl) as E.
  rewrite length_reverse, ring_len, Hh in E. apply E. intros b Hb. apply ring_range. set_solver.
Qed.
End search.

(** ** The view of the cache *)

(** What changes of the state when the cache is used. *)
Record bio_frame (s s' : kstate) : Prop := {
  bf_eq : s' = s <| k_bufs := k_bufs s' |> <| k_slocks := k_slocks s' |>
                 <| k_disk := k_disk s' |> <| k_dhist := k_dhist s' |> <| k_vdisk := k_vdisk s' |>
                 <| k_mmio_in := k_mmio_in s' |> <| k_mmio_out := k_mmio_out s' |>;
  bf_inode : ∀ i, k_slocks s' !! SL_inode i = k_slocks s !! SL_inode i
}.

#[global] Instance bio_frame_refl : Reflexive bio_frame.
Proof. intros s. constructor; [by keq|done]. Qed.

#[global] Instance bio_frame_trans : Transitive bio_frame.
Proof.
  intros s1 s2 s3 [E1 I1] [E2 I2]. constructor; [|intros i; by rewrite I2, I1].
  rewrite E2, E1. by keq.
Qed.

Lemma frame_calm s s' h cp p px : bio_frame s s' -> calm s h cp p px -> calm s' h cp p px.
Proof. intros [E _] Hc. eapply calm_ext; [exact Hc|rewrite E; reflexivity..]. Qed.

Lemma frame_log s s' : bio_frame s s' -> k_log s' = k_log s.
Proof. intros [E _]. by rewrite E. Qed.

Lemma frame_locks s s' : bio_frame s s' -> k_locks s' = k_locks s.
Proof. intros [E _]. by rewrite E. Qed.

Lemma enter_bufs l s f : (enter l s) <| k_bufs ::= f |> = enter l (s <| k_bufs ::= f |>).
Proof. unfold enter, pushed, lock_of. by keq. Qed.

Section view.
Context `{DL : DiskLaw} (dev : Z).

(** Buffer [b] with fields [x], the process holding the buffers [held] (with
    the blocks they cache) and the blocks [pin] being pinned. *)
Record buf_ok (held : gmap nat Z) (pin : gset Z) (V : Z -> list Z) (b : nat) (x : buf) : Prop := {
  bo_disk : b_disk x = 0;
  bo_no : 0 <= b_blockno x < 2 ^ 31;
  bo_valid : b_dev x = dev -> b_valid x = 1 ∧ V (b_blockno x) = b_data x;
  bo_ref : b_refcnt x = (if held !! b then 1 else 0)
                        + (if decide (b_dev x = dev ∧ b_blockno x ∈ pin) then 1 else 0);
  bo_held : ∀ n, held !! b = Some n -> b_dev x = dev ∧ b_blockno x = n
}.

(** [V n] is what bread() of block [n] finds: the contents of its buffer, or of
    the disk, and these agree unless the block is pinned or held. *)
Record bcache (pid : Z) (held : gmap nat Z) (pin : gset Z) (V : Z -> list Z) (s : kstate) : Prop := {
  bc_len : length (k_bufs s) = S bcache_head;
  bc_ring : ∃ o, ring (k_bufs s) o;
  bc_lock : lock_free L_bcache s;
  bc_vlock : lock_free L_vdisk s;
  bc_slock : ∀ b, (b < bcache_head)%nat -> lock_free (L_sleep (SL_buf b)) s;
  bc_drv : drv_ok (k_vdisk s);
  bc_sleep : ∀ b, (b < bcache_head)%nat -> ∃ name, k_slocks s !! SL_buf b =
    Some (if held !! b then Sleeplock 1 name pid else Sleeplock 0 name 0);
  bc_buf : ∀ b x, (b < bcache_head)%nat -> k_bufs s !! b = Some x -> buf_ok held pin V b x;
  bc_uniq : ∀ i j x y, (i < bcache_head)%nat -> (j < bcache_head)%nat ->
    k_bufs s !! i = Some x -> k_bufs s !! j = Some y ->
    b_dev x = dev -> b_dev y = dev -> b_blockno x = b_blockno y -> i = j;
  bc_pin : ∀ n, n ∈ pin -> ∃ b x, (b < bcache_head)%nat ∧ k_bufs s !! b = Some x
    ∧ b_dev x = dev ∧ b_blockno x = n;
  bc_held : ∀ b n, held !! b = Some n -> (b < bcache_head)%nat;
  bc_clean : ∀ n, n ∉ pin -> (∀ b, held !! b <> Some n) -> V n = dblock (k_disk s) n;
  bc_size : ∀ n, length (V n) = Z.to_nat BSIZE
}.

Lemma ring_ext bufs bufs' o :
  (∀ i, b_next <$> bufs' !! i = b_next <$> bufs !! i) ->
  (∀ i, b_prev <$> bufs' !! i = b_prev <$> bufs !! i) -> ring bufs o -> ring bufs' o.
Proof.
  intros Hn Hp [Hl Ho]. split; [|done]. eapply linked_ext; [| |exact Hl].
  - intros a _. unfold nx. by rewrite Hn.
  - intros a _. unfold pv. by rewrite Hp.
Qed.

Lemma ring_upd bufs o b f :
  (∀ x, b_next (f x) = b_next x) -> (∀ x, b_prev (f x) = b_prev x) ->
  ring bufs o -> ring (upd b f bufs) o.
Proof.
  intros Hn Hp. apply ring_ext; intros i; rewrite upd_lookup; case_decide; try done;
    destruct (bufs !! i); simpl; congruence.
Qed.

Section facts.
Context (pid : Z) (held : gmap nat Z) (pin : gset Z) (V : Z -> list Z) (s : kstate).
Context (Hb : bcache pid held pin V s).

Lemma bcache_lookup b : (b < bcache_head)%nat -> ∃ x, k_bufs s !! b = Some x ∧ buf_ok held pin V b x.
Proof using Hb.
  intros Hlt. destruct (lookup_lt_is_Some_2 (k_bufs s) b) as [x Hx].
  - rewrite (bc_len _ _ _ _ _ Hb). lia.
  - exists x. split; [done|]. by apply (bc_buf _ _ _ _ _ Hb).
Qed.

Lemma held_lookup b n :
  held !! b = Some n ->
  ∃ x, (b < bcache_head)%nat ∧ k_bufs s !! b = Some x ∧ buf_ok held pin V b x
    ∧ b_dev x = dev ∧ b_blockno x = n ∧ b_data x = V n.
Proof using Hb.
  intros Hh. pose proof (bc_held _ _ _ _ _ Hb b n Hh) as Hlt.
  destruct (bcache_lookup b Hlt) as (x & Hx & Ho). exists x. destruct (bo_held _ _ _ _ _ Ho n Hh) as [Hd Hn].
  destruct (bo_valid _ _ _ _ _ Ho Hd) as [_ Hv]. rewrite <- Hn. by rewrite Hv.
Qed.

(** With fewer than NBUF buffers held or pinned, one is unused. *)
Lemma unused_exists :
  (size held + size pin < bcache_head)%nat ->
  ∃ b x, (b < bcache_head)%nat ∧ k_bufs s !! b = Some x ∧ b_refcnt x = 0.
Proof using Hb.
  intros Hs. destruct (decide (Exists (λ b, (b_refcnt <$> k_bufs s !! b) = Some 0) (seq 0 bcache_head)))
    as [He|He].
  { apply Exists_exists in He as (b & Hin & E). apply elem_of_seq in Hin.
    apply fmap_Some in E as (x & Hx & E). exists b, x. split; [lia|]. done. }
  exfalso. apply not_Exists_Forall in He; [|intros; apply _].
  set (no := λ b, default 0 (b_blockno <$> k_bufs s !! b)).
  set (q := filter (λ b, held !! b = None) (seq 0 bcache_head)).
  assert (Hq : ∀ b, b ∈ q -> ∃ x, (b < bcache_head)%nat ∧ k_bufs s !! b = Some x ∧ b_dev x = dev
    ∧ b_blockno x ∈ pin ∧ no b = b_blockno x).
  { intros b Hbq. apply list_elem_of_filter in Hbq as [Hn Hin]. apply elem_of_seq in Hin as Hlt.
    destruct (bcache_lookup b ltac:(lia)) as (x & Hx & Ho). exists x. split; [lia|]. split; [done|].
    rewrite Forall_forall in He. specialize (He b Hin). simpl in He. rewrite Hx in He. simpl in He.
    pose proof (bo_ref _ _ _ _ _ Ho) as Er. rewrite Hn in Er. case_decide as Hd.
    - destruct Hd. split; [done|]. split; [done|]. unfold no. by rewrite Hx.
    - exfalso. apply He. f_equal. lia. }
  assert (H1 : (length q <= size pin)%nat).
  { rewrite <- (length_fmap no). change (size pin) with (length (elements pin)).
    apply submseteq_length, NoDup_submseteq.
    - apply NoDup_fmap_2_strong; [|apply NoDup_filter, NoDup_seq].
      intros i j Hi Hj E. destruct (Hq i Hi) as (x & ? & Hx & Hxd & _ & Ex).
      destruct (Hq j Hj) as (y & ? & Hy & Hyd & _ & Ey).
      apply (bc_uniq _ _ _ _ _ Hb i j x y); try done. congruence.
    - intros n Hn. apply list_elem_of_fmap in Hn as (b & -> & Hbq).
      destruct (Hq b Hbq) as (x & ? & Hx & Hxd & Hp & Ex). rewrite Ex. by apply elem_of_elements. }
  assert (H2 : (bcache_head <= size held + length q)%nat).
  { rewrite <- (length_seq bcache_head 0). change (size held) with (size held).
    rewrite <- (size_dom held). change (size (dom held)) with (length (elements (dom held))).
    rewrite <- length_app. apply submseteq_length, NoDup_submseteq; [apply NoDup_seq|].
    intros b Hin. apply elem_of_app. destruct (held !! b) eqn:E.
    - left. apply elem_of_elements, elem_of_dom. by rewrite E.
    - right. by apply list_elem_of_filter. }
  lia.
Qed.
End facts.
End view.

(** ** The functions on the view *)
Section ops.
Context `{Fuel} (Hfuel : (1 <= fuel)%nat).
Context `{DL : DiskLaw}.
Context (dev : Z) (h : hart) (cp : cpu) (p : nat) (px : proc).
Notation cache := (bcache dev (p_pid px)).

(** The end of both branches of bget(). *)
Lemma take_buf s b x f name :
  calm s h cp p px -> lock_free L_bcache s -> lock_free (L_sleep (SL_buf b)) s ->
  k_bufs s !! b = Some x -> k_slocks s !! SL_buf b = Some (Sleeplock 0 name 0) ->
  (updb b f ;; release L_bcache ;; acquiresleep (SL_buf b) ;; ret b) (enter L_bcache s)
  = Ok b (s <| k_bufs ::= upd b f |> <| k_slocks ::= <[SL_buf b := Sleeplock 1 name (p_pid px)]> |>).
Proof using Hfuel.
  intros Hc Hl Hsl Hx Hs. set (s1 := s <| k_bufs ::= upd b f |>).
  krun (updb_ok b x f (enter L_bcache s) Hx). rewrite enter_bufs.
  assert (Hc1 : calm s1 h cp p px) by (by eapply calm_ext).
  krun (release_ok L_bcache s1 h cp (c_quiet _ _ _ _ _ Hc1) (lock_free_ext _ _ s1 Hl eq_refl)).
  assert (Hs1 : k_slocks s1 !! SL_buf b = Some (Sleeplock 0 name 0)) by exact Hs.
  by krun (acquiresleep_ok Hfuel (SL_buf b) s1 h cp p px name 0 Hc1 (lock_free_ext _ _ s1 Hsl eq_refl) Hs1).
Qed.

Lemma sleep_insert (sl : gmap slockid sleeplock) (held : gmap nat Z) b n name pid c :
  (∃ name, sl !! SL_buf c = Some (if held !! c then Sleeplock 1 name pid else Sleeplock 0 name 0)) ->
  ∃ name', <[SL_buf b := Sleeplock 1 name pid]> sl !! SL_buf c =
    Some (if <[b := n]> held !! c then Sleeplock 1 name' pid else Sleeplock 0 name' 0).
Proof.
  intros [nm Hn]. destruct (decide (b = c)) as [->|Hne].
  - exists name. by rewrite !lookup_insert_eq.
  - exists nm. rewrite !lookup_insert_ne by congruence. done.
Qed.

Lemma held_none held pin V s b x n :
  cache held pin V s -> (∀ b, held !! b <> Some n) -> (b < bcache_head)%nat ->
  k_bufs s !! b = Some x -> b_blockno x = n -> held !! b = None.
Proof.
  intros Hb Hn Hlt Hx En. destruct (held !! b) as [m|] eqn:E; [|done].
  destruct (held_lookup _ _ _ _ _ _ Hb b m E) as (y & _ & Hy & _ & _ & Em & _).
  exfalso. apply (Hn b). congruence.
Qed.

(** One buffer [b] changes from [x] to [f x], its place in the list excepted. *)
Lemma cache_upd held pin V s held' pin' V' s' b x f :
  cache held pin V s -> (b < bcache_head)%nat -> k_bufs s !! b = Some x ->
  k_bufs s' = upd b f (k_bufs s) ->
  (∀ x, b_next (f x) = b_next x) -> (∀ x, b_prev (f x) = b_prev x) ->
  k_locks s' = k_locks s -> drv_ok (k_vdisk s') ->
  (∀ c, (c < bcache_head)%nat -> ∃ name, k_slocks s' !! SL_buf c =
    Some (if held' !! c then Sleeplock 1 name (p_pid px) else Sleeplock 0 name 0)) ->
  buf_ok dev held' pin' V' b (f x) ->
  (∀ c y, c <> b -> (c < bcache_head)%nat -> k_bufs s !! c = Some y ->
    buf_ok dev held' pin' V' c y ∧ (b_dev y = dev -> b_dev (f x) = dev -> b_blockno y <> b_blockno (f x))) ->
  (∀ n, n ∈ pin' -> (b_dev (f x) = dev ∧ b_blockno (f x) = n) ∨ (n ∈ pin ∧ ¬ (b_dev x = dev ∧ b_blockno x = n))) ->
  (∀ c m, held' !! c = Some m -> (c < bcache_head)%nat) ->
  (∀ n, n ∉ pin' -> (∀ b, held' !! b <> Some n) -> V' n = dblock (k_disk s') n) ->
  (∀ n, length (V' n) = Z.to_nat BSIZE) ->
  cache held' pin' V' s'.
Proof.
  intros Hb Hlt Hx Es Hnx Hpv El Hdrv Hsl Hob Hoc Hpin Hheld Hclean Hsz.
  assert (Hx' : k_bufs s' !! b = Some (f x)) by (rewrite Es, upd_lookup, decide_True by done; by rewrite Hx).
  assert (Hne : ∀ c, c <> b -> k_bufs s' !! c = k_bufs s !! c)
    by (intros c Hcb; rewrite Es, upd_lookup; by rewrite decide_False).
  destruct Hb as [B1 [o B2] B3 B4 B5 B6 B7 B8 B9 B10 B11 B12 B13].
  constructor; try done.
  - by rewrite Es, length_upd.
  - exists o. rewrite Es. by apply ring_upd.
  - by eapply lock_free_ext.
  - by eapply lock_free_ext.
  - intros c Hc. eapply lock_free_ext; [by apply B5|done].
  - intros c y Hc Hy. destruct (decide (c = b)) as [->|Hcb].
    + rewrite Hx' in Hy. by injection Hy as <-.
    + rewrite Hne in Hy by done. by apply Hoc.
  - intros i j u v Hi Hj Hu Hv Du Dv En.
    destruct (decide (i = b)) as [->|Hib], (decide (j = b)) as [->|Hjb]; [done|..].
    + rewrite Hx' in Hu. injection Hu as <-. rewrite Hne in Hv by done.
      exfalso. by eapply (proj2 (Hoc j v Hjb Hj Hv)).
    + rewrite Hx' in Hv. injection Hv as <-. rewrite Hne in Hu by done.
      exfalso. by eapply (proj2 (Hoc i u Hib Hi Hu)).
    + rewrite Hne in Hu, Hv by done. by eapply B9.
  - intros n Hn. destruct (Hpin n Hn) as [[Hd Hno]|[Hp Hnx']]; [by exists b, (f x)|].
    destruct (B10 n Hp) as (c & y & Hc & Hy & Hyd & Hyn). exists c, y.
    rewrite Hne; [done|]. intros ->. assert (y = x) as -> by congruence. auto.
Qed.

(** bread() of a block that has a buffer. *)
Lemma bread_hit held pin V s b x n o :
  calm s h cp p px -> cache held pin V s -> (∀ b, held !! b <> Some n) ->
  ring (k_bufs s) o -> find_buf (is_block dev n) (k_bufs s) o = Some b -> k_bufs s !! b = Some x ->
  ∃ s', run env (bread dev n s) = Ok b s' ∧ held !! b = None
    ∧ cache (<[b := n]> held) pin V s' ∧ bio_frame s s'
    ∧ k_disk s' = k_disk s ∧ k_dhist s' = k_dhist s.
Proof using Hfuel.
  intros Hc Hb Hn Hr Hf Hx. pose proof (c_quiet _ _ _ _ _ Hc) as Hq.
  apply find_buf_some in Hf as Hf'. destruct Hf' as (y & Hin & Hy & Hm).
  assert (y = x) as -> by congruence. apply (ring_mem _ _ _ Hr) in Hin as Hlt.
  unfold is_block in Hm. zb.
  pose proof (held_none _ _ _ _ _ _ _ Hb Hn Hlt Hx ltac:(done)) as Hhn.
  destruct (bc_sleep _ _ _ _ _ _ Hb b Hlt) as [name Hsl]. rewrite Hhn in Hsl.
  pose proof (bc_buf _ _ _ _ _ _ Hb b x Hlt Hx) as Ho.
  destruct (bo_valid _ _ _ _ _ _ Ho ltac:(done)) as [Hv Hd].
  set (f := λ x, x <| b_refcnt ::= λ n, u32 (n + 1) |>).
  set (s' := s <| k_bufs ::= upd b f |> <| k_slocks ::= <[SL_buf b := Sleeplock 1 name (p_pid px)]> |>).
  exists s'.
  assert (Hx' : k_bufs s' !! b = Some (f x)).
  { subst s'. simpl. rewrite upd_lookup, decide_True by done. by rewrite Hx. }
  split; [|split; [done|split; [|split; [|done]]]].
  - unfold bread. assert (Eg : bget dev n s = Ok b s').
    { unfold bget. krun (acquire_ok Hfuel L_bcache s h cp Hq (bc_lock _ _ _ _ _ _ Hb)).
      krun (bget_cached_ok (enter L_bcache s) o Hr (bc_len _ _ _ _ _ _ Hb) dev n).
      replace (find_buf _ (k_bufs (enter L_bcache s)) o) with (Some b) by (symmetry; exact Hf).
      eapply take_buf; [done|exact (bc_lock _ _ _ _ _ _ Hb)|by apply (bc_slock _ _ _ _ _ _ Hb)|exact Hx|exact Hsl]. }
    krun Eg. krun (getb_ok _ _ _ Hx'). simpl. rewrite Hv. done.
  - eapply (cache_upd held pin V s (<[b := n]> held) pin V s' b x f Hb Hlt Hx); try done.
    + apply (bc_drv _ _ _ _ _ _ Hb).
    + intros c Hcl. apply sleep_insert. by apply (bc_sleep _ _ _ _ _ _ Hb).
    + destruct Ho as [O1 O2 O3 O4 O5]. constructor; try done.
      * subst f. simpl. rewrite lookup_insert_eq. rewrite Hhn in O4. rewrite O4.
        rewrite u32_small by (case_decide; lia). case_decide; lia.
      * rewrite lookup_insert_eq. by intros m [= <-].
    + intros c y Hcb Hcl Hyc. destruct (bc_buf _ _ _ _ _ _ Hb c y Hcl Hyc). split.
      * constructor; try done; by rewrite lookup_insert_ne by done.
      * intros Dy _ En. apply Hcb. by eapply (bc_uniq _ _ _ _ _ _ Hb c b y x).
    + intros m Hm. destruct (decide (b_blockno x = m)); [left; done|right]. split; [done|]. tauto.
    + intros c m. destruct (decide (b = c)) as [<-|Hcb]; [done|]. rewrite lookup_insert_ne by done.
      apply (bc_held _ _ _ _ _ _ Hb).
    + intros m Hm' Hh. apply (bc_clean _ _ _ _ _ _ Hb); [done|]. intros c Hcm. apply (Hh c).
      destruct (decide (b = c)) as [<-|Hcb]; [congruence|]. by rewrite lookup_insert_ne.
    + apply (bc_size _ _ _ _ _ _ Hb).
  - constructor; [by keq|]. intros i. subst s'. simpl. by rewrite lookup_insert_ne.
Qed.

(** bread() of a block that has none: the least recently used unused buffer is
    taken and filled from the disk. *)
Lemma bread_miss held pin V s n o :
  calm s h cp p px -> cache held pin V s -> (∀ b, held !! b <> Some n) -> 0 <= n < 2 ^ 31 ->
  (size held + size pin < bcache_head)%nat ->
  ring (k_bufs s) o -> find_buf (is_block dev n) (k_bufs s) o = None ->
  ∃ b s', run env (bread dev n s) = Ok b s' ∧ held !! b = None
    ∧ cache (<[b := n]> held) pin V s' ∧ bio_frame s s'
    ∧ k_disk s' = k_disk s ∧ k_dhist s' = k_dhist s.
Proof using Hfuel.
  intros Hc Hb Hn Hno Hsz Hr Hf. pose proof (c_quiet _ _ _ _ _ Hc) as Hq.
  assert (Hmiss : ∀ c y, (c < bcache_head)%nat -> k_bufs s !! c = Some y -> b_dev y = dev -> b_blockno y <> n).
  { intros c y Hcl Hyc Dy En. apply (ring_mem _ _ _ Hr) in Hcl.
    pose proof (find_buf_none _ _ _ _ _ Hf Hcl Hyc) as E. unfold is_block in E. rewrite Dy, En in E.
    by rewrite !Z.eqb_refl in E. }
  destruct (find_buf (λ x, b_refcnt x =? 0) (k_bufs s) (reverse o)) as [b|] eqn:Hu.
  2:{ exfalso. destruct (unused_exists _ _ _ _ _ _ Hb Hsz) as (c & y & Hcl & Hyc & E0).
      apply (ring_mem _ _ _ Hr) in Hcl.
      pose proof (find_buf_none _ _ _ c y Hu ltac:(set_solver) Hyc) as E. cbv beta in E. rewrite E0 in E. done. }
  apply find_buf_some in Hu as Hu'. destruct Hu' as (x & Hin & Hx & Hrc).
  apply elem_of_reverse, (ring_mem _ _ _ Hr) in Hin as Hlt. zb.
  pose proof (bc_buf _ _ _ _ _ _ Hb b x Hlt Hx) as Ho. pose proof (bo_ref _ _ _ _ _ _ Ho) as Er.
  assert (Hhn : held !! b = None) by (destruct (held !! b); [case_decide; lia|done]).
  assert (Hnp : ¬ (b_dev x = dev ∧ b_blockno x ∈ pin)) by (rewrite Hhn in Er; case_decide; [lia|done]).
  assert (Hpn : n ∉ pin).
  { intros Hp. destruct (bc_pin _ _ _ _ _ _ Hb n Hp) as (c & y & Hcl & Hyc & Hyd & Hyn).
    by apply (Hmiss c y). }
  destruct (bc_sleep _ _ _ _ _ _ Hb b Hlt) as [name Hsl]. rewrite Hhn in Hsl.
  set (f1 := λ x, x <| b_dev := dev |> <| b_blockno := n |> <| b_valid := 0 |> <| b_refcnt := 1 |>).
  set (s1 := s <| k_bufs ::= upd b f1 |> <| k_slocks ::= <[SL_buf b := Sleeplock 1 name (p_pid px)]> |>).
  assert (Hx1 : k_bufs s1 !! b = Some (f1 x)).
  { subst s1. simpl. rewrite upd_lookup, decide_True by done. by rewrite Hx. }
  assert (Eg : bget dev n s = Ok b s1).
  { unfold bget. krun (acquire_ok Hfuel L_bcache s h cp Hq (bc_lock _ _ _ _ _ _ Hb)).
    krun (bget_cached_ok (enter L_bcache s) o Hr (bc_len _ _ _ _ _ _ Hb) dev n).
    replace (find_buf _ (k_bufs (enter L_bcache s)) o) with (@None nat) by (symmetry; exact Hf).
    krun (bget_unused_ok (enter L_bcache s) o Hr (bc_len _ _ _ _ _ _ Hb)).
    replace (find_buf _ (k_bufs (enter L_bcache s)) _) with (Some b) by (symmetry; exact Hu).
    eapply take_buf; [done|exact (bc_lock _ _ _ _ _ _ Hb)|by apply (bc_slock _ _ _ _ _ _ Hb)|exact Hx|exact Hsl]. }
  assert (Hc1 : calm s1 h cp p px) by (by eapply calm_ext).
  destruct (disk_rw_ok b false s1 h cp p px (f1 x)) as (v & i & ou & Ed & Hv); try done.
  { eapply lock_free_ext; [apply (bc_vlock _ _ _ _ _ _ Hb)|done]. }
  { apply (bc_drv _ _ _ _ _ _ Hb). }
  { apply (bo_disk _ _ _ _ _ _ Ho). }
  set (s2 := _ <| k_mmio_out := ou |>) in Ed.
  set (f2 := λ y, y <| b_data := dblock (k_disk s) n |>).
  assert (Hx2 : k_bufs s2 !! b = Some (f2 (f1 x))).
  { subst s2. simpl. rewrite upd_lookup, decide_True by done. rewrite upd_lookup, decide_True by done. by rewrite Hx. }
  set (f3 := λ y, y <| b_valid := 1 |>). set (s3 := s2 <| k_bufs ::= upd b f3 |>).
  exists b, s3. split; [|split; [done|split; [|split; [|done]]]].
  - unfold bread. krun Eg. krun (getb_ok _ _ _ Hx1). cbn [b_valid f1 update]. simpl negb. cbn [when].
    rewrite (run_bind env _ _ _ tt s3); [done|].
    rewrite (run_bind env _ _ _ tt s2 Ed). exact (f_equal (run env) (updb_ok b _ f3 s2 Hx2)).
  - eapply (cache_upd held pin V s (<[b := n]> held) pin V s3 b x (λ y, f3 (f2 (f1 y))) Hb Hlt Hx); try done.
    + subst s3 s2 s1. simpl. by rewrite !upd_upd.
    + intros c Hcl. apply sleep_insert. by apply (bc_sleep _ _ _ _ _ _ Hb).
    + assert (Ev : V n = dblock (k_disk s) n) by (by apply (bc_clean _ _ _ _ _ _ Hb)).
      constructor; try done.
      * apply (bo_disk _ _ _ _ _ _ Ho).
      * simpl. rewrite lookup_insert_eq. rewrite decide_False; [lia|]. intros [_ ?]. done.
      * rewrite lookup_insert_eq. by intros m [= <-].
    + intros c y Hcb Hcl Hyc. destruct (bc_buf _ _ _ _ _ _ Hb c y Hcl Hyc). split.
      * constructor; try done; by rewrite lookup_insert_ne by done.
      * intros Dy _. by apply (Hmiss c y).
    + intros m Hm. right. split; [done|]. intros [Dx <-]. auto.
    + intros c m. destruct (decide (b = c)) as [<-|Hcb]; [done|]. rewrite lookup_insert_ne by done.
      apply (bc_held _ _ _ _ _ _ Hb).
    + intros m Hm' Hh. apply (bc_clean _ _ _ _ _ _ Hb); [done|]. intros c Hcm. apply (Hh c).
      destruct (decide (b = c)) as [<-|Hcb]; [congruence|]. by rewrite lookup_insert_ne.
    + apply (bc_size _ _ _ _ _ _ Hb).
  - constructor; [subst s3 s2 s1; by keq|]. intros k. subst s3 s2 s1. simpl. by rewrite lookup_insert_ne.
Qed.

Lemma bread_ok held pin V s n :
  calm s h cp p px -> cache held pin V s -> (∀ b, held !! b <> Some n) -> 0 <= n < 2 ^ 31 ->
  (n ∈ pin ∨ size held + size pin < bcache_head)%nat ->
  ∃ b s', run env (bread dev n s) = Ok b s' ∧ held !! b = None
    ∧ cache (<[b := n]> held) pin V s' ∧ bio_frame s s'
    ∧ k_disk s' = k_disk s ∧ k_dhist s' = k_dhist s.
Proof using Hfuel.
  intros Hc Hb Hn Hno Hroom. destruct (bc_ring _ _ _ _ _ _ Hb) as [o Hr].
  destruct (find_buf (is_block dev n) (k_bufs s) o) as [b|] eqn:Hf.
  - exists b. apply find_buf_some in Hf as Hf'. destruct Hf' as (x & _ & Hx & _). by eapply bread_hit.
  - destruct Hroom as [Hp|Hroom]; [|by eapply bread_miss].
    exfalso. destruct (bc_pin _ _ _ _ _ _ Hb n Hp) as (c & y & Hcl & Hyc & Hyd & Hyn).
    apply (ring_mem _ _ _ Hr) in Hcl. pose proof (find_buf_none _ _ _ _ _ Hf Hcl Hyc) as E.
    unfold is_block in E. rewrite Hyd, Hyn in E. by rewrite !Z.eqb_refl in E.
Qed.

Lemma bdata_ok held pin V s b n :
  cache held pin V s -> held !! b = Some n -> bdata b s = Ok (V n) s.
Proof.
  intros Hb Hh. destruct (held_lookup _ _ _ _ _ _ Hb b n Hh) as (x & _ & Hx & _ & _ & _ & Ed).
  unfold bdata. krun (getb_ok _ _ _ Hx). by rewrite Ed.
Qed.

(** Another buffer than the one that holds block [n] has another block. *)
Lemma other_block held pin V s b x c y :
  cache held pin V s -> (b < bcache_head)%nat -> k_bufs s !! b = Some x -> b_dev x = dev ->
  c <> b -> (c < bcache_head)%nat -> k_bufs s !! c = Some y -> b_dev y = dev ->
  b_blockno y <> b_blockno x.
Proof. intros Hb ??? Hne ??? E. apply Hne. by eapply (bc_uniq _ _ _ _ _ _ Hb c b y x). Qed.

Lemma set_bdata_ok held pin V s b n f :
  cache held pin V s -> held !! b = Some n -> length (f (V n)) = Z.to_nat BSIZE ->
  ∃ s', set_bdata b f s = Ok tt s' ∧ cache held pin (<[n := f (V n)]> V) s' ∧ bio_frame s s'
    ∧ k_disk s' = k_disk s ∧ k_dhist s' = k_dhist s.
Proof.
  intros Hb Hh Hl. destruct (held_lookup _ _ _ _ _ _ Hb b n Hh) as (x & Hlt & Hx & Ho & Dx & Nx & Ed).
  eexists. split; [exact (updb_ok b x _ s Hx)|]. set (s' := s <| k_bufs ::= _ |>).
  split; [|split; [constructor; [by keq|done]|done]].
  eapply (cache_upd held pin V s held pin _ s' b x _ Hb Hlt Hx eq_refl); try done.
  - apply (bc_drv _ _ _ _ _ _ Hb).
  - apply (bc_sleep _ _ _ _ _ _ Hb).
  - destruct Ho as [O1 O2 O3 O4 O5]. constructor; try done. intros _. split; [by apply O3|].
    simpl. rewrite Nx, fn_lookup_insert. by rewrite Ed.
  - intros c y Hcb Hcl Hyc. destruct (bc_buf _ _ _ _ _ _ Hb c y Hcl Hyc) as [O1 O2 O3 O4 O5]. split.
    + constructor; try done. intros Dy. split; [by apply O3|].
      rewrite fn_lookup_insert_ne; [by apply O3|]. intros E. rewrite <- Nx in E. symmetry in E.
      by eapply (other_block _ _ _ _ b x c y Hb).
    + intros Dy _. by apply (other_block _ _ _ _ b x c y Hb).
  - intros m Hm. destruct (decide (b_blockno x = m)); [left; done|right]. split; [done|]. tauto.
  - apply (bc_held _ _ _ _ _ _ Hb).
  - intros m Hm Hhm. rewrite fn_lookup_insert_ne; [by apply (bc_clean _ _ _ _ _ _ Hb)|].
    intros ->. by apply (Hhm b).
  - intros m. destruct (decide (n = m)) as [->|]; [by rewrite fn_lookup_insert|].
    rewrite fn_lookup_insert_ne by done. apply (bc_size _ _ _ _ _ _ Hb).
Qed.

Lemma holding_held held pin V s b n :
  calm s h cp p px -> cache held pin V s -> held !! b = Some n ->
  holdingsleep (SL_buf b) s = Ok true s.
Proof using Hfuel.
  intros Hc Hb Hh. pose proof (bc_held _ _ _ _ _ _ Hb b n Hh) as Hlt.
  destruct (bc_sleep _ _ _ _ _ _ Hb b Hlt) as [name Hsl]. rewrite Hh in Hsl.
  rewrite (holdingsleep_ok Hfuel _ s h cp p px _ Hc (bc_slock _ _ _ _ _ _ Hb b Hlt) Hsl).
  cbn [sl_locked sl_pid]. by rewrite Z.eqb_refl.
Qed.

Lemma bwrite_ok held pin V s b n :
  calm s h cp p px -> cache held pin V s -> held !! b = Some n ->
  ∃ s', run env (bwrite b s) = Ok tt s' ∧ cache held pin V s' ∧ bio_frame s s'
    ∧ k_disk s' = <[n := V n]> (k_disk s) ∧ k_dhist s' = k_dhist s ++ [(n, V n)].
Proof using Hfuel.
  intros Hc Hb Hh. destruct (held_lookup _ _ _ _ _ _ Hb b n Hh) as (x & Hlt & Hx & Ho & Dx & Nx & Ed).
  unfold bwrite. krun (holding_held _ _ _ _ _ _ Hc Hb Hh). cbn [negb].
  destruct (disk_rw_ok b true s h cp p px x) as (v & i & ou & Er & Hv); try done.
  { apply (bc_vlock _ _ _ _ _ _ Hb). }
  { apply (bc_drv _ _ _ _ _ _ Hb). }
  { apply (bo_disk _ _ _ _ _ _ Ho). }
  { apply (bo_no _ _ _ _ _ _ Ho). }
  set (s' := _ <| k_mmio_out := ou |>) in Er. exists s'. split; [exact Er|].
  assert (Edk : k_disk s' = <[n := V n]> (k_disk s)) by (subst s'; simpl; by rewrite Nx, Ed).
  split; [|split; [constructor; [subst s'; by keq|done]|split; [done|subst s'; simpl; by rewrite Nx, Ed]]].
  eapply (cache_upd held pin V s held pin V s' b x (λ y, y) Hb Hlt Hx); try done.
  - subst s'. simpl. symmetry. by eapply upd_id.
  - apply (bc_sleep _ _ _ _ _ _ Hb).
  - intros c y Hcb Hcl Hyc. split; [by apply (bc_buf _ _ _ _ _ _ Hb)|].
    intros Dy _. by apply (other_block _ _ _ _ b x c y Hb).
  - intros m Hm. destruct (decide (b_blockno x = m)); [left; done|right]. split; [done|]. tauto.
  - apply (bc_held _ _ _ _ _ _ Hb).
  - intros m Hm Hhm. rewrite Edk. unfold dblock. rewrite lookup_insert_ne.
    + by apply (bc_clean _ _ _ _ _ _ Hb).
    + intros <-. by apply (Hhm b).
  - apply (bc_size _ _ _ _ _ _ Hb).
Qed.

(** bpin() and bunpin(): a critical section that changes one reference count. *)
Lemma bcache_section s b x f :
  quiet s h cp -> lock_free L_bcache s -> k_bufs s !! b = Some x ->
  (acquire L_bcache ;; updb b f ;; release L_bcache) s = Ok tt (s <| k_bufs ::= upd b f |>).
Proof using Hfuel.
  intros Hq Hl Hx. krun (acquire_ok Hfuel L_bcache s h cp Hq Hl).
  krun (updb_ok b x f (enter L_bcache s) Hx). rewrite enter_bufs.
  eapply release_ok; [by eapply quiet_ext|by eapply lock_free_ext].
Qed.

Lemma bpin_view held pin V s b n :
  cache held pin V s -> held !! b = Some n -> n ∉ pin ->
  cache held ({[n]} ∪ pin) V (s <| k_bufs ::= upd b (λ x, x <| b_refcnt ::= λ n, u32 (n + 1) |>) |>).
Proof.
  intros Hb Hh Hp. destruct (held_lookup _ _ _ _ _ _ Hb b n Hh) as (x & Hlt & Hx & Ho & Dx & Nx & Ed).
  set (s' := s <| k_bufs ::= _ |>).
  eapply (cache_upd held pin V s held _ V s' b x _ Hb Hlt Hx eq_refl); try done.
  - apply (bc_drv _ _ _ _ _ _ Hb).
  - apply (bc_sleep _ _ _ _ _ _ Hb).
  - destruct Ho as [O1 O2 O3 O4 O5]. constructor; try done. simpl. rewrite O4, Hh, Nx.
    rewrite decide_False by tauto. rewrite decide_True by (split; [done|set_solver]).
    by rewrite u32_small by lia.
  - intros c y Hcb Hcl Hyc. destruct (bc_buf _ _ _ _ _ _ Hb c y Hcl Hyc) as [O1 O2 O3 O4 O5].
    assert (Hob : b_dev y = dev -> b_blockno y <> n).
    { intros Dy. rewrite <- Nx. by apply (other_block _ _ _ _ b x c y Hb). }
    split; [|intros Dy _; rewrite <- Nx in Hob; by apply Hob].
    constructor; try done. rewrite O4. f_equal. repeat case_decide; try done; set_solver.
  - intros m Hm. destruct (decide (b_blockno x = m)); [left; done|right]. split; [set_solver|tauto].
  - apply (bc_held _ _ _ _ _ _ Hb).
  - intros m Hm Hhm. apply (bc_clean _ _ _ _ _ _ Hb); [set_solver|done].
  - apply (bc_size _ _ _ _ _ _ Hb).
Qed.

Lemma bpin_ok held pin V s b n :
  calm s h cp p px -> cache held pin V s -> held !! b = Some n -> n ∉ pin ->
  ∃ s', bpin b s = Ok tt s' ∧ cache held ({[n]} ∪ pin) V s' ∧ bio_frame s s'
    ∧ k_disk s' = k_disk s ∧ k_dhist s' = k_dhist s.
Proof using Hfuel.
  intros Hc Hb Hh Hp. destruct (held_lookup _ _ _ _ _ _ Hb b n Hh) as (x & _ & Hx & _).
  eexists. split; [exact (bcache_section s b x _ (c_quiet _ _ _ _ _ Hc) (bc_lock _ _ _ _ _ _ Hb) Hx)|].
  split; [by apply bpin_view|]. split; [constructor; [by keq|done]|done].
Qed.

Lemma bunpin_ok held pin V s b n :
  calm s h cp p px -> cache held pin V s -> held !! b = Some n -> n ∈ pin ->
  ∃ s', bunpin b s = Ok tt s' ∧ cache held (pin ∖ {[n]}) V s' ∧ bio_frame s s'
    ∧ k_disk s' = k_disk s ∧ k_dhist s' = k_dhist s.
Proof using Hfuel.
  intros Hc Hb Hh Hp. destruct (held_lookup _ _ _ _ _ _ Hb b n Hh) as (x & Hlt & Hx & Ho & Dx & Nx & Ed).
  eexists. split; [exact (bcache_section s b x _ (c_quiet _ _ _ _ _ Hc) (bc_lock _ _ _ _ _ _ Hb) Hx)|].
  set (s' := s <| k_bufs ::= _ |>). split; [|split; [constructor; [by keq|done]|done]].
  eapply (cache_upd held pin V s held _ V s' b x _ Hb Hlt Hx eq_refl); try done.
  - apply (bc_drv _ _ _ _ _ _ Hb).
  - apply (bc_sleep _ _ _ _ _ _ Hb).
  - destruct Ho as [O1 O2 O3 O4 O5]. constructor; try done. simpl. rewrite O4, Hh, Nx.
    rewrite decide_True by tauto. rewrite decide_False by set_solver.
    by rewrite u32_small by lia.
  - intros c y Hcb Hcl Hyc. destruct (bc_buf _ _ _ _ _ _ Hb c y Hcl Hyc) as [O1 O2 O3 O4 O5].
    assert (Hob : b_dev y = dev -> b_blockno y <> n).
    { intros Dy. rewrite <- Nx. by apply (other_block _ _ _ _ b x c y Hb). }
    split; [|intros Dy _; rewrite <- Nx in Hob; by apply Hob].
    constructor; try done. rewrite O4. f_equal. repeat case_decide; try done; set_solver.
  - intros m Hm. destruct (decide (b_blockno x = m)); [left; done|right]. split; [set_solver|tauto].
  - apply (bc_held _ _ _ _ _ _ Hb).
  - intros m Hm Hhm. apply (bc_clean _ _ _ _ _ _ Hb); [|done]. intros Hmp.
    destruct (decide (m = n)) as [->|]; [by apply (Hhm b)|set_solver].
  - apply (bc_size _ _ _ _ _ _ Hb).
Qed.

(** *** brelse() *)

(** The same buffers, in another order. *)
Definition reordered (bufs bufs' : list buf) : Prop :=
  ∀ i, (λ x, x <| b_next := 0%nat |> <| b_prev := 0%nat |>) <$> bufs' !! i =
       (λ x, x <| b_next := 0%nat |> <| b_prev := 0%nat |>) <$> bufs !! i.

Lemma reordered_lookup bufs bufs' i y :
  reordered bufs bufs' -> bufs' !! i = Some y ->
  ∃ x, bufs !! i = Some x ∧ b_valid x = b_valid y ∧ b_disk x = b_disk y ∧ b_dev x = b_dev y
    ∧ b_blockno x = b_blockno y ∧ b_refcnt x = b_refcnt y ∧ b_data x = b_data y.
Proof.
  intros Hr Hy. specialize (Hr i). rewrite Hy in Hr. destruct (bufs !! i) as [x|]; [|done].
  exists x. destruct x, y. cbv [fmap option_fmap option_map update] in Hr. simpl in Hr.
  injection Hr as E1 E2 E3 E4 E5 E6. subst. done.
Qed.

Lemma reordered_length bufs bufs' : reordered bufs bufs' -> length bufs' = length bufs.
Proof.
  intros Hr. apply Nat.le_antisymm; apply Nat.le_ngt; intros Hlt.
  - destruct (lookup_lt_is_Some_2 _ _ Hlt) as [x Hx]. specialize (Hr (length bufs)).
    rewrite Hx, lookup_ge_None_2 in Hr by done. done.
  - destruct (lookup_lt_is_Some_2 _ _ Hlt) as [x Hx]. specialize (Hr (length bufs')).
    rewrite Hx, lookup_ge_None_2 in Hr by done. done.
Qed.

Lemma reordered_upd bufs bufs' i f :
  (∀ x, (f x) <| b_next := 0%nat |> <| b_prev := 0%nat |> = x <| b_next := 0%nat |> <| b_prev := 0%nat |>) ->
  reordered bufs bufs' -> reordered bufs (upd i f bufs').
Proof.
  intros Hf Hr j. rewrite <- (Hr j). rewrite upd_lookup. case_decide; [|done].
  destruct (bufs' !! j) as [x|]; [|done]. cbn. f_equal. apply Hf.
Qed.

Lemma nx_set_next bufs i v a :
  (i < length bufs)%nat -> nx (upd i (λ x, x <| b_next := v |>) bufs) a = (<[i := v]> (nx bufs)) a.
Proof.
  intros Hi. unfold nx at 1. rewrite upd_lookup. case_decide as E.
  - subst. destruct (lookup_lt_is_Some_2 _ _ Hi) as [x ->]. by rewrite fn_lookup_insert.
  - by rewrite fn_lookup_insert_ne.
Qed.

Lemma pv_set_prev bufs i v a :
  (i < length bufs)%nat -> pv (upd i (λ x, x <| b_prev := v |>) bufs) a = (<[i := v]> (pv bufs)) a.
Proof.
  intros Hi. unfold pv at 1. rewrite upd_lookup. case_decide as E.
  - subst. destruct (lookup_lt_is_Some_2 _ _ Hi) as [x ->]. by rewrite fn_lookup_insert.
  - by rewrite fn_lookup_insert_ne.
Qed.

Lemma nx_set_prev bufs i v a : nx (upd i (λ x, x <| b_prev := v |>) bufs) a = nx bufs a.
Proof. unfold nx. rewrite upd_lookup. case_decide; [|done]. by destruct (bufs !! a). Qed.

Lemma pv_set_next bufs i v a : pv (upd i (λ x, x <| b_next := v |>) bufs) a = pv bufs a.
Proof. unfold pv. rewrite upd_lookup. case_decide; [|done]. by destruct (bufs !! a). Qed.

(** The six pointer assignments that move [b] to the front of the list. *)
Definition move_front (b n q : nat) : K unit :=
  set_prev n q ;; set_next q n ;; push_front b.

Definition moved (b n q hn : nat) (bufs : list buf) : list buf :=
  upd bcache_head (λ x, x <| b_next := b |>) (upd hn (λ x, x <| b_prev := b |>)
    (upd b (λ x, x <| b_prev := bcache_head |>) (upd b (λ x, x <| b_next := hn |>)
      (upd q (λ x, x <| b_next := n |>) (upd n (λ x, x <| b_prev := q |>) bufs))))).

Lemma updb_lt b f s :
  (b < length (k_bufs s))%nat -> updb b f s = Ok tt (s <| k_bufs ::= upd b f |>).
Proof. intros Hlt. destruct (lookup_lt_is_Some_2 _ _ Hlt) as [x Hx]. by eapply updb_ok. Qed.

(** The list after the first two assignments, which take [b] out of it. *)
Definition unlinked (n q : nat) (bufs : list buf) : list buf :=
  upd q (λ x, x <| b_next := n |>) (upd n (λ x, x <| b_prev := q |>) bufs).

Lemma length_unlinked n q bufs : length (unlinked n q bufs) = length bufs.
Proof. unfold unlinked. by rewrite !length_upd. Qed.

Lemma move_front_run s b n q hn :
  let len := length (k_bufs s) in
  (n < len)%nat -> (q < len)%nat -> (b < len)%nat -> (bcache_head < len)%nat -> (hn < len)%nat ->
  hn = nx (unlinked n q (k_bufs s)) bcache_head ->
  move_front b n q s = Ok tt (s <| k_bufs := moved b n q hn (k_bufs s) |>).
Proof.
  intros len Ln Lq Lb Lh Lhn Ehn. unfold move_front, set_prev, set_next, push_front.
  krun (updb_lt n (λ x, x <| b_prev := q |>) s Ln). set (s1 := s <| k_bufs ::= _ |>).
  assert (L1 : length (k_bufs s1) = len) by (subst s1; simpl; apply length_upd).
  krun (updb_lt q (λ x, x <| b_next := n |>) s1 ltac:(lia)). set (s2 := s1 <| k_bufs ::= _ |>).
  assert (L2 : length (k_bufs s2) = len) by (subst s2; simpl; rewrite length_upd; exact L1).
  destruct (lookup_lt_is_Some_2 (k_bufs s2) bcache_head ltac:(lia)) as [hd Hh].
  krun (getb_ok _ _ _ Hh).
  assert (E : b_next hd = hn).
  { rewrite Ehn. change (unlinked n q (k_bufs s)) with (k_bufs s2). unfold nx. by rewrite Hh. }
  rewrite E. unfold set_next, set_prev. clear Ehn E.
  krun (updb_lt b (λ x, x <| b_next := hn |>) s2 ltac:(lia)). set (s3 := s2 <| k_bufs ::= _ |>).
  assert (L3 : length (k_bufs s3) = len) by (subst s3; simpl; rewrite length_upd; exact L2).
  krun (updb_lt b (λ x, x <| b_prev := bcache_head |>) s3 ltac:(lia)). set (s4 := s3 <| k_bufs ::= _ |>).
  assert (L4 : length (k_bufs s4) = len) by (subst s4; simpl; rewrite length_upd; exact L3).
  krun (updb_lt hn (λ x, x <| b_prev := b |>) s4 ltac:(lia)). set (s5 := s4 <| k_bufs ::= _ |>).
  assert (L5 : length (k_bufs s5) = len) by (subst s5; simpl; rewrite length_upd; exact L4).
  rewrite (updb_lt bcache_head (λ x, x <| b_next := b |>) s5 ltac:(lia)).
  apply ok_eq. subst s5 s4 s3 s2 s1. by keq.
Qed.

Lemma nx_unlinked n q bufs a :
  (q < length bufs)%nat -> nx (unlinked n q bufs) a = (<[q := n]> (nx bufs)) a.
Proof.
  intros Lq. unfold unlinked. rewrite nx_set_next by (by rewrite length_upd).
  destruct (decide (q = a)) as [->|]; [by rewrite !fn_lookup_insert|].
  rewrite !fn_lookup_insert_ne by done. apply nx_set_prev.
Qed.

Lemma pv_unlinked n q bufs a :
  (n < length bufs)%nat -> pv (unlinked n q bufs) a = (<[n := q]> (pv bufs)) a.
Proof. intros Ln. unfold unlinked. rewrite pv_set_next. by apply pv_set_prev. Qed.

Lemma linked_moved n q hn b bufs l :
  (n < length bufs)%nat -> (q < length bufs)%nat -> (b < length bufs)%nat ->
  (bcache_head < length bufs)%nat -> (hn < length bufs)%nat ->
  hn = nx (unlinked n q bufs) bcache_head -> NoDup (b :: bcache_head :: l) ->
  linked (nx (unlinked n q bufs)) (pv (unlinked n q bufs)) (bcache_head :: l ++ [bcache_head]) ->
  linked (nx (moved b n q hn bufs)) (pv (moved b n q hn bufs)) (bcache_head :: b :: l ++ [bcache_head]).
Proof.
  intros Ln Lq Lb Lh Lhn Ehn Hd Hl. pose proof (length_unlinked n q bufs) as Lu.
  eapply linked_ext; [| |exact (linked_push _ _ _ _ _ Hd Hl)]; intros a _; unfold moved;
    fold (unlinked n q bufs); rewrite <- Ehn; clear Ehn Hl Hd.
  - rewrite nx_set_next by (rewrite !length_upd; lia).
    destruct (decide (bcache_head = a)) as [->|]; [by rewrite !fn_lookup_insert|].
    rewrite !(fn_lookup_insert_ne _ bcache_head) by done. rewrite !nx_set_prev.
    apply nx_set_next. lia.
  - rewrite pv_set_next, pv_set_prev by (rewrite !length_upd; lia).
    destruct (decide (hn = a)) as [->|]; [by rewrite !fn_lookup_insert|].
    rewrite !(fn_lookup_insert_ne _ hn) by done. rewrite pv_set_prev by (rewrite length_upd; lia).
    destruct (decide (b = a)) as [->|]; [by rewrite !fn_lookup_insert|].
    rewrite !(fn_lookup_insert_ne _ b) by done. apply pv_set_next.
Qed.

Lemma move_front_ok s o1 b o2 :
  length (k_bufs s) = S bcache_head -> ring (k_bufs s) (o1 ++ b :: o2) ->
  ∃ bufs', move_front b (nx (k_bufs s) b) (pv (k_bufs s) b) s = Ok tt (s <| k_bufs := bufs' |>)
    ∧ ring bufs' (b :: o1 ++ o2) ∧ reordered (k_bufs s) bufs'.
Proof.
  intros Hlen Hr. pose proof (ring_nodup _ _ Hr) as Hd. pose proof (λ b, ring_mem _ _ b Hr) as Hm.
  destruct Hr as [Hl Hp]. rewrite <- app_assoc in Hl. simpl in Hl.
  destruct (linked_remove _ _ _ _ _ _ Hd Hl) as (Hl1 & Hq & Hn).
  set (bufs := k_bufs s) in *. set (n := nx bufs b) in *. set (q := pv bufs b) in *.
  assert (Hlt : ∀ c, c ∈ bcache_head :: o1 ++ b :: o2 -> (c < length bufs)%nat).
  { intros c Hc. rewrite Hlen. apply elem_of_cons in Hc as [->|Hc]; [lia|]. apply Hm in Hc. lia. }
  assert (Ln : (n < length bufs)%nat) by (apply Hlt; set_solver).
  assert (Lq : (q < length bufs)%nat) by (apply Hlt; set_solver).
  assert (Lb : (b < length bufs)%nat) by (apply Hlt; set_solver).
  assert (Lh : (bcache_head < length bufs)%nat) by (apply Hlt; set_solver).
  assert (Hl2 : linked (nx (unlinked n q bufs)) (pv (unlinked n q bufs)) (bcache_head :: (o1 ++ o2) ++ [bcache_head])).
  { rewrite <- app_assoc. eapply linked_ext; [| |exact Hl1]; intros a _; [by apply nx_unlinked|by apply pv_unlinked]. }
  remember (nx (unlinked n q bufs) bcache_head) as hn eqn:Ehn.
  assert (Lhn : (hn < length bufs)%nat).
  { destruct ((o1 ++ o2) ++ [bcache_head]) as [|y r] eqn:E; [by destruct o1, o2|].
    destruct Hl2 as [[E1 _] _]. rewrite Ehn, E1. apply Hlt.
    assert (y ∈ (o1 ++ o2) ++ [bcache_head]) by (rewrite E; set_solver). set_solver. }
  exists (moved b n q hn bufs). split; [by apply move_front_run|]. split; [split|].
  - apply linked_moved; try done.
    clear -Hd. apply NoDup_cons in Hd as [H1 H2]. apply NoDup_app in H2 as (H2 & H3 & H4).
    apply NoDup_cons in H4 as [H4 H5]. repeat (apply NoDup_cons; split); [set_solver..|].
    apply NoDup_app. set_solver.
  - rewrite <- Hp. by rewrite Permutation_middle.
  - unfold moved. by repeat (apply reordered_upd; [done|]).
Qed.

(** A change of order leaves the view as it is. *)
Lemma cache_reorder held pin V s bufs' o :
  cache held pin V s -> ring bufs' o -> reordered (k_bufs s) bufs' ->
  cache held pin V (s <| k_bufs := bufs' |>).
Proof.
  intros [B1 _ B3 B4 B5 B6 B7 B8 B9 B10 B11 B12 B13] Hr Hre.
  assert (Hle := reordered_length _ _ Hre). constructor; try done.
  - simpl. congruence.
  - by exists o.
  - intros b y Hb Hy. simpl in Hy.
    destruct (reordered_lookup _ _ _ _ Hre Hy) as (x & Hx & E1 & E2 & E3 & E4 & E5 & E6).
    destruct (B8 b x Hb Hx) as [O1 O2 O3 O4 O5].
    rewrite E1, E3, E4, E6 in O3. rewrite E3, E4, E5 in O4. rewrite E3, E4 in O5.
    constructor; congruence || done.
  - intros i j u v Hi Hj Hu Hv. simpl in Hu, Hv.
    destruct (reordered_lookup _ _ _ _ Hre Hu) as (u' & Hu' & _ & _ & <- & <- & _).
    destruct (reordered_lookup _ _ _ _ Hre Hv) as (v' & Hv' & _ & _ & <- & <- & _). by eapply B9.
  - intros n Hn. destruct (B10 n Hn) as (b & x & Hb & Hx & Hd & Hno). simpl.
    destruct (lookup_lt_is_Some_2 bufs' b) as [y Hy]; [rewrite Hle, B1; lia|].
    exists b, y. destruct (reordered_lookup _ _ _ _ Hre Hy) as (x' & Hx' & _ & _ & <- & <- & _).
    assert (x' = x) as -> by congruence. done.
Qed.

(** The state in which brelse() has dropped the lock and the reference. *)
Lemma release_view held pin V s b n x name :
  cache held pin V s -> held !! b = Some n -> k_bufs s !! b = Some x ->
  (n ∈ pin ∨ V n = dblock (k_disk s) n) ->
  cache (delete b held) pin V
    (s <| k_slocks ::= <[SL_buf b := Sleeplock 0 name 0]> |>
       <| k_bufs ::= upd b (λ x, x <| b_refcnt ::= λ n, u32 (n - 1) |>) |>).
Proof.
  intros Hb Hh Hx Hcl. destruct (held_lookup _ _ _ _ _ _ Hb b n Hh) as (x' & Hlt & Hx' & Ho & Dx & Nx & Ed).
  assert (x' = x) as -> by congruence. set (s' := _ <| k_bufs ::= _ |>).
  eapply (cache_upd held pin V s _ pin V s' b x _ Hb Hlt Hx eq_refl); try done.
  - apply (bc_drv _ _ _ _ _ _ Hb).
  - intros c Hc. subst s'. simpl. destruct (decide (b = c)) as [->|Hne].
    + exists name. by rewrite lookup_delete_eq, lookup_insert_eq.
    + destruct (bc_sleep _ _ _ _ _ _ Hb c Hc) as [nm Hs]. exists nm.
      by rewrite lookup_delete_ne, lookup_insert_ne by congruence.
  - destruct Ho as [O1 O2 O3 O4 O5]. constructor; try done.
    + simpl. rewrite lookup_delete_eq. rewrite Hh in O4. rewrite O4.
      rewrite u32_small by (case_decide; lia). case_decide; lia.
    + intros m. by rewrite lookup_delete_eq.
  - intros c y Hcb Hc Hyc. destruct (bc_buf _ _ _ _ _ _ Hb c y Hc Hyc). split.
    + constructor; try done; by rewrite lookup_delete_ne by done.
    + intros Dy _. by apply (other_block _ _ _ _ b x c y Hb).
  - intros m Hm. destruct (decide (b_blockno x = m)); [left; done|right]. split; [done|]. tauto.
  - intros c m Hm. apply lookup_delete_Some in Hm as [_ Hm]. by apply (bc_held _ _ _ _ _ _ Hb c m).
  - intros m Hm Hhm. destruct (decide (m = n)) as [->|Hne]; [by destruct Hcl|].
    apply (bc_clean _ _ _ _ _ _ Hb); [done|]. intros c Hcm. apply (Hhm c).
    rewrite lookup_delete_ne; [done|]. intros ->. congruence.
  - apply (bc_size _ _ _ _ _ _ Hb).
Qed.

Lemma brelse_ok held pin V s b n :
  calm s h cp p px -> cache held pin V s -> held !! b = Some n ->
  (n ∈ pin ∨ V n = dblock (k_disk s) n) ->
  ∃ s', brelse b s = Ok tt s' ∧ cache (delete b held) pin V s' ∧ bio_frame s s'
    ∧ k_disk s' = k_disk s ∧ k_dhist s' = k_dhist s.
Proof using Hfuel.
  intros Hc Hb Hh Hcl. destruct (held_lookup _ _ _ _ _ _ Hb b n Hh) as (x & Hlt & Hx & _ & _ & _ & _).
  destruct (bc_sleep _ _ _ _ _ _ Hb b Hlt) as [name Hsl]. rewrite Hh in Hsl.
  pose proof (release_view _ _ _ _ b n x name Hb Hh Hx Hcl) as Hb2.
  unfold brelse. krun (holding_held _ _ _ _ _ _ Hc Hb Hh). cbn [negb].
  krun (releasesleep_ok Hfuel _ s h cp p px _ Hc (bc_slock _ _ _ _ _ _ Hb b Hlt) Hsl). cbn [sl_name].
  set (s1 := s <| k_slocks ::= _ |>) in *.
  assert (Hc1 : calm s1 h cp p px) by (by eapply calm_ext).
  krun (acquire_ok Hfuel L_bcache s1 h cp (c_quiet _ _ _ _ _ Hc1) (lock_free_ext _ _ s1 (bc_lock _ _ _ _ _ _ Hb) eq_refl)).
  assert (Hx1 : k_bufs (enter L_bcache s1) !! b = Some x) by exact Hx.
  krun (updb_ok b x (λ x, x <| b_refcnt ::= λ n, u32 (n - 1) |>) (enter L_bcache s1) Hx1).
  rewrite enter_bufs. set (s2 := s1 <| k_bufs ::= _ |>) in *.
  assert (Hc2 : calm s2 h cp p px) by (by eapply calm_ext).
  assert (Hx2 : k_bufs (enter L_bcache s2) !! b = Some (x <| b_refcnt ::= λ n, u32 (n - 1) |>)).
  { subst s2 s1. simpl. rewrite upd_lookup, decide_True by done. by rewrite Hx. }
  krun (getb_ok _ _ _ Hx2).
  assert (Hfr : ∀ bufs', bio_frame s (s2 <| k_bufs := bufs' |>)).
  { intros bufs'. constructor; [subst s2 s1; by keq|]. intros i. subst s2 s1. simpl. by rewrite lookup_insert_ne. }
  set (x2 := x <| b_refcnt ::= _ |>) in *.
  destruct (b_refcnt x2 =? 0); cbn [when].
  - destruct (bc_ring _ _ _ _ _ _ Hb2) as [o Hr]. apply (ring_mem _ _ b Hr) in Hlt as Hin.
    apply list_elem_of_split in Hin as (o1 & o2 & ->).
    destruct (move_front_ok (enter L_bcache s2) o1 b o2 (bc_len _ _ _ _ _ _ Hb2) Hr) as (bufs' & Em & Hr' & Hre).
    exists (s2 <| k_bufs := bufs' |>). split.
    + assert (E : move_front b (b_next x2) (b_prev x2) (enter L_bcache s2) = Ok tt ((enter L_bcache s2) <| k_bufs := bufs' |>)).
      { rewrite <- Em. unfold nx, pv. by rewrite Hx2. }
      krun E. rewrite (enter_bufs L_bcache s2 (λ _, bufs')).
      eapply release_ok; [eapply quiet_ext; [exact (c_quiet _ _ _ _ _ Hc2)|done..]|].
      eapply lock_free_ext; [exact (bc_lock _ _ _ _ _ _ Hb)|done].
    + split; [by eapply cache_reorder|done].
  - exists s2. split.
    + rewrite bind_ret. eapply release_ok; [exact (c_quiet _ _ _ _ _ Hc2)|].
      eapply lock_free_ext; [exact (bc_lock _ _ _ _ _ _ Hb)|done].
    + split; [exact Hb2|]. split; [|done]. specialize (Hfr (k_bufs s2)).
      assert (E : s2 <| k_bufs := k_bufs s2 |> = s2) by (by keq). by rewrite E in Hfr.
Qed.
End ops.

(** ** binit() *)

(** A driver that transfers at once, for examples. *)
Definition sync_disk : DiskDriver := λ b write, x ← getb b; modify (disk_done b write x).

Definition no_wait : why -> kstate -> kstate := λ _ s, s.

#[local] Instance sync_law : DiskLaw (H := sync_disk) no_wait.
Proof.
  refine {| drv_ok := λ _, True |}. intros b write s h cp p px x _ _ _ _ Hx _ _.
  exists (k_vdisk (disk_done b write x s)), (k_mmio_in (disk_done b write x s)), (k_mmio_out (disk_done b write x s)).
  split; [|done]. unfold disk_rw, sync_disk. krun (getb_ok _ _ _ Hx). simpl. apply ok_eq. by keq.
Defined.

(** [b] linked in at the front of the list, as binit() does it. *)
Definition pushed_front (b hn : nat) (bufs : list buf) : list buf :=
  upd bcache_head (λ x, x <| b_next := b |>) (upd hn (λ x, x <| b_prev := b |>)
    (upd b (λ x, x <| b_prev := bcache_head |>) (upd b (λ x, x <| b_next := hn |>) bufs))).

Lemma linked_pushed_front b bufs l :
  (b < length bufs)%nat -> (bcache_head < length bufs)%nat -> (nx bufs bcache_head < length bufs)%nat ->
  NoDup (b :: bcache_head :: l) ->
  linked (nx bufs) (pv bufs) (bcache_head :: l ++ [bcache_head]) ->
  let bufs' := pushed_front b (nx bufs bcache_head) bufs in
  linked (nx bufs') (pv bufs') (bcache_head :: b :: l ++ [bcache_head]).
Proof.
  intros Lb Lh Lhn Hd Hl bufs'. subst bufs'. set (hn := nx bufs bcache_head) in *.
  eapply linked_ext; [| |exact (linked_push _ _ _ _ _ Hd Hl)]; fold hn; intros a _; unfold pushed_front.
  - rewrite nx_set_next by (rewrite !length_upd; lia).
    destruct (decide (bcache_head = a)) as [->|]; [by rewrite !fn_lookup_insert|].
    rewrite !(fn_lookup_insert_ne _ bcache_head) by done. rewrite !nx_set_prev. by apply nx_set_next.
  - rewrite pv_set_next, pv_set_prev by (rewrite !length_upd; lia).
    destruct (decide (hn = a)) as [->|]; [by rewrite !fn_lookup_insert|].
    rewrite !(fn_lookup_insert_ne _ hn) by done. rewrite pv_set_prev by (rewrite length_upd; lia).
    destruct (decide (b = a)) as [->|]; [by rewrite !fn_lookup_insert|].
    rewrite !(fn_lookup_insert_ne _ b) by done. apply pv_set_next.
Qed.

(** The body of binit()'s loop. *)
Definition binit_one (b : nat) : K unit :=
  h ← getb bcache_head;
  set_next b (b_next h) ;;
  set_prev b bcache_head ;;
  initsleeplock (SL_buf b) "buffer" ;;
  h ← getb bcache_head;
  set_prev (b_next h) b ;;
  set_next bcache_head b.

Definition slock_inited (b : nat) (s : kstate) : kstate :=
  s <| k_locks ::= <[L_sleep (SL_buf b) := Spinlock 0 "sleep lock" None]> |>
    <| k_slocks ::= <[SL_buf b := Sleeplock 0 "buffer" 0]> |>.

Lemma initsleeplock_ok l name s :
  initsleeplock l name s = Ok tt (s <| k_locks ::= <[L_sleep l := Spinlock 0 "sleep lock" None]> |>
                                    <| k_slocks ::= <[l := Sleeplock 0 name 0]> |>).
Proof.
  unfold initsleeplock. krun (initlock_ok (L_sleep l) "sleep lock" s). unfold updslock.
  rewrite !bind_modify. unfold modify. apply ok_eq. keq. unfold slock_of. simpl.
  rewrite !lookup_insert_eq. simpl. by rewrite !insert_insert_eq.
Qed.

Lemma binit_one_ok b s :
  (b < bcache_head)%nat -> length (k_bufs s) = S bcache_head ->
  (nx (k_bufs s) bcache_head < length (k_bufs s))%nat ->
  binit_one b s = Ok tt ((slock_inited b s) <| k_bufs ::= pushed_front b (nx (k_bufs s) bcache_head) |>).
Proof.
  intros Lb Hlen Lhn. set (hn := nx (k_bufs s) bcache_head) in *. unfold binit_one, set_next, set_prev.
  destruct (lookup_lt_is_Some_2 (k_bufs s) bcache_head ltac:(lia)) as [hd Hh]. krun (getb_ok _ _ _ Hh).
  assert (E : b_next hd = hn) by (subst hn; unfold nx; by rewrite Hh). rewrite E.
  krun (updb_lt b (λ x, x <| b_next := hn |>) s ltac:(lia)). set (s1 := s <| k_bufs ::= _ |>).
  assert (L1 : length (k_bufs s1) = S bcache_head) by (subst s1; simpl; by rewrite length_upd).
  krun (updb_lt b (λ x, x <| b_prev := bcache_head |>) s1 ltac:(lia)). set (s2 := s1 <| k_bufs ::= _ |>).
  assert (L2 : length (k_bufs s2) = S bcache_head) by (subst s2; simpl; by rewrite length_upd).
  krun (initsleeplock_ok (SL_buf b) "buffer" s2). fold (slock_inited b s2). set (s3 := slock_inited b s2).
  assert (L3 : length (k_bufs s3) = S bcache_head) by exact L2.
  assert (Hh3 : k_bufs s3 !! bcache_head = Some hd).
  { subst s3 s2 s1. simpl. rewrite !upd_lookup, !decide_False by lia. exact Hh. }
  krun (getb_ok _ _ _ Hh3). rewrite E.
  krun (updb_lt hn (λ x, x <| b_prev := b |>) s3 ltac:(lia)). set (s4 := s3 <| k_bufs ::= _ |>).
  assert (L4 : length (k_bufs s4) = S bcache_head) by (subst s4; simpl; by rewrite length_upd).
  rewrite (updb_lt bcache_head (λ x, x <| b_next := b |>) s4 ltac:(lia)).
  apply ok_eq. subst s4 s3 s2 s1. unfold slock_inited. by keq.
Qed.

(** [k] rounds of the loop. *)
Record inited (k : nat) (s0 s : kstate) : Prop := {
  in_eq : s = s0 <| k_bufs := k_bufs s |> <| k_locks := k_locks s |> <| k_slocks := k_slocks s |>;
  in_len : length (k_bufs s) = S bcache_head;
  in_linked : linked (nx (k_bufs s)) (pv (k_bufs s)) (bcache_head :: reverse (seq 0 k) ++ [bcache_head]);
  in_same : reordered (k_bufs s0) (k_bufs s);
  in_locks : ∀ l, (∀ b, l <> L_sleep (SL_buf b)) -> k_locks s !! l = k_locks s0 !! l;
  in_slocks : ∀ b, (b < k)%nat -> lock_free (L_sleep (SL_buf b)) s
    ∧ k_slocks s !! SL_buf b = Some (Sleeplock 0 "buffer" 0)
}.

Lemma for_all_snoc {X} (l : list X) x body s s1 s2 :
  for_all l body s = Ok tt s1 -> body x s1 = Ok tt s2 -> for_all (l ++ [x]) body s = Ok tt s2.
Proof.
  revert s. induction l as [|y l IH]; intros s E1 E2.
  - injection E1 as ->. cbn [app for_all]. by krun E2.
  - cbn [app for_all] in *. apply bind_inv in E1 as ([] & s3 & Ey & E1). krun Ey. by apply IH.
Qed.

Lemma inited_step k s0 s :
  (k < bcache_head)%nat -> inited k s0 s ->
  ∃ s', binit_one k s = Ok tt s' ∧ inited (S k) s0 s'.
Proof.
  intros Hk [I1 I2 I3 I4 I5 I6].
  assert (Hd : NoDup (k :: bcache_head :: reverse (seq 0 k))).
  { repeat (apply NoDup_cons; split); [..|rewrite reverse_Permutation; apply NoDup_seq].
    - rewrite elem_of_cons, elem_of_reverse, elem_of_seq. lia.
    - rewrite elem_of_reverse, elem_of_seq. lia. }
  assert (Lhn : (nx (k_bufs s) bcache_head < length (k_bufs s))%nat).
  { rewrite I2. destruct (reverse (seq 0 k) ++ [bcache_head]) as [|y r] eqn:E; [by destruct (reverse (seq 0 k))|].
    destruct I3 as [[-> _] _]. assert (Hy : y ∈ reverse (seq 0 k) ++ [bcache_head]) by (rewrite E; set_solver).
    apply elem_of_app in Hy as [Hy|Hy]; [apply elem_of_reverse, elem_of_seq in Hy; lia|].
    apply list_elem_of_singleton in Hy. lia. }
  pose proof (binit_one_ok k s Hk I2 Lhn) as E. eexists. split; [exact E|]. clear E.
  set (s' := _ <| k_bufs ::= _ |>). constructor.
  - subst s'. rewrite I1. unfold slock_inited. by keq.
  - subst s'. simpl. unfold pushed_front. by rewrite !length_upd.
  - rewrite seq_S, reverse_app. simpl. apply (linked_pushed_front k (k_bufs s)); [lia|lia|done|done|done].
  - subst s'. simpl. unfold pushed_front. by repeat (apply reordered_upd; [done|]).
  - intros l Hl. subst s'. simpl. rewrite lookup_insert_ne; [by apply I5|]. intros <-. by apply (Hl k).
  - intros b Hb. subst s'. unfold lock_free. simpl. destruct (decide (b = k)) as [->|Hne].
    + rewrite !lookup_insert_eq. eauto.
    + rewrite !lookup_insert_ne by congruence. apply I6. lia.
Qed.

Lemma binit_loop k s0 :
  (k <= bcache_head)%nat -> inited 0 s0 s0 ->
  ∃ s', for_all (seq 0 k) binit_one s0 = Ok tt s' ∧ inited k s0 s'.
Proof.
  intros Hk H0. induction k as [|k IH]; [by exists s0|].
  destruct (IH ltac:(lia)) as (s1 & E1 & I1). destruct (inited_step k s0 s1 ltac:(lia) I1) as (s2 & E2 & I2).
  exists s2. split; [|done]. rewrite seq_S. by eapply for_all_snoc.
Qed.

Lemma binit_ok `{DL : DiskLaw} dev pid s :
  dev <> 0 -> k_bufs s = replicate (S bcache_head) zero_buf -> lock_free L_vdisk s ->
  drv_ok (k_vdisk s) -> (∀ n, length (dblock (k_disk s) n) = Z.to_nat BSIZE) ->
  ∃ s', binit s = Ok tt s' ∧ bcache dev pid ∅ ∅ (dblock (k_disk s)) s'
    ∧ s' = s <| k_bufs := k_bufs s' |> <| k_locks := k_locks s' |> <| k_slocks := k_slocks s' |>
    ∧ ∀ l, l <> L_bcache -> (∀ b, l <> L_sleep (SL_buf b)) -> k_locks s' !! l = k_locks s !! l.
Proof.
  intros Hdev Hbufs Hvl Hdrv Hsz. unfold binit. krun (initlock_ok L_bcache "bcache" s).
  set (s1 := s <| k_locks ::= _ |>). unfold set_prev at 1, set_next at 1.
  assert (L1 : length (k_bufs s1) = S bcache_head) by (subst s1; simpl; rewrite Hbufs; apply length_replicate).
  krun (updb_lt bcache_head (λ x, x <| b_prev := bcache_head |>) s1 ltac:(lia)). set (s2 := s1 <| k_bufs ::= _ |>).
  assert (L2 : length (k_bufs s2) = S bcache_head) by (subst s2; simpl; by rewrite length_upd).
  krun (updb_lt bcache_head (λ x, x <| b_next := bcache_head |>) s2 ltac:(lia)). set (s3 := s2 <| k_bufs ::= _ |>).
  assert (L3 : length (k_bufs s3) = S bcache_head) by (subst s3; simpl; by rewrite length_upd).
  assert (I0 : inited 0 s3 s3).
  { constructor; [by keq|done| |done|done|intros; lia].
    change (linked (nx (k_bufs s3)) (pv (k_bufs s3)) [bcache_head; bcache_head]).
    split; [split|done].
    - change (k_bufs s3) with (upd bcache_head (λ x, x <| b_next := bcache_head |>) (k_bufs s2)).
      rewrite nx_set_next by lia. apply fn_lookup_insert.
    - change (k_bufs s3) with (upd bcache_head (λ x, x <| b_next := bcache_head |>) (k_bufs s2)).
      rewrite pv_set_next.
      change (k_bufs s2) with (upd bcache_head (λ x, x <| b_prev := bcache_head |>) (k_bufs s1)).
      rewrite pv_set_prev by lia. apply fn_lookup_insert. }
  destruct (binit_loop bcache_head s3 (le_n _) I0) as (s' & E & [J1 J2 J3 J4 J5 J6]).
  exists s'. split; [exact E|]. clear E I0.
  assert (Hre : reordered (k_bufs s) (k_bufs s')).
  { intros i. rewrite J4. revert i. by repeat (apply reordered_upd; [done|]). }
  assert (Hz : ∀ b y, k_bufs s' !! b = Some y -> b_disk y = 0 ∧ b_blockno y = 0 ∧ b_dev y = 0 ∧ b_refcnt y = 0).
  { intros b y Hy. destruct (reordered_lookup _ _ _ _ Hre Hy) as (x & Hx & _ & <- & <- & <- & <- & _).
    rewrite Hbufs in Hx. apply lookup_replicate_1 in Hx as [-> _]. done. }
  assert (Ed : k_disk s' = k_disk s) by (by rewrite J1).
  assert (Hk : ∀ l, l <> L_bcache -> (∀ b, l <> L_sleep (SL_buf b)) -> k_locks s' !! l = k_locks s !! l).
  { intros l H1 H2. rewrite J5 by done. subst s3 s2 s1. simpl. by rewrite lookup_insert_ne. }
  split; [|split; [rewrite J1; subst s3 s2 s1; by keq|exact Hk]]. constructor.
  - done.
  - exists (reverse (seq 0 bcache_head)). split; [done|]. apply reverse_Permutation.
  - exists "bcache"%string. rewrite J5 by done. subst s3 s2 s1. simpl. apply lookup_insert_eq.
  - destruct Hvl as [nm Hvl]. exists nm. by rewrite Hk.
  - intros b Hb. by apply J6.
  - by rewrite J1.
  - intros b Hb. exists "buffer"%string. rewrite lookup_empty. by apply J6.
  - intros b y Hb Hy. destruct (Hz b y Hy) as (H1 & H2 & H3 & H4). constructor.
    + done.
    + rewrite H2. lia.
    + rewrite H3. congruence.
    + rewrite H4, lookup_empty, decide_False; [done|]. rewrite H3. intros []. congruence.
    + intros n. by rewrite lookup_empty.
  - intros i j u v _ _ Hu _ Du _ _. destruct (Hz i u Hu) as (_ & _ & H3 & _). congruence.
  - intros n Hn. set_solver.
  - intros b n. by rewrite lookup_empty.
  - intros n _ _. by rewrite Ed.
  - done.
Qed.

(** ** Properties *)

(** C10: reading block [n] through the cache, changing it in its buffer, writing
    it and releasing it: bread() finds the block's contents wherever they are
    (another buffer may have to be evicted), afterwards the cache and the disk
    both have the new contents, every other block reads as before, and no buffer
    stays locked or referenced. *)
Theorem cache_read_modify_write `{Fuel} `{DL : DiskLaw} (dev : Z) (s : kstate) (h : hart) (cp : cpu)
    (p : nat) (px : proc) (held : gmap nat Z) (pin : gset Z) (V : Z -> list Z) (n : Z)
    (f : list Z -> list Z) :
  (1 <= fuel)%nat -> calm s h cp p px -> bcache dev (p_pid px) held pin V s ->
  (∀ b, held !! b <> Some n) -> 0 <= n < 2 ^ 31 ->
  (n ∈ pin ∨ size held + size pin < bcache_head)%nat ->
  length (f (V n)) = Z.to_nat BSIZE ->
  ∃ s', run env ((b ← bread dev n; d ← bdata b; set_bdata b f ;; bwrite b ;; brelse b ;; ret d) s)
          = Ok (V n) s'
    ∧ bcache dev (p_pid px) held pin (<[n := f (V n)]> V) s'
    ∧ k_disk s' = <[n := f (V n)]> (k_disk s)
    ∧ k_dhist s' = k_dhist s ++ [(n, f (V n))]
    ∧ bio_frame s s'.
Proof.
  intros Hf Hc Hb Hn Hr Hroom Hl.
  destruct (bread_ok Hf dev h cp p px held pin V s n Hc Hb Hn Hr Hroom) as (b & s1 & E1 & Hbn & Hb1 & F1 & D1 & L1).
  assert (Hh1 : (<[b := n]> held) !! b = Some n) by apply lookup_insert_eq.
  destruct (set_bdata_ok dev px _ pin V s1 b n f Hb1 Hh1 Hl) as (s2 & E2 & Hb2 & F2 & D2 & L2).
  assert (Hc2 : calm s2 h cp p px) by (eapply frame_calm; [|exact Hc]; by etrans).
  destruct (bwrite_ok Hf dev h cp p px _ pin _ s2 b n Hc2 Hb2 Hh1) as (s3 & E3 & Hb3 & F3 & D3 & L3).
  assert (Hc3 : calm s3 h cp p px) by (by eapply frame_calm).
  rewrite fn_lookup_insert in D3, L3.
  destruct (brelse_ok Hf dev h cp p px _ pin _ s3 b n Hc3 Hb3 Hh1) as (s4 & E4 & Hb4 & F4 & D4 & L4).
  { right. rewrite fn_lookup_insert, D3. unfold dblock. by rewrite lookup_insert_eq. }
  exists s4. split.
  - rewrite (run_bind env _ _ _ _ _ E1). krun (bdata_ok dev px _ pin V s1 b n Hb1 Hh1). krun E2.
    rewrite (run_bind env _ _ _ _ _ E3). by krun E4.
  - rewrite delete_insert_id in Hb4 by done. split; [done|]. split; [by rewrite D4, D3, D2, D1|].
    split; [by rewrite L4, L3, L2, L1|]. by do 3 (etrans; [eassumption|]).
Qed.

(** binit() leaves a cache in which every block reads as it is on the disk,
    no buffer is held, and the list of buffers is a proper ring. *)
Theorem binit_view `{DL : DiskLaw} (dev pid : Z) (s : kstate) :
  dev <> 0 -> k_bufs s = replicate (S bcache_head) zero_buf -> lock_free L_vdisk s ->
  drv_ok (k_vdisk s) -> (∀ n, length (dblock (k_disk s) n) = Z.to_nat BSIZE) ->
  ∃ s', binit s = Ok tt s' ∧ bcache dev pid ∅ ∅ (dblock (k_disk s)) s'
    ∧ ∀ l, l <> L_bcache -> (∀ b, l <> L_sleep (SL_buf b)) -> k_locks s' !! l = k_locks s !! l.
Proof. intros. edestruct (binit_ok (DL := DL) dev pid s) as (s' & ? & ? & ? & ?); eauto. Qed.

(** A machine with a blank disk, after binit(). *)
Definition ex_blank : kstate := ex_running [L_vdisk; L_log] [].
Definition ex_cache : kstate :=
  match binit ex_blank with Ok _ s => s | Stop _ s => s | Yield _ s _ => s end.

Lemma calm_relock s s' h cp p px :
  calm s h cp p px -> k_cur s' = k_cur s -> k_harts s' = k_harts s -> k_cpus s' = k_cpus s ->
  k_procs s' = k_procs s -> (∀ i, (i < Z.to_nat NPROC)%nat -> lock_free (L_proc i) s') ->
  calm s' h cp p px.
Proof.
  intros [C1 C2 C3 [C4a C4b] C5 C6 C7 C8] E1 E2 E3 E4 Hl. constructor; rewrite ?E4; try done.
  - by eapply quiet_ext.
  - constructor; [by rewrite E4|done].
Qed.

Lemma ex_blank_locks : NoDup [L_vdisk; L_log] ∧ ∀ i, L_proc i ∉ [L_vdisk; L_log].
Proof.
  split; [repeat (apply NoDup_cons; split); [set_solver..|apply NoDup_nil_2]|]. intros i Hi. set_solver.
Qed.

Lemma ex_blank_calm : calm ex_blank (zero_hart 0) ex_cpu 0 ex_proc.
Proof. apply ex_running_calm; apply ex_blank_locks. Qed.

Lemma ex_blank_free l : l ∈ [L_vdisk; L_log] -> lock_free l ex_blank.
Proof.
  intros Hl. apply ex_running_free; [apply ex_blank_locks..|]. apply elem_of_app. by right.
Qed.

Lemma ex_blank_vdisk : lock_free L_vdisk ex_blank.
Proof. apply ex_blank_free. set_solver. Qed.

Lemma ex_blank_log : lock_free L_log ex_blank.
Proof. apply ex_blank_free. set_solver. Qed.

Lemma length_dblock_blank n : length (dblock ∅ n) = Z.to_nat BSIZE.
Proof. unfold dblock. rewrite lookup_empty. apply length_replicate. Qed.

Lemma ex_cache_ok :
  bcache (H := sync_disk) 1 1 ∅ ∅ (dblock ∅) ex_cache
  ∧ calm ex_cache (zero_hart 0) ex_cpu 0 ex_proc ∧ lock_free L_log ex_cache.
Proof.
  destruct (binit_ok (DL := sync_law) 1 1 ex_blank) as (s' & E & Hb & Es & Hl); [lia|reflexivity|apply ex_blank_vdisk|done|apply length_dblock_blank|].
  unfold ex_cache. rewrite E. split; [exact Hb|].
  assert (Hlk : ∀ l, l <> L_bcache -> (∀ b, l <> L_sleep (SL_buf b)) -> lock_free l ex_blank -> lock_free l s').
  { intros l H1 H2 [nm Hn]. exists nm. by rewrite Hl. }
  split.
  - pose proof ex_blank_calm as Hc. eapply calm_relock; [exact Hc|rewrite Es; reflexivity..|].
    intros i Hi. apply Hlk; [done|done|]. by apply (pi_free _ (c_idle _ _ _ _ _ Hc)).
  - apply Hlk; [done|done|]. apply ex_blank_log.
Qed.

Lemma binit_view_witness :
  ∃ s', binit ex_blank = Ok tt s' ∧ bcache (H := sync_disk) 1 1 ∅ ∅ (dblock ∅) s'
    ∧ ∀ l, l <> L_bcache -> (∀ b, l <> L_sleep (SL_buf b)) -> k_locks s' !! l = k_locks ex_blank !! l.
Proof.
  apply (binit_view (DL := sync_law) 1 1 ex_blank).
  - lia.
  - reflexivity.
  - apply ex_blank_vdisk.
  - done.
  - apply length_dblock_blank.
Defined.

Lemma cache_read_modify_write_witness :
  let H : Fuel := 1%nat in let D : DiskDriver := sync_disk in
  ∃ s', run no_wait ((b ← bread 1 45; d ← bdata b; set_bdata b (λ d, splice 3 [7; 8] d) ;; bwrite b ;; brelse b ;; ret d) ex_cache)
          = Ok (dblock ∅ 45) s'
    ∧ bcache (DL := sync_law) 1 (p_pid ex_proc) ∅ ∅ (<[45 := splice 3 [7; 8] (dblock ∅ 45)]> (dblock ∅)) s'
    ∧ k_disk s' = <[45 := splice 3 [7; 8] (dblock ∅ 45)]> (k_disk ex_cache)
    ∧ k_dhist s' = k_dhist ex_cache ++ [(45, splice 3 [7; 8] (dblock ∅ 45))]
    ∧ bio_frame ex_cache s'.
Proof.
  intros H D.
  apply (cache_read_modify_write (DL := sync_law) 1 ex_cache (zero_hart 0) ex_cpu 0 ex_proc ∅ ∅ (dblock ∅) 45 (λ d, splice 3 [7; 8] d)).
  - apply le_n.
  - apply ex_cache_ok.
  - apply ex_cache_ok.
  - intros b. by rewrite lookup_empty.
  - lia.
  - right. rewrite map_size_empty, size_empty. unfold bcache_head. vm_compute. lia.
  - reflexivity.
Defined.
