(* ===== verification/VirtioSpec.v ===== *)
(** * The disk driver transfers blocks

    virtio_disk_rw() is followed from its call to its return, through the
    switch to the scheduler, the device, the completion interrupt and the
    switch back.  The device is a parameter, of which the law [VirtioDevice]
    states what the virtio specification promises for one block request.  The
    result is that the driver keeps the contract [DiskLaw] that the buffer
    cache is proved against, so every theorem about the cache, the log and the
    file system holds with this driver. *)

From Stdlib Require Import ZArith Lia.
From stdpp Require Import base numbers list gmap strings.
From S2P Require Import Prelude Machine Kernel Riscv Spinlock Kalloc Proc Scheduler Sleeplock Virtio Bio BioSpec.

(** ** The device *)

(** The request of buffer [b], as the descriptors [i0], [i1], [i2] give it. *)
Record request `{DiskLayout} (d : diskstate) (b : nat) (write : bool) (sector i0 i1 i2 : Z) : Prop := {
  rq_avail : va_idx (dk_avail d) = u16 (vu_idx (dk_used d) + 1);
  rq_head : va_ring (dk_avail d) !! Z.to_nat (vu_idx (dk_used d) mod NUM) = Some i0;
  rq_op : dk_ops d !! Z.to_nat i0
    = Some (Vreq (if write then VIRTIO_BLK_T_OUT else VIRTIO_BLK_T_IN) 0 sector);
  rq_desc0 : dk_desc d !! Z.to_nat i0 = Some (Vdesc (ops_addr i0) 16 VRING_DESC_F_NEXT i1);
  rq_desc1 : dk_desc d !! Z.to_nat i1 = Some (Vdesc (bufdata_addr b) BSIZE
    (Z.lor (if write then 0 else VRING_DESC_F_WRITE) VRING_DESC_F_NEXT) i2);
  rq_desc2 : dk_desc d !! Z.to_nat i2 = Some (Vdesc (status_addr i0) 1 VRING_DESC_F_WRITE 0)
}.

(** The device's answer: status 0, and the head of the chain in the used ring. *)
Definition answered (i0 len : Z) (d : diskstate) : diskstate :=
  d <| dk_info ::= upd (Z.to_nat i0) (λ x, x <| vi_status := 0 |>) |>
    <| dk_used ::= λ u, u <| vu_ring ::= <[Z.to_nat (vu_idx u mod NUM) := (i0, len)]> |>
                          <| vu_idx ::= λ i, u16 (i + 1) |> |>.

(** What the virtio specification says of a block device with one request for
    the two sectors of a block in its queue: it moves the block between the
    buffer and the disk, stores the status, appends to the used ring and raises
    its interrupt, whose status register the driver will read. *)
Class VirtioDevice `{DiskLayout} (device : kstate -> kstate) := device_serves :
  ∀ s b write x i0 i1 i2,
    request (k_vdisk s) b write (2 * b_blockno x) i0 i1 i2 -> k_bufs s !! b = Some x ->
    ∃ len v, device s = (disk_done b write x s) <| k_vdisk ::= answered i0 len |> <| k_mmio_in ::= cons v |>.

(** ** What happens while the driver sleeps *)
Section meanwhile.
Context `{Fuel} `{Symbols} `{DiskLayout} (device : kstate -> kstate).

(** The scheduler takes the processor back (the end of its round for the
    process), turns interrupts on, the device finishes and interrupts, and the
    scheduler comes to the process again, up to its switch. *)
Definition meanwhile : K unit :=
  c ← mycpu; cp ← getcpu c; p ← deref (cp_proc cp);
  updcpu c (λ cp, cp <| cp_proc := None |>) ;;
  release (L_proc p) ;;
  intr_on ;;
  modify device ;;
  virtio_disk_intr ;;
  acquire (L_proc p) ;;
  x ← getp p;
  when (bool_decide (p_state x = RUNNABLE))
    (updp p (λ x, x <| p_state := RUNNING |>) ;;
     updcpu c (λ cp, cp <| cp_proc := Some p |>)).

(** A process that gives up the processor finds this when it runs again. *)
Definition virtio_env (w : why) (s : kstate) : kstate :=
  match w with
  | W_sched => match meanwhile s with Ok _ s' => s' | _ => s end
  | _ => s
  end.
End meanwhile.

(** ** The driver at rest *)

(** No request is in the queue; all descriptors are free. *)
Record at_rest (d : diskstate) : Prop := {
  ar_desc : length (dk_desc d) = 8%nat;
  ar_free : dk_free d = replicate 8 1;
  ar_info : length (dk_info d) = 8%nat;
  ar_ops : length (dk_ops d) = 8%nat;
  ar_avail : length (va_ring (dk_avail d)) = 8%nat;
  ar_used : length (vu_ring (dk_used d)) = 8%nat;
  ar_range : 0 <= dk_used_idx d < 2 ^ 16;
  ar_idx : va_idx (dk_avail d) = dk_used_idx d;
  ar_seen : vu_idx (dk_used d) = dk_used_idx d
}.

Lemma enter_comm l l' s : l <> l' -> enter l (enter l' s) = enter l' (enter l s).
Proof.
  intros Hne. unfold enter, pushed, lock_of. keq.
  - rewrite !lookup_insert_ne by congruence. by rewrite insert_insert_ne by congruence.
Qed.

(** ** The descriptors and the rings *)

Definition taken : list Z := [0; 0; 0; 1; 1; 1; 1; 1].

(** The driver's structures with the request of [b] in the queue. *)
Definition queued `{DiskLayout} (b : nat) (write : bool) (sector : Z) (d : diskstate) : diskstate :=
  (format_request b write sector (0, 1, 2) (d <| dk_free := taken |>))
    <| dk_info ::= upd 0 (λ x, x <| vi_b := Some b |>) |>
    <| dk_avail ::= λ a, a <| va_ring ::= λ r, aset r (va_idx a mod NUM) 0 |> |>
    <| dk_avail ::= λ a, a <| va_idx ::= λ i, u16 (i + 1) |> |>.

(** A list of eight elements, as eight variables. *)
Ltac eight l H :=
  do 8 (destruct l as [|? l]; [discriminate H|]); destruct l; [|discriminate H]; clear H.

Ltac rings d Hd :=
  let desc := fresh "desc" in let fl := fresh "fl" in let ai := fresh "ai" in let ar := fresh "ar" in
  let uf := fresh "uf" in let ui := fresh "ui" in let ur := fresh "ur" in
  let fr := fresh "fr" in let us := fresh "us" in let info := fresh "info" in let ops := fresh "ops" in
  destruct d as [desc [fl ai ar] [uf ui ur] fr us info ops];
  destruct Hd as [Hdesc ? Hinfo Hops Havail Hused Hr ? ?];
  cbn [dk_desc dk_info dk_ops dk_avail dk_used dk_free dk_used_idx va_ring va_idx vu_ring vu_idx] in *; subst;
  eight desc Hdesc; eight info Hinfo; eight ops Hops.

Lemma index_range i : 0 <= i -> (Z.to_nat (i mod NUM) < 8)%nat.
Proof. intros Hi. change NUM with 8. pose proof (Z.mod_pos_bound i 8). lia. Qed.

Lemma queued_request `{DiskLayout} b write sector d :
  at_rest d -> request (queued b write sector d) b write sector 0 1 2.
Proof.
  intros Hd. rings d Hd. constructor; try reflexivity.
  simpl. unfold aset. rewrite list_lookup_insert_eq; [done|]. rewrite Havail. apply index_range. lia.
Qed.

(** What virtio_disk_intr() finds when the device has answered. *)
Lemma answered_entry `{DiskLayout} b write sector len d :
  at_rest d ->
  let d' := answered 0 len (queued b write sector d) in
  dk_used_idx d' = dk_used_idx d ∧ vu_idx (dk_used d') = u16 (dk_used_idx d + 1)
  ∧ vu_ring (dk_used d') !! Z.to_nat (dk_used_idx d' mod NUM) = Some (0, len)
  ∧ dk_info d' !! 0%nat = Some (Vinfo (Some b) 0).
Proof.
  intros Hd. rings d Hd. split_and!; try reflexivity.
  simpl. rewrite list_lookup_insert_eq; [done|]. rewrite Hused. apply index_range. lia.
Qed.

(** Back at rest once the answer is seen, [disk.info[0].b] cleared and the chain
    freed. *)
Definition finished (d : diskstate) : diskstate :=
  d <| dk_desc ::= λ l, <[2%nat := Vdesc 0 0 0 0]> (<[1%nat := Vdesc 0 0 0 0]> (<[0%nat := Vdesc 0 0 0 0]> l)) |>
    <| dk_free := replicate 8 1 |>.

Definition cleared (d : diskstate) : diskstate := d <| dk_info ::= upd 0 (λ x, x <| vi_b := None |>) |>.

Lemma finished_rest `{DiskLayout} b write sector len d :
  at_rest d ->
  at_rest (finished (cleared ((answered 0 len (queued b write sector d)) <| dk_used_idx ::= λ i, u16 (i + 1) |>))).
Proof.
  intros Hd. rings d Hd. constructor; try reflexivity.
  - simpl. by rewrite length_aset.
  - simpl. by rewrite length_insert.
  - simpl. unfold u16. apply Z.mod_pos_bound. lia.
Qed.

(** ** The driver's functions *)
Section driver.
Context `{Fuel} `{Symbols} `{DiskLayout} (Hfuel : (1 <= fuel)%nat).

(** alloc_desc() takes the first free descriptor. *)
Lemma alloc_desc_ok s n f :
  dk_free (k_vdisk s) = replicate n 0 ++ 1 :: f -> (n < 8)%nat ->
  alloc_desc s = Ok (Z.of_nat n) (s <| k_vdisk ::= λ d, d <| dk_free := replicate n 0 ++ 0 :: f |> |>).
Proof.
  intros E Hn. unfold alloc_desc.
  assert (Hs : ∀ l, (∀ i, i ∈ l -> 0 <= i < Z.of_nat n) -> ∀ k, foreach (l ++ Z.of_nat n :: k) (λ i,
      d ← getvd; if truth (aget (dk_free d) i)
      then updvd (λ d, d <| dk_free ::= λ f, aset f i 0 |>) ;; ret (Some i) else ret None) s
    = Ok (Some (Z.of_nat n)) (s <| k_vdisk ::= λ d, d <| dk_free := replicate n 0 ++ 0 :: f |> |>)).
  { induction l as [|i l IH]; intros Hl k; cbn [app foreach].
    - unfold kbind at 1. unfold getvd at 1. unfold kbind at 1. cbn [gets bindo]. rewrite E.
      assert (Ea : aget (replicate n 0 ++ 1 :: f) (Z.of_nat n) = 1).
      { unfold aget. rewrite Nat2Z.id, lookup_app_r by (by rewrite length_replicate).
        by rewrite length_replicate, Nat.sub_diag. }
      rewrite Ea. cbn [truth]. cbn. unfold ret. apply ok_eq. keq. unfold update; simpl. f_equal. rewrite E.
      unfold aset. rewrite Nat2Z.id. rewrite insert_app_r_alt by (by rewrite length_replicate).
      by rewrite length_replicate, Nat.sub_diag.
    - unfold kbind at 1. unfold getvd at 1. unfold kbind at 1. cbn [gets bindo]. rewrite E.
      assert (Ea : aget (replicate n 0 ++ 1 :: f) i = 0).
      { pose proof (Hl i ltac:(set_solver)). unfold aget.
        rewrite lookup_app_l by (rewrite length_replicate; lia).
        by rewrite lookup_replicate_2 by lia. }
      rewrite Ea. cbn. apply IH. intros j Hj. apply Hl. set_solver. }
  replace (zrange 0 (Z.to_nat NUM)) with (zrange 0 n ++ Z.of_nat n :: zrange (Z.of_nat n + 1) (7 - n)).
  2:{ replace (Z.to_nat NUM) with (n + S (7 - n))%nat by (change (Z.to_nat NUM) with 8%nat; lia).
      rewrite zrange_app, zrange_S. by rewrite Z.add_0_l. }
  by krun (Hs (zrange 0 n) ltac:(intros i Hi; apply elem_of_zrange in Hi; lia) (zrange (Z.of_nat n + 1) (7 - n))).
Qed.

Lemma alloc3_ok s :
  dk_free (k_vdisk s) = replicate 8 1 ->
  alloc3_desc s = Ok (Some (0, 1, 2)) (s <| k_vdisk ::= λ d, d <| dk_free := taken |> |>).
Proof.
  intros E. unfold alloc3_desc.
  krun (alloc_desc_ok s 0 [1; 1; 1; 1; 1; 1; 1] E ltac:(lia)). change (Z.of_nat 0 <? 0) with false. cbn match.
  set (s1 := s <| k_vdisk ::= _ |>).
  krun (alloc_desc_ok s1 1 [1; 1; 1; 1; 1; 1] eq_refl ltac:(lia)).
  set (s2 := s1 <| k_vdisk ::= _ |>). change (Z.of_nat 1 <? 0) with false. cbn match.
  krun (alloc_desc_ok s2 2 [1; 1; 1; 1; 1] eq_refl ltac:(lia)).
  change (Z.of_nat 2 <? 0) with false. cbn match. unfold ret. apply ok_eq. subst s1 s2. by keq.
Qed.

(** No process sleeps waiting for a descriptor. *)
Definition none_waits (s : kstate) : Prop :=
  ∀ i x, k_procs s !! i = Some x -> p_state x = SLEEPING -> p_chan x <> Ch_disk_free.

Lemma free_desc_ok i s h cp :
  quiet s h cp -> procs_idle s -> none_waits s -> 0 <= i < NUM ->
  dk_free (k_vdisk s) !! Z.to_nat i = Some 0 ->
  free_desc i s = Ok tt (s <| k_vdisk ::= λ d, d <| dk_desc ::= <[Z.to_nat i := Vdesc 0 0 0 0]> |>
                                                 <| dk_free ::= λ f, aset f i 1 |> |>).
Proof using Hfuel.
  intros Hq Hi Hn Hr Hf. unfold free_desc.
  replace (NUM <=? i) with false by (symmetry; apply Z.leb_gt; lia).
  unfold getvd. rewrite bind_gets, Hf. cbn [deref]. rewrite bind_ret. change (truth 0) with false. cbn match.
  unfold updvd. rewrite bind_modify. eapply wakeup_nobody; [done|by eapply quiet_ext|by eapply procs_idle_ext|].
  exact Hn.
Qed.

(** One descriptor of the chain is freed. *)
Lemma free_step i s h cp f de :
  quiet s h cp -> procs_idle s -> none_waits s -> 0 <= i < NUM -> dk_free (k_vdisk s) = f ->
  f !! Z.to_nat i = Some 0 -> dk_desc (k_vdisk s) !! Z.to_nat i = Some de ->
  free_chain_body i s
  = Ok (if truth (Z.land (vd_flags de) VRING_DESC_F_NEXT) then inl (vd_next de) else inr tt)
      (s <| k_vdisk ::= λ d, d <| dk_desc ::= <[Z.to_nat i := Vdesc 0 0 0 0]> |>
                               <| dk_free ::= λ f, aset f i 1 |> |>).
Proof using Hfuel.
  intros Hq Hi Hn Hr <- Hf Hd. unfold free_chain_body, getvd. rewrite bind_gets, Hd. cbn [deref]. rewrite bind_ret.
  krun (free_desc_ok i s h cp Hq Hi Hn Hr Hf). by destruct (truth _).
Qed.

Lemma free_chain_ok s h cp b write :
  quiet s h cp -> procs_idle s -> none_waits s -> dk_free (k_vdisk s) = taken ->
  dk_desc (k_vdisk s) !! 0%nat = Some (Vdesc (ops_addr 0) 16 VRING_DESC_F_NEXT 1) ->
  dk_desc (k_vdisk s) !! 1%nat = Some (Vdesc (bufdata_addr b) BSIZE
    (Z.lor (if write : bool then 0 else VRING_DESC_F_WRITE) VRING_DESC_F_NEXT) 2) ->
  dk_desc (k_vdisk s) !! 2%nat = Some (Vdesc (status_addr 0) 1 VRING_DESC_F_WRITE 0) ->
  free_chain 0 s = Ok tt (s <| k_vdisk ::= finished |>).
Proof using Hfuel.
  intros Hq Hi Hn Hf H0' H1' H2'. unfold free_chain. change (S (Z.to_nat NUM)) with 9%nat. cbn [loop].
  krun (free_step 0 s h cp taken _ Hq Hi Hn ltac:(done) Hf eq_refl H0').
  change (truth _) with true. cbn match. cbn [vd_next]. set (s1 := s <| k_vdisk ::= _ |>).
  assert (Hf1 : dk_free (k_vdisk s1) = [1; 0; 0; 1; 1; 1; 1; 1]) by (subst s1; simpl; by rewrite Hf).
  assert (Hd1 : dk_desc (k_vdisk s1) = <[0%nat := Vdesc 0 0 0 0]> (dk_desc (k_vdisk s))) by done.
  rewrite (bind_ok _ _ _ _ _ (free_step 1 s1 h cp _ _ ltac:(by eapply quiet_ext) ltac:(by eapply procs_idle_ext) Hn
    ltac:(done) Hf1 eq_refl ltac:(rewrite Hd1, list_lookup_insert_ne by lia; exact H1'))).
  replace (truth _) with true by (by destruct write). cbn match. cbn [vd_next]. set (s2 := s1 <| k_vdisk ::= _ |>).
  assert (Hf2 : dk_free (k_vdisk s2) = [1; 1; 0; 1; 1; 1; 1; 1]) by (subst s2 s1; simpl; by rewrite Hf).
  assert (Hd2 : dk_desc (k_vdisk s2) = <[1%nat := Vdesc 0 0 0 0]> (dk_desc (k_vdisk s1))) by done.
  rewrite (bind_ok _ _ _ _ _ (free_step 2 s2 h cp _ _ ltac:(by eapply quiet_ext) ltac:(by eapply procs_idle_ext) Hn
    ltac:(done) Hf2 eq_refl ltac:(rewrite Hd2, Hd1, !list_lookup_insert_ne by lia; exact H2'))).
  change (truth _) with false. cbn match. unfold ret. apply ok_eq. keq.
  unfold finished. destruct (k_vdisk s). simpl in Hf. by subst.
Qed.

(** ** The interrupt handler *)

(** The used ring has one entry that the driver has not seen, for [b]. *)
Record completed (d : diskstate) (b : nat) : Prop := {
  cm_range : 0 <= dk_used_idx d < 2 ^ 16;
  cm_idx : vu_idx (dk_used d) = u16 (dk_used_idx d + 1);
  cm_entry : ∃ len, vu_ring (dk_used d) !! Z.to_nat (dk_used_idx d mod NUM) = Some (0, len);
  cm_info : dk_info d !! 0%nat = Some (Vinfo (Some b) 0)
}.

Definition seen (d : diskstate) : diskstate := d <| dk_used_idx ::= λ i, u16 (i + 1) |>.

Lemma intr_body_ok s h cp b x :
  quiet s h cp -> cp_proc cp = None -> procs_idle s -> completed (k_vdisk s) b -> k_bufs s !! b = Some x ->
  ∃ ps, intr_body tt s = Ok (inl tt) (s <| k_bufs ::= upd b (λ x, x <| b_disk := 0 |>) |>
                                        <| k_procs := ps |> <| k_vdisk ::= seen |>)
    ∧ ∀ i, ps !! i = wake_proc (Ch_buf b) <$> k_procs s !! i.
Proof using Hfuel.
  intros Hq Hp Hi [Hr Hx [len He] Hf] Hb. unfold intr_body, getvd. rewrite bind_gets, Hx.
  replace (dk_used_idx (k_vdisk s) =? _) with false.
  2:{ symmetry. apply Z.eqb_neq. unfold u16. change (2 ^ 16) with 65536 in *. zmod. }
  cbn [negb]. rewrite He. cbn [deref]. rewrite bind_ret. change (Z.to_nat 0) with 0%nat. rewrite Hf. cbn [deref].
  rewrite bind_ret. cbn [vi_status vi_b Z.eqb negb deref]. rewrite bind_ret.
  krun (updb_ok b x (λ x, x <| b_disk := 0 |>) s Hb).
  set (s1 := s <| k_bufs ::= _ |>).
  destruct (wakeup_ok Hfuel (Ch_buf b) s1 h cp) as (ps & E & Hps); [by eapply quiet_ext|by eapply procs_idle_ext|].
  exists ps. krun E. split; [done|]. intros i. rewrite Hps, Hp. apply option_fmap_ext. intros y. by rewrite decide_False.
Qed.

Lemma virtio_intr_ok s h cp b x v mi :
  scheduling s h cp -> cp_proc cp = None -> procs_idle s -> lock_free L_vdisk s ->
  completed (k_vdisk s) b -> k_bufs s !! b = Some x -> k_mmio_in s = v :: mi ->
  ∃ ps o, virtio_disk_intr s = Ok tt ((synced h s) <| k_bufs ::= upd b (λ x, x <| b_disk := 0 |>) |>
      <| k_procs := ps |> <| k_vdisk ::= seen |> <| k_mmio_in := mi |> <| k_mmio_out := o |>)
    ∧ ∀ i, ps !! i = wake_proc (Ch_buf b) <$> k_procs s !! i.
Proof using Hfuel.
  intros Hs Hp Hi Hl Hc Hb Hv. unfold virtio_disk_intr. krun (acquire_synced Hfuel L_vdisk s h cp Hs Hl).
  pose proof (quiet_synced s h cp Hs) as Hq. set (s0 := synced h s) in *.
  set (cp0 := cp <| cp_intena := _ |>) in Hq.
  assert (Hl0 : lock_free L_vdisk s0) by exact Hl.
  pose proof (quiet_enter L_vdisk s0 h cp0 Hq) as Hq1. set (s1 := enter L_vdisk s0) in *.
  assert (Er : readR VIRTIO_MMIO_INTERRUPT_STATUS s1 = Ok (u32 v) (s1 <| k_mmio_in := mi |>)).
  { unfold readR, mmio_read, kbind. change (k_mmio_in s1) with (k_mmio_in s). by rewrite Hv. }
  krun Er. unfold writeR, mmio_write. rewrite bind_modify.
  set (s2 := _ <| k_mmio_out ::= _ |>). unfold getvd. rewrite bind_gets.
  assert (Hc2 : completed (k_vdisk s2) b) by exact Hc.
  replace (u16 _) with 1.
  2:{ rewrite (cm_idx _ _ Hc2). pose proof (cm_range _ _ Hc2). unfold u16. change (2 ^ 16) with 65536 in *. zmod. }
  assert (Hi2 : procs_idle s2).
  { eapply procs_idle_ext; [apply (procs_idle_enter L_vdisk s0); [done|]|done|done]. by eapply procs_idle_ext. }
  destruct (intr_body_ok s2 _ _ b x ltac:(eapply quiet_ext; [exact Hq1|done..]) Hp Hi2 Hc2 Hb) as (ps & E & Hps).
  exists ps, (k_mmio_out s2). split; [|exact Hps].
  change (Z.to_nat 1) with 1%nat.
  set (s3 := s0 <| k_bufs ::= upd b (λ x, x <| b_disk := 0 |>) |> <| k_procs := ps |> <| k_vdisk ::= seen |>
    <| k_mmio_in := mi |> <| k_mmio_out := k_mmio_out s2 |>).
  set (s4 := s2 <| k_bufs ::= _ |> <| k_procs := ps |> <| k_vdisk ::= seen |>) in E.
  assert (Es : s4 = enter L_vdisk s3) by (subst s4 s3 s2 s1; unfold enter, pushed, lock_of; by keq).
  assert (E2 : intr_body tt s4 = Ok (inr tt) s4).
  { unfold intr_body, getvd. rewrite bind_gets. change (k_vdisk s4) with (seen (k_vdisk s)).
    change (dk_used (seen (k_vdisk s))) with (dk_used (k_vdisk s)). rewrite (cm_idx _ _ Hc).
    change (dk_used_idx (seen (k_vdisk s))) with (u16 (dk_used_idx (k_vdisk s) + 1)). by rewrite Z.eqb_refl. }
  rewrite (bind_ok _ _ _ tt s4).
  2:{ cbn [loop]. krun E. cbn match. by krun E2. }
  rewrite Es. apply (release_ok _ s3 h cp0); [by eapply quiet_ext|by eapply lock_free_ext].
Qed.
End driver.

(** ** The driver sleeps and wakes *)
Section wait.
Context `{Fuel} `{Symbols} `{DiskLayout} (Hfuel : (1 <= fuel)%nat).
Context (device : kstate -> kstate) `{!VirtioDevice device}.

(** What the device and the interrupt handler have done to the state [s]. *)
Definition transferred (b : nat) (write : bool) (x : buf) (len : Z) (i : list Z) (o : list (Z * Z))
    (s : kstate) : kstate :=
  (disk_done b write x s) <| k_bufs ::= upd b (λ x, x <| b_disk := 0 |>) |>
    <| k_vdisk ::= λ d, seen (answered 0 len d) |> <| k_mmio_in := i |> <| k_mmio_out := o |>.

Lemma disk_done_frame b write x s :
  k_cur (disk_done b write x s) = k_cur s ∧ k_harts (disk_done b write x s) = k_harts s
  ∧ k_cpus (disk_done b write x s) = k_cpus s ∧ k_procs (disk_done b write x s) = k_procs s
  ∧ k_locks (disk_done b write x s) = k_locks s ∧ k_vdisk (disk_done b write x s) = k_vdisk s
  ∧ k_mmio_in (disk_done b write x s) = k_mmio_in s.
Proof. unfold disk_done. by destruct write. Qed.

Lemma disk_done_buf b write x s :
  k_bufs s !! b = Some x -> ∃ y, k_bufs (disk_done b write x s) !! b = Some y.
Proof.
  intros Hb. unfold disk_done. destruct write; [by exists x|]. simpl.
  rewrite upd_lookup, decide_True, Hb by done. simpl. eauto.
Qed.

(** A process that sleeps waiting for [b], and no other does. *)
Record asleep (b p : nat) (s : kstate) (h : hart) (cp : cpu) : Prop := {
  as_quiet : quiet s h cp;
  as_noff : cp_noff cp = 0;
  as_cur : cp_proc cp = Some p;
  as_idle : procs_idle s;
  as_proc : ∃ y, k_procs s !! p = Some y ∧ p_state y = SLEEPING ∧ p_chan y = Ch_buf b;
  as_only : ∀ i y, k_procs s !! i = Some y -> p_state y = SLEEPING -> p_chan y = Ch_buf b -> i = p
}.

(** The scheduler's hart: interrupts on, no process. *)
Definition at_scheduler (s : kstate) : kstate :=
  s <| k_harts ::= upd (k_cur s) (λ h, h <| h_sstatus ::= λ x, Z.lor x SSTATUS_SIE |>) |>
    <| k_cpus ::= upd (k_cur s) (λ cp, cp <| cp_proc := None |>) |>.

Definition on_hart (h : hart) : hart := h <| h_sstatus ::= λ x, Z.lor x SSTATUS_SIE |>.

Lemma scheduling_at s h cp :
  quiet s h cp -> cp_noff cp = 0 ->
  scheduling (at_scheduler s) (on_hart h) (cp <| cp_proc := None |>).
Proof.
  intros [Hh Hc Ht Hr Hn Ho Hi] E0. constructor; try done; simpl.
  - rewrite upd_lookup, decide_True by done. by rewrite Hh.
  - rewrite upd_lookup, decide_True by done. by rewrite Hc.
Qed.

Lemma woken_up b p s h cp ps :
  asleep b p s h cp -> (∀ i, ps !! i = wake_proc (Ch_buf b) <$> k_procs s !! i) ->
  ps = upd p (λ y, y <| p_state := RUNNABLE |>) (k_procs s).
Proof.
  intros [_ _ _ _ (y & Hy & Hs & Hc) Ho] Hps. apply list_eq. intros i. rewrite Hps, upd_lookup.
  case_decide as E; [subst i|].
  - rewrite Hy. simpl. unfold wake_proc. by rewrite Hs, Hc, !bool_decide_eq_true_2.
  - destruct (k_procs s !! i) as [z|] eqn:Hz; [|done]. simpl. f_equal. unfold wake_proc.
    destruct (decide (p_state z = SLEEPING)) as [Es|Es]; [|by rewrite bool_decide_eq_false_2].
    rewrite (bool_decide_eq_false_2 (p_chan z = Ch_buf b)); [by rewrite andb_false_r|].
    intros Ec. apply E. symmetry. by apply (Ho i z).
Qed.

(** The state in which the process is switched back to. *)
Definition resumed (p : nat) (s : kstate) : kstate :=
  (enter (L_proc p) (s <| k_cpus ::= upd (k_cur s) (λ cp, cp <| cp_intena := 1 |>) |>
     <| k_procs ::= upd p (λ y, y <| p_state := RUNNING |>) |>
     <| k_harts ::= upd (k_cur s) on_hart |>)).

(** The end of [meanwhile]: the scheduler finds the process runnable. *)
Lemma pick_ok c p s h cp y :
  quiet s h cp -> lock_free (L_proc p) s -> k_procs s !! p = Some y -> p_state y = RUNNABLE -> c = k_cur s ->
  (acquire (L_proc p) ;;
   x ← getp p;
   when (bool_decide (p_state x = RUNNABLE))
     (updp p (λ x, x <| p_state := RUNNING |>) ;;
      updcpu c (λ cp, cp <| cp_proc := Some p |>))) s
  = Ok tt ((enter (L_proc p) s) <| k_procs ::= upd p (λ x, x <| p_state := RUNNING |>) |>
             <| k_cpus ::= upd c (λ cp, cp <| cp_proc := Some p |>) |>).
Proof using Hfuel.
  intros Hq Hl Hy Hr ->. krun (acquire_ok Hfuel (L_proc p) s h cp Hq Hl).
  pose proof (q_cpu _ _ _ (quiet_enter (L_proc p) s h cp Hq)) as Hc.
  assert (Hy1 : k_procs (enter (L_proc p) s) !! p = Some y) by exact Hy.
  krun (getp_ok _ _ _ Hy1). rewrite bool_decide_eq_true_2 by done. cbn [when].
  krun (updp_ok _ _ (λ x, x <| p_state := RUNNING |>) _ Hy1).
  match goal with |- updcpu ?c ?f ?st = _ => rewrite (updcpu_ok c _ f st Hc) end. done.
Qed.

(** The start of [meanwhile]: up to the device. *)
Lemma give_back_ok p s h cp (f : K unit) :
  quiet s h cp -> lock_free (L_proc p) s ->
  (updcpu (k_cur s) (λ cp, cp <| cp_proc := None |>) ;; release (L_proc p) ;; intr_on ;; f) (enter (L_proc p) s)
  = f (at_scheduler s).
Proof.
  intros Hq Hl. pose proof (quiet_enter (L_proc p) s h cp Hq) as Hq1.
  krun (updcpu_ok (k_cur s) _ (λ cp, cp <| cp_proc := None |>) _ (q_cpu _ _ _ Hq1)).
  set (s1 := s <| k_cpus ::= upd (k_cur s) (λ cp, cp <| cp_proc := None |>) |>).
  assert (Hq2 : quiet s1 h (cp <| cp_proc := None |>)).
  { destruct Hq as [Hh Hc Ht Hr Hn Hout Hin]. constructor; try done. simpl.
    rewrite upd_lookup, decide_True by done. by rewrite Hc. }
  rewrite (bind_ok _ _ _ tt s1).
  2:{ apply (leave_ok _ _ s1 h (cp <| cp_proc := None |>) Hq2 Hl).
      subst s1. unfold enter, pushed, lock_of. keq. by rewrite !upd_upd. }
  rewrite (bind_ok intr_on _ s1 tt (at_scheduler s)); [done|].
  rewrite (intr_on_set _ _ (q_hart _ _ _ Hq2)). apply ok_eq. by keq.
Qed.

(** The state of the machine when the device has answered and the handler has run. *)
Definition handled (b : nat) (write : bool) (x : buf) (h : hart) (len v : Z) (i : list Z) (o : list (Z * Z))
    (ps : list proc) (s : kstate) : kstate :=
  (synced (on_hart h) ((disk_done b write x (at_scheduler s)) <| k_vdisk ::= answered 0 len |>
      <| k_mmio_in ::= cons v |>))
    <| k_bufs ::= upd b (λ x, x <| b_disk := 0 |>) |> <| k_procs := ps |> <| k_vdisk ::= seen |>
    <| k_mmio_in := i |> <| k_mmio_out := o |>.

Lemma resumed_eq b p write x s h cp y len v i o :
  quiet s h cp -> cp_proc cp = Some p -> k_procs s !! p = Some y ->
  (enter (L_proc p) (handled b write x h len v i o (upd p (λ y, y <| p_state := RUNNABLE |>) (k_procs s)) s))
    <| k_procs ::= upd p (λ x, x <| p_state := RUNNING |>) |>
    <| k_cpus ::= upd (k_cur s) (λ cp, cp <| cp_proc := Some p |>) |>
  = resumed p (transferred b write x len i o s).
Proof.
  intros Hq Hcur Hy.
  unfold handled, resumed, transferred, enter, pushed, synced, lock_of, at_scheduler, disk_done.
  destruct write; keq.
  all: try (rewrite sie_on_lor, !upd_upd; eapply upd_ext; [exact (q_cpu _ _ _ Hq)|];
    destruct cp; simpl in *; by subst).
  all: rewrite upd_upd; eapply upd_ext; [exact Hy|]; by destruct y.
Qed.

(** The middle of [meanwhile]: the device and the interrupt handler. *)
Lemma serve_ok b p write x s h cp (f : K unit) :
  asleep b p s h cp -> lock_free L_vdisk s -> request (k_vdisk s) b write (2 * b_blockno x) 0 1 2 ->
  (∀ len, completed (answered 0 len (k_vdisk s)) b) -> k_bufs s !! b = Some x ->
  ∃ len v o, let s' := handled b write x h len v (k_mmio_in s) o
                         (upd p (λ y, y <| p_state := RUNNABLE |>) (k_procs s)) s in
    (modify device ;; virtio_disk_intr ;; f) (at_scheduler s) = f s'
    ∧ (∃ h' cp', quiet s' h' cp') ∧ k_cur s' = k_cur s ∧ k_locks s' = k_locks s.
Proof using Hfuel VirtioDevice0.
  intros Ha Hl Hrq Hcm Hb. pose proof Ha as [Hq E0 _ Hi _ _]. rewrite bind_modify.
  destruct (device_serves (at_scheduler s) b write x 0 1 2 Hrq Hb) as (len & v & ->).
  destruct (disk_done_frame b write x (at_scheduler s)) as (F1 & F2 & F3 & F4 & F5 & F6 & F7).
  destruct (disk_done_buf b write x (at_scheduler s) Hb) as [z Hz].
  pose proof (scheduling_at s h cp Hq E0) as [S1 S2 S3 S4 S5].
  set (s2 := _ <| k_mmio_in ::= cons v |>).
  assert (Hs2 : scheduling s2 (on_hart h) (cp <| cp_proc := None |>)).
  { constructor; try done; subst s2; simpl; rewrite ?F1, ?F2, ?F3; done. }
  destruct (virtio_intr_ok Hfuel s2 _ _ b z v (k_mmio_in s) Hs2 eq_refl) as (ps & o & E & Hps).
  - eapply procs_idle_ext; [exact Hi|subst s2; simpl; by rewrite F4|subst s2; simpl; by rewrite F5].
  - eapply lock_free_ext; [exact Hl|subst s2; simpl; by rewrite F5].
  - subst s2; simpl; rewrite F6; apply Hcm.
  - exact Hz.
  - subst s2. simpl. by rewrite F7.
  - assert (Hps' : ps = upd p (λ y, y <| p_state := RUNNABLE |>) (k_procs s)).
    { eapply woken_up; [exact Ha|]. intros i. rewrite Hps. subst s2. simpl. by rewrite F4. }
    exists len, v, o. rewrite <- Hps'. split; [by krun E|]. unfold handled. fold s2. split_and!.
    + eexists _, _. eapply quiet_ext; [exact (quiet_synced _ _ _ Hs2)|done..].
    + simpl. by rewrite F1.
    + simpl. by rewrite F5.
Qed.

Lemma meanwhile_ok b p write x s h cp :
  asleep b p s h cp -> lock_free L_vdisk s -> request (k_vdisk s) b write (2 * b_blockno x) 0 1 2 ->
  (∀ len, completed (answered 0 len (k_vdisk s)) b) -> k_bufs s !! b = Some x ->
  ∃ len i o, meanwhile device (enter (L_proc p) s) = Ok tt (resumed p (transferred b write x len i o s)).
Proof using Hfuel VirtioDevice0.
  intros Ha Hl Hrq Hcm Hb. pose proof Ha as [Hq E0 Hcur Hi (y & Hy & Hys & Hyc) Ho]. unfold meanwhile.
  pose proof (quiet_enter (L_proc p) s h cp Hq) as Hq1. krun (mycpu_ok _ _ _ Hq1).
  krun (getcpu_ok _ _ _ (q_cpu _ _ _ Hq1)). change (cp_proc (cp <| cp_noff ::= _ |>)) with (cp_proc cp).
  rewrite Hcur. cbn [deref]. rewrite bind_ret. change (k_cur (enter (L_proc p) s)) with (k_cur s).
  assert (Hlp : lock_free (L_proc p) s).
  { apply (pi_free _ Hi). rewrite <- (pi_len _ Hi). by eapply lookup_lt_Some. }
  rewrite (give_back_ok p s h cp _ Hq Hlp).
  edestruct (serve_ok b p write x s h cp) as (len & v & o & E & (h' & cp' & Hq') & Ec & El); try done.
  exists len, (k_mmio_in s), o. rewrite E. clear E. set (s' := handled _ _ _ _ _ _ _ _ _ _) in *.
  rewrite (pick_ok (k_cur s) p s' h' cp' (y <| p_state := RUNNABLE |>)); try done.
  - apply ok_eq. by eapply resumed_eq.
  - by eapply lock_free_ext.
  - simpl. rewrite upd_lookup, decide_True by done. by rewrite Hy.
Qed.

(** sched() of a process that sleeps, with only its own lock held. *)
Lemma sched_ok p s h cp y :
  quiet s h cp -> cp_noff cp = 0 -> cp_proc cp = Some p -> k_procs s !! p = Some y -> p_state y <> RUNNING ->
  sched (enter (L_proc p) s)
  = Yield W_sched (enter (L_proc p) s) (c ← mycpu; updcpu c (λ c, c <| cp_intena := cp_intena cp |>)).
Proof.
  intros Hq E0 Hc Hy Hs. pose proof (quiet_enter (L_proc p) s h cp Hq) as Hq1. set (s1 := enter (L_proc p) s) in *.
  unfold sched. krun (curproc_ok s1 _ _ p Hq1 Hc).
  assert (Hh : holding (L_proc p) s1 = Ok true s1).
  { unfold holding, getlock. rewrite bind_gets. krun (mycpu_ok _ _ _ Hq1). unfold s1. rewrite lock_of_enter.
    simpl. by rewrite bool_decide_eq_true_2. }
  krun Hh. cbn [negb]. krun (mycpu_ok _ _ _ Hq1). krun (getcpu_ok _ _ _ (q_cpu _ _ _ Hq1)).
  change (cp_noff (cp <| cp_noff ::= _ |>)) with (cp_noff cp + 1). rewrite E0. change (negb (0 + 1 =? 1)) with false. cbn match.
  assert (Hy1 : k_procs s1 !! p = Some y) by exact Hy. krun (getp_ok _ _ _ Hy1).
  rewrite bool_decide_eq_false_2 by done. krun (intr_get_ok _ _ _ Hq1).
  rewrite (q_in _ _ _ Hq1) by (simpl; lia). cbn [b2z]. change (truth 0) with false. cbn match.
  krun (mycpu_ok _ _ _ Hq1). by krun (getcpu_ok _ _ _ (q_cpu _ _ _ Hq1)).
Qed.

(** Interrupts turned on, off, and on again if they were on. *)
Lemma sie_restored x :
  (if sie_on x then Z.lor (Z.land (Z.lor x SSTATUS_SIE) (Z.lnot SSTATUS_SIE)) SSTATUS_SIE
   else Z.land (Z.lor x SSTATUS_SIE) (Z.lnot SSTATUS_SIE)) = x.
Proof.
  destruct (sie_on x) eqn:E; [|by apply sie_lor_off].
  rewrite Z.land_lor_distr_l. change (Z.land SSTATUS_SIE (Z.lnot SSTATUS_SIE)) with 0.
  rewrite Z.lor_0_r. by apply sie_on_off_id.
Qed.

Definition awake (y : proc) : proc := y <| p_state := RUNNING |> <| p_chan := Ch_null |>.

(** Back in the process: sched() restores intena, and sleep() goes on. *)
Lemma sched_return p s h cp y (f : K unit) :
  quiet s h cp -> cp_noff cp = 0 -> lock_free (L_proc p) s -> k_procs s !! p = Some y ->
  ((c ← mycpu; updcpu c (λ c, c <| cp_intena := cp_intena cp |>)) ;;
   updp p (λ x, x <| p_chan := Ch_null |>) ;; release (L_proc p) ;; f) (resumed p s)
  = f (s <| k_procs ::= upd p awake |>).
Proof.
  intros Hq E0 Hl Hy. pose proof Hq as [Hh Hc Ht Hr Hn Ho Hi]. specialize (Ho E0).
  set (s1 := resumed p s).
  assert (H1h : k_harts s1 !! k_cur s1 = Some ((on_hart h) <| h_sstatus ::= λ x, Z.land x (Z.lnot SSTATUS_SIE) |>)).
  { simpl. rewrite !upd_lookup, !decide_True by done. by rewrite Hh. }
  assert (H1c : k_cpus s1 !! k_cur s1 = Some (cp <| cp_intena := 1 |> <| cp_noff := 1 |>)).
  { simpl. rewrite !upd_lookup, !decide_True by done. rewrite Hc. simpl. destruct cp; simpl in *. by subst. }
  assert (Hm : mycpu s1 = Ok (k_cur s) s1).
  { unfold mycpu, cpuid, r_tp, hart_get, kbind, gets. cbn [bindo]. rewrite H1h. simpl.
    rewrite Ht, i32_small by lia. unfold ret. by rewrite Nat2Z.id. }
  rewrite (bind_ok _ _ _ tt (s1 <| k_cpus ::= upd (k_cur s) (λ c, c <| cp_intena := cp_intena cp |>) |>)).
  2:{ krun Hm. by apply (updcpu_ok (k_cur s) _ _ s1 H1c). }
  set (s2 := s1 <| k_cpus ::= _ |>).
  assert (Hy2 : k_procs s2 !! p = Some (y <| p_state := RUNNING |>)).
  { simpl. rewrite upd_lookup, decide_True by done. by rewrite Hy. }
  krun (updp_ok _ _ (λ x, x <| p_chan := Ch_null |>) _ Hy2). set (s3 := s2 <| k_procs ::= _ |>).
  assert (Hin : inside (L_proc p) s3 ((on_hart h) <| h_sstatus ::= λ x, Z.land x (Z.lnot SSTATUS_SIE) |>)
                  (cp <| cp_noff := 1 |>)).
  { constructor; [constructor| | |].
    - exact H1h.
    - subst s3 s2. simpl in *. rewrite upd_lookup, decide_True by done. rewrite H1c. by destruct cp.
    - exact Ht.
    - exact Hr.
    - done.
    - done.
    - intros _. apply sie_off_off.
    - done.
    - change (cp_intena (cp <| cp_noff := 1 |>)) with (cp_intena cp). rewrite Ho.
      destruct (sie_on (h_sstatus h)); [by right|by left].
    - eexists. simpl. by rewrite lookup_insert_eq. }
  krun (release_leave Hfuel _ _ _ _ Hin). f_equal. change (cp_intena (cp <| cp_noff := 1 |>)) with (cp_intena cp).
  rewrite Ho, truth_b2z. destruct Hl as [name Hl]. clear - Hh Hc Hy Hl E0 Ho.
  subst s3 s2 s1. unfold leave, resumed, enter, pushed, lock_of. keq.
  - rewrite !upd_upd. eapply upd_id; [exact Hh|]. destruct h; unfold on_hart, update; simpl in *.
    f_equal. apply sie_restored.
  - rewrite lookup_insert_eq, insert_insert_eq. simpl. rewrite Hl. simpl. by apply insert_id.
  - rewrite !upd_upd. eapply upd_id; [exact Hc|]. destruct cp; unfold update; simpl in *. by subst.
  - by rewrite upd_upd.
Qed.

Lemma transferred_frame b write x len i o s :
  let s' := transferred b write x len i o s in
  k_cur s' = k_cur s ∧ k_harts s' = k_harts s ∧ k_cpus s' = k_cpus s ∧ k_procs s' = k_procs s
  ∧ k_locks s' = k_locks s.
Proof. unfold transferred, disk_done. by destruct write. Qed.

Lemma transferred_awake b write x len i o s p y f :
  k_procs s !! p = Some y -> awake (f y) = y ->
  (transferred b write x len i o (s <| k_procs ::= upd p f |>)) <| k_procs ::= upd p awake |>
  = transferred b write x len i o s.
Proof.
  intros Hy Hf. unfold transferred, disk_done. destruct write; keq.
  all: rewrite upd_upd; eapply upd_id; [exact Hy|exact Hf].
Qed.

Lemma run_switch {A B} env (m : K A) (f : A -> K B) w s s1 (k : K A) :
  m s = Yield w s1 k -> run env ((m ≫= f) s) = run env ((k ≫= f) (env w s1)).
Proof. intros E. unfold kbind at 1. by rewrite E. Qed.

(** sleep() of the running process on [Ch_buf b], the lock [L_vdisk] held: it
    returns when the transfer is done. *)
Lemma sleep_ok b p write x s h cp y :
  quiet s h cp -> cp_noff cp = 0 -> cp_proc cp = Some p -> procs_idle s -> k_procs s !! p = Some y ->
  p_state y = RUNNING -> p_chan y = Ch_null ->
  (∀ i z, k_procs s !! i = Some z -> p_state z = SLEEPING -> p_chan z <> Ch_buf b) ->
  lock_free L_vdisk s -> request (k_vdisk s) b write (2 * b_blockno x) 0 1 2 ->
  (∀ len, completed (answered 0 len (k_vdisk s)) b) -> k_bufs s !! b = Some x ->
  ∃ len i o, run (virtio_env device) (sleep (Ch_buf b) L_vdisk (enter L_vdisk s))
    = Ok tt (enter L_vdisk (transferred b write x len i o s)).
Proof using Hfuel VirtioDevice0.
  intros Hq E0 Hcur Hi Hy Hyr Hyc Hno Hl Hrq Hcm Hb. unfold sleep.
  pose proof (quiet_enter L_vdisk s h cp Hq) as Hq1. set (s1 := enter L_vdisk s) in *.
  assert (Hlp : lock_free (L_proc p) s).
  { apply (pi_free _ Hi). rewrite <- (pi_len _ Hi). by eapply lookup_lt_Some. }
  krun (curproc_ok s1 _ _ p Hq1 Hcur).
  krun (acquire_ok Hfuel (L_proc p) s1 _ _ Hq1 (lock_free_enter (L_proc p) L_vdisk s ltac:(done) Hlp)).
  pose proof (quiet_enter (L_proc p) s h cp Hq) as Hq2. set (s2 := enter (L_proc p) s) in *.
  rewrite (bind_ok (release L_vdisk) _ _ tt s2).
  2:{ subst s1. rewrite enter_comm by done.
      exact (release_ok L_vdisk s2 _ _ Hq2 (lock_free_enter L_vdisk (L_proc p) s ltac:(done) Hl)). }
  assert (Hy2 : k_procs s2 !! p = Some y) by exact Hy.
  krun (updp_ok _ _ (λ x, x <| p_chan := Ch_buf b |>) _ Hy2). set (s3 := s2 <| k_procs ::= _ |>).
  assert (Hy3 : k_procs s3 !! p = Some (y <| p_chan := Ch_buf b |>)).
  { simpl. rewrite upd_lookup, decide_True by done. by rewrite Hy. }
  krun (updp_ok _ _ (λ x, x <| p_state := SLEEPING |>) _ Hy3).
  set (doze := λ y : proc, y <| p_chan := Ch_buf b |> <| p_state := SLEEPING |>).
  set (sA := s <| k_procs ::= upd p doze |>).
  match goal with |- context [sched ≫= ?g] => set (rest := g) end.
  match goal with |- context [(sched ≫= rest) ?st] => replace st with (enter (L_proc p) sA) end.
  2:{ subst sA s3 s2. unfold enter, pushed, lock_of. keq. by rewrite upd_upd. }
  assert (HyA : k_procs sA !! p = Some (doze y)).
  { subst sA. simpl. rewrite upd_lookup, decide_True by done. by rewrite Hy. }
  assert (HqA : quiet sA h cp) by (by eapply quiet_ext).
  assert (Has : asleep b p sA h cp).
  { constructor; try done.
    - eapply procs_idle_ext; [exact Hi|apply length_upd|done].
    - by exists (doze y).
    - intros i z Hz Hs Hc. subst sA. simpl in Hz. rewrite upd_lookup in Hz. case_decide; [done|].
      exfalso. by eapply Hno. }
  destruct (meanwhile_ok b p write x sA h cp Has Hl Hrq Hcm Hb) as (len & i & o & Em).
  destruct (transferred_frame b write x len i o sA) as (F1 & F2 & F3 & F4 & F5).
  exists len, i, o.
  rewrite (run_switch (virtio_env device) sched rest W_sched (enter (L_proc p) sA) _ _
    (sched_ok p sA h cp (doze y) HqA E0 Hcur HyA ltac:(done))).
  unfold virtio_env at 2. rewrite Em. set (sT := transferred b write x len i o sA) in *. subst rest.
  rewrite (sched_return p sT h cp (doze y)).
  - subst sT sA. rewrite (transferred_awake _ _ _ _ _ _ s p y doze Hy).
    2:{ subst doze. unfold awake. destruct y; simpl in *. by subst. }
    destruct (transferred_frame b write x len i o s) as (G1 & G2 & G3 & G4 & G5).
    rewrite (acquire_ok Hfuel L_vdisk _ h cp); [done| |by eapply lock_free_ext]. by eapply quiet_ext.
  - eapply quiet_ext; [exact HqA|done..].
  - done.
  - eapply lock_free_ext; [exact Hlp|exact F5].
  - by rewrite F4.
Qed.

(** The outer state once the request is in the queue. *)
Definition requested (b : nat) (write : bool) (sector : Z) (s : kstate) : kstate :=
  s <| k_vdisk ::= queued b write sector |> <| k_bufs ::= upd b (λ x, x <| b_disk := 1 |>) |>
    <| k_mmio_out ::= λ o, o ++ [(VIRTIO0 + VIRTIO_MMIO_QUEUE_NOTIFY, u32 0)] |>.

(** The rest of virtio_disk_rw() after the request is made. *)
Definition rw_rest (b : nat) (i0 : Z) : K unit :=
  loop (S fuel) (rw_wait_body b) tt ;;
  updvd (λ d, d <| dk_info ::= upd (Z.to_nat i0) (λ x, x <| vi_b := None |>) |>) ;;
  free_chain i0 ;;
  release L_vdisk.

Lemma rw_request_ok b write s h cp x :
  quiet s h cp -> lock_free L_vdisk s -> at_rest (k_vdisk s) -> k_bufs s !! b = Some x ->
  0 <= b_blockno x < 2 ^ 31 ->
  virtio_disk_rw b write s = rw_rest b 0 (enter L_vdisk (requested b write (2 * b_blockno x) s)).
Proof using Hfuel.
  intros Hq Hl Hd Hb Hn. unfold virtio_disk_rw. krun (getb_ok _ _ _ Hb).
  replace (u32 (b_blockno x * (BSIZE / 512))) with (2 * b_blockno x).
  2:{ change (BSIZE / 512) with 2. rewrite u32_small; lia. }
  krun (acquire_ok Hfuel L_vdisk s h cp Hq Hl). set (s1 := enter L_vdisk s).
  rewrite (bind_ok _ _ _ (0, 1, 2) (s1 <| k_vdisk ::= λ d, d <| dk_free := taken |> |>)).
  2:{ cbn [loop]. unfold rw_alloc_body, kbind. rewrite (alloc3_ok Hfuel s1) by exact (ar_free _ Hd). done. }
  unfold updvd at 1. rewrite bind_modify. set (s2 := _ <| k_vdisk ::= format_request _ _ _ _ |>).
  assert (Hb2 : k_bufs s2 !! b = Some x) by exact Hb.
  krun (updb_ok b x (λ x, x <| b_disk := 1 |>) s2 Hb2).
  unfold writeR, mmio_write. unfold updvd at 1 2 3. rewrite !bind_modify.
  reflexivity.
Qed.

Lemma rw_wait_ok b p write x s h cp y :
  quiet s h cp -> cp_noff cp = 0 -> cp_proc cp = Some p -> procs_idle s -> k_procs s !! p = Some y ->
  p_state y = RUNNING -> p_chan y = Ch_null ->
  (∀ i z, k_procs s !! i = Some z -> p_state z = SLEEPING -> p_chan z <> Ch_buf b) ->
  lock_free L_vdisk s -> request (k_vdisk s) b write (2 * b_blockno x) 0 1 2 ->
  (∀ len, completed (answered 0 len (k_vdisk s)) b) -> k_bufs s !! b = Some x -> b_disk x = 1 ->
  ∃ len i o, run (virtio_env device) (loop (S fuel) (rw_wait_body b) tt (enter L_vdisk s))
    = Ok tt (enter L_vdisk (transferred b write x len i o s)).
Proof using Hfuel VirtioDevice0.
  intros Hq E0 Hcur Hi Hy Hyr Hyc Hno Hl Hrq Hcm Hb Hd.
  destruct (sleep_ok b p write x s h cp y) as (len & i & o & E); try done.
  exists len, i, o. destruct fuel as [|n] eqn:En; [lia|]. cbn [loop].
  set (s2 := enter L_vdisk (transferred b write x len i o s)) in *.
  assert (E1 : run (virtio_env device) (rw_wait_body b tt (enter L_vdisk s)) = Ok (inl tt) s2).
  { unfold rw_wait_body. assert (Hb1 : k_bufs (enter L_vdisk s) !! b = Some x) by exact Hb.
    krun (getb_ok _ _ _ Hb1). rewrite Hd, Z.eqb_refl. by rewrite (run_bind _ _ _ _ _ _ E). }
  rewrite (run_bind _ _ _ _ _ _ E1). cbn match.
  destruct (disk_done_buf b write x s Hb) as [z Hz].
  assert (Hb2 : k_bufs s2 !! b = Some (z <| b_disk := 0 |>)).
  { subst s2. simpl. rewrite upd_lookup, decide_True by done. by rewrite Hz. }
  assert (E2 : rw_wait_body b tt s2 = Ok (inr tt) s2).
  { unfold rw_wait_body. by krun (getb_ok _ _ _ Hb2). }
  by krun E2.
Qed.

Lemma rw_done_eq b write x len i o s :
  k_bufs s !! b = Some x -> b_disk x = 0 ->
  (transferred b write (x <| b_disk := 1 |>) len i o (requested b write (2 * b_blockno x) s))
    <| k_vdisk ::= cleared |> <| k_vdisk ::= finished |>
  = (disk_done b write x s)
      <| k_vdisk := finished (cleared (seen (answered 0 len (queued b write (2 * b_blockno x) (k_vdisk s))))) |>
      <| k_mmio_in := i |> <| k_mmio_out := o |>.
Proof.
  intros Hb Hx. unfold transferred, requested, disk_done. destruct write; keq; rewrite !upd_upd.
  - eapply upd_id; [exact Hb|]. destruct x; unfold update; simpl in *. by subst.
  - eapply upd_ext; [exact Hb|]. destruct x; unfold update; simpl in *. by subst.
Qed.

(** The end of virtio_disk_rw(): the chain is freed, the lock released. *)
Lemma rw_finish_ok b write sector len s h cp q :
  quiet s h cp -> procs_idle s -> none_waits s -> lock_free L_vdisk s ->
  k_vdisk s = cleared (seen (answered 0 len q)) -> dk_free q = taken -> request q b write sector 0 1 2 ->
  (free_chain 0 ;; release L_vdisk) (enter L_vdisk s) = Ok tt (s <| k_vdisk ::= finished |>).
Proof using Hfuel.
  intros Hq Hi Hn Hl Ev Hf [_ _ _ D0 D1 D2].
  assert (Ed : dk_desc (k_vdisk (enter L_vdisk s)) = dk_desc q).
  { change (dk_desc (k_vdisk s) = dk_desc q). by rewrite Ev. }
  assert (Ef : dk_free (k_vdisk (enter L_vdisk s)) = taken).
  { change (dk_free (k_vdisk s) = taken). by rewrite Ev. }
  rewrite <- Ed in D0, D1, D2.
  krun (free_chain_ok Hfuel (enter L_vdisk s) _ _ b write (quiet_enter _ _ _ _ Hq)
    (procs_idle_enter L_vdisk s ltac:(done) Hi) Hn Ef D0 D1 D2).
  set (s4 := s <| k_vdisk ::= finished |>).
  apply (leave_ok _ _ s4 h cp); [by eapply quiet_ext|by eapply lock_free_ext|].
  subst s4. unfold enter, pushed, lock_of. by keq.
Qed.

(** The driver's contract. *)
Lemma virtio_rw_ok b write s h cp p px x :
  calm s h cp p px -> lock_free L_vdisk s -> at_rest (k_vdisk s) -> k_bufs s !! b = Some x ->
  b_disk x = 0 -> 0 <= b_blockno x < 2 ^ 31 ->
  ∃ v i o, run (virtio_env device) (virtio_disk_rw b write s)
      = Ok tt ((disk_done b write x s) <| k_vdisk := v |> <| k_mmio_in := i |> <| k_mmio_out := o |>)
    ∧ at_rest v.
Proof using Hfuel VirtioDevice0.
  intros Hc Hl Hd Hb Hx Hn. pose proof Hc as [Hq E0 Hcur Hi Hpx Hr Hch Hno].
  rewrite (rw_request_ok b write s h cp x Hq Hl Hd Hb Hn). unfold rw_rest.
  set (s1 := requested b write (2 * b_blockno x) s). set (x1 := x <| b_disk := 1 |>).
  assert (Hb1 : k_bufs s1 !! b = Some x1).
  { simpl. rewrite upd_lookup, decide_True by done. by rewrite Hb. }
  destruct (rw_wait_ok b p write x1 s1 h cp px) as (len & i & o & E); try done.
  { by eapply quiet_ext. } { by eapply procs_idle_ext. }
  { intros j z Hz Hs Hcz. specialize (Hno j z Hz Hs). by rewrite Hcz in Hno. }
  { by apply queued_request. }
  { intros len. change (k_vdisk s1) with (queued b write (2 * b_blockno x) (k_vdisk s)).
    destruct (answered_entry b write (2 * b_blockno x) len (k_vdisk s) Hd) as (A1 & A2 & A3 & A4).
    constructor; [rewrite A1; exact (ar_range _ Hd)|by rewrite A1|by exists len|done]. }
  rewrite (run_bind _ _ _ _ _ _ E). unfold updvd. rewrite bind_modify. change (Z.to_nat 0) with 0%nat.
  set (d := k_vdisk s) in *. set (q := queued b write (2 * b_blockno x) d).
  set (sT := transferred b write x1 len i o s1) in *.
  destruct (transferred_frame b write x1 len i o s1) as (F1 & F2 & F3 & F4 & F5).
  assert (Ev : k_vdisk sT = seen (answered 0 len q)) by (subst sT; simpl; by rewrite (proj1 (proj2 (proj2 (proj2 (proj2 (proj2 (disk_done_frame b write x1 s1)))))))).
  set (s3 := sT <| k_vdisk ::= cleared |>).
  match goal with |- context [(free_chain 0 ≫= _) ?st] => replace st with (enter L_vdisk s3) end.
  2:{ subst s3. unfold enter, pushed, lock_of. by keq. }
  assert (Fp : k_procs s3 = k_procs s) by exact F4. assert (Fl : k_locks s3 = k_locks s) by exact F5.
  assert (Hq3 : quiet s3 h cp) by exact (quiet_ext s s3 h cp Hq F1 F2 F3).
  assert (Hw : none_waits s3).
  { intros j z Hz Hs Hcz. rewrite Fp in Hz. specialize (Hno j z Hz Hs). by rewrite Hcz in Hno. }
  rewrite (rw_finish_ok b write (2 * b_blockno x) len s3 h cp q Hq3); try done.
  - exists (finished (cleared (seen (answered 0 len q)))), i, o.
    split; [|by apply finished_rest]. apply ok_eq. by apply rw_done_eq.
  - eapply procs_idle_ext; [exact Hi|by rewrite Fp|exact Fl].
  - exact (lock_free_ext _ s s3 Hl Fl).
  - change (cleared (k_vdisk sT) = cleared (seen (answered 0 len q))). by rewrite Ev.
  - by apply queued_request.
Qed.
End wait.

(** ** The driver as the buffer cache sees it *)

(** With any device that keeps to [VirtioDevice], virtio_disk_rw() is a driver
    as BioSpec.v asks for one. *)
Definition virtio_law `{Fuel} `{Symbols} `{DiskLayout} (Hfuel : (1 <= fuel)%nat)
    (device : kstate -> kstate) `{!VirtioDevice device} : DiskLaw (H := virtio_disk_rw) (virtio_env device) :=
  {| drv_ok := at_rest;
     disk_rw_ok b write s h cp p px x Hc Hl Hd _ Hb Hx Hn :=
       virtio_rw_ok Hfuel device b write s h cp p px x Hc Hl Hd Hb Hx Hn |}.

(** ** Properties *)


(** A device: it follows the descriptors of the next request in the queue. *)
#[local] Instance ex_layout : DiskLayout :=
  {| ops_addr i := 4096 + 16 * i; status_addr i := 8192 + i; bufdata_addr b := Z.of_nat b |}.

Definition ex_device (s : kstate) : kstate :=
  let d := k_vdisk s in
  let i0 := default 0 (va_ring (dk_avail d) !! Z.to_nat (vu_idx (dk_used d) mod NUM)) in
  let op := default (Vreq 0 0 0) (dk_ops d !! Z.to_nat i0) in
  let d0 := default (Vdesc 0 0 0 0) (dk_desc d !! Z.to_nat i0) in
  let d1 := default (Vdesc 0 0 0 0) (dk_desc d !! Z.to_nat (vd_next d0)) in
  let b := Z.to_nat (vd_addr d1) in
  let x := (default zero_buf (k_bufs s !! b)) <| b_blockno := vr_sector op / 2 |> in
  (disk_done b (vr_type op =? VIRTIO_BLK_T_OUT) x s) <| k_vdisk ::= answered i0 BSIZE |> <| k_mmio_in ::= cons 1 |>.

#[local] Instance ex_device_serves : VirtioDevice ex_device.
Proof.
  intros s b write x i0 i1 i2 [_ Hh Ho H0 H1 _] Hb. exists BSIZE, 1. unfold ex_device.
  rewrite Hh. cbn [default from_option id]. rewrite Ho, H0. cbn [default from_option id vd_next vr_sector vr_type].
  rewrite H1. cbn [default from_option id vd_addr bufdata_addr ex_layout]. rewrite Nat2Z.id, Hb.
  cbn [default from_option id]. replace (2 * b_blockno x / 2) with (b_blockno x) by zmod.
  replace (x <| b_blockno := b_blockno x |>) with x by (by destruct x).
  by replace (_ =? VIRTIO_BLK_T_OUT) with write by (by destruct write).
Qed.

(** A machine with an idle disk, whose block 9 is to be written from buffer 4. *)
Definition ex_idle_disk : kstate :=
  ex_blank <| k_vdisk ::= λ d, d <| dk_free := replicate 8 1 |> |>
    <| k_bufs ::= upd 4 (λ x, x <| b_blockno := 9 |> <| b_data := [1; 2; 3] |>) |>.

