(* ===== verification/Log.v ===== *)
(** * log.c: write-ahead logging

    The on-disk header block holds the int [n] at offset 0 and the ints
    [block[i]] at offset [4 + 4 i]. *)

From Stdlib Require Import ZArith Lia.
From stdpp Require Import base numbers list gmap strings.
From S2P Require Import Prelude Machine Kernel Riscv Spinlock Proc Sleeplock Virtio Bio.

Section log.
Context `{Fuel} `{Symbols} `{DiskDriver}.

Definition getlog : K logstate := gets k_log.
Definition updlog (f : logstate -> logstate) : K unit := modify (λ s, s <| k_log ::= f |>).

(** [log.lh.block[i]] read and written: the array has LOGSIZE elements. *)
Definition get_block (i : Z) : K Z := lg ← getlog; deref (lh_block lg !! Z.to_nat i).
Definition set_block (i v : Z) : K unit :=
  get_block i ;; updlog (λ lg, lg <| lh_block ::= λ l, aset l i v |>).

(** One block of install_trans(). *)
Definition install_one (recovering : bool) (tail : Z) : K unit :=
  lg ← getlog;
  lbuf ← bread (lg_dev lg) (u32 (lg_start lg + tail + 1));
  blk ← get_block tail;
  dbuf ← bread (lg_dev lg) (u32 blk);
  d ← bdata lbuf;
  set_bdata dbuf (λ _, d) ;;
  bwrite dbuf ;;
  when (negb recovering) (bunpin dbuf) ;;
  brelse lbuf ;;
  brelse dbuf.

Definition install_trans (recovering : bool) : K unit :=
  lg ← getlog;
  for_all (zrange 0 (Z.to_nat (lh_n lg))) (install_one recovering).

Definition read_head : K unit :=
  lg ← getlog;
  b ← bread (lg_dev lg) (u32 (lg_start lg));
  d ← bdata b;
  updlog (λ lg, lg <| lh_n := i32 (get32 0 d) |>) ;;
  for_all (zrange 0 (Z.to_nat (i32 (get32 0 d)))) (λ i, set_block i (i32 (get32 (4 + 4 * i) d))) ;;
  brelse b.

(** The header block as write_head() leaves it: the rest of the block is unchanged. *)
Definition head_block (n : Z) (block : list Z) (d : list Z) : list Z :=
  foldl (λ d i, set32 (4 + 4 * i) (aget block i) d) (set32 0 n d) (zrange 0 (Z.to_nat n)).

Definition write_head : K unit :=
  lg ← getlog;
  b ← bread (lg_dev lg) (u32 (lg_start lg));
  lg ← getlog;
  if Z.of_nat (length (lh_block lg)) <? lh_n lg then fault else
  set_bdata b (head_block (lh_n lg) (lh_block lg)) ;;
  bwrite b ;;
  brelse b.

Definition recover_from_log : K unit :=
  read_head ;;
  install_trans true ;;
  updlog (λ lg, lg <| lh_n := 0 |>) ;;
  write_head.

(** [sizeof(struct logheader)] is [4 + 4 * LOGSIZE]. *)
Definition initlog (dev : Z) (sb : superblock) : K unit :=
  if BSIZE <=? 4 + 4 * LOGSIZE then panic "initlog: too big logheader" else
  initlock L_log "log" ;;
  updlog (λ lg, lg <| lg_start := i32 (sb_logstart sb) |> <| lg_size := i32 (sb_nlog sb) |>
                  <| lg_dev := dev |>) ;;
  recover_from_log.

Definition begin_op : K unit :=
  acquire L_log ;;
  loop (S fuel) (λ _ : unit,
    lg ← getlog;
    if truth (lg_committing lg) then sleep Ch_log L_log ;; ret (inl tt)
    else if LOGSIZE <? lh_n lg + (lg_outstanding lg + 1) * MAXOPBLOCKS
    then sleep Ch_log L_log ;; ret (inl tt)
    else updlog (λ lg, lg <| lg_outstanding ::= λ n, n + 1 |>) ;;
         release L_log ;; ret (inr tt)) tt.

(** One block of write_log(). *)
Definition write_log_one (tail : Z) : K unit :=
  lg ← getlog;
  to ← bread (lg_dev lg) (u32 (lg_start lg + tail + 1));
  blk ← get_block tail;
  from ← bread (lg_dev lg) (u32 blk);
  d ← bdata from;
  set_bdata to (λ _, d) ;;
  bwrite to ;;
  brelse from ;;
  brelse to.

Definition write_log : K unit :=
  lg ← getlog;
  for_all (zrange 0 (Z.to_nat (lh_n lg))) write_log_one.

Definition commit : K unit :=
  lg ← getlog;
  when (0 <? lh_n lg)
    (write_log ;;
     write_head ;;
     install_trans false ;;
     updlog (λ lg, lg <| lh_n := 0 |>) ;;
     write_head).

Definition end_op : K unit :=
  acquire L_log ;;
  updlog (λ lg, lg <| lg_outstanding ::= λ n, n - 1 |>) ;;
  lg ← getlog;
  if truth (lg_committing lg) then panic "log.committing" else
  let do_commit := lg_outstanding lg =? 0 in
  (if do_commit then updlog (λ lg, lg <| lg_committing := 1 |>) else wakeup Ch_log) ;;
  release L_log ;;
  when do_commit
    (commit ;;
     acquire L_log ;;
     updlog (λ lg, lg <| lg_committing := 0 |>) ;;
     wakeup Ch_log ;;
     release L_log).

(** The index at which log_write() records [blockno]: its own if it is logged
    already (absorption), else [n]. *)
Fixpoint find_block (blocks : list Z) (n : nat) (blockno : Z) : nat :=
  match n, blocks with
  | S n, x :: blocks => if x =? blockno then O else S (find_block blocks n blockno)
  | _, _ => O
  end.

Definition log_write (b : nat) : K unit :=
  acquire L_log ;;
  lg ← getlog;
  if (LOGSIZE <=? lh_n lg) || (lg_size lg - 1 <=? lh_n lg) then panic "too big a transaction" else
  if lg_outstanding lg <? 1 then panic "log_write outside of trans" else
  x ← getb b;
  let i := Z.of_nat (find_block (u32 <$> lh_block lg) (Z.to_nat (lh_n lg)) (b_blockno x)) in
  set_block i (i32 (b_blockno x)) ;;
  when (i =? lh_n lg)
    (bpin b ;;
     updlog (λ lg, lg <| lh_n ::= λ n, n + 1 |>)) ;;
  release L_log.
End log.
