(* ===== verification/LogSpec.v ===== *)
(** * Crash safety of the log

    A crash keeps a prefix of the block writes ([k_dhist]) and loses memory.
    [replay st d] is what recovery makes of the disk [d]: the blocks named by
    the header of the log at [st] get their copies from the log.  commit() is
    shown to issue its writes in an order such that after any prefix of them
    [replay] yields either every old block or every new one; recover_from_log()
    is shown to compute [replay], and to be repeatable if it is interrupted. *)

From Stdlib Require Import ZArith Lia.
From stdpp Require Import base numbers functions list gmap strings.
From S2P Require Import Prelude Machine Kernel Riscv Spinlock Proc Sleeplock Virtio Bio BioSpec Log.

(** ** 32-bit fields of a block *)

Lemma get32_set32_eq o v d :
  0 <= o -> (Z.to_nat o + 4 <= length d)%nat -> get32 o (set32 o v d) = u32 v.
Proof.
  intros H1 H2. unfold get32, set32.
  rewrite <- (length_le_bytes 4 v) at 1. rewrite slice_splice_eq by (rewrite ?length_le_bytes; lia).
  by rewrite le_val_bytes.
Qed.

Lemma get32_set32_ne o o' v d :
  0 <= o -> 0 <= o' -> (Z.to_nat o' + 4 <= length d)%nat -> (o + 4 <= o' ∨ o' + 4 <= o) ->
  get32 o (set32 o' v d) = get32 o d.
Proof.
  intros H1 H2 H3 H4. unfold get32, set32. rewrite slice_splice_ne; [done|..]; rewrite length_le_bytes; lia.
Qed.

Lemma length_set32 o v d :
  0 <= o -> (Z.to_nat o + 4 <= length d)%nat -> length (set32 o v d) = length d.
Proof. intros. unfold set32. apply length_splice; rewrite ?length_le_bytes; lia. Qed.

(** ** The header block *)

Definition hdr_n (b : list Z) : Z := i32 (get32 0 b).
Definition hdr_block (b : list Z) (i : Z) : Z := i32 (get32 (4 + 4 * i) b).

Definition put_blocks (bl d : list Z) (l : list Z) : list Z :=
  foldl (λ d i, set32 (4 + 4 * i) (aget bl i) d) d l.

Lemma put_blocks_ok bl d l :
  (∀ i, i ∈ l -> 0 <= i < LOGSIZE) -> length d = Z.to_nat BSIZE ->
  length (put_blocks bl d l) = Z.to_nat BSIZE
  ∧ get32 0 (put_blocks bl d l) = get32 0 d
  ∧ ∀ i, 0 <= i < LOGSIZE -> get32 (4 + 4 * i) (put_blocks bl d l) =
      if decide (i ∈ l) then u32 (aget bl i) else get32 (4 + 4 * i) d.
Proof.
  intros Hl Hd. change LOGSIZE with 30 in *. change (Z.to_nat BSIZE) with 1024%nat in *.
  induction l as [|j l IH] using rev_ind.
  - split; [done|]. split; [done|]. intros i _. rewrite decide_False; [done|set_solver].
  - destruct IH as (IH1 & IH2 & IH3); [intros i Hi; apply Hl; set_solver|].
    assert (Hj : 0 <= j < 30) by (apply Hl; set_solver).
    unfold put_blocks in *. rewrite foldl_snoc. split; [rewrite length_set32; lia|]. split.
    + rewrite get32_set32_ne by lia. done.
    + intros i Hi. destruct (decide (i = j)) as [->|Hne].
      * rewrite get32_set32_eq by lia. rewrite decide_True; [done|set_solver].
      * rewrite get32_set32_ne by lia. rewrite IH3 by done.
        destruct (decide (i ∈ l)), (decide (i ∈ l ++ [j])); try done; set_solver.
Qed.

Lemma i32_u32 v : - 2 ^ 31 <= v < 2 ^ 31 -> i32 (u32 v) = v.
Proof. intros Hv. apply (signed_mod 32); [lia|done]. Qed.

(** What read_head() reads back is what write_head() wrote. *)
Lemma head_block_ok n bl d :
  0 <= n <= LOGSIZE -> length d = Z.to_nat BSIZE ->
  length (head_block n bl d) = Z.to_nat BSIZE
  ∧ hdr_n (head_block n bl d) = n
  ∧ ∀ i, 0 <= i < n -> - 2 ^ 31 <= aget bl i < 2 ^ 31 -> hdr_block (head_block n bl d) i = aget bl i.
Proof.
  intros Hn Hd. change LOGSIZE with 30 in *. unfold head_block.
  assert (H4 : length (set32 0 n d) = Z.to_nat BSIZE)
    by (rewrite length_set32; change (Z.to_nat BSIZE) with 1024%nat in *; lia).
  destruct (put_blocks_ok bl (set32 0 n d) (zrange 0 (Z.to_nat n))) as (H1 & H2 & H3); [|done|].
  { intros i Hi. apply elem_of_zrange in Hi. change LOGSIZE with 30. lia. }
  change (foldl _ _ _) with (put_blocks bl (set32 0 n d) (zrange 0 (Z.to_nat n))).
  split; [done|]. split.
  - unfold hdr_n. rewrite H2, get32_set32_eq by (change (Z.to_nat BSIZE) with 1024%nat in *; lia).
    apply i32_u32. lia.
  - intros i Hi Hv. unfold hdr_block. rewrite H3 by (change LOGSIZE with 30; lia).
    rewrite decide_True by (apply elem_of_zrange; lia). by apply i32_u32.
Qed.

(** ** Disks and writes *)

Definition apply_writes (d : gmap Z (list Z)) (w : list (Z * list Z)) : gmap Z (list Z) :=
  foldl (λ d '(n, b), <[n := b]> d) d w.

Lemma apply_writes_app d w1 w2 : apply_writes d (w1 ++ w2) = apply_writes (apply_writes d w1) w2.
Proof. apply foldl_app. Qed.

Lemma dblock_insert d n b m : dblock (<[n := b]> d) m = if decide (n = m) then b else dblock d m.
Proof.
  unfold dblock. case_decide as E; [subst; by rewrite lookup_insert_eq|by rewrite lookup_insert_ne].
Qed.

Lemma dblock_writes_ne d w m : m ∉ w.*1 -> dblock (apply_writes d w) m = dblock d m.
Proof.
  revert d. induction w as [|[n b] w IH]; intros d Hm; [done|]. simpl in *.
  rewrite IH by set_solver. rewrite dblock_insert, decide_False; [done|set_solver].
Qed.

(** A block that is written only with the contents [b] has them once written. *)
Lemma dblock_writes_eq d w m b :
  (∀ b', (m, b') ∈ w -> b' = b) -> (m ∈ w.*1 ∨ dblock d m = b) -> dblock (apply_writes d w) m = b.
Proof.
  revert d. induction w as [|[n c] w IH]; intros d Hw Hm; simpl.
  - destruct Hm as [Hm|Hm]; [set_solver|done].
  - apply IH; [intros; apply Hw; set_solver|]. rewrite dblock_insert. case_decide as E.
    + right. apply Hw. subst. set_solver.
    + destruct Hm as [Hm|Hm]; [left; set_solver|by right].
Qed.

(** The blocks of the log: LOGSIZE of them, as mkfs reserves them, of which the
    header is the first. *)
Definition in_log (st n : Z) : Prop := st <= n < st + LOGSIZE.

(** What recovery makes of the disk. *)
Definition replay_writes (st : Z) (d : gmap Z (list Z)) : list (Z * list Z) :=
  (λ i, (hdr_block (dblock d st) i, dblock d (st + i + 1)))
    <$> zrange 0 (Z.to_nat (hdr_n (dblock d st))).

Definition replay (st : Z) (d : gmap Z (list Z)) : gmap Z (list Z) :=
  apply_writes d (replay_writes st d).

(** A log whose header makes sense: fewer than LOGSIZE blocks, none of them of the log. *)
Definition log_wf (st : Z) (d : gmap Z (list Z)) : Prop :=
  let b := dblock d st in
  0 <= hdr_n b < LOGSIZE
  ∧ ∀ i, 0 <= i < hdr_n b -> 0 <= hdr_block b i < 2 ^ 31 ∧ ¬ in_log st (hdr_block b i).

Lemma replay_empty st d : hdr_n (dblock d st) = 0 -> replay st d = d.
Proof. intros E. unfold replay, replay_writes. rewrite E. done. Qed.

Lemma log_wf_empty st d : hdr_n (dblock d st) = 0 -> log_wf st d.
Proof. intros E. unfold log_wf. rewrite E. change LOGSIZE with 30. split; [lia|]. intros; lia. Qed.

Lemma take_elem_of {A} k (l : list A) x : x ∈ take k l -> x ∈ l.
Proof. rewrite <- (take_drop k l) at 2. set_solver. Qed.

(** ** The order of commit()'s writes *)
Section atomic.
Context (st : Z) (d0 : gmap Z (list Z)) (bs : list Z) (D : Z -> list Z) (Hn H0 : list Z).
Context (Hst : hdr_n (dblock d0 st) = 0).
Context (Hbs : ∀ b, b ∈ bs -> 0 <= b < 2 ^ 31 ∧ ¬ in_log st b) (Hlen : Z.of_nat (length bs) < LOGSIZE).
Context (HHn : hdr_n Hn = Z.of_nat (length bs)).
Context (HHb : ∀ i b, bs !! i = Some b -> hdr_block Hn (Z.of_nat i) = b) (HH0 : hdr_n H0 = 0).

Definition log_writes : list (Z * list Z) := imap (λ i b, (st + Z.of_nat i + 1, D b)) bs.
Definition home_writes : list (Z * list Z) := (λ b, (b, D b)) <$> bs.
Definition commit_writes : list (Z * list Z) :=
  log_writes ++ (st, Hn) :: home_writes ++ [(st, H0)].

(** The blocks after the transaction. *)
Definition new_block (m : Z) : list Z := if decide (m ∈ bs) then D m else dblock d0 m.

Lemma elem_log_writes n b :
  (n, b) ∈ log_writes -> ∃ i c, bs !! i = Some c ∧ n = st + Z.of_nat i + 1 ∧ b = D c.
Proof.
  intros Hin. apply list_elem_of_lookup in Hin as [i Hi]. unfold log_writes in Hi.
  rewrite list_lookup_imap in Hi. apply fmap_Some in Hi as (c & Hc & [= -> ->]). eauto.
Qed.

Lemma elem_home_writes n b : (n, b) ∈ home_writes -> n ∈ bs ∧ b = D n.
Proof. intros Hin. unfold home_writes in Hin. apply list_elem_of_fmap in Hin as (c & [= -> ->] & Hc). done. Qed.

Lemma fst_log_writes n w : n ∈ w.*1 -> (∀ x, x ∈ w -> x ∈ log_writes) -> st < n < st + LOGSIZE.
Proof.
  intros Hin Hw. apply list_elem_of_fmap in Hin as ([n' b] & -> & Hin). apply Hw, elem_log_writes in Hin.
  destruct Hin as (i & c & Hc & -> & ->). apply lookup_lt_Some in Hc. simpl. lia.
Qed.

Lemma fst_home_writes n w : n ∈ w.*1 -> (∀ x, x ∈ w -> x ∈ home_writes) -> n ∈ bs.
Proof.
  intros Hin Hw. apply list_elem_of_fmap in Hin as ([n' b] & -> & Hin). apply Hw, elem_home_writes in Hin. tauto.
Qed.

(** A crash before the header is written: the old blocks. *)
Lemma crash_before k m :
  let d := apply_writes d0 (take k log_writes) in
  hdr_n (dblock d st) = 0 ∧ (¬ in_log st m -> dblock d m = dblock d0 m).
Proof.
  intros d. assert (Hw : ∀ n, n ∈ (take k log_writes).*1 -> st < n < st + LOGSIZE).
  { intros n Hin. eapply fst_log_writes; [done|]. intros x. apply take_elem_of. }
  split.
  - subst d. rewrite dblock_writes_ne; [done|]. intros Hin. apply Hw in Hin. lia.
  - intros Hm. subst d. apply dblock_writes_ne. intros Hin. apply Hw in Hin. apply Hm. unfold in_log. lia.
Qed.

(** A crash after it, the first [j] blocks being installed. *)
Lemma crash_after j :
  let d := apply_writes d0 (log_writes ++ (st, Hn) :: take j home_writes) in
  log_wf st d ∧ (∀ m, ¬ in_log st m -> dblock (replay st d) m = new_block m).
Proof.
  intros d. assert (Eh : dblock d st = Hn).
  { subst d. rewrite apply_writes_app. apply dblock_writes_eq; [|left; simpl; set_solver].
    intros b Hin. apply elem_of_cons in Hin as [[= ->]|Hin]; [done|].
    apply take_elem_of, elem_home_writes in Hin as [Hin _]. exfalso. apply Hbs in Hin as [_ Hin]. apply Hin.
    unfold in_log. change LOGSIZE with 30. lia. }
  assert (Ec : ∀ i b, bs !! i = Some b -> dblock d (st + Z.of_nat i + 1) = D b).
  { intros i b Hi. subst d. apply dblock_writes_eq.
    - intros b' Hin. apply elem_of_app in Hin as [Hin|Hin].
      + apply elem_log_writes in Hin as (i' & c & Hc & E & ->). assert (i' = i) as -> by lia. congruence.
      + apply elem_of_cons in Hin as [[= E1 E2]|Hin]; [lia|]. apply take_elem_of, elem_home_writes in Hin as [Hin _].
        exfalso. apply Hbs in Hin as [_ Hin]. apply Hin. apply lookup_lt_Some in Hi. unfold in_log. lia.
    - left. rewrite fmap_app. apply elem_of_app. left. apply list_elem_of_fmap.
      exists (st + Z.of_nat i + 1, D b). split; [done|]. apply list_elem_of_lookup. exists i. unfold log_writes.
      rewrite list_lookup_imap, Hi. done. }
  assert (Ew : replay_writes st d = home_writes).
  { unfold replay_writes. rewrite Eh, HHn, Nat2Z.id. apply list_eq. intros i. unfold home_writes.
    rewrite !list_lookup_fmap. unfold zrange. rewrite list_lookup_fmap.
    destruct (bs !! i) as [b|] eqn:Hi.
    - rewrite lookup_seq_lt by (by eapply lookup_lt_Some). cbn [fmap option_fmap option_map].
      rewrite Nat.add_0_l, Z.add_0_l. by rewrite (HHb i b Hi), (Ec i b Hi).
    - rewrite lookup_seq_ge by (by apply lookup_ge_None_1). done. }
  split.
  - unfold log_wf. rewrite Eh, HHn. split; [lia|]. intros i Hi.
    destruct (lookup_lt_is_Some_2 bs (Z.to_nat i) ltac:(lia)) as [b Hb].
    specialize (HHb _ _ Hb). rewrite Z2Nat.id in HHb by lia. rewrite HHb. apply Hbs. by eapply list_elem_of_lookup_2.
  - intros m Hm. unfold replay, new_block. rewrite Ew. case_decide as Hin.
    + apply dblock_writes_eq; [intros b' Hb'; by apply elem_home_writes in Hb' as [_ ->]|].
      left. unfold home_writes. rewrite <- list_fmap_compose. apply list_elem_of_fmap. by exists m.
    + rewrite dblock_writes_ne by (intros Hf; apply Hin; by eapply fst_home_writes).
      subst d. rewrite apply_writes_app. simpl. rewrite dblock_writes_ne.
      2:{ intros Hf. apply Hin. eapply fst_home_writes; [done|]. intros x. apply take_elem_of. }
      rewrite dblock_insert, decide_False.
      * apply dblock_writes_ne. intros Hf. pose proof (fst_log_writes _ _ Hf ltac:(done)). apply Hm. unfold in_log. lia.
      * intros <-. apply Hm. unfold in_log. change LOGSIZE with 30. lia.
Qed.

(** The whole of it. *)
Lemma crash_done :
  let d := apply_writes d0 commit_writes in
  hdr_n (dblock d st) = 0 ∧ ∀ m, ¬ in_log st m -> dblock d m = new_block m.
Proof.
  intros d. subst d. unfold commit_writes. rewrite (app_comm_cons _ _ (st, Hn)), app_assoc, apply_writes_app.
  simpl. rewrite dblock_insert, decide_True by done. split; [done|]. intros m Hm.
  assert (Hms : st <> m) by (intros <-; apply Hm; unfold in_log; change LOGSIZE with 30; lia).
  rewrite dblock_insert, decide_False by done. unfold new_block.
  rewrite apply_writes_app. simpl. case_decide as Hin.
  - apply dblock_writes_eq; [intros b' Hb'; by apply elem_home_writes in Hb' as [_ ->]|].
    left. unfold home_writes. rewrite <- list_fmap_compose. apply list_elem_of_fmap. by exists m.
  - rewrite dblock_writes_ne by (intros Hf; apply Hin; by eapply fst_home_writes).
    rewrite dblock_insert, decide_False by done.
    apply dblock_writes_ne. intros Hf. pose proof (fst_log_writes _ _ Hf ltac:(done)). apply Hm. unfold in_log. lia.
Qed.

(** After any prefix of the writes, recovery gives all of the old blocks or all
    of the new ones. *)
Lemma commit_atomic k :
  let d := apply_writes d0 (take k commit_writes) in
  log_wf st d
  ∧ ((∀ m, ¬ in_log st m -> dblock (replay st d) m = dblock d0 m)
     ∨ (∀ m, ¬ in_log st m -> dblock (replay st d) m = new_block m)).
Proof.
  intros d. set (n := length bs).
  assert (L1 : length log_writes = n) by apply length_imap.
  assert (L2 : length home_writes = n) by apply length_fmap.
  destruct (decide (k <= n)%nat) as [Hk|Hk].
  - assert (E : take k commit_writes = take k log_writes) by (unfold commit_writes; apply take_app_le; lia).
    assert (Ed : hdr_n (dblock d st) = 0) by (subst d; rewrite E; by apply (crash_before k 0)).
    split; [by apply log_wf_empty|]. left. intros m Hm. rewrite replay_empty by done.
    subst d. rewrite E. by apply crash_before.
  - destruct (decide (k <= S (n + n))%nat) as [Hk2|Hk2].
    + assert (E : take k commit_writes = log_writes ++ (st, Hn) :: take (k - S n) home_writes).
      { unfold commit_writes. rewrite take_app_ge by lia. f_equal. rewrite L1.
        replace (k - n)%nat with (S (k - S n)) by lia. simpl. f_equal. apply take_app_le. lia. }
      subst d. rewrite E. destruct (crash_after (k - S n)) as [H1 H2]. split; [done|by right].
    + assert (E : take k commit_writes = commit_writes).
      { apply take_ge. unfold commit_writes. rewrite length_app. simpl. rewrite length_app. simpl. lia. }
      subst d. rewrite E. destruct crash_done as [H1 H2]. split; [by apply log_wf_empty|]. right.
      intros m Hm. rewrite replay_empty by done. by apply H2.
Qed.
End atomic.

(** ** Running the log's functions *)

Definition write_view (V : Z -> list Z) (w : list (Z * list Z)) : Z -> list Z :=
  foldl (λ V '(n, b), <[n := b]> V) V w.

Lemma write_view_app V w1 w2 : write_view V (w1 ++ w2) = write_view (write_view V w1) w2.
Proof. apply foldl_app. Qed.

Lemma write_view_ne V w m : m ∉ w.*1 -> write_view V w m = V m.
Proof.
  revert V. induction w as [|[n b] w IH]; intros V Hm; [done|]. simpl in *.
  rewrite IH by set_solver. apply fn_lookup_insert_ne. set_solver.
Qed.

Lemma write_view_eq V w m b :
  (∀ b', (m, b') ∈ w -> b' = b) -> (m ∈ w.*1 ∨ V m = b) -> write_view V w m = b.
Proof.
  revert V. induction w as [|[n c] w IH]; intros V Hw Hm; simpl.
  - destruct Hm as [Hm|Hm]; [set_solver|done].
  - apply IH; [intros; apply Hw; set_solver|]. destruct (decide (n = m)) as [->|Hne].
    + right. rewrite fn_lookup_insert. apply Hw. set_solver.
    + rewrite fn_lookup_insert_ne by done. destruct Hm as [Hm|Hm]; [left; set_solver|by right].
Qed.

(** The log in memory, with the blocks [bs] in the current transaction. *)
Record log_ok (dev st : Z) (bs : list Z) (s : kstate) : Prop := {
  lo_start : lg_start (k_log s) = st;
  lo_dev : lg_dev (k_log s) = dev;
  lo_n : lh_n (k_log s) = Z.of_nat (length bs);
  lo_len : length (lh_block (k_log s)) = Z.to_nat LOGSIZE;
  lo_bs : take (length bs) (lh_block (k_log s)) = bs;
  lo_range : 0 <= st ∧ st + LOGSIZE < 2 ^ 31;
  lo_room : Z.of_nat (length bs) < LOGSIZE
}.

Lemma log_ok_ext dev st bs s s' : log_ok dev st bs s -> k_log s' = k_log s -> log_ok dev st bs s'.
Proof. intros [] E. by constructor; rewrite ?E. Qed.

Lemma log_ok_lookup dev st bs s i b :
  log_ok dev st bs s -> bs !! i = Some b ->
  lh_block (k_log s) !! i = Some b ∧ (i < length bs)%nat ∧ (length bs < Z.to_nat LOGSIZE)%nat.
Proof.
  intros [_ _ _ L1 L2 _ L3] Hi. apply lookup_lt_Some in Hi as Hlt. rewrite <- L2 in Hi.
  rewrite lookup_take_lt in Hi by done. split; [done|]. split; [done|lia].
Qed.

Section run_log.
Context `{Fuel} (Hfuel : (1 <= fuel)%nat).
Context `{DL : DiskLaw}.
Context (dev st : Z) (h : hart) (cp : cpu) (p : nat) (px : proc).
Notation cache := (bcache dev (p_pid px)).

(** From a cache with nothing held and [pin] pinned, the writes [w] were done. *)
Record wrote (pin' : gset Z) (V : Z -> list Z) (w : list (Z * list Z)) (s s' : kstate) : Prop := {
  wr_cache : cache ∅ pin' (write_view V w) s';
  wr_frame : bio_frame s s';
  wr_disk : k_disk s' = apply_writes (k_disk s) w;
  wr_hist : k_dhist s' = k_dhist s ++ w
}.

Lemma wrote_trans pin1 pin2 V w1 w2 s s1 s2 :
  wrote pin1 V w1 s s1 -> wrote pin2 (write_view V w1) w2 s1 s2 -> wrote pin2 V (w1 ++ w2) s s2.
Proof.
  intros [C1 F1 D1 L1] [C2 F2 D2 L2]. constructor.
  - by rewrite write_view_app.
  - by etrans.
  - by rewrite apply_writes_app, D2, D1.
  - by rewrite L2, L1, app_assoc.
Qed.

Lemma wrote_nil pin V s : cache ∅ pin V s -> wrote pin V [] s s.
Proof. intros Hb. constructor; [done|done|done|by rewrite app_nil_r]. Qed.

Lemma slot_u32 i : 0 <= st -> st + LOGSIZE < 2 ^ 31 -> 0 <= i < LOGSIZE -> u32 (st + i + 1) = st + i + 1.
Proof. intros. apply u32_small. lia. Qed.

Lemma get_block_ok bs s i b :
  log_ok dev st bs s -> bs !! i = Some b -> get_block (Z.of_nat i) s = Ok b s.
Proof.
  intros Hl Hi. unfold get_block, getlog. rewrite bind_gets, Nat2Z.id.
  destruct (log_ok_lookup _ _ _ _ _ _ Hl Hi) as [E _]. by rewrite E.
Qed.

(** The two bread()s of write_log() and install_trans(). *)
Lemma two_reads pin V s m n :
  calm s h cp p px -> cache ∅ pin V s -> m <> n -> 0 <= m < 2 ^ 31 -> 0 <= n < 2 ^ 31 ->
  (size pin < bcache_head)%nat -> (n ∈ pin ∨ 1 + size pin < bcache_head)%nat ->
  ∃ b c s1 s2, run env (bread dev m s) = Ok b s1 ∧ run env (bread dev n s1) = Ok c s2
    ∧ k_log s1 = k_log s ∧ b <> c ∧ cache (<[c := n]> (<[b := m]> ∅)) pin V s2
    ∧ calm s2 h cp p px ∧ bio_frame s s2 ∧ k_disk s2 = k_disk s ∧ k_dhist s2 = k_dhist s.
Proof using Hfuel.
  intros Hc Hb Hmn Hm Hn Hs1 Hs2.
  destruct (bread_ok Hfuel dev h cp p px ∅ pin V s m Hc Hb) as (b & s1 & E1 & _ & Hb1 & F1 & D1 & L1); [done|done| |].
  { right. rewrite map_size_empty. lia. }
  assert (Hc1 : calm s1 h cp p px) by (by eapply frame_calm).
  destruct (bread_ok Hfuel dev h cp p px (<[b := m]> ∅) pin V s1 n Hc1 Hb1) as (c & s2 & E2 & Hcn & Hb2 & F2 & D2 & L2); [|done| |].
  { intros c. destruct (decide (b = c)) as [->|]; [rewrite lookup_insert_eq; congruence|by rewrite lookup_insert_ne]. }
  { rewrite map_size_insert_None, map_size_empty by done. destruct Hs2; [by left|right; lia]. }
  exists b, c, s1, s2. split; [done|]. split; [done|]. split; [by apply frame_log|].
  assert (Hbc : b <> c) by (intros ->; by rewrite lookup_insert_eq in Hcn).
  split; [done|]. split; [done|]. split; [by eapply frame_calm|]. split; [by etrans|]. split; congruence.
Qed.

(** ... and the two brelse()s at the end. *)
Lemma two_releases pin V s b c m n :
  calm s h cp p px -> cache (<[c := n]> (<[b := m]> ∅)) pin V s -> b <> c ->
  (m ∈ pin ∨ V m = dblock (k_disk s) m) -> (n ∈ pin ∨ V n = dblock (k_disk s) n) ->
  (∃ s1 s2, brelse b s = Ok tt s1 ∧ brelse c s1 = Ok tt s2 ∧ cache ∅ pin V s2 ∧ bio_frame s s2
    ∧ k_disk s2 = k_disk s ∧ k_dhist s2 = k_dhist s)
  ∧ (∃ s1 s2, brelse c s = Ok tt s1 ∧ brelse b s1 = Ok tt s2 ∧ cache ∅ pin V s2 ∧ bio_frame s s2
    ∧ k_disk s2 = k_disk s ∧ k_dhist s2 = k_dhist s).
Proof using Hfuel.
  intros Hc Hb Hbc Hm Hn.
  assert (Lb : (<[c := n]> (<[b := m]> (∅ : gmap nat Z))) !! b = Some m)
    by (by rewrite lookup_insert_ne, lookup_insert_eq).
  assert (Lc : (<[c := n]> (<[b := m]> (∅ : gmap nat Z))) !! c = Some n) by apply lookup_insert_eq.
  split.
  - destruct (brelse_ok Hfuel dev h cp p px _ pin V s b m Hc Hb Lb Hm) as (s1 & E1 & Hb1 & F1 & D1 & L1).
    rewrite delete_insert_ne, delete_insert_id in Hb1 by done.
    assert (Hc1 : calm s1 h cp p px) by (by eapply frame_calm).
    destruct (brelse_ok Hfuel dev h cp p px _ pin V s1 c n Hc1 Hb1 (lookup_insert_eq _ _ _)) as (s2 & E2 & Hb2 & F2 & D2 & L2).
    { by rewrite D1. }
    rewrite delete_insert_id in Hb2 by done. exists s1, s2.
    repeat (split; [done|]). split; [by etrans|]. split; congruence.
  - destruct (brelse_ok Hfuel dev h cp p px _ pin V s c n Hc Hb Lc Hn) as (s1 & E1 & Hb1 & F1 & D1 & L1).
    rewrite delete_insert_id in Hb1 by (by rewrite lookup_insert_ne).
    assert (Hc1 : calm s1 h cp p px) by (by eapply frame_calm).
    destruct (brelse_ok Hfuel dev h cp p px _ pin V s1 b m Hc1 Hb1 (lookup_insert_eq _ _ _)) as (s2 & E2 & Hb2 & F2 & D2 & L2).
    { by rewrite D1. }
    rewrite delete_insert_id in Hb2 by done. exists s1, s2.
    repeat (split; [done|]). split; [by etrans|]. split; congruence.
Qed.

(** Fill a held buffer with [d] and write it. *)
Lemma fill_write held pin V s b n d :
  calm s h cp p px -> cache held pin V s -> held !! b = Some n -> length d = Z.to_nat BSIZE ->
  ∃ s1 s2, set_bdata b (λ _, d) s = Ok tt s1 ∧ run env (bwrite b s1) = Ok tt s2
    ∧ cache held pin (<[n := d]> V) s2 ∧ calm s2 h cp p px ∧ bio_frame s s2
    ∧ k_disk s2 = <[n := d]> (k_disk s) ∧ k_dhist s2 = k_dhist s ++ [(n, d)].
Proof using Hfuel.
  intros Hc Hb Hh Hd.
  destruct (set_bdata_ok dev px held pin V s b n (λ _, d) Hb Hh Hd) as (s1 & E1 & Hb1 & F1 & D1 & L1).
  assert (Hc1 : calm s1 h cp p px) by (by eapply frame_calm).
  destruct (bwrite_ok Hfuel dev h cp p px held pin _ s1 b n Hc1 Hb1 Hh) as (s2 & E2 & Hb2 & F2 & D2 & L2).
  rewrite fn_lookup_insert in D2, L2. exists s1, s2. split; [done|]. split; [done|]. split; [done|].
  split; [by eapply frame_calm|]. split; [by etrans|]. split; congruence.
Qed.

Lemma write_log_one_ok bs pin V s i b :
  calm s h cp p px -> log_ok dev st bs s -> cache ∅ pin V s -> bs !! i = Some b ->
  0 <= b < 2 ^ 31 -> ¬ in_log st b -> b ∈ pin -> (size pin < bcache_head)%nat ->
  (∀ n, n ∈ pin -> ¬ in_log st n) ->
  ∃ s', run env (write_log_one (Z.of_nat i) s) = Ok tt s'
    ∧ wrote pin V [(st + Z.of_nat i + 1, V b)] s s'.
Proof using Hfuel.
  intros Hc Hl Hb Hi Hr Hnl Hp Hsz Hpl. set (slot := st + Z.of_nat i + 1).
  destruct (log_ok_lookup _ _ _ _ _ _ Hl Hi) as (Hlk & Hlt & Hlen).
  pose proof (lo_range _ _ _ _ Hl) as Hst. change LOGSIZE with 30 in *.
  assert (Hsl : in_log st slot) by (unfold in_log; change LOGSIZE with 30; lia).
  assert (Hne : slot <> b) by (intros <-; done).
  destruct (two_reads pin V s slot b Hc Hb Hne ltac:(lia) Hr Hsz (or_introl Hp))
    as (tb & fb & s1 & s2 & E1 & E2 & K1 & Htf & Hb2 & Hc2 & F2 & D2 & L2).
  destruct (fill_write _ pin V s2 tb slot (V b) Hc2 Hb2) as (s3 & s4 & E3 & E4 & Hb4 & Hc4 & F4 & D4 & L4).
  { by rewrite lookup_insert_ne, lookup_insert_eq. }
  { apply (bc_size _ _ _ _ _ _ Hb2). }
  destruct (two_releases pin _ s4 tb fb slot b Hc4 Hb4 Htf) as [_ (s5 & s6 & E5 & E6 & Hb6 & F6 & D6 & L6)].
  { right. rewrite D4, dblock_insert, decide_True by done. apply fn_lookup_insert. }
  { by left. }
  exists s6. split.
  - unfold write_log_one, getlog. rewrite bind_gets, (lo_start _ _ _ _ Hl), (lo_dev _ _ _ _ Hl).
    rewrite u32_small by (subst slot; lia). rewrite (run_bind env _ _ _ _ _ E1).
    krun (get_block_ok bs s1 i b (log_ok_ext _ _ _ _ _ Hl K1) Hi). rewrite u32_small by lia.
    rewrite (run_bind env _ _ _ _ _ E2).
    krun (bdata_ok dev px _ pin V s2 fb b Hb2 (lookup_insert_eq _ _ _)). krun E3.
    rewrite (run_bind env _ _ _ _ _ E4). krun E5. by rewrite E6.
  - constructor; [exact Hb6|by do 2 (etrans; [eassumption|])|..]; simpl; congruence.
Qed.

(** The loops over the blocks of a transaction: round [i] does the writes
    [w i], from the [pins i] pinned blocks to the [pins (S i)]. *)
Lemma tail_loop (body : Z -> K unit) (pins : nat -> gset Z) (w : nat -> Z * list Z) bs V n :
  (∀ i s, (i < n)%nat -> calm s h cp p px -> log_ok dev st bs s ->
     cache ∅ (pins i) (write_view V (w <$> seq 0 i)) s ->
     ∃ s', run env (body (Z.of_nat i) s) = Ok tt s'
       ∧ wrote (pins (S i)) (write_view V (w <$> seq 0 i)) [w i] s s') ->
  ∀ s, calm s h cp p px -> log_ok dev st bs s -> cache ∅ (pins 0%nat) V s ->
  ∃ s', run env (for_all (zrange 0 n) body s) = Ok tt s' ∧ wrote (pins n) V (w <$> seq 0 n) s s'.
Proof.
  intros Hbody. assert (Hg : ∀ k i s, (i + k = n)%nat -> calm s h cp p px -> log_ok dev st bs s ->
    cache ∅ (pins i) (write_view V (w <$> seq 0 i)) s ->
    ∃ s', run env (for_all (zrange (Z.of_nat i) k) body s) = Ok tt s'
      ∧ wrote (pins n) (write_view V (w <$> seq 0 i)) (w <$> seq i k) s s').
  { induction k as [|k IH]; intros i s Hik Hc Hl Hb.
    - exists s. split; [done|]. assert (i = n) as -> by lia. by apply wrote_nil.
    - destruct (Hbody i s ltac:(lia) Hc Hl Hb) as (s1 & E1 & W1).
      destruct (IH (S i) s1) as (s2 & E2 & W2).
      { lia. } { eapply frame_calm; [exact (wr_frame _ _ _ _ _ W1)|done]. }
      { eapply log_ok_ext; [done|]. apply frame_log, (wr_frame _ _ _ _ _ W1). }
      { rewrite seq_S, fmap_app. simpl. rewrite write_view_app. apply (wr_cache _ _ _ _ _ W1). }
      exists s2. split.
      + rewrite zrange_S. cbn [for_all]. rewrite (run_bind env _ _ _ _ _ E1).
        by replace (Z.of_nat i + 1) with (Z.of_nat (S i)) by lia.
      + cbn [seq fmap list_fmap]. apply (wrote_trans (pins (S i)) (pins n) _ [w i] _ s s1 s2); [done|].
        rewrite <- write_view_app. by rewrite seq_S, fmap_app in W2. }
  intros s Hc Hl Hb. apply (Hg n 0%nat s); [lia|done..].
Qed.

Lemma imap_seq {A B} (f : nat -> A -> B) l (d : A) :
  imap f l = (λ i, f i (default d (l !! i))) <$> seq 0 (length l).
Proof.
  apply list_eq. intros i. rewrite list_lookup_imap, list_lookup_fmap. destruct (l !! i) as [x|] eqn:E.
  - rewrite lookup_seq_lt by (by eapply lookup_lt_Some). simpl. by rewrite E.
  - rewrite lookup_seq_ge by (by apply lookup_ge_None_1). done.
Qed.

(** The blocks of a transaction: distinct, and none of them of the log. *)
Definition tx_ok (bs : list Z) : Prop :=
  NoDup bs ∧ ∀ b, b ∈ bs -> 0 <= b < 2 ^ 31 ∧ ¬ in_log st b.

Lemma log_writes_slots V bs m : m ∈ (log_writes st bs V).*1 -> Z.of_nat (length bs) < LOGSIZE -> in_log st m.
Proof.
  intros Hin Hl. pose proof (fst_log_writes st bs V Hl m _ Hin ltac:(done)). unfold in_log. lia.
Qed.

Lemma write_log_ok bs V s :
  calm s h cp p px -> log_ok dev st bs s -> cache ∅ (list_to_set bs) V s -> tx_ok bs ->
  (length bs < bcache_head)%nat ->
  ∃ s', run env (write_log s) = Ok tt s' ∧ wrote (list_to_set bs) V (log_writes st bs V) s s'.
Proof using Hfuel.
  intros Hc Hl Hb [Hd Hok] Hlt. unfold write_log, getlog. rewrite bind_gets, (lo_n _ _ _ _ Hl), Nat2Z.id.
  unfold log_writes. rewrite (imap_seq _ bs 0).
  apply (tail_loop write_log_one (λ _, list_to_set bs) _ bs V (length bs)); [|done..].
  intros i s1 Hi Hc1 Hl1 Hb1. destruct (lookup_lt_is_Some_2 bs i Hi) as [b Hbi].
  assert (Hin : b ∈ bs) by (by eapply list_elem_of_lookup_2). destruct (Hok b Hin) as [Hr Hnl].
  set (w := λ i : nat, (st + Z.of_nat i + 1, V (default 0 (bs !! i)))) in *. rewrite Hbi. cbn [default from_option id].
  replace (V b) with (write_view V (w <$> seq 0 i) b).
  - apply (write_log_one_ok bs); try done; [by apply elem_of_list_to_set| |].
    + rewrite size_list_to_set by done. lia.
    + intros n Hn. apply elem_of_list_to_set in Hn. by apply Hok.
  - apply write_view_ne. intros Hf. apply Hnl.
    rewrite <- list_fmap_compose in Hf. apply list_elem_of_fmap in Hf as (j & -> & Hj). apply elem_of_seq in Hj.
    simpl. unfold in_log. change LOGSIZE with 30. change bcache_head with 30%nat in Hlt. lia.
Qed.

Lemma write_head_ok bs pin V s :
  calm s h cp p px -> log_ok dev st bs s -> cache ∅ pin V s -> (size pin < bcache_head)%nat ->
  Z.of_nat (length bs) < LOGSIZE ->
  (∃ s', run env (write_head s) = Ok tt s'
    ∧ wrote pin V [(st, head_block (Z.of_nat (length bs)) (lh_block (k_log s)) (V st))] s s')
  ∧ hdr_n (head_block (Z.of_nat (length bs)) (lh_block (k_log s)) (V st)) = Z.of_nat (length bs)
  ∧ ∀ i b, bs !! i = Some b -> - 2 ^ 31 <= b < 2 ^ 31 ->
      hdr_block (head_block (Z.of_nat (length bs)) (lh_block (k_log s)) (V st)) (Z.of_nat i) = b.
Proof using Hfuel.
  intros Hc Hl Hb Hsz Hlen. pose proof (lo_range _ _ _ _ Hl) as Hst.
  set (hd := head_block _ _ _).
  destruct (head_block_ok (Z.of_nat (length bs)) (lh_block (k_log s)) (V st) ltac:(lia) (bc_size _ _ _ _ _ _ Hb st)) as (H1 & H2 & H3).
  split; [|split; [done|]].
  2:{ intros i b Hi Hr. destruct (log_ok_lookup _ _ _ _ _ _ Hl Hi) as (Hlk & Hlt & _).
      assert (Ea : aget (lh_block (k_log s)) (Z.of_nat i) = b) by (unfold aget; by rewrite Nat2Z.id, Hlk).
      subst hd. rewrite H3; [done|lia|by rewrite Ea]. }
  destruct (bread_ok Hfuel dev h cp p px ∅ pin V s st Hc Hb) as (b & s1 & E1 & _ & Hb1 & F1 & D1 & L1); [done|change LOGSIZE with 30 in *; lia| |].
  { right. rewrite map_size_empty. lia. }
  assert (Hc1 : calm s1 h cp p px) by (by eapply frame_calm).
  assert (Hh : (<[b := st]> (∅ : gmap nat Z)) !! b = Some st) by apply lookup_insert_eq.
  destruct (set_bdata_ok dev px _ pin V s1 b st (head_block (Z.of_nat (length bs)) (lh_block (k_log s))) Hb1 Hh H1)
    as (s2 & E2 & Hb2 & F2 & D2 & L2). fold hd in Hb2.
  assert (Hc2 : calm s2 h cp p px) by (by eapply frame_calm).
  destruct (bwrite_ok Hfuel dev h cp p px _ pin _ s2 b st Hc2 Hb2 Hh) as (s3 & E3 & Hb3 & F3 & D3 & L3).
  rewrite fn_lookup_insert in D3, L3. assert (Hc3 : calm s3 h cp p px) by (by eapply frame_calm).
  destruct (brelse_ok Hfuel dev h cp p px _ pin _ s3 b st Hc3 Hb3 Hh) as (s4 & E4 & Hb4 & F4 & D4 & L4).
  { right. rewrite D3, dblock_insert, decide_True by done. apply fn_lookup_insert. }
  rewrite delete_insert_id in Hb4 by done. exists s4. split.
  - unfold write_head, getlog. rewrite bind_gets, (lo_start _ _ _ _ Hl), (lo_dev _ _ _ _ Hl).
    rewrite u32_small by (change LOGSIZE with 30 in *; lia). rewrite (run_bind env _ _ _ _ _ E1).
    rewrite bind_gets, (frame_log _ _ F1), (lo_n _ _ _ _ Hl), (lo_len _ _ _ _ Hl).
    replace (Z.of_nat (Z.to_nat LOGSIZE) <? _) with false by (symmetry; apply Z.ltb_ge; change LOGSIZE with 30 in *; lia).
    krun E2. rewrite (run_bind env _ _ _ _ _ E3). by rewrite E4.
  - constructor; [exact Hb4|by do 3 (etrans; [eassumption|])|..]; simpl; congruence.
Qed.

Lemma maybe_unpin (recovering : bool) held pin V s c b :
  calm s h cp p px -> cache held pin V s -> held !! c = Some b -> (recovering = false -> b ∈ pin) ->
  ∃ s', when (negb recovering) (bunpin c) s = Ok tt s'
    ∧ cache held (if recovering then pin else pin ∖ {[b]}) V s' ∧ calm s' h cp p px ∧ bio_frame s s'
    ∧ k_disk s' = k_disk s ∧ k_dhist s' = k_dhist s.
Proof using Hfuel.
  intros Hc Hb Hh Hp. destruct recovering; cbn [negb when]; [by exists s|].
  destruct (bunpin_ok Hfuel dev h cp p px held pin V s c b Hc Hb Hh (Hp eq_refl)) as (s' & E & Hb' & F & D & L).
  exists s'. split; [done|]. split; [done|]. split; [by eapply frame_calm|done].
Qed.

Lemma install_one_ok (recovering : bool) bs pin V s i b :
  calm s h cp p px -> log_ok dev st bs s -> cache ∅ pin V s -> bs !! i = Some b ->
  0 <= b < 2 ^ 31 -> ¬ in_log st b -> (∀ n, n ∈ pin -> ¬ in_log st n) -> (size pin < bcache_head)%nat ->
  (if recovering then 1 + size pin < bcache_head else b ∈ pin)%nat ->
  ∃ s', run env (install_one recovering (Z.of_nat i) s) = Ok tt s'
    ∧ wrote (if recovering then pin else pin ∖ {[b]}) V [(b, V (st + Z.of_nat i + 1))] s s'.
Proof using Hfuel.
  intros Hc Hl Hb Hi Hr Hnl Hpl Hsz Hp. set (slot := st + Z.of_nat i + 1).
  destruct (log_ok_lookup _ _ _ _ _ _ Hl Hi) as (Hlk & Hlt & Hlen).
  pose proof (lo_range _ _ _ _ Hl) as Hst. change LOGSIZE with 30 in *.
  assert (Hsl : in_log st slot) by (unfold in_log; change LOGSIZE with 30; lia).
  assert (Hne : slot <> b) by (intros <-; done).
  destruct (two_reads pin V s slot b Hc Hb Hne ltac:(lia) Hr Hsz)
    as (lb & db & s1 & s2 & E1 & E2 & K1 & Hld & Hb2 & Hc2 & F2 & D2 & L2); [by destruct recovering; [right|left]|].
  assert (Lb : (<[db := b]> (<[lb := slot]> (∅ : gmap nat Z))) !! lb = Some slot)
    by (by rewrite lookup_insert_ne, lookup_insert_eq).
  assert (Ld : (<[db := b]> (<[lb := slot]> (∅ : gmap nat Z))) !! db = Some b) by apply lookup_insert_eq.
  destruct (fill_write _ pin V s2 db b (V slot) Hc2 Hb2 Ld (bc_size _ _ _ _ _ _ Hb2 slot))
    as (s3 & s4 & E3 & E4 & Hb4 & Hc4 & F4 & D4 & L4).
  destruct (maybe_unpin recovering _ pin _ s4 db b Hc4 Hb4 Ld) as (s5 & E5 & Hb5 & Hc5 & F5 & D5 & L5); [by intros ->|].
  destruct (two_releases _ _ s5 lb db slot b Hc5 Hb5 Hld) as [(s6 & s7 & E6 & E7 & Hb7 & F7 & D7 & L7) _].
  { right. rewrite D5, D4, dblock_insert, decide_False by done. rewrite fn_lookup_insert_ne by done.
    rewrite D2. apply (bc_clean _ _ _ _ _ _ Hb); [|done]. intros Hin. by apply (Hpl slot). }
  { right. rewrite D5, D4, dblock_insert, decide_True by done. apply fn_lookup_insert. }
  exists s7. split.
  - unfold install_one, getlog. rewrite bind_gets, (lo_start _ _ _ _ Hl), (lo_dev _ _ _ _ Hl).
    rewrite u32_small by (subst slot; lia). rewrite (run_bind env _ _ _ _ _ E1).
    krun (get_block_ok bs s1 i b (log_ok_ext _ _ _ _ _ Hl K1) Hi). rewrite u32_small by lia.
    rewrite (run_bind env _ _ _ _ _ E2).
    krun (bdata_ok dev px _ pin V s2 lb slot Hb2 Lb). krun E3.
    rewrite (run_bind env _ _ _ _ _ E4). krun E5. krun E6. by rewrite E7.
  - constructor; [exact Hb7|by do 3 (etrans; [eassumption|])|..]; simpl; congruence.
Qed.

Lemma nodup_drop {A} i (l : list A) : NoDup l -> NoDup (drop i l).
Proof. rewrite <- (take_drop i l) at 1. intros Hd. by apply NoDup_app in Hd as (_ & _ & Hd). Qed.

(** The blocks as install_trans() writes them: from the log. *)
Definition install_writes (bs : list Z) (V : Z -> list Z) : list (Z * list Z) :=
  imap (λ i b, (b, V (st + Z.of_nat i + 1))) bs.

Lemma install_trans_ok (recovering : bool) bs V s :
  calm s h cp p px -> log_ok dev st bs s ->
  cache ∅ (if recovering then ∅ else list_to_set bs) V s ->
  (if recovering then True else NoDup bs ∧ (length bs < bcache_head)%nat) ->
  (∀ b, b ∈ bs -> 0 <= b < 2 ^ 31 ∧ ¬ in_log st b) ->
  ∃ s', run env (install_trans recovering s) = Ok tt s' ∧ wrote ∅ V (install_writes bs V) s s'.
Proof using Hfuel.
  intros Hc Hl Hb Hd Hok. unfold install_trans, getlog. rewrite bind_gets, (lo_n _ _ _ _ Hl), Nat2Z.id.
  unfold install_writes. rewrite (imap_seq _ bs 0).
  set (pins := λ i, if recovering then ∅ else list_to_set (drop i bs) : gset Z).
  assert (En : pins (length bs) = ∅) by (subst pins; simpl; destruct recovering; [done|by rewrite drop_all]).
  rewrite <- En.
  apply (tail_loop (install_one recovering) pins _ bs V (length bs)); [|done|done|exact Hb].
  intros i s1 Hi Hc1 Hl1 Hb1. destruct (lookup_lt_is_Some_2 bs i Hi) as [b Hbi].
  assert (Hin : b ∈ bs) by (by eapply list_elem_of_lookup_2). destruct (Hok b Hin) as [Hr Hnl].
  set (w := λ i : nat, (default 0 (bs !! i), V (st + Z.of_nat i + 1))) in *. rewrite Hbi. cbn [default from_option id].
  replace (V (st + Z.of_nat i + 1)) with (write_view V (w <$> seq 0 i) (st + Z.of_nat i + 1)).
  2:{ apply write_view_ne. intros Hf. rewrite <- list_fmap_compose in Hf.
      apply list_elem_of_fmap in Hf as (j & Ej & Hj). apply elem_of_seq in Hj. simpl in Ej.
      destruct (lookup_lt_is_Some_2 bs j ltac:(lia)) as [c Hcj]. rewrite Hcj in Ej. simpl in Ej.
      destruct (Hok c (list_elem_of_lookup_2 _ _ _ Hcj)) as [_ Hcl]. apply Hcl. rewrite <- Ej.
      destruct (log_ok_lookup _ _ _ _ _ _ Hl Hbi) as (_ & _ & Hlen). unfold in_log. change LOGSIZE with 30 in *. lia. }
  assert (Es : pins (S i) = if recovering then pins i else pins i ∖ {[b]}).
  { subst pins. simpl. destruct recovering; [done|]. destruct Hd as [Hd _].
    rewrite (drop_S bs b i Hbi). simpl.
    assert (Hb' : b ∉ drop (S i) bs).
    { apply (nodup_drop i) in Hd. rewrite (drop_S bs b i Hbi) in Hd. by apply NoDup_cons in Hd as [? _]. }
    set_solver. }
  rewrite Es. apply (install_one_ok recovering bs); try done.
  - subst pins. simpl. destruct recovering; [set_solver|]. intros n Hn. apply elem_of_list_to_set in Hn.
    apply Hok. rewrite <- (take_drop i bs). set_solver.
  - subst pins. simpl. destruct recovering; [rewrite size_empty; unfold bcache_head; vm_compute; lia|].
    destruct Hd as [Hd Hl']. rewrite size_list_to_set by (by apply nodup_drop). rewrite length_drop. lia.
  - subst pins. simpl. destruct recovering; [rewrite size_empty; unfold bcache_head; vm_compute; lia|].
    rewrite (drop_S bs b i Hbi). set_solver.
Qed.

Lemma bcache_ext held pin V s s' :
  cache held pin V s -> k_bufs s' = k_bufs s -> k_locks s' = k_locks s -> k_slocks s' = k_slocks s ->
  k_disk s' = k_disk s -> k_vdisk s' = k_vdisk s -> cache held pin V s'.
Proof.
  intros [B1 B2 B3 B4 B5 B6 B7 B8 B9 B10 B11 B12 B13] E1 E2 E3 E4 E5.
  constructor; rewrite ?E1, ?E3, ?E4, ?E5; try done; try (by eapply lock_free_ext).
  intros b Hb. eapply lock_free_ext; [by apply B5|done].
Qed.

(** The copies in the log are the blocks of the transaction. *)
Lemma install_home bs V Hn :
  tx_ok bs -> Z.of_nat (length bs) < LOGSIZE ->
  install_writes bs (write_view V (log_writes st bs V ++ [(st, Hn)])) = home_writes bs V.
Proof.
  intros [Hd Hok] Hlen. unfold install_writes, home_writes. apply list_eq. intros i.
  rewrite list_lookup_imap, list_lookup_fmap. destruct (bs !! i) as [b|] eqn:Hi; [|done]. simpl. do 2 f_equal.
  apply write_view_eq.
  - intros b' Hin. apply elem_of_app in Hin as [Hin|Hin].
    + apply elem_log_writes in Hin as (j & c & Hc & E & ->). assert (j = i) as -> by lia. congruence.
    + apply list_elem_of_singleton in Hin. injection Hin as E _. lia.
  - left. rewrite fmap_app. apply elem_of_app. left. apply list_elem_of_fmap.
    exists (st + Z.of_nat i + 1, V b). split; [done|]. apply list_elem_of_lookup. exists i. unfold log_writes.
    by rewrite list_lookup_imap, Hi.
Qed.

(** lh.n = 0, the end of a commit or of a recovery. *)
Lemma clear_log bs pin V s :
  calm s h cp p px -> log_ok dev st bs s -> cache ∅ pin V s -> (size pin < bcache_head)%nat ->
  ∃ s' hd0, run env ((updlog (λ lg, lg <| lh_n := 0 |>) ;; write_head) s) = Ok tt s'
    ∧ cache ∅ pin (write_view V [(st, hd0)]) s' ∧ calm s' h cp p px ∧ log_ok dev st [] s'
    ∧ k_disk s' = apply_writes (k_disk s) [(st, hd0)] ∧ k_dhist s' = k_dhist s ++ [(st, hd0)]
    ∧ hdr_n hd0 = 0 ∧ k_locks s' = k_locks s.
Proof using Hfuel.
  intros Hc Hl Hb Hsz. set (s1 := s <| k_log ::= λ lg, lg <| lh_n := 0 |> |>).
  assert (Hc1 : calm s1 h cp p px) by (by eapply calm_ext).
  assert (Hl1 : log_ok dev st [] s1) by (destruct Hl as [L1 L2 L3 L4 L5 L6]; by constructor).
  assert (Hb1 : cache ∅ pin V s1) by (by eapply bcache_ext).
  destruct (write_head_ok [] pin V s1 Hc1 Hl1 Hb1 Hsz) as ((s' & E & [W1 W2 W3 W4]) & Hn & _).
  { change LOGSIZE with 30. simpl. lia. }
  eexists s', _. split; [exact E|]. split; [exact W1|]. split; [by eapply frame_calm|].
  split; [eapply log_ok_ext; [exact Hl1|by apply frame_log]|]. split; [exact W3|]. split; [exact W4|].
  split; [exact Hn|]. by rewrite (frame_locks _ _ W2).
Qed.

Lemma commit_ok bs V s :
  calm s h cp p px -> log_ok dev st bs s -> cache ∅ (list_to_set bs) V s -> tx_ok bs ->
  (length bs < bcache_head)%nat ->
  ∃ s' w, run env (commit s) = Ok tt s' ∧ cache ∅ ∅ (write_view V w) s' ∧ calm s' h cp p px
    ∧ log_ok dev st [] s' ∧ k_disk s' = apply_writes (k_disk s) w ∧ k_dhist s' = k_dhist s ++ w
    ∧ k_locks s' = k_locks s
    ∧ if bs is [] then w = [] else
      ∃ hdn hd0, w = commit_writes st bs V hdn hd0 ∧ hdr_n hdn = Z.of_nat (length bs) ∧ hdr_n hd0 = 0
        ∧ ∀ i b, bs !! i = Some b -> hdr_block hdn (Z.of_nat i) = b.
Proof using Hfuel.
  intros Hc Hl Hb Htx Hlt. unfold commit, getlog. rewrite bind_gets, (lo_n _ _ _ _ Hl).
  assert (Hlen : Z.of_nat (length bs) < LOGSIZE) by (change LOGSIZE with 30; change bcache_head with 30%nat in Hlt; lia).
  destruct bs as [|b0 bs0].
  { exists s, []. split; [done|]. split; [done|]. split; [done|]. split; [done|]. split; [done|].
    by rewrite app_nil_r. }
  set (bs := b0 :: bs0) in *. replace (0 <? Z.of_nat (length bs)) with true by done. cbn [when].
  assert (Hsz : (size (list_to_set bs : gset Z) < bcache_head)%nat) by (rewrite size_list_to_set; [done|apply Htx]).
  destruct (write_log_ok bs V s Hc Hl Hb Htx Hlt) as (s1 & E1 & W1).
  pose proof (frame_calm _ _ _ _ _ _ (wr_frame _ _ _ _ _ W1) Hc) as Hc1.
  pose proof (log_ok_ext _ _ _ _ _ Hl (frame_log _ _ (wr_frame _ _ _ _ _ W1))) as Hl1.
  destruct (write_head_ok bs _ _ s1 Hc1 Hl1 (wr_cache _ _ _ _ _ W1) Hsz Hlen) as ((s2 & E2 & W2) & Hhn & Hhb).
  set (hdn := head_block _ _ _) in *. pose proof (wrote_trans _ _ _ _ _ _ _ _ W1 W2) as W12.
  pose proof (frame_calm _ _ _ _ _ _ (wr_frame _ _ _ _ _ W12) Hc) as Hc2.
  pose proof (log_ok_ext _ _ _ _ _ Hl (frame_log _ _ (wr_frame _ _ _ _ _ W12))) as Hl2.
  destruct (install_trans_ok false bs _ s2 Hc2 Hl2 (wr_cache _ _ _ _ _ W12) (conj (proj1 Htx) Hlt) (proj2 Htx)) as (s3 & E3 & W3).
  rewrite (install_home bs V hdn Htx Hlen) in W3. pose proof (wrote_trans _ _ _ _ _ _ _ _ W12 W3) as W123.
  pose proof (frame_calm _ _ _ _ _ _ (wr_frame _ _ _ _ _ W123) Hc) as Hc3.
  pose proof (log_ok_ext _ _ _ _ _ Hl (frame_log _ _ (wr_frame _ _ _ _ _ W123))) as Hl3.
  destruct W123 as [C3 F3 D3 L3].
  destruct (clear_log bs ∅ _ s3 Hc3 Hl3 C3) as (s4 & hd0 & E4 & Hb4 & Hc4 & Hl4 & D4 & L4 & Hz & Hk4).
  { rewrite size_empty. vm_compute. lia. }
  exists s4, (commit_writes st bs V hdn hd0).
  assert (Ew : commit_writes st bs V hdn hd0 = ((log_writes st bs V ++ [(st, hdn)]) ++ home_writes bs V) ++ [(st, hd0)]).
  { unfold commit_writes. by rewrite <- !app_assoc. }
  split.
  { rewrite (run_bind env _ _ _ _ _ E1), (run_bind env _ _ _ _ _ E2), (run_bind env _ _ _ _ _ E3). exact E4. }
  rewrite Ew. split; [by rewrite write_view_app|]. split; [done|]. split; [done|].
  split; [by rewrite (apply_writes_app _ _ [(st, hd0)]), <- D3|]. split; [by rewrite L4, L3, <- (app_assoc (k_dhist s))|].
  split; [by rewrite Hk4, (frame_locks _ _ F3)|].
  exists hdn, hd0. split; [by rewrite <- Ew|]. split; [done|]. split; [done|].
  intros i b Hi. apply (Hhb i b Hi). destruct (proj2 Htx b (list_elem_of_lookup_2 _ _ _ Hi)). lia.
Qed.

(** *** Recovery *)

Lemma set_blocks_ok (f : Z -> Z) n s :
  (n <= length (lh_block (k_log s)))%nat ->
  for_all (zrange 0 n) (λ i, set_block i (f i)) s =
  Ok tt (s <| k_log ::= λ lg, lg <| lh_block := (f <$> zrange 0 n) ++ drop n (lh_block lg) |> |>).
Proof.
  induction n as [|n IH]; intros Hn.
  - cbn [zrange seq fmap list_fmap for_all]. apply ok_eq. keq. by destruct (k_log s).
  - assert (Ez : zrange 0 (S n) = zrange 0 n ++ [Z.of_nat n]).
    { replace (S n) with (n + 1)%nat by lia. rewrite zrange_app. f_equal. unfold zrange. simpl. f_equal. lia. }
    rewrite Ez. eapply for_all_snoc; [apply IH; lia|]. set (s1 := s <| k_log ::= _ |>).
    destruct (lookup_lt_is_Some_2 (lh_block (k_log s)) n ltac:(lia)) as [x Hx].
    assert (Hl : length (f <$> zrange 0 n) = n) by (by rewrite length_fmap, length_zrange).
    assert (Eb : lh_block (k_log s1) = (f <$> zrange 0 n) ++ x :: drop (S n) (lh_block (k_log s))).
    { subst s1. simpl. by rewrite (drop_S _ _ _ Hx). }
    unfold set_block, get_block, getlog. unfold kbind at 1. rewrite bind_gets.
    rewrite Nat2Z.id, Eb, lookup_app_r by lia. rewrite Hl, Nat.sub_diag. cbn.
    unfold updlog, modify. apply ok_eq. subst s1. keq. unfold update. simpl. f_equal. unfold aset.
    rewrite Nat2Z.id, (drop_S _ _ _ Hx), insert_app_r_alt by lia. rewrite Hl, Nat.sub_diag. simpl.
    by rewrite fmap_app, <- app_assoc.
Qed.

(** The blocks the header names. *)
Definition hdr_blocks (b : list Z) : list Z := hdr_block b <$> zrange 0 (Z.to_nat (hdr_n b)).

Lemma read_head_ok V s :
  calm s h cp p px -> log_ok dev st [] s -> cache ∅ ∅ V s -> 0 <= hdr_n (V st) < LOGSIZE ->
  ∃ s', run env (read_head s) = Ok tt s' ∧ cache ∅ ∅ V s' ∧ calm s' h cp p px
    ∧ log_ok dev st (hdr_blocks (V st)) s' ∧ k_disk s' = k_disk s ∧ k_dhist s' = k_dhist s.
Proof using Hfuel.
  intros Hc Hl Hb Hn. pose proof (lo_range _ _ _ _ Hl) as Hst. pose proof (lo_len _ _ _ _ Hl) as Hlen.
  change LOGSIZE with 30 in *.
  destruct (bread_ok Hfuel dev h cp p px ∅ ∅ V s st Hc Hb) as (b & s1 & E1 & _ & Hb1 & F1 & D1 & L1); [done|lia| |].
  { right. rewrite map_size_empty, size_empty. vm_compute. lia. }
  assert (Hh : (<[b := st]> (∅ : gmap nat Z)) !! b = Some st) by apply lookup_insert_eq.
  pose proof (frame_log _ _ F1) as K1. assert (Hc1 : calm s1 h cp p px) by (by eapply frame_calm).
  set (n := hdr_n (V st)) in *. set (s2 := s1 <| k_log ::= λ lg, lg <| lh_n := n |> |>).
  assert (Hn2 : (Z.to_nat n <= length (lh_block (k_log s2)))%nat).
  { subst s2. simpl. rewrite K1. lia. }
  pose proof (set_blocks_ok (hdr_block (V st)) (Z.to_nat n) s2 Hn2) as E3. set (s3 := s2 <| k_log ::= _ |>) in E3.
  assert (Hb3 : cache (<[b := st]> ∅) ∅ V s3) by (by eapply bcache_ext).
  assert (Hc3 : calm s3 h cp p px) by (by eapply calm_ext).
  destruct (brelse_ok Hfuel dev h cp p px _ ∅ V s3 b st Hc3 Hb3 Hh) as (s4 & E4 & Hb4 & F4 & D4 & L4).
  { right. change (k_disk s3) with (k_disk s1). rewrite D1. by apply (bc_clean _ _ _ _ _ _ Hb). }
  rewrite delete_insert_id in Hb4 by done. exists s4.
  assert (Ll : length (hdr_blocks (V st)) = Z.to_nat n) by (unfold hdr_blocks; by rewrite length_fmap, length_zrange).
  split; [|split; [done|split; [by eapply frame_calm|split; [|split]]]].
  - unfold read_head, getlog. rewrite bind_gets, (lo_start _ _ _ _ Hl), (lo_dev _ _ _ _ Hl), u32_small by lia.
    rewrite (run_bind env _ _ _ _ _ E1). krun (bdata_ok dev px _ ∅ V s1 b st Hb1 Hh).
    unfold updlog. rewrite bind_modify. change (i32 (get32 0 (V st))) with n. fold s2.
    rewrite (bind_ok _ _ _ _ _ E3). by rewrite E4.
  - eapply log_ok_ext; [|exact (frame_log _ _ F4)]. destruct Hl as [G1 G2 G3 G4 G5 G6].
    constructor; subst s3 s2; simpl; rewrite ?K1; try done.
    + lia.
    + rewrite length_app, length_fmap, length_zrange, length_drop, G4. change LOGSIZE with 30. lia.
    + fold (hdr_blocks (V st)). by rewrite take_app_length' by done.
    + rewrite Ll. change LOGSIZE with 30. lia.
  - change (k_disk s3) with (k_disk s1) in D4. congruence.
  - change (k_dhist s3) with (k_dhist s1) in L4. congruence.
Qed.

Lemma recover_ok V s :
  calm s h cp p px -> log_ok dev st [] s -> cache ∅ ∅ V s -> log_wf st (k_disk s) ->
  ∃ s' hd0, let w := replay_writes st (k_disk s) ++ [(st, hd0)] in
    run env (recover_from_log s) = Ok tt s' ∧ cache ∅ ∅ (write_view V w) s' ∧ calm s' h cp p px
    ∧ log_ok dev st [] s' ∧ k_disk s' = apply_writes (k_disk s) w ∧ k_dhist s' = k_dhist s ++ w
    ∧ hdr_n hd0 = 0.
Proof using Hfuel.
  intros Hc Hl Hb [Hn Hblk].
  assert (Ev : ∀ n, V n = dblock (k_disk s) n) by (intros n; by apply (bc_clean _ _ _ _ _ _ Hb)).
  rewrite <- Ev in Hn, Hblk.
  destruct (read_head_ok V s Hc Hl Hb Hn) as (s1 & E1 & Hb1 & Hc1 & Hl1 & D1 & L1).
  destruct (install_trans_ok true (hdr_blocks (V st)) V s1 Hc1 Hl1 Hb1 I) as (s2 & E2 & W2).
  { intros b Hin. apply list_elem_of_fmap in Hin as (i & -> & Hi). apply elem_of_zrange in Hi.
    apply Hblk. lia. }
  assert (Ew : install_writes (hdr_blocks (V st)) V = replay_writes st (k_disk s)).
  { unfold install_writes, replay_writes, hdr_blocks. rewrite <- Ev. apply list_eq. intros i.
    rewrite list_lookup_imap, !list_lookup_fmap. unfold zrange. rewrite !list_lookup_fmap.
    destruct (decide (i < Z.to_nat (hdr_n (V st)))%nat).
    - rewrite lookup_seq_lt by done. cbn [fmap option_fmap option_map Nat.add].
      by rewrite Z.add_0_l, (Ev (st + Z.of_nat i + 1)).
    - rewrite lookup_seq_ge by lia. done. }
  rewrite Ew in W2. destruct W2 as [C2 F2 D2 L2].
  pose proof (frame_calm _ _ _ _ _ _ F2 Hc1) as Hc2.
  pose proof (log_ok_ext _ _ _ _ _ Hl1 (frame_log _ _ F2)) as Hl2.
  destruct (clear_log _ ∅ _ s2 Hc2 Hl2 C2) as (s3 & hd0 & E3 & Hb3 & Hc3 & Hl3 & D3 & L3 & Hz & _).
  { rewrite size_empty. vm_compute. lia. }
  exists s3, hd0. cbv zeta. split.
  { unfold recover_from_log. rewrite (run_bind env _ _ _ _ _ E1), (run_bind env _ _ _ _ _ E2). exact E3. }
  split; [by rewrite write_view_app|]. split; [done|]. split; [done|].
  split; [rewrite D1 in D2; by rewrite apply_writes_app, <- D2|]. split; [|done].
  by rewrite L3, L2, L1, <- (app_assoc (k_dhist s)).
Qed.

(** *** log_write() *)

(** The transaction after log_write() of block [n]. *)
Definition tx_add (bs : list Z) (n : Z) : list Z := if decide (n ∈ bs) then bs else bs ++ [n].

Lemma find_block_in l n x i :
  take n l !! i = Some x -> (∀ j, (j < i)%nat -> take n l !! j <> Some x) -> find_block l n x = i.
Proof.
  revert n i. induction l as [|y l IH]; intros [|n] i Hi Hj; simpl in *; try (by rewrite lookup_nil in Hi).
  destruct (Z.eqb_spec y x) as [->|Hne].
  - destruct i as [|i]; [done|]. exfalso. by apply (Hj 0%nat); [lia|].
  - destruct i as [|i]; simpl in Hi; [congruence|]. f_equal. apply (IH n); [done|].
    intros j Hlt. apply (Hj (S j)). lia.
Qed.

Lemma find_block_notin l n x : (n <= length l)%nat -> x ∉ take n l -> find_block l n x = n.
Proof.
  revert n. induction l as [|y l IH]; intros [|n] Hn Hx; simpl in *; try done; [lia|].
  destruct (Z.eqb_spec y x) as [->|Hne]; [set_solver|]. f_equal. apply IH; [lia|set_solver].
Qed.

Lemma u32_blocks bs l :
  take (length bs) l = bs -> (∀ b, b ∈ bs -> 0 <= b < 2 ^ 31) -> take (length bs) (u32 <$> l) = bs.
Proof.
  intros Hl Hb. rewrite <- fmap_take, Hl. clear Hl. induction bs as [|b bs IH]; [done|]. cbn [fmap list_fmap].
  rewrite u32_small, IH; [done|intros; apply Hb; set_solver|]. specialize (Hb b ltac:(set_solver)). lia.
Qed.

Lemma log_index bs s n :
  log_ok dev st bs s -> tx_ok bs -> (length bs < Z.to_nat LOGSIZE)%nat ->
  (n ∈ bs ∧ bs !! find_block (u32 <$> lh_block (k_log s)) (length bs) n = Some n)
  ∨ (n ∉ bs ∧ find_block (u32 <$> lh_block (k_log s)) (length bs) n = length bs).
Proof.
  intros Hl [Hd Hok] Hlt. pose proof (u32_blocks bs _ (lo_bs _ _ _ _ Hl) (λ b Hb, proj1 (Hok b Hb))) as E.
  destruct (decide (n ∈ bs)) as [Hin|Hin]; [left|right]; (split; [done|]).
  - apply list_elem_of_lookup in Hin as [i Hi]. rewrite (find_block_in _ _ _ i); rewrite ?E; [done..|].
    intros j Hj E2. pose proof (NoDup_lookup _ _ _ _ Hd Hi E2). lia.
  - apply find_block_notin; [|by rewrite E]. rewrite length_fmap, (lo_len _ _ _ _ Hl). lia.
Qed.

Lemma enter_log l s f : (enter l s) <| k_log ::= f |> = enter l (s <| k_log ::= f |>).
Proof. unfold enter, pushed, lock_of. by keq. Qed.

Lemma set_block_ok i v s x :
  lh_block (k_log s) !! i = Some x ->
  set_block (Z.of_nat i) v s = Ok tt (s <| k_log ::= λ lg, lg <| lh_block ::= <[i := v]> |> |>).
Proof.
  intros Hx. unfold set_block, get_block, getlog. unfold kbind at 1. rewrite bind_gets, Nat2Z.id, Hx.
  unfold updlog, modify, aset. cbn. by rewrite Nat2Z.id.
Qed.

(** A transaction may grow: log_write()'s two checks pass. *)
Record log_room (bs : list Z) (s : kstate) : Prop := {
  lr_lock : lock_free L_log s;
  lr_size : Z.of_nat (length bs) < lg_size (k_log s) - 1 ∧ lg_size (k_log s) <= LOGSIZE;
  lr_out : 1 <= lg_outstanding (k_log s)
}.

(** What a transaction changes of the rest of the state: nothing, until it commits. *)
Record log_frame (s s' : kstate) : Prop := {
  lf_bio : bio_frame s (s' <| k_log := k_log s |>);
  lf_size : lg_size (k_log s') = lg_size (k_log s);
  lf_out : lg_outstanding (k_log s') = lg_outstanding (k_log s);
  lf_disk : k_disk s' = k_disk s;
  lf_dhist : k_dhist s' = k_dhist s
}.

Lemma log_write_ok bs held V s b n :
  calm s h cp p px -> log_ok dev st bs s -> tx_ok bs -> log_room bs s ->
  cache held (list_to_set bs) V s -> held !! b = Some n -> ¬ in_log st n ->
  ∃ s', log_write b s = Ok tt s' ∧ log_ok dev st (tx_add bs n) s' ∧ tx_ok (tx_add bs n)
    ∧ cache held (list_to_set (tx_add bs n)) V s' ∧ calm s' h cp p px ∧ log_frame s s'.
Proof using Hfuel.
  intros Hc Hl Htx [Hlk [Hr1 Hr2] Hro] Hb Hh Hnl. pose proof (c_quiet _ _ _ _ _ Hc) as Hq.
  destruct (held_lookup _ _ _ _ _ _ Hb b n Hh) as (x & Hlt & Hx & Ho & Dx & Nx & Ed).
  pose proof (bo_no _ _ _ _ _ _ Ho) as Hrn. rewrite Nx in Hrn. change LOGSIZE with 30 in *.
  pose proof (quiet_enter L_log s h cp Hq) as Hq1.
  assert (Hx1 : k_bufs (enter L_log s) !! b = Some x) by exact Hx.
  unfold log_write. krun (acquire_ok Hfuel L_log s h cp Hq Hlk). unfold getlog. rewrite bind_gets.
  change (k_log (enter L_log s)) with (k_log s). change LOGSIZE with 30. rewrite (lo_n _ _ _ _ Hl).
  replace (30 <=? _) with false by (symmetry; apply Z.leb_gt; lia).
  replace (lg_size _ - 1 <=? _) with false by (symmetry; apply Z.leb_gt; lia). cbn [orb].
  replace (lg_outstanding _ <? 1) with false by (symmetry; apply Z.ltb_ge; lia).
  krun (getb_ok _ _ _ Hx1). rewrite Nat2Z.id, Nx, i32_small by lia.
  set (i := find_block _ _ _).
  destruct (log_index bs s n Hl Htx) as [[Hin Hi]|[Hin Hi]]; [change LOGSIZE with 30; lia|..]; fold i in Hi.
  - destruct (log_ok_lookup _ _ _ _ _ _ Hl Hi) as (Hlk' & Hlt' & _).
    assert (E1 : set_block (Z.of_nat i) n (enter L_log s) = Ok tt (enter L_log s)).
    { rewrite (set_block_ok i n (enter L_log s) n Hlk'). apply ok_eq. rewrite enter_log. f_equal. keq.
      destruct (k_log s). unfold update. simpl in *. f_equal. by apply list_insert_id. }
    krun E1. replace (Z.of_nat i =? _) with false by (symmetry; apply Z.eqb_neq; lia). cbn [when].
    exists s. unfold tx_add. rewrite decide_True by done.
    split; [rewrite bind_ret; by eapply release_ok|done].
  - rewrite Hi. destruct (lookup_lt_is_Some_2 (lh_block (k_log s)) (length bs)) as [y Hy].
    { rewrite (lo_len _ _ _ _ Hl). change LOGSIZE with 30. lia. }
    krun (set_block_ok (length bs) n (enter L_log s) y Hy). rewrite enter_log. set (s1 := s <| k_log ::= _ |>).
    rewrite Z.eqb_refl. cbn [when].
    assert (Hq1' : quiet s1 h cp) by (by eapply quiet_ext).
    assert (Hlb : lock_free L_bcache (enter L_log s1)).
    { apply lock_free_enter; [done|]. eapply lock_free_ext; [exact (bc_lock _ _ _ _ _ _ Hb)|done]. }
    pose proof (bcache_section Hfuel _ _ (enter L_log s1) b x (λ x, x <| b_refcnt ::= λ n, u32 (n + 1) |>)
      (quiet_enter L_log s1 h cp Hq1') Hlb Hx) as Ep.
    rewrite enter_bufs in Ep. set (s2 := s1 <| k_bufs ::= _ |>) in Ep.
    set (s3 := s2 <| k_log ::= λ lg, lg <| lh_n ::= λ n, n + 1 |> |>).
    rewrite (bind_ok _ _ _ tt (enter L_log s3)).
    2:{ unfold bpin at 1. rewrite (bind_ok _ _ _ _ _ Ep). unfold updlog, modify. by rewrite enter_log. }
    exists s3. unfold tx_add. rewrite decide_False by done.
    split; [eapply release_ok; [by eapply quiet_ext|by eapply lock_free_ext]|]. split; [|split; [|split; [|split; [by eapply calm_ext|by constructor; [constructor; [by keq|]|..]]]]].
    + destruct Hl as [G1 G2 G3 G4 G5 G6]. constructor; subst s3 s2 s1; simpl; try done.
      * rewrite G3, length_app. simpl. lia.
      * by rewrite length_insert.
      * rewrite length_app, Nat.add_comm. simpl.
        rewrite (take_S_r _ _ n) by (apply list_lookup_insert_eq; rewrite G4; change LOGSIZE with 30; lia).
        by rewrite take_insert_ge by done; rewrite G5.
      * rewrite length_app. simpl. change LOGSIZE with 30. lia.
    + destruct Htx as [Hd Hok]. split.
      * apply NoDup_app. split; [done|]. split; [set_solver|apply NoDup_singleton].
      * intros m Hm. apply elem_of_app in Hm as [Hm|Hm]; [by apply Hok|]. apply list_elem_of_singleton in Hm. by subst.
    + assert (Hp : n ∉ (list_to_set bs : gset Z)) by (by rewrite elem_of_list_to_set).
      assert (Hb2 : cache held ({[n]} ∪ list_to_set bs) V
        (s <| k_bufs ::= upd b (λ x, x <| b_refcnt ::= λ n, u32 (n + 1) |>) |>)) by (by apply bpin_view).
      replace (list_to_set (bs ++ [n]) : gset Z) with ({[n]} ∪ list_to_set bs : gset Z) by set_solver.
      by eapply bcache_ext.
Qed.

(** initlog(): the parameters from the superblock, then recovery. *)
Lemma initlog_ok sb V s :
  calm s h cp p px -> cache ∅ ∅ V s -> lh_n (k_log s) = 0 ->
  length (lh_block (k_log s)) = Z.to_nat LOGSIZE -> i32 (sb_logstart sb) = st ->
  0 <= st -> st + LOGSIZE < 2 ^ 31 -> log_wf st (k_disk s) ->
  ∃ s' hd0, let w := replay_writes st (k_disk s) ++ [(st, hd0)] in
    run env (initlog dev sb s) = Ok tt s' ∧ cache ∅ ∅ (write_view V w) s' ∧ calm s' h cp p px
    ∧ log_ok dev st [] s' ∧ k_disk s' = apply_writes (k_disk s) w ∧ k_dhist s' = k_dhist s ++ w
    ∧ hdr_n hd0 = 0.
Proof using Hfuel.
  intros Hc Hb Hn Hlen Hst H1 H2 Hwf.
  set (s1 := s <| k_locks ::= <[L_log := Spinlock 0 "log" None]> |>
               <| k_log ::= λ lg, lg <| lg_start := i32 (sb_logstart sb) |> <| lg_size := i32 (sb_nlog sb) |>
                                     <| lg_dev := dev |> |>).
  assert (Hlk : ∀ l, lock_free l s -> lock_free l s1).
  { intros l [nm Hl]. destruct (decide (l = L_log)) as [->|Hne].
    - exists "log"%string. apply lookup_insert_eq.
    - exists nm. subst s1. simpl. by rewrite lookup_insert_ne. }
  assert (Hc1 : calm s1 h cp p px).
  { eapply calm_relock; [exact Hc|done..|]. intros i Hi. apply Hlk. by apply (pi_free _ (c_idle _ _ _ _ _ Hc)). }
  assert (Hb1 : cache ∅ ∅ V s1).
  { destruct Hb as [B1 B2 B3 B4 B5 B6 B7 B8 B9 B10 B11 B12 B13]. constructor; try done; auto. }
  assert (Hl1 : log_ok dev st [] s1) by (by constructor).
  destruct (recover_ok V s1 Hc1 Hl1 Hb1 Hwf) as (s' & hd0 & E & Rest). exists s', hd0. split; [|exact Rest].
  unfold initlog. change (BSIZE <=? 4 + 4 * LOGSIZE) with false. cbv iota.
  krun (initlock_ok L_log "log" s). unfold updlog. rewrite bind_modify. exact E.
Qed.
End run_log.

(** *** Repeating a recovery *)

(** The last write to a block decides, whatever was there. *)
Lemma dblock_writes_base d d' w m :
  (m ∈ w.*1 ∨ dblock d m = dblock d' m) -> dblock (apply_writes d w) m = dblock (apply_writes d' w) m.
Proof.
  revert d d'. induction w as [|[n b] w IH]; intros d d' Hm; simpl.
  - destruct Hm as [Hm|Hm]; [set_solver|done].
  - apply IH. rewrite !dblock_insert. case_decide as E; [by right|].
    destruct Hm as [Hm|Hm]; [left; set_solver|by right].
Qed.

Lemma replay_writes_homes st d m :
  log_wf st d -> m ∈ (replay_writes st d).*1 -> ¬ in_log st m.
Proof.
  intros [Hn Hb] Hin. unfold replay_writes in Hin. rewrite <- list_fmap_compose in Hin.
  apply list_elem_of_fmap in Hin as (i & -> & Hi). apply elem_of_zrange in Hi. apply Hb. lia.
Qed.

(** Writing blocks outside the log leaves what recovery would do unchanged. *)
Lemma replay_writes_stable st d w :
  0 <= hdr_n (dblock d st) < LOGSIZE -> (∀ m, m ∈ w.*1 -> ¬ in_log st m) ->
  dblock (apply_writes d w) st = dblock d st
  ∧ replay_writes st (apply_writes d w) = replay_writes st d.
Proof.
  intros Hn Hw.
  assert (Hl : ∀ m, in_log st m -> dblock (apply_writes d w) m = dblock d m).
  { intros m Hm. apply dblock_writes_ne. intros Hin. by apply (Hw m). }
  assert (E : dblock (apply_writes d w) st = dblock d st).
  { apply Hl. unfold in_log. change LOGSIZE with 30. lia. }
  split; [done|]. unfold replay_writes. rewrite E. apply list_fmap_ext. intros ? i Hi.
  apply list_elem_of_lookup_2, elem_of_zrange in Hi. f_equal. apply Hl. unfold in_log. lia.
Qed.

Lemma replay_again st d hd0 k :
  log_wf st d -> hdr_n hd0 = 0 ->
  let d' := apply_writes d (take k (replay_writes st d ++ [(st, hd0)])) in
  log_wf st d' ∧ ∀ m, ¬ in_log st m -> dblock (replay st d') m = dblock (replay st d) m.
Proof.
  intros Hwf H0 d'. set (w := replay_writes st d) in *.
  destruct (decide (k <= length w)%nat) as [Hk|Hk].
  - assert (Ed : d' = apply_writes d (take k w)) by (subst d'; by rewrite take_app_le).
    destruct (replay_writes_stable st d (take k w)) as [E1 E2]; [apply Hwf| |].
    { intros m Hm. apply (replay_writes_homes st d m Hwf). unfold w in *.
      apply list_elem_of_fmap in Hm as (x & -> & Hx). apply list_elem_of_fmap. exists x.
      split; [done|]. by eapply take_elem_of. }
    rewrite <- Ed in E1, E2. split.
    + unfold log_wf in *. by rewrite E1.
    + intros m Hm. unfold replay at 1. rewrite E2. unfold replay. fold w.
      apply dblock_writes_base. destruct (decide (m ∈ w.*1)) as [|Hin]; [by left|right].
      rewrite Ed. apply dblock_writes_ne. intros Hf. apply Hin.
      apply list_elem_of_fmap in Hf as (x & -> & Hx). apply list_elem_of_fmap. exists x.
      split; [done|]. by eapply take_elem_of.
  - assert (Ed : d' = <[st := hd0]> (apply_writes d w)).
    { subst d'. rewrite take_ge by (rewrite length_app; simpl; lia). by rewrite apply_writes_app. }
    assert (Eh : dblock d' st = hd0) by (by rewrite Ed, dblock_insert, decide_True).
    assert (Hz : hdr_n (dblock d' st) = 0) by (by rewrite Eh).
    split; [by apply log_wf_empty|]. intros m Hm. rewrite replay_empty by done.
    rewrite Ed, dblock_insert, decide_False; [done|]. intros <-. apply Hm. unfold in_log. change LOGSIZE with 30. lia.
Qed.

(** ** Inside a transaction *)

#[global] Instance log_frame_refl : Reflexive log_frame.
Proof. intros s. by constructor. Qed.

#[global] Instance log_frame_trans : Transitive log_frame.
Proof.
  intros s1 s2 s3 [[B1 I1] S1 O1 D1 L1] [[B2 I2] S2 O2 D2 L2].
  constructor; [|congruence..]. constructor; [|intros i; by rewrite <- I1, <- I2].
  keq; match goal with |- ?f _ = _ => etrans; [exact (f_equal f B2)|exact (f_equal f B1)] end.
Qed.

Lemma bio_log_frame s s' : bio_frame s s' -> k_disk s' = k_disk s -> k_dhist s' = k_dhist s -> log_frame s s'.
Proof.
  intros [E I] ??. assert (El : k_log s' = k_log s) by (by rewrite E).
  constructor; try done; [|by rewrite El..]. constructor; [|done]. rewrite E. by keq.
Qed.

Lemma tx_add_elem bs n m : m ∈ tx_add bs n <-> m = n ∨ m ∈ bs.
Proof. unfold tx_add. case_decide; set_solver. Qed.

Lemma tx_add_in bs n : n ∈ tx_add bs n.
Proof. apply tx_add_elem. by left. Qed.

Lemma tx_add_length bs n : (length bs <= length (tx_add bs n) <= S (length bs))%nat.
Proof. unfold tx_add. case_decide; [lia|]. rewrite length_app. simpl. lia. Qed.

Section tx.
Context `{Fuel} (Hfuel : (1 <= fuel)%nat) `{DL : DiskLaw}.
Context (dev st : Z) (h : hart) (cp : cpu) (p : nat) (px : proc).

(** The process [p] is inside of a transaction that has changed the blocks [bs],
    holds the buffers [held], and reads [V n] as block [n]. *)
Record in_tx (held : gmap nat Z) (bs : list Z) (V : Z -> list Z) (s : kstate) : Prop := {
  tx_calm : calm s h cp p px;
  tx_log : log_ok dev st bs s;
  tx_fine : tx_ok st bs;
  tx_lock : lock_free L_log s;
  tx_size : lg_size (k_log s) <= LOGSIZE;
  tx_out : 1 <= lg_outstanding (k_log s);
  tx_cache : bcache dev (p_pid px) held (list_to_set bs) V s
}.

(** The transaction may grow by [k] blocks. *)
Definition tx_room (k : Z) (bs : list Z) (s : kstate) : Prop :=
  Z.of_nat (length bs) + k <= lg_size (k_log s) - 1.

(** What is read as block [n] is on the disk, or will be. *)
Definition settled (bs : list Z) (V : Z -> list Z) (n : Z) (s : kstate) : Prop :=
  n ∈ bs ∨ V n = dblock (k_disk s) n.

Lemma in_tx_room bs s : tx_room 1 bs s -> ∀ held V, in_tx held bs V s -> log_room bs s.
Proof. intros Hr held V []. constructor; try done. unfold tx_room in Hr. lia. Qed.

Lemma in_tx_frame held held' bs V V' s s' :
  in_tx held bs V s -> bio_frame s s' -> bcache dev (p_pid px) held' (list_to_set bs) V' s' -> in_tx held' bs V' s'.
Proof.
  intros [T1 T2 T3 T4 T5 T6 T7] F Hb. constructor; rewrite ?(frame_log _ _ F); try done.
  - by eapply frame_calm.
  - eapply log_ok_ext; [done|by apply frame_log].
  - eapply lock_free_ext; [done|by apply frame_locks].
Qed.

Lemma tx_open held bs V s n :
  in_tx held bs V s -> (∀ b, held !! b <> Some n) -> 0 <= n < 2 ^ 31 ->
  (size held + length bs < bcache_head)%nat ->
  ∃ b s', run env (bread dev n s) = Ok b s' ∧ held !! b = None ∧ in_tx (<[b := n]> held) bs V s'
    ∧ bdata b s' = Ok (V n) s' ∧ settled bs V n s' ∧ log_frame s s'.
Proof using Hfuel.
  intros T Hn Hr Hsz. pose proof (tx_cache _ _ _ _ T) as Hb.
  destruct (bread_ok Hfuel dev h cp p px held _ V s n (tx_calm _ _ _ _ T) Hb Hn Hr)
    as (b & s' & E & Hh & Hb' & F & D & L).
  { right. rewrite size_list_to_set by apply (tx_fine _ _ _ _ T). done. }
  exists b, s'. split; [done|]. split; [done|]. split; [by eapply in_tx_frame|].
  split; [eapply bdata_ok; [exact Hb'|apply lookup_insert_eq]|]. split; [|by apply bio_log_frame].
  destruct (decide (n ∈ bs)); [by left|right]. rewrite D. apply (bc_clean _ _ _ _ _ _ Hb); [|done].
  by rewrite elem_of_list_to_set.
Qed.

Lemma tx_edit held bs V s b n f :
  in_tx held bs V s -> held !! b = Some n -> tx_room 1 bs s -> ¬ in_log st n ->
  length (f (V n)) = Z.to_nat BSIZE ->
  ∃ s', (set_bdata b f ;; log_write b) s = Ok tt s'
    ∧ in_tx held (tx_add bs n) (<[n := f (V n)]> V) s' ∧ log_frame s s'.
Proof using Hfuel.
  intros T Hh Hr Hnl Hlen.
  destruct (set_bdata_ok dev px _ _ V s b n f (tx_cache _ _ _ _ T) Hh Hlen) as (s1 & E1 & Hb1 & F1 & D1 & L1).
  pose proof (in_tx_frame _ _ _ _ _ _ _ T F1 Hb1) as T1.
  assert (Hr1 : log_room bs s1).
  { eapply in_tx_room; [|exact T1]. unfold tx_room. by rewrite (frame_log _ _ F1). }
  destruct (log_write_ok Hfuel dev st h cp p px bs _ _ s1 b n (tx_calm _ _ _ _ T1) (tx_log _ _ _ _ T1)
    (tx_fine _ _ _ _ T1) Hr1 Hb1 Hh Hnl) as (s2 & E2 & Hl2 & Htx2 & Hb2 & Hc2 & F2).
  exists s2. split; [by krun E1|]. pose proof (bio_log_frame _ _ F1 D1 L1) as G1.
  split; [|by etrans]. constructor; try done.
  - pose proof (bf_eq _ _ (lf_bio _ _ F2)) as E. eapply lock_free_ext; [exact (tx_lock _ _ _ _ T1)|].
    exact (f_equal k_locks E).
  - rewrite (lf_size _ _ F2). apply T1.
  - rewrite (lf_out _ _ F2). apply T1.
Qed.

Lemma tx_close held bs V s b n :
  in_tx held bs V s -> held !! b = Some n -> settled bs V n s ->
  ∃ s', brelse b s = Ok tt s' ∧ in_tx (delete b held) bs V s' ∧ log_frame s s'.
Proof using Hfuel.
  intros T Hh Hs.
  destruct (brelse_ok Hfuel dev h cp p px _ _ _ s b n (tx_calm _ _ _ _ T) (tx_cache _ _ _ _ T) Hh)
    as (s' & E & Hb & F & D & L).
  { by rewrite elem_of_list_to_set. }
  exists s'. split; [done|]. split; [by eapply in_tx_frame|by apply bio_log_frame].
Qed.

(** A block read, changed and logged. *)
Lemma tx_update held bs V s n f :
  in_tx held bs V s -> (∀ b, held !! b <> Some n) -> 0 <= n < 2 ^ 31 -> ¬ in_log st n ->
  (size held + length bs < bcache_head)%nat -> tx_room 1 bs s -> length (f (V n)) = Z.to_nat BSIZE ->
  ∃ s', run env ((b ← bread dev n; set_bdata b f ;; log_write b ;; brelse b) s) = Ok tt s'
    ∧ in_tx held (tx_add bs n) (<[n := f (V n)]> V) s' ∧ log_frame s s'.
Proof using Hfuel.
  intros T Hn Hr Hnl Hsz Hroom Hlen.
  destruct (tx_open held bs V s n T Hn Hr Hsz) as (b & s1 & E1 & Hh & T1 & _ & _ & F1).
  destruct (tx_edit _ bs V s1 b n f T1) as (s2 & E2 & T2 & F2); [apply lookup_insert_eq| |done..|].
  { unfold tx_room. by rewrite (lf_size _ _ F1). }
  destruct (tx_close _ _ _ s2 b n T2) as (s3 & E3 & T3 & F3); [apply lookup_insert_eq|left; apply tx_add_in|].
  rewrite delete_insert_id in T3 by done. exists s3. split; [|split; [done|by do 2 (etrans; [done|])]].
  rewrite (run_bind env _ _ _ _ _ E1), (bind_then _ _ _ _ _ E2). by rewrite E3.
Qed.
End tx.

(** A block changed inside a transaction, with no buffer held. *)
Lemma tx_write_ok `{Fuel} `{DL : DiskLaw} (dev st : Z) (s : kstate) (h : hart) (cp : cpu)
    (p : nat) (px : proc) (bs : list Z) (V : Z -> list Z) (n : Z) (f : list Z -> list Z) :
  (1 <= fuel)%nat -> calm s h cp p px -> log_ok dev st bs s -> tx_ok st bs -> log_room bs s ->
  bcache dev (p_pid px) ∅ (list_to_set bs) V s -> 0 <= n < 2 ^ 31 -> ¬ in_log st n ->
  length (f (V n)) = Z.to_nat BSIZE ->
  ∃ s', run env ((b ← bread dev n; set_bdata b f ;; log_write b ;; brelse b) s) = Ok tt s'
    ∧ log_ok dev st (tx_add bs n) s' ∧ tx_ok st (tx_add bs n)
    ∧ bcache dev (p_pid px) ∅ (list_to_set (tx_add bs n)) (<[n := f (V n)]> V) s'
    ∧ calm s' h cp p px ∧ k_disk s' = k_disk s ∧ k_dhist s' = k_dhist s.
Proof.
  intros Hf Hc Hl Htx [R1 R2 R3] Hb Hr Hnl Hlen.
  destruct (tx_update Hf dev st h cp p px ∅ bs V s n f) as (s' & E & T & F); try done.
  - by constructor; try apply R2.
  - rewrite map_size_empty. change LOGSIZE with 30 in R2. change bcache_head with 30%nat. lia.
  - unfold tx_room. lia.
  - exists s'. split; [done|]. split_and!; try apply T; apply F.
Qed.

(** commit(), run to its end or cut short by a crash. *)
Lemma commit_crash_ok `{Fuel} `{DL : DiskLaw} (dev st : Z) (sb : superblock) (s : kstate)
    (h : hart) (cp : cpu) (p : nat) (px : proc) (bs : list Z) (V : Z -> list Z) :
  (1 <= fuel)%nat -> calm s h cp p px -> log_ok dev st bs s ->
  bcache dev (p_pid px) ∅ (list_to_set bs) V s -> tx_ok st bs -> (length bs < bcache_head)%nat ->
  hdr_n (dblock (k_disk s) st) = 0 -> i32 (sb_logstart sb) = st ->
  ∃ s' w, run env (commit s) = Ok tt s' ∧ k_dhist s' = k_dhist s ++ w
    ∧ (∀ m, ¬ in_log st m -> dblock (k_disk s') m = V m)
    ∧ ∀ k r h' cp' p' px' Vr,
        calm r h' cp' p' px' -> bcache dev (p_pid px') ∅ ∅ Vr r -> lh_n (k_log r) = 0 ->
        length (lh_block (k_log r)) = Z.to_nat LOGSIZE ->
        k_disk r = apply_writes (k_disk s) (take k w) ->
        ∃ r', run env (initlog dev sb r) = Ok tt r'
          ∧ ((∀ m, ¬ in_log st m -> dblock (k_disk r') m = dblock (k_disk s) m)
             ∨ (∀ m, ¬ in_log st m -> dblock (k_disk r') m = V m)).
Proof.
  intros Hf Hc Hl Hb Htx Hlt Hh Hsb. destruct (lo_range _ _ _ _ Hl) as [Hr1 Hr2].
  destruct (commit_ok Hf dev st h cp p px bs V s Hc Hl Hb Htx Hlt)
    as (s' & w & E & Hb' & _ & _ & D & L & _ & Hw).
  assert (Hnew : ∀ m, V m = new_block (k_disk s) bs V m).
  { intros m. unfold new_block. case_decide as Hin; [done|].
    apply (bc_clean _ _ _ _ _ _ Hb); [by rewrite elem_of_list_to_set|done]. }
  assert (Hlen : Z.of_nat (length bs) < LOGSIZE).
  { change bcache_head with 30%nat in Hlt. change LOGSIZE with 30. lia. }
  assert (Hat : ∀ k, let d := apply_writes (k_disk s) (take k w) in
    log_wf st d ∧ ((∀ m, ¬ in_log st m -> dblock (replay st d) m = dblock (k_disk s) m)
                   ∨ (∀ m, ¬ in_log st m -> dblock (replay st d) m = V m))).
  { intros k d. destruct bs as [|b bs'].
    - subst w d. rewrite take_nil. split; [by apply log_wf_empty|]. left. intros m _. by rewrite replay_empty by exact Hh.
    - destruct Hw as (hdn & hd0 & -> & H1 & H2 & H3).
      destruct (commit_atomic st (k_disk s) (b :: bs') V hdn hd0 Hh (proj2 Htx) Hlen H1 H3 H2 k) as [A [B|B]].
      + split; [done|by left].
      + split; [done|]. right. intros m Hm. rewrite Hnew. by apply B. }
  exists s', w. split; [done|]. split; [done|]. split.
  - intros m Hm. rewrite D. destruct bs as [|b bs'].
    + subst w. rewrite (Hnew m). unfold new_block. by rewrite decide_False by set_solver.
    + destruct Hw as (hdn & hd0 & -> & H1 & H2 & H3). rewrite Hnew.
      exact (proj2 (crash_done st (k_disk s) (b :: bs') V hdn hd0 Hlen H2) m Hm).
  - intros k r h' cp' p' px' Vr Hcr Hbr Hn0 Hbl Dr. destruct (Hat k) as [Hwf Hor]. rewrite <- Dr in Hwf, Hor.
    destruct (initlog_ok Hf dev st h' cp' p' px' sb Vr r Hcr Hbr Hn0 Hbl Hsb Hr1 Hr2 Hwf) as (r' & hd0 & E' & _ & _ & _ & D' & _ & _).
    exists r'. split; [done|].
    assert (Er : ∀ m, ¬ in_log st m -> dblock (k_disk r') m = dblock (replay st (k_disk r)) m).
    { intros m Hm. rewrite D', apply_writes_app. simpl. rewrite dblock_insert, decide_False; [done|].
      intros <-. apply Hm. unfold in_log. change LOGSIZE with 30. lia. }
    destruct Hor as [Ho|Ho]; [left|right]; intros m Hm; rewrite Er by done; by apply Ho.
Qed.

(** ** Properties *)

(** C1: a commit is atomic under a crash.  Let the transaction's blocks be
    [bs], with the contents [V] in the cache, the log on disk empty.  commit()
    returns with every block at home; and if instead the machine crashes after
    any number [k] of the block writes and is rebooted, initlog() leaves, outside
    the log, either the disk as it was before the commit or the disk with all of
    the transaction. *)
Theorem commit_crash_atomic `{Fuel} `{DL : DiskLaw} (dev st : Z) (sb : superblock) (s : kstate)
    (h : hart) (cp : cpu) (p : nat) (px : proc) (bs : list Z) (V : Z -> list Z) :
  (1 <= fuel)%nat -> calm s h cp p px -> log_ok dev st bs s ->
  bcache dev (p_pid px) ∅ (list_to_set bs) V s -> tx_ok st bs -> (length bs < bcache_head)%nat ->
  hdr_n (dblock (k_disk s) st) = 0 -> i32 (sb_logstart sb) = st ->
  ∃ s' w, run env (commit s) = Ok tt s' ∧ k_dhist s' = k_dhist s ++ w
    ∧ (∀ m, ¬ in_log st m -> dblock (k_disk s') m = V m)
    ∧ ∀ k r h' cp' p' px' Vr,
        calm r h' cp' p' px' -> bcache dev (p_pid px') ∅ ∅ Vr r -> lh_n (k_log r) = 0 ->
        length (lh_block (k_log r)) = Z.to_nat LOGSIZE ->
        k_disk r = apply_writes (k_disk s) (take k w) ->
        ∃ r', run env (initlog dev sb r) = Ok tt r'
          ∧ ((∀ m, ¬ in_log st m -> dblock (k_disk r') m = dblock (k_disk s) m)
             ∨ (∀ m, ¬ in_log st m -> dblock (k_disk r') m = V m)).
Proof. apply commit_crash_ok. Qed.

(** C9: recovery may itself be interrupted.  initlog() on a disk with a
    well-formed log installs the logged blocks and empties the log; after any
    prefix of its own writes the log is still well-formed and a second recovery
    gives the same blocks. *)
Theorem recovery_repeatable `{Fuel} `{DL : DiskLaw} (dev st : Z) (sb : superblock) (s : kstate)
    (h : hart) (cp : cpu) (p : nat) (px : proc) (V : Z -> list Z) :
  (1 <= fuel)%nat -> calm s h cp p px -> bcache dev (p_pid px) ∅ ∅ V s -> lh_n (k_log s) = 0 ->
  length (lh_block (k_log s)) = Z.to_nat LOGSIZE -> i32 (sb_logstart sb) = st ->
  0 <= st -> st + LOGSIZE < 2 ^ 31 -> log_wf st (k_disk s) ->
  ∃ s' w, run env (initlog dev sb s) = Ok tt s' ∧ k_dhist s' = k_dhist s ++ w
    ∧ hdr_n (dblock (k_disk s') st) = 0 ∧ lh_n (k_log s') = 0
    ∧ (∀ m, ¬ in_log st m -> dblock (k_disk s') m = dblock (replay st (k_disk s)) m)
    ∧ ∀ k, let d := apply_writes (k_disk s) (take k w) in
        log_wf st d ∧ ∀ m, ¬ in_log st m -> dblock (replay st d) m = dblock (replay st (k_disk s)) m.
Proof.
  intros Hf Hc Hb Hn0 Hbl Hsb Hr1 Hr2 Hwf.
  destruct (initlog_ok Hf dev st h cp p px sb V s Hc Hb Hn0 Hbl Hsb Hr1 Hr2 Hwf) as (s' & hd0 & E & _ & _ & Hl & D & L & Hz).
  eexists s', _. split; [exact E|]. split; [exact L|]. rewrite D, apply_writes_app. simpl.
  rewrite dblock_insert, decide_True by done. split; [done|]. split; [by rewrite (lo_n _ _ _ _ Hl)|]. split.
  - intros m Hm. rewrite dblock_insert, decide_False; [done|]. intros <-. apply Hm. unfold in_log. change LOGSIZE with 30. lia.
  - intros k. by apply replay_again.
Qed.

(** A block changed inside a transaction.  bread(), a change of the
    buffer, log_write() and brelse() change what the file system reads as block
    [n] and record the block in the transaction once (a block logged before is
    absorbed), but write nothing to the disk before the commit. *)
Theorem transaction_write `{Fuel} `{DL : DiskLaw} (dev st : Z) (s : kstate) (h : hart) (cp : cpu)
    (p : nat) (px : proc) (bs : list Z) (V : Z -> list Z) (n : Z) (f : list Z -> list Z) :
  (1 <= fuel)%nat -> calm s h cp p px -> log_ok dev st bs s -> tx_ok st bs -> log_room bs s ->
  bcache dev (p_pid px) ∅ (list_to_set bs) V s -> 0 <= n < 2 ^ 31 -> ¬ in_log st n ->
  length (f (V n)) = Z.to_nat BSIZE ->
  ∃ s', run env ((b ← bread dev n; set_bdata b f ;; log_write b ;; brelse b) s) = Ok tt s'
    ∧ log_ok dev st (tx_add bs n) s' ∧ tx_ok st (tx_add bs n)
    ∧ bcache dev (p_pid px) ∅ (list_to_set (tx_add bs n)) (<[n := f (V n)]> V) s'
    ∧ calm s' h cp p px ∧ k_disk s' = k_disk s ∧ k_dhist s' = k_dhist s.
Proof. intros. by apply tx_write_ok. Qed.

(** *** Examples *)

Definition end_state {A} (o : out A) : kstate :=
  match o with Ok _ s => s | Stop _ s => s | Yield _ s _ => s end.

(** A file system with its log at block 2, one operation under way. *)
Definition ex_sb : superblock := Superblock 0x10203040 1000 954 200 30 2 32 45.
Definition ex_log : kstate := ex_cache <| k_log := Logstate 2 30 1 0 1 0 (replicate 30 0) |>.

Lemma with_log_ok `{DL : DiskLaw} s lg h cp p px V :
  let s' := s <| k_log := lg |> in
  (calm s h cp p px -> calm s' h cp p px)
  ∧ (bcache 1 (p_pid px) ∅ ∅ V s -> bcache 1 (p_pid px) ∅ (list_to_set []) V s')
  ∧ (lock_free L_log s -> lock_free L_log s')
  ∧ k_log s' = lg ∧ k_disk s' = k_disk s.
Proof.
  intros s'. split; [intros Hc; by eapply calm_ext|]. split; [intros Hb; by eapply bcache_ext|].
  split; [intros Hl; by eapply lock_free_ext|done].
Qed.

Lemma ex_log_facts :
  calm ex_log (zero_hart 0) ex_cpu 0 ex_proc
  ∧ bcache (DL := sync_law) 1 (p_pid ex_proc) ∅ (list_to_set []) (dblock ∅) ex_log
  ∧ log_ok 1 2 [] ex_log ∧ log_room [] ex_log.
Proof.
  destruct ex_cache_ok as (C1 & C2 & C3).
  destruct (with_log_ok (DL := sync_law) ex_cache (Logstate 2 30 1 0 1 0 (replicate 30 0)) (zero_hart 0) ex_cpu 0 ex_proc (dblock ∅))
    as (A1 & A2 & A3 & A4 & A5).
  fold ex_log in A1, A2, A3, A4, A5. split; [exact (A1 C2)|]. split; [exact (A2 C1)|]. split.
  - constructor; rewrite ?A4; try reflexivity. change LOGSIZE with 30. lia.
  - constructor; rewrite ?A4; [exact (A3 C3)| |]; change LOGSIZE with 30; simpl; lia.
Qed.

Lemma tx_ok_nil st : tx_ok st [].
Proof. split; [apply NoDup_nil_2|]. intros b Hb. by apply not_elem_of_nil in Hb. Qed.

Definition ex_edit (d : list Z) : list Z := splice 0 [104; 105] d.

Lemma transaction_write_witness :
  let H : Fuel := 1%nat in let D : DiskDriver := sync_disk in
  ∃ s', run no_wait ((b ← bread 1 500; set_bdata b ex_edit ;; log_write b ;; brelse b) ex_log) = Ok tt s'
    ∧ log_ok 1 2 (tx_add [] 500) s' ∧ tx_ok 2 (tx_add [] 500)
    ∧ bcache (DL := sync_law) 1 (p_pid ex_proc) ∅ (list_to_set (tx_add [] 500)) (<[500 := ex_edit (dblock ∅ 500)]> (dblock ∅)) s'
    ∧ calm s' (zero_hart 0) ex_cpu 0 ex_proc ∧ k_disk s' = k_disk ex_log ∧ k_dhist s' = k_dhist ex_log.
Proof.
  intros H D.
  apply (transaction_write (DL := sync_law) 1 2 ex_log (zero_hart 0) ex_cpu 0 ex_proc [] (dblock ∅) 500 ex_edit).
  - apply le_n.
  - apply ex_log_facts.
  - apply ex_log_facts.
  - apply tx_ok_nil.
  - apply ex_log_facts.
  - apply ex_log_facts.
  - lia.
  - unfold in_log. change LOGSIZE with 30. lia.
  - reflexivity.
Defined.

(** The state before the commit of that transaction. *)
Definition ex_tx : kstate :=
  let H : Fuel := 1%nat in let D : DiskDriver := sync_disk in
  end_state (run no_wait ((b ← bread 1 500; set_bdata b ex_edit ;; log_write b ;; brelse b) ex_log)).

Lemma ex_tx_ok :
  log_ok 1 2 [500] ex_tx ∧ tx_ok 2 [500]
  ∧ bcache (DL := sync_law) 1 (p_pid ex_proc) ∅ (list_to_set [500]) (<[500 := ex_edit (dblock ∅ 500)]> (dblock ∅)) ex_tx
  ∧ calm ex_tx (zero_hart 0) ex_cpu 0 ex_proc ∧ k_disk ex_tx = ∅.
Proof.
  pose (H := 1%nat : Fuel). pose (D := sync_disk).
  destruct (tx_write_ok (DL := sync_law) 1 2 ex_log (zero_hart 0) ex_cpu 0 ex_proc [] (dblock ∅) 500 ex_edit)
    as (s' & E & A1 & A2 & A3 & A4 & A5 & _).
  - apply le_n.
  - apply ex_log_facts.
  - apply ex_log_facts.
  - apply tx_ok_nil.
  - apply ex_log_facts.
  - apply ex_log_facts.
  - lia.
  - unfold in_log. change LOGSIZE with 30. lia.
  - reflexivity.
  - assert (Et : ex_tx = s') by exact (f_equal end_state E). rewrite Et. split; [exact A1|]. split; [exact A2|].
    split; [exact A3|]. split; [exact A4|]. rewrite A5.
    transitivity (k_disk ex_cache).
    { apply (with_log_ok (DL := sync_law) ex_cache _ (zero_hart 0) ex_cpu 0 ex_proc (dblock ∅)). }
    unfold ex_cache.
    destruct (binit_ok (DL := sync_law) 1 1 ex_blank) as (s2 & E2 & _ & Es & _);
      [lia|reflexivity|apply ex_blank_vdisk|done|apply length_dblock_blank|].
    rewrite E2, Es. reflexivity.
Qed.

Lemma commit_crash_atomic_witness :
  let H : Fuel := 1%nat in let D : DiskDriver := sync_disk in
  let V := <[500 := ex_edit (dblock ∅ 500)]> (dblock ∅) in
  ∃ s' w, run no_wait (commit ex_tx) = Ok tt s' ∧ k_dhist s' = k_dhist ex_tx ++ w
    ∧ (∀ m, ¬ in_log 2 m -> dblock (k_disk s') m = V m)
    ∧ ∀ k r h' cp' p' px' Vr,
        calm r h' cp' p' px' -> bcache (DL := sync_law) 1 (p_pid px') ∅ ∅ Vr r -> lh_n (k_log r) = 0 ->
        length (lh_block (k_log r)) = Z.to_nat LOGSIZE ->
        k_disk r = apply_writes (k_disk ex_tx) (take k w) ->
        ∃ r', run no_wait (initlog 1 ex_sb r) = Ok tt r'
          ∧ ((∀ m, ¬ in_log 2 m -> dblock (k_disk r') m = dblock (k_disk ex_tx) m)
             ∨ (∀ m, ¬ in_log 2 m -> dblock (k_disk r') m = V m)).
Proof.
  intros H D V. destruct ex_tx_ok as (A1 & A2 & A3 & A4 & A5).
  apply (commit_crash_atomic (DL := sync_law) 1 2 ex_sb ex_tx (zero_hart 0) ex_cpu 0 ex_proc [500] V).
  - apply le_n.
  - exact A4.
  - exact A1.
  - exact A3.
  - exact A2.
  - change bcache_head with 30%nat. simpl. lia.
  - rewrite A5. reflexivity.
  - reflexivity.
Defined.

(** A disk that a crash left with a committed transaction in its log. *)
Definition ex_crash_disk : gmap Z (list Z) :=
  <[2 := head_block 1 [500] zero_block]> {[3 := ex_edit zero_block]}.
Definition ex_rebooted : kstate := end_state (binit (ex_blank <| k_disk := ex_crash_disk |>)).

Lemma with_disk_ok s d h cp p px :
  let s' := s <| k_disk := d |> in
  (calm s h cp p px -> calm s' h cp p px)
  ∧ (lock_free L_vdisk s -> lock_free L_vdisk s') ∧ k_bufs s' = k_bufs s ∧ k_disk s' = d ∧ k_log s' = k_log s.
Proof.
  intros s'. split; [intros Hc; by eapply calm_ext|]. split; [intros Hl; by eapply lock_free_ext|done].
Qed.

Lemma ex_crash_disk_blocks n : length (dblock ex_crash_disk n) = Z.to_nat BSIZE.
Proof.
  unfold ex_crash_disk, dblock. destruct (decide (2 = n)) as [<-|]; [by vm_compute|].
  rewrite lookup_insert_ne by done. destruct (decide (3 = n)) as [<-|]; [by vm_compute|].
  rewrite lookup_singleton_ne by done. apply length_replicate.
Qed.

Lemma ex_rebooted_ok :
  bcache (DL := sync_law) 1 (p_pid ex_proc) ∅ ∅ (dblock ex_crash_disk) ex_rebooted
  ∧ calm ex_rebooted (zero_hart 0) ex_cpu 0 ex_proc
  ∧ k_disk ex_rebooted = ex_crash_disk ∧ k_log ex_rebooted = k_log (boot [] ∅).
Proof.
  destruct (with_disk_ok ex_blank ex_crash_disk (zero_hart 0) ex_cpu 0 ex_proc) as (A1 & A2 & A3 & A4 & A5).
  specialize (A1 ex_blank_calm). specialize (A2 ex_blank_vdisk).
  unfold ex_rebooted. set (s0 := ex_blank <| k_disk := ex_crash_disk |>) in *.
  destruct (binit_ok (DL := sync_law) 1 1 s0) as (s' & E & Hb & Es & Hl);
    [lia|rewrite A3; reflexivity|exact A2|done|rewrite A4; apply ex_crash_disk_blocks|].
  rewrite E. cbn [end_state]. rewrite A4 in Hb. split; [exact Hb|].
  assert (Ef : k_cur s' = k_cur s0 ∧ k_harts s' = k_harts s0 ∧ k_cpus s' = k_cpus s0 ∧ k_procs s' = k_procs s0
    ∧ k_disk s' = k_disk s0 ∧ k_log s' = k_log s0).
  { clear -Es. rewrite Es. done. }
  destruct Ef as (F1 & F2 & F3 & F4 & F5 & F6). split; [|split; [congruence|by rewrite F6, A5]].
  eapply calm_relock; [exact A1|assumption..|]. intros i Hi.
  destruct (pi_free _ (c_idle _ _ _ _ _ A1) i Hi) as [nm Hn]. exists nm. by rewrite Hl.
Qed.

Lemma recovery_repeatable_witness :
  let H : Fuel := 1%nat in let D : DiskDriver := sync_disk in
  ∃ s' w, run no_wait (initlog 1 ex_sb ex_rebooted) = Ok tt s' ∧ k_dhist s' = k_dhist ex_rebooted ++ w
    ∧ hdr_n (dblock (k_disk s') 2) = 0 ∧ lh_n (k_log s') = 0
    ∧ (∀ m, ¬ in_log 2 m -> dblock (k_disk s') m = dblock (replay 2 (k_disk ex_rebooted)) m)
    ∧ ∀ k, let d := apply_writes (k_disk ex_rebooted) (take k w) in
        log_wf 2 d ∧ ∀ m, ¬ in_log 2 m -> dblock (replay 2 d) m = dblock (replay 2 (k_disk ex_rebooted)) m.
Proof.
  intros H D. destruct ex_rebooted_ok as (A1 & A2 & A3 & A4).
  apply (recovery_repeatable (DL := sync_law) 1 2 ex_sb ex_rebooted (zero_hart 0) ex_cpu 0 ex_proc (dblock ex_crash_disk)).
  - apply le_n.
  - exact A2.
  - exact A1.
  - rewrite A4. reflexivity.
  - rewrite A4. reflexivity.
  - reflexivity.
  - lia.
  - change LOGSIZE with 30. lia.
  - rewrite A3. assert (E1 : hdr_n (dblock ex_crash_disk 2) = 1) by (by vm_compute).
    assert (E2 : hdr_block (dblock ex_crash_disk 2) 0 = 500) by (by vm_compute).
    unfold log_wf. rewrite E1. change LOGSIZE with 30. split; [lia|]. intros i Hi. assert (i = 0) as -> by lia.
    rewrite E2. split; [lia|]. unfold in_log. change LOGSIZE with 30. lia.
Defined.
