(* ===== verification/Fs.v ===== *)
(** * fs.c: blocks, inodes, directories and paths

    On-disk structures are bytes of a block, at the offsets the C compiler
    gives their fields: a [struct dinode] is 64 bytes (type, major, minor,
    nlink: 2 bytes each, size: 4, addrs: 13 * 4), a [struct dirent] 16 (inum: 2,
    name: 14).  In-memory inodes are entries of [k_inodes]. *)

From Stdlib Require Import ZArith Lia.
From stdpp Require Import base numbers list gmap strings.
From S2P Require Import Prelude Machine Kernel Strings Riscv Spinlock Proc Uart Printf.
From S2P Require Import Sleeplock Virtio Bio Log.

(** ** fs.h, stat.h *)
Definition ROOTINO : Z := 1.
Definition FSMAGIC : Z := 0x10203040.
Definition NDIRECT : Z := 12.
Definition NINDIRECT : Z := BSIZE / 4.
Definition MAXFILE : Z := NDIRECT + NINDIRECT.
Definition IPB : Z := BSIZE / 64.
Definition IBLOCK (i : Z) (sb : superblock) : Z := u32 (i / IPB + sb_inodestart sb).
Definition BPB : Z := BSIZE * 8.
Definition BBLOCK (b : Z) (sb : superblock) : Z := u32 (b / BPB + sb_bmapstart sb).
Definition DIRSIZ : Z := 14.
Definition T_DIR : Z := 1.
Definition T_FILE : Z := 2.
Definition T_DEVICE : Z := 3.

(** [struct dinode] number [k] of a block. *)
Definition get_dinode (k : Z) (d : list Z) : dinode :=
  let o := k * 64 in
  Dinode (i16 (get16 o d)) (i16 (get16 (o + 2) d)) (i16 (get16 (o + 4) d)) (i16 (get16 (o + 6) d))
    (get32 (o + 8) d) ((λ i, get32 (o + 12 + 4 * i) d) <$> zrange 0 13).

Definition dinode_bytes (x : dinode) : list Z :=
  le_bytes 2 (d_type x) ++ le_bytes 2 (d_major x) ++ le_bytes 2 (d_minor x)
  ++ le_bytes 2 (d_nlink x) ++ le_bytes 4 (d_size x) ++ concat (le_bytes 4 <$> d_addrs x).

Definition put_dinode (k : Z) (x : dinode) (d : list Z) : list Z := splice (k * 64) (dinode_bytes x) d.

(** [struct superblock] at the start of block 1. *)
Definition get_sb (d : list Z) : superblock :=
  Superblock (get32 0 d) (get32 4 d) (get32 8 d) (get32 12 d) (get32 16 d) (get32 20 d)
    (get32 24 d) (get32 28 d).

Definition inode_indices : list nat := seq 0 (Z.to_nat NINODE).

(** The rounds a loop over [n] bytes of a file can take, one block at a time. *)
Definition block_rounds (n : Z) : nat := Z.to_nat (n / BSIZE) + 3.

Section fs.
Context `{Fuel} `{Symbols} `{DiskDriver}.

Definition readsb (dev : Z) : K superblock :=
  bp ← bread dev 1;
  d ← bdata bp;
  brelse bp ;;
  ret (get_sb d).

Definition fsinit (dev : Z) : K unit :=
  sb ← readsb dev;
  modify (λ s, s <| k_sb := sb |>) ;;
  if negb (sb_magic sb =? FSMAGIC) then panic "invalid file system" else
  initlog dev sb.

Definition bzero (dev bno : Z) : K unit :=
  bp ← bread dev (u32 bno);
  set_bdata bp (λ _, replicate (Z.to_nat BSIZE) 0) ;;
  log_write bp ;;
  brelse bp.

(** ** Blocks *)

(** [bp->data[bi/8] & (1 << (bi % 8))] *)
Definition bit_of (d : list Z) (bi : Z) : bool :=
  truth (Z.land (aget d (bi / 8)) (Z.shiftl 1 (bi mod 8))).
Definition set_bit (bi : Z) (d : list Z) : list Z :=
  aset d (bi / 8) (Z.lor (aget d (bi / 8)) (Z.shiftl 1 (bi mod 8))).
Definition clr_bit (bi : Z) (d : list Z) : list Z :=
  aset d (bi / 8) (Z.land (aget d (bi / 8)) (Z.lnot (Z.shiftl 1 (bi mod 8)))).

(** The inner loop of balloc(): the first zero bit of a bitmap block, of the
    [n] that stand for blocks of the disk. *)
Definition first_free (d : list Z) (n : nat) : option Z :=
  List.find (λ bi, negb (bit_of d bi)) (zrange 0 n).

(** One bitmap block of balloc()'s outer loop, the one for block [b] on. *)
Definition balloc_block (dev : Z) (sb : superblock) (b : Z) : K (option Z) :=
  bp ← bread dev (BBLOCK b sb);
  d ← bdata bp;
  match first_free d (Z.to_nat (Z.min BPB (sb_size sb - b))) with
  | Some bi =>
      set_bdata bp (set_bit bi) ;;
      log_write bp ;;
      brelse bp ;;
      bzero dev (b + bi) ;;
      ret (Some (b + bi))
  | None => brelse bp ;; ret None
  end.

Definition balloc (dev : Z) : K Z :=
  sb ← gets k_sb;
  r ← foreach ((λ i, i * BPB) <$> zrange 0 (Z.to_nat ((sb_size sb + BPB - 1) / BPB)))
        (balloc_block dev sb);
  match r with
  | Some b => ret b
  | None => printf ("balloc: out of blocks" +:+ newline) [] ;; ret 0
  end.

Definition bfree (dev b : Z) : K unit :=
  sb ← gets k_sb;
  bp ← bread dev (BBLOCK b sb);
  d ← bdata bp;
  let bi := b mod BPB in
  if negb (bit_of d bi) then panic "freeing free block" else
  set_bdata bp (clr_bit bi) ;;
  log_write bp ;;
  brelse bp.

(** ** Inodes *)

Definition iinit : K unit :=
  initlock L_itable "itable" ;;
  for_all inode_indices (λ i, initsleeplock (SL_inode i) "inode").

(** The slot iget() takes: the entry that holds the inode already, or the
    first empty one before the end of the table. *)
Fixpoint iget_scan (dev inum : Z) (i : nat) (l : list inode) (empty : option nat)
    : nat + option nat :=
  match l with
  | [] => inr empty
  | x :: l =>
      if (0 <? i_ref x) && (i_dev x =? dev) && (i_inum x =? inum) then inl i
      else iget_scan dev inum (S i) l
             (match empty with None => if i_ref x =? 0 then Some i else None | Some e => Some e end)
  end.

Definition iget (dev inum : Z) : K nat :=
  acquire L_itable ;;
  l ← gets k_inodes;
  match iget_scan dev inum 0 l None with
  | inl i =>
      updi i (λ x, x <| i_ref ::= λ n, n + 1 |>) ;;
      release L_itable ;;
      ret i
  | inr None => panic "iget: no inodes"
  | inr (Some i) =>
      updi i (λ x, x <| i_dev := dev |> <| i_inum := inum |> <| i_ref := 1 |> <| i_valid := 0 |>) ;;
      release L_itable ;;
      ret i
  end.

Definition ialloc_one (dev type : Z) (sb : superblock) (inum : Z) : K (option nat) :=
  bp ← bread dev (IBLOCK inum sb);
  d ← bdata bp;
  if d_type (get_dinode (inum mod IPB) d) =? 0 then
    set_bdata bp (put_dinode (inum mod IPB) (Dinode type 0 0 0 0 (replicate 13 0))) ;;
    log_write bp ;;
    brelse bp ;;
    i ← iget dev inum; ret (Some i)
  else brelse bp ;; ret None.

Definition ialloc (dev type : Z) : K (option nat) :=
  sb ← gets k_sb;
  r ← foreach (zrange 1 (Z.to_nat (sb_ninodes sb - 1))) (ialloc_one dev type sb);
  match r with
  | Some i => ret (Some i)
  | None => printf ("ialloc: no inodes" +:+ newline) [] ;; ret None
  end.

Definition iupdate (ip : nat) : K unit :=
  x ← geti ip; sb ← gets k_sb;
  bp ← bread (i_dev x) (IBLOCK (i_inum x) sb);
  x ← geti ip;
  set_bdata bp (put_dinode (i_inum x mod IPB)
    (Dinode (i_type x) (i_major x) (i_minor x) (i_nlink x) (i_size x) (i_addrs x))) ;;
  log_write bp ;;
  brelse bp.

Definition idup (ip : nat) : K nat :=
  acquire L_itable ;;
  updi ip (λ x, x <| i_ref ::= λ n, n + 1 |>) ;;
  release L_itable ;;
  ret ip.

Definition ilock (ip : nat) : K unit :=
  x ← geti ip;
  if i_ref x <? 1 then panic "ilock" else
  acquiresleep (SL_inode ip) ;;
  x ← geti ip;
  when (i_valid x =? 0)
    (sb ← gets k_sb;
     bp ← bread (i_dev x) (IBLOCK (i_inum x) sb);
     d ← bdata bp;
     let dip := get_dinode (i_inum x mod IPB) d in
     updi ip (λ x, x <| i_type := d_type dip |> <| i_major := d_major dip |>
                     <| i_minor := d_minor dip |> <| i_nlink := d_nlink dip |>
                     <| i_size := d_size dip |> <| i_addrs := d_addrs dip |>) ;;
     brelse bp ;;
     updi ip (λ x, x <| i_valid := 1 |>) ;;
     x ← geti ip;
     when (i_type x =? 0) (panic "ilock: no type")).

Definition iunlock (ip : nat) : K unit :=
  h ← holdingsleep (SL_inode ip);
  x ← geti ip;
  if negb h || (i_ref x <? 1) then panic "iunlock" else
  releasesleep (SL_inode ip).

(** ** Inode content *)

(** [((uint* )bp->data)[i]] *)
Definition get_addr (i : Z) (d : list Z) : Z := get32 (4 * i) d.
Definition set_addr (i v : Z) (d : list Z) : list Z := set32 (4 * i) v d.

(** bmap() in the indirect block [ind]: its entry [bn], allocated if it is 0. *)
Definition bmap_entry (dev ind bn : Z) : K Z :=
  bp ← bread dev ind;
  d ← bdata bp;
  let addr := get_addr bn d in
  addr ← (if addr =? 0 then
            addr ← balloc dev;
            when (negb (addr =? 0)) (set_bdata bp (set_addr bn addr) ;; log_write bp) ;;
            ret addr
          else ret addr);
  brelse bp ;;
  ret addr.

Definition bmap (ip : nat) (bn : Z) : K Z :=
  x ← geti ip;
  if bn <? NDIRECT then
    let addr := aget (i_addrs x) bn in
    if addr =? 0 then
      addr ← balloc (i_dev x);
      if addr =? 0 then ret 0 else
      updi ip (λ x, x <| i_addrs ::= λ a, aset a bn addr |>) ;; ret addr
    else ret addr
  else
  let bn := bn - NDIRECT in
  if bn <? NINDIRECT then
    let addr := aget (i_addrs x) NDIRECT in
    addr ← (if addr =? 0 then
              addr ← balloc (i_dev x);
              when (negb (addr =? 0)) (updi ip (λ x, x <| i_addrs ::= λ a, aset a NDIRECT addr |>)) ;;
              ret addr
            else ret addr);
    if addr =? 0 then ret 0 else
    bmap_entry (i_dev x) addr bn
  else panic "bmap: out of range".

Definition itrunc (ip : nat) : K unit :=
  for_all (zrange 0 (Z.to_nat NDIRECT)) (λ i,
    x ← geti ip;
    when (truth (aget (i_addrs x) i))
      (bfree (i_dev x) (aget (i_addrs x) i) ;;
       updi ip (λ x, x <| i_addrs ::= λ a, aset a i 0 |>))) ;;
  x ← geti ip;
  when (truth (aget (i_addrs x) NDIRECT))
    (bp ← bread (i_dev x) (aget (i_addrs x) NDIRECT);
     for_all (zrange 0 (Z.to_nat NINDIRECT)) (λ j,
       d ← bdata bp;
       when (truth (get_addr j d)) (bfree (i_dev x) (get_addr j d))) ;;
     brelse bp ;;
     x ← geti ip;
     bfree (i_dev x) (aget (i_addrs x) NDIRECT) ;;
     updi ip (λ x, x <| i_addrs ::= λ a, aset a NDIRECT 0 |>)) ;;
  updi ip (λ x, x <| i_size := 0 |>) ;;
  iupdate ip.

Definition iput (ip : nat) : K unit :=
  acquire L_itable ;;
  x ← geti ip;
  when ((i_ref x =? 1) && truth (i_valid x) && (i_nlink x =? 0))
    (acquiresleep (SL_inode ip) ;;
     release L_itable ;;
     itrunc ip ;;
     updi ip (λ x, x <| i_type := 0 |>) ;;
     iupdate ip ;;
     updi ip (λ x, x <| i_valid := 0 |>) ;;
     releasesleep (SL_inode ip) ;;
     acquire L_itable) ;;
  updi ip (λ x, x <| i_ref ::= λ n, n - 1 |>) ;;
  release L_itable.

Definition iunlockput (ip : nat) : K unit := iunlock ip ;; iput ip.

(** [struct stat] as the bytes copied to the user: dev at 0, ino at 4, type at
    8, nlink at 10, and size at 16 after four bytes of padding, given as [pad]. *)
Definition stati (ip : nat) (pad : list Z) : K (list Z) :=
  x ← geti ip;
  ret (le_bytes 4 (i_dev x) ++ le_bytes 4 (i_inum x) ++ le_bytes 2 (i_type x)
       ++ le_bytes 2 (i_nlink x) ++ pad ++ le_bytes 8 (i_size x)).

(** One round of readi()'s loop; [got] is what a local buffer has received. *)
Definition readi_body (ip : nat) (n : Z) (x : Z * Z * dest * list Z)
    : K (Z * Z * dest * list Z + Z * list Z) :=
  let '(tot, off, dst, got) := x in
  if negb (tot <? n) then ret (inr (tot, got)) else
  addr ← bmap ip (off / BSIZE);
  if addr =? 0 then ret (inr (tot, got)) else
  x ← geti ip;
  bp ← bread (i_dev x) addr;
  let m := Z.min (u32 (n - tot)) (BSIZE - off mod BSIZE) in
  d ← bdata bp;
  ' (r, b) ← either_copyout dst (slice (off mod BSIZE) (Z.to_nat m) d);
  if r =? -1 then brelse bp ;; ret (inr (u32 (-1), got)) else
  brelse bp ;;
  ret (inl (u32 (tot + m), u32 (off + m), dest_add dst m, got ++ b)).

Definition readi (ip : nat) (dst : dest) (off n : Z) : K (Z * list Z) :=
  x ← geti ip;
  if (i_size x <? off) || (u32 (off + n) <? off) then ret (0, []) else
  let n := if i_size x <? u32 (off + n) then u32 (i_size x - off) else n in
  ' (tot, got) ← loop (block_rounds n) (readi_body ip n) (0, off, dst, []);
  ret (i32 tot, got).

(** One round of writei()'s loop: a failing copy may have stored a prefix. *)
Definition writei_body (ip : nat) (n : Z) (x : Z * Z * source) : K (Z * Z * source + Z * Z) :=
  let '(tot, off, src) := x in
  if negb (tot <? n) then ret (inr (tot, off)) else
  addr ← bmap ip (off / BSIZE);
  if addr =? 0 then ret (inr (tot, off)) else
  x ← geti ip;
  bp ← bread (i_dev x) addr;
  let m := Z.min (u32 (n - tot)) (BSIZE - off mod BSIZE) in
  ' (r, b) ← either_copyin src m;
  set_bdata bp (splice (off mod BSIZE) b) ;;
  if r =? -1 then brelse bp ;; ret (inr (tot, off)) else
  log_write bp ;;
  brelse bp ;;
  ret (inl (u32 (tot + m), u32 (off + m), source_add src m)).

Definition writei (ip : nat) (src : source) (off n : Z) : K Z :=
  x ← geti ip;
  if (i_size x <? off) || (u32 (off + n) <? off) then ret (-1) else
  if MAXFILE * BSIZE <? u32 (off + n) then ret (-1) else
  ' (tot, off) ← loop (block_rounds n) (writei_body ip n) (0, off, src);
  x ← geti ip;
  when (i_size x <? off) (updi ip (λ x, x <| i_size := off |>)) ;;
  iupdate ip ;;
  ret (i32 tot).

(** ** Directories *)

Definition namecmp (s t : list Z) : K Z := deref (strncmp s t (Z.to_nat DIRSIZ)).

Definition de_inum (de : list Z) : Z := get16 0 de.
Definition de_name (de : list Z) : list Z := drop 2 de.

(** One entry of dirlookup()'s loop. *)
Definition dirlookup_body (dp : nat) (name : list Z) (off : Z) : K (Z + option (nat * Z)) :=
  x ← geti dp;
  if negb (off <? i_size x) then ret (inr None) else
  ' (r, de) ← readi dp D_local off 16;
  if negb (r =? 16) then panic "dirlookup read" else
  if de_inum de =? 0 then ret (inl (u32 (off + 16))) else
  c ← namecmp name (de_name de);
  if c =? 0 then ip ← iget (i_dev x) (de_inum de); ret (inr (Some (ip, off)))
  else ret (inl (u32 (off + 16))).

(** The entry found and its offset ([*poff]). *)
Definition dirlookup (dp : nat) (name : list Z) : K (option (nat * Z)) :=
  x ← geti dp;
  if negb (i_type x =? T_DIR) then panic "dirlookup not DIR" else
  loop (Z.to_nat (i_size x / 16) + 2) (dirlookup_body dp name) 0.

(** One entry of dirlink()'s search for an empty one. *)
Definition dirlink_body (dp : nat) (off : Z) : K (Z + Z) :=
  x ← geti dp;
  if negb (off <? i_size x) then ret (inr off) else
  ' (r, de) ← readi dp D_local off 16;
  if negb (r =? 16) then panic "dirlink read" else
  if de_inum de =? 0 then ret (inr off) else ret (inl (off + 16)).

Definition dirlink (dp : nat) (name : list Z) (inum : Z) : K Z :=
  r ← dirlookup dp name;
  match r with
  | Some (ip, _) => iput ip ;; ret (-1)
  | None =>
      x ← geti dp;
      off ← loop (Z.to_nat (i_size x / 16) + 2) (dirlink_body dp) 0;
      nm ← deref (strncpy (replicate (Z.to_nat DIRSIZ) 0) name (Z.to_nat DIRSIZ));
      w ← writei dp (S_local (le_bytes 2 inum ++ nm)) off 16;
      if negb (w =? 16) then ret (-1) else ret 0
  end.

(** ** Paths

    A path is its characters up to the NUL.  [name] is the caller's array of
    DIRSIZ bytes. *)
Fixpoint skip_slashes (path : list Z) : list Z :=
  match path with c :: p => if c =? 47 then skip_slashes p else path | [] => [] end.

(** The element at the front of a path, and the rest. *)
Fixpoint take_elem (path : list Z) : list Z * list Z :=
  match path with
  | [] => ([], [])
  | c :: p => if c =? 47 then ([], path) else let '(e, r) := take_elem p in (c :: e, r)
  end.

(** [memmove(name, s, ...)] and the NUL after a short element *)
Definition put_elem (s name : list Z) : list Z :=
  let len := Z.of_nat (length s) in
  if DIRSIZ <=? len then splice 0 (take (Z.to_nat DIRSIZ) s) name
  else splice 0 (s ++ [0]) name.

Definition skipelem (path name : list Z) : option (list Z * list Z) :=
  match skip_slashes path with
  | [] => None
  | path => let '(s, path) := take_elem path in
            Some (skip_slashes path, put_elem s name)
  end.

(** Each round of namex() takes at least one character off the path. *)
Definition namex (path : list Z) (nameiparent : bool) (name : list Z) : K (option nat * list Z) :=
  ip ← (match path with
        | 47 :: _ => iget ROOTDEV ROOTINO
        | _ => p ← curproc; x ← getp p; cwd ← deref (p_cwd x); idup cwd
        end);
  loop (S (length path)) (λ '(ip, path, name),
    match skipelem path name with
    | None =>
        if nameiparent : bool then iput ip ;; ret (inr (None, name)) else ret (inr (Some ip, name))
    | Some (path, name) =>
        ilock ip ;;
        x ← geti ip;
        if negb (i_type x =? T_DIR) then iunlockput ip ;; ret (inr (None, name)) else
        if nameiparent && bool_decide (path = []) then iunlock ip ;; ret (inr (Some ip, name)) else
        r ← dirlookup ip name;
        match r with
        | None => iunlockput ip ;; ret (inr (None, name))
        | Some (next, _) => iunlockput ip ;; ret (inl (next, path, name))
        end
    end) (ip, path, name).

Definition namei (path : list Z) : K (option nat) :=
  ' (ip, _) ← namex path false (replicate (Z.to_nat DIRSIZ) 0); ret ip.

Definition nameiparent (path : list Z) : K (option nat * list Z) :=
  namex path true (replicate (Z.to_nat DIRSIZ) 0).
End fs.
