(* ===== verification/FsSpec.v ===== *)
(** * File-system formats: inodes on disk, the free bitmap, path names

    The pure parts of fs.c: what iupdate() stores is what ilock() reads back;
    balloc()/bfree() on a bitmap block; skipelem() iterated splits a path into
    its components. *)

From Stdlib Require Import ZArith Lia.
From stdpp Require Import base numbers list gmap strings.
From S2P Require Import Prelude Machine Kernel Strings Virtio Printf Fs.

(** ** On-disk inodes *)

(** A [struct dinode] whose fields fit their C types. *)
Record dinode_wf (x : dinode) : Prop := {
  dw_type : - 2 ^ 15 <= d_type x < 2 ^ 15;
  dw_major : - 2 ^ 15 <= d_major x < 2 ^ 15;
  dw_minor : - 2 ^ 15 <= d_minor x < 2 ^ 15;
  dw_nlink : - 2 ^ 15 <= d_nlink x < 2 ^ 15;
  dw_size : 0 <= d_size x < 2 ^ 32;
  dw_len : length (d_addrs x) = 13%nat;
  dw_addrs : Forall (λ a, 0 <= a < 2 ^ 32) (d_addrs x)
}.

Lemma length_concat_le_bytes k l : length (concat (le_bytes k <$> l)) = (k * length l)%nat.
Proof.
  induction l as [|x l IH]; [simpl; lia|].
  cbn [fmap list_fmap concat length]. rewrite length_app, length_le_bytes, IH. lia.
Qed.

Lemma length_dinode_bytes x : length (d_addrs x) = 13%nat -> length (dinode_bytes x) = 64%nat.
Proof.
  intros H. unfold dinode_bytes. rewrite !length_app, !length_le_bytes, length_concat_le_bytes, H. done.
Qed.

Lemma le2 v : le_val (le_bytes 2 v) = v mod 2 ^ 16.
Proof. rewrite le_val_bytes. done. Qed.

Lemma le4 v : 0 <= v < 2 ^ 32 -> le_val (le_bytes 4 v) = v.
Proof. intros. rewrite le_val_bytes. by apply Z.mod_small. Qed.

Lemma slice_app_r a b n off :
  (Z.of_nat (length a) <= off) -> slice off n (a ++ b) = slice (off - Z.of_nat (length a)) n b.
Proof. intros. unfold slice. rewrite drop_app_ge by lia. do 2 f_equal. lia. Qed.

Lemma slice_app_l a b n : n = length a -> slice 0 n (a ++ b) = a.
Proof. intros ->. unfold slice. simpl. apply take_app_length. Qed.

(** The [i]-th of the 4-byte words of a list of words. *)
Lemma slice_words l i w :
  l !! i = Some w -> slice (4 * Z.of_nat i) 4 (concat (le_bytes 4 <$> l)) = le_bytes 4 w.
Proof.
  revert i. induction l as [|x l IH]; intros i Hi; [by rewrite lookup_nil in Hi|].
  cbn [fmap list_fmap concat]. destruct i as [|i]; simpl in Hi.
  - injection Hi as ->. by rewrite slice_app_l by (by rewrite length_le_bytes).
  - rewrite slice_app_r by (rewrite length_le_bytes; lia).
    rewrite length_le_bytes. rewrite <- (IH i Hi). f_equal. lia.
Qed.

Lemma put_get_dinode k x d :
  dinode_wf x -> 0 <= k < IPB -> length d = Z.to_nat BSIZE ->
  get_dinode k (put_dinode k x d) = x.
Proof.
  intros [H1 H2 H3 H4 H5 H6 H7] Hk Hd. change IPB with 16 in Hk. change (Z.to_nat BSIZE) with 1024%nat in Hd.
  unfold get_dinode, put_dinode.
  assert (Hs : ∀ o n, 0 <= o -> (Z.to_nat o + n <= 64)%nat ->
    slice (k * 64 + o) n (splice (k * 64) (dinode_bytes x) d) = slice o n (dinode_bytes x)).
  { intros o n Ho Hn. rewrite slice_splice_in; rewrite ?length_dinode_bytes by done; try lia.
    f_equal. lia. }
  unfold get16, get32. rewrite <- (Z.add_0_r (k * 64)) at 1.
  rewrite !Hs by lia.
  assert (Ea : (λ i, le_val (slice (k * 64 + 12 + 4 * i) 4 (splice (k * 64) (dinode_bytes x) d)))
               <$> zrange 0 13 = d_addrs x).
  { apply list_eq. intros i. rewrite list_lookup_fmap. unfold zrange. rewrite list_lookup_fmap.
    destruct (decide (i < 13)%nat) as [Hi|Hi].
    - rewrite lookup_seq_lt by done. simpl.
      destruct (lookup_lt_is_Some_2 (d_addrs x) i ltac:(lia)) as [w Hw]. rewrite Hw. f_equal.
      rewrite <- Z.add_assoc, Hs by lia.
      unfold dinode_bytes. rewrite !app_assoc.
      rewrite slice_app_r by (rewrite !length_app, !length_le_bytes; lia).
      rewrite !length_app, !length_le_bytes.
      replace (12 + 4 * (0 + Z.of_nat i) - Z.of_nat (2 + 2 + 2 + 2 + 4)) with (4 * Z.of_nat i) by lia.
      rewrite (slice_words _ _ w Hw). apply le4. by apply (Forall_lookup_1 _ _ _ _ H7 Hw).
    - rewrite lookup_seq_ge by lia. symmetry. apply lookup_ge_None_2. lia. }
  rewrite Ea. clear Ea Hs. unfold dinode_bytes.
  rewrite slice_app_l by (by rewrite length_le_bytes).
  assert (E2 : ∀ a n r o, length a = 2%nat -> 2 <= o -> slice o n (a ++ r) = slice (o - 2) n r).
  { intros a n r o Ha Ho. rewrite slice_app_r by lia. f_equal. lia. }
  rewrite (E2 _ _ _ 2), (E2 _ _ _ 4), (E2 _ _ _ 6), (E2 _ _ _ 8)
    by (rewrite ?length_le_bytes; lia). simpl (_ - _).
  rewrite (E2 _ _ _ 2), (E2 _ _ _ 4), (E2 _ _ _ 6) by (rewrite ?length_le_bytes; lia). simpl (_ - _).
  rewrite (E2 _ _ _ 2), (E2 _ _ _ 4) by (rewrite ?length_le_bytes; lia). simpl (_ - _).
  rewrite (E2 _ _ _ 2) by (rewrite ?length_le_bytes; lia). simpl (_ - _).
  rewrite !slice_app_l by (by rewrite length_le_bytes).
  rewrite !le2, le4 by done. unfold i16.
  rewrite !signed_mod by (done || lia). by destruct x.
Qed.

Lemma put_get_dinode_ne k j x d :
  length (d_addrs x) = 13%nat -> 0 <= k < IPB -> 0 <= j < IPB -> j <> k -> length d = Z.to_nat BSIZE ->
  get_dinode j (put_dinode k x d) = get_dinode j d ∧ length (put_dinode k x d) = length d.
Proof.
  intros Hx Hk Hj Hne Hd. change IPB with 16 in *. change (Z.to_nat BSIZE) with 1024%nat in Hd.
  pose proof (length_dinode_bytes x Hx) as Hl. unfold get_dinode, put_dinode, get16, get32.
  assert (Hs : ∀ o n, 0 <= o -> (Z.to_nat o + n <= 64)%nat ->
    slice (j * 64 + o) n (splice (k * 64) (dinode_bytes x) d) = slice (j * 64 + o) n d).
  { intros o n Ho Hn. apply slice_splice_ne; rewrite Hl; lia. }
  split; [|rewrite length_splice; rewrite ?Hl; lia].
  rewrite <- (Z.add_0_r (j * 64)) at 1 6. rewrite !Hs by lia. f_equal.
  apply list_fmap_ext. intros ? i Hi. apply list_elem_of_lookup_2, elem_of_zrange in Hi.
  f_equal. rewrite <- Z.add_assoc. apply Hs; lia.
Qed.


Definition ex_dinode : dinode := Dinode T_FILE 0 0 1 2500 (zrange 100 3 ++ replicate 10 0).


(** ** The free bitmap *)

Lemma bit_of_testbit d bi : 0 <= bi -> bit_of d bi = Z.testbit (aget d (bi / 8)) (bi mod 8).
Proof.
  intros H. unfold bit_of, truth. set (b := aget d (bi / 8)). set (k := bi mod 8).
  assert (Hk : 0 <= k) by (apply Z.mod_pos_bound; lia).
  rewrite Z.shiftl_1_l. destruct (Z.testbit b k) eqn:E.
  - apply negb_true_iff, Z.eqb_neq. intros Z0. apply (f_equal (λ z, Z.testbit z k)) in Z0.
    rewrite Z.land_spec, E, Z.pow2_bits_true, Z.bits_0 in Z0 by lia. done.
  - apply negb_false_iff, Z.eqb_eq. apply Z.bits_inj'. intros j Hj.
    rewrite Z.land_spec, Z.bits_0. destruct (decide (j = k)) as [->|Hne].
    + by rewrite E.
    + rewrite Z.pow2_bits_false by lia. apply andb_false_r.
Qed.

Lemma byte_index bi j : 0 <= bi -> 0 <= j -> bi / 8 = j / 8 -> bi mod 8 = j mod 8 -> bi = j.
Proof. intros. rewrite (Z.div_mod bi 8), (Z.div_mod j 8) by lia. congruence. Qed.

Lemma bit_of_set bi d j :
  0 <= bi < 8 * Z.of_nat (length d) -> 0 <= j ->
  bit_of (set_bit bi d) j = bool_decide (j = bi) || bit_of d j.
Proof.
  intros Hb Hj. rewrite !bit_of_testbit by lia. unfold set_bit.
  pose proof (Z.mod_pos_bound bi 8 ltac:(lia)). pose proof (Z.mod_pos_bound j 8 ltac:(lia)).
  destruct (decide (bi / 8 = j / 8)) as [E|E].
  - rewrite <- E, aget_aset_eq by zmod. rewrite Z.shiftl_1_l, Z.lor_spec, Z.pow2_bits_eqb by lia.
    rewrite orb_comm. f_equal. destruct (Z.eqb_spec (bi mod 8) (j mod 8)) as [E'|E'].
    + rewrite bool_decide_eq_true_2; [done|]. symmetry. apply byte_index; (lia || done).
    + rewrite bool_decide_eq_false_2; [done|]. intros ->. done.
  - rewrite aget_aset_ne by zmod. rewrite bool_decide_eq_false_2; [done|]. intros ->. done.
Qed.

Lemma bit_of_clr bi d j :
  0 <= bi < 8 * Z.of_nat (length d) -> 0 <= j ->
  bit_of (clr_bit bi d) j = negb (bool_decide (j = bi)) && bit_of d j.
Proof.
  intros Hb Hj. rewrite !bit_of_testbit by lia. unfold clr_bit.
  pose proof (Z.mod_pos_bound bi 8 ltac:(lia)). pose proof (Z.mod_pos_bound j 8 ltac:(lia)).
  destruct (decide (bi / 8 = j / 8)) as [E|E].
  - rewrite <- E, aget_aset_eq by zmod.
    rewrite Z.shiftl_1_l, Z.land_spec, Z.lnot_spec, Z.pow2_bits_eqb by lia.
    rewrite andb_comm. f_equal. f_equal. destruct (Z.eqb_spec (bi mod 8) (j mod 8)) as [E'|E'].
    + rewrite bool_decide_eq_true_2; [done|]. symmetry. apply byte_index; (lia || done).
    + rewrite bool_decide_eq_false_2; [done|]. intros ->. done.
  - rewrite aget_aset_ne by zmod. rewrite bool_decide_eq_false_2; [done|]. intros ->. done.
Qed.

(** Clearing the bit just set restores the byte. *)
Lemma clr_set_bit bi d :
  0 <= bi < 8 * Z.of_nat (length d) -> bit_of d bi = false -> clr_bit bi (set_bit bi d) = d.
Proof.
  intros Hb Hf. rewrite bit_of_testbit in Hf by lia. unfold clr_bit, set_bit.
  rewrite aget_aset_eq by zmod. unfold aset. rewrite list_insert_insert_eq.
  pose proof (Z.mod_pos_bound bi 8 ltac:(lia)).
  assert (Hi : (Z.to_nat (bi / 8) < length d)%nat) by zmod.
  destruct (lookup_lt_is_Some_2 d _ Hi) as [b Hbyte].
  transitivity (<[Z.to_nat (bi / 8) := b]> d); [|by apply list_insert_id].
  revert Hf. unfold aget. rewrite Hbyte. simpl. intros Hf. f_equal. apply Z.bits_inj'. intros j Hj.
  rewrite Z.land_spec, Z.lor_spec, Z.lnot_spec, Z.shiftl_1_l, Z.pow2_bits_eqb by lia.
  destruct (Z.eqb_spec (bi mod 8) j) as [<-|]; [by rewrite Hf|].
  simpl. by rewrite orb_false_r, andb_true_r.
Qed.

Lemma find_zrange (f : Z -> bool) n a :
  match List.find f (zrange a n) with
  | Some x => a <= x < a + Z.of_nat n ∧ f x = true ∧ ∀ j, a <= j < x -> f j = false
  | None => ∀ j, a <= j < a + Z.of_nat n -> f j = false
  end.
Proof.
  revert a. induction n as [|n IH]; intros a; [simpl; intros; lia|].
  rewrite zrange_S. cbn [List.find]. destruct (f a) eqn:E.
  - split; [lia|]. split; [done|]. intros; lia.
  - specialize (IH (a + 1)). destruct (List.find f _).
    + destruct IH as (H1 & H2 & H3). split; [lia|]. split; [done|]. intros j Hj.
      destruct (decide (j = a)) as [->|]; [done|]. apply H3. lia.
    + intros j Hj. destruct (decide (j = a)) as [->|]; [done|]. apply IH. lia.
Qed.

(** balloc() takes the lowest clear bit of a bitmap block among the [n]
    blocks it stands for, finds none only if all are set, marks exactly that
    bit, and bfree() of the block gives back the bitmap there was before. *)
Theorem bitmap_alloc_free (d : list Z) (n : nat) :
  Z.of_nat n <= 8 * Z.of_nat (length d) ->
  match first_free d n with
  | Some bi =>
      0 <= bi < Z.of_nat n ∧ bit_of d bi = false ∧ (∀ j, 0 <= j < bi -> bit_of d j = true)
      ∧ (∀ j, 0 <= j -> bit_of (set_bit bi d) j = bool_decide (j = bi) || bit_of d j)
      ∧ (∀ j, 0 <= j -> bit_of (clr_bit bi d) j = negb (bool_decide (j = bi)) && bit_of d j)
      ∧ clr_bit bi (set_bit bi d) = d
  | None => ∀ j, 0 <= j < Z.of_nat n -> bit_of d j = true
  end.
Proof.
  intros Hn. unfold first_free. pose proof (find_zrange (λ bi, negb (bit_of d bi)) n 0) as F.
  destruct (List.find _ _) as [bi|].
  - destruct F as (F1 & F2 & F3). apply negb_true_iff in F2. split; [lia|]. split; [done|]. split.
    { intros j Hj. apply negb_false_iff. by apply F3. }
    split; [intros; apply bit_of_set; lia|]. split; [intros; apply bit_of_clr; lia|].
    apply clr_set_bit; [lia|done].
  - intros j Hj. apply negb_false_iff. apply F. lia.
Qed.

Lemma bitmap_alloc_free_witness :
  first_free (255 :: 7 :: replicate 1022 0) 8192 = Some 11
  ∧ clr_bit 11 (set_bit 11 (255 :: 7 :: replicate 1022 0)) = 255 :: 7 :: replicate 1022 0.
Proof.
  assert (E : first_free (255 :: 7 :: replicate 1022 0) 8192 = Some 11) by by vm_compute.
  split; [exact E|].
  pose proof (bitmap_alloc_free (255 :: 7 :: replicate 1022 0) 8192 ltac:(vm_compute; congruence)) as H.
  rewrite E in H. apply H.
Defined.

(** ** Path names *)

(** The components of a path: what lies between slashes, empty ones dropped. *)
Fixpoint split_slash (cur path : list Z) : list (list Z) :=
  match path with
  | [] => [cur]
  | c :: p => if c =? 47 then cur :: split_slash [] p else split_slash (cur ++ [c]) p
  end.

Definition components (path : list Z) : list (list Z) := filter (.≠ []) (split_slash [] path).

Lemma components_skip path : components (skip_slashes path) = components path.
Proof.
  unfold components. induction path as [|c p IH]; [done|]. simpl.
  destruct (c =? 47) eqn:E; [by rewrite IH|]. simpl. by rewrite E.
Qed.

Lemma skip_slashes_le path : (length (skip_slashes path) <= length path)%nat.
Proof. induction path as [|c p IH]; [done|]. simpl. destruct (c =? 47); simpl; lia. Qed.

Lemma skip_slashes_head path c p : skip_slashes path = c :: p -> c <> 47.
Proof.
  induction path as [|x q IH]; [done|]. simpl. destruct (Z.eqb_spec x 47); [done|]. by intros [= <- <-].
Qed.

Lemma take_elem_app path : (take_elem path).1 ++ (take_elem path).2 = path.
Proof.
  induction path as [|c p IH]; [done|]. simpl. destruct (c =? 47); [done|].
  destruct (take_elem p). simpl in *. by rewrite IH.
Qed.

Lemma split_take path cur :
  ∃ l, split_slash cur path = (cur ++ (take_elem path).1) :: l
       ∧ filter (.≠ []) l = components (take_elem path).2.
Proof.
  revert cur. induction path as [|c p IH]; intros cur; simpl.
  - exists []. by rewrite app_nil_r.
  - destruct (c =? 47) eqn:E.
    + exists (split_slash [] p). simpl. rewrite app_nil_r. split; [done|].
      unfold components. simpl. by rewrite E.
    + destruct (IH (cur ++ [c])) as (l & Hl & Hf). destruct (take_elem p). simpl in *.
      exists l. rewrite Hl, <- app_assoc. done.
Qed.

Lemma skipelem_components path name :
  match components path with
  | [] => skipelem path name = None
  | c :: cs => ∃ rest, skipelem path name = Some (rest, put_elem c name)
      ∧ components rest = cs ∧ (length rest < length path)%nat ∧ (rest = [] <-> cs = [])
  end.
Proof.
  rewrite <- components_skip. unfold skipelem. pose proof (skip_slashes_le path).
  destruct (skip_slashes path) as [|c p] eqn:E; [done|].
  apply skip_slashes_head in E as Hc. destruct (split_take (c :: p) []) as (l & Hl & Hf).
  unfold components at 1. rewrite Hl, filter_cons. pose proof (take_elem_app (c :: p)) as Ha.
  simpl take_elem in *. destruct (Z.eqb_spec c 47); [done|]. destruct (take_elem p) as [e r]. cbn [fst snd app] in *.
  rewrite decide_True by done. eexists. split; [done|]. rewrite components_skip, Hf.
  split; [done|]. pose proof (skip_slashes_le r). injection Ha as Ha. apply (f_equal length) in Ha.
  rewrite length_app in Ha. simpl length in *. split; [lia|]. rewrite <- components_skip. clear.
  destruct (skip_slashes r) as [|c p] eqn:E; [done|]. split; [done|].
  apply skip_slashes_head in E. destruct (split_take (c :: p) []) as (l & Hl & _).
  unfold components. rewrite Hl, filter_cons. simpl take_elem. destruct (Z.eqb_spec c 47); [done|].
  destruct (take_elem p). by rewrite decide_True.
Qed.

(** A short element is NUL-terminated, a long one cut at DIRSIZ. *)
Lemma cstr_put_elem c name :
  length name = 14%nat -> Forall (.≠ 0) c -> cstr 14 (put_elem c name) = take 14 c.
Proof.
  intros Hn Hc. unfold put_elem. change DIRSIZ with 14.
  assert (Hp : ∀ n l r, Forall (.≠ 0) l -> (length l = n)%nat -> cstr n (l ++ r) = l).
  { clear. intros n l r Hl <-. induction Hl as [|x l Hx Hl IH]; [done|]. simpl.
    destruct (Z.eqb_spec x 0); [done|]. by rewrite IH. }
  assert (Hq : ∀ n l r, Forall (.≠ 0) l -> (length l < n)%nat -> cstr n (l ++ 0 :: r) = l).
  { clear. intros n l r Hl. revert n. induction Hl as [|x l Hx Hl IH]; intros [|n] Hn; simpl in *; try lia; [done|].
    destruct (Z.eqb_spec x 0); [done|]. rewrite IH by lia. done. }
  destruct (Z.leb_spec 14 (Z.of_nat (length c))); unfold splice; simpl (take _ name); simpl app.
  - apply Hp; [by apply Forall_take|]. rewrite length_take. lia.
  - rewrite <- app_assoc. simpl app. rewrite Hq by (done || lia). by rewrite take_ge by lia.
Qed.

(** The names skipelem() yields, called until it returns 0 as namex() does. *)
Fixpoint path_names (fuel : nat) (path name : list Z) : option (list (list Z)) :=
  match fuel with
  | O => None
  | S fuel => match skipelem path name with
              | None => Some []
              | Some (path, name) => cons (cstr 14 name) <$> path_names fuel path name
              end
  end.

Lemma split_nonzero path cur :
  Forall (.≠ 0) path -> Forall (.≠ 0) cur -> Forall (Forall (.≠ 0)) (split_slash cur path).
Proof.
  intros Hp. revert cur. induction Hp as [|c p Hc Hp IH]; intros cur Hcur; simpl.
  - by constructor.
  - destruct (c =? 47); [constructor; auto|]. apply IH. apply Forall_app. auto.
Qed.

Lemma length_put_elem c name : length name = 14%nat -> length (put_elem c name) = 14%nat.
Proof.
  intros Hn. unfold put_elem. change DIRSIZ with 14.
  destruct (Z.leb_spec 14 (Z.of_nat (length c))); rewrite length_splice; try lia.
  - rewrite length_take. lia.
  - rewrite length_app. simpl. lia.
Qed.

Lemma path_names_components fuel path name :
  (length path < fuel)%nat -> Forall (Forall (.≠ 0)) (components path) -> length name = 14%nat ->
  path_names fuel path name = Some (take 14 <$> components path).
Proof.
  revert path name. induction fuel as [|fuel IH]; intros path name Hf Hc Hn; [lia|]. cbn [path_names].
  pose proof (skipelem_components path name) as Hs. destruct (components path) as [|c cs].
  { by rewrite Hs. }
  apply Forall_cons in Hc as [Hc Hcs]. destruct Hs as (rest & -> & <- & Hlt & _).
  rewrite IH by (try lia; try done; by apply length_put_elem). by rewrite cstr_put_elem.
Qed.

(** C24: skipelem(), called over and over on a path as namex() calls it, stops
    within [length path + 1] calls and yields exactly the path's components,
    in order, empty ones (repeated or trailing slashes) skipped and each cut to
    the DIRSIZ bytes a directory entry holds. *)
Theorem skipelem_splits_path (path name : list Z) :
  Forall (.≠ 0) path -> length name = 14%nat ->
  path_names (S (length path)) path name = Some (take 14 <$> components path).
Proof.
  intros Hp Hn. apply path_names_components; [lia| |done].
  apply Forall_forall. intros c Hc. apply list_elem_of_filter in Hc as [_ Hc].
  revert c Hc. apply Forall_forall. by apply split_nonzero.
Qed.

(** "//usr/bin/a-very-long-file-name/" *)
Lemma skipelem_splits_path_witness :
  path_names 33 (chars "//usr/bin/a-very-long-file-name/") (replicate 14 0)
  = Some [chars "usr"; chars "bin"; chars "a-very-long-fi"].
Proof.
  refine (skipelem_splits_path (chars "//usr/bin/a-very-long-file-name/") (replicate 14 0) _ eq_refl).
  refine (bool_decide_eq_true_1 _ _). by vm_compute.
Defined.

Lemma cstr_bytes_ok n l : bytes_ok l -> bytes_ok (cstr n l).
Proof.
  intros H. revert n. induction H as [|c l Hc Hl IH]; intros [|n]; simpl; try constructor.
  destruct (c =? 0); [constructor|]. constructor; [done|apply IH].
Qed.

Lemma cstr_padded n l k : cstr n (cstr n l ++ replicate k 0) = cstr n l.
Proof.
  revert n. induction l as [|c l IH]; intros [|n]; simpl; try done.
  - destruct k; simpl; done.
  - destruct (Z.eqb_spec c 0) as [|Hc]; [by destruct k|].
    simpl. destruct (Z.eqb_spec c 0); [done|]. by rewrite IH.
Qed.

(** A name that dirlink() stores in a directory entry is found again by
    dirlookup()'s namecmp() exactly under the names that agree with it on the
    first DIRSIZ bytes (up to the NUL). *)
Theorem dirent_name_match (name key : list Z) :
  bytes_ok name -> bytes_ok key -> (14 <= length name)%nat -> (14 <= length key)%nat ->
  ∃ de r, strncpy (replicate 14 0) name 14 = Some de ∧ length de = 14%nat
    ∧ (∀ s, namecmp key de s = Ok r s)
    ∧ (r = 0 <-> cstr 14 key = cstr 14 name).
Proof.
  intros Hn Hk Ln Lk.
  destruct (strncpy_total (replicate 14 0) name 14) as [de Hde]; [done|done|].
  pose proof (strncpy_spec _ _ _ _ Hde) as E. rewrite drop_replicate in E. simpl replicate at 2 in E.
  rewrite app_nil_r in E. pose proof (cstr_length 14 name).
  assert (Hl : length de = 14%nat) by (rewrite E, length_app, length_replicate; lia).
  assert (Hb : bytes_ok de).
  { rewrite E. apply Forall_app. split; [by apply cstr_bytes_ok|apply Forall_replicate; lia]. }
  destruct (strncmp_zero key de 14 Hk Hb Lk ltac:(lia)) as (r & Hr & Hi).
  exists de, r. split; [done|]. split; [done|]. split.
  - intros s. unfold namecmp. change (Z.to_nat DIRSIZ) with 14%nat. by rewrite Hr.
  - by rewrite Hi, E, cstr_padded.
Qed.

Lemma dirent_name_match_witness :
  ∃ de r, strncpy (replicate 14 0) (chars "a-very-long-file") 14 = Some de ∧ length de = 14%nat
    ∧ (∀ s, namecmp (chars "a-very-long-fish") de s = Ok r s)
    ∧ (r = 0 <-> cstr 14 (chars "a-very-long-fish") = cstr 14 (chars "a-very-long-file")).
Proof.
  apply (dirent_name_match (chars "a-very-long-file") (chars "a-very-long-fish"));
    [refine (bool_decide_eq_true_1 _ _); by vm_compute..|simpl; lia|simpl; lia].
Defined.
