(* ===== verification/FsView.v ===== *)
(** * Files on a disk

    What it means for a disk to hold a file: where fs.c finds the inode of a
    given number, which block has a given part of its contents, and that those
    blocks spell out the contents.  The image mkfs writes is described in these
    terms (MkfsSpec.v), and readi() reads what they say (FsRead.v). *)

From Stdlib Require Import ZArith Lia.
From stdpp Require Import base numbers list gmap strings.
From S2P Require Import Prelude Machine Kernel Virtio Fs.

(** A disk is the contents of its blocks. *)
Notation disk := (Z -> list Z) (only parsing).

(** The inode [inum] as ilock() reads it. *)
Definition disk_inode (D : disk) (sb : superblock) (inum : Z) : dinode :=
  get_dinode (inum mod IPB) (D (IBLOCK inum sb)).

(** The block with the part [bn] of a file, 0 if there is none: as bmap() finds
    it, without allocating. *)
Definition file_addr (D : disk) (addrs : list Z) (bn : Z) : Z :=
  if bn <? NDIRECT then aget addrs bn
  else if aget addrs NDIRECT =? 0 then 0
  else get_addr (bn - NDIRECT) (D (aget addrs NDIRECT)).

(** Part [bn] of a file's contents. *)
Definition part (c : list Z) (bn : Z) : list Z := slice (bn * BSIZE) (Z.to_nat BSIZE) c.

(** The blocks at [addrs] hold the contents [c]. *)
Definition holds_file (D : disk) (addrs : list Z) (c : list Z) : Prop :=
  ∀ bn, 0 <= bn -> bn * BSIZE < Z.of_nat (length c) ->
    file_addr D addrs bn <> 0
    ∧ take (length (part c bn)) (D (file_addr D addrs bn)) = part c bn.

(** A file that can be read: its blocks are allocated, with numbers below
    [lim], and hold [c]. *)
Record readable (lim : Z) (D : disk) (addrs c : list Z) : Prop := {
  rd_holds : holds_file D addrs c;
  rd_max : Z.of_nat (length c) <= MAXFILE * BSIZE;
  rd_range : ∀ bn, 0 <= bn -> bn * BSIZE < Z.of_nat (length c) ->
    0 <= file_addr D addrs bn < lim ∧ (NDIRECT <= bn -> 0 <= aget addrs NDIRECT < lim)
}.

(** Only the blocks below [lim] matter. *)
Lemma readable_ext lim D D' addrs c :
  (∀ n, 0 <= n < lim -> D' n = D n) -> readable lim D addrs c -> readable lim D' addrs c.
Proof.
  intros He [Hh Hm Hr].
  assert (Hf : ∀ bn, 0 <= bn -> bn * BSIZE < Z.of_nat (length c) ->
    file_addr D' addrs bn = file_addr D addrs bn).
  { intros bn H1 H2. destruct (Hr bn H1 H2) as [_ Hi]. unfold file_addr.
    destruct (Z.ltb_spec bn NDIRECT); [done|]. rewrite He by (apply Hi; lia). done. }
  split; [|done|].
  - intros bn H1 H2. destruct (Hr bn H1 H2) as [Ha _]. rewrite (Hf bn H1 H2), He by done. by apply Hh.
  - intros bn H1 H2. rewrite (Hf bn H1 H2). by apply Hr.
Qed.
