(* ===== verification/FsRead.v ===== *)
(** * Reading files

    bmap() and readi() on an inode whose blocks are allocated, against the view
    of the buffer cache: readi() returns the bytes of the file that the disk
    holds (FsView.v), and changes nothing of the disk or of that view.  With
    MkfsImage.v: a kernel started on the image that mkfs writes reads from it
    the files that mkfs was given. *)

From Stdlib Require Import ZArith Lia.
From stdpp Require Import base numbers functions list gmap strings.
From S2P Require Import Prelude Machine Kernel Riscv Spinlock Proc Sleeplock Virtio Bio BioSpec Log LogSpec Fs FsView.

Lemma geti_ok ip x s : k_inodes s !! ip = Some x -> geti ip s = Ok x s.
Proof. intros H. unfold geti, kbind, gets, bindo. by rewrite H. Qed.

Lemma frame_inodes s s' : bio_frame s s' -> k_inodes s' = k_inodes s.
Proof. intros [E _]. by rewrite E. Qed.

(** ** Parts of a file *)

Lemma slice_slice l o n o' n' :
  0 <= o -> 0 <= o' -> (Z.to_nat o' + n' <= n)%nat -> slice o' n' (slice o n l) = slice (o + o') n' l.
Proof.
  intros H1 H2 H3. unfold slice. apply list_eq. intros i. destruct (decide (i < n')%nat).
  - rewrite !lookup_take_lt, !lookup_drop, lookup_take_lt, lookup_drop by lia. f_equal. lia.
  - by rewrite !lookup_take_ge by lia.
Qed.

Lemma slice_take l o n m : 0 <= o -> (Z.to_nat o + n <= m)%nat -> slice o n (take m l) = slice o n l.
Proof.
  intros H1 H2. unfold slice. apply list_eq. intros i. destruct (decide (i < n)%nat).
  - by rewrite !lookup_take_lt, !lookup_drop, lookup_take_lt by lia.
  - by rewrite !lookup_take_ge by lia.
Qed.

Lemma slice_app l o n m : 0 <= o -> slice o n l ++ slice (o + Z.of_nat n) m l = slice o (n + m) l.
Proof.
  intros H. unfold slice. replace (Z.to_nat (o + Z.of_nat n)) with (Z.to_nat o + n)%nat by lia.
  rewrite <- drop_drop. apply take_take_drop.
Qed.

(** Bytes [r, r + m) of part [bn], read from its block. *)
Lemma part_bytes V addrs c bn r m :
  holds_file V addrs c -> 0 <= bn -> 0 <= r -> 0 < m -> r + m <= BSIZE ->
  bn * BSIZE + r + m <= Z.of_nat (length c) ->
  slice r (Z.to_nat m) (V (file_addr V addrs bn)) = slice (bn * BSIZE + r) (Z.to_nat m) c.
Proof.
  change BSIZE with 1024. intros Hh Hbn Hr Hm Hrm Hl.
  destruct (Hh bn Hbn) as [_ Hp]; [change BSIZE with 1024; lia|].
  assert (Hlp : (Z.to_nat r + Z.to_nat m <= length (part c bn))%nat).
  { unfold part, slice. change BSIZE with 1024. rewrite length_take, length_drop.
    change (Z.to_nat 1024) with 1024%nat. lia. }
  rewrite <- (slice_take _ r (Z.to_nat m) (length (part c bn))) by lia.
  rewrite Hp. unfold part. change BSIZE with 1024. change (Z.to_nat 1024) with 1024%nat.
  apply slice_slice; lia.
Qed.

(** ** bmap() and readi() *)

Section read.
Context `{Fuel} (Hfuel : (1 <= fuel)%nat) `{Symbols} `{DL : DiskLaw} (dev : Z).
Context (h : hart) (cp : cpu) (p : nat) (px : proc) (pin : gset Z) (V : Z -> list Z).
Context (Hroom : (size pin < bcache_head)%nat).

(** The process holds no buffer, and the cache shows the blocks [V]. *)
Definition ready (s : kstate) : Prop := calm s h cp p px ∧ bcache dev (p_pid px) ∅ pin V s.

(** What reading does to the state: nothing but the use of the cache. *)
Definition same_disk (s s' : kstate) : Prop :=
  bio_frame s s' ∧ k_disk s' = k_disk s ∧ k_dhist s' = k_dhist s.

Lemma same_disk_trans s1 s2 s3 : same_disk s1 s2 -> same_disk s2 s3 -> same_disk s1 s3.
Proof.
  intros (F1 & D1 & L1) (F2 & D2 & L2). split; [by etransitivity|]. split; congruence.
Qed.

(** A buffer taken while none is held, and given back. *)
Lemma take_block n s :
  ready s -> 0 <= n < 2 ^ 31 ->
  ∃ b s1, run env (bread dev n s) = Ok b s1 ∧ calm s1 h cp p px ∧ bdata b s1 = Ok (V n) s1
    ∧ bcache dev (p_pid px) {[b := n]} pin V s1 ∧ same_disk s s1.
Proof using Hfuel Hroom.
  intros [Hc Hb] Hn.
  destruct (bread_ok Hfuel dev h cp p px ∅ pin V s n Hc Hb) as (b & s1 & E1 & _ & Hb1 & F1 & D1 & L1);
    [intros b'; by rewrite lookup_empty|done|right; by rewrite map_size_empty|].
  exists b, s1. split; [done|]. split; [by eapply frame_calm|].
  split; [eapply bdata_ok; [exact Hb1|apply lookup_insert_eq]|]. done.
Qed.

Lemma give_block b n s :
  calm s h cp p px -> bcache dev (p_pid px) {[b := n]} pin V s ->
  (n ∈ pin ∨ V n = dblock (k_disk s) n) ->
  ∃ s', brelse b s = Ok tt s' ∧ ready s' ∧ same_disk s s'.
Proof using Hfuel Hroom.
  intros Hc Hb Hcl.
  destruct (brelse_ok Hfuel dev h cp p px _ pin V s b n Hc Hb) as (s' & E & Hb' & F & D & L);
    [apply lookup_insert_eq|done|].
  change ({[b := n]} : gmap nat Z) with (<[b := n]> (∅ : gmap nat Z)) in Hb'.
  rewrite delete_insert_id in Hb' by apply lookup_empty.
  exists s'. split; [done|]. split; [split; [by eapply frame_calm|done]|done].
Qed.

Lemma ready_clean n s : ready s -> n ∈ pin ∨ V n = dblock (k_disk s) n.
Proof.
  intros [_ Hb]. destruct (decide (n ∈ pin)) as [Hp|Hp]; [by left|right].
  apply (bc_clean _ _ _ _ _ _ Hb); [done|]. intros b. by rewrite lookup_empty.
Qed.

Lemma read_block n s :
  ready s -> 0 <= n < 2 ^ 31 ->
  ∃ b s1, run env (bread dev n s) = Ok b s1 ∧ calm s1 h cp p px ∧ bdata b s1 = Ok (V n) s1
    ∧ same_disk s s1
    ∧ ∃ s2, brelse b s1 = Ok tt s2 ∧ ready s2 ∧ same_disk s s2.
Proof using Hfuel Hroom.
  intros Hr Hn. destruct (take_block n s Hr Hn) as (b & s1 & E1 & C1 & D1 & B1 & S1).
  exists b, s1. split_and!; try done.
  destruct (give_block b n s1 C1 B1) as (s2 & E2 & R2 & S2).
  { rewrite (proj1 (proj2 S1)). by apply ready_clean. }
  exists s2. split_and!; try done. by eapply same_disk_trans.
Qed.

Lemma bmap_ok ip x bn s :
  ready s -> k_inodes s !! ip = Some x -> i_dev x = dev -> 0 <= bn < MAXFILE ->
  let a := file_addr V (i_addrs x) bn in
  a <> 0 -> (NDIRECT <= bn -> 0 <= aget (i_addrs x) NDIRECT < 2 ^ 31) ->
  ∃ s', run env (bmap ip bn s) = Ok a s' ∧ ready s' ∧ same_disk s s'.
Proof using Hfuel Hroom.
  intros Hr Hx Hd Hbn a Ha Hind. unfold bmap. krun (geti_ok _ _ _ Hx).
  unfold a, file_addr in *. destruct (Z.ltb_spec bn NDIRECT) as [Hlt|Hge].
  - destruct (Z.eqb_spec (aget (i_addrs x) bn) 0); [done|]. exists s. split; [done|]. by split.
  - destruct (Z.ltb_spec (bn - NDIRECT) NINDIRECT); [|unfold MAXFILE in Hbn; lia].
    destruct (Z.eqb_spec (aget (i_addrs x) NDIRECT) 0) as [|Hn]; [done|].
    rewrite (bind_ok _ _ _ (aget (i_addrs x) NDIRECT) s eq_refl).
    destruct (Z.eqb_spec (aget (i_addrs x) NDIRECT) 0); [done|]. rewrite Hd. unfold bmap_entry.
    destruct (read_block _ s Hr (Hind Hge)) as (b & s1 & E1 & _ & Ed & _ & s2 & E2 & R2 & S2).
    rewrite (run_bind _ _ _ _ _ _ E1). krun Ed.
    destruct (Z.eqb_spec (get_addr (bn - NDIRECT) (V (aget (i_addrs x) NDIRECT))) 0); [done|].
    rewrite (bind_ok _ _ _ (get_addr (bn - NDIRECT) (V (aget (i_addrs x) NDIRECT))) s1 eq_refl).
    krun E2. by exists s2.
Qed.

Section inode.
Context (ip : nat) (x : inode) (c : list Z).
Hypothesis Hdev : i_dev x = dev.
Context (lim : Z) (Hlim : lim <= 2 ^ 31).
Hypothesis Hread : readable lim V (i_addrs x) c.

(** One round of readi()'s loop, into a buffer of the kernel. *)
Lemma readi_round n tot off got s :
  ready s -> k_inodes s !! ip = Some x ->
  0 <= tot < n -> n < 2 ^ 32 -> 0 <= off -> off + (n - tot) <= Z.of_nat (length c) ->
  let m := Z.min (n - tot) (BSIZE - off mod BSIZE) in
  ∃ s', run env (readi_body ip n (tot, off, D_local, got) s)
      = Ok (inl (tot + m, off + m, D_local, got ++ slice off (Z.to_nat m) c)) s'
    ∧ ready s' ∧ same_disk s s'.
Proof using Hfuel Hroom Hdev Hlim Hread.
  intros Hr Hx Ht Hn32 Hoff Hlen m. destruct Hread as [Hh Hmax Hrange].
  change (MAXFILE * BSIZE) with 274432 in Hmax. set (bn := off / BSIZE). set (r := off mod BSIZE) in *.
  assert (Hbr : off = bn * BSIZE + r ∧ 0 <= r < BSIZE ∧ 0 <= bn).
  { unfold bn, r. change BSIZE with 1024. zmod. }
  destruct Hbr as (Eo & Hr1 & Hbn). change BSIZE with 1024 in Eo, Hr1.
  assert (Hm : 0 < m <= n - tot ∧ r + m <= 1024) by (unfold m; change BSIZE with 1024; lia).
  destruct (Hrange bn Hbn) as [Ha Hind]; [change BSIZE with 1024; lia|].
  destruct (Hh bn Hbn) as [Hnz _]; [change BSIZE with 1024; lia|].
  destruct (bmap_ok ip x bn s Hr Hx Hdev ltac:(change MAXFILE with 268; lia) Hnz ltac:(lia)) as (s1 & E1 & R1 & S1).
  assert (Hx1 : k_inodes s1 !! ip = Some x) by (rewrite (frame_inodes _ _ (proj1 S1)); done).
  unfold readi_body. destruct (Z.ltb_spec tot n); [|lia]. cbn [negb]. fold bn.
  rewrite (run_bind _ _ _ _ _ _ E1). set (a := file_addr V (i_addrs x) bn) in *.
  destruct (Z.eqb_spec a 0); [done|]. krun (geti_ok _ _ _ Hx1). rewrite Hdev.
  destruct (read_block a s1 R1 ltac:(lia)) as (b & s2 & E2 & Hc2 & Ed & _ & s3 & E3 & R3 & S3).
  rewrite (run_bind _ _ _ _ _ _ E2). fold r. rewrite (u32_small (n - tot)) by lia. fold m.
  krun Ed. unfold a. rewrite (part_bytes V (i_addrs x) c bn r m) by (done || (change BSIZE with 1024; lia)).
  change BSIZE with 1024. rewrite <- Eo.
  assert (Ec : either_copyout D_local (slice off (Z.to_nat m) c) s2 = Ok (0, slice off (Z.to_nat m) c) s2).
  { unfold either_copyout. by krun (myproc_ok _ _ _ (c_quiet _ _ _ _ _ Hc2)). }
  krun Ec. cbn [Z.eqb]. krun E3. rewrite !u32_small by lia.
  exists s3. split; [done|]. split; [done|]. by eapply same_disk_trans.
Qed.

(** [k] rounds are enough for the rest of the bytes. *)
Lemma readi_loop k n tot off got s :
  ready s -> k_inodes s !! ip = Some x ->
  0 <= tot <= n -> n < 2 ^ 32 -> 0 <= off -> off + (n - tot) <= Z.of_nat (length c) ->
  (1 <= k)%nat -> (tot = n ∨ n - tot + off mod BSIZE <= BSIZE * (Z.of_nat k - 1)) ->
  ∃ s', run env (loop k (readi_body ip n) (tot, off, D_local, got) s)
      = Ok (n, got ++ slice off (Z.to_nat (n - tot)) c) s'
    ∧ ready s' ∧ same_disk s s'.
Proof using Hfuel Hroom Hdev Hlim Hread.
  revert tot off got s. induction k as [|k IH]; intros tot off got s Hr Hx Ht Hn32 Hoff Hlen Hk Hfit; [lia|].
  cbn [loop]. destruct (decide (tot = n)) as [->|Hne].
  { unfold readi_body at 1. destruct (Z.ltb_spec n n); [lia|]. cbn [negb].
    exists s. rewrite Z.sub_diag. cbn. rewrite app_nil_r. by split_and!. }
  destruct Hfit as [|Hfit]; [done|]. change BSIZE with 1024 in Hfit.
  pose proof (Z.mod_pos_bound off 1024 ltac:(lia)) as Hmod.
  destruct (readi_round n tot off got s Hr Hx ltac:(lia) Hn32 Hoff Hlen) as (s1 & E1 & R1 & S1).
  rewrite (run_bind _ _ _ _ _ _ E1). set (m := Z.min _ _) in *.
  assert (Hm : 0 < m <= n - tot).
  { unfold m. change BSIZE with 1024. lia. }
  destruct (IH (tot + m) (off + m) (got ++ slice off (Z.to_nat m) c) s1 R1) as (s2 & E2 & R2 & S2); try lia.
  - by rewrite (frame_inodes _ _ (proj1 S1)).
  - unfold m in *. change BSIZE with 1024 in *. destruct (Z.min_spec (n - tot) (1024 - off mod 1024)); [left; lia|right].
    assert (Em : (off + (1024 - off mod 1024)) mod 1024 = 0) by zmod. replace (Z.min _ _) with (1024 - off mod 1024) by lia.
    lia.
  - exists s2. rewrite E2. split; [|split; [done|by eapply same_disk_trans]]. f_equal. f_equal.
    rewrite <- app_assoc. f_equal. replace (off + m) with (off + Z.of_nat (Z.to_nat m)) by lia.
    rewrite slice_app by done. f_equal. lia.
Qed.

Lemma readi_ok s off n :
  ready s -> k_inodes s !! ip = Some x -> i_size x = Z.of_nat (length c) ->
  0 <= off <= i_size x -> 0 <= n -> off + n < 2 ^ 32 ->
  let m := Z.min n (i_size x - off) in
  ∃ s', run env (readi ip D_local off n s) = Ok (m, slice off (Z.to_nat m) c) s'
    ∧ ready s' ∧ same_disk s s'.
Proof using Hfuel Hroom Hdev Hlim Hread.
  intros Hr Hx Hsz Hoff Hn Hov m. pose proof (rd_max _ _ _ _ Hread) as Hmax.
  change (MAXFILE * BSIZE) with 274432 in Hmax.
  unfold readi. krun (geti_ok _ _ _ Hx). rewrite (u32_small (off + n)) by lia.
  destruct (Z.ltb_spec (i_size x) off); [lia|]. destruct (Z.ltb_spec (off + n) off); [lia|]. cbn [orb].
  assert (Em : (if i_size x <? off + n then u32 (i_size x - off) else n) = m).
  { unfold m. rewrite u32_small by lia. destruct (Z.ltb_spec (i_size x) (off + n)); lia. }
  rewrite Em.
  destruct (readi_loop (block_rounds m) m 0 off [] s Hr Hx) as (s' & E & R & Sd); try lia.
  - unfold block_rounds. lia.
  - right. unfold block_rounds. change BSIZE with 1024. pose proof (Z.mod_pos_bound off 1024 ltac:(lia)).
    assert (0 <= m) by lia. zmod.
  - rewrite (run_bind _ _ _ _ _ _ E). cbn [app]. rewrite Z.sub_0_r.
    exists s'. rewrite i32_small by lia. by split_and!.
Qed.
End inode.

(** *** ilock() of an inode that is not in memory yet *)

(** [x] with the fields of [d]. *)
Definition load_inode (d : dinode) (x : inode) : inode :=
  x <| i_type := d_type d |> <| i_major := d_major d |> <| i_minor := d_minor d |>
    <| i_nlink := d_nlink d |> <| i_size := d_size d |> <| i_addrs := d_addrs d |>.

Lemma updi_ok ip x f s :
  k_inodes s !! ip = Some x -> updi ip f s = Ok tt (s <| k_inodes ::= upd ip f |>).
Proof. intros Hx. unfold updi. by krun (geti_ok _ _ _ Hx). Qed.

Lemma ready_slock ip sl s : ready s -> ready (s <| k_slocks ::= <[SL_inode ip := sl]> |>).
Proof.
  intros [Hc Hb]. split; [by eapply calm_ext|]. destruct Hb as [B1 B2 B3 B4 B5 B6 B7 B8 B9 B10 B11 B12 B13].
  constructor; try done. intros b Hb. simpl. rewrite lookup_insert_ne by done. by apply B7.
Qed.

Lemma ilock_ok ip x name opid s :
  ready s -> k_inodes s !! ip = Some x -> i_dev x = dev -> 1 <= i_ref x -> i_valid x = 0 ->
  lock_free (L_sleep (SL_inode ip)) s -> k_slocks s !! SL_inode ip = Some (Sleeplock 0 name opid) ->
  0 <= IBLOCK (i_inum x) (k_sb s) < 2 ^ 31 ->
  let d := disk_inode V (k_sb s) (i_inum x) in
  d_type d <> 0 ->
  ∃ s', run env (ilock ip s) = Ok tt s' ∧ ready s'
    ∧ k_inodes s' !! ip = Some ((load_inode d x) <| i_valid := 1 |>)
    ∧ k_slocks s' !! SL_inode ip = Some (Sleeplock 1 name (p_pid px))
    ∧ k_disk s' = k_disk s ∧ k_dhist s' = k_dhist s.
Proof using Hfuel Hroom.
  intros Hr Hx Hd Href Hv Hlk Hsl Hn d Ht. pose proof (lookup_lt_Some _ _ _ Hx) as Hlt.
  unfold ilock. krun (geti_ok _ _ _ Hx). destruct (Z.ltb_spec (i_ref x) 1); [lia|].
  krun (acquiresleep_ok Hfuel (SL_inode ip) s h cp p px name opid (proj1 Hr) Hlk Hsl).
  set (s0 := s <| k_slocks ::= _ |>).
  assert (R0 : ready s0) by (by apply ready_slock).
  krun (geti_ok ip x s0 Hx). rewrite Hv. cbn [Z.eqb when]. rewrite bind_gets, Hd.
  destruct (take_block _ s0 R0 Hn) as (b & s1 & E1 & C1 & D1 & B1 & S1). pose proof (proj1 S1) as F1.
  rewrite (run_bind _ _ _ _ _ _ E1). krun D1. fold d.
  assert (Hx1 : k_inodes s1 !! ip = Some x) by (by rewrite (frame_inodes _ _ F1)).
  krun (updi_ok ip x (load_inode d) s1 Hx1). set (s2 := s1 <| k_inodes ::= _ |>).
  destruct (give_block b (IBLOCK (i_inum x) (k_sb s)) s2) as (s3 & E3 & R3 & F3 & D3 & L3).
  { by eapply calm_ext. }
  { by eapply bcache_ext. }
  { change (k_disk s2) with (k_disk s1). rewrite (proj1 (proj2 S1)). by apply ready_clean. }
  krun E3.
  assert (Hx3 : k_inodes s3 !! ip = Some (load_inode d x)).
  { rewrite (frame_inodes _ _ F3). change (k_inodes s2) with (upd ip (load_inode d) (k_inodes s1)).
    rewrite upd_lookup, decide_True by done. by rewrite Hx1. }
  krun (updi_ok ip _ (λ x, x <| i_valid := 1 |>) s3 Hx3). set (s4 := s3 <| k_inodes ::= _ |>).
  assert (Hx4 : k_inodes s4 !! ip = Some ((load_inode d x) <| i_valid := 1 |>)).
  { change (k_inodes s4) with (upd ip (λ x, x <| i_valid := 1 |>) (k_inodes s3)).
    rewrite upd_lookup, decide_True by done. by rewrite Hx3. }
  krun (geti_ok _ _ _ Hx4). 
  assert (Et : i_type ((load_inode d x) <| i_valid := 1 |>) = d_type d) by done. rewrite Et.
  destruct (Z.eqb_spec (d_type d) 0); [done|]. exists s4. split; [done|]. split_and!; try done.
  - split; [by eapply calm_ext; [apply R3|..]|by eapply bcache_ext; [apply R3|..]].
  - change (k_slocks s4) with (k_slocks s3). rewrite (bf_inode _ _ F3).
    change (k_slocks s2) with (k_slocks s1). rewrite (bf_inode _ _ F1).
    change (k_slocks s0) with (<[SL_inode ip := Sleeplock 1 name (p_pid px)]> (k_slocks s)).
    apply lookup_insert_eq.
  - change (k_disk s4) with (k_disk s3). rewrite D3. exact (proj1 (proj2 S1)).
  - change (k_dhist s4) with (k_dhist s3). rewrite L3. exact (proj2 (proj2 S1)).
Qed.

(** An inode locked for the first time, and read from. *)
Lemma ilock_readi_ok ip x name opid c lim s off n :
  ready s -> k_inodes s !! ip = Some x -> i_dev x = dev -> 1 <= i_ref x -> i_valid x = 0 ->
  lock_free (L_sleep (SL_inode ip)) s -> k_slocks s !! SL_inode ip = Some (Sleeplock 0 name opid) ->
  0 <= IBLOCK (i_inum x) (k_sb s) < 2 ^ 31 ->
  let d := disk_inode V (k_sb s) (i_inum x) in
  d_type d <> 0 -> readable lim V (d_addrs d) c -> lim <= 2 ^ 31 -> d_size d = Z.of_nat (length c) ->
  0 <= off <= d_size d -> 0 <= n -> off + n < 2 ^ 32 ->
  let m := Z.min n (d_size d - off) in
  ∃ s', run env ((ilock ip ;; readi ip D_local off n) s) = Ok (m, slice off (Z.to_nat m) c) s'
    ∧ ready s' ∧ k_slocks s' !! SL_inode ip = Some (Sleeplock 1 name (p_pid px))
    ∧ k_disk s' = k_disk s ∧ k_dhist s' = k_dhist s.
Proof using Hfuel Hroom.
  intros Hr Hx Hd Href Hv Hlk Hsl Hn d Ht Hrd Hlim Hsz Hoff Hn0 Hov m.
  destruct (ilock_ok ip x name opid s Hr Hx Hd Href Hv Hlk Hsl Hn Ht) as (s1 & E1 & R1 & X1 & L1 & D1 & W1).
  rewrite (run_bind _ _ _ _ _ _ E1). fold d in X1.
  set (x1 := (load_inode d x) <| i_valid := 1 |>) in *.
  assert (Ea : i_addrs x1 = d_addrs d) by reflexivity.
  assert (Es : i_size x1 = d_size d) by reflexivity.
  rewrite <- Ea in Hrd. rewrite <- Es in Hsz, Hoff.
  destruct (readi_ok ip x1 c Hd lim Hlim Hrd s1 off n R1 X1 Hsz Hoff Hn0 Hov)
    as (s2 & E2 & R2 & F2 & D2 & W2).
  exists s2. split; [exact E2|]. split; [done|]. split; [by rewrite (bf_inode _ _ F2)|]. split; congruence.
Qed.
End read.

(** C19: ilock() of an inode that is not in memory followed by readi() into a
    kernel buffer returns [n] bytes of the file from [off] on, or what there is
    of them: the bytes of the contents [c] that the inode on disk and the direct
    and indirect blocks it names hold, through the buffer cache and whatever
    happens while the process waits for the disk.  The inode is then locked by
    the process, no buffer is held, and neither the disk nor the contents of
    any block have changed. *)
Theorem ilock_readi `{Fuel} `{Symbols} `{DL : DiskLaw} (dev : Z) (h : hart) (cp : cpu) (p : nat) (px : proc)
    (pin : gset Z) (V : Z -> list Z) (ip : nat) (x : inode) (name : string) (opid : Z) (c : list Z)
    (lim : Z) (s : kstate) (off n : Z) :
  (1 <= fuel)%nat -> (size pin < bcache_head)%nat -> ready dev h cp p px pin V s ->
  k_inodes s !! ip = Some x -> i_dev x = dev -> 1 <= i_ref x -> i_valid x = 0 ->
  lock_free (L_sleep (SL_inode ip)) s -> k_slocks s !! SL_inode ip = Some (Sleeplock 0 name opid) ->
  0 <= IBLOCK (i_inum x) (k_sb s) < 2 ^ 31 ->
  let d := disk_inode V (k_sb s) (i_inum x) in
  d_type d <> 0 -> readable lim V (d_addrs d) c -> lim <= 2 ^ 31 -> d_size d = Z.of_nat (length c) ->
  0 <= off <= d_size d -> 0 <= n -> off + n < 2 ^ 32 ->
  let m := Z.min n (d_size d - off) in
  ∃ s', run env ((ilock ip ;; readi ip D_local off n) s) = Ok (m, slice off (Z.to_nat m) c) s'
    ∧ ready dev h cp p px pin V s'
    ∧ k_slocks s' !! SL_inode ip = Some (Sleeplock 1 name (p_pid px))
    ∧ k_disk s' = k_disk s ∧ k_dhist s' = k_dhist s.
Proof. intros Hf Hroom. by apply ilock_readi_ok. Qed.

(** ** An example: a mounted disk *)

(** The buffer cache initialised on the disk [d] with superblock [sb], and
    entry 0 of the inode table for inode [inum]. *)
Definition ex_mounted (d : gmap Z (list Z)) (sb : superblock) (inum : Z) : kstate :=
  (end_state (binit ((ex_running [L_vdisk; L_log; L_itable; L_sleep (SL_inode 0)] []) <| k_disk := d |>)))
    <| k_sb := sb |>
    <| k_inodes ::= upd 0 (λ x, x <| i_dev := 1 |> <| i_inum := inum |> <| i_ref := 1 |>) |>
    <| k_slocks ::= <[SL_inode 0 := Sleeplock 0 "inode" 0]> |>.

Lemma ex_mounted_ok d sb inum :
  (∀ n, length (dblock d n) = Z.to_nat BSIZE) ->
  let s := ex_mounted d sb inum in
  ready (DL := sync_law) 1 (zero_hart 0) ex_cpu 0 ex_proc ∅ (dblock d) s
  ∧ k_inodes s !! 0%nat = Some (Inode 1 inum 1 0 0 0 0 0 0 (replicate 13 0))
  ∧ lock_free (L_sleep (SL_inode 0)) s ∧ k_slocks s !! SL_inode 0 = Some (Sleeplock 0 "inode" 0)
  ∧ k_sb s = sb ∧ lock_free L_log s ∧ k_disk s = d ∧ lock_free L_itable s.
Proof.
  intros Hlen s. set (locks := [L_vdisk; L_log; L_itable; L_sleep (SL_inode 0)]).
  assert (Hv : L_vdisk ∈ locks) by (clear; set_solver).
  assert (Hi : L_sleep (SL_inode 0) ∈ locks) by (clear; set_solver).
  assert (Hlk : NoDup locks ∧ ∀ i, L_proc i ∉ locks).
  { split; [repeat (apply NoDup_cons; split); [set_solver..|apply NoDup_nil_2]|]. intros i Hp. set_solver. }
  set (s0 := (ex_running locks []) <| k_disk := d |>).
  assert (Hfree : ∀ l, l ∈ locks -> lock_free l s0).
  { intros l Hl. eapply lock_free_ext; [apply (ex_running_free locks []); [apply Hlk..|]|done].
    apply elem_of_app. by right. }
  assert (Hc : calm s0 (zero_hart 0) ex_cpu 0 ex_proc).
  { eapply calm_ext; [apply (ex_running_calm locks []); apply Hlk|done..]. }
  destruct (binit_ok (DL := sync_law) 1 1 s0) as (s1 & E & Hb & Es & Hl);
    [lia|reflexivity|by apply Hfree|done|exact Hlen|].
  assert (Ef : k_cur s1 = k_cur s0 ∧ k_harts s1 = k_harts s0 ∧ k_cpus s1 = k_cpus s0
    ∧ k_procs s1 = k_procs s0 ∧ k_inodes s1 = k_inodes s0) by (clear -Es; by rewrite Es).
  destruct Ef as (F1 & F2 & F3 & F4 & F5).
  assert (Hl1 : ∀ l, l <> L_bcache -> (∀ b, l <> L_sleep (SL_buf b)) -> lock_free l s0 -> lock_free l s1).
  { intros l N1 N2 [nm Hn]. exists nm. by rewrite Hl. }
  assert (R1 : ready (DL := sync_law) 1 (zero_hart 0) ex_cpu 0 ex_proc ∅ (dblock d) s1).
  { split; [|exact Hb]. eapply calm_relock; [exact Hc|done..|]. intros i Hlt.
    apply Hl1; [done..|]. by apply (pi_free _ (c_idle _ _ _ _ _ Hc)). }
  set (s2 := s1 <| k_sb := sb |>
    <| k_inodes ::= upd 0 (λ x, x <| i_dev := 1 |> <| i_inum := inum |> <| i_ref := 1 |>) |>).
  assert (R2 : ready (DL := sync_law) 1 (zero_hart 0) ex_cpu 0 ex_proc ∅ (dblock d) s2).
  { split; [by eapply calm_ext; [apply R1|..]|by eapply bcache_ext; [apply R1|..]]. }
  assert (Hs : s = s2 <| k_slocks ::= <[SL_inode 0 := Sleeplock 0 "inode" 0]> |>).
  { unfold s, ex_mounted. fold locks. fold s0. by rewrite E. }
  rewrite Hs. split; [by apply ready_slock|]. split; [|split; [|split; [apply lookup_insert_eq|split; [done|split_and!]]]].
  - change (k_inodes _) with (upd 0 (λ x, x <| i_dev := 1 |> <| i_inum := inum |> <| i_ref := 1 |>) (k_inodes s1)).
    by rewrite F5.
  - assert (Hx : lock_free (L_sleep (SL_inode 0)) s1) by (apply Hl1; [done|done|by apply Hfree]).
    clear -Hx. exact Hx.
  - assert (Hx : lock_free L_log s1) by (apply Hl1; [done|done|apply Hfree; clear; set_solver]).
    clear -Hx. exact Hx.
  - change (k_disk s1 = k_disk s0). by rewrite Es.
  - assert (Hx : lock_free L_itable s1) by (apply Hl1; [done|done|apply Hfree; clear; set_solver]).
    clear -Hx. exact Hx.
Qed.

Definition ex_dinode2 : dinode := Dinode T_FILE 0 0 1 5 (46 :: replicate 12 0).
Definition ex_files : gmap Z (list Z) :=
  <[32 := put_dinode 2 ex_dinode2 zero_block]> {[46 := splice 0 [11; 12; 13; 14; 15] zero_block]}.

Lemma ex_files_blocks n : length (dblock ex_files n) = Z.to_nat BSIZE.
Proof.
  unfold ex_files, dblock. destruct (decide (32 = n)) as [<-|]; [by vm_compute|].
  rewrite lookup_insert_ne by done. destruct (decide (46 = n)) as [<-|]; [by vm_compute|].
  rewrite lookup_singleton_ne by done. apply length_replicate.
Qed.

Lemma ilock_readi_witness :
  let H : Fuel := 1%nat in let D : DiskDriver := sync_disk in let Y : Symbols := example_symbols in
  ∃ s', run no_wait ((ilock 0 ;; readi 0 D_local 1 10) (ex_mounted ex_files ex_sb 2)) = Ok (4, [12; 13; 14; 15]) s'.
Proof.
  intros H D Y. destruct (ex_mounted_ok ex_files ex_sb 2 ex_files_blocks) as (M1 & M2 & M3 & M4 & M5 & _).
  revert M1 M2 M3 M4 M5. generalize (ex_mounted ex_files ex_sb 2). intros s M1 M2 M3 M4 M5.
  assert (Ed : disk_inode (dblock ex_files) ex_sb 2 = ex_dinode2) by (vm_compute; reflexivity).
  pose proof (ilock_readi (DL := sync_law) 1 (zero_hart 0) ex_cpu 0 ex_proc ∅ (dblock ex_files) 0 _ "inode" 0
    [11; 12; 13; 14; 15] 2000 s 1 10 ltac:(apply le_n)
    ltac:(rewrite size_empty; change bcache_head with 30%nat; lia) M1 M2) as T.
  cbn [i_dev i_ref i_valid i_inum] in T. rewrite M5, Ed in T.
  destruct T as (s' & E & _); try exact M3; try exact M4; try (simpl; lia); try reflexivity.
  - vm_compute. split; [discriminate|reflexivity].
  - discriminate.
  - split; [|done|]; intros bn H1 H2;
      (assert (bn = 0) as -> by (change BSIZE with 1024 in H2; simpl in H2; lia)).
    + split; vm_compute; [discriminate|reflexivity].
    + split; [vm_compute; split; [discriminate|reflexivity]|]. intros H3. by vm_compute in H3.
  - by exists s'.
Defined.
