(* ===== verification/FsAlloc.v ===== *)
(** * Allocating blocks in a transaction

    balloc() and bmap() with the log and the buffer cache below them: which
    blocks are in use according to the bitmap, what a file owns, and how a file
    grows by a block.  Nothing of this reaches the disk before the commit; what
    changes is what the file system reads through the cache.  The layout of the
    disk is the one mkfs makes, with one bitmap block. *)

From Stdlib Require Import ZArith Lia.
From stdpp Require Import base numbers functions list gmap strings.
From S2P Require Import Prelude Machine Kernel Riscv Spinlock Proc Sleeplock Virtio Bio BioSpec Log LogSpec.
From S2P Require Import Fs FsSpec FsView FsRead.

(** boot block, super block, log, inodes, bitmap, data *)
Record layout (st : Z) (sb : superblock) : Prop := {
  ly_log : 1 <= st ∧ st + LOGSIZE <= sb_inodestart sb;
  ly_inodes : 0 <= sb_ninodes sb ∧ sb_inodestart sb + sb_ninodes sb / IPB + 1 <= sb_bmapstart sb;
  ly_bmap : sb_bmapstart sb < sb_size sb;
  ly_size : sb_size sb <= BPB
}.

Definition data_block (sb : superblock) (b : Z) : Prop := sb_bmapstart sb < b < sb_size sb.

(** Block [b] is in use: its bit in the bitmap. *)
Definition used (V : Z -> list Z) (sb : superblock) (b : Z) : bool := bit_of (V (sb_bmapstart sb)) b.

(** Everything up to the bitmap is in use. *)
Definition meta_used (V : Z -> list Z) (sb : superblock) : Prop :=
  ∀ b, 0 <= b <= sb_bmapstart sb -> used V sb b = true.

(** At least [k] blocks are free. *)
Definition has_free (k : nat) (V : Z -> list Z) (sb : superblock) : Prop :=
  ∃ F, NoDup F ∧ (k <= length F)%nat ∧ ∀ b, b ∈ F -> 0 <= b < sb_size sb ∧ used V sb b = false.

(** What balloc() leaves when it has chosen [b]. *)
Definition allocated (V : Z -> list Z) (sb : superblock) (b : Z) : Z -> list Z :=
  <[b := zero_block]> (<[sb_bmapstart sb := set_bit b (V (sb_bmapstart sb))]> V).

(** ** The bitmap *)

Lemma BBLOCK_one st sb b : layout st sb -> 0 <= b < BPB -> BBLOCK b sb = sb_bmapstart sb.
Proof.
  intros [L1 L2 L3 L4] Hb. unfold BBLOCK. change LOGSIZE with 30 in *. change BPB with 8192 in *.
  change IPB with 16 in *. rewrite Z.div_small by done. apply u32_small. assert (0 <= sb_ninodes sb / 16) by zmod. lia.
Qed.

Lemma layout_range st sb : layout st sb -> 1 <= st ∧ st + 30 < sb_bmapstart sb < sb_size sb ∧ sb_size sb <= 8192.
Proof.
  intros [L1 L2 L3 L4]. change LOGSIZE with 30 in *. change BPB with 8192 in *. change IPB with 16 in *.
  assert (0 <= sb_ninodes sb / 16) by zmod. lia.
Qed.

Lemma free_is_data st V sb b :
  layout st sb -> meta_used V sb -> 0 <= b < sb_size sb -> used V sb b = false -> data_block sb b.
Proof.
  intros Hl Hm Hb Hu. split; [|lia]. destruct (Z.lt_ge_cases (sb_bmapstart sb) b); [done|].
  rewrite Hm in Hu by lia. done.
Qed.

Lemma data_block_out st sb b : layout st sb -> data_block sb b -> ¬ in_log st b ∧ b <> sb_bmapstart sb ∧ 0 < b < 2 ^ 31.
Proof.
  intros Hl Hb. pose proof (layout_range _ _ Hl). unfold in_log, data_block in *. change LOGSIZE with 30 in *. split; [|split]; lia.
Qed.

Lemma length_set_bit b d : length (set_bit b d) = length d.
Proof. apply length_aset. Qed.

Lemma nodup_length_le {A} (l k : list A) : NoDup l -> (∀ x, x ∈ l -> x ∈ k) -> (length l <= length k)%nat.
Proof. intros Hd Hs. by apply submseteq_length, NoDup_submseteq. Qed.

Section map.
Context (st : Z) (sb : superblock) (V : Z -> list Z) (b : Z).
Context (Hl : layout st sb) (Hb : data_block sb b) (Hlen : length (V (sb_bmapstart sb)) = Z.to_nat BSIZE).

Lemma allocated_bmap : allocated V sb b (sb_bmapstart sb) = set_bit b (V (sb_bmapstart sb)).
Proof using Hb.
  unfold allocated. rewrite fn_lookup_insert_ne by (clear -Hb; unfold data_block in Hb; lia). by rewrite fn_lookup_insert.
Qed.

Lemma allocated_ne n : n <> b -> n <> sb_bmapstart sb -> allocated V sb b n = V n.
Proof. intros. unfold allocated. by rewrite !fn_lookup_insert_ne by done. Qed.

Lemma allocated_eq : allocated V sb b b = zero_block.
Proof. unfold allocated. by rewrite fn_lookup_insert. Qed.

Lemma used_allocated j : 0 <= j -> used (allocated V sb b) sb j = bool_decide (j = b) || used V sb j.
Proof using Hl Hb Hlen.
  intros Hj. unfold used. rewrite allocated_bmap. pose proof (layout_range _ _ Hl). unfold data_block in Hb.
  apply bit_of_set; [|done]. rewrite Hlen. change (Z.to_nat BSIZE) with 1024%nat. lia.
Qed.

Lemma used_allocated_mono j : 0 <= j -> used V sb j = true -> used (allocated V sb b) sb j = true.
Proof using Hl Hb Hlen. intros Hj Hu. rewrite used_allocated, Hu by done. apply orb_true_r. Qed.

Lemma meta_used_allocated : meta_used V sb -> meta_used (allocated V sb b) sb.
Proof using Hl Hb Hlen. intros Hm j Hj. apply used_allocated_mono; [lia|]. by apply Hm. Qed.

(** Whichever block is taken, the others of a list of free ones stay free. *)
Lemma has_free_allocated k : has_free (S k) V sb -> has_free k (allocated V sb b) sb.
Proof using Hl Hb Hlen.
  intros (F & Hd & Hk & HF). exists (filter (.≠ b) F). split; [by apply NoDup_filter|]. split.
  - assert (length F <= length (b :: filter (.≠ b) F))%nat; [|simpl in *; lia].
    apply nodup_length_le; [done|]. intros x Hx. destruct (decide (x = b)) as [->|]; [by left|right].
    by apply list_elem_of_filter.
  - intros j Hj. apply list_elem_of_filter in Hj as [Hne Hj]. destruct (HF j Hj) as [H1 H2].
    split; [done|]. rewrite used_allocated, H2 by lia. rewrite bool_decide_false by done. done.
Qed.
End map.

(** ** The blocks of a file *)

(** [A bn] is the block with part [bn] of a file, 0 for none, and [i] its
    indirect block: all of them different, data blocks and in use. *)
Record owns (sb : superblock) (V : Z -> list Z) (A : Z -> Z) (i : Z) : Prop := {
  ow_data : ∀ j, 0 <= j < MAXFILE -> A j <> 0 -> data_block sb (A j) ∧ used V sb (A j) = true;
  ow_inj : ∀ j k, 0 <= j < MAXFILE -> 0 <= k < MAXFILE -> A j <> 0 -> A j = A k -> j = k;
  ow_ind : i <> 0 -> data_block sb i ∧ used V sb i = true;
  ow_ne : ∀ j, 0 <= j < MAXFILE -> A j <> 0 -> A j <> i
}.

Definition file_ok (sb : superblock) (V : Z -> list Z) (addrs : list Z) : Prop :=
  length addrs = 13%nat ∧ owns sb V (file_addr V addrs) (aget addrs NDIRECT).

(** The file with the blocks [addrs] has been given the block [a] for part
    [bn], if it had none: no other part has moved, nothing in use has changed
    but the bitmap and the file's own indirect block. *)
Record grown (sb : superblock) (V : Z -> list Z) (addrs : list Z) (bn a : Z)
    (V' : Z -> list Z) (addrs' : list Z) : Prop := {
  gr_addr : file_addr V' addrs' bn = a;
  gr_nz : a <> 0;
  gr_keep : file_addr V addrs bn <> 0 -> file_addr V addrs bn = a;
  gr_zero : file_addr V addrs bn = 0 -> V' a = zero_block ∧ used V sb a = false;
  gr_other : ∀ j, 0 <= j < MAXFILE -> j <> bn -> file_addr V' addrs' j = file_addr V addrs j;
  gr_ind : aget addrs NDIRECT <> 0 -> aget addrs' NDIRECT = aget addrs NDIRECT;
  gr_new : aget addrs NDIRECT = 0 -> aget addrs' NDIRECT = 0 ∨ used V sb (aget addrs' NDIRECT) = false;
  gr_ok : file_ok sb V' addrs';
  gr_used : ∀ n, 0 <= n -> used V sb n = true -> used V' sb n = true;
  gr_meta : meta_used V' sb;
  gr_same : ∀ n, 0 <= n -> used V sb n = true -> n <> sb_bmapstart sb ->
    (n = aget addrs NDIRECT -> n = 0) -> V' n = V n
}.

Lemma owns_ext sb V V' A A' i :
  (∀ j, 0 <= j < MAXFILE -> A' j = A j) -> (∀ n, data_block sb n -> used V sb n = true -> used V' sb n = true) ->
  owns sb V A i -> owns sb V' A' i.
Proof.
  intros HA HU [O1 O2 O3 O4]. split.
  - intros j Hj. rewrite HA by done. intros Hn. destruct (O1 j Hj Hn) as [D U]. auto.
  - intros j k Hj Hk. rewrite !HA by done. by apply O2.
  - intros Hi. destruct (O3 Hi) as [D U]. auto.
  - intros j Hj. rewrite HA by done. by apply O4.
Qed.

Lemma get_addr_zero k : 0 <= k < NINDIRECT -> get_addr k zero_block = 0.
Proof.
  intros Hk. change NINDIRECT with 256 in Hk. unfold get_addr, get32, slice, zero_block.
  change (Z.to_nat BSIZE) with 1024%nat. rewrite drop_replicate, take_replicate.
  replace (Nat.min 4 (1024 - Z.to_nat (4 * k))) with 4%nat by lia. done.
Qed.

Section grow.
Context (st : Z) (sb : superblock) (V : Z -> list Z) (addrs : list Z) (b : Z).
Context (Hl : layout st sb) (Hlen : ∀ n, length (V n) = Z.to_nat BSIZE) (Hm : meta_used V sb).
Context (Hok : file_ok sb V addrs) (Hb : data_block sb b) (Hfree : used V sb b = false).

(** A free block is none of the file's. *)
Lemma free_not_owned A i j : owns sb V A i -> 0 <= j < MAXFILE -> A j <> b ∧ (i <> 0 -> i <> b).
Proof using Hb Hfree Hl.
  intros Ho Hj. split.
  - intros E. destruct (ow_data _ _ _ _ Ho j Hj) as [_ U]; [|congruence].
    destruct (data_block_out _ _ _ Hl Hb). lia.
  - intros Hi E. destruct (ow_ind _ _ _ _ Ho Hi) as [_ U]. congruence.
Qed.

(** The new block becomes part [bn] ... *)
Lemma owns_part A A' i bn V' :
  owns sb V A i -> A' bn = b -> (∀ j, 0 <= j < MAXFILE -> j <> bn -> A' j = A j) ->
  (∀ n, 0 <= n -> used V' sb n = bool_decide (n = b) || used V sb n) -> owns sb V' A' i.
Proof using Hb Hfree Hl.
  intros Ho Ebn Eo Hu. pose proof (data_block_out _ _ _ Hl Hb) as (_ & _ & Hb0).
  assert (Hu1 : ∀ n, data_block sb n -> used V sb n = true -> used V' sb n = true).
  { intros n Hn Hn'. rewrite Hu, Hn' by (pose proof (data_block_out _ _ _ Hl Hn); lia). apply orb_true_r. }
  assert (Hub : used V' sb b = true) by (rewrite Hu by lia; by rewrite bool_decide_true).
  split.
  - intros j Hj Hn. destruct (decide (j = bn)) as [->|Hne]; [by rewrite Ebn|].
    rewrite Eo in Hn |- * by done. destruct (ow_data _ _ _ _ Ho j Hj Hn). auto.
  - intros j k Hj Hk Hn E. destruct (decide (j = bn)) as [->|Hj']; destruct (decide (k = bn)) as [->|Hk'].
    + done.
    + rewrite Ebn, Eo in E by done. by destruct (free_not_owned A i k Ho Hk).
    + rewrite Ebn, Eo in E by done. by destruct (free_not_owned A i j Ho Hj).
    + rewrite !Eo in E by done. rewrite Eo in Hn by done. by eapply ow_inj.
  - intros Hi. destruct (ow_ind _ _ _ _ Ho Hi). auto.
  - intros j Hj Hn. destruct (decide (j = bn)) as [->|Hj'].
    + rewrite Ebn. intros <-. destruct (free_not_owned A b bn Ho Hj) as [_ Hi]. by apply Hi; [lia|].
    + rewrite Eo in Hn |- * by done. by eapply ow_ne.
Qed.

(** ... or the indirect block. *)
Lemma owns_indirect A V' :
  owns sb V A 0 -> (∀ n, 0 <= n -> used V' sb n = bool_decide (n = b) || used V sb n) -> owns sb V' A b.
Proof using Hb Hfree Hl.
  intros Ho Hu. pose proof (data_block_out _ _ _ Hl Hb) as (_ & _ & Hb0).
  assert (Hub : used V' sb b = true) by (rewrite Hu by lia; by rewrite bool_decide_true).
  pose proof Ho as [O1 O2 O3 O4]. split; try done.
  - intros j Hj Hn. destruct (O1 j Hj Hn) as [D U]. split; [done|].
    rewrite Hu, U by (pose proof (data_block_out _ _ _ Hl D); lia). apply orb_true_r.
  - intros j Hj Hn. by apply (free_not_owned A 0 j Ho Hj).
Qed.

(** The indirect block's contents are not touched by allocating another. *)
Lemma indirect_kept : aget addrs NDIRECT <> 0 -> allocated V sb b (aget addrs NDIRECT) = V (aget addrs NDIRECT).
Proof using Hok Hb Hfree Hl.
  intros Hi. destruct (ow_ind _ _ _ _ (proj2 Hok) Hi) as [D U].
  apply allocated_ne; [intros E; congruence|]. by apply (data_block_out _ _ _ Hl D).
Qed.

Lemma grow_direct bn :
  0 <= bn < NDIRECT -> aget addrs bn = 0 -> grown sb V addrs bn b (allocated V sb b) (aset addrs bn b).
Proof using Hok Hb Hfree Hl Hlen Hm.
  intros Hbn Hz. pose proof (data_block_out _ _ _ Hl Hb) as (_ & _ & Hb0). destruct Hok as [H13 Ho].
  change NDIRECT with 12 in Hbn.
  assert (Ei : aget (aset addrs bn b) NDIRECT = aget addrs NDIRECT) by (apply aget_aset_ne; [lia|done|change NDIRECT with 12; lia]).
  assert (Ebn : file_addr (allocated V sb b) (aset addrs bn b) bn = b).
  { unfold file_addr. destruct (Z.ltb_spec bn NDIRECT); [|change NDIRECT with 12 in *; lia]. apply aget_aset_eq. lia. }
  assert (Eo : ∀ j, 0 <= j < MAXFILE -> j <> bn ->
    file_addr (allocated V sb b) (aset addrs bn b) j = file_addr V addrs j).
  { intros j Hj Hne. unfold file_addr. destruct (Z.ltb_spec j NDIRECT); [apply aget_aset_ne; lia|]. rewrite Ei.
    destruct (Z.eqb_spec (aget addrs NDIRECT) 0); [done|]. by rewrite indirect_kept. }
  split; try done; try lia.
  - unfold file_addr. destruct (Z.ltb_spec bn NDIRECT); [lia|change NDIRECT with 12 in *; lia].
  - intros _. split; [apply allocated_eq|done].
  - split; [by rewrite length_aset|]. rewrite Ei. eapply owns_part; [done|done|done|].
    intros n Hn. by eapply used_allocated.
  - intros n Hn. by eapply used_allocated_mono.
  - by eapply meta_used_allocated.
  - intros n Hn Hu Hbm _. apply allocated_ne; [|done]. intros ->. congruence.
Qed.

Lemma grow_indirect :
  aget addrs NDIRECT = 0 ->
  let V' := allocated V sb b in let addrs' := aset addrs NDIRECT b in
  file_ok sb V' addrs' ∧ aget addrs' NDIRECT = b
  ∧ ∀ j, 0 <= j < MAXFILE -> file_addr V' addrs' j = file_addr V addrs j.
Proof using Hok Hb Hfree Hl Hlen.
  intros Hz V' addrs'. destruct Hok as [H13 Ho]. rewrite Hz in Ho.
  pose proof (data_block_out _ _ _ Hl Hb) as (_ & _ & Hb0).
  assert (Ei : aget addrs' NDIRECT = b) by (apply aget_aset_eq; change NDIRECT with 12; lia).
  assert (Eo : ∀ j, 0 <= j < MAXFILE -> file_addr V' addrs' j = file_addr V addrs j).
  { intros j Hj. unfold file_addr. rewrite Ei, Hz.
    destruct (Z.ltb_spec j NDIRECT); [apply aget_aset_ne; [done|lia|lia]|]. cbn [Z.eqb].
    destruct (Z.eqb_spec b 0); [lia|]. unfold V'. rewrite allocated_eq. apply get_addr_zero.
    unfold MAXFILE in Hj. lia. }
  split; [|done]. split; [by unfold addrs'; rewrite length_aset|]. rewrite Ei.
  eapply owns_ext; [exact Eo|intros n _ Hn; exact Hn|]. eapply owns_indirect; [done|].
  intros n Hn. by eapply used_allocated.
Qed.

Lemma grow_entry bn :
  let i := aget addrs NDIRECT in
  NDIRECT <= bn < MAXFILE -> i <> 0 -> get_addr (bn - NDIRECT) (V i) = 0 ->
  grown sb V addrs bn b (<[i := set_addr (bn - NDIRECT) b (V i)]> (allocated V sb b)) addrs.
Proof using Hok Hb Hfree Hl Hlen Hm.
  intros i Hbn Hi Hz. pose proof (data_block_out _ _ _ Hl Hb) as (_ & _ & Hb0). destruct Hok as [H13 Ho].
  change MAXFILE with 268 in Hbn. change NDIRECT with 12 in *. destruct (ow_ind _ _ _ _ Ho Hi) as [Di Ui]. fold i in Di, Ui.
  pose proof (data_block_out _ _ _ Hl Di) as (_ & Nbm & Hi0). assert (Nib : i <> b) by (intros E; congruence).
  set (V' := <[i := _]> _).
  assert (Hu : ∀ n, 0 <= n -> used V' sb n = bool_decide (n = b) || used V sb n).
  { intros n Hn. unfold used at 1, V'. rewrite fn_lookup_insert_ne by done. by eapply used_allocated. }
  assert (Ebn : file_addr V' addrs bn = b).
  { unfold file_addr. change NDIRECT with 12. destruct (Z.ltb_spec bn 12); [lia|]. fold i.
    destruct (Z.eqb_spec i 0); [done|]. unfold V', get_addr, set_addr. rewrite fn_lookup_insert.
    rewrite get32_set32_eq; [apply u32_small; lia|lia|]. rewrite Hlen. change (Z.to_nat BSIZE) with 1024%nat. lia. }
  assert (Eo : ∀ j, 0 <= j < MAXFILE -> j <> bn -> file_addr V' addrs j = file_addr V addrs j).
  { intros j Hj Hne. change MAXFILE with 268 in Hj. unfold file_addr. change NDIRECT with 12.
    destruct (Z.ltb_spec j 12); [done|]. fold i. destruct (Z.eqb_spec i 0); [done|].
    unfold V', get_addr, set_addr. rewrite fn_lookup_insert. apply get32_set32_ne; [lia|lia| |lia].
    rewrite Hlen. change (Z.to_nat BSIZE) with 1024%nat. lia. }
  assert (Ezero : file_addr V addrs bn = 0).
  { unfold file_addr. change NDIRECT with 12. destruct (Z.ltb_spec bn 12); [lia|]. fold i. by destruct (Z.eqb_spec i 0). }
  split; try done; try lia.
  - intros _. unfold V'. by rewrite fn_lookup_insert_ne, allocated_eq.
  - split; [done|]. by eapply owns_part.
  - intros n Hn Hn'. rewrite Hu, Hn' by done. apply orb_true_r.
  - intros n Hn. rewrite Hu, Hm by lia. apply orb_true_r.
  - intros n Hn Hu' Hbm Hni. unfold V'. rewrite fn_lookup_insert_ne by (intros <-; by apply Hi, Hni). apply allocated_ne; [|done]. intros ->. congruence.
Qed.

(** The two steps of a file that gets its indirect block and the first entry of it. *)
Lemma grown_after_indirect V' addrs' bn a :
  aget addrs NDIRECT = 0 -> 0 <= bn < MAXFILE ->
  grown sb (allocated V sb b) (aset addrs NDIRECT b) bn a V' addrs' -> grown sb V addrs bn a V' addrs'.
Proof using Hok Hb Hfree Hl Hlen.
  intros Hz Hbn [G1 G2 G3 G4 G5 G6 Gn G7 G8 G9 G10]. destruct (grow_indirect Hz) as (_ & Ei & Eo).
  pose proof (data_block_out _ _ _ Hl Hb) as (_ & _ & Hb0).
  assert (Mono : ∀ n, 0 <= n -> used V sb n = true -> used (allocated V sb b) sb n = true).
  { intros n Hn. by eapply used_allocated_mono. }
  assert (Da : data_block sb a).
  { destruct G7 as [_ O]. rewrite <- G1. apply (ow_data _ _ _ _ O bn Hbn). by rewrite G1. }
  pose proof (data_block_out _ _ _ Hl Da) as (_ & _ & Ha0).
  split; try done.
  - by rewrite <- Eo.
  - rewrite <- Eo by done. intros E. destruct (G4 E) as [Z1 Z2]. split; [done|].
    destruct (used V sb a) eqn:Eu; [|done]. rewrite Mono in Z2 by (done || lia). done.
  - intros j Hj Hne. by rewrite G5, Eo.
  - intros _. right. rewrite G6 by (rewrite Ei; lia). by rewrite Ei.
  - intros n Hn Hu. by apply G8, Mono.
  - intros n Hn Hu Hbm _. rewrite Ei in G10. rewrite G10; [|done|by apply Mono|done|intros ->; congruence].
    apply allocated_ne; [|done]. intros ->. congruence.
Qed.
End grow.

Lemma grown_same sb V addrs bn :
  file_ok sb V addrs -> meta_used V sb -> file_addr V addrs bn <> 0 ->
  grown sb V addrs bn (file_addr V addrs bn) V addrs.
Proof. intros Hok Hm Hn. split; try done. by left. Qed.

(** ** balloc() *)

Lemma frame_sb s s' : log_frame s s' -> k_sb s' = k_sb s.
Proof. intros F. exact (f_equal k_sb (bf_eq _ _ (lf_bio _ _ F))). Qed.

Lemma log_frame_inodes s s' : log_frame s s' -> k_inodes s' = k_inodes s.
Proof. intros F. exact (f_equal k_inodes (bf_eq _ _ (lf_bio _ _ F))). Qed.

Lemma room_frame k bs s s' : log_frame s s' -> tx_room k bs s -> tx_room k bs s'.
Proof. intros F. unfold tx_room. by rewrite (lf_size _ _ F). Qed.

(** ** bmap() *)

(** The transaction has changed only blocks of [bs0], the bitmap, the file's
    indirect block and [k - 1] others. *)
Definition spent (sb : superblock) (bs0 : list Z) (k : nat) (addrs bs : list Z) : Prop :=
  ∃ L, sb_bmapstart sb ∈ L ∧ (aget addrs NDIRECT <> 0 -> aget addrs NDIRECT ∈ L)
    ∧ (length L <= k + if (aget addrs NDIRECT =? 0)%Z then 0 else 1)%nat
    ∧ ∀ m, m ∈ bs -> m ∈ bs0 ++ L.

(** The blocks that [k] new parts of the file take. *)
Definition need (addrs : list Z) (k : nat) : nat := (k + if (aget addrs NDIRECT =? 0)%Z then 1 else 0)%nat.

(** What an operation on the file of inode [ip] leaves alone. *)
Record file_frame (ip : nat) (s s' : kstate) : Prop := {
  ff_log : log_frame s (s' <| k_inodes := k_inodes s |>);
  ff_inodes : ∀ j, j <> ip -> k_inodes s' !! j = k_inodes s !! j
}.

#[global] Instance file_frame_trans ip : Transitive (file_frame ip).
Proof.
  intros s1 s2 s3 [[[B1 I1] S1 O1 D1 L1] F1] [[[B2 I2] S2 O2 D2 L2] F2]. simpl in *.
  split; [|intros j Hj; by rewrite F2, F1]. split; simpl; [|congruence..].
  split; [|intros i; by rewrite <- I1, <- I2].
  keq; match goal with |- ?f _ = _ => etrans; [exact (f_equal f B2)|exact (f_equal f B1)] end.
Qed.

Lemma log_file_frame ip s s' : log_frame s s' -> file_frame ip s s'.
Proof.
  intros F. pose proof (log_frame_inodes _ _ F) as E. split; [|by rewrite E].
  replace (s' <| k_inodes := k_inodes s |>) with s'; [done|]. rewrite <- E. by keq.
Qed.

Lemma updi_file_frame ip f s : file_frame ip s (s <| k_inodes ::= upd ip f |>).
Proof.
  split; [|intros j Hj; simpl; rewrite upd_lookup; by rewrite decide_False].
  replace (s <| k_inodes ::= upd ip f |> <| k_inodes := k_inodes s |>) with s; [done|by keq].
Qed.

Lemma tx_add_same bs n : n ∈ bs -> tx_add bs n = bs.
Proof. intros Hn. unfold tx_add. by rewrite decide_True. Qed.

Lemma nodup_tx_add bs n : NoDup bs -> NoDup (tx_add bs n).
Proof.
  intros Hd. unfold tx_add. case_decide; [done|]. apply NoDup_app. split; [done|]. split; [|apply NoDup_singleton].
  intros x Hx ->%list_elem_of_singleton. done.
Qed.

Section spent.
Context (sb : superblock) (bs0 : list Z) (k : nat) (addrs bs : list Z) (Hs : spent sb bs0 k addrs bs).

Lemma spent_room s :
  NoDup bs -> Z.of_nat (length bs0 + k) + 2 <= lg_size (k_log s) - 1 -> tx_room 1 bs s.
Proof using Hs.
  intros Hd Hc. destruct Hs as (L & _ & _ & HL & Hsub). pose proof (nodup_length_le bs _ Hd Hsub) as Hle.
  rewrite length_app in Hle. unfold tx_room. destruct (aget addrs NDIRECT =? 0); lia.
Qed.

Lemma spent_bitmap : spent sb bs0 k addrs (tx_add bs (sb_bmapstart sb)).
Proof using Hs.
  destruct Hs as (L & H1 & H2 & H3 & H4). exists L. split_and!; try done.
  intros m [->|Hm]%tx_add_elem; [apply elem_of_app; by right|by apply H4].
Qed.

Lemma spent_own : aget addrs NDIRECT <> 0 -> spent sb bs0 k addrs (tx_add bs (aget addrs NDIRECT)).
Proof using Hs.
  intros Hi. destruct Hs as (L & H1 & H2 & H3 & H4). exists L. split_and!; try done.
  intros m [->|Hm]%tx_add_elem; [apply elem_of_app; right; by apply H2|by apply H4].
Qed.

Lemma spent_more a : spent sb bs0 (S k) addrs (tx_add bs a).
Proof using Hs.
  destruct Hs as (L & H1 & H2 & H3 & H4). exists (L ++ [a]). split_and!.
  - apply elem_of_app. by left.
  - intros Hi. apply elem_of_app. left. by apply H2.
  - rewrite length_app. simpl. lia.
  - intros m [->|Hm]%tx_add_elem; rewrite app_assoc; apply elem_of_app; [right; by apply list_elem_of_singleton|].
    left. by apply H4.
Qed.

Lemma spent_indirect addrs' :
  aget addrs NDIRECT = 0 -> aget addrs' NDIRECT <> 0 ->
  spent sb bs0 k addrs' (tx_add bs (aget addrs' NDIRECT)).
Proof using Hs.
  intros Hz Hn. destruct Hs as (L & H1 & H2 & H3 & H4). exists (L ++ [aget addrs' NDIRECT]). split_and!.
  - apply elem_of_app. by left.
  - intros Hi. apply elem_of_app. right. by apply list_elem_of_singleton.
  - rewrite length_app. rewrite Hz in H3. destruct (Z.eqb_spec (aget addrs' NDIRECT) 0); [done|]. simpl in *. lia.
  - intros m [->|Hm]%tx_add_elem; rewrite app_assoc; apply elem_of_app; [right; by apply list_elem_of_singleton|].
    left. by apply H4.
Qed.
End spent.

Lemma spent_ext sb bs0 k addrs addrs' bs :
  aget addrs' NDIRECT = aget addrs NDIRECT -> spent sb bs0 k addrs bs -> spent sb bs0 k addrs' bs.
Proof. intros E. unfold spent. by rewrite E. Qed.

Lemma has_free_ext k V V' sb :
  V' (sb_bmapstart sb) = V (sb_bmapstart sb) -> has_free k V sb -> has_free k V' sb.
Proof. intros E. unfold has_free, used. by rewrite E. Qed.

Lemma has_free_mono k k' V sb : (k <= k')%nat -> has_free k' V sb -> has_free k V sb.
Proof. intros Hk (F & H1 & H2 & H3). exists F. split; [done|]. split; [lia|done]. Qed.

Section alloc.
Context `{Fuel} (Hfuel : (1 <= fuel)%nat) `{Symbols} `{DL : DiskLaw} (dev st : Z).
Context (h : hart) (cp : cpu) (p : nat) (px : proc) (sb : superblock) (Hly : layout st sb).
Abbreviation in_tx := (in_tx dev st h cp p px).
Abbreviation bm := (sb_bmapstart sb).

Lemma in_tx_cap held bs V s k : in_tx held bs V s -> tx_room k bs s -> Z.of_nat (length bs) + k <= 29.
Proof.
  intros T Hr. pose proof (tx_size _ _ _ _ _ _ _ _ _ _ T) as Hs. unfold tx_room in Hr. change LOGSIZE with 30 in Hs.
  clear -Hs Hr. lia.
Qed.

Lemma in_tx_length held bs V s n : in_tx held bs V s -> length (V n) = Z.to_nat BSIZE.
Proof. intros T. apply (bc_size _ _ _ _ _ _ (tx_cache _ _ _ _ _ _ _ _ _ _ T)). Qed.

Lemma bzero_ok held bs V s b :
  in_tx held bs V s -> data_block sb b -> (∀ i, held !! i <> Some b) -> (size held <= 1)%nat -> tx_room 1 bs s ->
  ∃ s', run env (bzero dev b s) = Ok tt s' ∧ in_tx held (tx_add bs b) (<[b := zero_block]> V) s' ∧ log_frame s s'.
Proof using Hfuel Hly.
  intros T Hb Hh Hs Hr. destruct (data_block_out _ _ _ Hly Hb) as (N1 & _ & N2).
  pose proof (in_tx_cap _ _ _ _ _ T Hr).
  unfold bzero. rewrite u32_small by lia.
  apply (tx_update Hfuel dev st h cp p px held bs V s b (λ _, zero_block)); try done; [lia|].
  change bcache_head with 30%nat. lia.
Qed.

Lemma balloc_ok held bs V s :
  in_tx held bs V s -> k_sb s = sb -> meta_used V sb -> has_free 1 V sb ->
  (∀ i n, held !! i = Some n -> n <> bm ∧ used V sb n = true) -> (size held <= 1)%nat ->
  tx_room 1 (tx_add bs bm) s ->
  ∃ b s', run env (balloc dev s) = Ok b s' ∧ data_block sb b ∧ used V sb b = false
    ∧ in_tx held (tx_add (tx_add bs bm) b) (allocated V sb b) s' ∧ log_frame s s'.
Proof using Hfuel Hly.
  intros T Hsb Hm (F & _ & HF & HFu) Hh Hsz Hr. pose proof (layout_range _ _ Hly) as Hra. change LOGSIZE with 30 in *.
  pose proof (tx_add_length bs bm) as Hal. pose proof (in_tx_length _ _ _ _ bm T) as Hlen.
  assert (Hr0 : tx_room 1 bs s) by (unfold tx_room in *; lia). pose proof (in_tx_cap _ _ _ _ _ T Hr0) as Hcap.
  unfold balloc. rewrite bind_gets, Hsb.
  replace (Z.to_nat ((sb_size sb + BPB - 1) / BPB)) with 1%nat by (change BPB with 8192; zmod).
  cbn [zrange seq fmap list_fmap foreach]. change ((0 + Z.of_nat 0) * BPB) with 0.
  unfold balloc_block. rewrite (BBLOCK_one _ _ _ Hly) by (change BPB with 8192; lia).
  destruct (tx_open Hfuel dev st h cp p px held bs V s bm T) as (c & s1 & E1 & Hc & T1 & D1 & _ & F1).
  { intros i Hi. by apply Hh in Hi as [? _]. }
  { lia. }
  { change bcache_head with 30%nat. lia. }
  pose proof (find_zrange (λ bi, negb (bit_of (V bm) bi)) (Z.to_nat (Z.min BPB (sb_size sb - 0))) 0) as Hf.
  destruct F as [|f0 F]; [simpl in HF; lia|]. destruct (HFu f0) as [Hf1 Hf2]; [by left|].
  change (List.find _ _) with (first_free (V bm) (Z.to_nat (Z.min BPB (sb_size sb - 0)))) in Hf.
  change BPB with 8192 in *.
  destruct (first_free (V bm) _) as [b|] eqn:Eb.
  2:{ specialize (Hf f0 ltac:(lia)). unfold used in Hf2. by rewrite Hf2 in Hf. }
  destruct Hf as (Hb1 & Hb2 & _). apply negb_true_iff in Hb2.
  assert (Hdb : data_block sb b) by (eapply free_is_data; [done|done|lia|done]).
  destruct (tx_edit Hfuel dev st h cp p px _ bs V s1 c bm (set_bit b) T1) as (s2 & E2 & T2 & F2).
  { apply lookup_insert_eq. }
  { by eapply room_frame. }
  { unfold in_log. change LOGSIZE with 30. lia. }
  { by rewrite length_set_bit. }
  destruct (tx_close Hfuel dev st h cp p px _ _ _ s2 c bm T2) as (s3 & E3 & T3 & F3);
    [apply lookup_insert_eq|left; apply tx_add_in|].
  rewrite delete_insert_id in T3 by done.
  assert (F13 : log_frame s s3) by (by do 2 (etrans; [done|])).
  destruct (bzero_ok _ _ _ s3 b T3 Hdb) as (s4 & E4 & T4 & F4).
  { intros i Hi. apply Hh in Hi as [_ Hi]. unfold used in Hi. congruence. }
  { done. }
  { by eapply room_frame. }
  exists b, s4. split; [|split; [done|]; split; [done|]; split; [exact T4|by etrans]].
  rewrite (run_bind env _ _ _ (Some b) s4); [done|].
  rewrite (run_bind env _ _ _ (Some b) s4); [done|].
  rewrite (run_bind env _ _ _ _ _ E1). krun D1. rewrite Eb, (bind_then _ _ _ _ _ E2). krun E3.
  by rewrite (run_bind env _ _ _ _ _ E4).
Qed.

Lemma in_tx_inodes held bs V s f : in_tx held bs V s -> in_tx held bs V (s <| k_inodes ::= f |>).
Proof.
  intros [T1 T2 T3 T4 T5 T6 T7]. constructor; try done.
  - by eapply calm_ext.
  - by eapply log_ok_ext.
  - by eapply bcache_ext.
Qed.

Section file.
Context (ip : nat) (x : inode) (bs0 : list Z) (Hdev : i_dev x = dev).

(** The file in the middle of a transaction. *)
Record tx_file (k f : nat) (bs : list Z) (V : Z -> list Z) (addrs : list Z) (s : kstate) : Prop := {
  tf_tx : in_tx ∅ bs V s;
  tf_sb : k_sb s = sb;
  tf_meta : meta_used V sb;
  tf_ok : file_ok sb V addrs;
  tf_spent : spent sb bs0 k addrs bs;
  tf_free : has_free (need addrs f) V sb;
  tf_inode : k_inodes s !! ip = Some (x <| i_addrs := addrs |>)
}.
(** bmap() has found or made block [a] for part [bn]. *)
Definition bmapped (k f : nat) (V : Z -> list Z) (addrs : list Z) (bn : Z) (s : kstate) (a : Z) (s' : kstate) : Prop :=
  ∃ bs' V' addrs', tx_file (S k) f bs' V' addrs' s' ∧ spent sb bs0 (S k) addrs' (tx_add bs' a)
    ∧ grown sb V addrs bn a V' addrs' ∧ file_frame ip s s'.

Lemma bmapped_intro k f V addrs bn s a s' bs' V' addrs' :
  in_tx ∅ bs' V' s' -> k_sb s' = sb -> grown sb V addrs bn a V' addrs' ->
  spent sb bs0 (S k) addrs' (tx_add bs' a) -> has_free (need addrs' f) V' sb ->
  k_inodes s' !! ip = Some (x <| i_addrs := addrs' |>) -> file_frame ip s s' -> bmapped k f V addrs bn s a s'.
Proof.
  intros T Hsb G Sp Hf Hi Ff. exists bs', V', addrs'. split_and!; try done.
  split; try done; [apply G..|]. destruct Sp as (L & S1 & S2 & S3 & S4). exists L. split_and!; try done.
  intros m Hm. apply S4, tx_add_elem. by right.
Qed.

Lemma bmapped_same k f bs V addrs s bn :
  tx_file k (S f) bs V addrs s -> file_addr V addrs bn <> 0 ->
  bmapped k f V addrs bn s (file_addr V addrs bn) s.
Proof.
  intros [T1 T2 T3 T4 T5 T6 T7] Hn. eapply bmapped_intro; [done|done|by apply grown_same|by apply spent_more|..|done|].
  - eapply has_free_mono; [|done]. unfold need. lia.
  - by apply log_file_frame.
Qed.

(** balloc() for the file, with at most the indirect block held. *)
Lemma file_balloc held k f bs V addrs s :
  in_tx held bs V s -> k_sb s = sb -> meta_used V sb -> spent sb bs0 k addrs bs -> has_free (S f) V sb ->
  (∀ i n, held !! i = Some n -> n <> bm ∧ used V sb n = true) -> (size held <= 1)%nat ->
  Z.of_nat (length bs0 + k) + 2 <= lg_size (k_log s) - 1 ->
  ∃ b s', run env (balloc dev s) = Ok b s' ∧ data_block sb b ∧ used V sb b = false ∧ 0 < b
    ∧ in_tx held (tx_add (tx_add bs bm) b) (allocated V sb b) s' ∧ log_frame s s'
    ∧ has_free f (allocated V sb b) sb ∧ spent sb bs0 k addrs (tx_add bs bm).
Proof using Hfuel Hly.
  intros T Hsb Hm Sp Hf Hh Hsz Hcap. pose proof (spent_bitmap _ _ _ _ _ Sp) as Sp'.
  destruct (balloc_ok held bs V s T Hsb Hm) as (b & s' & E & Hb & Hu & T' & F); try done.
  - eapply has_free_mono; [|done]. lia.
  - eapply spent_room; [done|apply nodup_tx_add, (tx_fine _ _ _ _ _ _ _ _ _ _ T)|done].
  - exists b, s'. pose proof (data_block_out _ _ _ Hly Hb). split_and!; try done; [lia|].
    eapply has_free_allocated; [done|done|by eapply in_tx_length|done].
Qed.

Lemma bmap_direct k f bs V addrs s bn :
  tx_file k (S f) bs V addrs s -> 0 <= bn < NDIRECT ->
  Z.of_nat (length bs0 + k) + 2 <= lg_size (k_log s) - 1 ->
  ∃ a s', run env (bmap ip bn s) = Ok a s' ∧ bmapped k f V addrs bn s a s'.
Proof using Hfuel Hly Hdev.
  intros Tf Hbn Hcap. pose proof Tf as [T Hsb Hm Hok Sp Hf Hi].
  assert (Efa : file_addr V addrs bn = aget addrs bn) by (unfold file_addr; destruct (Z.ltb_spec bn NDIRECT); [done|lia]).
  unfold bmap. krun (geti_ok _ _ _ Hi). destruct (Z.ltb_spec bn NDIRECT); [|lia].
  change (i_addrs (x <| i_addrs := addrs |>)) with addrs.
  change (i_dev (x <| i_addrs := addrs |>)) with (i_dev x). rewrite Hdev.
  destruct (Z.eqb_spec (aget addrs bn) 0) as [Hz|Hn].
  - destruct (file_balloc ∅ k (need addrs f) bs V addrs s) as (b & s1 & E1 & Hb & Hu & Hb0 & T1 & F1 & Hf1 & Sp1); try done;
      [rewrite map_size_empty; lia|].
    rewrite (run_bind env _ _ _ _ _ E1). destruct (Z.eqb_spec b 0); [lia|].
    assert (Hi1 : k_inodes s1 !! ip = Some (x <| i_addrs := addrs |>)) by (by rewrite (log_frame_inodes _ _ F1)).
    krun (updi_ok ip _ (λ x, x <| i_addrs ::= λ a, aset a bn b |>) s1 Hi1).
    exists b. eexists. split; [reflexivity|].
    assert (Ei : aget (aset addrs bn b) NDIRECT = aget addrs NDIRECT) by (apply aget_aset_ne; [lia|done|change NDIRECT with 12 in *; lia]).
    eapply (bmapped_intro _ _ _ _ _ _ _ _ _ _ (aset addrs bn b)).
    + by apply in_tx_inodes.
    + simpl. by rewrite (frame_sb _ _ F1).
    + eapply grow_direct; try done. intros m. by eapply in_tx_length.
    + rewrite (tx_add_same _ b) by apply tx_add_in. eapply spent_ext; [exact Ei|]. by apply spent_more.
    + unfold need. rewrite Ei. exact Hf1.
    + simpl. rewrite upd_lookup, decide_True by done. by rewrite Hi1.
    + etrans; [by apply log_file_frame|]. apply updi_file_frame.
  - exists (aget addrs bn), s. split; [done|]. rewrite <- Efa. eapply bmapped_same; [done|]. by rewrite Efa.
Qed.
Lemma bmap_entry_ok k f bs V addrs s bn :
  let i := aget addrs NDIRECT in
  tx_file k (S f) bs V addrs s -> NDIRECT <= bn < MAXFILE -> i <> 0 ->
  Z.of_nat (length bs0 + k) + 3 <= lg_size (k_log s) - 1 ->
  ∃ a s', run env (bmap_entry dev i (bn - NDIRECT) s) = Ok a s' ∧ bmapped k f V addrs bn s a s'.
Proof using Hfuel Hly Hdev.
  intros i Tf Hbn Hi Hcap. pose proof Tf as [T Hsb Hm Hok Sp Hf Hin]. destruct Hok as [H13 Ho].
  destruct (ow_ind _ _ _ _ Ho Hi) as [Di Ui]. destruct (data_block_out _ _ _ Hly Di) as (Nl & Nbm & Hi0). fold i in Di, Ui, Nl, Nbm, Hi0.
  assert (Hr : tx_room 1 bs s) by (eapply spent_room; [done|apply T|lia]).
  pose proof (in_tx_cap _ _ _ _ _ T Hr) as Hc29.
  assert (Efa : file_addr V addrs bn = get_addr (bn - NDIRECT) (V i)).
  { unfold file_addr. destruct (Z.ltb_spec bn NDIRECT); [lia|]. fold i. by destruct (Z.eqb_spec i 0). }
  destruct (tx_open Hfuel dev st h cp p px ∅ bs V s i T) as (c & s1 & E1 & Hc & T1 & D1 & St1 & F1).
  { intros b. by rewrite lookup_empty. }
  { lia. }
  { rewrite map_size_empty. change bcache_head with 30%nat. lia. }
  unfold bmap_entry. rewrite (run_bind env _ _ _ _ _ E1). krun D1.
  destruct (Z.eqb_spec (get_addr (bn - NDIRECT) (V i)) 0) as [Hz|Hnz].
  - destruct (file_balloc (<[c := i]> ∅) k (need addrs f) bs V addrs s1) as (b & s2 & E2 & Hb & Hu & Hb0 & T2 & F2 & Hf2 & Sp2); try done.
    { by rewrite (frame_sb _ _ F1). }
    { intros j n [[-> ->]|[_ Hj]]%lookup_insert_Some; [done|]. by rewrite lookup_empty in Hj. }
    { rewrite insert_empty, map_size_singleton. lia. }
    { rewrite (lf_size _ _ F1). lia. }
    set (V1 := allocated V sb b) in *.
    assert (Ei : V1 i = V i).
    { apply allocated_ne; [|done]. intros E. rewrite <- E in Hu. congruence. }
    pose proof (spent_more _ _ _ _ _ Sp2 b) as Sp3.
    destruct (tx_edit Hfuel dev st h cp p px _ _ V1 s2 c i (set_addr (bn - NDIRECT) b) T2) as (s3 & E3 & T3 & F3).
    { apply lookup_insert_eq. }
    { eapply spent_room; [exact Sp3|apply T2|]. rewrite (lf_size _ _ F2), (lf_size _ _ F1). lia. }
    { done. }
    { unfold set_addr. rewrite Ei, length_set32; [by eapply in_tx_length|change NDIRECT with 12 in *; lia|].
      rewrite (in_tx_length _ _ _ _ i T). change (Z.to_nat BSIZE) with 1024%nat.
      change MAXFILE with 268 in Hbn. change NDIRECT with 12 in *. lia. }
    destruct (tx_close Hfuel dev st h cp p px _ _ _ s3 c i T3) as (s4 & E4 & T4 & F4);
      [apply lookup_insert_eq|left; apply tx_add_in|].
    rewrite delete_insert_id in T4 by done. rewrite Ei in T4.
    exists b, s4. split.
    { rewrite (run_bind env _ _ _ b s3).
      - by krun E4.
      - rewrite (run_bind env _ _ _ _ _ E2). destruct (Z.eqb_spec b 0); [lia|]. cbn [negb when]. by krun E3. }
    assert (F : log_frame s s4) by (by do 3 (etrans; [done|])).
    eapply bmapped_intro; [exact T4| | | | | |by apply log_file_frame].
    + by rewrite (frame_sb _ _ F).
    + eapply grow_entry; try done. intros n. by eapply in_tx_length.
    + rewrite tx_add_same by (apply tx_add_elem; right; apply tx_add_in). by apply spent_own.
    + eapply has_free_ext; [|exact Hf2]. by rewrite fn_lookup_insert_ne.
    + by rewrite (log_frame_inodes _ _ F).
  - destruct (tx_close Hfuel dev st h cp p px _ _ _ s1 c i T1) as (s2 & E2 & T2 & F2); [apply lookup_insert_eq|done|].
    rewrite delete_insert_id in T2 by done.
    exists (get_addr (bn - NDIRECT) (V i)), s2. split; [rewrite (bind_ok _ _ _ _ s1 eq_refl); by krun E2|].
    assert (F : log_frame s s2) by (by etrans). rewrite <- Efa in *.
    eapply bmapped_intro; [exact T2| |by apply grown_same|by apply spent_more| | |by apply log_file_frame].
    + by rewrite (frame_sb _ _ F).
    + eapply has_free_mono; [|done]. unfold need. lia.
    + by rewrite (log_frame_inodes _ _ F).
Qed.
Lemma bmap_grow k f bs V addrs s bn :
  tx_file k (S f) bs V addrs s -> 0 <= bn < MAXFILE ->
  Z.of_nat (length bs0 + k) + 3 <= lg_size (k_log s) - 1 ->
  ∃ a s', run env (bmap ip bn s) = Ok a s' ∧ bmapped k f V addrs bn s a s'.
Proof using Hfuel Hly Hdev.
  intros Tf Hbn Hcap. destruct (Z.lt_ge_cases bn NDIRECT) as [Hlt|Hge]; [eapply bmap_direct; [done|lia|lia]|].
  pose proof Tf as [T Hsb Hm Hok Sp Hf Hi].
  unfold bmap. krun (geti_ok _ _ _ Hi). destruct (Z.ltb_spec bn NDIRECT); [lia|].
  destruct (Z.ltb_spec (bn - NDIRECT) NINDIRECT); [|unfold MAXFILE in Hbn; lia].
  change (i_addrs (x <| i_addrs := addrs |>)) with addrs.
  change (i_dev (x <| i_addrs := addrs |>)) with (i_dev x). rewrite Hdev.
  destruct (Z.eqb_spec (aget addrs NDIRECT) 0) as [Hz|Hn].
  2:{ rewrite (bind_ok _ _ _ _ s eq_refl). destruct (Z.eqb_spec (aget addrs NDIRECT) 0); [done|].
      eapply bmap_entry_ok; [done|lia|done|done]. }
  assert (Hf1 : has_free (S (S f)) V sb) by (unfold need in Hf; rewrite Hz in Hf; by rewrite Nat.add_comm in Hf).
  destruct (file_balloc ∅ k (S f) bs V addrs s) as (b & s1 & E1 & Hb & Hu & Hb0 & T1 & F1 & Hf2 & Sp1); try done;
    [rewrite map_size_empty; lia|lia|].
  assert (Hlen : ∀ n, length (V n) = Z.to_nat BSIZE) by (intros n; by eapply in_tx_length).
  destruct (grow_indirect st sb V addrs b Hly Hlen Hok Hb Hu Hz) as (Hok1 & Ei & _).
  set (addrs1 := aset addrs NDIRECT b) in *. set (V1 := allocated V sb b) in *.
  assert (Hi1 : k_inodes s1 !! ip = Some (x <| i_addrs := addrs |>)) by (by rewrite (log_frame_inodes _ _ F1)).
  pose proof (updi_ok ip _ (λ x, x <| i_addrs ::= λ a, aset a NDIRECT b |>) s1 Hi1) as E2.
  set (s2 := s1 <| k_inodes ::= _ |>) in E2.
  assert (Ff : file_frame ip s s2) by (etrans; [by apply log_file_frame|apply updi_file_frame]).
  assert (Tf2 : tx_file k (S f) (tx_add (tx_add bs bm) b) V1 addrs1 s2).
  { split.
    - by apply in_tx_inodes.
    - simpl. by rewrite (frame_sb _ _ F1).
    - by eapply meta_used_allocated.
    - done.
    - replace (tx_add (tx_add bs bm) b) with (tx_add (tx_add bs bm) (aget addrs1 NDIRECT)) by (by rewrite Ei). eapply spent_indirect; [exact Sp1|done|rewrite Ei; lia].
    - unfold need. rewrite Ei. destruct (Z.eqb_spec b 0); [lia|]. by rewrite Nat.add_0_r.
    - simpl. rewrite upd_lookup, decide_True by done. by rewrite Hi1. }
  destruct (bmap_entry_ok k f _ V1 addrs1 s2 bn Tf2) as (a & s3 & E3 & (bs' & V' & addrs' & Tf3 & Sp3 & G3 & Ff3)).
  { lia. }
  { rewrite Ei. lia. }
  { change (k_log s2) with (k_log s1). by rewrite (lf_size _ _ F1). }
  exists a, s3. split.
  - rewrite (run_bind env _ _ _ b s2).
    + destruct (Z.eqb_spec b 0); [lia|]. by rewrite Ei in E3.
    + rewrite (run_bind env _ _ _ _ _ E1). destruct (Z.eqb_spec b 0); [lia|]. cbn [negb when]. by krun E2.
  - exists bs', V', addrs'. split; [done|]. split; [done|]. split; [by eapply grown_after_indirect|by etrans].
Qed.
End file.
End alloc.
