(* ===== verification/FsWrite.v ===== *)
(** * Writing files

    writei() in a transaction: the contents of the file become those it had
    with the bytes written over them or added at the end, block after block
    through bmap() and the log; what other files and inodes hold stays.  A crash
    at any moment of the commit leaves the old file or the new one. *)

From Stdlib Require Import ZArith Lia.
From stdpp Require Import base numbers functions list gmap strings.
From S2P Require Import Prelude Machine Kernel Riscv Spinlock Proc Sleeplock Virtio Bio BioSpec Log LogSpec.
From S2P Require Import Fs FsSpec FsView FsRead FsAlloc.

(** ** Contents *)

(** The block of part [bn] has the bytes of [c] from [bn * BSIZE] on. *)
Definition part_at (D : Z -> list Z) (a bn : Z) (c : list Z) : Prop :=
  ∀ i : nat, Z.of_nat i < BSIZE -> bn * BSIZE + Z.of_nat i < Z.of_nat (length c) ->
    D a !! i = c !! Z.to_nat (bn * BSIZE + Z.of_nat i).

Lemma part_lookup c bn i :
  0 <= bn -> Z.of_nat i < BSIZE -> part c bn !! i = c !! Z.to_nat (bn * BSIZE + Z.of_nat i).
Proof.
  intros Hb Hi. unfold part, slice. rewrite lookup_take_lt by lia. rewrite lookup_drop. f_equal.
  change BSIZE with 1024 in *. lia.
Qed.

Lemma holds_parts D addrs c :
  holds_file D addrs c <->
  ∀ bn, 0 <= bn -> bn * BSIZE < Z.of_nat (length c) ->
    file_addr D addrs bn <> 0 ∧ part_at D (file_addr D addrs bn) bn c.
Proof.
  unfold holds_file, part_at. split; intros Hh bn H1 H2; destruct (Hh bn H1 H2) as [H3 H4]; (split; [done|]).
  - intros i Hi Hl. rewrite <- part_lookup, <- H4 by done. symmetry. apply lookup_take_lt.
    unfold part, slice. rewrite length_take, length_drop. change BSIZE with 1024 in *. change (Z.to_nat 1024) with 1024%nat. lia.
  - apply list_eq. intros i. destruct (decide (i < length (part c bn))%nat) as [Hi|Hi].
    + rewrite lookup_take_lt by done. unfold part, slice in Hi. rewrite length_take, length_drop in Hi.
      change BSIZE with 1024 in *. change (Z.to_nat 1024) with 1024%nat in *.
      rewrite H4 by lia. rewrite part_lookup by (change BSIZE with 1024; lia). done.
    + rewrite lookup_take_ge by lia. symmetry. apply lookup_ge_None. lia.
Qed.

(** [splice] at or before the end of a list. *)
Lemma splice_grow_lookup off b l i :
  (Z.to_nat off <= length l)%nat ->
  splice off b l !! i =
    if decide (Z.to_nat off <= i < Z.to_nat off + length b)%nat then b !! (i - Z.to_nat off)%nat else l !! i.
Proof.
  intros H. unfold splice. destruct (decide (i < Z.to_nat off)%nat) as [Hi|Hi].
  - rewrite lookup_app_l by (rewrite length_take; lia). rewrite lookup_take_lt by lia.
    by rewrite decide_False by lia.
  - rewrite lookup_app_r by (rewrite length_take; lia). rewrite length_take, Nat.min_l by lia.
    case_decide.
    + by rewrite lookup_app_l by lia.
    + rewrite lookup_app_r by lia. rewrite lookup_drop. f_equal. lia.
Qed.

Lemma length_splice_grow off b l :
  (Z.to_nat off <= length l)%nat -> length (splice off b l) = Nat.max (length l) (Z.to_nat off + length b).
Proof. intros H. unfold splice. rewrite !length_app, length_take, length_drop. lia. Qed.

(** Two writes one after the other are one. *)
Lemma splice_splice off b1 b2 l :
  0 <= off -> (Z.to_nat off <= length l)%nat ->
  splice (off + Z.of_nat (length b1)) b2 (splice off b1 l) = splice off (b1 ++ b2) l.
Proof.
  intros H0 H. apply list_eq. intros i.
  rewrite splice_grow_lookup by (rewrite length_splice_grow by done; lia).
  rewrite !splice_grow_lookup, length_app by done. repeat case_decide; try lia.
  - rewrite lookup_app_r by lia. f_equal. lia.
  - by rewrite lookup_app_l by lia.
  - done.
Qed.

Lemma file_addr_ext D D' addrs bn :
  D' (aget addrs NDIRECT) = D (aget addrs NDIRECT) -> file_addr D' addrs bn = file_addr D addrs bn.
Proof. intros E. unfold file_addr. by rewrite E. Qed.

(** ** What a file owns, and what is left of the rest *)

Definition in_file (V : Z -> list Z) (addrs : list Z) (n : Z) : Prop :=
  n <> 0 ∧ (n = aget addrs NDIRECT ∨ ∃ j, 0 <= j < MAXFILE ∧ n = file_addr V addrs j).

(** From [V] to [V'] only the file and the bitmap have changed, and the blocks
    the file has gained were free. *)
Record rewritten (sb : superblock) (V : Z -> list Z) (addrs : list Z) (V' : Z -> list Z) (addrs' : list Z) : Prop := {
  rw_used : ∀ n, 0 <= n -> used V sb n = true -> used V' sb n = true;
  rw_files : ∀ n, in_file V' addrs' n -> in_file V addrs n ∨ used V sb n = false;
  rw_same : ∀ n, 0 <= n -> used V sb n = true -> n <> sb_bmapstart sb -> ¬ in_file V addrs n -> V' n = V n
}.

Lemma rewritten_refl sb V addrs : rewritten sb V addrs V addrs.
Proof. split; try done. intros n Hn. by left. Qed.

Lemma in_file_range st sb V addrs n : layout st sb -> file_ok sb V addrs -> in_file V addrs n -> data_block sb n ∧ used V sb n = true.
Proof.
  intros Hl [_ Ho] [Hn [->|(j & Hj & ->)]]; [by apply (ow_ind _ _ _ _ Ho)|by apply (ow_data _ _ _ _ Ho)].
Qed.

Lemma rewritten_trans st sb V1 a1 V2 a2 V3 a3 :
  layout st sb -> file_ok sb V3 a3 -> rewritten sb V1 a1 V2 a2 -> rewritten sb V2 a2 V3 a3 -> rewritten sb V1 a1 V3 a3.
Proof.
  intros Hl Hok [U1 F1 S1] [U2 F2 S2]. split.
  - auto.
  - intros n Hn. destruct (in_file_range _ _ _ _ _ Hl Hok Hn) as [Hd _].
    destruct (F2 n Hn) as [Hn2|Hn2]; [by apply F1|right].
    destruct (used V1 sb n) eqn:E; [|done]. rewrite U1 in Hn2 by (done || (destruct (data_block_out _ _ _ Hl Hd); lia)). done.
  - intros n Hn Hu Hb Hi. rewrite S2; [by apply S1|done|by apply U1|done|].
    intros [Hx|Hx]%F1; [done|congruence].
Qed.

(** ** One block *)

Section step.
Context (st : Z) (sb : superblock) (V V' : Z -> list Z) (addrs addrs' : list Z) (bn a : Z) (c : list Z).
Context (Hl : layout st sb) (Hok : file_ok sb V addrs) (Hbn : 0 <= bn < MAXFILE).
Context (G : grown sb V addrs bn a V' addrs') (Hlen : length (V' a) = Z.to_nat BSIZE).
Context (r : Z) (b : list Z) (Hr : 0 <= r) (Hrb : r + Z.of_nat (length b) <= BSIZE).
Abbreviation off := (bn * BSIZE + r).
Abbreviation V'' := (<[a := splice r b (V' a)]> V').

Lemma step_ne_ind : a <> aget addrs' NDIRECT.
Proof using Hbn G.
  destruct (gr_ok _ _ _ _ _ _ _ G) as [_ O]. rewrite <- (gr_addr _ _ _ _ _ _ _ G).
  apply (ow_ne _ _ _ _ O bn Hbn). rewrite (gr_addr _ _ _ _ _ _ _ G). apply G.
Qed.

Lemma step_addr j : file_addr V'' addrs' j = file_addr V' addrs' j.
Proof using Hbn G. apply file_addr_ext. apply fn_lookup_insert_ne, step_ne_ind. Qed.

Lemma step_data : data_block sb a.
Proof using Hbn G.
  destruct (gr_ok _ _ _ _ _ _ _ G) as [_ O]. rewrite <- (gr_addr _ _ _ _ _ _ _ G).
  apply (ow_data _ _ _ _ O bn Hbn). rewrite (gr_addr _ _ _ _ _ _ _ G). apply G.
Qed.

(** A block of the old file is still there. *)
Lemma step_same j : 0 <= j < MAXFILE -> file_addr V addrs j <> 0 -> V' (file_addr V addrs j) = V (file_addr V addrs j).
Proof using Hl Hok G.
  intros Hj Hn. destruct Hok as [_ O]. destruct (ow_data _ _ _ _ O j Hj Hn) as [D U].
  destruct (data_block_out _ _ _ Hl D) as (_ & N1 & N2). apply (gr_same _ _ _ _ _ _ _ G); [clear -N2; lia|done|done|].
  intros E. by destruct (ow_ne _ _ _ _ O j Hj Hn).
Qed.

Lemma step_used n : used V'' sb n = used V' sb n.
Proof using Hl Hbn G.
  unfold used. rewrite fn_lookup_insert_ne; [done|]. intros E. destruct (data_block_out _ _ _ Hl step_data) as (_ & ? & _). done.
Qed.

Lemma step_ok : file_ok sb V'' addrs'.
Proof using Hl Hbn G.
  destruct (gr_ok _ _ _ _ _ _ _ G) as [H13 O]. split; [done|].
  eapply owns_ext; [|intros n _ Hn; by rewrite step_used|exact O]. intros j _. apply step_addr.
Qed.

Lemma step_holds :
  holds_file V addrs c -> off <= Z.of_nat (length c) -> Z.of_nat (length c) <= MAXFILE * BSIZE ->
  (0 < length b)%nat -> holds_file V'' addrs' (splice off b c).
Proof using Hl Hok Hbn G Hlen Hr Hrb.
  intros Hh Hoff Hmax Hb. change BSIZE with 1024 in *. change MAXFILE with 268 in Hmax.
  assert (Hoff' : (Z.to_nat off <= length c)%nat) by (change BSIZE with 1024; lia).
  rewrite holds_parts in Hh |- *. change BSIZE with 1024 in *. intros j Hj Hjl.
  rewrite length_splice_grow in Hjl by done. change BSIZE with 1024 in *. rewrite step_addr.
  destruct (decide (j = bn)) as [->|Hne].
  - rewrite (gr_addr _ _ _ _ _ _ _ G). split; [apply G|]. intros i Hi Hil. change BSIZE with 1024 in *.
    rewrite length_splice_grow in Hil by done. change BSIZE with 1024 in *.
    rewrite fn_lookup_insert. rewrite splice_lookup by (rewrite Hlen; change (Z.to_nat BSIZE) with 1024%nat; lia).
    rewrite splice_grow_lookup by done. change BSIZE with 1024. repeat case_decide; try lia.
    + f_equal. lia.
    + destruct (Hh bn) as [Hn Hp]; [lia|lia|]. rewrite <- (gr_keep _ _ _ _ _ _ _ G Hn), step_same by done.
      apply Hp; change BSIZE with 1024; lia.
  - assert (Hjc : j * 1024 < Z.of_nat (length c)) by lia. destruct (Hh j Hj Hjc) as [Hn Hp].
    assert (Hj2 : 0 <= j < MAXFILE) by (change MAXFILE with 268; lia).
    rewrite (gr_other _ _ _ _ _ _ _ G j Hj2 Hne). split; [done|]. intros i Hi Hil.
    rewrite length_splice_grow in Hil by done. change BSIZE with 1024 in *.
    rewrite fn_lookup_insert_ne.
    2:{ intros E. apply Hne. destruct (gr_ok _ _ _ _ _ _ _ G) as [_ O].
        pose proof (gr_other _ _ _ _ _ _ _ G j Hj2 Hne) as Eo.
        apply (ow_inj _ _ _ _ O j bn Hj2 Hbn); rewrite Eo; [done|]. by rewrite (gr_addr _ _ _ _ _ _ _ G). }
    rewrite step_same by done. rewrite splice_grow_lookup by done. change BSIZE with 1024.
    rewrite decide_False by lia. apply Hp; change BSIZE with 1024; lia.
Qed.

Lemma step_rewritten : rewritten sb V addrs V'' addrs'.
Proof using Hl Hok Hbn G.
  split.
  - intros n Hn Hu. rewrite step_used. by apply (gr_used _ _ _ _ _ _ _ G).
  - intros n [Hn [->|(j & Hj & ->)]].
    + destruct (Z.eq_dec (aget addrs NDIRECT) 0) as [E|E].
      * destruct (gr_new _ _ _ _ _ _ _ G E); [done|by right].
      * left. split; [done|]. left. by apply (gr_ind _ _ _ _ _ _ _ G).
    + rewrite step_addr in *. destruct (decide (j = bn)) as [->|Hne].
      * rewrite (gr_addr _ _ _ _ _ _ _ G) in *. destruct (Z.eq_dec (file_addr V addrs bn) 0) as [E|E].
        -- right. by apply (gr_zero _ _ _ _ _ _ _ G).
        -- left. split; [done|]. right. exists bn. split; [done|]. symmetry. by apply (gr_keep _ _ _ _ _ _ _ G).
      * left. split; [done|]. right. exists j. split; [done|]. by apply (gr_other _ _ _ _ _ _ _ G).
  - intros n Hn Hu Hbm Hi. rewrite fn_lookup_insert_ne.
    + apply (gr_same _ _ _ _ _ _ _ G); try done. intros E. destruct (Z.eq_dec n 0); [done|]. destruct Hi. split; [done|by left].
    + intros <-. destruct (Z.eq_dec (file_addr V addrs bn) 0) as [E|E].
      * destruct (gr_zero _ _ _ _ _ _ _ G E). congruence.
      * apply Hi. split; [apply G|]. right. exists bn. split; [done|]. symmetry. by apply (gr_keep _ _ _ _ _ _ _ G).
Qed.
End step.

(** ** writei() *)

Section write.
Context `{Fuel} (Hfuel : (1 <= fuel)%nat) `{Symbols} `{DL : DiskLaw} (dev st : Z).
Context (h : hart) (cp : cpu) (p : nat) (px : proc) (sb : superblock) (Hly : layout st sb).
Context (ip : nat) (x : inode) (bs0 : list Z) (Hdev : i_dev x = dev) (V0 : Z -> list Z) (addrs0 : list Z).

(** In the middle of writei(): the file holds [c] now. *)
Record writing (k f : nat) (c : list Z) (bs : list Z) (V : Z -> list Z) (addrs : list Z) (s : kstate) : Prop := {
  wr_file : tx_file dev st h cp p px sb ip x bs0 k f bs V addrs s;
  wr_holds : holds_file V addrs c;
  wr_rest : rewritten sb V0 addrs0 V addrs
}.

Lemma frame_size s s' : file_frame ip s s' -> lg_size (k_log s') = lg_size (k_log s).
Proof. intros [F _]. exact (lf_size _ _ F). Qed.

Lemma copyin_local b m s :
  calm s h cp p px -> 0 <= m <= Z.of_nat (length b) ->
  either_copyin (S_local b) m s = Ok (0, take (Z.to_nat m) b) s.
Proof.
  intros Hc Hm. unfold either_copyin. krun (myproc_ok _ _ _ (c_quiet _ _ _ _ _ Hc)).
  destruct (Z.ltb_spec (Z.of_nat (length b)) m); [lia|done].
Qed.

Lemma writei_round k f c bs V addrs s n tot off data :
  writing k (S f) c bs V addrs s -> 0 <= tot < n -> n < 2 ^ 32 -> Z.of_nat (length data) = n - tot ->
  0 <= off <= Z.of_nat (length c) -> off + (n - tot) <= MAXFILE * BSIZE -> Z.of_nat (length c) <= MAXFILE * BSIZE ->
  Z.of_nat (length bs0 + k) + 3 <= lg_size (k_log s) - 1 ->
  let m := Z.min (n - tot) (BSIZE - off mod BSIZE) in
  ∃ bs' V' addrs' s',
    run env (writei_body ip n (tot, off, S_local data) s)
      = Ok (inl (tot + m, off + m, S_local (drop (Z.to_nat m) data))) s'
    ∧ writing (S k) f (splice off (take (Z.to_nat m) data) c) bs' V' addrs' s' ∧ file_frame ip s s'.
Proof using Hfuel Hly Hdev.
  intros [Tf Hh Hre] Ht Hn32 Hd Hoff Hmax Hcm Hcap m. set (bn := off / BSIZE). set (r := off mod BSIZE) in *.
  assert (Hbr : off = bn * BSIZE + r ∧ 0 <= r < BSIZE ∧ 0 <= bn) by (unfold bn, r; change BSIZE with 1024; zmod).
  destruct Hbr as (Eo & Hr1 & Hbn). change (MAXFILE * BSIZE) with 274432 in Hmax.
  assert (Hm : 0 < m <= n - tot ∧ r + m <= BSIZE) by (unfold m; change BSIZE with 1024 in *; lia).
  assert (Hbn2 : 0 <= bn < MAXFILE) by (change MAXFILE with 268; change BSIZE with 1024 in *; lia).
  destruct (bmap_grow Hfuel dev st h cp p px sb Hly ip x bs0 Hdev k f bs V addrs s bn Tf Hbn2 Hcap)
    as (a & s1 & E1 & bs1 & V1 & addrs1 & Tf1 & Sp1 & G & Ff1).
  pose proof Tf as [_ _ _ Hok _ _ _].
  pose proof Tf1 as [T1 Hsb1 Hm1 Hok1 Sp1' Hf1 Hi1].
  pose proof (frame_size _ _ Ff1) as Hsz1.
  destruct (data_block_out _ _ _ Hly (step_data _ _ _ _ _ _ _ Hbn2 G)) as (Nl & Nbm & Ha0).
  assert (Hr : tx_room 1 bs1 s1) by (eapply spent_room; [exact Sp1'|apply T1|lia]).
  pose proof (in_tx_cap _ _ _ _ _ _ _ _ _ _ _ T1 Hr) as Hc29.
  destruct (tx_open Hfuel dev st h cp p px ∅ bs1 V1 s1 a T1) as (b & s2 & E2 & _ & T2 & _ & _ & F2).
  { intros i. by rewrite lookup_empty. }
  { lia. }
  { rewrite map_size_empty. change bcache_head with 30%nat. lia. }
  set (chunk := take (Z.to_nat m) data). assert (Hch : length chunk = Z.to_nat m) by (unfold chunk; rewrite length_take; lia).
  pose proof (in_tx_length _ _ _ _ _ _ _ _ _ _ a T1) as Hla.
  destruct (tx_edit Hfuel dev st h cp p px _ bs1 V1 s2 b a (splice r chunk) T2) as (s3 & E3 & T3 & F3).
  { apply lookup_insert_eq. }
  { by eapply room_frame. }
  { done. }
  { rewrite length_splice; [done|lia|]. rewrite Hla, Hch. change BSIZE with 1024 in *. lia. }
  destruct (tx_close Hfuel dev st h cp p px _ _ _ s3 b a T3) as (s4 & E4 & T4 & F4);
    [apply lookup_insert_eq|left; apply tx_add_in|].
  rewrite delete_insert_id in T4 by done. assert (F14 : log_frame s1 s4) by (by do 2 (etrans; [done|])).
  exists (tx_add bs1 a), (<[a := splice r chunk (V1 a)]> V1), addrs1, s4. split; [|split].
  - unfold writei_body. destruct (Z.ltb_spec tot n); [|lia]. cbn [negb]. fold bn.
    rewrite (run_bind _ _ _ _ _ _ E1). destruct (Z.eqb_spec a 0); [lia|]. krun (geti_ok _ _ _ Hi1).
    change (i_dev (x <| i_addrs := addrs1 |>)) with (i_dev x). rewrite Hdev.
    rewrite (run_bind _ _ _ _ _ _ E2). fold r. rewrite (u32_small (n - tot)) by lia. fold m.
    krun (copyin_local data m s2 (tx_calm _ _ _ _ _ _ _ _ _ _ T2) ltac:(lia)). fold chunk. cbn [Z.eqb].
    rewrite (bind_then _ _ _ _ _ E3). krun E4. rewrite !u32_small by lia. done.
  - split.
    + split.
      * exact T4.
      * by rewrite (frame_sb _ _ F14).
      * intros n' Hn'. rewrite step_used with (st := st) (bn := bn) (V := V) (addrs := addrs) (addrs' := addrs1) by done.
        by apply Hm1.
      * by eapply step_ok.
      * exact Sp1.
      * eapply has_free_ext; [|exact Hf1]. by rewrite fn_lookup_insert_ne.
      * by rewrite (log_frame_inodes _ _ F14).
    + rewrite Eo. fold chunk.
      apply (step_holds st sb V V1 addrs addrs1 bn a c Hly Hok Hbn2 G Hla r chunk); [lia|rewrite Hch; lia|done|lia|done|rewrite Hch; lia].
    + eapply rewritten_trans; [done|by eapply step_ok|exact Hre|by eapply step_rewritten].
  - etrans; [done|by apply log_file_frame].
Qed.

(** [r] parts of the file are left to write; [q] rounds of the loop are enough. *)
Lemma writei_loop q r k c bs V addrs s n tot off data :
  writing k r c bs V addrs s -> 0 <= tot <= n -> n < 2 ^ 32 -> Z.of_nat (length data) = n - tot ->
  0 <= off <= Z.of_nat (length c) -> off + (n - tot) <= MAXFILE * BSIZE -> Z.of_nat (length c) <= MAXFILE * BSIZE ->
  (tot = n ∨ n - tot + off mod BSIZE <= BSIZE * Z.of_nat r) -> (r < q)%nat ->
  Z.of_nat (length bs0 + k + r) + 2 <= lg_size (k_log s) - 1 ->
  ∃ k' f' bs' V' addrs' s',
    run env (loop q (writei_body ip n) (tot, off, S_local data) s) = Ok (n, off + (n - tot)) s'
    ∧ writing k' f' (splice off data c) bs' V' addrs' s' ∧ (k' <= k + r)%nat ∧ file_frame ip s s'.
Proof using Hfuel Hly Hdev.
  revert r k c bs V addrs s tot off data.
  induction q as [|q IH]; intros r k c bs V addrs s tot off data W Ht Hn32 Hd Hoff Hmax Hcm Hfit Hq Hcap; [lia|].
  cbn [loop]. destruct (decide (tot = n)) as [->|Hne].
  { unfold writei_body at 1. destruct (Z.ltb_spec n n); [lia|]. cbn [negb].
    exists k, r, bs, V, addrs, s. rewrite Z.sub_diag, Z.add_0_r. destruct data; [|simpl in Hd; lia].
    split; [done|]. split; [|split; [lia|by apply log_file_frame]].
    unfold splice. simpl. by rewrite Nat.add_0_r, take_drop. }
  destruct Hfit as [|Hfit]; [done|]. change BSIZE with 1024 in Hfit.
  pose proof (Z.mod_pos_bound off 1024 ltac:(lia)) as Hmod. destruct r as [|r]; [lia|].
  destruct (writei_round k r c bs V addrs s n tot off data W ltac:(lia) Hn32 Hd Hoff Hmax Hcm ltac:(lia))
    as (bs1 & V1 & addrs1 & s1 & E1 & W1 & F1).
  rewrite (run_bind _ _ _ _ _ _ E1). set (m := Z.min _ _) in *.
  assert (Hm : 0 < m <= n - tot ∧ (m = n - tot ∨ m = 1024 - off mod 1024)) by (unfold m; change BSIZE with 1024; lia).
  set (chunk := take (Z.to_nat m) data) in *.
  assert (Hch : length chunk = Z.to_nat m) by (unfold chunk; rewrite length_take; lia).
  assert (Hlc : length (splice off chunk c) = Nat.max (length c) (Z.to_nat off + length chunk)) by (apply length_splice_grow; lia).
  destruct (IH r (S k) (splice off chunk c) bs1 V1 addrs1 s1 (tot + m) (off + m) (drop (Z.to_nat m) data) W1)
    as (k' & f' & bs' & V' & addrs' & s' & E2 & W2 & Hk & F2); try lia.
  - rewrite length_drop. lia.
  - destruct Hm as [_ [Em|Em]]; [left; lia|right]. change BSIZE with 1024.
    assert ((off + m) mod 1024 = 0) as -> by (rewrite Em; zmod). lia.
  - rewrite (frame_size _ _ F1). lia.
  - exists k', f', bs', V', addrs', s'. split; [rewrite E2; f_equal; f_equal; lia|]. split; [|split; [lia|by etrans]].
    replace (splice off data c) with (splice (off + m) (drop (Z.to_nat m) data) (splice off chunk c)); [done|].
    replace (off + m) with (off + Z.of_nat (length chunk)) by lia. rewrite splice_splice by lia.
    unfold chunk. by rewrite take_drop.
Qed.
End write.

(** ** iupdate() *)

Definition inode_dinode (x : inode) : dinode :=
  Dinode (i_type x) (i_major x) (i_minor x) (i_nlink x) (i_size x) (i_addrs x).

(** The fields that an inode has from its C types. *)
Record inode_wf (x : inode) : Prop := {
  iw_type : - 2 ^ 15 <= i_type x < 2 ^ 15;
  iw_major : - 2 ^ 15 <= i_major x < 2 ^ 15;
  iw_minor : - 2 ^ 15 <= i_minor x < 2 ^ 15;
  iw_nlink : - 2 ^ 15 <= i_nlink x < 2 ^ 15
}.

Lemma iblock_range st sb inum :
  layout st sb -> 0 <= inum < sb_ninodes sb ->
  IBLOCK inum sb = inum / IPB + sb_inodestart sb ∧ sb_inodestart sb <= IBLOCK inum sb < sb_bmapstart sb
  ∧ ¬ in_log st (IBLOCK inum sb).
Proof.
  intros Hl Hi. pose proof (layout_range _ _ Hl) as Hra. destruct Hl as [L1 L2 _ _]. change LOGSIZE with 30 in *.
  change IPB with 16 in *. unfold IBLOCK, in_log. change IPB with 16. change LOGSIZE with 30.
  assert (0 <= inum / 16 <= sb_ninodes sb / 16) by zmod. rewrite u32_small by lia. split; [done|]. split; lia.
Qed.

Lemma file_ok_addrs st sb V addrs : layout st sb -> file_ok sb V addrs -> Forall (λ a, 0 <= a < 2 ^ 32) addrs.
Proof.
  intros Hl [H13 O]. apply Forall_lookup. intros i a Hi. pose proof (lookup_lt_Some _ _ _ Hi) as Hlt.
  destruct (Z.eq_dec a 0) as [->|Hn]; [lia|].
  assert (Ea : aget addrs (Z.of_nat i) = a) by (unfold aget; by rewrite Nat2Z.id, Hi).
  assert (D : data_block sb a).
  { destruct (decide (i = 12)%nat) as [->|Hne].
    - rewrite <- Ea. apply (ow_ind _ _ _ _ O). change NDIRECT with (Z.of_nat 12). by rewrite Ea.
    - assert (Ef : file_addr V addrs (Z.of_nat i) = a).
      { unfold file_addr. destruct (Z.ltb_spec (Z.of_nat i) NDIRECT); [done|]. change NDIRECT with 12 in *. lia. }
      rewrite <- Ef. apply (ow_data _ _ _ _ O); [change MAXFILE with 268; lia|by rewrite Ef]. }
  destruct (data_block_out _ _ _ Hl D) as (_ & _ & ?). lia.
Qed.

Section update.
Context `{Fuel} (Hfuel : (1 <= fuel)%nat) `{Symbols} `{DL : DiskLaw} (dev st : Z).
Context (h : hart) (cp : cpu) (p : nat) (px : proc) (sb : superblock) (Hly : layout st sb).
Abbreviation in_tx := (in_tx dev st h cp p px).

Lemma iupdate_ok ip x bs V s :
  in_tx ∅ bs V s -> k_sb s = sb -> k_inodes s !! ip = Some x -> i_dev x = dev ->
  0 <= i_inum x < sb_ninodes sb -> length (i_addrs x) = 13%nat -> tx_room 1 bs s ->
  let ib := IBLOCK (i_inum x) sb in
  ∃ s', run env (iupdate ip s) = Ok tt s'
    ∧ in_tx ∅ (tx_add bs ib) (<[ib := put_dinode (i_inum x mod IPB) (inode_dinode x) (V ib)]> V) s' ∧ log_frame s s'.
Proof using Hfuel Hly.
  intros T Hsb Hx Hd Hi H13 Hr ib. pose proof (layout_range _ _ Hly) as Hra.
  destruct (iblock_range _ _ _ Hly Hi) as (_ & Hib & Nl). fold ib in Hib, Nl.
  pose proof (in_tx_cap _ _ _ _ _ _ _ _ _ _ _ T Hr) as Hc.
  destruct (tx_open Hfuel dev st h cp p px ∅ bs V s ib T) as (b & s1 & E1 & _ & T1 & _ & _ & F1).
  { intros i. by rewrite lookup_empty. }
  { pose proof (ly_log _ _ Hly). change LOGSIZE with 30 in *. lia. }
  { rewrite map_size_empty. change bcache_head with 30%nat. lia. }
  assert (Hx1 : k_inodes s1 !! ip = Some x) by (by rewrite (log_frame_inodes _ _ F1)).
  destruct (tx_edit Hfuel dev st h cp p px _ bs V s1 b ib (put_dinode (i_inum x mod IPB) (inode_dinode x)) T1)
    as (s2 & E2 & T2 & F2).
  { apply lookup_insert_eq. }
  { by eapply room_frame. }
  { done. }
  { unfold put_dinode. rewrite length_splice; [by eapply in_tx_length|change IPB with 16; zmod|].
    rewrite length_dinode_bytes by done. rewrite (in_tx_length _ _ _ _ _ _ _ _ _ _ ib T).
    change IPB with 16. change (Z.to_nat BSIZE) with 1024%nat. zmod. }
  destruct (tx_close Hfuel dev st h cp p px _ _ _ s2 b ib T2) as (s3 & E3 & T3 & F3);
    [apply lookup_insert_eq|left; apply tx_add_in|].
  rewrite delete_insert_id in T3 by done. exists s3. split; [|split; [done|by do 2 (etrans; [done|])]].
  unfold iupdate. krun (geti_ok _ _ _ Hx). rewrite bind_gets, Hsb, Hd. fold ib.
  rewrite (run_bind _ _ _ _ _ _ E1). krun (geti_ok _ _ _ Hx1). fold (inode_dinode x).
  rewrite (bind_then _ _ _ _ _ E2). by rewrite E3.
Qed.
End update.

(** ** The result *)

(** The file of inode [x] holds [c] now, with its inode [x'] on the disk; the
    other inodes and the blocks in use that are not the file's are unchanged. *)
Record wrote_file (sb : superblock) (V : Z -> list Z) (x : inode) (c : list Z) (V' : Z -> list Z) (x' : inode) : Prop := {
  wf_inode : x' = x <| i_addrs := i_addrs x' |> <| i_size := Z.of_nat (length c) |>;
  wf_ok : file_ok sb V' (i_addrs x');
  wf_holds : holds_file V' (i_addrs x') c;
  wf_dinode : disk_inode V' sb (i_inum x) = inode_dinode x';
  wf_others : ∀ j, 0 <= j < sb_ninodes sb -> j <> i_inum x -> disk_inode V' sb j = disk_inode V sb j;
  wf_meta : meta_used V' sb;
  wf_used : ∀ n, 0 <= n -> used V sb n = true -> used V' sb n = true;
  wf_same : ∀ n, 0 <= n -> used V sb n = true -> n <> sb_bmapstart sb -> n <> IBLOCK (i_inum x) sb ->
    ¬ in_file V (i_addrs x) n -> V' n = V n
}.

Section result.
Context (st : Z) (sb : superblock) (V V1 : Z -> list Z) (x x2 : inode) (c : list Z).
Context (Hl : layout st sb) (Hok : file_ok sb V (i_addrs x)) (Hm : meta_used V sb).
Context (Hok1 : file_ok sb V1 (i_addrs x2)) (Hh : holds_file V1 (i_addrs x2) c) (Hc : Z.of_nat (length c) <= MAXFILE * BSIZE).
Context (Hre : rewritten sb V (i_addrs x) V1 (i_addrs x2)) (Hlen : ∀ n, length (V1 n) = Z.to_nat BSIZE).
Context (Hx2 : x2 = x <| i_addrs := i_addrs x2 |> <| i_size := Z.of_nat (length c) |>).
Context (Hw : inode_wf x) (Hi : 0 <= i_inum x < sb_ninodes sb).
Abbreviation ib := (IBLOCK (i_inum x) sb).
Abbreviation V2 := (<[ib := put_dinode (i_inum x mod IPB) (inode_dinode x2) (V1 ib)]> V1).

Lemma result_meta n : 0 <= n < sb_bmapstart sb -> V1 n = V n.
Proof using All.
  intros Hn. apply (rw_same _ _ _ _ _ Hre); [lia|apply Hm; lia|lia|].
  intros Hf. destruct (in_file_range _ _ _ _ _ Hl Hok Hf) as [[? _] _]. lia.
Qed.

Lemma result_data n : sb_bmapstart sb <= n -> V2 n = V1 n.
Proof using All. intros Hn. destruct (iblock_range _ _ _ Hl Hi) as (_ & Hib & _). apply fn_lookup_insert_ne. lia. Qed.

Lemma result_used n : used V2 sb n = used V1 sb n.
Proof using All. unfold used. rewrite result_data by lia. done. Qed.

Lemma result_addr j : file_addr V2 (i_addrs x2) j = file_addr V1 (i_addrs x2) j.
Proof using All.
  destruct (Z.eq_dec (aget (i_addrs x2) NDIRECT) 0) as [E|E].
  - unfold file_addr. by rewrite E.
  - apply file_addr_ext, result_data. destruct (ow_ind _ _ _ _ (proj2 Hok1) E) as [[? _] _]. lia.
Qed.

Lemma result_wf : dinode_wf (inode_dinode x2).
Proof using All.
  destruct Hw as [W1 W2 W3 W4]. change (MAXFILE * BSIZE) with 274432 in Hc.
  split; simpl; try (rewrite Hx2; done).
  - rewrite Hx2. simpl. lia.
  - apply Hok1.
  - by eapply file_ok_addrs.
Qed.

Lemma result_others j : 0 <= j < sb_ninodes sb -> j <> i_inum x -> disk_inode V2 sb j = disk_inode V sb j.
Proof using All.
  intros Hj Hne. destruct (iblock_range _ _ _ Hl Hi) as (Ei & Hib & _).
  destruct (iblock_range _ _ _ Hl Hj) as (Ej & Hjb & _). unfold disk_inode.
  pose proof (ly_log _ _ Hl) as Hlog. change LOGSIZE with 30 in Hlog.
  rewrite <- (result_meta (IBLOCK j sb)) by lia. destruct (decide (IBLOCK j sb = ib)) as [E|E].
  - rewrite E, fn_lookup_insert. apply put_get_dinode_ne; [apply Hok1|change IPB with 16; zmod|change IPB with 16; zmod| |apply Hlen].
    intros Em. apply Hne. rewrite Ei, Ej in E. change IPB with 16 in *. zmod.
  - by rewrite fn_lookup_insert_ne.
Qed.

Lemma result_ok : wrote_file sb V x c V2 x2.
Proof using All.
  split.
  - exact Hx2.
  - split; [apply Hok1|]. eapply owns_ext; [|intros n _ Hn; by rewrite result_used|apply Hok1]. intros j _. apply result_addr.
  - apply holds_parts. intros bn H1 H2. rewrite result_addr. destruct (proj1 (holds_parts _ _ _) Hh bn H1 H2) as [H3 H4].
    split; [done|]. intros i Hi1 Hi2. rewrite result_data; [by apply H4|].
    destruct (ow_data _ _ _ _ (proj2 Hok1) bn) as [[? _] _]; [|done|lia].
    pose proof Hc as Hc'. change BSIZE with 1024 in *. change MAXFILE with 268 in *. lia.
  - unfold disk_inode. rewrite fn_lookup_insert. apply put_get_dinode; [apply result_wf|change IPB with 16; zmod|apply Hlen].
  - apply result_others.
  - intros n Hn. rewrite result_used. apply (rw_used _ _ _ _ _ Hre); [lia|by apply Hm].
  - intros n Hn Hu. rewrite result_used. by apply (rw_used _ _ _ _ _ Hre).
  - intros n Hn Hu Hb Hib Hf. rewrite fn_lookup_insert_ne by done. by apply (rw_same _ _ _ _ _ Hre).
Qed.
End result.

(** The number of blocks that [n] bytes from [off] on lie in, or one more. *)
Definition parts_of (off n : Z) : nat := Z.to_nat ((off mod BSIZE + n + BSIZE - 1) / BSIZE).

Section writei.
Context `{Fuel} (Hfuel : (1 <= fuel)%nat) `{Symbols} `{DL : DiskLaw} (dev st : Z).
Context (h : hart) (cp : cpu) (p : nat) (px : proc) (sb : superblock) (Hly : layout st sb).
Abbreviation in_tx := (in_tx dev st h cp p px).

(** A file system operation in a transaction, about to use inode [x] whose file holds [c]. *)
Record fs_op (ip : nat) (x : inode) (c : list Z) (bs : list Z) (V : Z -> list Z) (s : kstate) : Prop := {
  fo_tx : in_tx ∅ bs V s;
  fo_sb : k_sb s = sb;
  fo_meta : meta_used V sb;
  fo_inode : k_inodes s !! ip = Some x;
  fo_dev : i_dev x = dev;
  fo_inum : 0 <= i_inum x < sb_ninodes sb;
  fo_wf : inode_wf x;
  fo_file : file_ok sb V (i_addrs x);
  fo_holds : holds_file V (i_addrs x) c;
  fo_size : i_size x = Z.of_nat (length c) ∧ Z.of_nat (length c) <= MAXFILE * BSIZE
}.

Lemma spent_start sb' addrs bs : spent sb' bs 1 addrs bs.
Proof.
  destruct (Z.eqb_spec (aget addrs NDIRECT) 0) as [E|E].
  - exists [sb_bmapstart sb']. rewrite E. split; [by apply list_elem_of_singleton|]. split; [done|]. split; [simpl; lia|].
    intros m Hm. apply elem_of_app. by left.
  - exists [sb_bmapstart sb'; aget addrs NDIRECT]. split; [by left|]. split; [intros _; right; by left|].
    split; [|intros m Hm; apply elem_of_app; by left]. destruct (Z.eqb_spec (aget addrs NDIRECT) 0); [done|]. simpl. lia.
Qed.

(** The end of writei(): the size, if the file has grown. *)
Lemma writei_size ip x bs V addrs s len off' :
  in_tx ∅ bs V s -> k_inodes s !! ip = Some (x <| i_addrs := addrs |>) -> len = Z.max (i_size x) off' ->
  ∃ s', when (i_size x <? off') (updi ip (λ x, x <| i_size := off' |>)) s = Ok tt s' ∧ in_tx ∅ bs V s'
    ∧ k_sb s' = k_sb s ∧ k_inodes s' !! ip = Some (x <| i_addrs := addrs |> <| i_size := len |>)
    ∧ file_frame ip s s' ∧ k_log s' = k_log s.
Proof.
  intros T Hx ->. destruct (Z.ltb_spec (i_size x) off'); cbn [when].
  - rewrite (updi_ok ip _ (λ x, x <| i_size := off' |>) s Hx). eexists. split; [reflexivity|].
    split; [by apply in_tx_inodes|]. split; [done|]. split; [|split; [apply updi_file_frame|done]].
    simpl. rewrite upd_lookup, decide_True by done. rewrite Hx. by replace (Z.max (i_size x) off') with off' by lia.
  - exists s. split; [done|]. split; [done|]. split; [done|]. split; [|split; [by apply log_file_frame|done]].
    rewrite Hx. replace (Z.max (i_size x) off') with (i_size x) by lia. by destruct x.
Qed.

Lemma writei_ok ip x c bs V s off data :
  let n := Z.of_nat (length data) in let r := parts_of off n in
  fs_op ip x c bs V s -> 0 <= off <= i_size x -> off + n <= MAXFILE * BSIZE ->
  has_free (need (i_addrs x) r) V sb -> Z.of_nat (length bs + r) + 3 <= lg_size (k_log s) - 1 ->
  ∃ bs' V' x' s', run env (writei ip (S_local data) off n s) = Ok n s'
    ∧ fs_op ip x' (splice off data c) bs' V' s' ∧ wrote_file sb V x (splice off data c) V' x' ∧ file_frame ip s s'.
Proof using Hfuel Hly.
  intros n r [T Hsb Hm Hx Hd Hi Hw Hok Hh [Hsz Hmax]] Hoff Hend Hfree Hcap.
  change (MAXFILE * BSIZE) with 274432 in Hmax, Hend. assert (Hn : 0 <= n) by lia.
  assert (W0 : writing dev st h cp p px sb ip x bs V (i_addrs x) 1 r c bs V (i_addrs x) s).
  { split; [|done|apply rewritten_refl]. split; try done; [apply spent_start|]. rewrite Hx. by destruct x. }
  assert (Hr : n + off mod BSIZE <= BSIZE * Z.of_nat r ∧ (r < block_rounds n)%nat).
  { unfold r, parts_of, block_rounds. change BSIZE with 1024. pose proof (Z.mod_pos_bound off 1024 ltac:(lia)).
    split; zmod. }
  destruct (writei_loop Hfuel dev st h cp p px sb Hly ip x bs Hd V (i_addrs x) (block_rounds n) r 1 c bs V (i_addrs x) s n 0 off data W0)
    as (k1 & f1 & bs1 & V1 & addrs1 & s1 & E1 & [[T1 Hsb1 Hm1 Hok1 Sp1 _ Hx1] Hh1 Hre1] & Hk1 & F1);
    try (change (MAXFILE * BSIZE) with 274432); try lia.
  rewrite Z.sub_0_r in E1. set (c' := splice off data c) in *.
  assert (Hc' : Z.of_nat (length c') = Z.max (i_size x) (off + n)).
  { unfold c'. rewrite length_splice_grow by lia. lia. }
  set (x2 := x <| i_addrs := addrs1 |> <| i_size := Z.of_nat (length c') |>).
  destruct (writei_size ip x bs1 V1 addrs1 s1 _ (off + n) T1 Hx1 Hc') as (s2 & E2 & T2 & Hsb2 & Hx2 & F2 & L2).
  rewrite Hsb1 in Hsb2. fold x2 in Hx2.
  assert (Hroom : tx_room 1 bs1 s2).
  { eapply spent_room; [exact Sp1|apply T1|]. rewrite L2, (frame_size _ _ _ F1). lia. }
  destruct (iupdate_ok Hfuel dev st h cp p px sb Hly ip x2 bs1 V1 s2 T2 Hsb2 Hx2 Hd Hi (proj1 Hok1) Hroom) as (s3 & E3 & T3 & F3).
  change (i_inum x2) with (i_inum x) in *. set (V2 := <[_ := _]> V1) in *.
  assert (Hwr : wrote_file sb V x c' V2 x2).
  { eapply (result_ok st sb V V1 x x2 c'); try done.
    - change (MAXFILE * BSIZE) with 274432. lia.
    - intros m. by eapply in_tx_length. }
  eexists _, V2, x2, s3. split; [|split; [|split; [done|by etrans; [exact F1|etrans; [exact F2|by apply log_file_frame]]]]].
  - unfold writei. krun (geti_ok _ _ _ Hx). rewrite (u32_small (off + n)) by lia.
    destruct (Z.ltb_spec (i_size x) off); [lia|]. destruct (Z.ltb_spec (off + n) off); [lia|]. cbn [orb].
    change (MAXFILE * BSIZE) with 274432. destruct (Z.ltb_spec 274432 (off + n)); [lia|].
    rewrite (run_bind _ _ _ _ _ _ E1).
    krun (geti_ok _ _ _ Hx1). change (i_size (x <| i_addrs := addrs1 |>)) with (i_size x). krun E2.
    rewrite (run_bind _ _ _ _ _ _ E3), i32_small by lia. done.
  - split; try done.
    + by rewrite (frame_sb _ _ F3).
    + apply Hwr.
    + by rewrite (log_frame_inodes _ _ F3).
    + destruct Hw. by split.
    + apply Hwr.
    + apply Hwr.
    + split; [done|]. change (MAXFILE * BSIZE) with 274432. lia.
Qed.
End writei.

(** ** Reading, and what is on the disk *)

Section read_back.
Context `{Fuel} (Hfuel : (1 <= fuel)%nat) `{Symbols} `{DL : DiskLaw} (dev st : Z).
Context (h : hart) (cp : cpu) (p : nat) (px : proc) (sb : superblock) (Hly : layout st sb).
Abbreviation fs_op := (fs_op dev st h cp p px sb).

Lemma fs_op_readable ip x c bs V s : fs_op ip x c bs V s -> readable (2 ^ 31) V (i_addrs x) c.
Proof using Hfuel Hly.
  intros [T Hsb Hm Hx Hd Hi Hw Hok Hh [Hsz Hmax]]. split; [done|done|]. intros bn B1 B2.
  destruct (Hh bn B1 B2) as [Hn _]. destruct Hok as [_ O]. change (MAXFILE * BSIZE) with 274432 in Hmax.
  change BSIZE with 1024 in B2. destruct (ow_data _ _ _ _ O bn) as [D _]; [change MAXFILE with 268; lia|done|].
  destruct (data_block_out _ _ _ Hly D) as (_ & _ & ?). split; [lia|]. intros Hge.
  assert (Hi0 : aget (i_addrs x) NDIRECT <> 0).
  { intros E. apply Hn. unfold file_addr. rewrite E. destruct (Z.ltb_spec bn NDIRECT); [lia|done]. }
  destruct (ow_ind _ _ _ _ O Hi0) as [Di _]. destruct (data_block_out _ _ _ Hly Di) as (_ & _ & ?). lia.
Qed.

Lemma fs_op_small ip x c bs V s : fs_op ip x c bs V s -> (length bs < bcache_head)%nat.
Proof.
  intros [T _ _ _ _ _ _ _ _ _]. pose proof (lo_room _ _ _ _ (tx_log _ _ _ _ _ _ _ _ _ _ T)) as Hr.
  change LOGSIZE with 30 in Hr. change bcache_head with 30%nat. clear -Hr. lia.
Qed.

Lemma fs_op_readi ip x c bs V s off n :
  fs_op ip x c bs V s -> 0 <= off <= i_size x -> 0 <= n -> off + n < 2 ^ 32 ->
  let m := Z.min n (i_size x - off) in
  ∃ s', run env (readi ip D_local off n s) = Ok (m, slice off (Z.to_nat m) c) s' ∧ fs_op ip x c bs V s' ∧ log_frame s s'.
Proof using Hfuel Hly.
  intros O Hoff Hn Hov m. pose proof (fs_op_small _ _ _ _ _ _ O) as Hsm. pose proof (fs_op_readable _ _ _ _ _ _ O) as Hrd.
  destruct O as [T Hsb Hm Hx Hd Hi Hw Hok Hh [Hsz Hmax]].
  assert (Hpin : (size (list_to_set bs : gset Z) < bcache_head)%nat).
  { rewrite size_list_to_set; [done|]. apply (tx_fine _ _ _ _ _ _ _ _ _ _ T). }
  assert (R : ready dev h cp p px (list_to_set bs) V s) by (split; apply T).
  destruct (readi_ok Hfuel dev h cp p px (list_to_set bs) V Hpin ip x c Hd (2 ^ 31) ltac:(done) Hrd s off n R Hx Hsz Hoff Hn Hov)
    as (s' & E & [_ Hb] & F & D & L).
  pose proof (bio_log_frame _ _ F D L) as Fl. exists s'. split; [done|]. split; [|done].
  split; try done.
  - eapply in_tx_frame; [exact T|exact F|exact Hb].
  - by rewrite (frame_sb _ _ Fl).
  - by rewrite (log_frame_inodes _ _ Fl).
Qed.

(** The disk [D] has the file of inode [x], with the contents [c]. *)
Definition file_on_disk (D : Z -> list Z) (x : inode) (c : list Z) : Prop :=
  disk_inode D sb (i_inum x) = inode_dinode x ∧ holds_file D (i_addrs x) c.

Lemma file_on_disk_ext D V x c :
  0 <= i_inum x < sb_ninodes sb -> file_ok sb V (i_addrs x) -> Z.of_nat (length c) <= MAXFILE * BSIZE ->
  (∀ m, 0 <= m -> ¬ in_log st m -> D m = V m) -> file_on_disk V x c -> file_on_disk D x c.
Proof using Hfuel Hly.
  intros Hi [_ O] Hmax He [Hd Hh]. pose proof (layout_range _ _ Hly) as Hra. split.
  - destruct (iblock_range _ _ _ Hly Hi) as (_ & Hib & Nl). unfold disk_inode in *. rewrite He; [done| |done].
    pose proof (ly_log _ _ Hly) as Hlog. change LOGSIZE with 30 in Hlog. lia.
  - assert (Hdata : ∀ n, data_block sb n -> D n = V n).
    { intros n Hn. destruct (data_block_out _ _ _ Hly Hn) as (Nl & _ & ?). apply He; [lia|done]. }
    assert (Ha : ∀ bn, file_addr D (i_addrs x) bn = file_addr V (i_addrs x) bn).
    { intros bn. destruct (Z.eq_dec (aget (i_addrs x) NDIRECT) 0) as [E|E].
      - unfold file_addr. by rewrite E.
      - apply file_addr_ext, Hdata. by apply (ow_ind _ _ _ _ O). }
    intros bn B1 B2. rewrite Ha. destruct (Hh bn B1 B2) as [Hn Hp]. rewrite Hdata; [done|].
    apply (ow_data _ _ _ _ O); [|done]. change (MAXFILE * BSIZE) with 274432 in Hmax. change BSIZE with 1024 in B2.
    change MAXFILE with 268. lia.
Qed.
End read_back.

(** ** Properties *)

(** C4: writei() of a kernel buffer in a transaction, from any offset up to the
    end of the file: it returns the number of bytes, and the file holds its old
    contents with [data] written over them from [off] on, past the end if need
    be.  Blocks come from balloc() as they are needed, direct or indirect, and
    were free before; the inode on disk is the one in memory; every other inode
    is as it was and so is every block in use that is not the file's own; the
    disk is not written before the commit.  readi() then returns the new bytes.
    It takes enough free blocks, and room in the log for the blocks the bytes
    lie in and three more: the bitmap, the indirect block, the inode. *)
Theorem writei_readi `{Fuel} `{Symbols} `{DL : DiskLaw} (dev st : Z) (h : hart) (cp : cpu) (p : nat) (px : proc)
    (sb : superblock) (ip : nat) (x : inode) (c bs : list Z) (V : Z -> list Z) (s : kstate) (off : Z) (data : list Z) :
  let n := Z.of_nat (length data) in let r := parts_of off n in
  (1 <= fuel)%nat -> layout st sb -> fs_op dev st h cp p px sb ip x c bs V s ->
  0 <= off <= i_size x -> off + n <= MAXFILE * BSIZE ->
  has_free (need (i_addrs x) r) V sb -> Z.of_nat (length bs + r) + 3 <= lg_size (k_log s) - 1 ->
  ∃ bs' V' x' s', run env (writei ip (S_local data) off n s) = Ok n s'
    ∧ fs_op dev st h cp p px sb ip x' (splice off data c) bs' V' s'
    ∧ wrote_file sb V x (splice off data c) V' x' ∧ k_disk s' = k_disk s
    ∧ ∀ o m, 0 <= o <= i_size x' -> 0 <= m -> o + m < 2 ^ 32 ->
        let l := Z.min m (i_size x' - o) in
        ∃ s'', run env (readi ip D_local o m s') = Ok (l, slice o (Z.to_nat l) (splice off data c)) s''.
Proof.
  intros n r Hf Hl O Hoff Hend Hfree Hcap.
  destruct (writei_ok Hf dev st h cp p px sb Hl ip x c bs V s off data O Hoff Hend Hfree Hcap)
    as (bs' & V' & x' & s' & E & O' & W & F).
  exists bs', V', x', s'. split_and!; try done; [exact (lf_disk _ _ (ff_log _ _ _ F))|].
  intros o m Ho Hm Hom l. destruct (fs_op_readi Hf dev st h cp p px sb Hl ip x' _ bs' V' s' o m O' Ho Hm Hom) as (s'' & E' & _).
  by exists s''.
Qed.

(** C2: a write to a file is atomic under a crash.  writei() in a transaction of
    its own, then commit(): the disk has the new file; and if the machine
    crashes after any number [k] of the block writes of the commit and is
    rebooted, recovery leaves on the disk the inode and the contents as they
    were before, or the new inode with the new contents. *)
Theorem write_crash_atomic `{Fuel} `{Symbols} `{DL : DiskLaw} (dev st : Z) (h : hart) (cp : cpu) (p : nat) (px : proc)
    (sb : superblock) (ip : nat) (x : inode) (c : list Z) (V : Z -> list Z) (s : kstate) (off : Z) (data : list Z) :
  let n := Z.of_nat (length data) in let r := parts_of off n in
  (1 <= fuel)%nat -> layout st sb -> i32 (sb_logstart sb) = st -> hdr_n (dblock (k_disk s) st) = 0 ->
  fs_op dev st h cp p px sb ip x c [] V s -> disk_inode V sb (i_inum x) = inode_dinode x ->
  0 <= off <= i_size x -> off + n <= MAXFILE * BSIZE ->
  has_free (need (i_addrs x) r) V sb -> Z.of_nat r + 3 <= lg_size (k_log s) - 1 ->
  ∃ x' s' s'' w, run env (writei ip (S_local data) off n s) = Ok n s' ∧ run env (commit s') = Ok tt s''
    ∧ k_dhist s'' = k_dhist s ++ w ∧ file_on_disk sb (dblock (k_disk s'')) x' (splice off data c)
    ∧ ∀ k t h' cp' p' px' Vt,
        calm t h' cp' p' px' -> bcache dev (p_pid px') ∅ ∅ Vt t -> lh_n (k_log t) = 0 ->
        length (lh_block (k_log t)) = Z.to_nat LOGSIZE -> k_disk t = apply_writes (k_disk s) (take k w) ->
        ∃ t', run env (initlog dev sb t) = Ok tt t'
          ∧ (file_on_disk sb (dblock (k_disk t')) x c ∨ file_on_disk sb (dblock (k_disk t')) x' (splice off data c)).
Proof.
  intros n r Hf Hl Hst Hhd O Hdi Hoff Hend Hfree Hcap.
  destruct (writei_ok Hf dev st h cp p px sb Hl ip x c [] V s off data O Hoff Hend Hfree Hcap)
    as (bs' & V' & x' & s' & E & O' & W & [F _]).
  pose proof (lf_disk _ _ F : k_disk s' = k_disk s) as D. pose proof (lf_dhist _ _ F : k_dhist s' = k_dhist s) as L.
  pose proof (fs_op_small dev st h cp p px sb ip x' _ bs' V' s' O') as Hsm.
  pose proof O' as [T' _ _ _ _ Hi' _ Hok' Hh' [_ Hm']]. pose proof O as [T _ _ _ _ Hi _ Hok Hh [_ Hm]].
  assert (Hv : ∀ m, V m = dblock (k_disk s) m).
  { intros m. apply (bc_clean _ _ _ _ _ _ (tx_cache _ _ _ _ _ _ _ _ _ _ T)); [set_solver|]. intros b. by rewrite lookup_empty. }
  assert (Ei : i_inum x' = i_inum x) by (rewrite (wf_inode _ _ _ _ _ _ W); done).
  assert (Hnew : file_on_disk sb V' x' (splice off data c)).
  { split; [rewrite Ei; apply W|done]. }
  destruct (commit_crash_ok dev st sb s' h cp p px bs' V' Hf) as (s'' & w & Ec & Lc & Dc & Hr); try apply T'; try done.
  { by rewrite D. }
  exists x', s', s'', w. split; [done|]. split; [done|]. split; [by rewrite Lc, L|]. split.
  { eapply (file_on_disk_ext Hf st sb Hl _ V'); [done|done|done| |done]. intros m _ Hm1. by apply Dc. }
  intros k t h' cp' p' px' Vt Hc Hb Hn Hb2 Dt. rewrite <- D in Dt.
  destruct (Hr k t h' cp' p' px' Vt Hc Hb Hn Hb2 Dt) as (t' & Et & [Ho|Ho]); exists t'; (split; [done|]).
  - left. eapply (file_on_disk_ext Hf st sb Hl _ V); [done|done|done| |split; [done|done]].
    intros m _ Hm1. rewrite Ho by done. by rewrite D, Hv.
  - right. eapply (file_on_disk_ext Hf st sb Hl _ V'); [done|done|done| |done]. intros m _ Hm1. by apply Ho.
Qed.

(** *** Examples: a small file grows by three bytes *)

(** The disk of FsRead.v with its bitmap: blocks 0 to 46 are in use. *)
Definition ex_bitmap : list Z := replicate 5 255 ++ [127] ++ replicate 1018 0.
Definition ex_volume : gmap Z (list Z) := <[45 := ex_bitmap]> ex_files.
Definition ex_inode2 : inode := Inode 1 2 1 1 T_FILE 0 0 1 5 (46 :: replicate 12 0).

(** Inode 2 locked and read, one operation under way. *)
Definition start_op (x : inode) (s : kstate) : kstate :=
  s <| k_log := Logstate 2 30 1 0 1 0 (replicate 30 0) |> <| k_inodes ::= <[0%nat := x]> |>.

Lemma ex_volume_blocks n : length (dblock ex_volume n) = Z.to_nat BSIZE.
Proof.
  unfold ex_volume. rewrite dblock_insert. case_decide; [by vm_compute|apply ex_files_blocks].
Qed.

Lemma ex_layout : layout 2 ex_sb.
Proof. split; vm_compute; try split; discriminate. Qed.

Lemma ex_meta_used : meta_used (dblock ex_volume) ex_sb.
Proof.
  intros b Hb. change (sb_bmapstart ex_sb) with 45 in Hb.
  assert (Hc : forallb (used (dblock ex_volume) ex_sb) (zrange 0 46) = true) by (vm_compute; reflexivity).
  rewrite forallb_forall in Hc. apply Hc, list_elem_of_In, elem_of_zrange. lia.
Qed.

Lemma ex_addrs j : 0 <= j -> file_addr (dblock ex_volume) (i_addrs ex_inode2) j = if decide (j = 0) then 46 else 0.
Proof.
  intros Hj. unfold file_addr. change (aget (i_addrs ex_inode2) NDIRECT) with 0. cbn [Z.eqb].
  case_decide as E; [by rewrite E|]. destruct (Z.ltb_spec j NDIRECT) as [Hl|]; [|done]. change NDIRECT with 12 in Hl.
  assert (Hin : j ∈ zrange 1 11) by (apply elem_of_zrange; lia).
  assert (Hz : Forall (λ j, aget (i_addrs ex_inode2) j = 0) (zrange 1 11)) by (repeat constructor).
  exact (proj1 (Forall_forall _ _) Hz j Hin).
Qed.

Lemma ex_file_ok : file_ok ex_sb (dblock ex_volume) (i_addrs ex_inode2).
Proof.
  split; [done|]. change (aget (i_addrs ex_inode2) NDIRECT) with 0. split; [| |done|].
  - intros j Hj. rewrite ex_addrs by lia. case_decide; [|done]. intros _. split; [done|by vm_compute].
  - intros j k Hj Hk. rewrite !ex_addrs by lia. repeat case_decide; lia.
  - done.
Qed.

Lemma ex_holds : holds_file (dblock ex_volume) (i_addrs ex_inode2) [11; 12; 13; 14; 15].
Proof.
  intros bn H1 H2. change BSIZE with 1024 in H2. simpl in H2. assert (bn = 0) as -> by lia.
  rewrite ex_addrs by lia. split; [done|]. vm_compute. reflexivity.
Qed.

Lemma start_op_ok V x y c d s :
  ready (DL := sync_law) 1 (zero_hart 0) ex_cpu 0 ex_proc ∅ V s -> k_sb s = ex_sb ->
  lock_free L_log s -> k_inodes s !! 0%nat = Some y -> meta_used V ex_sb -> file_ok ex_sb V (i_addrs x) ->
  holds_file V (i_addrs x) c -> i_dev x = 1 -> 0 <= i_inum x < sb_ninodes ex_sb -> inode_wf x ->
  i_size x = Z.of_nat (length c) -> Z.of_nat (length c) <= MAXFILE * BSIZE -> k_disk s = d ->
  fs_op (DL := sync_law) 1 2 (zero_hart 0) ex_cpu 0 ex_proc ex_sb 0 x c [] V (start_op x s)
  ∧ lg_size (k_log (start_op x s)) = 30 ∧ k_disk (start_op x s) = d.
Proof.
  intros [Hc Hb] Hsb Hlk Hi Hm Hf Hh Hd Hn Hw Hs Hc' Hk. split; [|done]. split; try done.
  - split; try done.
    + by eapply calm_ext.
    + apply tx_ok_nil.
    + by eapply bcache_ext.
  - simpl. apply list_lookup_insert_eq. by eapply lookup_lt_Some.
Qed.

Lemma ex_free : has_free 2 (dblock ex_volume) ex_sb.
Proof.
  exists [100; 101]. split; [apply NoDup_cons; split; [set_solver|apply NoDup_singleton]|]. split; [done|].
  intros b [->|[->|[]%not_elem_of_nil]%elem_of_cons]%elem_of_cons; (split; [vm_compute; split; discriminate || reflexivity|by vm_compute]).
Qed.

Definition ex_started : kstate := start_op ex_inode2 (ex_mounted ex_volume ex_sb 2).

Lemma ex_started_ok :
  fs_op (DL := sync_law) 1 2 (zero_hart 0) ex_cpu 0 ex_proc ex_sb 0 ex_inode2 [11; 12; 13; 14; 15] [] (dblock ex_volume)
    ex_started ∧ lg_size (k_log ex_started) = 30 ∧ k_disk ex_started = ex_volume.
Proof.
  destruct (ex_mounted_ok ex_volume ex_sb 2 ex_volume_blocks) as (M1 & M2 & M3 & M4 & M5 & M6 & M7 & _).
  unfold ex_started. revert M1 M2 M5 M6 M7. generalize (ex_mounted ex_volume ex_sb 2).
  intros s M1 M2 M5 M6 M7. apply start_op_ok with (y := Inode 1 2 1 0 0 0 0 0 0 (replicate 13 0)).
  - exact M1.
  - exact M5.
  - exact M6.
  - exact M2.
  - exact ex_meta_used.
  - exact ex_file_ok.
  - exact ex_holds.
  - reflexivity.
  - vm_compute. split; [discriminate|reflexivity].
  - split; simpl; unfold T_FILE; lia.
  - reflexivity.
  - vm_compute. discriminate.
  - exact M7.
Qed.

Lemma writei_readi_witness :
  let H : Fuel := 1%nat in let D : DiskDriver := sync_disk in let Y : Symbols := example_symbols in
  ∃ s' s'', run no_wait (writei 0 (S_local [21; 22; 23]) 5 3 ex_started) = Ok 3 s'
    ∧ run no_wait (readi 0 D_local 3 10 s') = Ok (5, [14; 15; 21; 22; 23]) s''.
Proof.
  intros H D Y. destruct ex_started_ok as (O & Hsz & _). revert O Hsz. generalize ex_started. intros s O Hsz.
  destruct (writei_readi (DL := sync_law) 1 2 (zero_hart 0) ex_cpu 0 ex_proc ex_sb 0 ex_inode2 [11; 12; 13; 14; 15] []
    (dblock ex_volume) s 5 [21; 22; 23]) as (bs' & V' & x' & s' & E & _ & W & _ & R).
  - apply le_n.
  - exact ex_layout.
  - exact O.
  - vm_compute. split; discriminate.
  - vm_compute. discriminate.
  - exact ex_free.
  - rewrite Hsz. vm_compute. discriminate.
  - assert (Es : i_size x' = 8) by (rewrite (wf_inode _ _ _ _ _ _ W); reflexivity).
    destruct (R 3 10) as (s'' & E'); [rewrite Es; lia|lia|lia|]. rewrite Es in E'. exists s', s''. split; [exact E|exact E'].
Defined.

Lemma write_crash_atomic_witness :
  let H : Fuel := 1%nat in let D : DiskDriver := sync_disk in let Y : Symbols := example_symbols in
  ∃ x' s' s'', run no_wait (writei 0 (S_local [21; 22; 23]) 5 3 ex_started) = Ok 3 s' ∧ run no_wait (commit s') = Ok tt s''
    ∧ file_on_disk ex_sb (dblock (k_disk s'')) x' [11; 12; 13; 14; 15; 21; 22; 23].
Proof.
  intros H D Y. destruct ex_started_ok as (O & Hsz & Hd). revert O Hsz Hd. generalize ex_started. intros s O Hsz Hd.
  destruct (write_crash_atomic (DL := sync_law) 1 2 (zero_hart 0) ex_cpu 0 ex_proc ex_sb 0 ex_inode2 [11; 12; 13; 14; 15]
    (dblock ex_volume) s 5 [21; 22; 23]) as (x' & s' & s'' & w & E1 & E2 & _ & Hf & _).
  - apply le_n.
  - exact ex_layout.
  - reflexivity.
  - rewrite Hd. vm_compute. reflexivity.
  - exact O.
  - vm_compute. reflexivity.
  - vm_compute. split; discriminate.
  - vm_compute. discriminate.
  - exact ex_free.
  - rewrite Hsz. vm_compute. discriminate.
  - exists x', s', s''. split; [exact E1|]. split; [exact E2|exact Hf].
Defined.
