(* ===== verification/FsDir.v ===== *)
(** * Directories

    A directory is a file of 16-byte entries, an inode number and a name each.
    Seen from outside it is a map from names to inode numbers ([dir_lookup]):
    dirlookup() looks a name up in that map, and dirlink() adds one to it, in
    the transaction of its caller, reusing an empty entry or growing the file. *)

From Stdlib Require Import ZArith Lia.
From stdpp Require Import base numbers functions list gmap strings.
From S2P Require Import Prelude Machine Kernel Riscv Strings Spinlock Proc Sleeplock Virtio Bio BioSpec Log LogSpec.
From S2P Require Import Fs FsSpec FsView FsRead FsAlloc FsWrite.

(** ** Entries *)

Definition entry (c : list Z) (k : Z) : list Z := slice (16 * k) 16 c.
Definition entries_of (c : list Z) : nat := Z.to_nat (Z.of_nat (length c) / 16).

(** Entry [k] is in use and has the name [nm]. *)
Definition entry_is (nm c : list Z) (k : Z) : bool :=
  negb (de_inum (entry c k) =? 0) && bool_decide (cstr 14 (de_name (entry c k)) = nm).

(** The entry with a name, and the map from names to inode numbers. *)
Definition dir_find (nm c : list Z) : option Z := List.find (entry_is nm c) (zrange 0 (entries_of c)).
Definition dir_lookup (nm c : list Z) : option Z := (λ k, de_inum (entry c k)) <$> dir_find nm c.

(** What dirlink() takes for an empty entry: the first unused one, or the end. *)
Definition free_entry (c : list Z) : Z :=
  default (Z.of_nat (entries_of c)) (List.find (λ k, de_inum (entry c k) =? 0) (zrange 0 (entries_of c))).

Record dir_ok (x : inode) (c : list Z) : Prop := {
  dk_type : i_type x = T_DIR;
  dk_whole : Z.of_nat (length c) mod 16 = 0;
  dk_bytes : bytes_ok c
}.

Lemma length_entry c k : 0 <= k < Z.of_nat (entries_of c) -> length (entry c k) = 16%nat.
Proof.
  intros Hk. unfold entry, slice, entries_of in *. rewrite length_take, length_drop. zmod.
Qed.

Lemma bytes_ok_slice c o n : bytes_ok c -> bytes_ok (slice o n c).
Proof. intros H. unfold slice. by apply Forall_take, Forall_drop. Qed.

(** The name of an entry compares equal exactly to the names with its bytes. *)
Lemma namecmp_entry name c k :
  bytes_ok c -> bytes_ok name -> (14 <= length name)%nat -> 0 <= k < Z.of_nat (entries_of c) ->
  ∃ r, (∀ s, namecmp name (de_name (entry c k)) s = Ok r s)
    ∧ (r =? 0) = bool_decide (cstr 14 (de_name (entry c k)) = cstr 14 name).
Proof.
  intros Hc Hn Ln Hk. pose proof (length_entry c k Hk) as Hl.
  destruct (strncmp_zero name (de_name (entry c k)) 14) as (r & Hr & Hi).
  - done.
  - unfold de_name. apply Forall_drop. by apply bytes_ok_slice.
  - done.
  - unfold de_name. rewrite length_drop, Hl. lia.
  - exists r. split; [intros s; unfold namecmp; change (Z.to_nat DIRSIZ) with 14%nat; by rewrite Hr|].
    destruct (Z.eqb_spec r 0) as [E|E]; symmetry; [apply bool_decide_eq_true|apply bool_decide_eq_false].
    + symmetry. by apply Hi.
    + intros E'. by apply E, Hi.
Qed.

(** ** The map after an entry is written *)

Section link.
Context (c : list Z) (inum : Z) (nm : list Z) (k : Z).
Context (Hw : Z.of_nat (length c) mod 16 = 0) (Hnm : length nm = 14%nat) (Hi : 0 < inum < 2 ^ 16).
Context (Hk : 0 <= k <= Z.of_nat (entries_of c)).
Context (Hfree : k < Z.of_nat (entries_of c) -> de_inum (entry c k) = 0).
Abbreviation c' := (splice (16 * k) (le_bytes 2 inum ++ nm) c).

Lemma link_length : length c' = Nat.max (length c) (Z.to_nat (16 * k) + 16).
Proof using All.
  rewrite length_splice_grow by (unfold entries_of in Hk; zmod). by rewrite length_app, length_le_bytes, Hnm.
Qed.

Lemma link_entries : Z.of_nat (entries_of c') = Z.max (Z.of_nat (entries_of c)) (k + 1).
Proof using All. unfold entries_of in *. rewrite link_length. zmod. Qed.

Lemma link_entry j : 0 <= j -> entry c' j = if decide (j = k) then le_bytes 2 inum ++ nm else entry c j.
Proof using All.
  intros Hj. assert (Hlb : length (le_bytes 2 inum ++ nm) = 16%nat) by (by rewrite length_app, length_le_bytes, Hnm).
  assert (Hle : (Z.to_nat (16 * k) <= length c)%nat) by (unfold entries_of in Hk; zmod).
  unfold entry, slice. apply list_eq. intros i. destruct (decide (i < 16)%nat) as [Hi16|Hi16].
  - rewrite lookup_take_lt, lookup_drop, splice_grow_lookup, Hlb by done. case_decide as Hd; case_decide as E; try lia.
    + f_equal. lia.
    + by rewrite lookup_take_lt, lookup_drop.
  - rewrite lookup_take_ge by lia. symmetry. apply lookup_ge_None. case_decide; [lia|]. rewrite length_take. lia.
Qed.

Lemma link_new_inum : de_inum (le_bytes 2 inum ++ nm) = inum.
Proof using All.
  unfold de_inum, get16, slice. change (Z.to_nat 0) with 0%nat. rewrite drop_0.
  rewrite take_app_length' by (by rewrite length_le_bytes). rewrite le_val_bytes. apply Z.mod_small. change (256 ^ Z.of_nat 2) with (2 ^ 16). lia.
Qed.

(** A name that was not there is now, and the others have not moved. *)
Lemma link_find n :
  dir_find n c = None ∨ n <> cstr 14 nm ->
  dir_find n c' = if decide (n = cstr 14 nm) then Some k else dir_find n c.
Proof using All.
  intros Hn. unfold dir_find.
  pose proof (find_zrange (entry_is n c') (entries_of c') 0) as F'. pose proof (find_zrange (entry_is n c) (entries_of c) 0) as F.
  pose proof link_entries as He.
  assert (Ek : entry_is n c' k = bool_decide (cstr 14 nm = n)).
  { unfold entry_is. rewrite link_entry, decide_True by (lia || done). rewrite link_new_inum.
    destruct (Z.eqb_spec inum 0); [lia|]. cbn [negb andb]. unfold de_name. by rewrite drop_app_length' by (by rewrite length_le_bytes). }
  assert (Eo : ∀ j, 0 <= j -> j <> k -> entry_is n c' j = entry_is n c j).
  { intros j Hj Hne. unfold entry_is. by rewrite link_entry, decide_False by done. }
  assert (Ekc : k < Z.of_nat (entries_of c) -> entry_is n c k = false).
  { intros Hlt. unfold entry_is. by rewrite Hfree. }
  destruct (decide (n = cstr 14 nm)) as [->|Hne].
  - destruct Hn as [Hn|]; [|done]. unfold dir_find in Hn. rewrite Hn in F.
    rewrite bool_decide_true in Ek by done.
    destruct (List.find (entry_is (cstr 14 nm) c') _) as [j|].
    + destruct F' as (Hj & Ej & _). destruct (decide (j = k)) as [->|Hjk]; [done|].
      rewrite Eo in Ej by lia. rewrite F in Ej by lia. done.
    + rewrite F' in Ek by lia. done.
  - rewrite bool_decide_false in Ek by done.
    destruct (List.find (entry_is n c') _) as [j|]; destruct (List.find (entry_is n c) _) as [i|].
    + destruct F' as (Hj & Ej & Fj). destruct F as (Hi' & Ei & Fi). f_equal.
      assert (Hjk : j <> k) by (intros ->; congruence).
      assert (Hik : i <> k) by (intros ->; rewrite Ekc in Ei by lia; done).
      rewrite Eo in Ej by lia.
      destruct (Z.lt_trichotomy i j) as [Hlt|[Heq|Hgt]]; [|done|].
      * specialize (Fj i ltac:(lia)). rewrite Eo in Fj by lia. congruence.
      * rewrite Fi in Ej by lia. done.
    + destruct F' as (Hj & Ej & Fj). assert (Hjk : j <> k) by (intros ->; congruence).
      rewrite Eo in Ej by lia. rewrite F in Ej by lia. done.
    + destruct F as (Hi' & Ei & Fi). assert (Hik : i <> k) by (intros ->; rewrite Ekc in Ei by lia; done).
      specialize (F' i ltac:(lia)). rewrite Eo in F' by lia. congruence.
    + done.
Qed.
End link.

(** ** iget() *)

Lemma iget_scan_ok dev inum l i e :
  match iget_scan dev inum i l e with
  | inl j => ∃ y, (i <= j)%nat ∧ l !! (j - i)%nat = Some y ∧ 0 < i_ref y ∧ i_dev y = dev ∧ i_inum y = inum
  | inr (Some j) => e = Some j ∨ ∃ y, (i <= j)%nat ∧ l !! (j - i)%nat = Some y ∧ i_ref y = 0
  | inr None => e = None
  end.
Proof.
  revert i e. induction l as [|x l IH]; intros i e; cbn [iget_scan].
  - destruct e; [by left|done].
  - destruct ((0 <? i_ref x) && (i_dev x =? dev) && (i_inum x =? inum)) eqn:Eh.
    + zb. exists x. rewrite Nat.sub_diag. split_and!; done || lia.
    + specialize (IH (S i) (match e with None => if i_ref x =? 0 then Some i else None | Some e => Some e end)).
      destruct (iget_scan dev inum (S i) l _) as [j|[j|]].
      * destruct IH as (y & Hj & Hy & Hr). exists y. split; [lia|]. split; [|done].
        by replace (j - i)%nat with (S (j - S i)) by lia.
      * destruct IH as [He|(y & Hj & Hy & Hr)].
        -- destruct e as [e|]; [by left|]. destruct (Z.eqb_spec (i_ref x) 0); [|done]. injection He as <-.
           right. exists x. by rewrite Nat.sub_diag.
        -- right. exists y. split; [lia|]. split; [|done]. by replace (j - i)%nat with (S (j - S i)) by lia.
      * destruct e; [done|]. done.
Qed.

Section dir.
Context `{Fuel} (Hfuel : (1 <= fuel)%nat) `{Symbols} `{DL : DiskLaw} (dev st : Z).
Context (h : hart) (cp : cpu) (p : nat) (px : proc) (sb : superblock) (Hly : layout st sb).
Abbreviation fs_op := (fs_op dev st h cp p px sb).

Lemma enter_inodes l s f : (enter l s) <| k_inodes ::= f |> = enter l (s <| k_inodes ::= f |>).
Proof. by keq. Qed.

Lemma iget_ok s inum :
  calm s h cp p px -> lock_free L_itable s -> iget_scan dev inum 0 (k_inodes s) None <> inr None ->
  ∃ ip y y', k_inodes s !! ip = Some y ∧ iget dev inum s = Ok ip (s <| k_inodes ::= upd ip (λ _, y') |>)
    ∧ i_dev y' = dev ∧ i_inum y' = inum ∧ 1 <= i_ref y' ∧ (i_ref y <> 0 -> y' = y <| i_ref := i_ref y + 1 |>).
Proof using Hfuel.
  intros Hc Hlk Hne. pose proof (c_quiet _ _ _ _ _ Hc) as Hq. unfold iget.
  krun (acquire_ok Hfuel L_itable s h cp Hq Hlk). rewrite bind_gets.
  change (k_inodes (enter L_itable s)) with (k_inodes s).
  pose proof (iget_scan_ok dev inum (k_inodes s) 0 None) as Hs.
  assert (Hend : ∀ i y (f : inode -> inode), k_inodes s !! i = Some y ->
    (updi i f ;; release L_itable ;; ret i) (enter L_itable s) = Ok i (s <| k_inodes ::= upd i (λ _, f y) |>)).
  { intros i y f Hy. krun (updi_ok i y f (enter L_itable s) Hy). rewrite enter_inodes.
    set (s1 := s <| k_inodes ::= _ |>). assert (Hq1 : quiet s1 h cp) by (by eapply quiet_ext).
    assert (Hl1 : lock_free L_itable s1) by (by eapply lock_free_ext). krun (release_ok L_itable s1 h cp Hq1 Hl1).
    unfold ret. f_equal. keq. by eapply upd_ext. }
  destruct (iget_scan dev inum 0 (k_inodes s) None) as [i|[i|]]; [| |done].
  - destruct Hs as (y & _ & Hy & Hr & Hd & Hn). rewrite Nat.sub_0_r in Hy.
    exists i, y, (y <| i_ref ::= λ n, n + 1 |>). split; [done|]. split; [by apply (Hend i y)|]. simpl. split_and!; done || lia.
  - destruct Hs as [|(y & _ & Hy & Hr)]; [done|]. rewrite Nat.sub_0_r in Hy.
    exists i, y. eexists. split; [done|]. split; [by apply (Hend i y)|]. simpl. split_and!; done || lia.
Qed.

(** ** Searching *)

Section search.
Context (dp : nat) (x : inode) (c bs : list Z) (V : Z -> list Z) (Hdir : dir_ok x c).

Lemma entry_read s k :
  fs_op dp x c bs V s -> 0 <= k < Z.of_nat (entries_of c) ->
  ∃ s', run env (readi dp D_local (16 * k) 16 s) = Ok (16, entry c k) s' ∧ fs_op dp x c bs V s' ∧ log_frame s s'.
Proof using Hfuel Hly.
  intros O Hk. destruct (fo_size _ _ _ _ _ _ _ _ _ _ _ _ _ O) as [Hsz Hmax]. change (MAXFILE * BSIZE) with 274432 in Hmax.
  unfold entries_of in Hk. assert (Hk2 : 16 * k + 16 <= Z.of_nat (length c)) by zmod.
  destruct (fs_op_readi Hfuel dev st h cp p px sb Hly dp x c bs V s (16 * k) 16 O) as (s' & E & O' & F); [lia..|].
  replace (Z.min 16 (i_size x - 16 * k)) with 16 in E by lia. by exists s'.
Qed.

Lemma size_entries s : fs_op dp x c bs V s -> i_size x = 16 * Z.of_nat (entries_of c) ∧ i_size x <= 274432.
Proof using Hdir.
  intros O. destruct (fo_size _ _ _ _ _ _ _ _ _ _ _ _ _ O) as [Hsz Hmax]. change (MAXFILE * BSIZE) with 274432 in Hmax.
  pose proof (dk_whole _ _ Hdir) as Hw. unfold entries_of. rewrite Hsz. clear -Hw Hmax. split; [zmod|lia].
Qed.

(** One entry that is not the one looked for. *)
Lemma dirlookup_next name s k :
  bytes_ok name -> (14 <= length name)%nat -> fs_op dp x c bs V s -> 0 <= k < Z.of_nat (entries_of c) ->
  entry_is (cstr 14 name) c k = false ->
  ∃ s', run env (dirlookup_body dp name (16 * k) s) = Ok (inl (16 * (k + 1))) s' ∧ fs_op dp x c bs V s' ∧ log_frame s s'.
Proof using Hfuel Hly Hdir.
  intros Hn Ln O Hk He. destruct (size_entries s O) as [Hsz Hmax].
  destruct (entry_read s k O Hk) as (s' & E & O' & F). exists s'. split; [|done].
  unfold dirlookup_body. krun (geti_ok _ _ _ (fo_inode _ _ _ _ _ _ _ _ _ _ _ _ _ O)).
  destruct (Z.ltb_spec (16 * k) (i_size x)); [|lia]. cbn [negb]. rewrite (run_bind _ _ _ _ _ _ E). cbn [Z.eqb Pos.eqb negb].
  replace (u32 (16 * k + 16)) with (16 * (k + 1)) by (rewrite u32_small; lia).
  unfold entry_is in He. destruct (Z.eqb_spec (de_inum (entry c k)) 0) as [|Hz]; [done|].
  destruct (namecmp_entry name c k (dk_bytes _ _ Hdir) Hn Ln Hk) as (r & Hr & Er). krun (Hr s').
  cbn [negb andb] in He. by rewrite Er, He.
Qed.

(** The entry looked for. *)
Lemma dirlookup_hit name s k :
  bytes_ok name -> (14 <= length name)%nat -> fs_op dp x c bs V s -> 0 <= k < Z.of_nat (entries_of c) ->
  entry_is (cstr 14 name) c k = true -> lock_free L_itable s ->
  iget_scan dev (de_inum (entry c k)) 0 (k_inodes s) None <> inr None ->
  ∃ s' ip y y', run env (dirlookup_body dp name (16 * k) s)
      = Ok (inr (Some (ip, 16 * k))) (s' <| k_inodes ::= upd ip (λ _, y') |>)
    ∧ fs_op dp x c bs V s' ∧ log_frame s s' ∧ k_inodes s' !! ip = Some y ∧ i_dev y' = dev
    ∧ i_inum y' = de_inum (entry c k) ∧ 1 <= i_ref y' ∧ (i_ref y <> 0 -> y' = y <| i_ref := i_ref y + 1 |>).
Proof using Hfuel Hly Hdir.
  intros Hn Ln O Hk He Hlk Hget. destruct (size_entries s O) as [Hsz Hmax].
  destruct (entry_read s k O Hk) as (s' & E & O' & F).
  destruct (iget_ok s' (de_inum (entry c k))) as (ip & y & y' & Hy & Ei & Rest).
  { apply (fo_tx _ _ _ _ _ _ _ _ _ _ _ _ _ O'). }
  { eapply lock_free_ext; [done|]. exact (f_equal k_locks (bf_eq _ _ (lf_bio _ _ F))). }
  { by rewrite (log_frame_inodes _ _ F). }
  exists s', ip, y, y'. split; [|done].
  unfold dirlookup_body. krun (geti_ok _ _ _ (fo_inode _ _ _ _ _ _ _ _ _ _ _ _ _ O)).
  destruct (Z.ltb_spec (16 * k) (i_size x)); [|lia]. cbn [negb]. rewrite (run_bind _ _ _ _ _ _ E). cbn [Z.eqb Pos.eqb negb].
  unfold entry_is in He. destruct (Z.eqb_spec (de_inum (entry c k)) 0) as [|Hz]; [done|].
  destruct (namecmp_entry name c k (dk_bytes _ _ Hdir) Hn Ln Hk) as (r & Hr & Er). krun (Hr s').
  cbn [negb andb] in He. rewrite Er, He. rewrite (fo_dev _ _ _ _ _ _ _ _ _ _ _ _ _ O). by krun Ei.
Qed.

(** What looking up a name comes to: [None], or the entry [k] and its inode. *)
Definition looked_up (s : kstate) (k : option Z) (o : out (option (nat * Z))) : Prop :=
  match k with
  | None => ∃ s', o = Ok None s' ∧ fs_op dp x c bs V s' ∧ log_frame s s'
  | Some k =>
      iget_scan dev (de_inum (entry c k)) 0 (k_inodes s) None <> inr None ->
      ∃ s' ip y y', o = Ok (Some (ip, 16 * k)) (s' <| k_inodes ::= upd ip (λ _, y') |>)
        ∧ fs_op dp x c bs V s' ∧ log_frame s s' ∧ k_inodes s' !! ip = Some y ∧ i_dev y' = dev
        ∧ i_inum y' = de_inum (entry c k) ∧ 1 <= i_ref y' ∧ (i_ref y <> 0 -> y' = y <| i_ref := i_ref y + 1 |>)
  end.

Lemma looked_up_frame s s1 k o : log_frame s s1 -> looked_up s1 k o -> looked_up s k o.
Proof.
  intros F. destruct k as [k|]; simpl.
  - intros Hl Hg. rewrite <- (log_frame_inodes _ _ F) in Hg. destruct (Hl Hg) as (s' & ip & y & y' & E & O & F' & Rest).
    exists s', ip, y, y'. split; [done|]. split; [done|]. split; [by etrans|done].
  - intros (s' & E & O & F'). exists s'. split; [done|]. split; [done|by etrans].
Qed.

Lemma dirlookup_scan name m a s :
  bytes_ok name -> (14 <= length name)%nat -> fs_op dp x c bs V s -> lock_free L_itable s ->
  0 <= a -> a + Z.of_nat m = Z.of_nat (entries_of c) ->
  looked_up s (List.find (entry_is (cstr 14 name) c) (zrange a m))
    (run env (loop (m + 2) (dirlookup_body dp name) (16 * a) s)).
Proof using Hfuel Hly Hdir.
  intros Hn Ln. revert a s. induction m as [|m IH]; intros a s O Hlk Ha Hm.
  { change (zrange a 0) with (@nil Z). cbn [Nat.add loop List.find]. destruct (size_entries s O) as [Hsz _].
    exists s. split; [|done]. unfold dirlookup_body at 1. rewrite (run_bind env _ _ _ (inr None) s); [done|].
    krun (geti_ok _ _ _ (fo_inode _ _ _ _ _ _ _ _ _ _ _ _ _ O)). destruct (Z.ltb_spec (16 * a) (i_size x)); [lia|done]. }
  rewrite zrange_S. cbn [Nat.add loop List.find]. destruct (entry_is (cstr 14 name) c a) eqn:E.
  - intros Hg. destruct (dirlookup_hit name s a Hn Ln O ltac:(lia) E Hlk Hg) as (s' & ip & y & y' & Eb & Rest).
    exists s', ip, y, y'. split; [|done]. by rewrite (run_bind _ _ _ _ _ _ Eb).
  - destruct (dirlookup_next name s a Hn Ln O ltac:(lia) E) as (s1 & E1 & O1 & F1).
    rewrite (run_bind _ _ _ _ _ _ E1). eapply looked_up_frame; [exact F1|]. apply IH; [done| |lia|lia].
    eapply lock_free_ext; [done|]. exact (f_equal k_locks (bf_eq _ _ (lf_bio _ _ F1))).
Qed.

Lemma dirlookup_ok name s :
  bytes_ok name -> (14 <= length name)%nat -> fs_op dp x c bs V s -> lock_free L_itable s ->
  looked_up s (dir_find (cstr 14 name) c) (run env (dirlookup dp name s)).
Proof using Hfuel Hly Hdir.
  intros Hn Ln O Hlk. unfold dirlookup. krun (geti_ok _ _ _ (fo_inode _ _ _ _ _ _ _ _ _ _ _ _ _ O)).
  rewrite (dk_type _ _ Hdir). cbn [Z.eqb Pos.eqb negb]. change (T_DIR =? T_DIR) with true. cbn [negb].
  destruct (size_entries s O) as [Hsz _].
  replace (Z.to_nat (i_size x / 16)) with (entries_of c) by (unfold entries_of in *; zmod).
  by apply dirlookup_scan.
Qed.

(** dirlink()'s search for an empty entry. *)
Lemma dirlink_scan m a s :
  fs_op dp x c bs V s -> 0 <= a -> a + Z.of_nat m = Z.of_nat (entries_of c) ->
  ∃ s', run env (loop (m + 2) (dirlink_body dp) (16 * a) s)
      = Ok (16 * default (Z.of_nat (entries_of c)) (List.find (λ k, de_inum (entry c k) =? 0) (zrange a m))) s'
    ∧ fs_op dp x c bs V s' ∧ log_frame s s'.
Proof using Hfuel Hly Hdir.
  revert a s. induction m as [|m IH]; intros a s O Ha Hm; destruct (size_entries s O) as [Hsz _].
  { exists s. split; [|done]. change (zrange a 0) with (@nil Z). cbn [Nat.add loop List.find default].
    unfold dirlink_body at 1. rewrite (run_bind env _ _ _ (inr (16 * a)) s); [simpl; do 2 f_equal; lia|].
    krun (geti_ok _ _ _ (fo_inode _ _ _ _ _ _ _ _ _ _ _ _ _ O)). destruct (Z.ltb_spec (16 * a) (i_size x)); [lia|done]. }
  rewrite zrange_S. cbn [Nat.add loop List.find]. destruct (entry_read s a O ltac:(lia)) as (s1 & E1 & O1 & F1).
  assert (Eb : run env (dirlink_body dp (16 * a) s)
    = Ok (if de_inum (entry c a) =? 0 then inr (16 * a) else inl (16 * (a + 1))) s1).
  { unfold dirlink_body. krun (geti_ok _ _ _ (fo_inode _ _ _ _ _ _ _ _ _ _ _ _ _ O)).
    destruct (Z.ltb_spec (16 * a) (i_size x)); [|lia]. cbn [negb]. rewrite (run_bind _ _ _ _ _ _ E1). cbn [Z.eqb Pos.eqb negb].
    replace (16 * (a + 1)) with (16 * a + 16) by lia. by destruct (de_inum (entry c a) =? 0). }
  rewrite (run_bind _ _ _ _ _ _ Eb). destruct (de_inum (entry c a) =? 0).
  - by exists s1.
  - destruct (IH (a + 1) s1 O1 ltac:(lia) ltac:(lia)) as (s2 & E2 & O2 & F2).
    exists s2. split; [done|]. split; [done|by etrans].
Qed.
End search.

(** ** dirlink() *)

(** The name as it is stored. *)
Lemma stored_name name :
  bytes_ok name -> (14 <= length name)%nat ->
  ∃ nm, strncpy (replicate 14 0) name 14 = Some nm ∧ length nm = 14%nat ∧ bytes_ok nm ∧ cstr 14 nm = cstr 14 name.
Proof.
  intros Hn Ln. destruct (strncpy_total (replicate 14 0) name 14) as [nm Hnm]; [done|done|].
  pose proof (strncpy_spec _ _ _ _ Hnm) as E. rewrite drop_replicate in E. simpl replicate at 2 in E.
  rewrite app_nil_r in E. pose proof (cstr_length 14 name). exists nm. split; [done|]. rewrite E. split_and!.
  - rewrite length_app, length_replicate. lia.
  - apply Forall_app. split; [by apply cstr_bytes_ok|apply Forall_replicate; lia].
  - apply cstr_padded.
Qed.

Lemma free_entry_ok c :
  0 <= free_entry c <= Z.of_nat (entries_of c)
  ∧ (free_entry c < Z.of_nat (entries_of c) -> de_inum (entry c (free_entry c)) = 0).
Proof.
  unfold free_entry. pose proof (find_zrange (λ k, de_inum (entry c k) =? 0) (entries_of c) 0) as F.
  destruct (List.find _ _) as [k|]; simpl; [|lia]. destruct F as (Hk & E & _). zb. split; [lia|done].
Qed.

Lemma file_frame_lock ip s s' l : file_frame ip s s' -> lock_free l s -> lock_free l s'.
Proof.
  intros [F _] Hl. eapply lock_free_ext; [done|]. exact (f_equal k_locks (bf_eq _ _ (lf_bio _ _ F))).
Qed.

(** A directory to which the name [nm] has been added. *)
Definition dir_added (nm : list Z) (inum : Z) (c c' : list Z) : Prop :=
  ∀ n, dir_lookup n c' = if decide (n = nm) then Some inum else dir_lookup n c.

Lemma link_added c inum nm k :
  Z.of_nat (length c) mod 16 = 0 -> length nm = 14%nat -> 0 < inum < 2 ^ 16 -> 0 <= k <= Z.of_nat (entries_of c) ->
  (k < Z.of_nat (entries_of c) -> de_inum (entry c k) = 0) -> dir_find (cstr 14 nm) c = None ->
  dir_added (cstr 14 nm) inum c (splice (16 * k) (le_bytes 2 inum ++ nm) c).
Proof.
  intros Hw Hnm Hi Hk Hfree Hnone n. unfold dir_lookup.
  rewrite (link_find c inum nm k Hw Hnm Hi Hk Hfree) by (destruct (decide (n = cstr 14 nm)) as [->|]; [by left|by right]).
  case_decide as Hn; cbn [fmap option_fmap option_map].
  - f_equal. rewrite (link_entry c inum nm k Hw Hnm Hi Hk Hfree), decide_True by (lia || done).
    by eapply (link_new_inum c inum nm k).
  - destruct (dir_find n c) as [j|] eqn:E; [|done]. cbn. f_equal. f_equal. unfold dir_find in E.
    pose proof (find_zrange (entry_is n c) (entries_of c) 0) as F. rewrite E in F. destruct F as (Hj & Ej & _).
    rewrite (link_entry c inum nm k Hw Hnm Hi Hk Hfree), decide_False; [done| |lia].
    intros ->. unfold entry_is in Ej. rewrite Hfree in Ej by lia. done.
Qed.

Lemma link_dir_ok x x' c inum nm k :
  dir_ok x c -> i_type x' = i_type x -> length nm = 14%nat -> bytes_ok nm -> 0 < inum < 2 ^ 16 ->
  0 <= k <= Z.of_nat (entries_of c) -> (k < Z.of_nat (entries_of c) -> de_inum (entry c k) = 0) ->
  dir_ok x' (splice (16 * k) (le_bytes 2 inum ++ nm) c).
Proof.
  intros [Ht Hw Hb] Et Hnm Hbn Hi Hk Hfree. split.
  - by rewrite Et.
  - rewrite (link_length c inum nm k Hw Hnm Hi Hk Hfree). zmod.
  - unfold splice. apply Forall_app. split; [by apply Forall_take|]. apply Forall_app. split; [|by apply Forall_drop].
    apply Forall_app. split; [apply le_bytes_range|done].
Qed.

Lemma dirlink_ok dp x c bs V name inum s :
  dir_ok x c -> bytes_ok name -> (14 <= length name)%nat -> fs_op dp x c bs V s -> lock_free L_itable s ->
  0 < inum < 2 ^ 16 -> dir_lookup (cstr 14 name) c = None -> Z.of_nat (length c) + 16 <= MAXFILE * BSIZE ->
  has_free (need (i_addrs x) 1) V sb -> Z.of_nat (length bs) + 4 <= lg_size (k_log s) - 1 ->
  ∃ bs' V' x' c' s', run env (dirlink dp name inum s) = Ok 0 s' ∧ fs_op dp x' c' bs' V' s' ∧ dir_ok x' c'
    ∧ dir_added (cstr 14 name) inum c c' ∧ wrote_file sb V x c' V' x' ∧ file_frame dp s s'.
Proof using Hfuel Hly.
  intros Hdir Hn Ln O Hlk Hi Hnone Hmax Hfree Hcap. change (MAXFILE * BSIZE) with 274432 in Hmax.
  assert (Hnf : dir_find (cstr 14 name) c = None) by (by apply fmap_None in Hnone).
  pose proof (dirlookup_ok dp x c bs V Hdir name s Hn Ln O Hlk) as Hd. rewrite Hnf in Hd. destruct Hd as (s1 & E1 & O1 & F1).
  destruct (size_entries dp x c bs V Hdir s O) as [Hsz _].
  destruct (dirlink_scan dp x c bs V Hdir (entries_of c) 0 s1 O1) as (s2 & E2 & O2 & F2); [done|done|].
  fold (free_entry c) in E2. destruct (free_entry_ok c) as [Hk Hk0]. set (k := free_entry c) in *.
  destruct (stored_name name Hn Ln) as (nm & Enm & Lnm & Bnm & Cnm).
  pose proof (dk_whole _ _ Hdir) as Hw. set (data := le_bytes 2 inum ++ nm).
  assert (Hdl : Z.of_nat (length data) = 16) by (unfold data; by rewrite length_app, length_le_bytes, Lnm).
  assert (Hp : parts_of (16 * k) (Z.of_nat (length data)) = 1%nat).
  { rewrite Hdl. unfold parts_of. change BSIZE with 1024. zmod. }
  destruct (writei_ok Hfuel dev st h cp p px sb Hly dp x c bs V s2 (16 * k) data O2) as (bs' & V' & x' & s3 & E3 & O3 & W & F3).
  - lia.
  - change (MAXFILE * BSIZE) with 274432. unfold entries_of in Hk. zmod.
  - by rewrite Hp.
  - rewrite Hp, (lf_size _ _ F2), (lf_size _ _ F1). lia.
  - rewrite Hdl in E3. exists bs', V', x', (splice (16 * k) data c), s3. split; [|split_and!; try done].
    + unfold dirlink. rewrite (run_bind _ _ _ _ _ _ E1). krun (geti_ok _ _ _ (fo_inode _ _ _ _ _ _ _ _ _ _ _ _ _ O1)).
      replace (Z.to_nat (i_size x / 16)) with (entries_of c) by (rewrite Hsz; zmod).
      rewrite (run_bind _ _ _ _ _ _ E2). change (Z.to_nat DIRSIZ) with 14%nat. rewrite Enm. cbn [deref].
      rewrite (bind_ok _ _ _ _ s2 eq_refl). rewrite (run_bind _ _ _ _ _ _ E3). done.
    + eapply link_dir_ok; try done. by rewrite (wf_inode _ _ _ _ _ _ W).
    + rewrite <- Cnm. apply link_added; try done. by rewrite Cnm.
    + etrans; [by apply log_file_frame|]. etrans; [by apply log_file_frame|done].
Qed.

(** ** Looking up by name *)

(** The inode table has inode [i] or room for it. *)
Definition has_slot (i : Z) (s : kstate) : Prop := iget_scan dev i 0 (k_inodes s) None <> inr None.

(** dirlookup() answers [r]: nothing, or a reference to the inode. *)
Definition finds (s : kstate) (r : option Z) (o : out (option (nat * Z))) : Prop :=
  match r with
  | None => ∃ s', o = Ok None s'
  | Some i => has_slot i s -> ∃ ip off y s', o = Ok (Some (ip, off)) s' ∧ k_inodes s' !! ip = Some y
                ∧ i_dev y = dev ∧ i_inum y = i ∧ 1 <= i_ref y
  end.

Lemma dirlookup_finds dp x c bs V s key :
  dir_ok x c -> bytes_ok key -> (14 <= length key)%nat -> fs_op dp x c bs V s -> lock_free L_itable s ->
  finds s (dir_lookup (cstr 14 key) c) (run env (dirlookup dp key s)).
Proof using Hfuel Hly.
  intros Hdir Hn Ln O Hlk. pose proof (dirlookup_ok dp x c bs V Hdir key s Hn Ln O Hlk) as Hd.
  unfold dir_lookup. destruct (dir_find (cstr 14 key) c) as [k|].
  - intros Hs. destruct (Hd Hs) as (s' & ip & y & y' & E & _ & _ & Hy & Y1 & Y2 & Y3 & _).
    exists ip, (16 * k), y', (s' <| k_inodes ::= upd ip (λ _, y') |>). split; [done|]. split; [|done].
    simpl. by rewrite upd_lookup, decide_True, Hy.
  - destruct Hd as (s' & E & _). by exists s'.
Qed.
End dir.

(** ** Property *)

(** C5: a directory is a map from names to inode numbers, a name being what is
    in front of its NUL in 14 bytes.  dirlookup() of any name finds what the map
    has: nothing, or a reference to that inode in the inode table.  dirlink() of
    a name that the map does not have returns 0, in an empty entry or in a new
    one, and dirlookup() finds that name with its number from then on, and
    every other name as before; the directory is still well formed, and no
    other inode or block in use has changed. *)
Theorem directory_map `{Fuel} `{Symbols} `{DL : DiskLaw} (dev st : Z) (h : hart) (cp : cpu) (p : nat) (px : proc)
    (sb : superblock) (dp : nat) (x : inode) (c bs : list Z) (V : Z -> list Z) (s : kstate) (name : list Z) (inum : Z) :
  (1 <= fuel)%nat -> layout st sb -> fs_op dev st h cp p px sb dp x c bs V s -> dir_ok x c -> lock_free L_itable s ->
  bytes_ok name -> (14 <= length name)%nat -> 0 < inum < 2 ^ 16 -> dir_lookup (cstr 14 name) c = None ->
  Z.of_nat (length c) + 16 <= MAXFILE * BSIZE -> has_free (need (i_addrs x) 1) V sb ->
  Z.of_nat (length bs) + 4 <= lg_size (k_log s) - 1 ->
  (∀ key, bytes_ok key -> (14 <= length key)%nat ->
     finds dev s (dir_lookup (cstr 14 key) c) (run env (dirlookup dp key s)))
  ∧ ∃ bs' V' x' c' s', run env (dirlink dp name inum s) = Ok 0 s'
    ∧ fs_op dev st h cp p px sb dp x' c' bs' V' s' ∧ dir_ok x' c' ∧ wrote_file sb V x c' V' x'
    ∧ ∀ key, bytes_ok key -> (14 <= length key)%nat ->
        finds dev s' (if decide (cstr 14 key = cstr 14 name) then Some inum else dir_lookup (cstr 14 key) c)
          (run env (dirlookup dp key s')).
Proof.
  intros Hf Hl O Hdir Hlk Hn Ln Hi Hnone Hmax Hfree Hcap. split.
  { intros key Hk Lk. eapply (dirlookup_finds Hf dev st h cp p px sb Hl); done. }
  destruct (dirlink_ok Hf dev st h cp p px sb Hl dp x c bs V name inum s)
    as (bs' & V' & x' & c' & s' & E & O' & Hdir' & Ha & W & F); try done.
  exists bs', V', x', c', s'. split_and!; try done. intros key Hk Lk. rewrite <- Ha.
  eapply (dirlookup_finds Hf dev st h cp p px sb Hl); try done. by eapply file_frame_lock.
Qed.

(** *** Example: a directory with the entry "." and an empty one *)

Definition ex_dir : list Z := [2; 0; 46] ++ replicate 29 0.
Definition ex_dir_inode : inode := Inode 1 2 1 1 T_DIR 0 0 1 32 (46 :: replicate 12 0).
Definition ex_dir_volume : gmap Z (list Z) :=
  <[32 := put_dinode 2 (inode_dinode ex_dir_inode) zero_block]> (<[46 := splice 0 ex_dir zero_block]> ex_volume).
Definition ex_in_dir : kstate := start_op ex_dir_inode (ex_mounted ex_dir_volume ex_sb 2).

Lemma ex_dir_blocks n : length (dblock ex_dir_volume n) = Z.to_nat BSIZE.
Proof.
  unfold ex_dir_volume. rewrite !dblock_insert. repeat case_decide; [by vm_compute..|apply ex_volume_blocks].
Qed.

Lemma ex_dir_bitmap : dblock ex_dir_volume (sb_bmapstart ex_sb) = dblock ex_volume (sb_bmapstart ex_sb).
Proof. reflexivity. Qed.

Lemma ex_dir_meta : meta_used (dblock ex_dir_volume) ex_sb.
Proof. intros b Hb. rewrite <- (ex_meta_used b Hb). unfold used. by rewrite ex_dir_bitmap. Qed.

Lemma ex_dir_holds : holds_file (dblock ex_dir_volume) (i_addrs ex_dir_inode) ex_dir.
Proof.
  intros bn B1 B2. change BSIZE with 1024 in B2. simpl in B2. assert (bn = 0) as -> by lia.
  split; [by vm_compute|]. vm_compute. reflexivity.
Qed.

Lemma ex_dir_file : file_ok ex_sb (dblock ex_dir_volume) (i_addrs ex_dir_inode).
Proof.
  destruct ex_file_ok as [L O]. split; [exact L|]. eapply owns_ext; [| |exact O].
  - intros j _. reflexivity.
  - intros n _ Hn. rewrite <- Hn. unfold used. by rewrite ex_dir_bitmap.
Qed.

Lemma ex_in_dir_ok :
  fs_op (DL := sync_law) 1 2 (zero_hart 0) ex_cpu 0 ex_proc ex_sb 0 ex_dir_inode ex_dir [] (dblock ex_dir_volume) ex_in_dir
  ∧ lg_size (k_log ex_in_dir) = 30 ∧ lock_free L_itable ex_in_dir.
Proof.
  destruct (ex_mounted_ok ex_dir_volume ex_sb 2 ex_dir_blocks) as (M1 & M2 & M3 & M4 & M5 & M6 & M7 & M8).
  unfold ex_in_dir. revert M1 M2 M5 M6 M7 M8. generalize (ex_mounted ex_dir_volume ex_sb 2).
  intros s M1 M2 M5 M6 M7 M8.
  destruct (start_op_ok (dblock ex_dir_volume) ex_dir_inode (Inode 1 2 1 0 0 0 0 0 0 (replicate 13 0)) ex_dir ex_dir_volume s)
    as (A & B & _).
  - exact M1.
  - exact M5.
  - exact M6.
  - exact M2.
  - exact ex_dir_meta.
  - exact ex_dir_file.
  - exact ex_dir_holds.
  - reflexivity.
  - vm_compute. split; [discriminate|reflexivity].
  - split; simpl; unfold T_DIR; lia.
  - reflexivity.
  - vm_compute. discriminate.
  - exact M7.
  - split; [exact A|]. split; [exact B|]. eapply lock_free_ext; [exact M8|reflexivity].
Qed.

Lemma directory_map_witness :
  let H : Fuel := 1%nat in let D : DiskDriver := sync_disk in let Y : Symbols := example_symbols in
  let name := 97 :: replicate 13 0 in
  ∃ s', run no_wait (dirlink 0 name 5 ex_in_dir) = Ok 0 s' ∧ finds 1 s' (Some 5) (run no_wait (dirlookup 0 name s')).
Proof.
  intros H D Y name. destruct ex_in_dir_ok as (O & Hsz & Hlk). revert O Hsz Hlk. generalize ex_in_dir. intros s O Hsz Hlk.
  destruct (directory_map (DL := sync_law) 1 2 (zero_hart 0) ex_cpu 0 ex_proc ex_sb 0 ex_dir_inode ex_dir []
    (dblock ex_dir_volume) s name 5) as (_ & bs' & V' & x' & c' & s' & E & _ & _ & _ & R).
  - apply le_n.
  - exact ex_layout.
  - exact O.
  - split; [reflexivity|reflexivity|]. refine (bool_decide_eq_true_1 _ _). by vm_compute.
  - exact Hlk.
  - refine (bool_decide_eq_true_1 _ _). by vm_compute.
  - simpl. lia.
  - lia.
  - vm_compute. reflexivity.
  - vm_compute. discriminate.
  - eapply has_free_ext; [|exact ex_free]. apply ex_dir_bitmap.
  - rewrite Hsz. vm_compute. discriminate.
  - exists s'. split; [exact E|]. apply (R name); [refine (bool_decide_eq_true_1 _ _); by vm_compute|simpl; lia].
Defined.
