(* ===== verification/Pipe.v ===== *)
(** * pipe.c (pipealloc() is in File.v)

    A pipe is the structure at the start of a kalloc()ed page, found in
    [k_pipes] by the page's address.  The ring of 512 bytes between [nread] and
    [nwrite] is the pipe's contents. *)

From Stdlib Require Import ZArith Lia.
From stdpp Require Import base numbers list gmap strings.
From S2P Require Import Prelude Machine Kernel Riscv Spinlock Kalloc Vm Proc.

Definition PIPESIZE : Z := 512.

Section pipe.
Context `{Fuel} `{Symbols}.

Definition pipeclose (pi : Z) (writable : bool) : K unit :=
  acquire (L_pipe pi) ;;
  (if writable then updpipe pi (λ p, p <| pi_writeopen := 0 |>) ;; wakeup (Ch_pipe_nread pi)
   else updpipe pi (λ p, p <| pi_readopen := 0 |>) ;; wakeup (Ch_pipe_nwrite pi)) ;;
  p ← getpipe pi;
  if (pi_readopen p =? 0) && (pi_writeopen p =? 0)
  then release (L_pipe pi) ;; kfree pi
  else release (L_pipe pi).

(** [pi->data[pi->nwrite++ % PIPESIZE] = ch] *)
Definition pipe_put (ch : Z) (p : pipe) : pipe :=
  p <| pi_data ::= λ d, aset d (pi_nwrite p mod PIPESIZE) ch |>
    <| pi_nwrite ::= λ n, u32 (n + 1) |>.

(** [pi->data[pi->nread++ % PIPESIZE]]: the byte and the pipe without it *)
Definition pipe_get (p : pipe) : Z * pipe :=
  (aget (pi_data p) (pi_nread p mod PIPESIZE), p <| pi_nread ::= λ n, u32 (n + 1) |>).

(** One round of pipewrite()'s loop.  [inr None]: returned -1, lock released. *)
Definition pipewrite_body (pi : Z) (pr : nat) (addr n : Z) (i : Z) : K (Z + option Z) :=
  if negb (i <? n) then ret (inr (Some i)) else
  p ← getpipe pi;
  k ← (if pi_readopen p =? 0 then ret 1 else killed pr);
  if truth k then release (L_pipe pi) ;; ret (inr None) else
  p ← getpipe pi;
  if pi_nwrite p =? u32 (pi_nread p + PIPESIZE) then
    wakeup (Ch_pipe_nread pi) ;;
    sleep (Ch_pipe_nwrite pi) (L_pipe pi) ;;
    ret (inl i)
  else
    x ← getp pr;
    ' (r, b) ← copyin (p_pagetable x) (u64 (addr + i)) 1;
    if r =? -1 then ret (inr (Some i)) else
    ch ← deref (head b);
    updpipe pi (pipe_put ch) ;;
    ret (inl (i + 1)).

Definition pipewrite (pi addr n : Z) : K Z :=
  pr ← curproc;
  acquire (L_pipe pi) ;;
  r ← loop (S (Z.to_nat n) + fuel) (pipewrite_body pi pr addr n) 0;
  match r with
  | None => ret (-1)
  | Some i => wakeup (Ch_pipe_nread pi) ;; release (L_pipe pi) ;; ret i
  end.

(** The wait for data at the start of piperead(): whether the reader was killed
    (the lock is then released). *)
Definition pipe_wait (pi : Z) (pr : nat) : K bool :=
  loop (S fuel) (λ _ : unit,
    p ← getpipe pi;
    if (pi_nread p =? pi_nwrite p) && truth (pi_writeopen p) then
      k ← killed pr;
      if truth k then release (L_pipe pi) ;; ret (inr true)
      else sleep (Ch_pipe_nread pi) (L_pipe pi) ;; ret (inl tt)
    else ret (inr false)) tt.

(** One round of piperead()'s copying loop. *)
Definition piperead_body (pi : Z) (pr : nat) (addr n : Z) (i : Z) : K (Z + Z) :=
  if negb (i <? n) then ret (inr i) else
  p ← getpipe pi;
  if pi_nread p =? pi_nwrite p then ret (inr i) else
  let '(ch, p') := pipe_get p in
  updpipe pi (λ _, p') ;;
  x ← getp pr;
  r ← copyout (p_pagetable x) (u64 (addr + i)) [ch];
  if r =? -1 then ret (inr i) else ret (inl (i + 1)).

Definition piperead (pi addr n : Z) : K Z :=
  pr ← curproc;
  acquire (L_pipe pi) ;;
  k ← pipe_wait pi pr;
  if k : bool then ret (-1) else
  i ← loop (S (Z.to_nat n)) (piperead_body pi pr addr n) 0;
  wakeup (Ch_pipe_nwrite pi) ;;
  release (L_pipe pi) ;;
  ret i.
End pipe.

(** ** The ring buffer is a queue *)

Definition pipe_count (p : pipe) : Z := u32 (pi_nwrite p - pi_nread p).

(** The bytes written and not yet read, oldest first. *)
Definition pipe_contents (p : pipe) : list Z :=
  (λ i, aget (pi_data p) ((pi_nread p + i) mod PIPESIZE)) <$> zrange 0 (Z.to_nat (pipe_count p)).

Record pipe_wf (p : pipe) : Prop := {
  pw_data : length (pi_data p) = Z.to_nat PIPESIZE;
  pw_nread : 0 <= pi_nread p < 2 ^ 32;
  pw_nwrite : 0 <= pi_nwrite p < 2 ^ 32;
  pw_count : pipe_count p <= PIPESIZE
}.

Lemma u32_mod_pipesize z : u32 z mod PIPESIZE = z mod PIPESIZE.
Proof. unfold u32. change PIPESIZE with 512. change (2 ^ 32) with 4294967296. zmod. Qed.

Lemma pipe_count_range p : 0 <= pipe_count p.
Proof. apply u32_range. Qed.

Lemma pipe_full_iff p :
  pipe_wf p -> (pi_nwrite p =? u32 (pi_nread p + PIPESIZE)) = (pipe_count p =? PIPESIZE).
Proof.
  intros [_ Hr Hw _]. unfold pipe_count, u32. change PIPESIZE with 512. change (2 ^ 32) with 4294967296 in *.
  apply eq_true_iff_eq. rewrite !Z.eqb_eq. zmod.
Qed.

Lemma pipe_empty_iff p : pipe_wf p -> (pi_nread p =? pi_nwrite p) = (pipe_count p =? 0).
Proof.
  intros [_ Hr Hw _]. unfold pipe_count, u32. change (2 ^ 32) with 4294967296 in *.
  apply eq_true_iff_eq. rewrite !Z.eqb_eq. zmod.
Qed.

Lemma pipe_put_ok p ch :
  pipe_wf p -> pipe_count p < PIPESIZE ->
  pipe_wf (pipe_put ch p) ∧ pipe_contents (pipe_put ch p) = pipe_contents p ++ [ch].
Proof.
  intros [Hd Hr Hw Hc] Hlt. pose proof (pipe_count_range p) as Hc0.
  assert (Ec : pipe_count (pipe_put ch p) = pipe_count p + 1).
  { unfold pipe_count in *. simpl. unfold u32 in *. change PIPESIZE with 512 in *.
    change (2 ^ 32) with 4294967296 in *. zmod. }
  split.
  - constructor; simpl; [by rewrite length_aset|done|apply u32_range|lia].
  - unfold pipe_contents. rewrite Ec.
    replace (Z.to_nat (pipe_count p + 1)) with (Z.to_nat (pipe_count p) + 1)%nat by lia.
    rewrite zrange_app, fmap_app, zrange_S. simpl. rewrite Z2Nat.id by lia.
    assert (Ew : (pi_nread p + pipe_count p) mod PIPESIZE = pi_nwrite p mod PIPESIZE).
    { unfold pipe_count, u32. change PIPESIZE with 512. change (2 ^ 32) with 4294967296. zmod. }
    f_equal.
    + apply list_fmap_ext. intros ? i Hi. apply list_elem_of_lookup_2, elem_of_zrange in Hi.
      apply aget_aset_ne.
      * apply Z.mod_pos_bound. done.
      * apply Z.mod_pos_bound. done.
      * rewrite <- Ew. change PIPESIZE with 512 in *. zmod.
    + f_equal. rewrite Z.add_0_l, Ew. apply aget_aset_eq. rewrite Hd.
      rewrite Z2Nat.id by done. by apply Z.mod_pos_bound.
Qed.

Lemma pipe_get_ok p :
  pipe_wf p -> 0 < pipe_count p ->
  pipe_wf (pipe_get p).2 ∧ pipe_contents p = (pipe_get p).1 :: pipe_contents (pipe_get p).2.
Proof.
  intros [Hd Hr Hw Hc] Hlt. unfold pipe_get. cbn [fst snd].
  set (p' := p <| pi_nread ::= λ n, u32 (n + 1) |>).
  assert (Er : pi_nread p' = u32 (pi_nread p + 1)) by done.
  assert (Ew : pi_nwrite p' = pi_nwrite p) by done.
  assert (Ed : pi_data p' = pi_data p) by done. clearbody p'.
  assert (Ec : pipe_count p' = pipe_count p - 1).
  { unfold pipe_count in *. rewrite Er, Ew. unfold u32 in *. change PIPESIZE with 512 in *.
    change (2 ^ 32) with 4294967296 in *. zmod. }
  split.
  - constructor; rewrite ?Ed, ?Er, ?Ew, ?Ec; [done|apply u32_range|done|lia].
  - unfold pipe_contents. rewrite Ec, Ed, Er.
    replace (Z.to_nat (pipe_count p)) with (S (Z.to_nat (pipe_count p - 1))) by lia.
    rewrite zrange_S. cbn [fmap list_fmap]. rewrite Z.add_0_r. f_equal.
    unfold zrange. rewrite <- !list_fmap_compose.
    apply list_fmap_ext. intros ? i _. simpl. f_equal.
    rewrite <- (Zplus_mod_idemp_l (u32 _)), u32_mod_pipesize, Zplus_mod_idemp_l. f_equal. lia.
Qed.

(** What pipewrite() and piperead() do to the pipe: put when it is not full,
    get when it is not empty. *)
Inductive pop := Op_put (ch : Z) | Op_get.

Fixpoint run_pops (ops : list pop) (p : pipe) : option (list Z * pipe) :=
  match ops with
  | [] => Some ([], p)
  | Op_put ch :: ops =>
      if pi_nwrite p =? u32 (pi_nread p + PIPESIZE) then None else run_pops ops (pipe_put ch p)
  | Op_get :: ops =>
      if pi_nread p =? pi_nwrite p then None else
      let '(ch, p') := pipe_get p in
      match run_pops ops p' with Some (out, p'') => Some (ch :: out, p'') | None => None end
  end.

Fixpoint run_queue (ops : list pop) (q : list Z) : option (list Z * list Z) :=
  match ops with
  | [] => Some ([], q)
  | Op_put ch :: ops =>
      if Z.of_nat (length q) =? PIPESIZE then None else run_queue ops (q ++ [ch])
  | Op_get :: ops =>
      match q with
      | [] => None
      | ch :: q => match run_queue ops q with Some (out, q') => Some (ch :: out, q') | None => None end
      end
  end.

Lemma length_pipe_contents p : pipe_wf p -> Z.of_nat (length (pipe_contents p)) = pipe_count p.
Proof.
  intros Hw. unfold pipe_contents. rewrite length_fmap, length_zrange.
  pose proof (pipe_count_range p). lia.
Qed.

Lemma run_pops_queue ops p :
  pipe_wf p ->
  match run_pops ops p with
  | Some (out, p') => pipe_wf p' ∧ run_queue ops (pipe_contents p) = Some (out, pipe_contents p')
  | None => run_queue ops (pipe_contents p) = None
  end.
Proof.
  revert p. induction ops as [|[ch|] ops IH]; intros p Hp; cbn [run_pops run_queue]; [done| |].
  - rewrite pipe_full_iff, length_pipe_contents by done.
    destruct (Z.eqb_spec (pipe_count p) PIPESIZE) as [|Hne]; [done|].
    destruct (pipe_put_ok p ch Hp) as [Hp' <-].
    { destruct Hp as [_ _ _ Hc]. lia. }
    by apply IH.
  - rewrite pipe_empty_iff by done.
    destruct (Z.eqb_spec (pipe_count p) 0) as [E|E].
    + unfold pipe_contents. by rewrite E.
    + pose proof (pipe_count_range p). destruct (pipe_get_ok p Hp ltac:(lia)) as [Hp' Hc].
      destruct (pipe_get p) as [ch p1]. cbn [fst snd] in *. rewrite Hc. cbn [run_queue]. specialize (IH p1 Hp').
      destruct (run_pops ops p1) as [[out p2]|]; [destruct IH as [Hw ->]|rewrite IH]; done.
Qed.

(** ** Properties *)

(** A pipe's ring buffer, with its free-running 32-bit counters, is a
    bounded FIFO queue: for every sequence of byte writes and reads, including
    ones in which the counters wrap around, the ring and a queue of capacity
    PIPESIZE block at the same operations (full, empty), deliver the same
    bytes, and end with the same contents. *)
Theorem pipe_is_queue (ops : list pop) (p : pipe) :
  pipe_wf p ->
  match run_pops ops p with
  | Some (out, p') => pipe_wf p' ∧ run_queue ops (pipe_contents p) = Some (out, pipe_contents p')
  | None => run_queue ops (pipe_contents p) = None
  end.
Proof. apply run_pops_queue. Qed.

Lemma pipe_is_queue_witness :
  let p := Pipe (replicate 512 0) (2 ^ 32 - 1) (2 ^ 32 - 1) 1 1 in
  match run_pops [Op_put 7; Op_put 8; Op_get; Op_put 9; Op_get] p with
  | Some (out, p') => pipe_wf p' ∧
      run_queue [Op_put 7; Op_put 8; Op_get; Op_put 9; Op_get] (pipe_contents p)
        = Some (out, pipe_contents p')
  | None => False
  end.
Proof.
  intros p.
  assert (Hp : pipe_wf p) by (constructor; vm_compute; try split; congruence).
  pose proof (pipe_is_queue [Op_put 7; Op_put 8; Op_get; Op_put 9; Op_get] p Hp) as Hq.
  destruct (run_pops _ p) as [[out p']|] eqn:E; [exact Hq|]. vm_compute in E. discriminate.
Defined.
