(* ===== verification/PipeSpec.v ===== *)
(** * Reading and writing a pipe

    pipewrite() and piperead() as a process calls them, with its bytes in user
    memory: the bytes written come out in order, first in first out, whatever
    the position of the ring's counters.  Pipe.v has the ring itself. *)

From Stdlib Require Import ZArith Lia.
From stdpp Require Import base numbers list gmap strings.
From S2P Require Import Prelude Machine Kernel Riscv Spinlock Kalloc Vm VmSpec UserMem Proc Sleeplock Pipe.

Section pipe.
Context `{Fuel} `{Symbols} (Hfuel : (1 <= fuel)%nat) (Hend : end_ok).

Lemma killed_ok p x s h cp :
  quiet s h cp -> lock_free (L_proc p) s -> k_procs s !! p = Some x -> killed p s = Ok (p_killed x) s.
Proof using Hfuel.
  intros Hq Hl Hx. unfold killed. krun (acquire_ok Hfuel (L_proc p) s h cp Hq Hl).
  assert (Hx1 : k_procs (enter (L_proc p) s) !! p = Some x) by exact Hx.
  krun (getp_ok _ _ _ Hx1). by krun (release_ok (L_proc p) s h cp Hq Hl).
Qed.

Lemma getpipe_ok pi q s : k_pipes s !! pi = Some q -> getpipe pi s = Ok q s.
Proof. intros E. unfold getpipe. rewrite bind_gets, E. done. Qed.

Lemma updpipe_ok pi q f s :
  k_pipes s !! pi = Some q -> updpipe pi f s = Ok tt (s <| k_pipes ::= <[pi := f q]> |>).
Proof. intros E. unfold updpipe. by krun (getpipe_ok pi q s E). Qed.

Context (h : hart) (cp : cpu) (p : nat) (px : proc) (l : list Z) (pi : Z).
Notation pt := (p_pagetable px).

(** The process [p], not killed, in the middle of a call on the pipe [pi], whose
    contents are [c]. *)
Record on_pipe (ro wo : Z) (c : list Z) (s : kstate) : Prop := {
  op_proc : uproc h cp p px l s;
  op_alive : p_killed px = 0;
  op_lock : lock_free (L_proc p) s;
  op_pipe : ∃ q, k_pipes s !! pi = Some q ∧ pipe_wf q ∧ pipe_contents q = c
                 ∧ pi_readopen q = ro ∧ pi_writeopen q = wo
}.

(** What [on_pipe] looks at. *)
Lemma on_pipe_frame ro wo c s s' q :
  on_pipe ro wo c s -> k_cur s' = k_cur s -> k_harts s' = k_harts s -> k_cpus s' = k_cpus s ->
  k_procs s' = k_procs s -> k_locks s' = k_locks s -> user_ok pt l s' ->
  k_pipes s' !! pi = Some q -> pipe_wf q -> pi_readopen q = ro -> pi_writeopen q = wo ->
  on_pipe ro wo (pipe_contents q) s'.
Proof.
  intros [[H1 H2 H3 H4] H5 H6 _] E1 E2 E3 E4 E5 Hu Hp Hw Hr Ho. constructor; [|done| |by exists q].
  - constructor; [by eapply quiet_ext|done|by rewrite E4|done].
  - by eapply lock_free_ext.
Qed.

(** ** Writing *)

(** The bytes [bs] of the process at [a]. *)
Definition ubytes (m : memory) (a : Z) (bs : list Z) : Prop :=
  ∀ i b, bs !! i = Some b -> ubyte m pt (a + Z.of_nat i) = Some b.

Lemma write_step wo c b addr n i s ro :
  on_pipe ro wo c s -> truth ro = true -> Z.of_nat (length c) < PIPESIZE -> 0 <= i < n -> 0 <= addr ->
  addr + i < MAXVA -> ubyte (k_mem s) pt (addr + i) = Some b ->
  ∃ q, pipewrite_body pi p addr n i s = Ok (inl (i + 1)) (s <| k_pipes ::= <[pi := q]> |>)
    ∧ on_pipe ro wo (c ++ [b]) (s <| k_pipes ::= <[pi := q]> |>).
Proof using Hfuel Hend.
  intros Ho Hr Hc Hi Ha Hm Hb. pose proof Ho as [[Hq Hcur Hpx Hu] Hk Hl (q & Ep & Hw & Ec & Er & Ewo)].
  exists (pipe_put b q). subst c.
  rewrite length_pipe_contents in Hc by done. destruct (pipe_put_ok q b Hw Hc) as [Hw' Ec'].
  unfold pipewrite_body. replace (i <? n) with true by (symmetry; apply Z.ltb_lt; lia). cbn [negb].
  krun (getpipe_ok pi q s Ep).
  rewrite (bind_ok _ _ _ 0 s).
  2:{ rewrite Er. destruct (Z.eqb_spec ro 0) as [->|_]; [done|]. rewrite <- Hk.
      by apply (killed_ok p px s h cp). }
  change (truth 0) with false. cbn match. krun (getpipe_ok pi q s Ep).
  rewrite pipe_full_iff by done. replace (pipe_count q =? PIPESIZE) with false by (symmetry; apply Z.eqb_neq; lia).
  krun (getp_ok _ _ _ Hpx).
  rewrite u64_small by (change MAXVA with 274877906944 in *; lia).
  krun (copyin_byte Hfuel Hend pt l (addr + i) b s Hu ltac:(lia) Hb). cbn [Z.eqb head deref]. rewrite bind_ret.
  krun (updpipe_ok pi q (pipe_put b) s Ep). split; [done|]. rewrite <- Ec'.
  eapply on_pipe_frame; [exact Ho|done..| | | | |]; try done; [by eapply user_ok_ext|].
  simpl. apply lookup_insert_eq.
Qed.

Lemma set_pipe_same s q : k_pipes s !! pi = Some q -> s <| k_pipes ::= <[pi := q]> |> = s.
Proof. intros E. keq. by apply insert_id. Qed.

Lemma set_pipe_twice s q q' :
  s <| k_pipes ::= <[pi := q]> |> <| k_pipes ::= <[pi := q']> |> = s <| k_pipes ::= <[pi := q']> |>.
Proof. keq. apply insert_insert_eq. Qed.

Lemma pipe_write_loop_ok ro wo addr n bs : ∀ rounds i c s,
  (length bs < rounds)%nat -> 0 <= i -> n = i + Z.of_nat (length bs) -> 0 <= addr -> addr + n <= MAXVA ->
  on_pipe ro wo c s -> truth ro = true -> Z.of_nat (length c + length bs) <= PIPESIZE ->
  ubytes (k_mem s) (addr + i) bs ->
  ∃ q, loop rounds (pipewrite_body pi p addr n) i s = Ok (Some n) (s <| k_pipes ::= <[pi := q]> |>)
    ∧ on_pipe ro wo (c ++ bs) (s <| k_pipes ::= <[pi := q]> |>).
Proof using Hfuel Hend.
  induction bs as [|b bs IH]; intros rounds i c s Hr Hi Hn Ha Hm Ho Ht Hc Hb.
  all: destruct rounds as [|rounds]; [simpl in Hr; lia|]; cbn [loop]; simpl length in *.
  - pose proof (op_pipe _ _ _ _ Ho) as (q & Ep & _). exists q. rewrite set_pipe_same, app_nil_r by done.
    split; [|done]. unfold pipewrite_body at 1. replace (i <? n) with false by (symmetry; apply Z.ltb_ge; lia).
    cbn [negb]. rewrite bind_ret. unfold ret. do 2 f_equal. lia.
  - destruct (write_step wo c b addr n i s ro) as (q & E & Ho1); try done; try lia.
    { rewrite <- (Z.add_0_r (addr + i)). by apply (Hb 0%nat). }
    krun E. set (s1 := s <| k_pipes ::= <[pi := q]> |>) in *.
    destruct (IH rounds (i + 1) (c ++ [b]) s1) as (q' & E' & Ho'); try done; try lia.
    { rewrite length_app. simpl. lia. }
    { intros j b' Hj. rewrite <- (Hb (S j) b' Hj). f_equal. lia. }
    exists q'. rewrite E'. subst s1. rewrite set_pipe_twice in *. split; [done|].
    by rewrite <- app_assoc in Ho'.
Qed.

(** ** Reading *)

Lemma read_step ro wo b c addr n i s :
  on_pipe ro wo (b :: c) s -> 0 <= b < 256 -> 0 <= i < n -> 0 <= addr -> addr + n <= MAXVA ->
  ubyte (k_mem s) pt (addr + i) <> None ->
  ∃ q m, piperead_body pi p addr n i s
         = Ok (inl (i + 1)) (s <| k_pipes ::= <[pi := q]> |> <| k_mem := m |>)
    ∧ on_pipe ro wo c (s <| k_pipes ::= <[pi := q]> |> <| k_mem := m |>)
    ∧ written (k_mem s) m pt (addr + i) [b] 1.
Proof using Hfuel Hend.
  intros Ho Hb Hi Ha Hm Hu. pose proof Ho as [[Hq Hcur Hpx Hus] Hk Hl (q & Ep & Hw & Ec & Er & Ewo)].
  assert (Hcnt : 0 < pipe_count q) by (rewrite <- length_pipe_contents, Ec by done; simpl; lia).
  destruct (pipe_get_ok q Hw Hcnt) as [Hw' Ec']. destruct (pipe_get q) as [ch q'] eqn:Eg. cbn [fst snd] in *.
  rewrite Ec in Ec'. injection Ec' as <- ->.
  unfold piperead_body. replace (i <? n) with true by (symmetry; apply Z.ltb_lt; lia). cbn [negb].
  krun (getpipe_ok pi q s Ep). rewrite pipe_empty_iff by done.
  replace (pipe_count q =? 0) with false by (symmetry; apply Z.eqb_neq; lia). rewrite Eg.
  krun (updpipe_ok pi q (λ _, q') s Ep). set (s1 := s <| k_pipes ::= _ |>).
  assert (Hpx1 : k_procs s1 !! p = Some px) by exact Hpx. krun (getp_ok _ _ _ Hpx1).
  rewrite u64_small by (change MAXVA with 274877906944 in *; lia).
  destruct (copyout_byte Hfuel Hend pt l (addr + i) b s1) as (m & E & Hu' & W); [by eapply user_ok_ext|lia|done|done|].
  exists q', m. krun E. split; [done|]. split; [|exact W].
  injection Eg as _ <-.
  eapply on_pipe_frame; [exact Ho|done..| | | | |]; try done. simpl. apply lookup_insert_eq.
Qed.

(** The loop ends when the buffer is full or the pipe empty. *)
Lemma read_end ro wo c addr n i s :
  on_pipe ro wo c s -> i = n ∨ c = [] -> piperead_body pi p addr n i s = Ok (inr i) s.
Proof.
  intros [_ _ _ (q & Ep & Hw & Ec & _)] Hd. unfold piperead_body. destruct (Z.ltb_spec i n); [|done].
  destruct Hd as [-> | ->]; [lia|]. cbn [negb]. krun (getpipe_ok pi q s Ep).
  rewrite pipe_empty_iff, <- length_pipe_contents, Ec by done. done.
Qed.

Lemma delivered_none ro wo c s a :
  on_pipe ro wo c s ->
  ∃ q, s = s <| k_pipes ::= <[pi := q]> |> <| k_mem := k_mem s |> ∧ written (k_mem s) (k_mem s) pt a [] 0.
Proof.
  intros [_ _ _ (q & Ep & _)]. exists q. split; [|by apply written_zero].
  rewrite set_pipe_same by done. by keq.
Qed.

Lemma pipe_read_loop_ok ro wo addr n c : ∀ k i s,
  n = i + Z.of_nat k -> 0 <= i -> 0 <= addr -> addr + n <= MAXVA ->
  on_pipe ro wo c s -> Forall (λ b, 0 <= b < 256) c -> mapped_user (k_mem s) pt (addr + i) (Z.of_nat k) ->
  ∃ q m, loop (S k) (piperead_body pi p addr n) i s
         = Ok (i + Z.of_nat (length (take k c))) (s <| k_pipes ::= <[pi := q]> |> <| k_mem := m |>)
    ∧ on_pipe ro wo (drop k c) (s <| k_pipes ::= <[pi := q]> |> <| k_mem := m |>)
    ∧ written (k_mem s) m pt (addr + i) (take k c) (Z.of_nat (length (take k c))).
Proof using Hfuel Hend.
  induction c as [|b c IH]; intros k i s Hn Hi Ha Hm Ho Hb Hu.
  all: destruct k as [|k]; cbn [take drop length].
  all: try (destruct (delivered_none ro wo _ s (addr + i) Ho) as (q & Eq & W); exists q, (k_mem s);
    rewrite <- Eq; split; [cbn [loop]; krun (read_end ro wo _ addr n i s Ho ltac:(by (left; lia) || by right));
      unfold ret; by rewrite Z.add_0_r|by split]).
  apply Forall_cons in Hb as [Hb Hbs].
  destruct (read_step ro wo b c addr n i s) as (q & m & E & Ho1 & W); try done; [lia|apply Hu; lia|].
  set (s1 := s <| k_pipes ::= _ |> <| k_mem := m |>) in *.
  destruct (IH k (i + 1) s1) as (q' & m' & E' & Ho' & W'); try done; try lia.
  { intros x Hx. eapply (mapped_written Hfuel _ _ _ _ _ _ (addr + i) (Z.of_nat (S k)) W); [done|lia|done|lia]. }
  assert (Es : s1 <| k_pipes ::= <[pi := q']> |> <| k_mem := m' |> = s <| k_pipes ::= <[pi := q']> |> <| k_mem := m' |>).
  { subst s1. keq. apply insert_insert_eq. }
  rewrite Es in *. exists q', m'. split; [|split; [done|]].
  - change (loop (S (S k)) ?f i s) with ((r ← f i; match r with inl y => loop (S k) f y | inr r => ret r end) s).
    krun E. rewrite E'. f_equal. lia.
  - replace (Z.of_nat (S (length (take k c)))) with (1 + Z.of_nat (length (take k c))) by lia.
    apply (written_app Hfuel (k_mem s) m m' pt (addr + i) (b :: take k c) 1); [lia|simpl; lia|exact W|].
    rewrite Z.add_simpl_l. replace (addr + i + 1) with (addr + (i + 1)) by lia. exact W'.
Qed.
End pipe.

(** ** The calls *)
Section calls.
Context `{Fuel} `{Symbols} (Hfuel : (1 <= fuel)%nat) (Hend : end_ok).
Context (h : hart) (cp : cpu) (p : nat) (px : proc) (l : list Z) (pi : Z).
Notation pt := (p_pagetable px).

(** Between calls. *)
Record idle_pipe (ro wo : Z) (c : list Z) (s : kstate) : Prop := {
  ip_on : on_pipe h cp p px l pi ro wo c s;
  ip_idle : procs_idle s;
  ip_lock : lock_free (L_pipe pi) s
}.

Notation inner_hart := (h <| h_sstatus ::= λ x, Z.land x (Z.lnot SSTATUS_SIE) |>).
Notation inner_cpu := (cp <| cp_noff ::= λ n, n + 1 |>).

Lemma enter_pipe ro wo c s :
  idle_pipe ro wo c s -> on_pipe inner_hart inner_cpu p px l pi ro wo c (enter (L_pipe pi) s).
Proof.
  intros [[[Hq Hc Hx Hu] Hk Hl Hp] Hi Hlk]. constructor; [|done| |done].
  - constructor; [by apply quiet_enter|done|done|by eapply user_ok_ext].
  - by apply lock_free_enter.
Qed.

(** The end of both calls: wake the other side, and release the lock. *)
Lemma leave_pipe ro wo c s chan (s1 : kstate) {A} (a : A) :
  on_pipe inner_hart inner_cpu p px l pi ro wo c s1 -> s1 = enter (L_pipe pi) s ->
  quiet s h cp -> procs_idle s -> lock_free (L_pipe pi) s ->
  ∃ s', (wakeup chan ;; release (L_pipe pi) ;; ret a) s1 = Ok a s'
    ∧ idle_pipe ro wo c s' ∧ k_mem s' = k_mem s ∧ k_pipes s' = k_pipes s.
Proof using Hfuel.
  intros Ho -> Hq Hi Hl. pose proof Ho as [[Hq1 Hc Hx Hu] Hk Hlp Hp].
  destruct (wakeup_ok Hfuel chan _ _ _ Hq1 (procs_idle_enter (L_pipe pi) s ltac:(done) Hi)) as (ps & E & Hps).
  krun E. set (s' := s <| k_procs := ps |>).
  assert (Hq' : quiet s' h cp) by (by eapply quiet_ext).
  assert (Hl' : lock_free (L_pipe pi) s') by (by eapply lock_free_ext).
  rewrite (bind_ok _ _ _ tt s').
  2:{ apply (leave_ok _ _ s' h cp Hq' Hl'). subst s'. unfold enter, pushed, lock_of. by keq. }
  exists s'. split; [done|]. split; [|done].
  assert (Hi' : procs_idle s').
  { eapply procs_idle_ext; [exact Hi|exact (length_pointwise _ _ _ Hps)|done]. }
  constructor; [constructor; [constructor|done| |done]|done|done].
  - done.
  - done.
  - simpl. rewrite Hps. change (k_procs (enter (L_pipe pi) s)) with (k_procs s).
    change (k_procs (enter (L_pipe pi) s)) with (k_procs s) in Hx. rewrite Hx. simpl.
    by rewrite decide_True by exact Hc.
  - by eapply user_ok_ext.
  - apply (pi_free _ Hi'). rewrite <- (pi_len _ Hi). by eapply lookup_lt_Some.
Qed.

Lemma pipewrite_ok ro wo c addr bs s :
  idle_pipe ro wo c s -> truth ro = true -> 0 <= addr -> addr + Z.of_nat (length bs) <= MAXVA ->
  Z.of_nat (length c + length bs) <= PIPESIZE -> ubytes px (k_mem s) addr bs ->
  ∃ s', pipewrite pi addr (Z.of_nat (length bs)) s = Ok (Z.of_nat (length bs)) s'
    ∧ idle_pipe ro wo (c ++ bs) s' ∧ k_mem s' = k_mem s.
Proof using Hfuel Hend.
  intros Hp Hr Ha Hm Hc Hb. pose proof Hp as [[[Hq Hcur Hx Hu] Hk Hlp _] Hi Hl]. unfold pipewrite.
  krun (curproc_ok s h cp p Hq Hcur). krun (acquire_ok Hfuel (L_pipe pi) s h cp Hq Hl).
  destruct (pipe_write_loop_ok Hfuel Hend inner_hart inner_cpu p px l pi ro wo addr (Z.of_nat (length bs)) bs
    (S (Z.to_nat (Z.of_nat (length bs))) + fuel) 0 c (enter (L_pipe pi) s)) as (q & E & Ho); try done; try lia.
  { by apply enter_pipe. } { by rewrite Z.add_0_r. }
  krun E. set (s1 := s <| k_pipes ::= <[pi := q]> |>).
  destruct (leave_pipe ro wo (c ++ bs) s1 (Ch_pipe_nread pi) _ (Z.of_nat (length bs)) Ho) as (s' & E' & Hp' & Em & _).
  { subst s1. unfold enter, pushed, lock_of. by keq. }
  { by eapply quiet_ext. } { by eapply procs_idle_ext. } { by eapply lock_free_ext. }
  exists s'. split; [exact E'|]. done.
Qed.

Lemma pipe_wait_ok h' cp' ro wo c s :
  on_pipe h' cp' p px l pi ro wo c s -> c <> [] ∨ wo = 0 -> pipe_wait pi p s = Ok false s.
Proof.
  intros [_ _ _ (q & Ep & Hw & Ec & Er & Ewo)] Hd. unfold pipe_wait. cbn [loop].
  unfold kbind at 1. unfold kbind at 1. rewrite (getpipe_ok pi q s Ep). cbn [bindo].
  rewrite pipe_empty_iff, Ewo, <- length_pipe_contents, Ec by done.
  destruct Hd as [Hd | ->]; [|by rewrite andb_false_r]. by destruct c.
Qed.

Lemma piperead_ok ro wo c addr n s :
  idle_pipe ro wo c s -> c <> [] ∨ wo = 0 -> Forall (λ b, 0 <= b < 256) c ->
  0 <= n -> 0 <= addr -> addr + n <= MAXVA -> mapped_user (k_mem s) pt addr n ->
  let out := take (Z.to_nat n) c in
  ∃ s', piperead pi addr n s = Ok (Z.of_nat (length out)) s'
    ∧ idle_pipe ro wo (drop (Z.to_nat n) c) s'
    ∧ written (k_mem s) (k_mem s') pt addr out (Z.of_nat (length out)).
Proof using Hfuel Hend.
  intros Hp Hd Hb Hn Ha Hm Hu out. pose proof Hp as [[[Hq Hcur Hx Hus] Hk Hlp _] Hi Hl]. unfold piperead.
  krun (curproc_ok s h cp p Hq Hcur). krun (acquire_ok Hfuel (L_pipe pi) s h cp Hq Hl).
  pose proof (enter_pipe ro wo c s Hp) as Ho1. krun (pipe_wait_ok _ _ ro wo c _ Ho1 Hd).
  destruct (pipe_read_loop_ok Hfuel Hend inner_hart inner_cpu p px l pi ro wo addr n c (Z.to_nat n) 0
    (enter (L_pipe pi) s)) as (q & m & E & Ho & W); try done; try lia.
  { by rewrite Z.add_0_r, Z2Nat.id by lia. }
  krun E. set (s1 := s <| k_pipes ::= <[pi := q]> |> <| k_mem := m |>).
  destruct (leave_pipe ro wo (drop (Z.to_nat n) c) s1 (Ch_pipe_nwrite pi) _ (0 + Z.of_nat (length out)) Ho)
    as (s' & E' & Hp' & Em & _).
  { subst s1. unfold enter, pushed, lock_of. by keq. }
  { by eapply quiet_ext. } { by eapply procs_idle_ext. } { by eapply lock_free_ext. }
  exists s'. split; [exact E'|]. split; [done|]. rewrite Em. rewrite Z.add_0_r in W. exact W.
Qed.

Lemma pipewrite_closed wo c addr n s :
  idle_pipe 0 wo c s -> 0 < n -> pipewrite pi addr n s = Ok (-1) s.
Proof using Hfuel.
  intros Hp Hn. pose proof Hp as [[[Hq Hcur Hx Hus] Hk Hlp (q & Ep & Hw & Ec & Er & Ewo)] Hi Hl]. unfold pipewrite.
  krun (curproc_ok s h cp p Hq Hcur). krun (acquire_ok Hfuel (L_pipe pi) s h cp Hq Hl).
  assert (E : pipewrite_body pi p addr n 0 (enter (L_pipe pi) s) = Ok (inr None) s).
  { unfold pipewrite_body. replace (0 <? n) with true by (symmetry; by apply Z.ltb_lt). cbn [negb].
    assert (Ep1 : k_pipes (enter (L_pipe pi) s) !! pi = Some q) by exact Ep. krun (getpipe_ok _ _ _ Ep1).
    rewrite Er, Z.eqb_refl, bind_ret. change (truth 1) with true. cbn match.
    by krun (release_ok (L_pipe pi) s h cp Hq Hl). }
  change (S (Z.to_nat n) + fuel)%nat with (S (Z.to_nat n + fuel)).
  change (loop (S ?a) ?f ?x) with (r ← f x; match r with inl y => loop a f y | inr r => ret r end).
  rewrite (bind_ok _ _ _ None s); [done|]. by krun E.
Qed.
End calls.

(** ** Properties *)


(** Process 0 with a pipe at 0x80100000 that holds one byte, its counters about
    to wrap around. *)
Definition ex_pipe_addr : Z := 0x80100000.
Definition ex_pipe : pipe := Pipe (replicate 511 0 ++ [65]) (2 ^ 32 - 1) 0 1 1.
Definition ex_piped : kstate :=
  (ex_running [L_pipe ex_pipe_addr] []) <| k_pipes := {[ex_pipe_addr := ex_pipe]} |>
    <| k_procs ::= upd 0 (λ x, x <| p_pagetable := ex_pt |>) |>.

Lemma ex_piped_idle : procs_idle ex_piped.
Proof.
  assert (Hc : calm (ex_running [L_pipe ex_pipe_addr] []) (zero_hart 0) ex_cpu 0 ex_proc).
  { apply ex_running_calm; [apply NoDup_singleton|]. intros i Hi. by apply list_elem_of_singleton in Hi. }
  exact (procs_idle_ext _ ex_piped (c_idle _ _ _ _ _ Hc) eq_refl eq_refl).
Qed.

Lemma ex_pipe_wf : pipe_wf ex_pipe.
Proof. constructor; vm_compute; try split; congruence. Qed.

