(* ===== verification/File.v ===== *)
(** * file.c, and pipealloc() of pipe.c

    The open file table is [k_files]; a [struct file *] is an index into it. *)

From Stdlib Require Import ZArith Lia.
From stdpp Require Import base numbers list gmap strings.
From S2P Require Import Prelude Machine Kernel Riscv Spinlock Kalloc Vm Proc Console.
From S2P Require Import Sleeplock Virtio Bio Log Fs Pipe.

Definition file_indices : list nat := seq 0 (Z.to_nat NFILE).

(** The page kalloc() returns is full of 5s, and so is the structure in it. *)
Definition junk_pipe : pipe :=
  Pipe (replicate 512 5) 0x05050505 0x05050505 0x05050505 0x05050505.

Section file.
Context `{Fuel} `{Symbols} `{DiskDriver}.

Definition fileinit : K unit := initlock L_ftable "ftable".

Definition filealloc : K (option nat) :=
  acquire L_ftable ;;
  r ← foreach file_indices (λ f,
    x ← getf f;
    if f_ref x =? 0 then updf f (λ x, x <| f_ref := 1 |>) ;; release L_ftable ;; ret (Some f)
    else ret None);
  match r with
  | Some f => ret (Some f)
  | None => release L_ftable ;; ret None
  end.

Definition filedup (f : nat) : K nat :=
  acquire L_ftable ;;
  x ← getf f;
  if f_ref x <? 1 then panic "filedup" else
  updf f (λ x, x <| f_ref ::= λ n, n + 1 |>) ;;
  release L_ftable ;;
  ret f.

Definition fileclose (f : nat) : K unit :=
  acquire L_ftable ;;
  x ← getf f;
  if f_ref x <? 1 then panic "fileclose" else
  updf f (λ x, x <| f_ref ::= λ n, n - 1 |>) ;;
  x ← getf f;
  if 0 <? f_ref x then release L_ftable else
  let ff := x in
  updf f (λ x, x <| f_ref := 0 |> <| f_type := FD_NONE |>) ;;
  release L_ftable ;;
  match f_type ff with
  | FD_PIPE => pipeclose (f_pipe ff) (truth (f_writable ff))
  | FD_INODE | FD_DEVICE =>
      begin_op ;;
      ip ← deref (f_ip ff);
      iput ip ;;
      end_op
  | FD_NONE => ret tt
  end.

(** [pad]: the bytes of [struct stat]'s padding, uninitialised in C. *)
Definition filestat (f : nat) (addr : Z) (pad : list Z) : K Z :=
  p ← curproc;
  x ← getf f;
  match f_type x with
  | FD_INODE | FD_DEVICE =>
      ip ← deref (f_ip x);
      ilock ip ;;
      st ← stati ip pad;
      iunlock ip ;;
      x ← getp p;
      r ← copyout (p_pagetable x) addr st;
      if r <? 0 then ret (-1) else ret 0
  | _ => ret (-1)
  end.

(** [devsw[major]] when [major] is in range. *)
Definition devsw_at (major : Z) : K (option devid * option devid) :=
  t ← gets k_devsw;
  if (major <? 0) || (NDEV <=? major) then ret (None, None) else deref (t !! Z.to_nat major).

Definition fileread (f : nat) (addr n : Z) : K Z :=
  x ← getf f;
  if f_readable x =? 0 then ret (-1) else
  match f_type x with
  | FD_PIPE => piperead (f_pipe x) addr n
  | FD_DEVICE =>
      ' (rd, _) ← devsw_at (f_major x);
      match rd with
      | None => ret (-1)
      | Some Dev_console => ' (r, _) ← consoleread (D_user addr) n; ret r
      end
  | FD_INODE =>
      ip ← deref (f_ip x);
      ilock ip ;;
      x ← getf f;
      ' (r, _) ← readi ip (D_user addr) (f_off x) (u32 n);
      when (0 <? r) (updf f (λ x, x <| f_off ::= λ o, u32 (o + r) |>)) ;;
      iunlock ip ;;
      ret r
  | FD_NONE => panic "fileread"
  end.

(** [((MAXOPBLOCKS-1-1-2) / 2) * BSIZE] *)
Definition max_write : Z := ((MAXOPBLOCKS - 1 - 1 - 2) / 2) * BSIZE.

(** One transaction of filewrite()'s loop. *)
Definition filewrite_body (f : nat) (addr n : Z) (i : Z) : K (Z + Z) :=
  if negb (i <? n) then ret (inr i) else
  let n1 := Z.min (n - i) max_write in
  begin_op ;;
  x ← getf f;
  ip ← deref (f_ip x);
  ilock ip ;;
  x ← getf f;
  r ← writei ip (S_user (u64 (addr + i))) (f_off x) (u32 n1);
  when (0 <? r) (updf f (λ x, x <| f_off ::= λ o, u32 (o + r) |>)) ;;
  iunlock ip ;;
  end_op ;;
  if negb (r =? n1) then ret (inr i) else ret (inl (i + r)).

Definition filewrite (f : nat) (addr n : Z) : K Z :=
  x ← getf f;
  if f_writable x =? 0 then ret (-1) else
  match f_type x with
  | FD_PIPE => pipewrite (f_pipe x) addr n
  | FD_DEVICE =>
      ' (_, wr) ← devsw_at (f_major x);
      match wr with
      | None => ret (-1)
      | Some Dev_console => consolewrite (S_user addr) n
      end
  | FD_INODE =>
      i ← loop (Z.to_nat (n / max_write) + 2) (filewrite_body f addr n) 0;
      ret (if i =? n then n else -1)
  | FD_NONE => panic "filewrite"
  end.

(** The code at [bad]. *)
Definition pipealloc_bad (f0 f1 : option nat) (pi : Z) : K (option (nat * nat)) :=
  when (truth pi) (kfree pi) ;;
  (match f0 with Some f => fileclose f | None => ret tt end) ;;
  (match f1 with Some f => fileclose f | None => ret tt end) ;;
  ret None.

(** The read and the write end, or [None] for the result -1. *)
Definition pipealloc : K (option (nat * nat)) :=
  o0 ← filealloc;
  match o0 with
  | None => pipealloc_bad None None 0
  | Some f0 =>
      o1 ← filealloc;
      match o1 with
      | None => pipealloc_bad (Some f0) None 0
      | Some f1 =>
          pi ← kalloc;
          if pi =? 0 then pipealloc_bad (Some f0) (Some f1) 0 else
          modify (λ s, s <| k_pipes ::= <[pi := junk_pipe]> |>) ;;
          updpipe pi (λ p, p <| pi_readopen := 1 |> <| pi_writeopen := 1 |>
                             <| pi_nwrite := 0 |> <| pi_nread := 0 |>) ;;
          initlock (L_pipe pi) "pipe" ;;
          updf f0 (λ f, f <| f_type := FD_PIPE |> <| f_readable := 1 |> <| f_writable := 0 |>
                          <| f_pipe := pi |>) ;;
          updf f1 (λ f, f <| f_type := FD_PIPE |> <| f_readable := 0 |> <| f_writable := 1 |>
                          <| f_pipe := pi |>) ;;
          ret (Some (f0, f1))
      end
  end.
End file.
