(* ===== verification/Procs.v ===== *)
(** * proc.c: the life cycle of processes

    allocproc(), freeproc(), fork(), exit(), wait() and the functions around
    them.  A trapframe is the structure in its page, found in [k_tframes] by the
    page's address. *)

From Stdlib Require Import ZArith Lia.
From stdpp Require Import base numbers list gmap strings.
From S2P Require Import Prelude Machine Kernel Strings Riscv Spinlock Kalloc Vm Proc Printf.
From S2P Require Import Sleeplock Virtio Bio Log Fs Pipe File.

(** The trapframe in a page kalloc() has filled with 5s. *)
Definition junk_trapframe : trapframe :=
  let j := 0x0505050505050505 in
  Trapframe j j j j j j j j j j j j j j j j j j j j j j j j j j j j j j j j j j j j.

Definition initcode : list Z := [
  0x17; 0x05; 0x00; 0x00; 0x13; 0x05; 0x45; 0x02;
  0x97; 0x05; 0x00; 0x00; 0x93; 0x85; 0x35; 0x02;
  0x93; 0x08; 0x70; 0x00; 0x73; 0x00; 0x00; 0x00;
  0x93; 0x08; 0x20; 0x00; 0x73; 0x00; 0x00; 0x00;
  0xef; 0xf0; 0x9f; 0xff; 0x2f; 0x69; 0x6e; 0x69;
  0x74; 0x00; 0x00; 0x24; 0x00; 0x00; 0x00; 0x00;
  0x00; 0x00; 0x00; 0x00].

(** [safestrcpy(p->name, ..., sizeof(p->name))] *)
Definition set_name (p : nat) (src : list Z) : K unit :=
  x ← getp p;
  nm ← deref (safestrcpy (p_name x) src 16);
  updp p (λ x, x <| p_name := nm |>).

Section procs.
Context `{Fuel} `{Symbols} `{DiskDriver}.

Definition proc_pagetable (p : nat) : K Z :=
  pagetable ← uvmcreate;
  if pagetable =? 0 then ret 0 else
  r ← mappages pagetable TRAMPOLINE PGSIZE trampoline (Z.lor PTE_R PTE_X);
  if r <? 0 then uvmfree pagetable 0 ;; ret 0 else
  x ← getp p;
  r ← mappages pagetable TRAPFRAME PGSIZE (p_trapframe x) (Z.lor PTE_R PTE_W);
  if r <? 0 then uvmunmap pagetable TRAMPOLINE 1 false ;; uvmfree pagetable 0 ;; ret 0 else
  ret pagetable.

Definition proc_freepagetable (pagetable sz : Z) : K unit :=
  uvmunmap pagetable TRAMPOLINE 1 false ;;
  uvmunmap pagetable TRAPFRAME 1 false ;;
  uvmfree pagetable sz.

Definition freeproc (p : nat) : K unit :=
  x ← getp p;
  when (truth (p_trapframe x)) (kfree (p_trapframe x)) ;;
  updp p (λ x, x <| p_trapframe := 0 |>) ;;
  x ← getp p;
  when (truth (p_pagetable x)) (proc_freepagetable (p_pagetable x) (p_sz x)) ;;
  updp p (λ x, x <| p_pagetable := 0 |> <| p_sz := 0 |> <| p_pid := 0 |> <| p_parent := None |>
                 <| p_name ::= λ l, aset l 0 0 |> <| p_chan := Ch_null |> <| p_killed := 0 |>
                 <| p_xstate := 0 |> <| p_state := UNUSED |>).

(** The search of allocproc(): the process found, its lock held. *)
Definition find_unused : K (option nat) :=
  foreach proc_indices (λ p,
    acquire (L_proc p) ;;
    x ← getp p;
    if bool_decide (p_state x = UNUSED) then ret (Some p)
    else release (L_proc p) ;; ret None).

Definition allocproc : K (option nat) :=
  o ← find_unused;
  match o with
  | None => ret None
  | Some p =>
      pid ← allocpid;
      updp p (λ x, x <| p_pid := pid |>) ;;
      updp p (λ x, x <| p_state := USED |>) ;;
      tf ← kalloc;
      updp p (λ x, x <| p_trapframe := tf |>) ;;
      if tf =? 0 then freeproc p ;; release (L_proc p) ;; ret None else
      modify (λ s, s <| k_tframes ::= <[tf := junk_trapframe]> |>) ;;
      pt ← proc_pagetable p;
      updp p (λ x, x <| p_pagetable := pt |>) ;;
      if pt =? 0 then freeproc p ;; release (L_proc p) ;; ret None else
      updp p (λ x, x <| p_context := zero_context <| c_ra := forkret_addr |>
                                                   <| c_sp := u64 (p_kstack x + PGSIZE) |> |>) ;;
      ret (Some p)
  end.

Definition userinit : K unit :=
  o ← allocproc;
  modify (λ s, s <| k_initproc := o |>) ;;
  p ← deref o;
  x ← getp p;
  uvmfirst (p_pagetable x) initcode ;;
  updp p (λ x, x <| p_sz := PGSIZE |>) ;;
  updtf (p_trapframe x) (λ t, t <| tf_epc := 0 |>) ;;
  updtf (p_trapframe x) (λ t, t <| tf_sp := PGSIZE |>) ;;
  set_name p (chars "initcode" ++ [0]) ;;
  cwd ← namei (chars "/");
  updp p (λ x, x <| p_cwd := cwd |>) ;;
  updp p (λ x, x <| p_state := RUNNABLE |>) ;;
  release (L_proc p).

Definition growproc (n : Z) : K Z :=
  p ← curproc;
  x ← getp p;
  let sz := p_sz x in
  if 0 <? n then
    sz ← uvmalloc (p_pagetable x) sz (u64 (sz + n)) PTE_W;
    if sz =? 0 then ret (-1) else
    updp p (λ x, x <| p_sz := sz |>) ;; ret 0
  else if n <? 0 then
    sz ← uvmdealloc (p_pagetable x) sz (u64 (sz + n));
    updp p (λ x, x <| p_sz := sz |>) ;; ret 0
  else updp p (λ x, x <| p_sz := sz |>) ;; ret 0.

(** The files of the parent shared with the child, one descriptor at a time. *)
Definition fork_ofile (p np : nat) (i : nat) : K unit :=
  x ← getp p;
  o ← deref (p_ofile x !! i);
  match o with
  | Some f => f ← filedup f; updp np (λ x, x <| p_ofile ::= <[i := Some f]> |>)
  | None => ret tt
  end.

Definition fork : K Z :=
  p ← curproc;
  o ← allocproc;
  match o with
  | None => ret (-1)
  | Some np =>
      x ← getp p; nx ← getp np;
      r ← uvmcopy (p_pagetable x) (p_pagetable nx) (p_sz x);
      if r <? 0 then freeproc np ;; release (L_proc np) ;; ret (-1) else
      x ← getp p;
      updp np (λ nx, nx <| p_sz := p_sz x |>) ;;
      t ← gettf (p_trapframe x);
      nx ← getp np;
      updtf (p_trapframe nx) (λ _, t) ;;
      updtf (p_trapframe nx) (λ t, t <| tf_a0 := 0 |>) ;;
      for_all (seq 0 (Z.to_nat NOFILE)) (fork_ofile p np) ;;
      x ← getp p;
      cwd ← deref (p_cwd x);
      cwd ← idup cwd;
      updp np (λ nx, nx <| p_cwd := Some cwd |>) ;;
      x ← getp p;
      set_name np (p_name x) ;;
      nx ← getp np;
      let pid := p_pid nx in
      release (L_proc np) ;;
      acquire L_wait ;;
      updp np (λ nx, nx <| p_parent := Some p |>) ;;
      release L_wait ;;
      acquire (L_proc np) ;;
      updp np (λ nx, nx <| p_state := RUNNABLE |>) ;;
      release (L_proc np) ;;
      ret pid
  end.

(** The channel a process pointer names. *)
Definition chan_of (p : option nat) : channel :=
  match p with Some p => Ch_proc p | None => Ch_null end.

Definition reparent (p : nat) : K unit :=
  for_all proc_indices (λ pp,
    x ← getp pp;
    when (bool_decide (p_parent x = Some p))
      (init ← gets k_initproc;
       updp pp (λ x, x <| p_parent := init |>) ;;
       wakeup (chan_of init))).

(** Closing one descriptor of the exiting process. *)
Definition exit_ofile (p fd : nat) : K unit :=
  x ← getp p;
  o ← deref (p_ofile x !! fd);
  match o with
  | Some f => fileclose f ;; updp p (λ x, x <| p_ofile ::= <[fd := None]> |>)
  | None => ret tt
  end.

(** exit() does not return: a run that comes back from sched() panics. *)
Definition exit (status : Z) : K unit :=
  p ← curproc;
  init ← gets k_initproc;
  if bool_decide (init = Some p) then panic "init exiting" else
  for_all (seq 0 (Z.to_nat NOFILE)) (exit_ofile p) ;;
  begin_op ;;
  x ← getp p;
  cwd ← deref (p_cwd x);
  iput cwd ;;
  end_op ;;
  updp p (λ x, x <| p_cwd := None |>) ;;
  acquire L_wait ;;
  reparent p ;;
  x ← getp p;
  wakeup (chan_of (p_parent x)) ;;
  acquire (L_proc p) ;;
  updp p (λ x, x <| p_xstate := status |>) ;;
  updp p (λ x, x <| p_state := ZOMBIE |>) ;;
  release L_wait ;;
  sched ;;
  panic "zombie exit".

(** One child examined by wait(): [Some r] when wait() returns [r] (all locks
    released), and whether it was a child at all. *)
Definition wait_one (p : nat) (addr : Z) (pp : nat) : K (option Z * bool) :=
  x ← getp pp;
  if negb (bool_decide (p_parent x = Some p)) then ret (None, false) else
  acquire (L_proc pp) ;;
  x ← getp pp;
  if bool_decide (p_state x = ZOMBIE) then
    let pid := p_pid x in
    me ← getp p;
    r ← (if truth addr then copyout (p_pagetable me) addr (le_bytes 4 (p_xstate x)) else ret 0);
    if r <? 0 then release (L_proc pp) ;; release L_wait ;; ret (Some (-1), true) else
    freeproc pp ;;
    release (L_proc pp) ;;
    release L_wait ;;
    ret (Some pid, true)
  else release (L_proc pp) ;; ret (None, true).

Fixpoint wait_scan (p : nat) (addr : Z) (l : list nat) (havekids : bool) : K (option Z * bool) :=
  match l with
  | [] => ret (None, havekids)
  | pp :: l =>
      ' (r, kid) ← wait_one p addr pp;
      match r with
      | Some v => ret (Some v, havekids)
      | None => wait_scan p addr l (havekids || kid)
      end
  end.

Definition wait (addr : Z) : K Z :=
  p ← curproc;
  acquire L_wait ;;
  loop (S fuel) (λ _ : unit,
    ' (r, havekids) ← wait_scan p addr proc_indices false;
    match r with
    | Some v => ret (inr v)
    | None =>
        k ← (if negb havekids then ret 1 else killed p);
        if truth k then release L_wait ;; ret (inr (-1))
        else sleep (Ch_proc p) L_wait ;; ret (inl tt)
    end) tt.
End procs.
