(* ===== verification/Exec.v ===== *)
(** * exec.c

    The ELF headers are byte arrays read from the file: [struct elfhdr] has 64
    bytes (magic 0, entry 24, phoff 32, phnum 56), [struct proghdr] 56 (type 0,
    flags 4, off 8, vaddr 16, filesz 32, memsz 40).  [argv] is the list of the
    addresses of the argument strings, without the final null pointer. *)

From Stdlib Require Import ZArith Lia.
From stdpp Require Import base numbers list gmap strings.
From S2P Require Import Prelude Machine Kernel Strings Riscv Spinlock Kalloc Vm Proc.
From S2P Require Import Sleeplock Virtio Bio Log Fs Procs.

Definition ELF_MAGIC : Z := 0x464C457F.
Definition ELF_PROG_LOAD : Z := 1.

Definition get64 (off : Z) (l : list Z) : Z := le_val (slice off 8 l).

Record elfhdr := Elfhdr { e_magic : Z; e_entry : Z; e_phoff : Z; e_phnum : Z }.
Definition get_elfhdr (d : list Z) : elfhdr :=
  Elfhdr (get32 0 d) (get64 24 d) (get64 32 d) (get16 56 d).

Record proghdr := Proghdr {
  ph_type : Z; ph_flags : Z; ph_off : Z; ph_vaddr : Z; ph_filesz : Z; ph_memsz : Z }.
Definition get_proghdr (d : list Z) : proghdr :=
  Proghdr (get32 0 d) (get32 4 d) (get64 8 d) (get64 16 d) (get64 32 d) (get64 40 d).

Definition flags2perm (flags : Z) : Z :=
  let perm := if truth (Z.land flags 0x1) then PTE_X else 0 in
  if truth (Z.land flags 0x2) then Z.lor perm PTE_W else perm.

(** The string after the last slash of a path. *)
Fixpoint last_elem (path last : list Z) : list Z :=
  match path with
  | [] => last
  | c :: path => last_elem path (if c =? 47 then path else last)
  end.

Section exec.
Context `{Fuel} `{Symbols} `{DiskDriver}.

(** The C string at kernel address [a], which lies within the page it starts. *)
Definition kstr (a : Z) : K (list Z) :=
  b ← kload_bytes a PGN;
  n ← deref (strlen b);
  ret (take (Z.to_nat n) b).

Definition loadseg (pagetable va : Z) (ip : nat) (offset sz : Z) : K Z :=
  loop (S (Z.to_nat ((sz + PGSIZE - 1) / PGSIZE))) (λ i,
    if negb (i <? sz) then ret (inr 0) else
    pa ← walkaddr pagetable (u64 (va + i));
    if pa =? 0 then panic "loadseg: address should exist" else
    let n := if u32 (sz - i) <? PGSIZE then u32 (sz - i) else PGSIZE in
    ' (r, _) ← readi ip (D_mem pa) (u32 (offset + i)) n;
    if negb (u32 r =? n) then ret (inr (-1)) else ret (inl (u32 (i + PGSIZE)))) 0.

(** One program header: the new size, or [None] for [goto bad], with the size
    the code at [bad] frees. *)
Definition load_ph (pagetable : Z) (ip : nat) (off sz : Z) : K (Z * bool) :=
  ' (r, b) ← readi ip D_local (u32 off) 56;
  if negb (r =? 56) then ret (sz, false) else
  let ph := get_proghdr b in
  if negb (ph_type ph =? ELF_PROG_LOAD) then ret (sz, true) else
  if ph_memsz ph <? ph_filesz ph then ret (sz, false) else
  if u64 (ph_vaddr ph + ph_memsz ph) <? ph_vaddr ph then ret (sz, false) else
  if negb (ph_vaddr ph mod PGSIZE =? 0) then ret (sz, false) else
  sz1 ← uvmalloc pagetable sz (u64 (ph_vaddr ph + ph_memsz ph)) (flags2perm (ph_flags ph));
  if sz1 =? 0 then ret (sz, false) else
  r ← loadseg pagetable (ph_vaddr ph) ip (u32 (ph_off ph)) (u32 (ph_filesz ph));
  ret (sz1, negb (r <? 0)).

Fixpoint load_phs (n : nat) (pagetable : Z) (ip : nat) (off sz : Z) : K (Z * bool) :=
  match n with
  | O => ret (sz, true)
  | S n =>
      ' (sz, ok) ← load_ph pagetable ip off sz;
      if ok : bool then load_phs n pagetable ip (i32 (off + 56)) sz else ret (sz, false)
  end.

(** The code at [bad], and the result -1. *)
Definition exec_bad (pagetable sz : Z) (ip : option nat) : K Z :=
  when (truth pagetable) (proc_freepagetable pagetable sz) ;;
  (match ip with Some ip => iunlockput ip ;; end_op | None => ret tt end) ;;
  ret (-1).

(** Push the argument strings: the stack pointer and the strings' addresses,
    or [None] for [goto bad]. *)
Fixpoint push_args (argv : list Z) (pagetable sp stackbase : Z) (ustack : list Z)
    : K (option (Z * list Z)) :=
  match argv with
  | [] => ret (Some (sp, ustack))
  | a :: argv =>
      if MAXARG <=? Z.of_nat (length ustack) then ret None else
      s ← kstr a;
      let sp := u64 (sp - (Z.of_nat (length s) + 1)) in
      let sp := u64 (sp - sp mod 16) in
      if sp <? stackbase then ret None else
      r ← copyout pagetable sp (s ++ [0]);
      if r <? 0 then ret None else
      push_args argv pagetable sp stackbase (ustack ++ [sp])
  end.

(** From the new stack on; [ip] has been released. *)
Definition exec_stack (path : list Z) (argv : list Z) (pagetable sz entry : Z) : K Z :=
  p ← curproc;
  x ← getp p;
  let oldsz := p_sz x in
  let sz := PGROUNDUP sz in
  sz1 ← uvmalloc pagetable sz (u64 (sz + 2 * PGSIZE)) PTE_W;
  if sz1 =? 0 then exec_bad pagetable sz None else
  let sz := sz1 in
  uvmclear pagetable (u64 (sz - 2 * PGSIZE)) ;;
  let stackbase := u64 (sz - PGSIZE) in
  o ← push_args argv pagetable sz stackbase [];
  match o with
  | None => exec_bad pagetable sz None
  | Some (sp, ustack) =>
      let argc := Z.of_nat (length ustack) in
      if MAXARG <=? argc then fault (* ustack[argc] = 0 *) else
      let sp := u64 (sp - (argc + 1) * 8) in
      let sp := u64 (sp - sp mod 16) in
      if sp <? stackbase then exec_bad pagetable sz None else
      r ← copyout pagetable sp (concat (le_bytes 8 <$> (ustack ++ [0])));
      if r <? 0 then exec_bad pagetable sz None else
      x ← getp p;
      updtf (p_trapframe x) (λ t, t <| tf_a1 := sp |>) ;;
      set_name p (last_elem path path ++ [0]) ;;
      x ← getp p;
      let oldpagetable := p_pagetable x in
      updp p (λ x, x <| p_pagetable := pagetable |>) ;;
      updp p (λ x, x <| p_sz := sz |>) ;;
      updtf (p_trapframe x) (λ t, t <| tf_epc := entry |>) ;;
      updtf (p_trapframe x) (λ t, t <| tf_sp := sp |>) ;;
      proc_freepagetable oldpagetable oldsz ;;
      ret argc
  end.

Definition exec (path : list Z) (argv : list Z) : K Z :=
  p ← curproc;
  begin_op ;;
  o ← namei path;
  match o with
  | None => end_op ;; ret (-1)
  | Some ip =>
      ilock ip ;;
      ' (r, b) ← readi ip D_local 0 64;
      if negb (r =? 64) then exec_bad 0 0 (Some ip) else
      let elf := get_elfhdr b in
      if negb (e_magic elf =? ELF_MAGIC) then exec_bad 0 0 (Some ip) else
      pagetable ← proc_pagetable p;
      if pagetable =? 0 then exec_bad 0 0 (Some ip) else
      ' (sz, ok) ← load_phs (Z.to_nat (e_phnum elf)) pagetable ip (i32 (e_phoff elf)) 0;
      if negb ok then exec_bad pagetable sz (Some ip) else
      iunlockput ip ;;
      end_op ;;
      exec_stack path argv pagetable sz (e_entry elf)
  end.
End exec.
