(* ===== verification/SysArgs.v ===== *)
(** * syscall.c: system-call arguments *)

From Stdlib Require Import ZArith Lia.
From stdpp Require Import base numbers list gmap strings.
From S2P Require Import Prelude Machine Kernel Strings Riscv Spinlock Kalloc Vm Proc.

Section args.
Context `{Fuel} `{Symbols}.

(** The value fetched into [*ip], or [None] for the result -1. *)
Definition fetchaddr (addr : Z) : K (option Z) :=
  p ← curproc; x ← getp p;
  if (p_sz x <=? addr) || (p_sz x <? u64 (addr + 8)) then ret None else
  ' (r, b) ← copyin (p_pagetable x) addr 8;
  if negb (r =? 0) then ret None else ret (Some (le_val b)).

(** The result, and the bytes stored in [buf] (NUL-terminated if the result is
    not -1). *)
Definition fetchstr (addr max : Z) : K (Z * list Z) :=
  p ← curproc; x ← getp p;
  ' (r, b) ← copyinstr (p_pagetable x) addr max;
  if r <? 0 then ret (-1, b) else
  n ← deref (strlen b);
  ret (i32 n, b).

Definition argraw (n : Z) : K Z :=
  p ← curproc; x ← getp p; t ← gettf (p_trapframe x);
  match n with
  | 0 => ret (tf_a0 t) | 1 => ret (tf_a1 t) | 2 => ret (tf_a2 t)
  | 3 => ret (tf_a3 t) | 4 => ret (tf_a4 t) | 5 => ret (tf_a5 t)
  | _ => panic "argraw"
  end.

Definition argint (n : Z) : K Z := v ← argraw n; ret (i32 v).
Definition argaddr (n : Z) : K Z := argraw n.

Definition argstr (n max : Z) : K (Z * list Z) := addr ← argaddr n; fetchstr addr max.
End args.
