(* ===== verification/Sysfile.v ===== *)
(** * sysfile.c: the file-system calls

    A system call takes its arguments from the trapframe through SysArgs.v and
    returns an int, -1 for an error.  The [goto] targets of the C functions are
    definitions of their own. *)

From Stdlib Require Import ZArith Lia.
From stdpp Require Import base numbers list gmap strings.
From S2P Require Import Prelude Machine Kernel Strings Riscv Spinlock Kalloc Vm Proc Printf.
From S2P Require Import Sleeplock Virtio Bio Log Fs Pipe File Procs Exec SysArgs.

(** ** fcntl.h *)
Definition O_RDONLY : Z := 0x000.
Definition O_WRONLY : Z := 0x001.
Definition O_RDWR : Z := 0x002.
Definition O_CREATE : Z := 0x200.
Definition O_TRUNC : Z := 0x400.

Section sysfile.
Context `{Fuel} `{Symbols} `{DiskDriver}.

(** The descriptor and its file, or [None] for the result -1. *)
Definition argfd (n : Z) : K (option (nat * nat)) :=
  fd ← argint n;
  if (fd <? 0) || (NOFILE <=? fd) then ret None else
  p ← curproc; x ← getp p;
  o ← deref (p_ofile x !! Z.to_nat fd);
  match o with
  | None => ret None
  | Some f => ret (Some (Z.to_nat fd, f))
  end.

(** The first free slot of a descriptor table. *)
Fixpoint first_none {A} (l : list (option A)) (i : nat) : option nat :=
  match l with
  | [] => None
  | None :: _ => Some i
  | Some _ :: l => first_none l (S i)
  end.

Definition fdalloc (f : nat) : K Z :=
  p ← curproc; x ← getp p;
  match first_none (p_ofile x) 0 with
  | None => ret (-1)
  | Some fd => updp p (λ x, x <| p_ofile ::= <[fd := Some f]> |>) ;; ret (Z.of_nat fd)
  end.

Definition sys_dup : K Z :=
  a ← argfd 0;
  match a with
  | None => ret (-1)
  | Some (_, f) =>
      fd ← fdalloc f;
      if fd <? 0 then ret (-1) else
      filedup f ;; ret fd
  end.

Definition sys_read : K Z :=
  p ← argaddr 1;
  n ← argint 2;
  a ← argfd 0;
  match a with None => ret (-1) | Some (_, f) => fileread f p n end.

Definition sys_write : K Z :=
  p ← argaddr 1;
  n ← argint 2;
  a ← argfd 0;
  match a with None => ret (-1) | Some (_, f) => filewrite f p n end.

Definition sys_close : K Z :=
  a ← argfd 0;
  match a with
  | None => ret (-1)
  | Some (fd, f) =>
      p ← curproc;
      updp p (λ x, x <| p_ofile ::= <[fd := None]> |>) ;;
      fileclose f ;;
      ret 0
  end.

(** [pad]: the uninitialised padding bytes of the [struct stat] copied out. *)
Definition sys_fstat (pad : list Z) : K Z :=
  st ← argaddr 1;
  a ← argfd 0;
  match a with None => ret (-1) | Some (_, f) => filestat f st pad end.

(** A path argument: the characters before the NUL. *)
Definition argpath (n : Z) : K (option (list Z)) :=
  ' (r, b) ← argstr n MAXPATH;
  if r <? 0 then ret None else ret (Some (take (Z.to_nat r) b)).

(** [ip->nlink += d; iupdate(ip)] *)
Definition add_nlink (ip : nat) (d : Z) : K unit :=
  updi ip (λ x, x <| i_nlink ::= λ n, i16 (n + d) |>) ;; iupdate ip.

(** The code at [bad] of sys_link(). *)
Definition link_bad (ip : nat) : K Z :=
  ilock ip ;;
  add_nlink ip (-1) ;;
  iunlockput ip ;;
  end_op ;;
  ret (-1).

Definition sys_link : K Z :=
  o ← argpath 0;
  match o with None => ret (-1) | Some old =>
  o ← argpath 1;
  match o with None => ret (-1) | Some new =>
  begin_op ;;
  o ← namei old;
  match o with
  | None => end_op ;; ret (-1)
  | Some ip =>
      ilock ip ;;
      x ← geti ip;
      if i_type x =? T_DIR then iunlockput ip ;; end_op ;; ret (-1) else
      add_nlink ip 1 ;;
      iunlock ip ;;
      ' (d, name) ← nameiparent new;
      match d with
      | None => link_bad ip
      | Some dp =>
          ilock dp ;;
          dx ← geti dp; x ← geti ip;
          r ← (if negb (i_dev dx =? i_dev x) then ret (-1) else dirlink dp name (i_inum x));
          if r <? 0 then iunlockput dp ;; link_bad ip else
          iunlockput dp ;;
          iput ip ;;
          end_op ;;
          ret 0
      end
  end end end.

Definition isdirempty (dp : nat) : K bool :=
  x ← geti dp;
  loop (Z.to_nat (i_size x / 16) + 2) (λ off,
    x ← geti dp;
    if negb (off <? i_size x) then ret (inr true) else
    ' (r, de) ← readi dp D_local off 16;
    if negb (r =? 16) then panic "isdirempty: readi" else
    if negb (de_inum de =? 0) then ret (inr false) else ret (inl (off + 16))) (2 * 16).

(** The code at [bad] of sys_unlink(). *)
Definition unlink_bad (dp : nat) : K Z := iunlockput dp ;; end_op ;; ret (-1).

(** A string literal as namecmp() sees it: NUL-terminated. *)
Definition lit (s : string) : list Z := chars s ++ [0].

Definition sys_unlink : K Z :=
  o ← argpath 0;
  match o with None => ret (-1) | Some path =>
  begin_op ;;
  ' (d, name) ← nameiparent path;
  match d with
  | None => end_op ;; ret (-1)
  | Some dp =>
      ilock dp ;;
      c1 ← namecmp name (lit ".");
      c2 ← (if c1 =? 0 then ret 0 else namecmp name (lit ".."));
      if c2 =? 0 then unlink_bad dp else
      o ← dirlookup dp name;
      match o with
      | None => unlink_bad dp
      | Some (ip, off) =>
          ilock ip ;;
          x ← geti ip;
          if i_nlink x <? 1 then panic "unlink: nlink < 1" else
          e ← (if i_type x =? T_DIR then isdirempty ip else ret true);
          if negb e then iunlockput ip ;; unlink_bad dp else
          w ← writei dp (S_local (replicate 16 0)) off 16;
          if negb (w =? 16) then panic "unlink: writei" else
          x ← geti ip;
          when (i_type x =? T_DIR) (add_nlink dp (-1)) ;;
          iunlockput dp ;;
          add_nlink ip (-1) ;;
          iunlockput ip ;;
          end_op ;;
          ret 0
      end
  end end.

(** The code at [fail] of create(). *)
Definition create_fail (ip dp : nat) : K (option nat) :=
  updi ip (λ x, x <| i_nlink := 0 |>) ;;
  iupdate ip ;;
  iunlockput ip ;;
  iunlockput dp ;;
  ret None.

Definition create (path : list Z) (type major minor : Z) : K (option nat) :=
  ' (d, name) ← nameiparent path;
  match d with
  | None => ret None
  | Some dp =>
      ilock dp ;;
      o ← dirlookup dp name;
      match o with
      | Some (ip, _) =>
          iunlockput dp ;;
          ilock ip ;;
          x ← geti ip;
          if (type =? T_FILE) && ((i_type x =? T_FILE) || (i_type x =? T_DEVICE))
          then ret (Some ip)
          else iunlockput ip ;; ret None
      | None =>
          dx ← geti dp;
          o ← ialloc (i_dev dx) type;
          match o with
          | None => iunlockput dp ;; ret None
          | Some ip =>
              ilock ip ;;
              updi ip (λ x, x <| i_major := major |> <| i_minor := minor |> <| i_nlink := 1 |>) ;;
              iupdate ip ;;
              x ← geti ip; dx ← geti dp;
              r ← (if type =? T_DIR then
                     r ← dirlink ip (lit ".") (i_inum x);
                     if r <? 0 then ret r else dirlink ip (lit "..") (i_inum dx)
                   else ret 0);
              if r <? 0 then create_fail ip dp else
              r ← dirlink dp name (i_inum x);
              if r <? 0 then create_fail ip dp else
              when (type =? T_DIR) (add_nlink dp 1) ;;
              iunlockput dp ;;
              ret (Some ip)
          end
      end
  end.

(** The inode sys_open() opens, locked; [None] after the error returns. *)
Definition open_inode (path : list Z) (omode : Z) : K (option nat) :=
  if truth (Z.land omode O_CREATE) then create path T_FILE 0 0
  else
    o ← namei path;
    match o with
    | None => ret None
    | Some ip =>
        ilock ip ;;
        x ← geti ip;
        if (i_type x =? T_DIR) && negb (omode =? O_RDONLY) then iunlockput ip ;; ret None
        else ret (Some ip)
    end.

Definition sys_open : K Z :=
  omode ← argint 1;
  o ← argpath 0;
  match o with None => ret (-1) | Some path =>
  begin_op ;;
  o ← open_inode path omode;
  match o with
  | None => end_op ;; ret (-1)
  | Some ip =>
      x ← geti ip;
      if (i_type x =? T_DEVICE) && ((i_major x <? 0) || (NDEV <=? i_major x))
      then iunlockput ip ;; end_op ;; ret (-1) else
      o ← filealloc;
      fd ← (match o with None => ret (-1) | Some f => fdalloc f end);
      match o with
      | Some f =>
          if fd <? 0 then fileclose f ;; iunlockput ip ;; end_op ;; ret (-1) else
          x ← geti ip;
          (if i_type x =? T_DEVICE
           then updf f (λ y, y <| f_type := FD_DEVICE |> <| f_major := i_major x |>)
           else updf f (λ y, y <| f_type := FD_INODE |> <| f_off := 0 |>)) ;;
          updf f (λ y, y <| f_ip := Some ip |>
                         <| f_readable := b2z (Z.land omode O_WRONLY =? 0) |>
                         <| f_writable := b2z (truth (Z.land omode O_WRONLY)
                                               || truth (Z.land omode O_RDWR)) |>) ;;
          when (truth (Z.land omode O_TRUNC) && (i_type x =? T_FILE)) (itrunc ip) ;;
          iunlock ip ;;
          end_op ;;
          ret fd
      | None => iunlockput ip ;; end_op ;; ret (-1)
      end
  end end.

Definition sys_mkdir : K Z :=
  begin_op ;;
  o ← argpath 0;
  o ← (match o with None => ret None | Some path => create path T_DIR 0 0 end);
  match o with
  | None => end_op ;; ret (-1)
  | Some ip => iunlockput ip ;; end_op ;; ret 0
  end.

Definition sys_mknod : K Z :=
  begin_op ;;
  major ← argint 1;
  minor ← argint 2;
  o ← argpath 0;
  o ← (match o with None => ret None | Some path => create path T_DEVICE (i16 major) (i16 minor) end);
  match o with
  | None => end_op ;; ret (-1)
  | Some ip => iunlockput ip ;; end_op ;; ret 0
  end.

Definition sys_chdir : K Z :=
  p ← curproc;
  begin_op ;;
  o ← argpath 0;
  o ← (match o with None => ret None | Some path => namei path end);
  match o with
  | None => end_op ;; ret (-1)
  | Some ip =>
      ilock ip ;;
      x ← geti ip;
      if negb (i_type x =? T_DIR) then iunlockput ip ;; end_op ;; ret (-1) else
      iunlock ip ;;
      y ← getp p;
      cwd ← deref (p_cwd y);
      iput cwd ;;
      end_op ;;
      updp p (λ y, y <| p_cwd := Some ip |>) ;;
      ret 0
  end.

(** The loop of sys_exec(): the pages holding the arguments fetched so far, and
    whether the null pointer was reached ([false]: [goto bad]). *)
Fixpoint fetch_args (n : nat) (uargv i : Z) (argv : list Z) : K (list Z * bool) :=
  match n with
  | O => ret (argv, false)
  | S n =>
      o ← fetchaddr (u64 (uargv + 8 * i));
      match o with
      | None => ret (argv, false)
      | Some uarg =>
          if uarg =? 0 then ret (argv, true) else
          pg ← kalloc;
          if pg =? 0 then ret (argv, false) else
          ' (r, b) ← fetchstr uarg PGSIZE;
          kstore_bytes pg b ;;
          if r <? 0 then ret (argv ++ [pg], false) else
          fetch_args n uargv (i + 1) (argv ++ [pg])
      end
  end.

Definition sys_exec : K Z :=
  uargv ← argaddr 1;
  o ← argpath 0;
  match o with
  | None => ret (-1)
  | Some path =>
      ' (argv, ok) ← fetch_args (Z.to_nat MAXARG) uargv 0 [];
      r ← (if ok : bool then exec path argv else ret (-1));
      for_all argv kfree ;;
      ret r
  end.

Definition sys_pipe : K Z :=
  p ← curproc;
  fdarray ← argaddr 0;
  o ← pipealloc;
  match o with
  | None => ret (-1)
  | Some (rf, wf) =>
      fd0 ← fdalloc rf;
      fd1 ← (if fd0 <? 0 then ret (-1) else fdalloc wf);
      if fd1 <? 0 then
        when (0 <=? fd0) (updp p (λ x, x <| p_ofile ::= <[Z.to_nat fd0 := None]> |>)) ;;
        fileclose rf ;; fileclose wf ;; ret (-1)
      else
      x ← getp p;
      r ← copyout (p_pagetable x) fdarray (le_bytes 4 fd0);
      r ← (if r <? 0 then ret r
           else copyout (p_pagetable x) (u64 (fdarray + 4)) (le_bytes 4 fd1));
      if r <? 0 then
        updp p (λ x, x <| p_ofile ::= <[Z.to_nat fd0 := None]> |>) ;;
        updp p (λ x, x <| p_ofile ::= <[Z.to_nat fd1 := None]> |>) ;;
        fileclose rf ;; fileclose wf ;; ret (-1)
      else ret 0
  end.
End sysfile.
