(* ===== verification/Sysproc.v ===== *)
(** * sysproc.c: the process system calls *)

From Stdlib Require Import ZArith Lia.
From stdpp Require Import base numbers list gmap strings.
From S2P Require Import Prelude Machine Kernel Riscv Spinlock Proc Virtio Procs SysArgs.

Section sysproc.
Context `{Fuel} `{Symbols} `{DiskDriver}.

Definition sys_exit : K Z := n ← argint 0; exit n ;; ret 0.
Definition sys_getpid : K Z := p ← curproc; x ← getp p; ret (p_pid x).
Definition sys_fork : K Z := fork.
Definition sys_wait : K Z := p ← argaddr 0; wait p.

Definition sys_sbrk : K Z :=
  n ← argint 0;
  p ← curproc; x ← getp p;
  let addr := p_sz x in
  r ← growproc n;
  if r <? 0 then ret (-1) else ret addr.

(** [ticks - ticks0 < n]: the comparison is between unsigned ints. *)
Definition sys_sleep : K Z :=
  n ← argint 0;
  acquire L_ticks ;;
  ticks0 ← gets k_ticks;
  loop (S fuel) (λ _ : unit,
    t ← gets k_ticks;
    if u32 (t - ticks0) <? u32 n then
      p ← curproc;
      k ← killed p;
      if truth k then release L_ticks ;; ret (inr (-1)) else
      sleep Ch_ticks L_ticks ;; ret (inl tt)
    else release L_ticks ;; ret (inr 0)) tt.

Definition sys_find : K Z := ret 0.
Definition sys_kill : K Z := pid ← argint 0; kill pid.

Definition sys_uptime : K Z :=
  acquire L_ticks ;;
  xticks ← gets k_ticks;
  release L_ticks ;;
  ret xticks.
End sysproc.
