(* ===== verification/Syscall.v ===== *)
(** * syscall.c: dispatch *)

From Stdlib Require Import ZArith Lia.
From stdpp Require Import base numbers list gmap strings.
From S2P Require Import Prelude Machine Kernel Riscv Spinlock Proc Printf Console Virtio.
From S2P Require Import SysArgs Sysfile Sysproc.

Section syscall.
Context `{Fuel} `{Symbols} `{DiskDriver}.

(** The padding sys_fstat() copies out comes from the kernel stack. *)
Context (stat_pad : list Z).

(** The table [syscalls] of syscall.c, by the numbers of syscall.h. *)
Definition syscalls (num : Z) : option (K Z) :=
  match num with
  | 1 => Some sys_fork | 2 => Some sys_exit | 3 => Some sys_wait | 4 => Some sys_pipe
  | 5 => Some sys_read | 6 => Some sys_kill | 7 => Some sys_exec | 8 => Some (sys_fstat stat_pad)
  | 9 => Some sys_chdir | 10 => Some sys_dup | 11 => Some sys_getpid | 12 => Some sys_sbrk
  | 13 => Some sys_sleep | 14 => Some sys_uptime | 15 => Some sys_open | 16 => Some sys_write
  | 17 => Some sys_mknod | 18 => Some sys_unlink | 19 => Some sys_link | 20 => Some sys_mkdir
  | 21 => Some sys_close
  | _ => None
  end.

Definition syscall : K unit :=
  p ← curproc; x ← getp p; t ← gettf (p_trapframe x);
  let num := i32 (tf_a7 t) in
  match syscalls num with
  | Some f =>
      r ← f;
      x ← getp p;
      updtf (p_trapframe x) (λ t, t <| tf_a0 := u64 r |>)
  | None =>
      printf ("%d %s: unknown sys call %d" +:+ newline)
        [A_int (p_pid x); A_str (Some (until_nul (p_name x))); A_int num] ;;
      x ← getp p;
      updtf (p_trapframe x) (λ t, t <| tf_a0 := u64 (-1) |>)
  end.
End syscall.
