(* ===== verification/Trap.v ===== *)
(** * trap.c, and forkret() of proc.c

    usertrap() and forkret() end in usertrapret(), which leaves the kernel for
    user mode; its result is the [satp] value trampoline.S switches to. *)

From Stdlib Require Import ZArith Lia.
From stdpp Require Import base numbers list gmap strings.
From S2P Require Import Prelude Machine Kernel Riscv Strings Spinlock Kalloc Vm Proc Uart Printf.
From S2P Require Import Console Virtio Fs Procs Plic Syscall.

Definition trapinit : K unit := initlock L_ticks "time".

(** Both functions only compute with the constant 10 and never touch a
    reference count: [dec_ref]'s recursion is not reached. *)
Definition add_ref (pa : Z) : K unit := ret tt.
Definition dec_ref (pa : Z) : K unit :=
  let index := 10 in
  if index =? -1 then ret tt else
  let cur_count := index in
  if cur_count <=? 0 then panic "ef a freed page!" else
  let index := cur_count - 1 in
  if index =? 0 then halt NoFuel (* dec_ref(pa) again, for ever *) else ret tt.

Section trap.
Context `{Fuel} `{Symbols} `{DiskDriver} (stat_pad : list Z).

Definition trapinithart : K unit := w_stvec kernelvec.

Definition clockintr : K unit :=
  acquire L_ticks ;;
  modify (λ s, s <| k_ticks ::= λ t, u32 (t + 1) |>) ;;
  wakeup Ch_ticks ;;
  release L_ticks.

Definition devintr : K Z :=
  scause ← r_scause;
  if truth (Z.land scause 0x8000000000000000) && (Z.land scause 0xff =? 9) then
    irq ← plic_claim;
    (if irq =? UART0_IRQ then uartintr
     else if irq =? VIRTIO0_IRQ then virtio_disk_intr
     else when (truth irq) (printf ("unexpected interrupt irq=%d" +:+ newline) [A_int irq])) ;;
    when (truth irq) (plic_complete irq) ;;
    ret 1
  else if scause =? 0x8000000000000001 then
    id ← cpuid;
    when (id =? 0) clockintr ;;
    (sip ← r_sip; w_sip (Z.land sip (Z.lnot 2))) ;;
    ret 2
  else ret 0.

Definition usertrapret : K Z :=
  p ← curproc;
  intr_off ;;
  w_stvec (TRAMPOLINE + (uservec - trampoline)) ;;
  x ← getp p;
  satp ← r_satp;
  updtf (p_trapframe x) (λ t, t <| tf_kernel_satp := satp |>) ;;
  updtf (p_trapframe x) (λ t, t <| tf_kernel_sp := u64 (p_kstack x + PGSIZE) |>) ;;
  updtf (p_trapframe x) (λ t, t <| tf_kernel_trap := usertrap_addr |>) ;;
  tp ← r_tp;
  updtf (p_trapframe x) (λ t, t <| tf_kernel_hartid := tp |>) ;;
  sstatus ← r_sstatus;
  let sstatus := Z.land sstatus (Z.lnot SSTATUS_SPP) in
  let sstatus := Z.lor sstatus SSTATUS_SPIE in
  w_sstatus sstatus ;;
  t ← gettf (p_trapframe x);
  w_sepc (tf_epc t) ;;
  x ← getp p;
  ret (MAKE_SATP (p_pagetable x)).

(** The page-fault case ([r_scause() == 15]) of usertrap(). *)
Definition cow_fault (p : nat) : K unit :=
  stval ← r_stval;
  let start_va := PGROUNDDOWN stval in
  x ← getp p;
  pte ← walk (p_pagetable x) start_va false;
  when (pte =? 0)
    (printf ("pge not found" +:+ newline) [] ;;
     updp p (λ x, x <| p_killed := 1 |>)) ;;
  v ← kload64 pte;
  when (truth (Z.land v PTE_V) && truth (Z.land v PTE_U) && truth (Z.land v PTE_R))
    (let flags := Z.land (Z.lor (PTE_FLAGS v) PTE_W) (Z.lnot PTE_R) in
     mem ← kalloc;
     v ← kload64 pte;
     let pa := PTE2PA v in
     kmemmove mem pa PGN ;;
     uvmunmap (p_pagetable x) start_va PGSIZE false ;;
     dec_ref pa ;;
     r ← mappages (p_pagetable x) start_va PGSIZE mem flags;
     when (negb (r =? 0))
       (updp p (λ x, x <| p_killed := 1 |>) ;;
        printf ("ometthing is wrong in mappages in trap." +:+ newline) [])).

(** What usertrap() does according to scause: the value of [which_dev]. *)
Definition usertrap_cause (p : nat) : K Z :=
  scause ← r_scause;
  if scause =? 8 then
    k ← killed p;
    when (truth k) (exit (-1)) ;;
    x ← getp p;
    updtf (p_trapframe x) (λ t, t <| tf_epc ::= λ e, u64 (e + 4) |>) ;;
    intr_on ;;
    syscall stat_pad ;;
    ret 0
  else if scause =? 15 then cow_fault p ;; ret 0
  else
    which_dev ← devintr;
    if truth which_dev then ret which_dev else
    scause ← r_scause;
    x ← getp p;
    printf ("usertrap(): unexpected scause %p pid=%d" +:+ newline) [A_ptr scause; A_int (p_pid x)] ;;
    sepc ← r_sepc; stval ← r_stval;
    printf ("            sepc=%p stval=%p" +:+ newline) [A_ptr sepc; A_ptr stval] ;;
    setkilled p ;;
    ret 0.

Definition usertrap : K Z :=
  sstatus ← r_sstatus;
  if negb (Z.land sstatus SSTATUS_SPP =? 0) then panic "usertrap: not from user mode" else
  w_stvec kernelvec ;;
  p ← curproc;
  x ← getp p;
  sepc ← r_sepc;
  updtf (p_trapframe x) (λ t, t <| tf_epc := sepc |>) ;;
  which_dev ← usertrap_cause p;
  k ← killed p;
  when (truth k) (exit (-1)) ;;
  when (which_dev =? 2) yield ;;
  usertrapret.

Definition kerneltrap : K unit :=
  sepc ← r_sepc;
  sstatus ← r_sstatus;
  scause ← r_scause;
  if Z.land sstatus SSTATUS_SPP =? 0 then panic "kerneltrap: not from supervisor mode" else
  on ← intr_get;
  if truth on then panic "kerneltrap: interrupts enabled" else
  which_dev ← devintr;
  if which_dev =? 0 then
    printf ("scause %p" +:+ newline) [A_ptr scause] ;;
    sepc ← r_sepc; stval ← r_stval;
    printf ("sepc=%p stval=%p" +:+ newline) [A_ptr sepc; A_ptr stval] ;;
    panic "kerneltrap"
  else
  (if which_dev =? 2 then
     o ← myproc;
     match o with
     | None => ret tt
     | Some _ =>
         p ← curproc; x ← getp p;
         when (bool_decide (p_state x = RUNNING)) yield
     end
   else ret tt) ;;
  w_sepc sepc ;;
  w_sstatus sstatus.

Definition forkret : K Z :=
  p ← curproc;
  release (L_proc p) ;;
  first ← gets k_first;
  when (truth first)
    (modify (λ s, s <| k_first := 0 |>) ;; fsinit ROOTDEV) ;;
  usertrapret.
End trap.
