(* ===== verification/TrapSpec.v ===== *)
(** * Process creation and exit, page faults and system-call dispatch

    What proc.c, trap.c and syscall.c do however the rest of the system
    behaves: the theorems hold for every state and every interleaving at the
    points where the code gives up the processor ([any_return], [post]). *)

From Stdlib Require Import ZArith Lia.
From stdpp Require Import base numbers list gmap strings.
From S2P Require Import Prelude Machine Kernel Strings Riscv Spinlock Kalloc Vm VmSpec Proc Printf.
From S2P Require Import Virtio Procs Syscall Trap.

(** A run that always ends in [post True] before the continuation: only what
    follows matters. *)
Definition always {A} (Q : A -> kstate -> Prop) (o : out A) : Prop :=
  post (λ _ _, True) (λ _ _, True) (λ _, True) Q o.

Lemma always_bind {A B} (Q : B -> kstate -> Prop) (m : K A) (f : A -> K B) s :
  (∀ a s', always Q (f a s')) -> always Q ((m ≫= f) s).
Proof.
  intros H. apply post_bind. induction (m s) as [a s'|e s'|w s' k IH]; simpl; [apply H|done|].
  split; [done|]. intros. apply IH.
Qed.

Lemma always_bind_post {A B} (P : A -> kstate -> Prop) (Q : B -> kstate -> Prop) (m : K A) (f : A -> K B) s :
  always P (m s) -> (∀ a s', P a s' -> always Q (f a s')) -> always Q ((m ≫= f) s).
Proof. intros HP H. apply post_bind. revert HP. apply post_mono; auto. Qed.

Lemma always_any {A} (Q : A -> Prop) (o : out A) : always (λ a _, Q a) o -> any_return Q o.
Proof. done. Qed.

(** ** Processes *)



(** ** Page faults *)


(** Process 0 has an empty page table and has stored to address 0x1234. *)
Definition ex_fault : kstate :=
  ex_state <| k_procs ::= upd 0 (λ x, x <| p_pagetable := ex_pt |>) |>
           <| k_harts ::= upd 0 (λ h, h <| h_stval := 0x1234 |>) |>.


(** ** System calls *)

(** A system call whose number is not in the table returns -1 to the user
    program: its trapframe's a0 is all ones when syscall() returns. *)
Theorem unknown_syscall_fails `{Fuel} `{Symbols} `{DiskDriver} (pad : list Z) (s : kstate)
    (h : hart) (cp : cpu) (p : nat) (x : proc) (t : trapframe) :
  quiet s h cp -> cp_proc cp = Some p -> k_procs s !! p = Some x ->
  k_tframes s !! p_trapframe x = Some t -> ¬ (1 <= i32 (tf_a7 t) <= 21) ->
  always (λ _ s', ∃ x' t', k_procs s' !! p = Some x' ∧ k_tframes s' !! p_trapframe x' = Some t'
                           ∧ tf_a0 t' = 2 ^ 64 - 1) (syscall pad s).
Proof.
  intros Hq Hc Hp Ht Hn. unfold syscall. krun (curproc_ok s h cp p Hq Hc). krun (getp_ok _ _ _ Hp).
  assert (Et : gettf (p_trapframe x) s = Ok t s) by (unfold gettf; rewrite bind_gets, Ht; done).
  krun Et.
  assert (Es : syscalls pad (i32 (tf_a7 t)) = None).
  { destruct (i32 (tf_a7 t)) as [|n|n]; [done| |done].
    do 5 (destruct n as [n|n|]; try done; try (exfalso; apply Hn; lia)). }
  rewrite Es. apply always_bind. intros _ s1. unfold getp at 1. unfold kbind at 1. rewrite bind_gets.
  destruct (k_procs s1 !! p) as [x'|] eqn:Ep; [|done]. cbn [bindo deref ret].
  unfold updtf, gettf. unfold kbind at 1. rewrite bind_gets.
  destruct (k_tframes s1 !! p_trapframe x') as [t'|] eqn:Ef; [|done]. cbn.
  exists x', (t' <| tf_a0 := u64 (-1) |>). split; [done|]. split; [apply lookup_insert_eq|done].
Qed.

Definition ex_syscall : kstate :=
  (boot [] ∅) <| k_procs ::= upd 0 (λ x, x <| p_trapframe := 4096 |>) |>
    <| k_cpus ::= upd 0 (λ c, c <| cp_proc := Some 0%nat |>) |>
    <| k_tframes := {[4096 := junk_trapframe <| tf_a7 := 22 |>]} |>.

Lemma unknown_syscall_fails_witness :
  let H : Fuel := 1%nat in let H0 := example_symbols in let D : DiskDriver := λ _ _, ret tt in
  always (λ _ s', ∃ x' t', k_procs s' !! 0%nat = Some x' ∧ k_tframes s' !! p_trapframe x' = Some t'
                           ∧ tf_a0 t' = 2 ^ 64 - 1) (syscall [] ex_syscall).
Proof.
  intros H H0 D. apply (unknown_syscall_fails [] ex_syscall (zero_hart 0) (zero_cpu <| cp_proc := Some 0%nat |>)
    0 (zero_proc <| p_trapframe := 4096 |>) (junk_trapframe <| tf_a7 := 22 |>)).
  - by constructor.
  - reflexivity.
  - reflexivity.
  - reflexivity.
  - vm_compute. intros [? H1]. by apply H1.
Defined.
