(* ===== verification/Main.v ===== *)
(** * start.c and main.c: boot

    start() runs in machine mode on every hart and returns (by mret) to main()
    in supervisor mode; main() ends in the scheduler. *)

From Stdlib Require Import ZArith Lia.
From stdpp Require Import base numbers list gmap strings.
From S2P Require Import Prelude Machine Kernel Riscv Spinlock Kalloc Vm Proc Uart Printf Console.
From S2P Require Import Virtio Bio Fs File Procs Plic Trap.

Section main.
Context `{Fuel} `{Symbols} `{DiskLayout} `{DiskDriver}.

Definition timerinit : K unit :=
  id ← r_mhartid;
  let interval := 1000000 in
  mtime ← mmio_read CLINT_MTIME;
  mmio_write (CLINT_MTIMECMP id) (u64 (mtime + interval)) ;;
  let scratch := timer_scratch + 40 * id in
  kstore64 (scratch + 8 * 3) (CLINT_MTIMECMP id) ;;
  kstore64 (scratch + 8 * 4) interval ;;
  w_mscratch scratch ;;
  w_mtvec timervec ;;
  (x ← r_mstatus; w_mstatus (Z.lor x MSTATUS_MIE)) ;;
  (x ← r_mie; w_mie (Z.lor x MIE_MTIE)).

Definition start : K unit :=
  x ← r_mstatus;
  let x := Z.land x (Z.lnot MSTATUS_MPP_MASK) in
  let x := Z.lor x MSTATUS_MPP_S in
  w_mstatus x ;;
  w_mepc main_addr ;;
  w_satp 0 ;;
  w_medeleg 0xffff ;;
  w_mideleg 0xffff ;;
  (x ← r_sie; w_sie (Z.lor (Z.lor (Z.lor x SIE_SEIE) SIE_STIE) SIE_SSIE)) ;;
  w_pmpaddr0 0x3fffffffffffff ;;
  w_pmpcfg0 0xf ;;
  timerinit ;;
  id ← r_mhartid;
  w_tp (u64 (i32 id)).

Definition main : K unit :=
  id ← cpuid;
  (if id =? 0 then
     consoleinit ;;
     printfinit ;;
     printf newline [] ;;
     printf ("xv6 kernel is booting" +:+ newline) [] ;;
     printf newline [] ;;
     kinit ;;
     kvminit ;;
     kvminithart ;;
     procinit ;;
     trapinit ;;
     trapinithart ;;
     plicinit ;;
     plicinithart ;;
     binit ;;
     iinit ;;
     fileinit ;;
     virtio_disk_init ;;
     userinit ;;
     modify (λ s, s <| k_started := 1 |>)
   else
     loop (S fuel) (λ _ : unit,
       st ← gets k_started;
       if st =? 0 then yield_cpu W_started ;; ret (inl tt) else ret (inr tt)) tt ;;
     id ← cpuid;
     printf ("hart %d starting" +:+ newline) [A_int id] ;;
     kvminithart ;;
     trapinithart ;;
     plicinithart) ;;
  scheduler.
End main.
