(* ===== verification/Typed.v ===== *)
(** * The types of the kernel's variables

    C arrays keep their length, integers stay within their width, byte arrays
    hold bytes, and a pointer into a table (the process table, the open files,
    the inode table, the buffers) is null or points into it: [typed].  Here it
    is shown of every function of the kernel, from the spinlocks up to the log,
    that it keeps the state well typed on each of its paths, whether it returns,
    stops, or gives up the processor, provided only that the rest of the system
    does.  TypedFs.v goes on with files and system calls, TypedSys.v with traps
    and with the whole machine. *)

From Stdlib Require Import ZArith Lia.
From stdpp Require Import base numbers list gmap strings.
From S2P Require Import Prelude Machine Kernel Strings Riscv Spinlock Kalloc Vm Proc Uart Printf Console.
From S2P Require Import Sleeplock Plic Virtio Bio Log.

(** ** Well-typed values *)

Definition word (w z : Z) : Prop := 0 <= z < 2 ^ w.
Definition sword (w z : Z) : Prop := - 2 ^ (w - 1) <= z < 2 ^ (w - 1).

(** A pointer into a table of [n] entries. *)
Definition index (n : Z) (i : nat) : Prop := Z.of_nat i < n.
Definition pointer (n : Z) (o : option nat) : Prop := match o with Some i => index n i | None => True end.

Record table {A} (n : Z) (P : A -> Prop) (l : list A) : Prop := {
  tb_length : length l = Z.to_nat n;
  tb_all : Forall P l
}.

Definition bytes (n : Z) : list Z -> Prop := table n (λ b, 0 <= b < 256).

Record proc_typed (x : proc) : Prop := {
  pt_ofile : table NOFILE (pointer NFILE) (p_ofile x);
  pt_cwd : pointer NINODE (p_cwd x);
  pt_parent : pointer NPROC (p_parent x);
  pt_name : bytes 16 (p_name x);
  pt_pid : sword 32 (p_pid x)
}.

Record file_typed (x : file) : Prop := {
  ft_ip : pointer NINODE (f_ip x);
  ft_off : word 32 (f_off x);
  ft_major : sword 16 (f_major x)
}.

Record inode_typed (x : inode) : Prop := {
  it_inum : word 32 (i_inum x);
  it_type : sword 16 (i_type x);
  it_major : sword 16 (i_major x);
  it_minor : sword 16 (i_minor x);
  it_nlink : sword 16 (i_nlink x);
  it_size : word 32 (i_size x);
  it_addrs : table 13 (word 32) (i_addrs x)
}.

Record buf_typed (x : buf) : Prop := {
  bt_blockno : word 32 (b_blockno x);
  bt_prev : index (NBUF + 1) (b_prev x);
  bt_next : index (NBUF + 1) (b_next x);
  bt_data : bytes BSIZE (b_data x)
}.

Record pipe_typed (x : pipe) : Prop := {
  pit_data : bytes 512 (pi_data x);
  pit_nread : word 32 (pi_nread x);
  pit_nwrite : word 32 (pi_nwrite x)
}.

Record cons_typed (x : consstate) : Prop := {
  ct_buf : bytes INPUT_BUF_SIZE (co_buf x);
  ct_r : word 32 (co_r x);
  ct_w : word 32 (co_w x);
  ct_e : word 32 (co_e x)
}.

Record uart_typed (x : uartstate) : Prop := {
  ut_bytes : bytes UART_TX_BUF_SIZE (ut_buf x);
  ut_wide : word 64 (ut_w x);
  ut_ride : word 64 (ut_r x)
}.

Record sb_typed (x : superblock) : Prop := {
  st_magic : word 32 (sb_magic x);
  st_size : word 32 (sb_size x);
  st_ninodes : word 32 (sb_ninodes x);
  st_nlog : word 32 (sb_nlog x);
  st_logstart : word 32 (sb_logstart x);
  st_inodestart : word 32 (sb_inodestart x);
  st_bmapstart : word 32 (sb_bmapstart x)
}.

Definition anything {A} (_ : A) : Prop := True.

Record vdisk_typed (x : diskstate) : Prop := {
  vt_desc : table NUM anything (dk_desc x);
  vt_avail : table NUM anything (va_ring (dk_avail x));
  vt_used : table NUM anything (vu_ring (dk_used x));
  vt_free : table NUM anything (dk_free x);
  vt_info : table NUM (λ i, pointer (NBUF + 1) (vi_b i)) (dk_info x);
  vt_ops : table NUM anything (dk_ops x);
  vt_used_idx : word 16 (dk_used_idx x);
  vt_avail_idx : word 16 (va_idx (dk_avail x))
}.

Record typed (s : kstate) : Prop := {
  ty_mem : mem_wf (k_mem s);
  ty_cpus : table NCPU (λ c, pointer NPROC (cp_proc c)) (k_cpus s);
  ty_procs : table NPROC proc_typed (k_procs s);
  ty_initproc : pointer NPROC (k_initproc s);
  ty_nextpid : sword 32 (k_nextpid s);
  ty_ticks : word 32 (k_ticks s);
  ty_bufs : table (NBUF + 1) buf_typed (k_bufs s);
  ty_log : table LOGSIZE anything (lh_block (k_log s));
  ty_sb : sb_typed (k_sb s);
  ty_inodes : table NINODE inode_typed (k_inodes s);
  ty_files : table NFILE file_typed (k_files s);
  ty_devsw : table NDEV anything (k_devsw s);
  ty_pipes : map_Forall (λ _, pipe_typed) (k_pipes s);
  ty_cons : cons_typed (k_cons s);
  ty_uart : uart_typed (k_uart s);
  ty_vdisk : vdisk_typed (k_vdisk s)
}.

(** ** Functions that keep the state well typed *)

(** Every state that [o] returns or stops in or gives up the processor in is
    well typed, if it is resumed in well-typed states; a result satisfies [Q]. *)
Fixpoint kept {A} (Q : A -> Prop) (o : out A) : Prop :=
  match o with
  | Ok a s => typed s ∧ Q a
  | Stop _ s => typed s
  | Yield _ s k => typed s ∧ ∀ s', typed s' -> kept Q (k s')
  end.

Record keeps {A} (Q : A -> Prop) (m : K A) : Prop := Keeps { keeps_run : ∀ s, typed s -> kept Q (m s) }.
Arguments Keeps {A Q m}.
Arguments keeps_run {A Q m}.

Lemma keeps_bind {A B} (P : A -> Prop) (Q : B -> Prop) (m : K A) (f : A -> K B) :
  keeps P m -> (∀ a, P a -> keeps Q (f a)) -> keeps Q (m ≫= f).
Proof.
  intros [Hm] Hf. split. intros s Ts. specialize (Hm s Ts). unfold kbind. induction (m s) as [a s1|e s1|w s1 k IH]; simpl in *.
  - destruct Hm. by apply Hf.
  - done.
  - destruct Hm as [T1 Hk]. split; [done|]. intros s' T'. by apply IH, Hk.
Qed.

Lemma keeps_mono {A} (P Q : A -> Prop) (m : K A) : keeps P m -> (∀ a, P a -> Q a) -> keeps Q m.
Proof.
  intros [Hm] Hi. split. intros s Ts. specialize (Hm s Ts). induction (m s) as [a s1|e s1|w s1 k IH]; simpl in *.
  - destruct Hm. by split; [|apply Hi].
  - done.
  - destruct Hm as [T1 Hk]. split; [done|]. intros s' T'. by apply IH, Hk.
Qed.

Lemma keeps_any {A} (Q : A -> Prop) (m : K A) : keeps Q m -> keeps anything m.
Proof. intros Hm. by eapply keeps_mono. Qed.

Lemma keeps_ret {A} (Q : A -> Prop) a : Q a -> keeps Q (ret a).
Proof. intros Ha. split. by intros s Ts. Qed.
Lemma keeps_gets {A} (f : kstate -> A) : keeps anything (gets f).
Proof. split. by intros s Ts. Qed.
Lemma keeps_gets_typed {A} (Q : A -> Prop) (f : kstate -> A) : (∀ s, typed s -> Q (f s)) -> keeps Q (gets f).
Proof. intros Hf. split. intros s Ts. split; [done|by apply Hf]. Qed.
Lemma keeps_modify f : (∀ s, typed s -> typed (f s)) -> keeps anything (modify f).
Proof. intros Hf. split. intros s Ts. split; [by apply Hf|done]. Qed.
Lemma keeps_halt {A} (Q : A -> Prop) e : keeps Q (halt e).
Proof. split. by intros s Ts. Qed.
Lemma keeps_yield w : keeps anything (yield_cpu w).
Proof. split. intros s Ts. split; [done|]. by intros s' T'. Qed.
Lemma keeps_deref {A} (o : option A) : keeps (λ a, o = Some a) (deref o).
Proof. split. by destruct o; intros s Ts. Qed.
Lemma keeps_if {A} (Q : A -> Prop) (b : bool) m1 m2 : keeps Q m1 -> keeps Q m2 -> keeps Q (if b then m1 else m2).
Proof. by destruct b. Qed.
Lemma keeps_when b m : keeps anything m -> keeps anything (when b m).
Proof. intros H. by destruct b; [|apply keeps_ret]. Qed.

Lemma keeps_loop {X R} (I : X -> Prop) (Q : R -> Prop) n (body : X -> K (X + R)) x :
  (∀ x, I x -> keeps (λ r, match r with inl x => I x | inr r => Q r end) (body x)) -> I x -> keeps Q (loop n body x).
Proof.
  intros Hb. revert x. induction n as [|n IH]; intros x Hx; [apply keeps_halt|].
  cbn [loop]. eapply keeps_bind; [by apply Hb|]. intros [y|r] Hr; [by apply IH|by apply keeps_ret].
Qed.

Lemma keeps_foreach {X R} (Q : R -> Prop) (l : list X) (body : X -> K (option R)) :
  (∀ x, x ∈ l -> keeps (λ r, match r with Some r => Q r | None => True end) (body x)) ->
  keeps (λ r, match r with Some r => Q r | None => True end) (foreach l body).
Proof.
  induction l as [|x l IH]; intros Hb; [by apply keeps_ret|]. cbn [foreach].
  eapply keeps_bind; [apply Hb; by left|]. intros [r|] Hr; [by apply keeps_ret|].
  apply IH. intros y Hy. apply Hb. by right.
Qed.

Lemma keeps_foreach_any {X R} (l : list X) (body : X -> K (option R)) :
  (∀ x, x ∈ l -> keeps anything (body x)) -> keeps anything (foreach l body).
Proof.
  intros Hb. eapply keeps_any, (keeps_foreach anything). intros x Hx. eapply keeps_mono; [by apply Hb|]. by intros [].
Qed.

Lemma keeps_for_all {X} (l : list X) (body : X -> K unit) :
  (∀ x, x ∈ l -> keeps anything (body x)) -> keeps anything (for_all l body).
Proof.
  induction l as [|x l IH]; intros Hb; [by apply keeps_ret|]. cbn [for_all].
  eapply keeps_bind; [apply Hb; by left|]. intros _ _. apply IH. intros y Hy. apply Hb. by right.
Qed.

(** ** Words, tables and byte arrays *)

Lemma word_u16 z : word 16 (u16 z).
Proof. apply Z.mod_pos_bound. lia. Qed.
Lemma word_u32 z : word 32 (u32 z).
Proof. apply u32_range. Qed.
Lemma word_u64 z : word 64 (u64 z).
Proof. apply u64_range. Qed.
Lemma byte_u8 z : 0 <= u8 z < 256.
Proof. apply u8_range. Qed.
Lemma sword_i32 z : sword 32 (i32 z).
Proof. apply i32_range. Qed.
Lemma sword_i16 z : sword 16 (i16 z).
Proof. unfold sword, i16, signed. change (2 ^ (16 - 1)) with 32768. change (2 ^ 16) with 65536. case_match; zb; zmod. Qed.

Lemma table_lookup {A} n (P : A -> Prop) l i x : table n P l -> l !! i = Some x -> P x ∧ index n i.
Proof.
  intros [Hl Ha] Hi. split; [by eapply Forall_lookup_1|]. apply lookup_lt_Some in Hi. unfold index. lia.
Qed.

Lemma table_upd {A} n (P : A -> Prop) l i f : table n P l -> (∀ x, P x -> P (f x)) -> table n P (upd i f l).
Proof.
  intros [Hl Ha] Hf. split; [by rewrite length_upd|]. apply Forall_lookup. intros j y. rewrite upd_lookup.
  case_decide as E; [|by apply Forall_lookup_1]. destruct (l !! j) as [x|] eqn:Hj; [|done].
  intros [= <-]. apply Hf. by eapply Forall_lookup_1.
Qed.

Lemma table_insert {A} n (P : A -> Prop) l i x : table n P l -> P x -> table n P (<[i := x]> l).
Proof. intros [Hl Ha] Hx. split; [by rewrite length_insert|by apply Forall_insert]. Qed.

Lemma table_aset n (P : Z -> Prop) l i x : table n P l -> P x -> table n P (aset l i x).
Proof. apply table_insert. Qed.

Lemma table_aget n (P : Z -> Prop) l i : P 0 -> table n P l -> P (aget l i).
Proof.
  intros H0 T. unfold aget. destruct (l !! Z.to_nat i) as [x|] eqn:E; [|done]. by destruct (table_lookup _ _ _ _ _ T E).
Qed.

Lemma table_replicate {A} n (P : A -> Prop) x : P x -> table n P (replicate (Z.to_nat n) x).
Proof. intros Hx. split; [apply length_replicate|by apply Forall_replicate]. Qed.

Lemma table_mono {A} n (P Q : A -> Prop) l : (∀ x, P x -> Q x) -> table n P l -> table n Q l.
Proof. intros Hi [Hl Ha]. split; [done|by eapply Forall_impl]. Qed.

Lemma bytes_splice n off b l :
  bytes n l -> bytes_ok b -> 0 <= off -> off + Z.of_nat (length b) <= n -> bytes n (splice off b l).
Proof.
  intros [Hl Ha] Hb H0 H1. split; [rewrite length_splice; [done|lia|lia]|]. unfold splice.
  apply Forall_app. split; [by apply Forall_take|]. apply Forall_app. split; [done|by apply Forall_drop].
Qed.

Lemma bytes_aset n l i x : bytes n l -> 0 <= x < 256 -> bytes n (aset l i x).
Proof. apply (table_aset n (λ b, 0 <= b < 256)). Qed.
Lemma bytes_lookup n l i x : l !! i = Some x -> bytes n l -> 0 <= x < 256.
Proof. intros Hi T. by destruct (table_lookup _ _ _ _ _ T Hi). Qed.
Lemma bytes_ok_bytes n l : bytes n l -> bytes_ok l.
Proof. apply tb_all. Qed.
Lemma bytes_ok_take n l : bytes_ok l -> bytes_ok (take n l).
Proof. apply Forall_take. Qed.
Lemma bytes_ok_drop n l : bytes_ok l -> bytes_ok (drop n l).
Proof. apply Forall_drop. Qed.
Lemma bytes_ok_app l l' : bytes_ok l -> bytes_ok l' -> bytes_ok (l ++ l').
Proof. apply Forall_app_2. Qed.
Lemma bytes_ok_le n v : bytes_ok (le_bytes n v).
Proof. apply le_bytes_range. Qed.
Lemma bytes_ok_nil : bytes_ok [].
Proof. constructor. Qed.
Lemma bytes_head l c : head l = Some c -> bytes_ok l -> 0 <= c < 256.
Proof. destruct l as [|x l]; [done|]. intros [= ->] Hl. by inversion Hl. Qed.
Lemma bytes_ok_nul : bytes_ok [0].
Proof. by repeat constructor. Qed.
Lemma bytes_ok_cons c l : 0 <= c < 256 -> bytes_ok l -> bytes_ok (c :: l).
Proof. by constructor. Qed.
Lemma bytes_ok_zeroes n : bytes_ok (replicate n 0).
Proof. by apply Forall_replicate. Qed.

Lemma le_val_word l : bytes_ok l -> 0 <= le_val l < 256 ^ Z.of_nat (length l).
Proof.
  induction 1 as [|b l Hb _ IH]; [done|]. cbn [le_val length].
  rewrite Nat2Z.inj_succ, Z.pow_succ_r by lia. lia.
Qed.

Lemma get32_word off l : bytes_ok l -> word 32 (get32 off l).
Proof.
  intros Hb. unfold get32, slice. set (b := take 4 _).
  assert (Hb' : bytes_ok b) by (by apply Forall_take, Forall_drop).
  assert (Hl : (length b <= 4)%nat) by (unfold b; rewrite length_take; lia).
  pose proof (le_val_word b Hb') as Hv. split; [lia|]. eapply Z.lt_le_trans; [apply Hv|].
  change (2 ^ 32) with (256 ^ 4). apply Z.pow_le_mono_r; lia.
Qed.

Create HintDb typed discriminated.
#[export] Hint Resolve word_u16 word_u32 word_u64 byte_u8 sword_i32 sword_i16 table_upd table_insert table_aset
  table_replicate bytes_ok_bytes bytes_ok_take bytes_ok_drop bytes_ok_app bytes_ok_le bytes_ok_zeroes
  bytes_head bytes_ok_nil bytes_ok_nul bytes_ok_cons bytes_aset bytes_lookup   get32_word : typed.
#[export] Hint Resolve pt_ofile pt_cwd pt_parent pt_name pt_pid ft_ip ft_off ft_major it_inum it_type it_major it_minor
  it_nlink it_size it_addrs bt_blockno bt_prev bt_next bt_data pit_data pit_nread pit_nwrite ct_buf ct_r ct_w ct_e
  ut_bytes : typed.
#[export] Hint Resolve keeps_gets | 20 : typed.
#[export] Hint Resolve keeps_halt keeps_yield keeps_deref keeps_when : typed.
#[export] Hint Extern 1 (anything _) => exact I : typed.
#[export] Hint Extern 1 (pointer _ _) => cbn; done : typed.
#[export] Hint Extern 2 (_ <= _ < _) => lia : typed.
#[export] Hint Extern 1 (word _ _) => unfold word; lia : typed.
#[export] Hint Extern 1 (sword _ _) => unfold sword; lia : typed.

(** What is left of a goal after the calls: facts about words, tables, bytes. *)
Ltac tclean := cbn beta in *; cbn [fst snd] in *; repeat match goal with
  | H : anything _ |- _ => clear H
  | H : _ ∧ _ |- _ => destruct H
  | H : ?o = Some _ |- _ => is_var o; subst o
  | H : pointer _ (Some _) |- _ => cbn [pointer] in H
  end.
Ltac tside := intros; tclean; simpl; split_and?; try done; eauto 8 with typed; try lia.

(** A new state that differs from a well-typed one in some fields. *)
Ltac tstate := let T := fresh "T" in intros ? T; destruct T; split; simpl; try done; tside.

(** The record invariants: each field by itself. *)
Ltac tfield := let T := fresh "T" in intros ? T; destruct T; split; simpl; try done; tside.

Ltac tnested P := match goal with T : P _ |- _ => destruct T; split; simpl; tside end.
#[export] Hint Extern 3 (uart_typed _) => tnested uart_typed : typed.
#[export] Hint Extern 3 (cons_typed _) => tnested cons_typed : typed.
#[export] Hint Extern 3 (vdisk_typed _) => tnested vdisk_typed : typed.

(** One step through a function: calls by the lemmas of the database. *)
Ltac tcall := solve [eauto 7 with typed nocore].
Ltac tstep :=
  lazymatch goal with
  | |- keeps _ (kbind _ _) =>
      first [eapply keeps_bind; [tcall|intros ? ?; tclean]
            |eapply (keeps_bind anything); [|intros ? _]]
  | |- keeps _ (ret _) => apply keeps_ret; tside
  | |- keeps _ (halt _) => apply keeps_halt
  | |- keeps _ (panic _) => apply keeps_halt
  | |- keeps _ fault => apply keeps_halt
  | |- keeps _ (when _ _) => apply keeps_when
  | |- keeps anything (foreach _ _) => apply keeps_foreach_any; intros ? ?
  | |- keeps _ (for_all _ _) => apply keeps_for_all; intros ? ?
  | |- keeps _ (modify _) => apply keeps_modify; tstate
  | |- keeps _ (if ?b then _ else _) => destruct b eqn:?
  | |- keeps _ (let '(_, _) := ?x in _) => destruct x eqn:?
  | |- keeps _ (match ?x with _ => _ end) => destruct x eqn:?
  | |- keeps anything _ => first [tcall|eapply keeps_any; tcall]
  | |- keeps _ _ => first [tcall|eapply keeps_mono; [tcall|solve [tside]]]
  end.
Ltac tgo := intros; repeat tstep.

(** ** The tables *)

Lemma keeps_entry {A} n (P : A -> Prop) (t : kstate -> list A) i :
  (∀ s, typed s -> table n P (t s)) -> keeps (λ x, P x ∧ index n i) (o ← gets (λ s, t s !! i); deref o).
Proof.
  intros Ht. eapply keeps_bind with (P := λ o, ∀ x, o = Some x -> P x ∧ index n i).
  - apply keeps_gets_typed. intros s T x Hx. by eapply table_lookup; [apply Ht|].
  - intros o Ho. eapply keeps_mono; [apply keeps_deref|]. exact Ho.
Qed.

Lemma keeps_getp p : keeps (λ x, proc_typed x ∧ index NPROC p) (getp p).
Proof. apply keeps_entry. apply ty_procs. Qed.
Lemma keeps_getf f : keeps (λ x, file_typed x ∧ index NFILE f) (getf f).
Proof. apply keeps_entry. apply ty_files. Qed.
Lemma keeps_geti i : keeps (λ x, inode_typed x ∧ index NINODE i) (geti i).
Proof. apply keeps_entry. apply ty_inodes. Qed.
Lemma keeps_getb b : keeps (λ x, buf_typed x ∧ index (NBUF + 1) b) (getb b).
Proof. apply keeps_entry. apply ty_bufs. Qed.
Lemma keeps_getcpu c : keeps (λ x, pointer NPROC (cp_proc x)) (getcpu c).
Proof. eapply keeps_mono; [apply (keeps_entry NCPU (λ c, pointer NPROC (cp_proc c)) k_cpus), ty_cpus|]. by intros x []. Qed.
Lemma keeps_getpipe a : keeps pipe_typed (getpipe a).
Proof.
  eapply keeps_bind with (P := λ o, ∀ x, o = Some x -> pipe_typed x).
  - apply keeps_gets_typed. intros s T x Hx. by apply (ty_pipes _ T a).
  - intros o Ho. eapply keeps_mono; [apply keeps_deref|]. exact Ho.
Qed.
Lemma keeps_gettf a : keeps anything (gettf a).
Proof. unfold gettf. tgo. Qed.
#[export] Hint Resolve keeps_getp keeps_getf keeps_geti keeps_getb keeps_getcpu keeps_getpipe keeps_gettf : typed.

Lemma keeps_updp p f : (∀ x, proc_typed x -> proc_typed (f x)) -> keeps (λ _, index NPROC p) (updp p f).
Proof.
  intros Hf. unfold updp. eapply keeps_bind; [apply keeps_getp|]. intros x [_ Hp].
  eapply keeps_mono; [apply keeps_modify; tstate|done].
Qed.
Lemma keeps_updf p f : (∀ x, file_typed x -> file_typed (f x)) -> keeps (λ _, index NFILE p) (updf p f).
Proof.
  intros Hf. unfold updf. eapply keeps_bind; [apply keeps_getf|]. intros x [_ Hp].
  eapply keeps_mono; [apply keeps_modify; tstate|done].
Qed.
Lemma keeps_updi p f : (∀ x, inode_typed x -> inode_typed (f x)) -> keeps (λ _, index NINODE p) (updi p f).
Proof.
  intros Hf. unfold updi. eapply keeps_bind; [apply keeps_geti|]. intros x [_ Hp].
  eapply keeps_mono; [apply keeps_modify; tstate|done].
Qed.
Lemma keeps_updb p f : (∀ x, buf_typed x -> buf_typed (f x)) -> keeps (λ _, index (NBUF + 1) p) (updb p f).
Proof.
  intros Hf. unfold updb. eapply keeps_bind; [apply keeps_getb|]. intros x [_ Hp].
  eapply keeps_mono; [apply keeps_modify; tstate|done].
Qed.
Lemma keeps_updcpu c f :
  (∀ x, pointer NPROC (cp_proc x) -> pointer NPROC (cp_proc (f x))) -> keeps anything (updcpu c f).
Proof. intros Hf. unfold updcpu. tgo. Qed.
Lemma keeps_updpipe a f : (∀ x, pipe_typed x -> pipe_typed (f x)) -> keeps anything (updpipe a f).
Proof. intros Hf. unfold updpipe. tgo. apply map_Forall_insert_2; auto. Qed.
Lemma keeps_updtf a f : keeps anything (updtf a f).
Proof. unfold updtf. tgo. Qed.
#[export] Hint Resolve keeps_updtf : typed.
#[export] Hint Extern 2 (keeps _ (updp _ _)) => apply keeps_updp; tfield : typed.
#[export] Hint Extern 2 (keeps _ (updf _ _)) => apply keeps_updf; tfield : typed.
#[export] Hint Extern 2 (keeps _ (updi _ _)) => apply keeps_updi; tfield : typed.
#[export] Hint Extern 2 (keeps _ (updb _ _)) => apply keeps_updb; tfield : typed.
#[export] Hint Extern 2 (keeps _ (updpipe _ _)) => apply keeps_updpipe; tfield : typed.
#[export] Hint Extern 2 (keeps _ (updcpu _ _)) => apply keeps_updcpu; tside : typed.
#[export] Hint Extern 2 (keeps _ (modify _)) => apply keeps_modify; tstate : typed.
#[export] Hint Extern 2 (keeps _ (ret _)) => apply keeps_ret; tside : typed.

(** The variables. *)
Lemma keeps_k_initproc : keeps (pointer NPROC) (gets k_initproc).
Proof. apply keeps_gets_typed, ty_initproc. Qed.
Lemma keeps_k_nextpid : keeps (sword 32) (gets k_nextpid).
Proof. apply keeps_gets_typed, ty_nextpid. Qed.
Lemma keeps_k_ticks : keeps (word 32) (gets k_ticks).
Proof. apply keeps_gets_typed, ty_ticks. Qed.
Lemma keeps_k_log : keeps (λ lg, table LOGSIZE anything (lh_block lg)) (gets k_log).
Proof. apply keeps_gets_typed, ty_log. Qed.
Lemma keeps_k_sb : keeps sb_typed (gets k_sb).
Proof. apply keeps_gets_typed, ty_sb. Qed.
Lemma keeps_k_cons : keeps cons_typed (gets k_cons).
Proof. apply keeps_gets_typed, ty_cons. Qed.
Lemma keeps_k_uart : keeps uart_typed (gets k_uart).
Proof. apply keeps_gets_typed, ty_uart. Qed.
Lemma keeps_k_vdisk : keeps vdisk_typed (gets k_vdisk).
Proof. apply keeps_gets_typed, ty_vdisk. Qed.
#[export] Hint Resolve keeps_k_initproc keeps_k_nextpid keeps_k_ticks keeps_k_log keeps_k_sb keeps_k_cons keeps_k_uart
  keeps_k_vdisk : typed.

(** ** Memory and devices *)

Lemma keeps_kload64 a : keeps (word 64) (kload64 a).
Proof. unfold kload64. tgo. apply keeps_gets_typed. intros s T. apply load64_range, T. Qed.
Lemma keeps_kstore64 a v : keeps anything (kstore64 a v).
Proof. unfold kstore64. tgo. by apply mem_wf_store64. Qed.
Lemma load_bytes_ok m a n : mem_wf m -> bytes_ok (load_bytes m a n).
Proof. intros Hm. apply Forall_fmap, Forall_forall. intros i _. apply Hm. Qed.
Lemma keeps_kload_bytes a n : keeps (λ l, bytes_ok l ∧ length l = n) (kload_bytes a n).
Proof.
  unfold kload_bytes. tgo. apply keeps_gets_typed. intros s T. split; [apply load_bytes_ok, T|].
  unfold load_bytes. by rewrite length_fmap, length_seq.
Qed.
Lemma keeps_kstore_bytes a l : keeps anything (kstore_bytes a l).
Proof. unfold kstore_bytes. tgo. by apply mem_wf_store_bytes. Qed.
Lemma keeps_kmemset a c n : keeps anything (kmemset a c n).
Proof. unfold kmemset. tgo. by apply mem_wf_memset. Qed.
Lemma keeps_mmio_read a : keeps anything (mmio_read a).
Proof. split. intros s T. unfold mmio_read. destruct (k_mmio_in s); [done|]. split; [|done]. revert s T. tstate. Qed.
Lemma keeps_mmio_write a v : keeps anything (mmio_write a v).
Proof. unfold mmio_write. tgo. Qed.
Lemma keeps_hart_get {A} (f : hart -> A) : keeps anything (hart_get f).
Proof. unfold hart_get. tgo. Qed.
Lemma keeps_hart_set f : keeps anything (hart_set f).
Proof. unfold hart_set. tgo. Qed.
#[export] Hint Resolve keeps_kload64 keeps_kstore64 keeps_kload_bytes keeps_kstore_bytes keeps_kmemset keeps_mmio_read
  keeps_mmio_write keeps_hart_get keeps_hart_set : typed.

(** ** Locks, pages and page tables *)

Lemma keeps_cpuid : keeps anything cpuid.
Proof. unfold cpuid, r_tp. tgo. Qed.
#[export] Hint Resolve keeps_cpuid : typed.
Lemma keeps_mycpu : keeps anything mycpu.
Proof. unfold mycpu. tgo. Qed.
Lemma keeps_intr_get : keeps anything intr_get.
Proof. unfold intr_get, r_sstatus. tgo. Qed.
Lemma keeps_intr_on : keeps anything intr_on.
Proof. unfold intr_on, r_sstatus, w_sstatus. tgo. Qed.
Lemma keeps_intr_off : keeps anything intr_off.
Proof. unfold intr_off, r_sstatus, w_sstatus. tgo. Qed.
Lemma keeps_getlock l : keeps anything (getlock l).
Proof. unfold getlock. tgo. Qed.
Lemma keeps_setlock l f : keeps anything (setlock l f).
Proof. unfold setlock. tgo. Qed.
#[export] Hint Resolve keeps_mycpu keeps_intr_get keeps_intr_on keeps_intr_off keeps_getlock keeps_setlock : typed.
Lemma keeps_initlock l n : keeps anything (initlock l n).
Proof. unfold initlock. tgo. Qed.
Lemma keeps_holding l : keeps anything (holding l).
Proof. unfold holding. tgo. Qed.
Lemma keeps_push_off : keeps anything push_off.
Proof. unfold push_off. tgo. Qed.
Lemma keeps_pop_off : keeps anything pop_off.
Proof. unfold pop_off. tgo. Qed.
Lemma keeps_spin n l : keeps anything (spin n l).
Proof. induction n as [|n IH]; cbn [spin]; tgo. Qed.
#[export] Hint Resolve keeps_initlock keeps_holding keeps_push_off keeps_pop_off keeps_spin : typed.

Section low.
Context `{Fuel} `{Symbols}.

Lemma keeps_acquire l : keeps anything (acquire l).
Proof. unfold acquire. tgo. Qed.
Lemma keeps_release l : keeps anything (release l).
Proof. unfold release. tgo. Qed.
Hint Resolve keeps_acquire keeps_release : typed.
Lemma keeps_kfree pa : keeps anything (kfree pa).
Proof. unfold kfree, drop_views. tgo. by apply map_Forall_delete. Qed.
Lemma keeps_kalloc : keeps anything kalloc.
Proof. unfold kalloc. tgo. Qed.
Hint Resolve keeps_kfree keeps_kalloc : typed.
Lemma keeps_kinit : keeps anything kinit.
Proof. unfold kinit, freerange. tgo. apply keeps_loop with (I := anything); [|done]. tgo. Qed.

Lemma keeps_walk_levels ls pt va a : keeps anything (walk_levels ls pt va a).
Proof. revert pt. induction ls as [|l ls IH]; intros pt; cbn [walk_levels]; tgo. Qed.
Hint Resolve keeps_walk_levels : typed.
Lemma keeps_walk pt va a : keeps anything (walk pt va a).
Proof. unfold walk. tgo. Qed.
Hint Resolve keeps_walk : typed.
Lemma keeps_walkaddr pt va : keeps anything (walkaddr pt va).
Proof. unfold walkaddr. tgo. Qed.
Lemma keeps_mappages pt va sz pa perm : keeps anything (mappages pt va sz pa perm).
Proof. unfold mappages. tgo. apply keeps_loop with (I := anything); [|done]. unfold mappages_body. tgo. Qed.
Lemma keeps_uvmunmap pt va n f : keeps anything (uvmunmap pt va n f).
Proof. unfold uvmunmap. tgo. apply keeps_loop with (I := anything); [|done]. unfold uvmunmap_body. tgo. Qed.
Hint Resolve keeps_walkaddr keeps_mappages keeps_uvmunmap : typed.
Lemma keeps_kvmmap pt va pa sz perm : keeps anything (kvmmap pt va pa sz perm).
Proof. unfold kvmmap. tgo. Qed.
Lemma keeps_uvmcreate : keeps anything uvmcreate.
Proof. unfold uvmcreate. tgo. Qed.
Lemma keeps_uvmfirst pt src : keeps anything (uvmfirst pt src).
Proof. unfold uvmfirst. tgo. Qed.
Lemma keeps_uvmdealloc pt o n : keeps anything (uvmdealloc pt o n).
Proof. unfold uvmdealloc. tgo. Qed.
Hint Resolve keeps_kvmmap keeps_uvmcreate keeps_uvmfirst keeps_uvmdealloc : typed.
Lemma keeps_uvmalloc pt o n x : keeps anything (uvmalloc pt o n x).
Proof. unfold uvmalloc, uvmalloc_loop. tgo. apply keeps_loop with (I := anything); [|done]. tgo. Qed.
Lemma keeps_freewalk_depth d pt : keeps anything (freewalk_depth d pt).
Proof. revert pt. induction d as [|d IH]; intros pt; cbn [freewalk_depth]; tgo. Qed.
Hint Resolve keeps_uvmalloc keeps_freewalk_depth : typed.
Lemma keeps_uvmfree pt sz : keeps anything (uvmfree pt sz).
Proof. unfold uvmfree, freewalk. tgo. Qed.
Lemma keeps_uvmcopy_err n o i pa fl : keeps anything (uvmcopy_err n o i pa fl).
Proof. induction n as [|n IH]; cbn [uvmcopy_err]; tgo. Qed.
Hint Resolve keeps_uvmfree keeps_uvmcopy_err : typed.
Lemma keeps_uvmcopy o n sz : keeps anything (uvmcopy o n sz).
Proof. unfold uvmcopy. apply keeps_loop with (I := anything); [|done]. tgo. Qed.
Lemma keeps_uvmclear pt va : keeps anything (uvmclear pt va).
Proof. unfold uvmclear. tgo. Qed.
Lemma keeps_copyout pt va src : keeps anything (copyout pt va src).
Proof. unfold copyout. apply keeps_loop with (I := anything); [|done]. unfold copyout_body. tgo. Qed.
Hint Resolve keeps_uvmcopy keeps_uvmclear keeps_copyout : typed.

(** copyin() stores at most as many bytes as it was asked for. *)
Lemma keeps_copyin pt va len :
  keeps (λ r, bytes_ok r.2 ∧ Z.of_nat (length r.2) <= Z.max 0 len) (copyin pt va len).
Proof.
  unfold copyin.
  apply keeps_loop with (I := λ '(_, l, dst), bytes_ok dst ∧ Z.of_nat (length dst) + Z.max 0 l <= Z.max 0 len);
    [|split; [constructor|simpl; lia]].
  intros [[a l] dst] [Hb Hl]. unfold copyin_body. tgo.
  pose proof (PGROUNDDOWN_eq a) as E. change PGSIZE with 4096 in *. rewrite length_app. zb. zmod.
Qed.

Lemma copy_until_nul_bytes b : bytes_ok b -> bytes_ok (copy_until_nul b).1.
Proof.
  induction 1 as [|c b Hc Hb IH]; simpl; [constructor|]. destruct (c =? 0); [by repeat constructor|].
  destruct (copy_until_nul b). by constructor.
Qed.

Lemma keeps_copyinstr pt va max : keeps (λ r, bytes_ok r.2) (copyinstr pt va max).
Proof.
  unfold copyinstr. apply keeps_loop with (I := λ '(_, _, dst, _), bytes_ok dst); [|constructor].
  intros [[[a l] dst] g] Hb. unfold copyinstr_body. tgo.
  match goal with Hc : bytes_ok ?b, E : copy_until_nul ?b = _ |- _ => pose proof (copy_until_nul_bytes b Hc) as Hd; rewrite E in Hd end.
  by apply bytes_ok_app.
Qed.
Hint Resolve keeps_copyin keeps_copyinstr : typed.

Lemma keeps_kvminit : keeps anything kvminit.
Proof. unfold kvminit, kvmmake, proc_mapstacks. tgo. Qed.
Lemma keeps_kvminithart : keeps anything kvminithart.
Proof. unfold kvminithart, w_satp. tgo. Qed.

(** ** Processes *)

Lemma keeps_myproc : keeps (pointer NPROC) myproc.
Proof. unfold myproc. tgo. Qed.
Hint Resolve keeps_myproc : typed.
Lemma keeps_curproc : keeps (index NPROC) curproc.
Proof. unfold curproc. tgo. Qed.
Hint Resolve keeps_curproc : typed.

Lemma index_seq n i : i ∈ seq 0 (Z.to_nat n) -> index n i.
Proof. intros Hi. apply elem_of_seq in Hi. unfold index. lia. Qed.
Lemma index_proc i : i ∈ proc_indices -> index NPROC i.
Proof. apply index_seq. Qed.
Hint Resolve index_proc : typed.

Lemma keeps_sched : keeps anything sched.
Proof. unfold sched. tgo. Qed.
Hint Resolve keeps_sched : typed.
Lemma keeps_yield_proc : keeps anything yield.
Proof. unfold yield. tgo. Qed.
Lemma keeps_sleep c l : keeps anything (sleep c l).
Proof. unfold sleep. tgo. Qed.
Lemma keeps_wakeup c : keeps anything (wakeup c).
Proof. unfold wakeup, wakeup_one. tgo. Qed.
Lemma keeps_procinit : keeps anything procinit.
Proof. unfold procinit. tgo. Qed.
Lemma keeps_allocpid : keeps (sword 32) allocpid.
Proof.
  unfold allocpid. tgo.
Qed.
Lemma keeps_kill pid : keeps anything (kill pid).
Proof. unfold kill, kill_one. tgo. Qed.
Lemma keeps_setkilled p : keeps anything (setkilled p).
Proof. unfold setkilled. tgo. Qed.
Lemma keeps_killed p : keeps anything (killed p).
Proof. unfold killed. tgo. Qed.
Hint Resolve keeps_yield_proc keeps_sleep keeps_wakeup keeps_allocpid keeps_kill keeps_setkilled keeps_killed : typed.
Lemma keeps_scheduler : keeps anything scheduler.
Proof.
  unfold scheduler. tgo. apply keeps_loop with (I := anything); [|done]. unfold scheduler_round, sched_one. tgo.
Qed.

(** Bytes that a source of a copy holds in the kernel are bytes. *)
Definition source_typed (src : source) : Prop := match src with S_local b => bytes_ok b | _ => True end.

Lemma source_local b : bytes_ok b -> source_typed (S_local b).
Proof. done. Qed.
Lemma source_user va : source_typed (S_user va).
Proof. done. Qed.
Lemma source_add_typed src n : source_typed src -> source_typed (source_add src n).
Proof. destruct src; simpl; [done|done|]. apply bytes_ok_drop. Qed.

Lemma keeps_either_copyout d b : bytes_ok b -> keeps (λ r, bytes_ok r.2) (either_copyout d b).
Proof. intros Hb. unfold either_copyout. tgo. Qed.
Lemma keeps_either_copyin src len :
  source_typed src -> keeps (λ r, bytes_ok r.2 ∧ Z.of_nat (length r.2) <= Z.max 0 len) (either_copyin src len).
Proof.
  intros Hs. unfold either_copyin. tgo. rewrite length_take. lia.
Qed.
Hint Resolve source_add_typed keeps_either_copyout keeps_either_copyin : typed.

(** ** The console *)

Lemma keeps_ReadReg r : keeps anything (ReadReg r).
Proof. unfold ReadReg. tgo. Qed.
Lemma keeps_WriteReg r v : keeps anything (WriteReg r v).
Proof. unfold WriteReg. tgo. Qed.
Hint Resolve keeps_ReadReg keeps_WriteReg : typed.
Lemma keeps_uartinit : keeps anything uartinit.
Proof. unfold uartinit. tgo. Qed.
Lemma keeps_uartstart : keeps anything uartstart.
Proof.
  unfold uartstart. tgo. apply keeps_loop with (I := anything); [|done]. unfold uartstart_body. tgo.
Qed.
Hint Resolve keeps_uartstart keeps_uartinit : typed.
Lemma keeps_uartputc c : keeps anything (uartputc c).
Proof.
  unfold uartputc, spin_forever. tgo. apply keeps_loop with (I := anything); [|done]. tgo.
Qed.
Lemma keeps_uartputc_sync c : keeps anything (uartputc_sync c).
Proof. unfold uartputc_sync, spin_forever. tgo. apply keeps_loop with (I := anything); [|done]. tgo. Qed.
Lemma keeps_uartgetc : keeps anything uartgetc.
Proof. unfold uartgetc. tgo. Qed.
Hint Resolve keeps_uartputc keeps_uartputc_sync keeps_uartgetc : typed.
Lemma keeps_consputc c : keeps anything (consputc c).
Proof. unfold consputc. tgo. Qed.
Hint Resolve keeps_consputc : typed.
Lemma keeps_printint x b sg : keeps anything (printint x b sg).
Proof. unfold printint. tgo. Qed.
Lemma keeps_printptr x : keeps anything (printptr x).
Proof. unfold printptr. tgo. Qed.
Hint Resolve keeps_printint keeps_printptr : typed.

(** The loop takes one or two characters of the format at a time. *)
Lemma keeps_printf_loop n fmt ap : (length fmt <= n)%nat -> keeps anything (printf_loop fmt ap).
Proof.
  revert fmt ap. induction n as [|n IH]; intros [|c fmt] ap Hn; simpl in Hn; try lia; [by apply keeps_ret..|].
  assert (Hk : ∀ fmt' ap, (length fmt' <= length fmt)%nat -> keeps anything (printf_loop fmt' ap)) by (intros; apply IH; lia).
  cbn [printf_loop]. destruct fmt as [|c' fmt]; tgo; try (apply Hk; simpl; lia).
Qed.
Lemma keeps_printf fmt ap : keeps anything (printf fmt ap).
Proof. unfold printf. tgo. by eapply keeps_printf_loop. Qed.
Lemma keeps_printfinit : keeps anything printfinit.
Proof. unfold printfinit. tgo. Qed.
Hint Resolve keeps_printf : typed.

Lemma keeps_getcons : keeps cons_typed getcons.
Proof. unfold getcons. tgo. Qed.
Lemma keeps_updcons f : (∀ x, cons_typed x -> cons_typed (f x)) -> keeps anything (updcons f).
Proof. intros Hf. unfold updcons. tgo. Qed.
Hint Resolve keeps_getcons : typed.
Hint Extern 2 (keeps _ (updcons _)) => apply keeps_updcons; tfield : typed.
Lemma keeps_consolewrite src n : source_typed src -> keeps anything (consolewrite src n).
Proof. intros Hs. unfold consolewrite. apply keeps_loop with (I := anything); [|done]. tgo. Qed.
Lemma keeps_cons_wait : keeps anything cons_wait.
Proof. unfold cons_wait. apply keeps_loop with (I := anything); [|done]. tgo. Qed.
Hint Resolve keeps_consolewrite keeps_cons_wait : typed.
Lemma keeps_consoleread_body target dst n got :
  bytes_ok got ->
  keeps (λ r, match r with inl (_, _, got) => bytes_ok got | inr (Some (_, got)) => bytes_ok got | inr None => True end)
    (consoleread_body target (dst, n, got)).
Proof.
  intros Hg. unfold consoleread_body. tgo.
Qed.
Hint Resolve keeps_consoleread_body : typed.
Lemma keeps_consoleread dst n : keeps (λ r, bytes_ok r.2) (consoleread dst n).
Proof.
  unfold consoleread. tstep. eapply keeps_bind.
  - apply keeps_loop with (I := λ '(_, _, got), bytes_ok got); [|constructor].
    intros [[d m] got] Hg. eapply keeps_mono; [by apply keeps_consoleread_body|].
    intros [[[] ?]|r] Hr; [done|]. exact Hr.
  - intros r Hr. tgo.
Qed.
Lemma keeps_procdump : keeps anything procdump.
Proof. unfold procdump. tgo. Qed.
Lemma keeps_cons_kill_line : keeps anything cons_kill_line.
Proof. unfold cons_kill_line. tgo. apply keeps_loop with (I := anything); [|done]. unfold cons_kill_body. tgo. Qed.
Lemma keeps_cons_backspace : keeps anything cons_backspace.
Proof. unfold cons_backspace. tgo. Qed.
Lemma keeps_cons_insert c : keeps anything (cons_insert c).
Proof. unfold cons_insert. tgo. Qed.
Hint Resolve keeps_consoleread keeps_procdump keeps_cons_kill_line keeps_cons_backspace keeps_cons_insert : typed.
Lemma keeps_consoleintr c : keeps anything (consoleintr c).
Proof. unfold consoleintr. tgo. Qed.
Lemma keeps_consoleinit : keeps anything consoleinit.
Proof. unfold consoleinit. tgo. Qed.
Hint Resolve keeps_consoleintr : typed.
Lemma keeps_uartintr : keeps anything uartintr.
Proof. unfold uartintr. tgo. apply keeps_loop with (I := anything); [|done]. tgo. Qed.

(** ** Sleep locks, the disk driver *)

Lemma keeps_getslock l : keeps anything (getslock l).
Proof. unfold getslock. tgo. Qed.
Lemma keeps_updslock l f : keeps anything (updslock l f).
Proof. unfold updslock. tgo. Qed.
Hint Resolve keeps_getslock keeps_updslock : typed.
Lemma keeps_initsleeplock l n : keeps anything (initsleeplock l n).
Proof. unfold initsleeplock. tgo. Qed.
Lemma keeps_mypid : keeps anything mypid.
Proof. unfold mypid. tgo. Qed.
Hint Resolve keeps_initsleeplock keeps_mypid : typed.
Lemma keeps_acquiresleep l : keeps anything (acquiresleep l).
Proof. unfold acquiresleep. tgo. apply keeps_loop with (I := anything); [|done]. tgo. Qed.
Lemma keeps_releasesleep l : keeps anything (releasesleep l).
Proof. unfold releasesleep. tgo. Qed.
Lemma keeps_holdingsleep l : keeps anything (holdingsleep l).
Proof. unfold holdingsleep. tgo. Qed.
Hint Resolve keeps_acquiresleep keeps_releasesleep keeps_holdingsleep : typed.

Lemma keeps_plicinit : keeps anything plicinit.
Proof. unfold plicinit. tgo. Qed.
Lemma keeps_plicinithart : keeps anything plicinithart.
Proof. unfold plicinithart. tgo. Qed.
Lemma keeps_plic_claim : keeps anything plic_claim.
Proof. unfold plic_claim. tgo. Qed.
Lemma keeps_plic_complete irq : keeps anything (plic_complete irq).
Proof. unfold plic_complete. tgo. Qed.

Lemma keeps_getvd : keeps vdisk_typed getvd.
Proof. unfold getvd. tgo. Qed.
Lemma keeps_updvd f : (∀ x, vdisk_typed x -> vdisk_typed (f x)) -> keeps anything (updvd f).
Proof. intros Hf. unfold updvd. tgo. Qed.
Hint Resolve keeps_getvd : typed.
Hint Extern 2 (keeps _ (updvd _)) => apply keeps_updvd; tfield : typed.
Lemma keeps_readR r : keeps anything (readR r).
Proof. unfold readR. tgo. Qed.
Lemma keeps_writeR r v : keeps anything (writeR r v).
Proof. unfold writeR. tgo. Qed.
Hint Resolve keeps_readR keeps_writeR : typed.
Lemma keeps_virtio_probe : keeps anything virtio_probe.
Proof. unfold virtio_probe. tgo. Qed.
Hint Resolve keeps_virtio_probe : typed.
Lemma keeps_virtio_disk_init : keeps anything virtio_disk_init.
Proof.
  unfold virtio_disk_init. tgo. apply keeps_updvd. intros x []. split; cbn; try done; by apply (table_replicate NUM).
Qed.
Lemma keeps_alloc_desc : keeps anything alloc_desc.
Proof. unfold alloc_desc. tgo. Qed.
Lemma keeps_free_desc i : keeps anything (free_desc i).
Proof. unfold free_desc. tgo. Qed.
Hint Resolve keeps_alloc_desc keeps_free_desc : typed.
Lemma keeps_free_chain i : keeps anything (free_chain i).
Proof. unfold free_chain. apply keeps_loop with (I := anything); [|done]. unfold free_chain_body. tgo. Qed.
Lemma keeps_alloc3_desc : keeps anything alloc3_desc.
Proof. unfold alloc3_desc. tgo. Qed.
Hint Resolve keeps_free_chain keeps_alloc3_desc : typed.

Context `{DiskLayout}.

Lemma keeps_virtio_disk_rw b w : keeps anything (virtio_disk_rw b w).
Proof.
  unfold virtio_disk_rw. tstep. tstep. eapply (keeps_bind anything).
  { apply keeps_loop with (I := anything); [|done]. unfold rw_alloc_body. tgo. }
  intros [[i0 i1] i2] _. tgo.
  apply keeps_loop with (I := anything); [|done]. unfold rw_wait_body. tgo.
Qed.
Lemma keeps_virtio_disk_intr : keeps anything virtio_disk_intr.
Proof.
  unfold virtio_disk_intr. tgo. apply keeps_loop with (I := anything); [|done]. unfold intr_body. tgo.
Qed.
End low.
#[export] Hint Resolve keeps_acquire keeps_release keeps_kfree keeps_kalloc keeps_walk keeps_walkaddr keeps_mappages
  keeps_uvmunmap keeps_uvmcreate keeps_uvmfirst keeps_uvmdealloc keeps_uvmalloc keeps_uvmfree keeps_uvmcopy keeps_uvmclear
  keeps_copyout keeps_copyin keeps_copyinstr keeps_myproc keeps_curproc index_proc keeps_sched keeps_yield_proc keeps_sleep
  keeps_wakeup keeps_allocpid keeps_kill keeps_setkilled keeps_killed source_local source_user source_add_typed keeps_either_copyout
  keeps_either_copyin keeps_consolewrite keeps_consoleread keeps_printf keeps_initsleeplock keeps_acquiresleep
  keeps_releasesleep keeps_holdingsleep : typed.

(** ** The buffer cache and the log *)

(** What the cache asks of a disk driver here; virtio_disk_rw() gives it. *)
Class TypedDriver `{DiskDriver} : Prop := keeps_disk_rw : ∀ b w, keeps anything (disk_rw b w).

#[global] Instance virtio_typed `{Fuel} `{Symbols} `{DiskLayout} : TypedDriver (H := virtio_disk_rw).
Proof. intros b w. apply keeps_virtio_disk_rw. Qed.

Section cache.
Context `{Fuel} `{Symbols} `{DiskDriver} `{!TypedDriver}.
Hint Resolve keeps_disk_rw : typed.

Lemma index_head : index (NBUF + 1) bcache_head.
Proof. done. Qed.
Hint Resolve index_head : typed.
Lemma keeps_set_next b n : index (NBUF + 1) n -> keeps anything (set_next b n).
Proof. intros Hn. unfold set_next. tgo. Qed.
Lemma keeps_set_prev b n : index (NBUF + 1) n -> keeps anything (set_prev b n).
Proof. intros Hn. unfold set_prev. tgo. Qed.
Hint Resolve keeps_set_next keeps_set_prev : typed.
Lemma keeps_push_front b : index (NBUF + 1) b -> keeps anything (push_front b).
Proof. intros Hb. unfold push_front. tgo. Qed.
Hint Resolve keeps_push_front : typed.
Lemma index_buf i : i ∈ seq 0 bcache_head -> index (NBUF + 1) i.
Proof. intros Hi%elem_of_seq. unfold index. change bcache_head with 30%nat in *. change (NBUF + 1) with 31. lia. Qed.
Hint Resolve index_buf : typed.
Lemma keeps_binit : keeps anything binit.
Proof. unfold binit. tgo. Qed.
Lemma keeps_bget_cached dev n : keeps (pointer (NBUF + 1)) (bget_cached dev n).
Proof.
  unfold bget_cached. tstep. apply keeps_loop with (I := index (NBUF + 1)); [|tside]. tgo.
Qed.
Lemma keeps_bget_unused : keeps (pointer (NBUF + 1)) bget_unused.
Proof.
  unfold bget_unused. tstep. apply keeps_loop with (I := index (NBUF + 1)); [|tside]. tgo.
Qed.
Hint Resolve keeps_bget_cached : typed.
Hint Extern 0 (keeps _ bget_unused) => exact keeps_bget_unused : typed.
Lemma keeps_bget dev n : word 32 n -> keeps (index (NBUF + 1)) (bget dev n).
Proof. intros Hn. unfold bget. tgo. Qed.
Hint Resolve keeps_bget : typed.
Lemma keeps_bread dev n : word 32 n -> keeps (index (NBUF + 1)) (bread dev n).
Proof. intros Hn. unfold bread. tgo. Qed.
Lemma keeps_bwrite b : keeps anything (bwrite b).
Proof. unfold bwrite. tgo. Qed.
Lemma keeps_brelse b : keeps anything (brelse b).
Proof. unfold brelse. tgo. Qed.
Lemma keeps_bpin b : keeps anything (bpin b).
Proof. unfold bpin. tgo. Qed.
Lemma keeps_bunpin b : keeps anything (bunpin b).
Proof. unfold bunpin. tgo. Qed.
Lemma keeps_bdata b : keeps (bytes BSIZE) (bdata b).
Proof. unfold bdata. tgo. Qed.
Lemma keeps_set_bdata b f : (∀ l, bytes BSIZE l -> bytes BSIZE (f l)) -> keeps anything (set_bdata b f).
Proof. intros Hf. unfold set_bdata. tgo. Qed.
Hint Resolve keeps_bread keeps_bwrite keeps_brelse keeps_bpin keeps_bunpin keeps_bdata : typed.
Hint Extern 2 (keeps _ (set_bdata _ _)) => apply keeps_set_bdata; tside : typed.

Lemma keeps_getlog : keeps (λ lg, table LOGSIZE anything (lh_block lg)) getlog.
Proof. unfold getlog. tgo. Qed.
Lemma keeps_updlog f :
  (∀ x, table LOGSIZE anything (lh_block x) -> table LOGSIZE anything (lh_block (f x))) -> keeps anything (updlog f).
Proof. intros Hf. unfold updlog. tgo. Qed.
Hint Resolve keeps_getlog : typed.
Hint Extern 2 (keeps _ (updlog _)) => apply keeps_updlog; tside : typed.
Lemma keeps_get_block i : keeps anything (get_block i).
Proof. unfold get_block. tgo. Qed.
Hint Resolve keeps_get_block : typed.
Lemma keeps_set_block i v : keeps anything (set_block i v).
Proof. unfold set_block. tgo. Qed.
Hint Resolve keeps_set_block : typed.
Lemma keeps_install_trans r : keeps anything (install_trans r).
Proof. unfold install_trans, install_one. tgo. Qed.
Lemma keeps_read_head : keeps anything read_head.
Proof. unfold read_head. tgo. Qed.

Lemma set32_bytes n off v l : bytes n l -> 0 <= off -> off + 4 <= n -> bytes n (set32 off v l).
Proof. intros. apply bytes_splice; [done|apply bytes_ok_le|done|by rewrite length_le_bytes]. Qed.

(** The log header fits its block as long as it has LOGSIZE entries. *)
Lemma head_block_bytes n block d : n <= LOGSIZE -> bytes BSIZE d -> bytes BSIZE (head_block n block d).
Proof.
  intros Hn Hd. unfold head_block. change LOGSIZE with 30 in Hn.
  assert (Hl : ∀ l d, Forall (λ i, 0 <= i < 30) l -> bytes BSIZE d ->
    bytes BSIZE (foldl (λ d i, set32 (4 + 4 * i) (aget block i) d) d l)).
  { clear. induction l as [|i l IH]; intros d Hl Hd; [done|]. apply Forall_cons in Hl as [Hi Hl]. cbn [foldl].
    apply IH; [done|]. apply set32_bytes; [done|lia|]. change BSIZE with 1024. lia. }
  apply Hl; [|apply set32_bytes; [done|lia|done]]. apply Forall_forall. intros i Hi%elem_of_zrange. lia.
Qed.

Lemma keeps_write_head : keeps anything write_head.
Proof.
  unfold write_head. tgo. apply keeps_set_bdata. intros l Hl. apply head_block_bytes; [|done].
  zb. match goal with T : table LOGSIZE anything (lh_block ?lg), B : _ <= Z.of_nat (length (lh_block ?lg)) |- _ =>
    rewrite (tb_length _ _ _ T) in B; exact B end.
Qed.
Hint Resolve keeps_install_trans keeps_read_head keeps_write_head : typed.
Lemma keeps_recover_from_log : keeps anything recover_from_log.
Proof. unfold recover_from_log. tgo. Qed.
Hint Resolve keeps_recover_from_log : typed.
Lemma keeps_initlog dev sb : keeps anything (initlog dev sb).
Proof. unfold initlog. tgo. Qed.
Lemma keeps_begin_op : keeps anything begin_op.
Proof. unfold begin_op. tgo. apply keeps_loop with (I := anything); [|done]. tgo. Qed.
Lemma keeps_write_log : keeps anything write_log.
Proof. unfold write_log, write_log_one. tgo. Qed.
Hint Resolve keeps_write_log : typed.
Lemma keeps_commit : keeps anything commit.
Proof. unfold commit. tgo. Qed.
Hint Resolve keeps_commit : typed.
Lemma keeps_end_op : keeps anything end_op.
Proof. unfold end_op. tgo. Qed.
Lemma keeps_log_write b : keeps anything (log_write b).
Proof. unfold log_write. tgo. Qed.
End cache.
#[export] Hint Resolve keeps_bread keeps_bwrite keeps_brelse keeps_bdata keeps_initlog keeps_begin_op keeps_end_op
  keeps_log_write : typed.
#[export] Hint Extern 2 (keeps _ (set_bdata _ _)) => apply keeps_set_bdata; tside : typed.
