(* ===== verification/TypedFs.v ===== *)
(** * Files keep their types

    The file system, pipes, open files, the life cycle of processes, exec() and
    the system calls keep the kernel's state well typed (Typed.v).  On the way:
    no write to a file, an inode or a bitmap goes past the end of its block, and
    every block number, inode number and pointer the functions hand on is one. *)

From Stdlib Require Import ZArith Lia.
From stdpp Require Import base numbers list gmap strings.
From S2P Require Import Prelude Machine Kernel Strings Riscv Spinlock Kalloc Vm Proc Uart Printf Console.
From S2P Require Import Sleeplock Virtio Bio Log Fs FsSpec Pipe File Procs Exec SysArgs Sysfile Sysproc Syscall Typed.

Lemma sb_typed_get d : bytes_ok d -> sb_typed (get_sb d).
Proof. intros Hd. split; by apply get32_word. Qed.

Lemma bytes_zeroes n : bytes n (replicate (Z.to_nat n) 0).
Proof. by apply table_replicate. Qed.

(** One bit of a byte set or cleared. *)
Lemma byte_of_bits z : 0 <= z -> (∀ i, 8 <= i -> Z.testbit z i = false) -> 0 <= z < 256.
Proof.
  intros H0 Hb. split; [done|]. change 256 with (2 ^ 8). destruct (Z.eq_dec z 0) as [->|Hz]; [done|].
  apply Z.log2_lt_pow2; [lia|]. destruct (Z.lt_ge_cases (Z.log2 z) 8) as [|Hl]; [done|].
  specialize (Hb _ Hl). rewrite Z.bit_log2 in Hb by lia. done.
Qed.

Lemma byte_high z i : 0 <= z < 256 -> 8 <= i -> Z.testbit z i = false.
Proof.
  intros Hz Hi. apply Z.bits_above_log2; [lia|]. destruct (Z.eq_dec z 0) as [->|]; [simpl; lia|].
  assert (Z.log2 z < 8); [|lia]. apply Z.log2_lt_pow2; [lia|]. change (2 ^ 8) with 256. lia.
Qed.

Lemma set_bit_bytes n bi d : bytes n d -> bytes n (set_bit bi d).
Proof.
  intros Hd. unfold set_bit. apply bytes_aset; [done|].
  assert (Hb : 0 <= aget d (bi / 8) < 256) by (by apply (table_aget n (λ b, 0 <= b < 256))).
  pose proof (Z.mod_pos_bound bi 8 ltac:(lia)) as Hm. apply byte_of_bits.
  - apply Z.lor_nonneg. split; [lia|]. apply Z.shiftl_nonneg. lia.
  - intros i Hi. rewrite Z.lor_spec, Z.shiftl_spec, byte_high by lia. simpl.
    apply Z.bits_above_log2; simpl; lia.
Qed.

Lemma clr_bit_bytes n bi d : bytes n d -> bytes n (clr_bit bi d).
Proof.
  intros Hd. unfold clr_bit. apply bytes_aset; [done|].
  assert (Hb : 0 <= aget d (bi / 8) < 256) by (by apply (table_aget n (λ b, 0 <= b < 256))).
  apply byte_of_bits.
  - apply Z.land_nonneg. left. lia.
  - intros i Hi. by rewrite Z.land_spec, byte_high by lia.
Qed.

Lemma put_dinode_bytes k x d : bytes BSIZE d -> 0 <= k < 16 -> length (d_addrs x) = 13%nat -> bytes BSIZE (put_dinode k x d).
Proof.
  intros Hd Hk Hx. unfold put_dinode. apply bytes_splice; [done| |lia|].
  - unfold dinode_bytes. repeat apply bytes_ok_app; try apply bytes_ok_le.
    clear. induction (d_addrs x) as [|a l IH]; [constructor|]. apply (bytes_ok_app (le_bytes 4 a)); [apply bytes_ok_le|exact IH].
  - rewrite length_dinode_bytes by done. change BSIZE with 1024. lia.
Qed.

Lemma mod16 z : 0 <= z mod IPB < 16.
Proof. apply Z.mod_pos_bound. done. Qed.

(** The inode that ilock() finds on the disk has the types of its fields. *)
Lemma get_dinode_typed k d :
  bytes_ok d -> let x := get_dinode k d in
  sword 16 (d_type x) ∧ sword 16 (d_major x) ∧ sword 16 (d_minor x) ∧ sword 16 (d_nlink x) ∧ word 32 (d_size x)
  ∧ table 13 (word 32) (d_addrs x).
Proof.
  intros Hd. unfold get_dinode. cbn [d_type d_major d_minor d_nlink d_size d_addrs]. split_and!; try apply sword_i16.
  - by apply get32_word.
  - split; [by rewrite length_fmap|]. apply Forall_fmap, Forall_forall. intros i _. by apply get32_word.
Qed.

Lemma first_free_range d n bi : first_free d n = Some bi -> 0 <= bi < Z.of_nat n.
Proof.
  unfold first_free. intros Hf. pose proof (find_zrange (λ bi, negb (bit_of d bi)) n 0) as F. rewrite Hf in F. lia.
Qed.

#[export] Hint Resolve sb_typed_get bytes_zeroes set_bit_bytes clr_bit_bytes : typed.

Section fs.
Context `{Fuel} `{Symbols} `{DiskDriver} `{!TypedDriver}.

(** ** Blocks *)

Lemma keeps_readsb dev : keeps sb_typed (readsb dev).
Proof. unfold readsb. tgo. Qed.
Hint Resolve keeps_readsb : typed.
Lemma keeps_fsinit dev : keeps anything (fsinit dev).
Proof. unfold fsinit. tgo. Qed.
Lemma keeps_bzero dev b : keeps anything (bzero dev b).
Proof. unfold bzero. tgo. Qed.
Hint Resolve keeps_bzero : typed.
Lemma word_BBLOCK b sb : word 32 (BBLOCK b sb).
Proof. apply word_u32. Qed.
Lemma word_IBLOCK b sb : word 32 (IBLOCK b sb).
Proof. apply word_u32. Qed.
Hint Resolve word_BBLOCK word_IBLOCK : typed.
Lemma keeps_balloc_block dev sb b :
  sb_typed sb -> 0 <= b -> keeps (λ r, match r with Some b => word 32 b | None => True end) (balloc_block dev sb b).
Proof.
  intros Hs Hb. unfold balloc_block. tgo.
  match goal with F : first_free _ _ = Some _ |- _ => apply first_free_range in F end.
  pose proof (st_size _ Hs) as Hsz. unfold word in *. lia.
Qed.
Lemma keeps_balloc dev : keeps (word 32) (balloc dev).
Proof.
  unfold balloc. tstep. eapply keeps_bind.
  - apply (keeps_foreach (word 32)). intros b (i & -> & Hi%elem_of_zrange)%list_elem_of_fmap.
    apply keeps_balloc_block; [done|]. change BPB with 8192. lia.
  - intros [b|] Hb; tgo.
Qed.
Lemma keeps_bfree dev b : keeps anything (bfree dev b).
Proof. unfold bfree. tgo. Qed.
Hint Resolve keeps_balloc keeps_bfree : typed.

(** ** Inodes *)

Lemma keeps_iinit : keeps anything iinit.
Proof. unfold iinit. tgo. Qed.
Lemma keeps_iget dev inum : word 32 inum -> keeps (index NINODE) (iget dev inum).
Proof. intros Hi. unfold iget. tgo. Qed.
Hint Resolve keeps_iget : typed.
Hint Resolve put_dinode_bytes mod16 : typed.
Lemma keeps_ialloc dev type : keeps (pointer NINODE) (ialloc dev type).
Proof.
  unfold ialloc. tstep. eapply keeps_bind.
  - apply (keeps_foreach (index NINODE)). intros inum Hi%elem_of_zrange. unfold ialloc_one.
    assert (word 32 inum).
    { match goal with S : sb_typed ?sb |- _ => pose proof (st_ninodes _ S) end. unfold word in *. lia. }
    tgo.
  - intros [i|] Hi; tgo.
Qed.
Lemma inode_addrs x : inode_typed x -> length (i_addrs x) = 13%nat.
Proof. intros T. by rewrite (tb_length _ _ _ (it_addrs _ T)). Qed.
Hint Resolve inode_addrs : typed.
Lemma keeps_iupdate ip : keeps anything (iupdate ip).
Proof. unfold iupdate. tgo. Qed.
Lemma keeps_idup ip : keeps (index NINODE) (idup ip).
Proof. unfold idup. tgo. Qed.
Hint Resolve keeps_ialloc keeps_iupdate keeps_idup : typed.
Lemma keeps_ilock ip : keeps anything (ilock ip).
Proof.
  unfold ilock. tgo. eapply keeps_any, keeps_updi. intros x []. 
  match goal with B : bytes _ ?d |- context [get_dinode ?k ?d] =>
    destruct (get_dinode_typed k d (bytes_ok_bytes _ _ B)) as (? & ? & ? & ? & ? & ?) end.
  by split.
Qed.
Lemma keeps_iunlock ip : keeps anything (iunlock ip).
Proof. unfold iunlock. tgo. Qed.
Hint Resolve keeps_ilock keeps_iunlock : typed.

(** ** The contents of inodes *)

Lemma word_addr x bn : inode_typed x -> word 32 (aget (i_addrs x) bn).
Proof. intros T. apply (table_aget 13); [done|apply T]. Qed.
Lemma word_get_addr i d : bytes_ok d -> word 32 (get_addr i d).
Proof. apply get32_word. Qed.
Hint Resolve word_addr word_get_addr : typed.

Lemma set_addr_bytes bn v l : 0 <= bn < 256 -> bytes BSIZE l -> bytes BSIZE (set_addr bn v l).
Proof. intros Hb Hl. apply set32_bytes; [done|lia|]. change BSIZE with 1024. lia. Qed.
Hint Resolve set_addr_bytes : typed.

Lemma keeps_bmap_entry dev ind bn : word 32 ind -> 0 <= bn < 256 -> keeps (word 32) (bmap_entry dev ind bn).
Proof.
  intros Hi Hb. unfold bmap_entry. tstep. tstep. eapply (keeps_bind (word 32)); tgo.
Qed.
Hint Resolve keeps_bmap_entry : typed.
Lemma keeps_bmap ip bn : keeps (word 32) (bmap ip bn).
Proof.
  unfold bmap. tstep. tstep; [tgo|]. tstep; [|tgo]. eapply (keeps_bind (word 32)); [tgo|]. intros ind Hi. tgo.
  apply keeps_bmap_entry; [done|]. zb. change NINDIRECT with 256 in *. lia.
Qed.
Hint Resolve keeps_bmap : typed.
Lemma keeps_itrunc ip : keeps anything (itrunc ip).
Proof. unfold itrunc. tgo. Qed.
Hint Resolve keeps_itrunc : typed.
Lemma keeps_iput ip : keeps anything (iput ip).
Proof. unfold iput. tgo. Qed.
Hint Resolve keeps_iput : typed.
Lemma keeps_iunlockput ip : keeps anything (iunlockput ip).
Proof. unfold iunlockput. tgo. Qed.
Lemma keeps_stati ip pad : keeps anything (stati ip pad).
Proof. unfold stati. tgo. Qed.
Hint Resolve keeps_iunlockput keeps_stati : typed.

Lemma bytes_ok_slice_of off n l : bytes_ok l -> bytes_ok (slice off n l).
Proof. intros Hl. unfold slice. tside. Qed.
Hint Resolve bytes_ok_slice_of : typed.

Lemma keeps_readi ip dst off n : keeps (λ r, bytes_ok r.2) (readi ip dst off n).
Proof.
  unfold readi. tstep. tstep; [tgo|]. eapply (keeps_bind (λ r, bytes_ok r.2)).
  - apply keeps_loop with (I := λ '(_, _, _, got), bytes_ok got); [|constructor].
    intros [[[tot o] d] got] Hg. unfold readi_body. tgo.
  - intros [tot got] Hg. tgo.
Qed.

Lemma splice_block off m b l :
  bytes_ok b -> Z.of_nat (length b) <= Z.max 0 m -> m <= BSIZE - off mod BSIZE -> bytes BSIZE l ->
  bytes BSIZE (splice (off mod BSIZE) b l).
Proof.
  intros Hb Hm Hle Hl. pose proof (Z.mod_pos_bound off BSIZE ltac:(done)). apply bytes_splice; [done|done|lia|lia].
Qed.

Lemma word_nonneg z : word 32 z -> 0 <= z.
Proof. by intros []. Qed.
Hint Resolve word_nonneg : typed.

(** No write to a file goes past the end of a block. *)
Lemma keeps_writei_body ip n tot off src :
  word 32 off -> source_typed src ->
  keeps (λ r, match r with inl (_, off, src) => word 32 off ∧ source_typed src | inr (_, off) => word 32 off end)
    (writei_body ip n (tot, off, src)).
Proof.
  intros Ho Hs. unfold writei_body. tgo.
  apply keeps_set_bdata. intros d Hd. eapply splice_block; [done|done|lia|done].
Qed.
Lemma keeps_writei ip src off n : 0 <= off -> source_typed src -> keeps anything (writei ip src off n).
Proof.
  intros Hoff Hs. unfold writei. tstep. tstep; [tgo|]. tstep; [tgo|].
  assert (Ho : word 32 off).
  { match goal with T : inode_typed _ |- _ => pose proof (it_size _ T) end. unfold word in *.
    match goal with E : _ || _ = false |- _ => apply orb_false_iff in E as [E _] end. zb. lia. }
  eapply (keeps_bind (λ r, word 32 r.2)).
  - apply keeps_loop with (I := λ '(_, off, src), word 32 off ∧ source_typed src); [|done].
    intros [[t o] s] [Ho' Hs']. eapply keeps_mono; [by apply keeps_writei_body|]. intros [[[]]|[]] Hr; exact Hr.
  - intros [tot o] Hr. tgo.
Qed.
Hint Resolve keeps_readi keeps_writei : typed.

(** ** Directories *)

Lemma de_inum_word de : bytes_ok de -> word 32 (de_inum de).
Proof.
  intros Hb. unfold de_inum, get16, slice. set (b := take 2 _).
  assert (Hb' : bytes_ok b) by (by apply bytes_ok_take, bytes_ok_drop).
  pose proof (le_val_word b Hb') as Hv. split; [lia|]. eapply Z.lt_le_trans; [apply Hv|].
  apply Z.le_trans with (256 ^ 2); [|done]. apply Z.pow_le_mono_r; [lia|]. unfold b. rewrite length_take. lia.
Qed.
Hint Resolve de_inum_word : typed.
Lemma keeps_namecmp s t : keeps anything (namecmp s t).
Proof. unfold namecmp. tgo. Qed.
Hint Resolve keeps_namecmp : typed.

Definition entry_typed (r : option (nat * Z)) : Prop :=
  match r with Some (ip, off) => index NINODE ip ∧ word 32 off | None => True end.

Lemma entry_index ip off : entry_typed (Some (ip, off)) -> index NINODE ip.
Proof. by intros []. Qed.
Lemma entry_off ip off : entry_typed (Some (ip, off)) -> 0 <= off.
Proof. by intros [_ []]. Qed.
Hint Resolve entry_index entry_off : typed.

Lemma keeps_dirlookup dp name : keeps entry_typed (dirlookup dp name).
Proof.
  unfold dirlookup. tstep. tstep; [tgo|]. apply keeps_loop with (I := word 32); [|done].
  intros off Ho. unfold dirlookup_body. tgo.
Qed.
Hint Resolve keeps_dirlookup : typed.

Lemma strncpy_bytes s t n r : strncpy s t n = Some r -> bytes_ok s -> bytes_ok t -> bytes_ok r.
Proof.
  intros Hr Hs Ht. rewrite (strncpy_spec _ _ _ _ Hr).
  apply bytes_ok_app; [by apply cstr_bytes_ok|]. tside.
Qed.
Hint Resolve strncpy_bytes : typed.
Lemma keeps_dirlink dp name inum : bytes_ok name -> keeps anything (dirlink dp name inum).
Proof.
  intros Hn. unfold dirlink. tstep. tstep; [tgo|]. tstep. eapply (keeps_bind (λ off, 0 <= off)).
  - apply keeps_loop with (I := λ off, 0 <= off); [|done]. intros off Ho. unfold dirlink_body. tgo.
  - intros off Ho. tgo.
Qed.
Hint Resolve keeps_dirlink : typed.

(** ** Paths *)

Lemma skip_slashes_bytes p : bytes_ok p -> bytes_ok (skip_slashes p).
Proof. induction 1 as [|c p Hc Hp IH]; simpl; [constructor|]. destruct (c =? 47); [done|by constructor]. Qed.
Lemma take_elem_bytes p : bytes_ok p -> bytes_ok (take_elem p).1 ∧ bytes_ok (take_elem p).2.
Proof.
  induction 1 as [|c p Hc Hp IH]; simpl; [split; constructor|].
  destruct (c =? 47); simpl; [split; [constructor|by constructor]|]. destruct (take_elem p), IH. simpl in *. split; [by constructor|done].
Qed.
Lemma splice_bytes_ok off b l : bytes_ok b -> bytes_ok l -> bytes_ok (splice off b l).
Proof. intros Hb Hl. unfold splice. tside. Qed.
Lemma skipelem_bytes path name path' name' :
  bytes_ok path -> bytes_ok name -> skipelem path name = Some (path', name') -> bytes_ok path' ∧ bytes_ok name'.
Proof.
  intros Hp Hn. unfold skipelem. pose proof (skip_slashes_bytes _ Hp) as Hs.
  destruct (skip_slashes path) as [|c q]; [done|]. pose proof (take_elem_bytes _ Hs) as [He Hr].
  destruct (take_elem (c :: q)) as [e r]. simpl in He, Hr. intros [= <- <-]. split; [by apply skip_slashes_bytes|].
  unfold put_elem. destruct (DIRSIZ <=? _); apply splice_bytes_ok; auto using bytes_ok_take, bytes_ok_app, bytes_ok_nul.
Qed.

Lemma word_root : word 32 ROOTINO.
Proof. done. Qed.
Hint Resolve word_root : typed.

Lemma keeps_namex path par name :
  bytes_ok path -> bytes_ok name -> keeps (λ r, pointer NINODE r.1 ∧ bytes_ok r.2) (namex path par name).
Proof.
  intros Hp Hn. unfold namex. eapply (keeps_bind (index NINODE)).
  { tgo. }
  intros ip Hi. apply keeps_loop with (I := λ '(ip, path, name), index NINODE ip ∧ bytes_ok path ∧ bytes_ok name); [|done].
  intros [[i p] nm] (Hi' & Hp' & Hn'). destruct (skipelem p nm) as [[q nm']|] eqn:E; [|tgo].
  destruct (skipelem_bytes _ _ _ _ Hp' Hn' E) as [Hq Hnm]. tgo.
Qed.
Hint Resolve keeps_namex : typed.
Lemma keeps_namei path : bytes_ok path -> keeps (pointer NINODE) (namei path).
Proof. intros Hp. unfold namei. tgo. Qed.
Lemma keeps_nameiparent path : bytes_ok path -> keeps (λ r, pointer NINODE r.1 ∧ bytes_ok r.2) (nameiparent path).
Proof. intros Hp. unfold nameiparent. tgo. Qed.
Hint Resolve keeps_namei keeps_nameiparent : typed.

(** ** Pipes and open files *)

Lemma keeps_pipeclose pi w : keeps anything (pipeclose pi w).
Proof. unfold pipeclose. tgo. Qed.
Lemma keeps_pipewrite pi addr n : keeps anything (pipewrite pi addr n).
Proof.
  unfold pipewrite. tstep. tstep. eapply (keeps_bind anything).
  - apply keeps_loop with (I := anything); [|done]. unfold pipewrite_body, pipe_put. tgo.
  - tgo.
Qed.
Lemma keeps_piperead pi addr n : keeps anything (piperead pi addr n).
Proof.
  unfold piperead, pipe_wait. tgo.
  - apply keeps_loop with (I := anything); [|done]. tgo.
  - apply keeps_loop with (I := anything); [|done]. unfold piperead_body, pipe_get. tgo.
Qed.
Hint Resolve keeps_pipeclose keeps_pipewrite keeps_piperead : typed.

Lemma keeps_filealloc : keeps (pointer NFILE) filealloc.
Proof.
  unfold filealloc. tstep. eapply keeps_bind.
  - apply (keeps_foreach (index NFILE)). intros f Hf%index_seq. tgo.
  - intros [f|] Hf; tgo.
Qed.
Lemma keeps_filedup f : keeps (index NFILE) (filedup f).
Proof. unfold filedup. tgo. Qed.
Lemma keeps_fileclose f : keeps anything (fileclose f).
Proof. unfold fileclose. tgo. Qed.
Hint Resolve keeps_filealloc keeps_filedup keeps_fileclose : typed.
Lemma keeps_filestat f addr pad : keeps anything (filestat f addr pad).
Proof. unfold filestat. tgo. Qed.
Lemma keeps_devsw_at m : keeps anything (devsw_at m).
Proof. unfold devsw_at. tgo. Qed.
Hint Resolve keeps_filestat keeps_devsw_at : typed.
Lemma keeps_fileread f addr n : keeps anything (fileread f addr n).
Proof. unfold fileread. tgo. Qed.
Lemma keeps_filewrite f addr n : keeps anything (filewrite f addr n).
Proof.
  unfold filewrite. tgo. apply keeps_loop with (I := anything); [|done]. unfold filewrite_body. tgo.
Qed.
Hint Resolve keeps_fileread keeps_filewrite : typed.

(** The two ends of a pipe. *)
Definition both_ends (r : option (nat * nat)) : Prop :=
  match r with Some (f0, f1) => index NFILE f0 ∧ index NFILE f1 | None => True end.
Lemma keeps_pipealloc_bad f0 f1 pi : keeps both_ends (pipealloc_bad f0 f1 pi).
Proof. unfold pipealloc_bad. tgo. Qed.
Hint Resolve keeps_pipealloc_bad : typed.

Lemma junk_pipe_typed : pipe_typed junk_pipe.
Proof. split; [|done|done]. by apply (table_replicate 512). Qed.
Lemma pipes_insert a x (m : gmap Z pipe) :
  pipe_typed x -> map_Forall (λ _, pipe_typed) m -> map_Forall (λ _, pipe_typed) (<[a := x]> m).
Proof. intros Hx Hm. by apply map_Forall_insert_2. Qed.
Hint Resolve junk_pipe_typed pipes_insert : typed.
Lemma keeps_pipealloc : keeps both_ends pipealloc.
Proof. unfold pipealloc. tgo. Qed.
Hint Resolve keeps_pipealloc : typed.

(** ** The life cycle of processes *)

Lemma safestrcpy_loop_bytes k s t r :
  bytes_ok s -> bytes_ok t -> safestrcpy_loop k s t = Some r -> bytes_ok r ∧ length r = length s.
Proof.
  assert (Hp : ∀ s r, bytes_ok s -> put_nul s = Some r -> bytes_ok r ∧ length r = length s).
  { intros [|c s'] r' Hs; [done|]. intros [= <-]. split; [|done]. apply bytes_ok_cons; [done|]. by inversion Hs. }
  revert s t r. induction k as [|k IH]; intros s t r Hs Ht; cbn [safestrcpy_loop]; [by apply Hp|].
  destruct s as [|c s]; [done|]. destruct t as [|d t]; [done|]. apply Forall_cons in Hs as [Hc Hs], Ht as [Hd Ht].
  destruct (d =? 0); intros (l & Hl & ->)%fmap_Some.
  - destruct (Hp _ _ Hs Hl) as [H1' H2']. split; [by constructor|simpl; by f_equal].
  - destruct (IH _ _ _ Hs Ht Hl) as [H1' H2']. split; [by constructor|simpl; by f_equal].
Qed.

Lemma safestrcpy_bytes s t r : safestrcpy s t 16 = Some r -> bytes 16 s -> bytes_ok t -> bytes 16 r.
Proof.
  intros Hr [Hl Hs] Ht. change (safestrcpy s t 16) with (safestrcpy_loop 15 s t) in Hr.
  destruct (safestrcpy_loop_bytes _ _ _ _ Hs Ht Hr) as [Hb El]. split; [by rewrite El|done].
Qed.
Hint Resolve safestrcpy_bytes : typed.
#[local] Opaque safestrcpy.

Lemma keeps_set_name p src : bytes_ok src -> keeps anything (set_name p src).
Proof. intros Hs. unfold set_name. tgo. Qed.
Lemma keeps_proc_pagetable p : keeps anything (proc_pagetable p).
Proof. unfold proc_pagetable. tgo. Qed.
Lemma keeps_proc_freepagetable pt sz : keeps anything (proc_freepagetable pt sz).
Proof. unfold proc_freepagetable. tgo. Qed.
Hint Resolve keeps_set_name keeps_proc_pagetable keeps_proc_freepagetable : typed.
Lemma keeps_freeproc p : keeps anything (freeproc p).
Proof. unfold freeproc. tgo. Qed.
Hint Resolve keeps_freeproc : typed.
Lemma keeps_find_unused : keeps (pointer NPROC) find_unused.
Proof.
  unfold find_unused. eapply keeps_mono; [apply (keeps_foreach (index NPROC))|by intros []].
  intros p Hp%index_proc. tgo.
Qed.
Hint Resolve keeps_find_unused : typed.
Lemma keeps_allocproc : keeps (pointer NPROC) allocproc.
Proof. unfold allocproc. tgo. Qed.
Hint Resolve keeps_allocproc : typed.

Lemma keeps_growproc n : keeps anything (growproc n).
Proof. unfold growproc. tgo. Qed.

(** An entry of the table of open files. *)
Lemma ofile_pointer x i o : p_ofile x !! i = Some o -> proc_typed x -> pointer NFILE o.
Proof. intros Hi T. by destruct (table_lookup _ _ _ _ _ (pt_ofile _ T) Hi). Qed.
Hint Resolve ofile_pointer : typed.
Lemma ofile_index x i f : p_ofile x !! i = Some (Some f) -> proc_typed x -> index NFILE f.
Proof. apply (ofile_pointer x i (Some f)). Qed.
Lemma cwd_index x i : p_cwd x = Some i -> proc_typed x -> index NINODE i.
Proof. intros E T. pose proof (pt_cwd _ T) as Hc. by rewrite E in Hc. Qed.
Hint Resolve ofile_index cwd_index : typed.
Lemma pointer_some n i : index n i -> pointer n (Some i).
Proof. done. Qed.
Hint Resolve pointer_some : typed.

Lemma keeps_fork : keeps anything fork.
Proof. unfold fork, fork_ofile. tgo. Qed.
Lemma keeps_reparent p : keeps anything (reparent p).
Proof. unfold reparent. tgo. Qed.
Hint Resolve keeps_reparent : typed.
Lemma keeps_exit st : keeps anything (exit st).
Proof. unfold exit, exit_ofile. tgo. Qed.
Lemma keeps_wait_one p addr pp : keeps anything (wait_one p addr pp).
Proof. unfold wait_one. tgo. Qed.
Hint Resolve keeps_wait_one : typed.
Lemma keeps_wait_scan p addr l k : keeps anything (wait_scan p addr l k).
Proof. revert k. induction l as [|pp l IH]; intros k; cbn [wait_scan]; tgo. Qed.
Hint Resolve keeps_wait_scan : typed.
Lemma keeps_wait addr : keeps anything (wait addr).
Proof. unfold wait. tgo. apply keeps_loop with (I := anything); [|done]. tgo. Qed.
Hint Resolve keeps_growproc keeps_fork keeps_exit keeps_wait : typed.

Lemma chars_bytes s : bytes_ok (chars s).
Proof.
  induction s as [|c s IH]; [constructor|]. constructor; [|exact IH].
  pose proof (Ascii.N_ascii_bounded c). lia.
Qed.
Hint Resolve chars_bytes : typed.

Lemma keeps_userinit : keeps anything userinit.
Proof. unfold userinit. tgo. Qed.

(** ** exec() *)

Lemma keeps_kstr a : keeps anything (kstr a).
Proof. unfold kstr. tgo. Qed.
Hint Resolve keeps_kstr : typed.
Lemma keeps_loadseg pt va ip o sz : keeps anything (loadseg pt va ip o sz).
Proof. unfold loadseg. apply keeps_loop with (I := anything); [|done]. tgo. Qed.
Hint Resolve keeps_loadseg : typed.
Lemma keeps_load_ph pt ip off sz : keeps anything (load_ph pt ip off sz).
Proof. unfold load_ph. tgo. Qed.
Hint Resolve keeps_load_ph : typed.
Lemma keeps_load_phs n pt ip off sz : keeps anything (load_phs n pt ip off sz).
Proof. revert off sz. induction n as [|n IH]; intros off sz; cbn [load_phs]; tgo. Qed.
Lemma keeps_exec_bad pt sz ip : keeps anything (exec_bad pt sz ip).
Proof. unfold exec_bad. tgo. Qed.
Lemma keeps_push_args argv pt sp sb us : keeps anything (push_args argv pt sp sb us).
Proof. revert sp us. induction argv as [|a argv IH]; intros sp us; cbn [push_args]; tgo. Qed.
Hint Resolve keeps_load_phs keeps_exec_bad keeps_push_args : typed.
Lemma last_elem_bytes p l : bytes_ok p -> bytes_ok l -> bytes_ok (last_elem p l).
Proof. intros Hp. revert l. induction Hp as [|c p Hc Hp IH]; intros l Hl; simpl; [done|]. apply IH. by destruct (c =? 47). Qed.
Hint Resolve last_elem_bytes : typed.
Lemma keeps_exec_stack path argv pt sz e : bytes_ok path -> keeps anything (exec_stack path argv pt sz e).
Proof. intros Hp. unfold exec_stack. tgo. Qed.
Hint Resolve keeps_exec_stack : typed.
Lemma keeps_exec path argv : bytes_ok path -> keeps anything (exec path argv).
Proof. intros Hp. unfold exec. tgo. Qed.
Hint Resolve keeps_exec : typed.

(** ** System calls *)

Lemma keeps_fetchaddr a : keeps anything (fetchaddr a).
Proof. unfold fetchaddr. tgo. Qed.
Lemma keeps_fetchstr a m : keeps (λ r, bytes_ok r.2) (fetchstr a m).
Proof. unfold fetchstr. tgo. Qed.
Lemma keeps_argraw n : keeps anything (argraw n).
Proof. unfold argraw. tgo. Qed.
Hint Resolve keeps_fetchaddr keeps_fetchstr keeps_argraw : typed.
Lemma keeps_argint n : keeps (sword 32) (argint n).
Proof. unfold argint. tgo. Qed.
Lemma keeps_argaddr n : keeps anything (argaddr n).
Proof. unfold argaddr. tgo. Qed.
Hint Resolve keeps_argint keeps_argaddr : typed.
Lemma keeps_argstr n m : keeps (λ r, bytes_ok r.2) (argstr n m).
Proof. unfold argstr. tgo. Qed.
Hint Resolve keeps_argstr : typed.
Lemma keeps_argpath n : keeps (λ o, match o with Some p => bytes_ok p | None => True end) (argpath n).
Proof. unfold argpath. tgo. Qed.
Lemma keeps_argfd n : keeps (λ o, match o with Some (_, f) => index NFILE f | None => True end) (argfd n).
Proof. unfold argfd. tgo. Qed.
Lemma keeps_fdalloc f : index NFILE f -> keeps anything (fdalloc f).
Proof. intros Hf. unfold fdalloc. tgo. Qed.
Hint Resolve keeps_argpath keeps_argfd keeps_fdalloc : typed.

Lemma keeps_sys_dup : keeps anything sys_dup.
Proof. unfold sys_dup. tgo. Qed.
Lemma keeps_sys_read : keeps anything sys_read.
Proof. unfold sys_read. tgo. Qed.
Lemma keeps_sys_write : keeps anything sys_write.
Proof. unfold sys_write. tgo. Qed.
Lemma keeps_sys_close : keeps anything sys_close.
Proof. unfold sys_close. tgo. Qed.
Lemma keeps_sys_fstat pad : keeps anything (sys_fstat pad).
Proof. unfold sys_fstat. tgo. Qed.
Lemma keeps_add_nlink ip d : keeps anything (add_nlink ip d).
Proof. unfold add_nlink. tgo. Qed.
Hint Resolve keeps_add_nlink : typed.
Lemma keeps_link_bad ip : keeps anything (link_bad ip).
Proof. unfold link_bad. tgo. Qed.
Hint Resolve keeps_link_bad : typed.
Lemma keeps_sys_link : keeps anything sys_link.
Proof. unfold sys_link. tgo. Qed.
Lemma keeps_isdirempty dp : keeps anything (isdirempty dp).
Proof. unfold isdirempty. tgo. apply keeps_loop with (I := anything); [|done]. tgo. Qed.
Lemma keeps_unlink_bad dp : keeps anything (unlink_bad dp).
Proof. unfold unlink_bad. tgo. Qed.
Hint Resolve keeps_isdirempty keeps_unlink_bad : typed.
Lemma keeps_sys_unlink : keeps anything sys_unlink.
Proof. unfold sys_unlink. tgo. Qed.
Lemma keeps_create_fail ip dp : keeps (pointer NINODE) (create_fail ip dp).
Proof. unfold create_fail. tgo. Qed.
Hint Resolve keeps_create_fail : typed.
Lemma lit_bytes s : bytes_ok (lit s).
Proof. unfold lit. tside. Qed.
Hint Resolve lit_bytes : typed.
Lemma keeps_create path type major minor :
  bytes_ok path -> sword 16 major -> sword 16 minor -> keeps (pointer NINODE) (create path type major minor).
Proof. intros Hp Hma Hmi. unfold create. tgo. Qed.
Hint Resolve keeps_create : typed.
Lemma keeps_open_inode path m : bytes_ok path -> keeps (pointer NINODE) (open_inode path m).
Proof. intros Hp. unfold open_inode. tgo. Qed.
Hint Resolve keeps_open_inode : typed.
Lemma keeps_sys_open : keeps anything sys_open.
Proof. unfold sys_open. tgo. Qed.
Lemma keeps_sys_mkdir : keeps anything sys_mkdir.
Proof.
  unfold sys_mkdir. tstep. tstep. eapply (keeps_bind (pointer NINODE)); tgo.
Qed.
Lemma keeps_sys_mknod : keeps anything sys_mknod.
Proof. unfold sys_mknod. do 4 tstep. eapply (keeps_bind (pointer NINODE)); tgo. Qed.
Lemma keeps_sys_chdir : keeps anything sys_chdir.
Proof. unfold sys_chdir. do 3 tstep. eapply (keeps_bind (pointer NINODE)); tgo. Qed.
Lemma keeps_fetch_args n u i argv : keeps anything (fetch_args n u i argv).
Proof. revert i argv. induction n as [|n IH]; intros i argv; cbn [fetch_args]; tgo. Qed.
Hint Resolve keeps_fetch_args : typed.
Lemma keeps_sys_exec : keeps anything sys_exec.
Proof. unfold sys_exec. tgo. Qed.
Lemma both_left f0 f1 : both_ends (Some (f0, f1)) -> index NFILE f0.
Proof. by intros []. Qed.
Lemma both_right f0 f1 : both_ends (Some (f0, f1)) -> index NFILE f1.
Proof. by intros []. Qed.
Hint Resolve both_left both_right : typed.
Lemma keeps_sys_pipe : keeps anything sys_pipe.
Proof. unfold sys_pipe. tgo. Qed.

Lemma keeps_sys_exit : keeps anything sys_exit.
Proof. unfold sys_exit. tgo. Qed.
Lemma keeps_sys_getpid : keeps anything sys_getpid.
Proof. unfold sys_getpid. tgo. Qed.
Lemma keeps_sys_fork : keeps anything sys_fork.
Proof. unfold sys_fork. tgo. Qed.
Lemma keeps_sys_wait : keeps anything sys_wait.
Proof. unfold sys_wait. tgo. Qed.
Lemma keeps_sys_sbrk : keeps anything sys_sbrk.
Proof. unfold sys_sbrk. tgo. Qed.
Lemma keeps_sys_sleep : keeps anything sys_sleep.
Proof. unfold sys_sleep. tgo. apply keeps_loop with (I := anything); [|done]. tgo. Qed.
Lemma keeps_sys_kill : keeps anything sys_kill.
Proof. unfold sys_kill. tgo. Qed.
Lemma keeps_sys_uptime : keeps anything sys_uptime.
Proof. unfold sys_uptime. tgo. Qed.

(** Whatever system call a process makes. *)
Lemma keeps_syscalls pad num f : syscalls pad num = Some f -> keeps anything f.
Proof.
  unfold syscalls. intros E. repeat case_match; try done; injection E as <-;
    auto using keeps_sys_fork, keeps_sys_exit, keeps_sys_wait, keeps_sys_pipe, keeps_sys_read, keeps_sys_kill, keeps_sys_exec,
      keeps_sys_fstat, keeps_sys_chdir, keeps_sys_dup, keeps_sys_getpid, keeps_sys_sbrk, keeps_sys_sleep, keeps_sys_uptime,
      keeps_sys_open, keeps_sys_write, keeps_sys_mknod, keeps_sys_unlink, keeps_sys_link, keeps_sys_mkdir, keeps_sys_close.
Qed.
Lemma keeps_syscall pad : keeps anything (syscall pad).
Proof. unfold syscall. tgo. by eapply keeps_syscalls. Qed.
End fs.
