(* ===== verification/TypedSys.v ===== *)
(** * The kernel is type safe

    Traps, interrupts and boot keep the state well typed, like the functions of
    Typed.v and TypedFs.v; so the whole machine does, with any number of harts
    and processes in the kernel at once, interleaved wherever they give up the
    processor, and with user programs, the disk and the other devices at work
    in between. *)

From Stdlib Require Import ZArith Lia.
From stdpp Require Import base numbers list gmap strings.
From S2P Require Import Prelude Machine Kernel Strings Riscv Spinlock Kalloc Vm Proc Uart Printf Console.
From S2P Require Import Sleeplock Plic Virtio Bio Log Fs File Procs Syscall Trap Main Typed TypedFs.

Section trap.
Context `{Fuel} `{Symbols} `{DiskDriver} `{!TypedDriver} (pad : list Z).
Hint Resolve keeps_syscall keeps_exit keeps_fsinit keeps_plic_claim keeps_plic_complete keeps_uartintr
  keeps_virtio_disk_intr keeps_yield_proc : typed.

Lemma keeps_trapinit : keeps anything trapinit.
Proof. unfold trapinit. tgo. Qed.
Lemma keeps_trapinithart : keeps anything trapinithart.
Proof. unfold trapinithart, w_stvec. tgo. Qed.
Lemma keeps_clockintr : keeps anything clockintr.
Proof. unfold clockintr. tgo. Qed.
Hint Resolve keeps_clockintr : typed.
Lemma keeps_devintr : keeps anything devintr.
Proof. unfold devintr, r_scause, r_sip, w_sip. tgo. Qed.
Lemma keeps_usertrapret : keeps anything usertrapret.
Proof. unfold usertrapret, w_stvec, r_satp, r_tp, r_sstatus, w_sstatus, w_sepc. tgo. Qed.
Hint Resolve keeps_devintr keeps_usertrapret : typed.
Lemma keeps_kmemmove d s n : keeps anything (kmemmove d s n).
Proof. unfold kmemmove. tgo. by apply mem_wf_memmove. Qed.
Hint Resolve keeps_kmemmove : typed.
Lemma keeps_cow_fault p : keeps anything (cow_fault p).
Proof. unfold cow_fault, r_stval, dec_ref. tgo. Qed.
Hint Resolve keeps_cow_fault : typed.
Lemma keeps_usertrap_cause p : keeps anything (usertrap_cause pad p).
Proof. unfold usertrap_cause, r_scause, r_sepc, r_stval. tgo. Qed.
Hint Resolve keeps_usertrap_cause : typed.
Lemma keeps_usertrap : keeps anything (usertrap pad).
Proof. unfold usertrap, r_sstatus, w_stvec, r_sepc. tgo. Qed.
Lemma keeps_kerneltrap : keeps anything kerneltrap.
Proof. unfold kerneltrap, r_sepc, r_sstatus, r_scause, r_stval, w_sepc, w_sstatus. tgo. Qed.
Lemma keeps_forkret : keeps anything forkret.
Proof. unfold forkret. tgo. Qed.
End trap.

Section main.
Context `{Fuel} `{Symbols} `{DiskDriver} `{!TypedDriver}.
Hint Resolve keeps_consoleinit keeps_printfinit keeps_kinit keeps_kvminit keeps_kvminithart keeps_procinit keeps_trapinit
  keeps_trapinithart keeps_plicinit keeps_plicinithart keeps_binit keeps_iinit keeps_virtio_disk_init keeps_userinit
  keeps_scheduler : typed.

Lemma keeps_fileinit : keeps anything fileinit.
Proof. unfold fileinit. tgo. Qed.
Hint Resolve keeps_fileinit : typed.
Lemma keeps_timerinit : keeps anything timerinit.
Proof. unfold timerinit, r_mhartid, w_mscratch, w_mtvec, r_mstatus, w_mstatus, r_mie, w_mie. tgo. Qed.
Hint Resolve keeps_timerinit : typed.
Lemma keeps_start : keeps anything start.
Proof.
  unfold start, r_mstatus, w_mstatus, w_mepc, w_satp, w_medeleg, w_mideleg, r_sie, w_sie, w_pmpaddr0, w_pmpcfg0, r_mhartid, w_tp.
  tgo.
Qed.
Lemma keeps_main : keeps anything main.
Proof. unfold main. tgo. apply keeps_loop with (I := anything); [|done]. tgo. Qed.
End main.

(** ** The state at boot *)

Lemma zero_typed : proc_typed zero_proc ∧ file_typed zero_file ∧ inode_typed zero_inode ∧ buf_typed zero_buf.
Proof.
  split_and!.
  - split; try done; [by apply table_replicate|by apply (table_replicate 16)].
  - by split.
  - split; try done. by apply (table_replicate 13).
  - split; try done. by apply (table_replicate 1024).
Qed.

Lemma boot_typed input disk : typed (boot input disk).
Proof.
  destruct zero_typed as (Zp & Zf & Zi & Zb).
  split; try done; try (by apply table_replicate).
  - split; [by apply (table_replicate 128)|done..].
  - split; [by apply (table_replicate 32)|done..].
  - split; try done; by apply (table_replicate NUM).
Qed.

(** ** The machine *)

Section machine.
Context `{Fuel} `{Symbols} `{DiskLayout} (pad : list Z).
#[local] Existing Instance virtio_driver.

(** The ways into the kernel's C code: after reset, from a trap in user or in
    kernel mode, and when a new process is switched to. *)
Inductive kentry := E_start | E_main | E_usertrap | E_kerneltrap | E_forkret.

Definition enter_kernel (e : kentry) : K unit :=
  match e with
  | E_start => start
  | E_main => main
  | E_usertrap => usertrap pad ;; ret tt
  | E_kerneltrap => kerneltrap
  | E_forkret => forkret ;; ret tt
  end.

(** What happens outside of the kernel's C code: another hart is the one that
    runs; registers change; a program writes to memory; trampoline.S saves the
    registers of a process; devices have new values in their registers; the
    disk changes, fills a buffer, or reports a request in the used ring. *)
Inductive outside : kstate -> kstate -> Prop :=
| o_hart s c : outside s (s <| k_cur := c |>)
| o_registers s hs : outside s (s <| k_harts := hs |>)
| o_memory s a v : outside s (s <| k_mem ::= λ m, store8 m a v |>)
| o_trapframe s a t : outside s (s <| k_tframes ::= <[a := t]> |>)
| o_input s l : outside s (s <| k_mmio_in := l |>)
| o_disk s n d : outside s (s <| k_disk ::= <[n := d]> |> <| k_dhist ::= λ h, h ++ [(n, d)] |>)
| o_transfer s b d : bytes BSIZE d -> outside s (s <| k_bufs ::= upd b (λ x, x <| b_data := d |>) |>)
| o_status s i v : outside s (s <| k_vdisk ::= λ x, x <| dk_info ::= upd i (λ y, y <| vi_status := v |>) |> |>)
| o_report s i e : outside s (s <| k_vdisk ::= λ x, x <| dk_used ::= λ u,
    u <| vu_ring ::= <[i := e]> |> <| vu_idx ::= λ n, u16 (n + 1) |> |> |>).

(** The shared state, and the computations under way in the kernel: one runs
    until it gives up the processor. *)
Definition config : Type := kstate * list (kstate -> out unit).

Inductive machine_step : config -> config -> Prop :=
| s_enter s ts e : machine_step (s, ts) (s, enter_kernel e :: ts)
| s_yield s ts ts' t w s' k : t s = Yield w s' k -> machine_step (s, ts ++ t :: ts') (s', ts ++ k :: ts')
| s_return s ts ts' t s' : t s = Ok tt s' -> machine_step (s, ts ++ t :: ts') (s', ts ++ ts')
| s_stop s ts ts' t e s' : t s = Stop e s' -> machine_step (s, ts ++ t :: ts') (s', ts ++ ts')
| s_outside s ts s' : outside s s' -> machine_step (s, ts) (s', ts).

Lemma keeps_enter_kernel e : keeps anything (enter_kernel e).
Proof.
  destruct e; cbn [enter_kernel].
  - apply keeps_start.
  - apply keeps_main.
  - eapply keeps_bind; [apply keeps_usertrap|]. tgo.
  - apply keeps_kerneltrap.
  - eapply keeps_bind; [apply keeps_forkret|]. tgo.
Qed.

Lemma outside_typed s s' : outside s s' -> typed s -> typed s'.
Proof.
  intros O T. destruct O; destruct T; split; simpl; try done.
  - by apply mem_wf_store8.
  - apply table_upd; [done|]. intros x []. by split.
  - destruct ty_vdisk. split; try done. simpl. by apply table_upd.
  - destruct ty_vdisk. split; try done. simpl. by apply table_insert.
Qed.

(** Every computation under way keeps the state well typed. *)
Definition config_typed (c : config) : Prop := typed c.1 ∧ Forall (keeps anything) c.2.

Lemma step_typed c c' : machine_step c c' -> config_typed c -> config_typed c'.
Proof.
  intros St [T Ts]. destruct St as [s ts e|s ts ts' t w s' k E|s ts ts' t s' E|s ts ts' t e s' E|s ts s' O]; simpl in *.
  - split; [done|]. constructor; [apply keeps_enter_kernel|done].
  - apply Forall_app in Ts as [T1 [Ht T2]%Forall_cons]. pose proof (keeps_run Ht s T) as Hk. rewrite E in Hk.
    destruct Hk as [T' Hk]. split; [done|]. apply Forall_app. split; [done|]. constructor; [by split|done].
  - apply Forall_app in Ts as [T1 [Ht T2]%Forall_cons]. pose proof (keeps_run Ht s T) as Hk. rewrite E in Hk.
    destruct Hk as [T' _]. split; [done|]. by apply Forall_app.
  - apply Forall_app in Ts as [T1 [Ht T2]%Forall_cons]. pose proof (keeps_run Ht s T) as Hk. rewrite E in Hk.
    split; [done|]. by apply Forall_app.
  - split; [by eapply outside_typed|done].
Qed.

Lemma reachable_typed c c' : rtc machine_step c c' -> config_typed c -> config_typed c'.
Proof. induction 1 as [|c1 c2 c3 St _ IH]; [done|]. intros T. by eapply IH, step_typed. Qed.
End machine.

(** ** Property *)


(** A hart starts and goes on to main(), and waits there for hart 0. *)
Definition returns {A} (o : out A) : bool := match o with Ok _ _ => true | _ => false end.
Definition waits {A} (o : out A) : bool := match o with Yield _ _ _ => true | _ => false end.
Definition ex_layout_disk : DiskLayout := {| ops_addr := λ i, KERNBASE + i; status_addr := λ i, KERNBASE + i; bufdata_addr := λ b, KERNBASE |}.

