(* ===== verification/User.v ===== *)
(** * User programs

    A user program (src/xv6/user) computes on its own memory and asks the
    kernel for everything else.  [prog A] is such a program returning an [A]:
    a tree whose nodes are the system calls of user.h, each with one branch
    per reply of the kernel.  Data passed to or filled in by the kernel is
    passed by value: [write] carries the bytes of the caller's buffer, [read]
    replies with the bytes the kernel stored.  A C string is the list of bytes
    of the array the pointer points into, its NUL included; an access outside
    an array is [Crash].

    [run] interprets a program against a world [W] given by what the kernel
    replies to each system call. *)

From Stdlib Require Import ZArith Lia Ascii.
From stdpp Require Import base numbers list gmap strings.
From S2P Require Import Prelude.

(** stat.h: [struct stat] as fstat() fills it in *)
Record ustat := Ustat { st_dev : Z; st_ino : Z; st_type : Z; st_nlink : Z; st_size : Z }.

(** A string argument: an array of the program, or an address. *)
Inductive sarg := S_arr (s : list Z) | S_at (a : Z).

(** user.h: the system calls, with the type of their reply.  The calls whose
    names end in [_at] are the same calls with a pointer that is not to an array
    of the model: memory from sbrk(), or an address made up by a test.
    [load_at] and [store_at] are the loads and stores through such a pointer; a
    reply [None] or [false] says that the access faulted and the kernel has
    killed the process. *)
Inductive sys : Type -> Type :=
| fork : sys Z
| wait : sys (Z * Z)                                  (* pid, exit status *)
| pipe : sys (Z * (Z * Z))                            (* result, p[0], p[1] *)
| write (fd : Z) (b : list Z) : sys Z
| read (fd n : Z) : sys (Z * list Z)                  (* result, bytes stored *)
| close (fd : Z) : sys Z
| kill (pid : Z) : sys Z
| exec (path : list Z) (argv : list (list Z)) : sys Z
| open (path : list Z) (mode : Z) : sys Z
| mknod (path : list Z) (major minor : Z) : sys Z
| unlink (path : list Z) : sys Z
| fstat (fd : Z) : sys (Z * ustat)
| link (old new : list Z) : sys Z
| mkdir (path : list Z) : sys Z
| chdir (path : list Z) : sys Z
| dup (fd : Z) : sys Z
| getpid : sys Z
| sbrk (n : Z) : sys Z
| sleep (n : Z) : sys Z
| uptime : sys Z
| write_at (fd addr n : Z) : sys Z
| read_at (fd addr n : Z) : sys Z
| open_at (path mode : Z) : sys Z
| unlink_at (path : Z) : sys Z
| link_at (old new : sarg) : sys Z
| exec_at (path : sarg) (argv : list sarg) : sys Z
| pipe_at (fdarray : Z) : sys Z
| load_at (addr : Z) (n : nat) : sys (option (list Z))
| store_at (addr : Z) (b : list Z) : sys bool.

Inductive prog (A : Type) : Type :=
| Ret (a : A)
| Exit (status : Z)
| Crash
| OutOfFuel
| Sys {R : Type} (e : sys R) (k : R -> prog A).
Arguments Ret {A} a.
Arguments Exit {A} status.
Arguments Crash {A}.
Arguments OutOfFuel {A}.
Arguments Sys {A R} e k.

#[global] Instance prog_ret : MRet prog := λ A a, Ret a.
#[global] Instance prog_bind : MBind prog := λ A B f,
  fix go (p : prog A) : prog B :=
    match p with
    | Ret a => f a
    | Exit z => Exit z
    | Crash => Crash
    | OutOfFuel => OutOfFuel
    | Sys e k => Sys e (λ r, go (k r))
    end.

Definition call {R} (e : sys R) : prog R := Sys e Ret.
Definition exit {A} (status : Z) : prog A := Exit status.
(** The value of an access to an array, which must be inside it. *)
Definition need {A} (o : option A) : prog A := match o with Some a => Ret a | None => Crash end.

(** A C loop: [inl x] goes around with loop variables [x], [inr r] leaves; at
    most [n] rounds are modelled. *)
Fixpoint uloop {X R} (n : nat) (body : X -> prog (X + R)) (x : X) : prog R :=
  match n with
  | O => OutOfFuel
  | S n => body x ≫= λ r, match r with inl x => uloop n body x | inr r => Ret r end
  end.

(** [for (x in l) body]. *)
Fixpoint ufor {X} (l : list X) (body : X -> prog unit) : prog unit :=
  match l with
  | [] => Ret tt
  | x :: l => body x ≫= λ _, ufor l body
  end.

(** ** Runs *)

Inductive outcome (A : Type) := Done (a : A) | Exited (status : Z) | Crashed | Starved.
Arguments Done {A} a.
Arguments Exited {A} status.
Arguments Crashed {A}.
Arguments Starved {A}.

(** What the kernel does: the reply to each call, and the world after it. *)
Definition kernel (W : Type) : Type := ∀ R, sys R -> W -> R * W.

Fixpoint run {W A} (h : kernel W) (p : prog A) (w : W) : outcome A * W :=
  match p with
  | Ret a => (Done a, w)
  | Exit z => (Exited z, w)
  | Crash => (Crashed, w)
  | OutOfFuel => (Starved, w)
  | Sys e k => let '(r, w') := h _ e w in run h (k r) w'
  end.

Lemma run_bind_done {W A B} (h : kernel W) (p : prog A) (f : A -> prog B) w a w' :
  run h p w = (Done a, w') -> run h (p ≫= f) w = run h (f a) w'.
Proof.
  revert w. induction p as [b|z| | |R e k IH]; intros w; simpl; try done.
  - by intros [= <- <-].
  - destruct (h R e w) as [r w1]. apply IH.
Qed.

Lemma run_bind_exit {W A B} (h : kernel W) (p : prog A) (f : A -> prog B) w z w' :
  run h p w = (Exited z, w') -> run h (p ≫= f) w = (Exited z, w').
Proof.
  revert w. induction p as [b|y| | |R e k IH]; intros w; simpl; try done.
  - by intros [= <- <-].
  - destruct (h R e w) as [r w1]. apply IH.
Qed.

(** A run of a sequence is a run of its first part, then of the rest. *)
Lemma run_then {W A B} (h : kernel W) (p : prog A) (f : A -> prog B) w :
  run h (p ≫= f) w =
    match run h p w with
    | (Done a, w') => run h (f a) w'
    | (Exited z, w') => (Exited z, w')
    | (Crashed, w') => (Crashed, w')
    | (Starved, w') => (Starved, w')
    end.
Proof.
  revert w. induction p as [b|z| | |R e k IH]; intros w; simpl; try done.
  destruct (h R e w) as [r w1]. apply IH.
Qed.

Lemma run_uloop_next {W X R} (h : kernel W) n (body : X -> prog (X + R)) x w x' w' :
  run h (body x) w = (Done (inl x'), w') ->
  run h (uloop (S n) body x) w = run h (uloop n body x') w'.
Proof. intros H. simpl. by rewrite (run_bind_done _ _ _ _ _ _ H). Qed.

Lemma run_uloop_last {W X R} (h : kernel W) n (body : X -> prog (X + R)) x w r w' :
  run h (body x) w = (Done (inr r), w') ->
  run h (uloop (S n) body x) w = (Done r, w').
Proof. intros H. simpl. by rewrite (run_bind_done _ _ _ _ _ _ H). Qed.

(** ** Streams

    A world for programs that copy or filter: what is left to read on each
    open descriptor, the sizes in which the kernel hands it out, and what has
    been written to each descriptor.  As read() documents, a read of [n > 0]
    bytes returns at least one and at most [n] bytes until the end of the
    file, and 0 there; how many is up to the kernel ([w_sizes]). *)
Record world := World {
  w_in : gmap Z (list Z);
  w_sizes : list nat;
  w_out : gmap Z (list Z)
}.
#[global] Instance eta_world : Eta world := λ r, World (w_in r) (w_sizes r) (w_out r).

Definition inp (w : world) (fd : Z) : list Z := default [] (w_in w !! fd).
Definition outp (w : world) (fd : Z) : list Z := default [] (w_out w !! fd).
Definition emit (fd : Z) (b : list Z) (w : world) : world :=
  match b with [] => w | _ => w <| w_out ::= <[fd := outp w fd ++ b]> |> end.

(** The number of bytes the next read of up to [n] bytes returns. *)
Definition chunk (w : world) (n : nat) : nat :=
  match w_sizes w with [] => n | k :: _ => Nat.min n (S k) end.
Definition consume (fd : Z) (n : nat) (w : world) : world :=
  w <| w_in ::= <[fd := drop n (inp w fd)]> |> <| w_sizes ::= tail |>.

(** The reply of a kernel that refuses the call. *)
Definition refuse {R} (e : sys R) : R :=
  match e in sys R return R with
  | fork => -1
  | wait => (-1, 0)
  | pipe => (-1, (0, 0))
  | write _ _ => -1
  | read _ _ => (-1, [])
  | close _ => -1
  | kill _ => -1
  | exec _ _ => -1
  | open _ _ => -1
  | mknod _ _ _ => -1
  | unlink _ => -1
  | fstat _ => (-1, Ustat 0 0 0 0 0)
  | link _ _ => -1
  | mkdir _ => -1
  | chdir _ => -1
  | dup _ => -1
  | getpid => -1
  | sbrk _ => -1
  | sleep _ => -1
  | uptime => -1
  | write_at _ _ _ => -1
  | read_at _ _ _ => -1
  | open_at _ _ => -1
  | unlink_at _ => -1
  | link_at _ _ => -1
  | exec_at _ _ => -1
  | pipe_at _ => -1
  | load_at _ _ => None
  | store_at _ _ => false
  end.

Definition streams : kernel world := λ R e,
  match e in sys R return world -> R * world with
  | write fd b => λ w, (Z.of_nat (length b), emit fd b w)
  | read fd n => λ w,
      let b := take (chunk w (Z.to_nat n)) (inp w fd) in
      ((Z.of_nat (length b), b), consume fd (length b) w)
  | close fd => λ w, (0, w)
  | e => λ w, (refuse e, w)
  end.

Lemma outp_emit fd b w : outp (emit fd b w) fd = outp w fd ++ b.
Proof.
  destruct b as [|c b]; [by rewrite app_nil_r|].
  unfold outp at 1, emit. simpl. by rewrite lookup_insert_eq.
Qed.

Lemma outp_emit_ne fd fd' b w : fd <> fd' -> outp (emit fd b w) fd' = outp w fd'.
Proof.
  intros H. destruct b as [|c b]; [done|].
  unfold outp at 1, emit. simpl. by rewrite lookup_insert_ne.
Qed.

Lemma emit_emit fd b c w : emit fd c (emit fd b w) = emit fd (b ++ c) w.
Proof.
  destruct c as [|x c]; [by rewrite app_nil_r|]. destruct b as [|y b]; [done|].
  pose proof (outp_emit fd (y :: b) w) as Ho. revert Ho.
  generalize (y :: b) at 1 2 as yb. unfold emit. simpl. destruct w as [i s o]. unfold update. simpl.
  intros yb Ho. f_equal. unfold outp. simpl. rewrite lookup_insert_eq. simpl.
  by rewrite insert_insert_eq, <- app_assoc.
Qed.

Lemma inp_emit fd fd' b w : inp (emit fd b w) fd' = inp w fd'.
Proof. by destruct b. Qed.

Lemma outp_consume fd n w fd' : outp (consume fd n w) fd' = outp w fd'.
Proof. done. Qed.

Lemma inp_consume fd n w : inp (consume fd n w) fd = drop n (inp w fd).
Proof. unfold inp at 1, consume. simpl. by rewrite lookup_insert_eq. Qed.

Lemma chunk_pos w n : (0 < n)%nat -> (0 < chunk w n <= n)%nat.
Proof. intros H. unfold chunk. destruct (w_sizes w); lia. Qed.
