(* ===== verification/Ulib.v ===== *)
(** * user/ulib.c and user/printf.c

    The library every user program is linked with.  A pointer into an array is
    the list of the array's bytes from there on, or the array with an index;
    the functions return [None] when the C code would leave the array. *)

From Stdlib Require Import ZArith Lia Ascii.
From stdpp Require Import base numbers list gmap strings.
From S2P Require Import Prelude User.

(** A string literal as a C array. *)
Definition lit (s : string) : list Z := chars s ++ [0].

(** [a[i] = v] *)
Definition put (a : list Z) (i : nat) (v : Z) : option (list Z) :=
  if decide (i < length a)%nat then Some (<[i := v]> a) else None.

Fixpoint strcpy (s t : list Z) : option (list Z) :=
  match s, t with
  | _ :: s', c :: t' => if c =? 0 then Some (0 :: s') else cons c <$> strcpy s' t'
  | _, _ => None
  end.

Fixpoint strcmp (p q : list Z) : option Z :=
  match p, q with
  | a :: p', b :: q' => if truth a && (a =? b) then strcmp p' q' else Some (u8 a - u8 b)
  | _, _ => None
  end.

Fixpoint strlen (s : list Z) : option nat :=
  match s with
  | [] => None
  | c :: s => if c =? 0 then Some O else S <$> strlen s
  end.

Fixpoint memset (dst : list Z) (c : Z) (n : nat) {struct n} : option (list Z) :=
  match n, dst with
  | O, _ => Some dst
  | S n, _ :: dst => cons (u8 c) <$> memset dst c n
  | _, _ => None
  end.

(** The distance from [s] to the first [c] before the NUL, if there is one. *)
Fixpoint strchr (s : list Z) (c : Z) : option (option nat) :=
  match s with
  | [] => None
  | x :: s => if x =? 0 then Some None else
              if x =? c then Some (Some O) else option_map (option_map S) (strchr s c)
  end.

(** gets(): [k] is [max - 1 - i], the rounds the loop condition still allows. *)
Fixpoint gets_loop (k i : nat) (buf : list Z) : prog (nat * list Z) :=
  match k with
  | O => Ret (i, buf)
  | S k =>
      '(cc, b) ← call (read 0 1);
      if cc <? 1 then Ret (i, buf) else
      c ← need (head b);
      buf ← need (put buf i c);
      if (c =? 10) || (c =? 13) then Ret (S i, buf) else gets_loop k (S i) buf
  end.

Definition gets (buf : list Z) (max : Z) : prog (list Z) :=
  '(i, buf) ← gets_loop (Z.to_nat (max - 1)) 0 buf;
  need (put buf i 0).

(** stat(): the result and the contents of [*st] afterwards. *)
Definition stat (n : list Z) (st : ustat) : prog (Z * ustat) :=
  fd ← call (open n 0);
  if fd <? 0 then Ret (-1, st) else
  '(r, st) ← call (fstat fd);
  _ ← call (close fd);
  Ret (r, st).

Fixpoint atoi_loop (s : list Z) (n : Z) : option Z :=
  match s with
  | [] => None
  | c :: s => if (48 <=? c) && (c <=? 57) then atoi_loop s (i32 (n * 10 + c - 48)) else Some n
  end.

Definition atoi (s : list Z) : option Z := atoi_loop s 0.

(** [while(n-- > 0) *dst++ = *src++;] with both pointers into [a] *)
Fixpoint move_up (a : list Z) (dst src n : nat) : option (list Z) :=
  match n with
  | O => Some a
  | S n => c ← a !! src; a ← put a dst c; move_up a (S dst) (S src) n
  end.

(** [dst += n; src += n; while(n-- > 0) *--dst = *--src;] *)
Fixpoint move_down (a : list Z) (dst src n : nat) : option (list Z) :=
  match n with
  | O => Some a
  | S n => c ← a !! (src + n)%nat; a ← put a (dst + n) c; move_down a dst src n
  end.

(** memmove() with both pointers into the array [a]. *)
Definition memmove (a : list Z) (dst src : nat) (n : Z) : option (list Z) :=
  if decide (dst < src)%nat then move_up a dst src (Z.to_nat n) else move_down a dst src (Z.to_nat n).

(** memmove() from one array to another: the direction does not matter to the
    two loops, which touch the same bytes. *)
Fixpoint copy_to (a : list Z) (dst : nat) (src : list Z) (n : nat) {struct n} : option (list Z) :=
  match n, src with
  | O, _ => Some a
  | S n, c :: src => a ← put a dst c; copy_to a (S dst) src n
  | _, _ => None
  end.

Fixpoint memcmp (p1 p2 : list Z) (n : nat) : option Z :=
  match n with
  | O => Some 0
  | S n => match p1, p2 with
           | a :: p1, b :: p2 => if a =? b then memcmp p1 p2 n else Some (a - b)
           | _, _ => None
           end
  end.

Definition memcpy (a : list Z) (dst src : nat) (n : Z) : option (list Z) := memmove a dst src n.

(** ** printf.c *)

(** [digits[d]] *)
Definition digits (d : Z) : Z := if d <? 10 then 48 + d else 55 + d.

Definition putc (fd c : Z) : prog unit := _ ← call (write fd [u8 c]); Ret tt.

(** The [do ... while] loop: the digits of [x], last one first.  An unsigned
    int has at most 32 digits in any base. *)
Fixpoint digits_rev (n : nat) (x base : Z) : list Z :=
  match n with
  | O => []
  | S n => digits (x mod base) :: (if x / base =? 0 then [] else digits_rev n (x / base) base)
  end.

(** The bytes printint() leaves in [buf], and those it prints: [buf] from its end. *)
Definition printint_buf (xx base : Z) (sgn : bool) : list Z :=
  let neg := sgn && (xx <? 0) in
  let x := if neg then u32 (- xx) else u32 xx in
  digits_rev 32 x base ++ (if neg then [45] else []).
Definition printint_chars (xx base : Z) (sgn : bool) : list Z := rev (printint_buf xx base sgn).

Definition printint (fd xx base : Z) (sgn : bool) : prog unit :=
  if decide (length (printint_buf xx base sgn) <= 16)%nat
  then ufor (printint_chars xx base sgn) (putc fd) else Crash.

Fixpoint printptr_chars (n : nat) (x : Z) : list Z :=
  match n with
  | O => []
  | S n => digits (Z.shiftr x 60) :: printptr_chars n (u64 (Z.shiftl x 4))
  end.

Definition printptr (fd x : Z) : prog unit :=
  _ ← putc fd 48; _ ← putc fd 120; ufor (printptr_chars 16 x) (putc fd).

(** A variadic argument: an integer register, or a pointer to a string. *)
Inductive uarg := A_int (v : Z) | A_str (s : option (list Z)).

(** The bytes of a C string before its NUL. *)
Fixpoint ucstr (s : list Z) : option (list Z) :=
  match s with
  | [] => None
  | c :: s => if c =? 0 then Some [] else cons c <$> ucstr s
  end.

(** What one [%c] conversion prints, and the arguments left. *)
Definition convert (fd c : Z) (args : list uarg) : prog (list uarg) :=
  if (c =? 100) || (c =? 108) || (c =? 120) || (c =? 112) || (c =? 99) then
    match args with
    | A_int v :: args =>
        _ ← (if c =? 100 then printint fd (i32 v) 10 true
             else if c =? 108 then printint fd (i32 v) 10 false
             else if c =? 120 then printint fd (i32 v) 16 false
             else if c =? 112 then printptr fd (u64 v)
             else putc fd v);
        Ret args
    | _ => Crash
    end
  else if c =? 115 then
    match args with
    | A_str s :: args =>
        l ← need (ucstr (default (lit "(null)") s));
        _ ← ufor l (putc fd); Ret args
    | _ => Crash
    end
  else if c =? 37 then _ ← putc fd c; Ret args
  else _ ← putc fd 37; _ ← putc fd c; Ret args.

(** [state] is true after a ['%'].  The loop ends at the NUL of [fmt]. *)
Fixpoint vprintf_loop (fd : Z) (fmt : list Z) (state : bool) (args : list uarg) : prog unit :=
  match fmt with
  | [] => Crash
  | c :: fmt =>
      if c =? 0 then Ret tt else
      if state then args ← convert fd c args; vprintf_loop fd fmt false args
      else if c =? 37 then vprintf_loop fd fmt true args
      else _ ← putc fd c; vprintf_loop fd fmt false args
  end.

Definition vprintf (fd : Z) (fmt : list Z) (args : list uarg) : prog unit :=
  vprintf_loop fd fmt false args.
Definition fprintf (fd : Z) (fmt : string) (args : list uarg) : prog unit :=
  vprintf fd (lit fmt) args.
Definition printf (fmt : string) (args : list uarg) : prog unit := vprintf 1 (lit fmt) args.

(** ** Specifications *)

(** An array with the bytes [l] stored from index [i] on. *)
Definition overwrite (a : list Z) (i : nat) (l : list Z) : list Z :=
  take i a ++ l ++ drop (i + length l) a.

Lemma put_ok a i v : (i < length a)%nat -> put a i v = Some (<[i := v]> a).
Proof. intros H. unfold put. by rewrite decide_True. Qed.

Lemma overwrite_cons a i c l :
  (i < length a)%nat -> overwrite a i (c :: l) = overwrite (<[i := c]> a) (S i) l.
Proof.
  intros H. unfold overwrite. simpl.
  rewrite (take_S_r _ _ c) by (by apply list_lookup_insert_eq).
  rewrite take_insert_ge, drop_insert_lt by lia. rewrite <- app_assoc. simpl.
  by rewrite Nat.add_succ_r.
Qed.

Lemma overwrite_snoc a i c l :
  (i + length l < length a)%nat ->
  overwrite a i (l ++ [c]) = overwrite (<[i + length l := c]> a)%nat i l.
Proof.
  intros H. unfold overwrite. rewrite length_app. simpl.
  rewrite take_insert_ge by lia. rewrite <- app_assoc. simpl. do 2 f_equal.
  rewrite (drop_S (<[_ := c]> a) c (i + length l)) by (apply list_lookup_insert_eq; lia).
  rewrite drop_insert_lt by lia. f_equal. f_equal. lia.
Qed.

Lemma overwrite_nil a i : overwrite a i [] = a.
Proof. unfold overwrite. simpl. rewrite Nat.add_0_r. apply take_drop. Qed.

Lemma length_overwrite a i l :
  (i + length l <= length a)%nat -> length (overwrite a i l) = length a.
Proof. intros H. unfold overwrite. rewrite !length_app, length_take, length_drop. lia. Qed.

Lemma move_up_ok n a dst src :
  (dst < src)%nat -> (src + n <= length a)%nat ->
  move_up a dst src n = Some (overwrite a dst (take n (drop src a))).
Proof.
  revert a dst src. induction n as [|n IH]; intros a dst src Hd Hn; simpl.
  { by rewrite overwrite_nil. }
  destruct (lookup_lt_is_Some_2 a src ltac:(lia)) as [c Hc]. rewrite Hc. simpl.
  rewrite put_ok by lia. simpl. rewrite IH by (rewrite ?length_insert; lia).
  rewrite drop_insert_lt by lia. rewrite (drop_S a c src Hc). simpl.
  by rewrite overwrite_cons by lia.
Qed.

Lemma move_down_ok n a dst src :
  (src <= dst)%nat -> (dst + n <= length a)%nat ->
  move_down a dst src n = Some (overwrite a dst (take n (drop src a))).
Proof.
  revert a. induction n as [|n IH]; intros a Hd Hn; simpl.
  { by rewrite overwrite_nil. }
  destruct (lookup_lt_is_Some_2 a (src + n) ltac:(lia)) as [c Hc]. rewrite Hc. simpl.
  rewrite put_ok by lia. simpl. rewrite IH by (rewrite ?length_insert; lia).
  rewrite (take_S_r _ n c) by (by rewrite lookup_drop).
  assert (Hl : length (take n (drop src a)) = n) by (rewrite length_take, length_drop; lia).
  rewrite overwrite_snoc by (rewrite Hl; lia). rewrite Hl. do 2 f_equal.
  apply list_eq. intros i. destruct (decide (i < n)%nat).
  - rewrite !lookup_take_lt, !lookup_drop by lia. apply list_lookup_insert_ne. lia.
  - rewrite !lookup_take_ge by lia. done.
Qed.

Lemma copy_to_ok n a dst src :
  (dst + n <= length a)%nat -> (n <= length src)%nat ->
  copy_to a dst src n = Some (overwrite a dst (take n src)).
Proof.
  revert a dst src. induction n as [|n IH]; intros a dst src Hd Hn; simpl.
  { by rewrite overwrite_nil. }
  destruct src as [|c src]; [simpl in Hn; lia|]. simpl in *. rewrite put_ok by lia. simpl.
  rewrite IH by (rewrite ?length_insert; lia). by rewrite overwrite_cons by lia.
Qed.

(** memmove() copies the [n] bytes at [src] as they were before the call,
    whether or not the two ranges overlap, and leaves the rest of the array. *)
Theorem memmove_overlapping (a : list Z) (dst src n : nat) :
  (dst + n <= length a)%nat -> (src + n <= length a)%nat ->
  memmove a dst src (Z.of_nat n) = Some (overwrite a dst (take n (drop src a))).
Proof.
  intros Hd Hs. unfold memmove. rewrite Nat2Z.id. case_decide.
  - apply move_up_ok; lia.
  - apply move_down_ok; lia.
Qed.

Lemma memmove_overlapping_witness :
  memmove [1; 2; 3; 4; 5] 1 0 3 = Some [1; 1; 2; 3; 5] ∧
  memmove [1; 2; 3; 4; 5] 0 2 3 = Some [3; 4; 5; 4; 5].
Proof.
  split.
  - refine (memmove_overlapping [1; 2; 3; 4; 5] 1 0 3 _ _); simpl; lia.
  - refine (memmove_overlapping [1; 2; 3; 4; 5] 0 2 3 _ _); simpl; lia.
Defined.

Lemma ucstr_ok l rest : Forall (λ c, c <> 0) l -> ucstr (l ++ 0 :: rest) = Some l.
Proof.
  induction 1 as [|c l Hc Hl IH]; [done|]. cbn [app ucstr]. destruct (Z.eqb_spec c 0); [done|].
  by rewrite IH.
Qed.

Lemma strlen_ok l rest : Forall (λ c, c <> 0) l -> strlen (l ++ 0 :: rest) = Some (length l).
Proof.
  induction 1 as [|c l Hc Hl IH]; [done|]. cbn [app strlen length]. destruct (Z.eqb_spec c 0); [done|].
  by rewrite IH.
Qed.

(** ** Numerals *)

(** Reading digits, most significant first. *)
Definition value (base : Z) (l : list Z) : Z := foldl (λ n d, n * base + d) 0 l.

(** The digits of [x] in [base], most significant first. *)
Fixpoint numeral_rev (n : nat) (x base : Z) : list Z :=
  match n with
  | O => []
  | S n => x mod base :: (if x / base =? 0 then [] else numeral_rev n (x / base) base)
  end.

Lemma udigits_rev_numeral n x base : digits_rev n x base = digits <$> numeral_rev n x base.
Proof.
  revert x. induction n as [|n IH]; intros x; simpl; [done|]. f_equal.
  destruct (x / base =? 0); [done|]. apply IH.
Qed.

Lemma numeral_rev_bound n x base :
  0 < base -> Forall (λ d, 0 <= d < base) (numeral_rev n x base).
Proof.
  intros Hb. revert x. induction n as [|n IH]; intros x; simpl; [constructor|].
  constructor; [apply Z.mod_pos_bound; lia|]. destruct (x / base =? 0); [constructor|apply IH].
Qed.

(** Dividing by the base uses up one of the [S k] digits [x] can have. *)
Lemma div_lt_pow base x k :
  0 < base -> 0 <= x < base ^ Z.of_nat (S k) -> 0 <= x / base < base ^ Z.of_nat k.
Proof.
  intros Hb Hx. rewrite Nat2Z.inj_succ, Z.pow_succ_r in Hx by lia.
  split; [apply Z.div_pos; lia|]. apply Z.div_lt_upper_bound; lia.
Qed.

Lemma numeral_rev_length n x base k :
  1 < base -> 0 <= x < base ^ Z.of_nat k -> (0 < k)%nat ->
  (length (numeral_rev n x base) <= k)%nat.
Proof.
  intros Hb. revert x k. induction n as [|n IH]; intros x k Hx Hk; simpl; [lia|].
  destruct (Z.eqb_spec (x / base) 0) as [E|E]; simpl; [lia|].
  destruct k as [|k]; [lia|]. apply div_lt_pow in Hx; [|lia].
  destruct k as [|k]; [change (base ^ Z.of_nat 0) with 1 in Hx; lia|].
  specialize (IH _ _ Hx ltac:(lia)). lia.
Qed.

Lemma value_snoc base l d : value base (l ++ [d]) = value base l * base + d.
Proof. unfold value. by rewrite foldl_app. Qed.

Lemma numeral_rev_value n x base :
  1 < base -> 0 <= x < base ^ Z.of_nat n -> value base (rev (numeral_rev n x base)) = x.
Proof.
  intros Hb. revert x. induction n as [|n IH]; intros x Hx; simpl.
  { change (base ^ Z.of_nat 0) with 1 in Hx. unfold value. simpl. lia. }
  rewrite value_snoc. apply div_lt_pow in Hx; [|lia]. pose proof (Z.div_mod x base ltac:(lia)).
  destruct (Z.eqb_spec (x / base) 0) as [E|E]; [unfold value; simpl; lia|].
  rewrite IH by lia. lia.
Qed.

(** atoi() on decimal digits computes their value as long as it is an int. *)
Lemma atoi_loop_digits l n rest :
  Forall (λ d, 0 <= d < 10) l -> 0 <= n ->
  foldl (λ n d, n * 10 + d) n l < 2 ^ 31 ->
  atoi_loop ((digits <$> l) ++ 0 :: rest) n = Some (foldl (λ n d, n * 10 + d) n l).
Proof.
  revert n. induction l as [|d l IH]; intros n Hl Hn Hb; simpl in *; [done|].
  apply Forall_cons in Hl as [Hd Hl].
  assert (Hmono : ∀ l m, Forall (λ d, 0 <= d < 10) l -> 0 <= m -> m <= foldl (λ n d, n * 10 + d) m l).
  { clear. intros l. induction l as [|d l IH]; intros m Hl Hm; simpl; [lia|].
    apply Forall_cons in Hl as [Hd Hl]. specialize (IH (m * 10 + d) Hl ltac:(lia)). lia. }
  specialize (Hmono l (n * 10 + d) Hl ltac:(lia)).
  assert (Ed : digits d = 48 + d).
  { unfold digits. by replace (d <? 10) with true by (symmetry; apply Z.ltb_lt; lia). }
  rewrite Ed.
  replace ((48 <=? 48 + d) && (48 + d <=? 57)) with true by (symmetry; apply andb_true_iff; lia).
  replace (n * 10 + (48 + d) - 48) with (n * 10 + d) by lia.
  rewrite i32_small by lia. apply IH; [done|lia|done].
Qed.

(** atoi() reads back what printint() prints for a non-negative int in
    decimal, and the digits fit in printint()'s 16-byte buffer. *)
Theorem printint_atoi (xx : Z) (rest : list Z) :
  0 <= xx < 2 ^ 31 ->
  (length (printint_buf xx 10 true) <= 16)%nat ∧
  atoi (printint_chars xx 10 true ++ 0 :: rest) = Some xx.
Proof.
  intros Hx. unfold printint_chars, printint_buf.
  replace (true && (xx <? 0)) with false by (symmetry; apply Z.ltb_ge; lia).
  rewrite u32_small, app_nil_r, udigits_rev_numeral by lia.
  assert (H10 : 2 ^ 31 < 10 ^ Z.of_nat 10) by reflexivity.
  assert (H32 : 2 ^ 31 < 10 ^ Z.of_nat 32) by reflexivity. split.
  - rewrite length_fmap.
    pose proof (numeral_rev_length 32 xx 10 10 ltac:(lia) ltac:(lia) ltac:(lia)). lia.
  - rewrite <- (List.map_rev digits). unfold atoi.
    pose proof (numeral_rev_value 32 xx 10 ltac:(lia) ltac:(lia)) as Hv. unfold value in Hv.
    rewrite atoi_loop_digits; [by rewrite Hv| |lia|rewrite Hv; lia].
    apply Forall_rev, numeral_rev_bound. lia.
Qed.

Lemma printint_atoi_witness :
  (length (printint_buf 2147483647 10 true) <= 16)%nat ∧
  atoi (printint_chars 2147483647 10 true ++ [0]) = Some 2147483647.
Proof. refine (printint_atoi 2147483647 [] _). lia. Defined.

(** ** What printf() writes *)

(** The program [p] writes exactly the bytes [l] to [fd], whatever the world. *)
Definition prints (fd : Z) (p : prog unit) (l : list Z) : Prop :=
  ∀ w, run streams p w = (Done tt, emit fd l w).

Lemma prints_ret fd : prints fd (Ret tt) [].
Proof. done. Qed.

Lemma prints_putc fd c : prints fd (putc fd c) [u8 c].
Proof. done. Qed.

Lemma prints_seq fd p q l1 l2 :
  prints fd p l1 -> prints fd q l2 -> prints fd (_ ← p; q) (l1 ++ l2).
Proof. intros H1 H2 w. by rewrite (run_bind_done _ _ _ _ _ _ (H1 w)), H2, emit_emit. Qed.

Lemma prints_ufor fd l : prints fd (ufor l (putc fd)) (u8 <$> l).
Proof.
  induction l as [|c l IH]; [apply prints_ret|].
  exact (prints_seq fd _ _ [u8 c] _ (prints_putc fd c) IH).
Qed.

Lemma printint_fits xx base sgn :
  10 <= base -> (length (printint_buf xx base sgn) <= 16)%nat.
Proof.
  intros Hb. unfold printint_buf. rewrite length_app, udigits_rev_numeral, length_fmap.
  assert (H : ∀ x, (length (numeral_rev 32 (u32 x) base) <= 10)%nat).
  { intros x. apply numeral_rev_length; [lia| |lia]. pose proof (u32_range x).
    pose proof (Z.pow_le_mono_l 10 base (Z.of_nat 10) ltac:(lia)) as Hp.
    assert (2 ^ 32 < 10 ^ Z.of_nat 10) by reflexivity. lia. }
  pose proof (H xx). pose proof (H (- xx)).
  destruct (sgn && (xx <? 0)).
  - change (length [45]) with 1%nat. lia.
  - change (length (@nil Z)) with 0%nat. lia.
Qed.

(** The text of a format and its arguments. *)
Definition conversion (c : Z) (args : list uarg) : option (list Z * list uarg) :=
  if (c =? 100) || (c =? 108) || (c =? 120) || (c =? 112) || (c =? 99) then
    match args with
    | A_int v :: args =>
        Some (if c =? 100 then printint_chars (i32 v) 10 true
              else if c =? 108 then printint_chars (i32 v) 10 false
              else if c =? 120 then printint_chars (i32 v) 16 false
              else if c =? 112 then 48 :: 120 :: printptr_chars 16 (u64 v)
              else [v], args)
    | _ => None
    end
  else if c =? 115 then
    match args with
    | A_str s :: args => (λ l, (l, args)) <$> ucstr (default (lit "(null)") s)
    | _ => None
    end
  else if c =? 37 then Some ([c], args) else Some ([37; c], args).

Fixpoint format (fmt : list Z) (state : bool) (args : list uarg) : option (list Z) :=
  match fmt with
  | [] => None
  | c :: fmt =>
      if c =? 0 then Some [] else
      if state then '(l, args) ← conversion c args; app l <$> format fmt false args
      else if c =? 37 then format fmt true args
      else cons c <$> format fmt false args
  end.

(** The bytes [l] to [fd], one system call each *)
Definition puts (fd : Z) (l : list Z) : prog unit := ufor l (putc fd).

Lemma run_puts_app {W} (h : kernel W) fd l1 l2 w :
  run h (puts fd (l1 ++ l2)) w = run h (_ ← puts fd l1; puts fd l2) w.
Proof.
  revert w. induction l1 as [|c l1 IH]; intros w; [done|].
  cbn [app puts ufor]. rewrite !run_then. fold (puts fd (l1 ++ l2)). fold (puts fd l1).
  destruct (run h (putc fd c) w) as [[] w1]; try done. by rewrite IH, run_then.
Qed.

(** Whatever the kernel, printf() does what writing the text does. *)
Lemma convert_puts {W} (h : kernel W) fd c args l args' w :
  conversion c args = Some (l, args') ->
  run h (convert fd c args) w = run h (_ ← puts fd l; Ret args') w.
Proof.
  unfold conversion, convert. intros H.
  repeat case_match; simplify_eq; try done.
  all: try (rewrite !run_then; unfold printint; rewrite decide_True by (apply printint_fits; lia); done).
  apply fmap_Some in H as (l1 & H & [= -> ->]). by rewrite H.
Qed.

Lemma vprintf_puts {W} (h : kernel W) fd fmt state args l w :
  format fmt state args = Some l ->
  run h (vprintf_loop fd fmt state args) w = run h (puts fd l) w.
Proof.
  revert state args l w. induction fmt as [|c fmt IH]; intros state args l w; cbn [vprintf_loop format]; [done|].
  destruct (c =? 0); [by intros [= <-]|]. destruct state.
  - destruct (conversion c args) as [[l1 args']|] eqn:E; simpl; [|done].
    intros (l2 & Hf & ->)%fmap_Some. rewrite run_puts_app, !run_then, (convert_puts _ _ _ _ _ _ _ E), run_then.
    destruct (run h (puts fd l1) w) as [[] w1]; try done. simpl. by apply IH.
  - destruct (c =? 37); [apply IH|]. intros (l2 & Hf & ->)%fmap_Some.
    cbn [puts ufor]. rewrite !run_then. fold (puts fd l2).
    destruct (run h (putc fd c) w) as [[] w1]; try done. by apply (IH false).
Qed.

Lemma printf_puts {W} (h : kernel W) fmt args l w :
  format (lit fmt) false args = Some l -> run h (printf fmt args) w = run h (puts 1 l) w.
Proof. apply vprintf_puts. Qed.

Lemma vprintf_streams fd fmt state args l w :
  format fmt state args = Some l ->
  run streams (vprintf_loop fd fmt state args) w = (Done tt, emit fd (u8 <$> l) w).
Proof. intros H. rewrite (vprintf_puts _ _ _ _ _ _ _ H). apply prints_ufor. Qed.
