(* ===== verification/Umalloc.v ===== *)
(** * user/umalloc.c: malloc() and free()

    The free blocks form a circular list in address order.  The heap is the
    map from the address of each [Header] that has been written to its fields
    ([s.ptr], [s.size]), with the static variable [freep]; [base] is the
    address of the static header of that name.  Pointer arithmetic on
    [Header *] is in units of 16 bytes.

    The theorems show that the free list stays well formed and that the blocks
    handed out never overlap each other or the free blocks, for every sequence
    of calls; free() gives back exactly the units malloc() took. *)

From Stdlib Require Import ZArith Lia.
From stdpp Require Import base numbers list gmap sorting.
From S2P Require Import Prelude User.

(** [union header]'s fields *)
Record header := Header { s_ptr : Z; s_size : Z }.

Record heap := Heap { hdr : gmap Z header; freep : Z }.

(** [p + n] on [Header *] *)
Definition padd (p n : Z) : Z := p + 16 * n.

Definition ptr (h : heap) (p : Z) : option Z := s_ptr <$> hdr h !! p.
Definition size (h : heap) (p : Z) : option Z := s_size <$> hdr h !! p.

(** Assignments to one field; the other keeps its value (of a header not
    written before, 0: it is not read before it is written). *)
Definition set_ptr (h : heap) (p v : Z) : heap :=
  Heap (<[p := Header v (default 0 (size h p))]> (hdr h)) (freep h).
Definition set_size (h : heap) (p v : Z) : heap :=
  Heap (<[p := Header (default 0 (ptr h p)) v]> (hdr h)) (freep h).
Definition set_freep (h : heap) (p : Z) : heap := Heap (hdr h) p.

(** The loop of free(): the block after which [bp] belongs. *)
Fixpoint find_slot (n : nat) (h : heap) (bp p : Z) : option Z :=
  match n with
  | O => None
  | S n =>
      q ← ptr h p;
      if (p <? bp) && (bp <? q) then Some p else
      if (q <=? p) && ((p <? bp) || (bp <? q)) then Some p else
      find_slot n h bp q
  end.

(** [if(bp + bp->s.size == p->s.ptr) ... else ...] *)
Definition join_upper (h : heap) (bp p : Z) : option heap :=
  q ← ptr h p;
  sb ← size h bp;
  if padd bp sb =? q then
    sq ← size h q;
    qq ← ptr h q;
    Some (set_ptr (set_size h bp (u32 (sb + sq))) bp qq)
  else Some (set_ptr h bp q).

(** [if(p + p->s.size == bp) ... else ...] *)
Definition join_lower (h : heap) (bp p : Z) : option heap :=
  sp ← size h p;
  if padd p sp =? bp then
    sb ← size h bp;
    pb ← ptr h bp;
    Some (set_ptr (set_size h p (u32 (sp + sb))) p pb)
  else Some (set_ptr h p bp).

(** free(); at most [n] rounds of its loop. *)
Definition free (n : nat) (h : heap) (ap : Z) : option heap :=
  let bp := padd ap (-1) in
  p ← find_slot n h bp (freep h);
  h ← join_upper h bp p;
  h ← join_lower h bp p;
  Some (set_freep h p).

(** morecore(): the new [freep], or 0, and the heap. *)
Definition morecore (n : nat) (h : heap) (nu : Z) : prog (Z * heap) :=
  let nu := if nu <? 4096 then 4096 else nu in
  p ← call (sbrk (i32 (nu * 16)));
  if p =? -1 then Ret (0, h) else
  let h := set_size h p nu in
  h ← need (free n h (padd p 1));
  Ret (freep h, h).

(** malloc() found a block [p] of size [sp] that is large enough. *)
Definition take_block (h : heap) (prevp p sp nunits : Z) : option (Z * heap) :=
  '(p, h) ←
    (if sp =? nunits then q ← ptr h p; Some (p, set_ptr h prevp q)
     else
       let h := set_size h p (u32 (sp - nunits)) in
       let p := padd p (u32 (sp - nunits)) in
       Some (p, set_size h p nunits));
  Some (padd p 1, set_freep h prevp).

(** One round of malloc()'s loop; the result is the pointer returned. *)
Definition malloc_body (n : nat) (nunits : Z) (s : Z * Z * heap) :
    prog ((Z * Z * heap) + (Z * heap)) :=
  let '(prevp, p, h) := s in
  sp ← need (size h p);
  if nunits <=? sp then r ← need (take_block h prevp p sp nunits); Ret (inr r) else
  if p =? freep h then
    '(p, h) ← morecore n h nunits;
    if p =? 0 then Ret (inr (0, h)) else
    q ← need (ptr h p);
    Ret (inl (p, q, h))
  else
  q ← need (ptr h p);
  Ret (inl (p, q, h)).

(** malloc(); [n] bounds the rounds of each loop. *)
Definition malloc (base : Z) (n : nat) (h : heap) (nbytes : Z) : prog (Z * heap) :=
  let nunits := u32 ((nbytes + 16 - 1) / 16 + 1) in
  let h := if freep h =? 0
           then set_freep (Heap (<[base := Header base 0]> (hdr h)) (freep h)) base else h in
  let prevp := freep h in
  p ← need (ptr h prevp);
  uloop n (malloc_body n nunits) (prevp, p, h).

(** ** The free list

    A block is its address and its size in units. *)

Notation block := (Z * Z)%type (only parsing).
Definition before (b c : block) : Prop := padd b.1 b.2 < c.1.
Definition apart (b c : block) : Prop := padd b.1 b.2 <= c.1 ∨ padd c.1 c.2 <= b.1.

(** The address of the first block of [l], or [nxt]. *)
Definition first (l : list block) (nxt : Z) : Z := match l with [] => nxt | b :: _ => b.1 end.

(** The headers of the blocks [l] chain them in this order, the last to [nxt]. *)
Fixpoint linked (m : gmap Z header) (l : list block) (nxt : Z) : Prop :=
  match l with
  | [] => True
  | b :: l => m !! b.1 = Some (Header (first l nxt) b.2) ∧ linked m l nxt
  end.

Lemma free_linked_app m l1 l2 nxt :
  linked m (l1 ++ l2) nxt <-> linked m l1 (first l2 nxt) ∧ linked m l2 nxt.
Proof.
  induction l1 as [|b l1 IH]; simpl; [tauto|]. rewrite IH.
  assert (E : first (l1 ++ l2) nxt = first l1 (first l2 nxt)) by (by destruct l1). rewrite E. tauto.
Qed.

Lemma linked_insert m l nxt a x : a ∉ l.*1 -> linked m l nxt -> linked (<[a := x]> m) l nxt.
Proof.
  induction l as [|b l IH]; simpl; [done|]. intros Ha [Hb Hl].
  rewrite not_elem_of_cons in Ha. destruct Ha as [Hne Ha]. split; [|by apply IH].
  by rewrite lookup_insert_ne.
Qed.

Section find_slot.
Context (h : heap) (base bp : Z).

(** Walking from a block below [bp] up to the last one below it. *)
Lemma find_slot_low Y a s R n :
  linked (hdr h) (Y ++ (a, s) :: R) base ->
  StronglySorted Z.lt (Y ++ (a, s) :: R).*1 ->
  Forall (λ b, b.1 < bp) (Y ++ [(a, s)]) -> Forall (λ b, bp < b.1) R -> base <= a ->
  (length Y < n)%nat -> find_slot n h bp (first (Y ++ (a, s) :: R) base) = Some a.
Proof.
  revert n. induction Y as [|[c x] Y IH]; intros n Hl Hs Hlow Hhigh Hbase Hn;
    destruct n as [|n]; try lia; cbn [find_slot app first fst].
  - destruct Hl as [Ha _]. cbn [fst snd] in Ha. unfold ptr. rewrite Ha. cbn [fmap option_fmap option_map mbind option_bind s_ptr].
    apply Forall_cons in Hlow as [Hlow _]. cbn [fst] in Hlow.
    destruct R as [|[b y] R]; cbn [first fst].
    + replace (bp <? base) with false by (symmetry; apply Z.ltb_ge; lia). rewrite andb_false_r.
      replace (base <=? a) with true by (symmetry; apply Z.leb_le; lia).
      by replace (a <? bp) with true by (symmetry; apply Z.ltb_lt; lia).
    + apply Forall_cons in Hhigh as [Hb _]. cbn [fst] in Hb.
      replace (a <? bp) with true by (symmetry; apply Z.ltb_lt; lia).
      by replace (bp <? b) with true by (symmetry; apply Z.ltb_lt; lia).
  - destruct Hl as [Hc Hl]. cbn [fst snd] in Hc. unfold ptr. rewrite Hc.
    cbn [fmap option_fmap option_map mbind option_bind s_ptr].
    cbn [app] in Hlow, Hs. apply Forall_cons in Hlow as [Hclow Hlow].
    assert (Hq : c < first (Y ++ (a, s) :: R) base < bp).
    { cbn [fmap list_fmap fst] in Hs. apply StronglySorted_inv in Hs as [_ Hs].
      destruct Y as [|[d y] Y]; cbn [app first fst fmap list_fmap] in *;
        apply Forall_cons in Hs as [Hs _]; apply Forall_cons in Hlow as [Hlow _]; simpl in *; lia. }
    replace (bp <? first (Y ++ (a, s) :: R) base) with false by (symmetry; apply Z.ltb_ge; lia).
    rewrite andb_false_r.
    replace (first (Y ++ (a, s) :: R) base <=? c) with false by (symmetry; apply Z.leb_gt; lia).
    cbn [andb]. apply IH; try done; [|simpl in Hn; lia].
    cbn [fmap list_fmap] in Hs. by apply StronglySorted_inv in Hs as [? _].
Qed.

(** Walking from a block above [bp] past the end of the list. *)
Lemma find_slot_high R n :
  linked (hdr h) R base -> StronglySorted Z.lt R.*1 -> Forall (λ b, bp < b.1) R -> base < bp ->
  find_slot (length R + n) h bp (first R base) = find_slot n h bp base.
Proof.
  induction R as [|[c x] R IH]; intros Hl Hs Hhigh Hbase; [done|].
  cbn [length Nat.add find_slot first fst]. destruct Hl as [Hc Hl]. cbn [fst snd] in Hc.
  unfold ptr. rewrite Hc. cbn [fmap option_fmap option_map mbind option_bind s_ptr].
  apply Forall_cons in Hhigh as [Hch Hhigh]. cbn [fst] in Hch.
  cbn [fmap list_fmap fst] in Hs. apply StronglySorted_inv in Hs as [Hs Hs'].
  replace (c <? bp) with false by (symmetry; apply Z.ltb_ge; lia). cbn [andb orb].
  assert (Hq : (first R base <=? c) && (bp <? first R base) = false).
  { apply andb_false_iff. destruct R as [|[d y] R]; cbn [first fst] in *.
    - right. apply Z.ltb_ge. lia.
    - left. cbn [fmap list_fmap fst] in Hs'. apply Forall_cons in Hs' as [Hs' _]. apply Z.leb_gt. lia. }
  rewrite Hq. by apply IH.
Qed.

Lemma find_slot_ok Y a s R n p :
  linked (hdr h) (Y ++ (a, s) :: R) base ->
  StronglySorted Z.lt (Y ++ (a, s) :: R).*1 ->
  Forall (λ b, b.1 < bp) (Y ++ [(a, s)]) -> Forall (λ b, bp < b.1) R ->
  first (Y ++ (a, s) :: R) base = base -> p ∈ (Y ++ (a, s) :: R).*1 ->
  (length (Y ++ (a, s) :: R) <= n)%nat -> find_slot n h bp p = Some a.
Proof.
  intros Hl Hs Hlow Hhigh Hfirst Hp Hn. rewrite length_app in Hn. simpl in Hn.
  assert (Hbase : base <= a ∧ base < bp).
  { rewrite <- Hfirst. destruct Y as [|[c x] Y]; cbn [app first fst] in *.
    - apply Forall_cons in Hlow as [Hlow _]. simpl in Hlow. lia.
    - apply Forall_cons in Hlow as [Hc Hlow]. simpl in Hc. split; [|lia].
      cbn [fmap list_fmap fst] in Hs. apply StronglySorted_inv in Hs as [_ Hs].
      rewrite fmap_app in Hs. apply Forall_app in Hs as [_ Hs]. cbn [fmap list_fmap fst] in Hs.
      apply Forall_cons in Hs as [Hs _]. lia. }
  rewrite fmap_app in Hp. apply elem_of_app in Hp as [Hp|Hp].
  2: cbn [fmap list_fmap fst] in Hp; apply elem_of_cons in Hp as [->|Hp].
  - apply list_elem_of_fmap in Hp as ((c & x) & -> & Hp). apply list_elem_of_split in Hp as (Y1 & Y2 & ->).
    rewrite <- app_assoc in Hl, Hs, Hlow. cbn [app] in Hl, Hs, Hlow.
    apply free_linked_app in Hl as [_ Hl]. rewrite fmap_app in Hs.
    apply StronglySorted_app_1_r in Hs. apply Forall_app in Hlow as [_ Hlow].
    rewrite !length_app in Hn. simpl in Hn.
    apply (find_slot_low ((c, x) :: Y2) a s R n Hl Hs Hlow Hhigh); [lia|simpl; lia].
  - apply free_linked_app in Hl as [_ Hl]. rewrite fmap_app in Hs. apply StronglySorted_app_1_r in Hs.
    apply Forall_app in Hlow as [_ Hlow].
    apply (find_slot_low [] a s R n Hl Hs Hlow Hhigh); [lia|simpl; lia].
  - apply list_elem_of_fmap in Hp as ((c & x) & -> & Hp). apply list_elem_of_split in Hp as (R1 & R2 & ->).
    pose proof Hl as Hl0. pose proof Hs as Hs0.
    apply free_linked_app in Hl as [_ [_ Hl]]. apply free_linked_app in Hl as [_ Hl].
    rewrite fmap_app in Hs. apply StronglySorted_app_1_r in Hs. cbn [fmap list_fmap] in Hs.
    apply StronglySorted_inv in Hs as [Hs _]. rewrite fmap_app in Hs. apply StronglySorted_app_1_r in Hs.
    pose proof Hhigh as Hhigh0. apply Forall_app in Hhigh as [_ Hhigh].
    rewrite !length_app in Hn. simpl in Hn.
    pose proof (find_slot_high _ (n - length ((c, x) :: R2)) Hl Hs Hhigh ltac:(lia)) as E.
    replace (length ((c, x) :: R2) + _)%nat with n in E by (simpl; lia). cbn [first fst] in E.
    cbn [fst]. rewrite E. rewrite <- Hfirst at 1. apply find_slot_low; try done; [lia|simpl; lia].
Qed.
End find_slot.

(** ** The allocator's invariant

    [F] are the free blocks in address order, [B] the blocks handed out (their
    address and size); all lie between [base] and [top], the end of the
    process's memory. *)
Record wf (base top : Z) (h : heap) (F : list block) (B : gmap Z Z) : Prop := {
  wf_link : linked (hdr h) ((base, 0) :: F) base;
  wf_sort : StronglySorted before ((base, 0) :: F);
  wf_freep : freep h ∈ base :: F.*1;
  wf_free : Forall (λ b, base + 16 <= b.1 ∧ 0 < b.2 ∧ padd b.1 b.2 <= top) F;
  wf_used : ∀ a s, B !! a = Some s ->
    base + 16 <= a ∧ 0 < s ∧ padd a s <= top ∧ size h a = Some s ∧ Forall (apart (a, s)) F;
  wf_apart : ∀ a s a' s', B !! a = Some s -> B !! a' = Some s' -> a <> a' -> apart (a, s) (a', s');
  wf_top : 0 < base ∧ base + 16 <= top ∧ top <= 2 ^ 36
}.

(** The number of free units. *)
Definition units (F : list block) : Z := foldr (λ b n, b.2 + n) 0 F.

Lemma units_app F G : units (F ++ G) = units F + units G.
Proof. unfold units. induction F as [|b F IH]; simpl; [done|]. rewrite IH. lia. Qed.

Lemma before_addresses base top F :
  Forall (λ b, base + 16 <= b.1 ∧ 0 < b.2 ∧ padd b.1 b.2 <= top) F ->
  StronglySorted before ((base, 0) :: F) -> StronglySorted Z.lt ((base, 0) :: F).*1.
Proof.
  intros HF. assert (H0 : Forall (λ b : block, 0 <= b.2) ((base, 0) :: F)).
  { constructor; [simpl; lia|]. eapply Forall_impl; [exact HF|]. simpl. lia. }
  revert H0. generalize ((base, 0) :: F). clear. intros L H0 Hs.
  induction Hs as [|b L Hs IH Hb]; [constructor|]. apply Forall_cons in H0 as [Hb0 H0].
  cbn [fmap list_fmap]. constructor; [by apply IH|]. apply Forall_fmap.
  eapply Forall_impl; [exact Hb|]. unfold before, padd. simpl. lia.
Qed.

(** Where a block that overlaps no free block belongs. *)
Lemma split_apart bp s F :
  StronglySorted before F -> Forall (λ b, 0 < b.2) F -> 0 < s -> Forall (apart (bp, s)) F ->
  ∃ F1 F2, F = F1 ++ F2 ∧ Forall (λ b, padd b.1 b.2 <= bp) F1 ∧ Forall (λ b, padd bp s <= b.1) F2.
Proof.
  intros Hs H0 Hsz Ha. induction Hs as [|b F Hs IH Hb].
  { by exists [], []. }
  apply Forall_cons in H0 as [Hb0 H0]. apply Forall_cons in Ha as [Hab Ha].
  destruct Hab as [Hab|Hab]; simpl in Hab.
  - exists [], (b :: F). split_and!; [done|constructor|]. constructor; [done|].
    eapply Forall_impl; [exact Hb|]. unfold before, padd in *. simpl. lia.
  - destruct (IH H0 Ha) as (F1 & F2 & -> & H1 & H2). exists (b :: F1), F2. split_and!; [done| |done].
    by constructor.
Qed.

Lemma apart_sym b c : apart b c -> apart c b.
Proof. unfold apart. tauto. Qed.

(** The two assignments to the fields of one header. *)
Lemma set_both h p v q : set_ptr (set_size h p v) p q = Heap (<[p := Header q v]> (hdr h)) (freep h).
Proof.
  unfold set_ptr, set_size, size. simpl. rewrite lookup_insert_eq. simpl. by rewrite insert_insert_eq.
Qed.

Lemma set_ptr_known h p v s :
  size h p = Some s -> set_ptr h p v = Heap (<[p := Header v s]> (hdr h)) (freep h).
Proof. intros H. unfold set_ptr. by rewrite H. Qed.

Lemma padd_padd p m n : padd (padd p m) n = padd p (m + n).
Proof. unfold padd. lia. Qed.

(** Two adjacent blocks are apart from what each of them is apart from. *)
Lemma apart_join c a s t :
  0 < c.2 -> 0 < s -> 0 < t -> apart c (a, s) -> apart c (padd a s, t) -> apart c (a, s + t).
Proof. unfold apart, padd. simpl. lia. Qed.

Lemma join_upper_ok base top h bp p s F2 :
  linked (hdr h) F2 base -> StronglySorted before F2 ->
  Forall (λ b, base + 16 <= b.1 ∧ 0 < b.2 ∧ padd b.1 b.2 <= top) F2 ->
  Forall (λ b, padd bp s <= b.1) F2 ->
  ptr h p = Some (first F2 base) -> size h bp = Some s ->
  0 < base -> base + 16 <= bp -> 0 < s -> padd bp s <= top -> top <= 2 ^ 36 ->
  ∃ s1 F3 G, F2 = G ++ F3 ∧
    join_upper h bp p = Some (Heap (<[bp := Header (first F3 base) s1]> (hdr h)) (freep h)) ∧
    Forall (before (bp, s1)) F3 ∧ s <= s1 ∧ padd bp s1 <= top ∧ units F3 + s1 = units F2 + s ∧
    (∀ c, 0 < c.2 -> apart c (bp, s) -> Forall (apart c) F2 -> apart c (bp, s1)).
Proof.
  intros Hl Hs HF Hhigh Hp Hbp Hb0 Hb Hs0 Htop Hmax. unfold join_upper. rewrite Hp, Hbp.
  cbn [mbind option_bind]. destruct (Z.eqb_spec (padd bp s) (first F2 base)) as [E|E].
  - destruct F2 as [|[q sq] F3]; cbn [first fst] in E; [unfold padd in E; lia|]. subst q.
    destruct Hl as [Hq Hl]. cbn [fst snd] in Hq. apply Forall_cons in HF as [Hq0 HF]. simpl in Hq0.
    apply StronglySorted_inv in Hs as [Hs Hq1]. unfold ptr, size. cbn [first fst]. rewrite Hq. simpl.
    rewrite set_both, u32_small by (unfold padd in *; lia).
    exists (s + sq), F3, [(padd bp s, sq)]. split_and!; [done|done| |lia| |simpl; lia|].
    + eapply Forall_impl; [exact Hq1|]. intros b. unfold before. simpl. by rewrite padd_padd.
    + rewrite <- padd_padd. lia.
    + intros c Hc Ha [Hq2 _]%Forall_cons. apply apart_join; [done|done|lia|done|done].
  - rewrite (set_ptr_known _ _ _ _ Hbp). exists s, F2, []. split_and!; [done|done| |lia|lia|lia|done].
    destruct F2 as [|b F2]; [constructor|]. cbn [first] in E.
    apply Forall_cons in Hhigh as [Hb1 _]. apply StronglySorted_inv in Hs as [_ Hb2].
    apply Forall_cons in HF as [HF _].
    constructor; [unfold before; simpl; lia|].
    eapply Forall_impl; [exact Hb2|]. unfold before, padd in *. simpl. lia.
Qed.

Lemma join_lower_ok top h bp p sp s1 nxt :
  hdr h !! bp = Some (Header nxt s1) -> size h p = Some sp ->
  0 < p -> 0 <= sp -> 0 < s1 -> padd p sp <= bp -> padd bp s1 <= top -> top <= 2 ^ 36 ->
  (padd p sp = bp ∧
   join_lower h bp p = Some (Heap (<[p := Header nxt (sp + s1)]> (hdr h)) (freep h))) ∨
  (padd p sp < bp ∧
   join_lower h bp p = Some (Heap (<[p := Header bp sp]> (hdr h)) (freep h))).
Proof.
  intros Hbp Hp Hp0 Hsp Hs1 Hlow Htop Hmax. unfold join_lower. rewrite Hp. cbn [mbind option_bind].
  destruct (Z.eqb_spec (padd p sp) bp) as [E|E].
  - left. split; [done|]. unfold size at 1, ptr at 1. rewrite Hbp. simpl.
    by rewrite set_both, u32_small by (unfold padd in *; lia).
  - right. split; [lia|]. by rewrite (set_ptr_known _ _ _ _ Hp).
Qed.

Lemma padd_inv p : padd (padd p 1) (-1) = p.
Proof. unfold padd. lia. Qed.

(** A list of blocks ends in some block, the [base] header if it has no other. *)
Lemma snoc_base (base : Z) (F1 : list block) : ∃ P p sp, (base, 0) :: F1 = P ++ [(p, sp)].
Proof.
  destruct (exists_last (l := (base, 0) :: F1)) as (P & [p sp] & E); [done|]. by exists P, p, sp.
Qed.

Section insert_block.
Context (base top : Z) (h : heap) (F : list block) (B : gmap Z Z) (bp s : Z).
Context (Hwf : wf base top h F B).
Context (Hb : base + 16 <= bp) (Hs : 0 < s) (Htop : padd bp s <= top) (Hsize : size h bp = Some s).
Context (HF : Forall (apart (bp, s)) F).
Context (HB : ∀ a t, B !! a = Some t -> apart (a, t) (bp, s)).

(** The place of the block in the list: after [P] and [(p, sp)], before [F2]. *)
Lemma block_place :
  ∃ P p sp F2, (base, 0) :: F = P ++ (p, sp) :: F2 ∧
    Forall (λ b, padd b.1 b.2 <= bp ∧ 0 <= b.2 ∧ base <= b.1 ∧ b.1 < bp) (P ++ [(p, sp)]) ∧
    Forall (λ b, padd bp s <= b.1) F2 ∧ Forall (λ b, base + 16 <= b.1 ∧ 0 < b.2 ∧ padd b.1 b.2 <= top) F2.
Proof using Hwf Hb Hs HF.
  destruct Hwf as [_ Hsort _ Hfree _ _ _].
  apply StronglySorted_inv in Hsort as [Hsort _].
  destruct (split_apart bp s F Hsort ltac:(eapply Forall_impl; [exact Hfree|]; simpl; lia) Hs HF)
    as (F1 & F2 & -> & H1 & H2).
  apply Forall_app in Hfree as [Hf1 Hf2].
  destruct (snoc_base base F1) as (P & p & sp & E). exists P, p, sp, F2. split_and!; [| |done|done].
  - change ((base, 0) :: F1 ++ F2) with (((base, 0) :: F1) ++ F2). by rewrite E, <- app_assoc.
  - rewrite <- E. constructor; [unfold padd; simpl; lia|].
    rewrite Forall_forall in H1, Hf1. rewrite Forall_forall. intros b Hbin.
    specialize (H1 b Hbin). specialize (Hf1 b Hbin). unfold padd in *. simpl in *. lia.
Qed.

(** free() of the block: the list [P ++ M ++ F3] with the block in [M]. *)
Lemma free_shape n :
  (S (length F) <= n)%nat ->
  ∃ P p sp F3 G s1 M x, (base, 0) :: F = P ++ (p, sp) :: G ++ F3 ∧
    free n h (padd bp 1) = Some (Heap (<[p := x]> (<[bp := Header (first F3 base) s1]> (hdr h))) p) ∧
    ((padd p sp = bp ∧ x = Header (first F3 base) (sp + s1) ∧ M = [(p, sp + s1)]) ∨
     (padd p sp < bp ∧ x = Header bp sp ∧ M = [(p, sp); (bp, s1)])) ∧
    Forall (λ b, b.1 < bp) (P ++ [(p, sp)]) ∧ Forall (λ b, padd bp s <= b.1) (G ++ F3) ∧
    Forall (before (bp, s1)) F3 ∧ s <= s1 ∧ padd bp s1 <= top ∧ units F3 + s1 = units (G ++ F3) + s ∧
    (∀ c, 0 < c.2 -> apart c (bp, s) -> Forall (apart c) (G ++ F3) -> apart c (bp, s1)).
Proof using Hwf Hb Hs HF Htop Hsize.
  intros Hn. destruct block_place as (P & p & sp & F2 & EL & Hlow & Hhigh & HF2).
  pose proof Hwf as [Hlink Hsort Hfreep Hfree _ _ (Hbase & _ & Hmax)].
  pose proof (before_addresses base top F Hfree Hsort) as Haddr.
  assert (Hlow1 : Forall (λ b, b.1 < bp) (P ++ [(p, sp)])) by (eapply Forall_impl; [exact Hlow|]; simpl; lia).
  assert (Hp : padd p sp <= bp ∧ 0 <= sp ∧ base <= p ∧ p < bp).
  { apply Forall_app in Hlow as [_ Hlow]. by apply Forall_cons in Hlow as [Hlow _]. }
  assert (Hslot : find_slot n h bp (freep h) = Some p).
  { assert (Hhigh1 : Forall (λ b, bp < b.1) F2).
    { eapply Forall_impl; [exact Hhigh|]. unfold padd. simpl. lia. }
    apply (find_slot_ok h base bp P p sp F2 n); [..|done|exact Hhigh1| | |]; by rewrite <- EL. }
  rewrite EL in Hlink, Hsort. apply free_linked_app in Hlink as [_ [Hhp HlF2]]. cbn [fst snd] in Hhp.
  apply StronglySorted_app in Hsort as (_ & _ & Hsort). apply StronglySorted_inv in Hsort as [Hsort _].
  assert (Hptr : ptr h p = Some (first F2 base)) by (unfold ptr; by rewrite Hhp).
  destruct (join_upper_ok base top h bp p s F2 HlF2 Hsort HF2 Hhigh Hptr Hsize Hbase Hb Hs Htop Hmax)
    as (s1 & F3 & G & -> & Hup & Hbef & Hs1 & Htop1 & Hun & Hap).
  set (h1 := Heap (<[bp := Header (first F3 base) s1]> (hdr h)) (freep h)) in *.
  assert (Hp1 : size h1 p = Some sp).
  { unfold size, h1. simpl. rewrite lookup_insert_ne by lia. by rewrite Hhp. }
  assert (Hbp1 : hdr h1 !! bp = Some (Header (first F3 base) s1)) by (simpl; apply lookup_insert_eq).
  unfold free. rewrite padd_inv, Hslot. cbn [mbind option_bind]. rewrite Hup. cbn [mbind option_bind].
  destruct (join_lower_ok top h1 bp p sp s1 _ Hbp1 Hp1 ltac:(lia) ltac:(lia) ltac:(lia) ltac:(lia) Htop1 Hmax)
    as [[E Hlw]|[E Hlw]]; rewrite Hlw; cbn [mbind option_bind];
    eexists P, p, sp, F3, G, s1, _, _; split_and!; try done; [by left|by right].
Qed.

(** The headers after free() chain the new list. *)
Lemma relinked P p sp G F3 s1 x M :
  (base, 0) :: F = P ++ (p, sp) :: G ++ F3 ->
  ((padd p sp = bp ∧ x = Header (first F3 base) (sp + s1) ∧ M = [(p, sp + s1)]) ∨
   (padd p sp < bp ∧ x = Header bp sp ∧ M = [(p, sp); (bp, s1)])) ->
  Forall (λ b, b.1 < bp) (P ++ [(p, sp)]) -> Forall (λ b, padd bp s <= b.1) (G ++ F3) ->
  linked (<[p := x]> (<[bp := Header (first F3 base) s1]> (hdr h))) (P ++ M ++ F3) base.
Proof.
  intros EL HM Hlow Hhigh. pose proof Hwf as [Hlink Hsort _ Hfree _ _ _].
  pose proof (before_addresses base top F Hfree Hsort) as Haddr. rewrite EL in Haddr, Hlink.
  rewrite fmap_app in Haddr. cbn [fmap list_fmap fst] in Haddr.
  apply StronglySorted_app in Haddr as (HPp & _ & Haddr). apply StronglySorted_inv in Haddr as [_ Hp].
  apply free_linked_app in Hlink as [HlP [_ Hl3]]. apply free_linked_app in Hl3 as [_ Hl3].
  rewrite fmap_app in Hp. apply Forall_app in Hp as [_ Hp3]. apply Forall_app in Hhigh as [_ Hhigh3].
  apply Forall_app in Hlow as [HlowP Hlowp]. apply Forall_cons in Hlowp as [Hlowp _]. cbn [fst] in Hlowp.
  rewrite Forall_forall in HlowP, Hhigh3. rewrite Forall_forall in Hp3.
  assert (Hins : ∀ l nxt, p ∉ l.*1 -> bp ∉ l.*1 -> linked (hdr h) l nxt ->
    linked (<[p := x]> (<[bp := Header (first F3 base) s1]> (hdr h))) l nxt).
  { intros. by apply linked_insert, linked_insert. }
  apply free_linked_app. split; [|apply free_linked_app; split].
  - replace (first (M ++ F3) base) with p by (by destruct HM as [(_ & _ & ->)|(_ & _ & ->)]).
    apply Hins; [| |exact HlP].
    + intros Hin. specialize (HPp p p Hin ltac:(left)). lia.
    + intros (b & -> & Hin)%list_elem_of_fmap. specialize (HlowP _ Hin). simpl in HlowP. lia.
  - destruct HM as [(_ & -> & ->)|(_ & -> & ->)]; cbn [linked first fst snd].
    + by rewrite lookup_insert_eq.
    + rewrite lookup_insert_eq, lookup_insert_ne, lookup_insert_eq by lia. done.
  - apply Hins; [| |exact Hl3].
    + intros Hin. specialize (Hp3 p Hin). lia.
    + intros (b & -> & Hin)%list_elem_of_fmap. specialize (Hhigh3 _ Hin). unfold padd in Hhigh3. simpl in *. lia.
Qed.

Lemma resorted P p sp G F3 s1 M :
  (base, 0) :: F = P ++ (p, sp) :: G ++ F3 ->
  ((padd p sp = bp ∧ M = [(p, sp + s1)]) ∨ (padd p sp < bp ∧ M = [(p, sp); (bp, s1)])) ->
  Forall (λ b, b.1 < bp) (P ++ [(p, sp)]) -> Forall (before (bp, s1)) F3 ->
  StronglySorted before (P ++ M ++ F3).
Proof.
  intros EL HM Hlow Hbef. pose proof Hwf as [_ Hsort _ _ _ _ _]. rewrite EL in Hsort.
  apply StronglySorted_app in Hsort as (HPp & HP & Hsort). apply StronglySorted_inv in Hsort as [Hs3 Hp].
  apply StronglySorted_app in Hs3 as (_ & _ & Hs3). apply Forall_app in Hp as [_ Hp3].
  apply Forall_app in Hlow as [_ Hlowp]. apply Forall_cons in Hlowp as [Hlowp _]. cbn [fst] in Hlowp.
  assert (HPP : ∀ b, b ∈ P -> padd b.1 b.2 < p) by (intros b Hin; by apply (HPp b (p, sp)); [|left]).
  apply StronglySorted_app. split_and!; [|done|].
  - intros b c Hin Hc. apply elem_of_app in Hc as [Hc|Hc].
    + specialize (HPP b Hin). unfold before.
      destruct HM as [(E & ->)|(E & ->)]; set_unfold in Hc; naive_solver lia.
    + apply HPp; [done|]. right. apply elem_of_app. by right.
  - destruct HM as [(E & ->)|(E & ->)]; cbn [app].
    + constructor; [done|]. eapply Forall_impl; [exact Hbef|]. intros b. unfold before. simpl.
      by rewrite <- E, padd_padd.
    + constructor; [by constructor|]. by constructor.
Qed.
(** The blocks of the new list: old ones, the freed block, or its union with
    the block before it. *)
Lemma new_blocks P p sp G F3 s1 M F' :
  (base, 0) :: F = P ++ (p, sp) :: G ++ F3 -> (base, 0) :: F' = P ++ M ++ F3 ->
  ((padd p sp = bp ∧ M = [(p, sp + s1)]) ∨ (padd p sp < bp ∧ M = [(p, sp); (bp, s1)])) ->
  ∀ b, b ∈ F' -> b ∈ F ∨ b = (bp, s1) ∨ ((p, sp) ∈ F ∧ padd p sp = bp ∧ b = (p, sp + s1)).
Proof.
  intros EF EF' HM b Hbin. destruct P as [|b0 P]; cbn [app] in EF, EF'.
  - injection EF as -> <- ->. destruct HM as [(E & ->)|(E & ->)].
    { unfold padd in E. lia. }
    cbn [app] in EF'. injection EF' as ->. set_solver.
  - injection EF as <- ->. injection EF' as ->. destruct HM as [(E & ->)|(E & ->)]; set_solver.
Qed.

Lemma new_list P p sp G F3 s1 M :
  (base, 0) :: F = P ++ (p, sp) :: G ++ F3 ->
  ((padd p sp = bp ∧ M = [(p, sp + s1)]) ∨ (padd p sp < bp ∧ M = [(p, sp); (bp, s1)])) ->
  ∃ F', (base, 0) :: F' = P ++ M ++ F3.
Proof.
  intros EF HM. destruct P as [|b0 P]; cbn [app] in *; [|injection EF as <- _; eauto].
  injection EF as -> <- ->. destruct HM as [(E & ->)|(E & ->)]; [unfold padd in E; lia|].
  cbn [app]. eauto.
Qed.

(** free() of a block that overlaps nothing: the invariant is kept, the free
    units grow by the block's, and the block is now part of a free one. *)
Lemma free_ok n :
  (S (length F) <= n)%nat ->
  ∃ h' F', free n h (padd bp 1) = Some h' ∧ wf base top h' F' B ∧ units F' = units F + s ∧
    (length F' <= S (length F))%nat ∧ (∃ c x, (c, x) ∈ F' ∧ s <= x).
Proof.
  intros Hn. destruct (free_shape n Hn)
    as (P & p & sp & F3 & G & s1 & M & x & EF & Hfr & HMx & Hlow & Hhigh & Hbef & Hs1 & Ht1 & Hun & Hap).
  assert (HM : (padd p sp = bp ∧ M = [(p, sp + s1)]) ∨ (padd p sp < bp ∧ M = [(p, sp); (bp, s1)]))
    by naive_solver.
  destruct (new_list P p sp G F3 s1 M EF HM) as (F' & EF').
  pose proof (new_blocks P p sp G F3 s1 M F' EF EF' HM) as Hnew.
  pose proof (relinked P p sp G F3 s1 x M EF HMx Hlow Hhigh) as Hlink.
  pose proof (resorted P p sp G F3 s1 M EF HM Hlow Hbef) as Hsort.
  rewrite <- EF' in Hlink, Hsort.
  pose proof Hwf as [_ _ _ Hfree Hused Hapart Hbt]. rewrite Forall_forall in Hfree.
  assert (HpL : p = base ∨ p ∈ F.*1).
  { assert (Hin : (p, sp) ∈ (base, 0) :: F) by (rewrite EF; set_solver).
    apply elem_of_cons in Hin as [[= -> _]|Hin]; [by left|]. right. apply list_elem_of_fmap. by exists (p, sp). }
  assert (Hsp : 0 <= sp).
  { assert (Hin : (p, sp) ∈ (base, 0) :: F) by (rewrite EF; set_solver).
    apply elem_of_cons in Hin as [[= _ ->]|Hin]; [lia|]. specialize (Hfree _ Hin). simpl in Hfree. lia. }
  assert (HG : ∀ b, b ∈ G ++ F3 -> b ∈ F).
  { intros b Hin. destruct P as [|b0 P]; cbn [app] in EF.
    - injection EF as _ _ ->. done.
    - injection EF as _ ->. apply elem_of_app. right. by right. }
  eexists _, F'. split_and!; [exact Hfr| | | |].
  - constructor; [exact Hlink|exact Hsort| | | |exact Hapart|exact Hbt].
    + cbn [freep]. change (base :: F'.*1) with (((base, 0) :: F').*1). rewrite EF', !fmap_app.
      destruct HM as [(_ & ->)|(_ & ->)]; set_solver.
    + rewrite Forall_forall. intros b [Hin|[->|(Hin & E & ->)]]%Hnew; [by apply Hfree|simpl; lia|].
      specialize (Hfree _ Hin). simpl in *. rewrite <- padd_padd, E. lia.
    + intros a t Ha. destruct (Hused a t Ha) as (H1 & H2 & H3 & H4 & H5). specialize (HB a t Ha).
      split_and!; [done|done|done| |].
      * unfold size. cbn [hdr]. rewrite lookup_insert_ne, lookup_insert_ne; [exact H4| |].
        -- intros ->. unfold apart, padd in HB. simpl in HB. lia.
        -- destruct HpL as [->|(b & -> & Hin)%list_elem_of_fmap]; [lia|]. intros <-.
           rewrite Forall_forall in H5. specialize (H5 _ Hin). specialize (Hfree _ Hin).
           unfold apart, padd in H5. simpl in H5. lia.
      * assert (Hbp1 : apart (a, t) (bp, s1)).
        { apply Hap; [done|done|]. rewrite Forall_forall in H5 |- *. intros b Hin. by apply H5, HG. }
        rewrite Forall_forall in H5 |- *. intros b [Hin|[->|(Hin & E & ->)]]%Hnew; [by apply H5|done|].
        specialize (H5 _ Hin). specialize (Hfree _ Hin). rewrite <- E in Hbp1. simpl in Hfree.
        apply apart_join; [done|lia|lia|done|done].
  - apply (f_equal units) in EF, EF'. rewrite !units_app in EF, EF'. simpl in EF, EF'. rewrite units_app in Hun.
    rewrite units_app in EF.
    destruct HM as [(_ & ->)|(_ & ->)]; simpl in EF'; lia.
  - apply (f_equal length) in EF, EF'. rewrite !length_app in EF, EF'. simpl in EF, EF'. rewrite length_app in EF.
    destruct HM as [(_ & ->)|(_ & ->)]; simpl in EF'; lia.
  - assert (HinM : ∀ b, b ∈ M -> b.2 <> 0 -> b ∈ F').
    { intros b Hin Hb2. assert (Hin' : b ∈ (base, 0) :: F') by (rewrite EF'; set_solver).
      apply elem_of_cons in Hin' as [->|?]; [|done]. by simpl in Hb2. }
    destruct HM as [(_ & ->)|(_ & ->)].
    + exists p, (sp + s1). split; [|lia]. apply HinM; [left|simpl; lia].
    + exists bp, s1. split; [|lia]. apply HinM; [right; left|simpl; lia].
Qed.
End insert_block.

(** C26: free() of an allocated block keeps the allocator's invariant (the free
    list sorted and circular, no two blocks overlapping), returns exactly the
    block's units to the free list, and its search ends within one round of
    the list. *)
Theorem free_keeps_invariant (base top : Z) (h : heap) (F : list block) (B : gmap Z Z) (a s : Z) (n : nat) :
  wf base top h F B -> B !! a = Some s -> (S (length F) <= n)%nat ->
  ∃ h' F', free n h (padd a 1) = Some h' ∧ wf base top h' F' (delete a B) ∧ units F' = units F + s.
Proof.
  intros Hwf Ha Hn. pose proof Hwf as [Hl Hs Hf Hfr Hus Hap Ht].
  destruct (Hus a s Ha) as (H1 & H2 & H3 & H4 & H5).
  destruct (free_ok base top h F (delete a B) a s) with n as (h' & F' & E & Hw & Hu & _); try done; eauto.
  - constructor; try done.
    + intros a' s' [? ?]%lookup_delete_Some. by apply Hus.
    + intros a1 s1 a2 s2 [? ?]%lookup_delete_Some [? ?]%lookup_delete_Some. by apply Hap.
  - intros a' t [Hne Ha']%lookup_delete_Some. by apply Hap.
Qed.

(** ** malloc() *)

Lemma wf_list_in base top h F B p :
  wf base top h F B -> p ∈ base :: F.*1 -> ∃ P x R, (base, 0) :: F = P ++ (p, x) :: R.
Proof.
  intros Hwf Hp. change (base :: F.*1) with (((base, 0) :: F).*1) in Hp.
  apply list_elem_of_fmap in Hp as ([? x] & -> & Hp). apply list_elem_of_split in Hp as (P & R & E). eauto.
Qed.

(** A block that follows another one in the circular list and is not empty. *)
Lemma next_block base top h F B prevp p sp :
  wf base top h F B -> prevp ∈ base :: F.*1 -> ptr h prevp = Some p -> size h p = Some sp -> 0 < sp ->
  ∃ P x R, (base, 0) :: F = P ++ (prevp, x) :: (p, sp) :: R ∧ size h prevp = Some x ∧
    ptr h p = Some (first R base).
Proof.
  intros Hwf Hprev Hptr Hsize Hsp. destruct (wf_list_in _ _ _ _ _ _ Hwf Hprev) as (P & x & R & E).
  pose proof (wf_link _ _ _ _ _ Hwf) as Hl. pose proof Hl as [Hbase _]. rewrite E in Hl.
  apply free_linked_app in Hl as [_ [Hp Hl]]. cbn [fst snd] in *.
  unfold ptr, size in *. rewrite Hp in Hptr. simpl in Hptr. injection Hptr as <-.
  destruct R as [|[c y] R]; cbn [first fst] in *.
  { rewrite Hbase in Hsize. simpl in Hsize. injection Hsize as <-. lia. }
  destruct Hl as [Hc Hl]. cbn [fst snd] in Hc. rewrite Hc in Hsize. simpl in Hsize. injection Hsize as ->.
  exists P, x, R. rewrite Hp, Hc. done.
Qed.

(** A list of blocks whose headers and order are intact, in place of [F]. *)
Lemma wf_replace base top h F B h' F' a s :
  wf base top h F B ->
  linked (hdr h') ((base, 0) :: F') base -> StronglySorted before ((base, 0) :: F') ->
  freep h' ∈ base :: F'.*1 ->
  Forall (λ b, base + 16 <= b.1 ∧ 0 < b.2 ∧ padd b.1 b.2 <= top) F' ->
  (∀ c, Forall (apart c) F -> Forall (apart c) F') ->
  base + 16 <= a -> 0 < s -> padd a s <= top -> size h' a = Some s ->
  Forall (apart (a, s)) F' -> (∀ c, 0 < c.2 -> Forall (apart c) F -> apart c (a, s)) ->
  (∀ c t, B !! c = Some t -> size h' c = size h c) ->
  wf base top h' F' (<[a := s]> B) ∧ B !! a = None.
Proof.
  intros Hwf Hl Hs Hf Hfr Hsub Ha0 Hs0 Ht Hsz Hap Hap2 Hkeep.
  pose proof Hwf as [_ _ _ _ Hused Hapart Hbt].
  assert (HB : ∀ c t, B !! c = Some t -> apart (c, t) (a, s) ∧ c <> a).
  { intros c t Hc. destruct (Hused c t Hc) as (H1 & H2 & H3 & H4 & H5).
    assert (Hx : apart (c, t) (a, s)) by (by apply Hap2). split; [done|].
    intros ->. unfold apart, padd in Hx. simpl in Hx. lia. }
  assert (Hnone : B !! a = None).
  { destruct (B !! a) as [t|] eqn:E; [|done]. by destruct (HB a t E). }
  split; [|done]. constructor; try done.
  - intros c t [[<- <-]|[Hne Hc]]%lookup_insert_Some; [done|].
    destruct (Hused c t Hc) as (H1 & H2 & H3 & H4 & H5). rewrite (Hkeep c t Hc). split_and!; auto.
  - intros c t c' t' [[<- <-]|[Hne Hc]]%lookup_insert_Some [[<- <-]|[Hne' Hc']]%lookup_insert_Some Hcc;
      [done| | |by apply Hapart].
    + apply apart_sym. by apply HB.
    + by apply HB.
Qed.

Section take_block.
Context (base top : Z) (h : heap) (F : list block) (B : gmap Z Z).
Context (prevp p sp nunits x : Z) (P T R : list block).
Context (Hwf : wf base top h F B) (Hn : 0 < nunits <= sp).
Context (EF : F = T ++ (p, sp) :: R) (ET : (base, 0) :: T = P ++ [(prevp, x)]).
Context (Hx : size h prevp = Some x) (Hpn : ptr h p = Some (first R base)) (Hsp : size h p = Some sp).

Lemma take_facts :
  (∀ b, b ∈ T -> padd b.1 b.2 < p ∧ b.1 < p) ∧ (∀ b, b ∈ R -> padd p sp < b.1) ∧ prevp < p ∧ (prevp ∉ P.*1) ∧
  (prevp ∉ R.*1) ∧ base + 16 <= p ∧ padd p sp <= top ∧ base <= prevp ∧ (∀ b, b ∈ P -> b.1 < p) ∧
  linked (hdr h) P prevp ∧ linked (hdr h) R base ∧ linked (hdr h) (P ++ [(prevp, x)]) p.
Proof.
  pose proof Hwf as [Hlink Hsort _ Hfree _ _ _].
  pose proof (before_addresses base top F Hfree Hsort) as Haddr.
  assert (EL : (base, 0) :: F = (P ++ [(prevp, x)]) ++ (p, sp) :: R) by (by rewrite EF, <- ET).
  rewrite EL in Haddr, Hlink. apply free_linked_app in Hlink as [HlP [_ HlR]]. cbn [first fst] in HlP.
  rewrite !fmap_app in Haddr. cbn [fmap list_fmap fst] in Haddr.
  apply StronglySorted_app in Haddr as (HPp & HP & Hp). apply StronglySorted_inv in Hp as [_ Hp].
  apply StronglySorted_app in HP as (HPprev & _ & _).
  assert (Hin : (p, sp) ∈ F) by (rewrite EF; set_solver).
  rewrite Forall_forall in Hfree. pose proof (Hfree _ Hin) as Hpf. cbn [fst snd] in Hpf.
  rewrite EF in Hsort. change ((base, 0) :: T ++ (p, sp) :: R) with (((base, 0) :: T) ++ (p, sp) :: R) in Hsort.
  apply StronglySorted_app in Hsort as (HT & _ & HR). apply StronglySorted_inv in HR as [_ HR].
  rewrite Forall_forall in HR. rewrite Forall_forall in Hp.
  split_and!; try done; try lia.
  - intros b Hb. assert (H1 : before b (p, sp)) by (apply HT; [by right|by left]).
    assert (HbF : b ∈ F) by (rewrite EF; set_solver). specialize (Hfree _ HbF).
    unfold before, padd in *. simpl in *. lia.
  - apply HPp; [set_solver|by left].
  - intros Hin'. specialize (HPprev prevp prevp Hin' ltac:(left)). lia.
  - intros Hin'. specialize (Hp _ Hin'). assert (prevp < p) by (apply HPp; [set_solver|by left]). lia.
  - assert (Hprev : prevp ∈ ((base, 0) :: T).*1) by (rewrite ET; set_solver). cbn [fmap list_fmap fst] in Hprev.
    apply elem_of_cons in Hprev as [->|(b & -> & Hb)%list_elem_of_fmap]; [lia|].
    assert (HbF : b ∈ F) by (rewrite EF; set_solver). specialize (Hfree _ HbF). lia.
  - intros b Hb. apply HPp; [|by left]. apply elem_of_app. left. apply list_elem_of_fmap. eauto.
  - by apply free_linked_app in HlP as [? _].
Qed.

(** The whole block is handed out. *)
Lemma take_exact :
  sp = nunits ->
  ∃ h' F', take_block h prevp p sp nunits = Some (padd p 1, h') ∧
    wf base top h' F' (<[p := nunits]> B) ∧ B !! p = None ∧ units F' + nunits = units F.
Proof.
  intros E. destruct take_facts as (HT & HR & Hlt & HnP & HnR & Hb & Ht & Hbp & HP & HlP & HlR & HlPp).
  pose proof Hwf as [_ Hsort _ Hfree Hused _ _].
  unfold take_block. rewrite (proj2 (Z.eqb_eq sp nunits) E). cbn [mbind option_bind]. rewrite Hpn.
  cbn [mbind option_bind]. rewrite (set_ptr_known _ _ _ _ Hx).
  assert (Hsub : ∀ b, b ∈ T ++ R -> b ∈ F) by (rewrite EF; set_solver).
  eexists _, (T ++ R). split; [done|]. apply and_assoc. split.
  2: { rewrite EF, !units_app. simpl. lia. }
  eapply wf_replace; [exact Hwf|..]; cbn [hdr freep set_freep].
  - change ((base, 0) :: T ++ R) with (((base, 0) :: T) ++ R). rewrite ET, <- app_assoc. cbn [app].
    apply free_linked_app. split; [by apply linked_insert|]. cbn [linked fst snd]. split; [apply lookup_insert_eq|].
    by apply linked_insert.
  - change ((base, 0) :: T ++ R) with (((base, 0) :: T) ++ R). rewrite EF in Hsort.
    change ((base, 0) :: T ++ (p, sp) :: R) with (((base, 0) :: T) ++ (p, sp) :: R) in Hsort.
    apply StronglySorted_app in Hsort as (H1 & H2 & [H3 _]%StronglySorted_inv).
    apply StronglySorted_app. split_and!; [|done|done]. intros b c Hbin Hc. apply H1; [done|by right].
  - change (base :: (T ++ R).*1) with ((((base, 0) :: T) ++ R).*1). rewrite ET, !fmap_app. set_solver.
  - rewrite Forall_forall in Hfree |- *. auto.
  - intros c Hc. rewrite Forall_forall in Hc |- *. auto.
  - exact Hb.
  - lia.
  - rewrite <- E. exact Ht.
  - unfold size. cbn [hdr set_freep]. rewrite lookup_insert_ne by lia. rewrite <- E. exact Hsp.
  - rewrite Forall_forall. intros b [Hbin|Hbin]%elem_of_app; unfold apart; simpl.
    + right. apply HT in Hbin. unfold padd in *. lia.
    + left. apply HR in Hbin. unfold padd in *. lia.
  - intros c Hc Hap. rewrite <- E. rewrite Forall_forall in Hap. apply Hap. rewrite EF. set_solver.
  - intros c t Hc. unfold size. cbn [hdr set_freep]. destruct (decide (prevp = c)) as [<-|Hne].
    + rewrite lookup_insert_eq. unfold size in Hx. by rewrite Hx.
    + by rewrite lookup_insert_ne.
Qed.

(** The block is split and its tail handed out. *)
Lemma take_split :
  nunits < sp ->
  ∃ a h' F', take_block h prevp p sp nunits = Some (padd a 1, h') ∧
    wf base top h' F' (<[a := nunits]> B) ∧ B !! a = None ∧ units F' + nunits = units F.
Proof.
  intros E. destruct take_facts as (HT & HR & Hlt & HnP & HnR & Hb & Ht & Hbp & HP & HlP & HlR & HlPp).
  pose proof Hwf as [_ Hsort _ Hfree Hused _ (Hb0 & _ & Hmax)].
  set (a := padd p (sp - nunits)). assert (Ha : p < a) by (unfold a, padd; lia).
  assert (Han : padd a nunits = padd p sp) by (unfold a; rewrite padd_padd; f_equal; lia).
  assert (HaR : ∀ b, b ∈ R -> a < b.1) by (intros b Hin; apply HR in Hin; unfold padd in *; lia).
  unfold take_block. replace (sp =? nunits) with false by (symmetry; apply Z.eqb_neq; lia).
  cbn [mbind option_bind]. rewrite u32_small by (unfold padd in *; lia). fold a.
  set (h1 := set_size h p (sp - nunits)).
  assert (Eh1 : hdr h1 = <[p := Header (first R base) (sp - nunits)]> (hdr h)).
  { unfold h1, set_size. by rewrite Hpn. }
  eexists a, _, (T ++ (p, sp - nunits) :: R). split; [done|]. apply and_assoc. split.
  2: { rewrite EF, !units_app. simpl. lia. }
  eapply wf_replace; [exact Hwf|..]; cbn [hdr freep set_freep set_size]; rewrite ?Eh1.
  - change ((base, 0) :: T ++ (p, sp - nunits) :: R) with (((base, 0) :: T) ++ (p, sp - nunits) :: R).
    assert (HPa : ∀ b, b ∈ P ++ [(prevp, x)] -> b.1 < p) by (intros b Hin; set_unfold in Hin; naive_solver).
    rewrite ET. apply free_linked_app. split; [|cbn [linked fst snd]; split].
    + cbn [first fst]. apply linked_insert; [|apply linked_insert; [|done]];
        intros (b & Eb & Hin)%list_elem_of_fmap; apply HPa in Hin; lia.
    + rewrite lookup_insert_ne by lia. apply lookup_insert_eq.
    + apply linked_insert; [|apply linked_insert; [|done]];
        intros (b & Eb & Hin)%list_elem_of_fmap; apply HaR in Hin; lia.
  - change ((base, 0) :: T ++ (p, sp - nunits) :: R) with (((base, 0) :: T) ++ (p, sp - nunits) :: R).
    rewrite EF in Hsort. change ((base, 0) :: T ++ (p, sp) :: R) with (((base, 0) :: T) ++ (p, sp) :: R) in Hsort.
    apply StronglySorted_app in Hsort as (H1 & H2 & [H3 H4]%StronglySorted_inv).
    apply StronglySorted_app. split_and!; [|done|].
    + intros b c Hbin [->|Hc]%elem_of_cons; [by apply (H1 b (p, sp)); [|left]|]. apply H1; [done|by right].
    + constructor; [done|]. eapply Forall_impl; [exact H4|]. unfold before, padd. simpl. lia.
  - change (base :: (T ++ (p, sp - nunits) :: R).*1) with ((((base, 0) :: T) ++ (p, sp - nunits) :: R).*1).
    rewrite ET, !fmap_app. set_solver.
  - rewrite EF in Hfree. apply Forall_app in Hfree as [Hf1 [Hf2 Hf3]%Forall_cons].
    apply Forall_app. split; [done|]. constructor; [|done]. unfold padd in *. simpl in *. lia.
  - intros c Hc. rewrite EF in Hc. apply Forall_app in Hc as [Hf1 [Hf2 Hf3]%Forall_cons].
    apply Forall_app. split; [done|]. constructor; [|done]. unfold apart, padd in *. simpl in *. lia.
  - lia.
  - lia.
  - rewrite Han. exact Ht.
  - unfold size. cbn [hdr set_freep set_size]. by rewrite lookup_insert_eq.
  - rewrite Forall_forall. intros b [Hbin|[->|Hbin]%elem_of_cons]%elem_of_app; unfold apart; simpl.
    + right. apply HT in Hbin. unfold padd in *. lia.
    + right. unfold a, padd. lia.
    + left. apply HR in Hbin. unfold padd in *. lia.
  - intros c Hc Hap. rewrite Forall_forall in Hap.
    assert (Hcp : apart c (p, sp)) by (apply Hap; rewrite EF; set_solver).
    unfold apart in *. cbn [fst snd] in *. rewrite Han. unfold padd in *. lia.
  - intros c t Hc. destruct (Hused c t Hc) as (_ & Ht0 & _ & _ & Hap). rewrite Forall_forall in Hap.
    assert (Hcp : apart (c, t) (p, sp)) by (apply Hap; rewrite EF; set_solver).
    unfold size. cbn [hdr set_freep set_size]. rewrite Eh1, !lookup_insert_ne; [done| |];
      intros <-; unfold apart, a, padd in Hcp; simpl in Hcp; lia.
Qed.
End take_block.

Lemma take_block_ok base top h F B prevp p sp nunits :
  wf base top h F B -> prevp ∈ base :: F.*1 -> ptr h prevp = Some p -> size h p = Some sp ->
  0 < nunits <= sp ->
  ∃ a h' F', take_block h prevp p sp nunits = Some (padd a 1, h') ∧
    wf base top h' F' (<[a := nunits]> B) ∧ B !! a = None ∧ units F' + nunits = units F.
Proof.
  intros Hwf Hprev Hptr Hsize Hn.
  destruct (next_block _ _ _ _ _ _ _ _ Hwf Hprev Hptr Hsize ltac:(lia)) as (P & x & R & E & Hx & Hpn).
  assert (∃ T, F = T ++ (p, sp) :: R ∧ (base, 0) :: T = P ++ [(prevp, x)]) as (T & EF & ET).
  { destruct P as [|b P]; cbn [app] in E; injection E as E1 E2.
    - subst. by exists [].
    - subst b. exists (P ++ [(prevp, x)]). split; [|done]. by rewrite <- app_assoc. }
  destruct (Z.eq_dec sp nunits) as [Heq|Hne].
  - exists p. by apply (take_exact base top h F B prevp p sp nunits x P T R).
  - apply (take_split base top h F B prevp p sp nunits x P T R); try done. lia.
Qed.

(** A header written beyond the blocks does not disturb them. *)
Lemma wf_fresh base top h F B a v :
  wf base top h F B -> top <= a -> wf base top (set_size h a v) F B.
Proof.
  intros [Hl Hs Hf Hfr Hus Hap Ht] Ha.
  assert (HaF : a ∉ ((base, 0) :: F).*1).
  { cbn [fmap list_fmap fst]. rewrite not_elem_of_cons. split; [lia|].
    intros (b & -> & Hin)%list_elem_of_fmap.
    rewrite Forall_forall in Hfr. specialize (Hfr _ Hin). unfold padd in Hfr. lia. }
  constructor; try done.
  - by apply linked_insert.
  - intros c t Hc. destruct (Hus c t Hc) as (H1 & H2 & H3 & H4 & H5). split_and!; try done.
    unfold size, set_size. cbn [hdr]. rewrite lookup_insert_ne; [exact H4|]. unfold padd in H3. lia.
Qed.

(** More memory above the blocks. *)
Lemma wf_grow base top top' h F B :
  wf base top h F B -> top <= top' <= 2 ^ 36 -> wf base top' h F B.
Proof.
  intros [Hl Hs Hf Hfr Hus Hap Ht] Htop. constructor; try done; try lia.
  - eapply Forall_impl; [exact Hfr|]. simpl. lia.
  - intros c t Hc. destruct (Hus c t Hc) as (H1 & H2 & H3 & H4 & H5). split_and!; done || lia.
Qed.

Section search.
Context {W : Type} (ker : kernel W) (base : Z).

(** The blocks in the order malloc() visits them: from the one after [freep]
    round to [freep] itself. *)
Lemma visit_order top h F B :
  wf base top h F B ->
  ∃ V sf, linked (hdr h) (V ++ [(freep h, sf)]) (first (V ++ [(freep h, sf)]) 0) ∧
    (freep h ∉ V.*1) ∧ (∀ b, b ∈ V ++ [(freep h, sf)] <-> b ∈ (base, 0) :: F) ∧ length V = length F.
Proof.
  intros Hwf. pose proof Hwf as [Hl Hs Hf Hfr _ _ _].
  pose proof (before_addresses base top F Hfr Hs) as Haddr.
  destruct (wf_list_in _ _ _ _ _ _ Hwf Hf) as (A & sf & C & E). exists (C ++ A), sf.
  assert (Hfirst : first (A ++ (freep h, sf) :: C) 0 = base) by (by rewrite <- E).
  rewrite E in Hl, Haddr. apply free_linked_app in Hl as [HA [Hp HC]]. cbn [fst snd first] in *.
  assert (EV : first ((C ++ A) ++ [(freep h, sf)]) 0 = first C base).
  { destruct C as [|c C]; [|done]. simpl. rewrite <- Hfirst. by destruct A. }
  split_and!.
  - rewrite EV, <- app_assoc. apply free_linked_app. split.
    + replace (first (A ++ [(freep h, sf)]) (first C base)) with base; [done|].
      rewrite <- Hfirst. by destruct A.
    + apply free_linked_app. split; [done|]. cbn [linked fst snd first]. by split.
  - rewrite fmap_app in Haddr. cbn [fmap list_fmap fst] in Haddr.
    apply StronglySorted_app in Haddr as (H1 & _ & [_ H2]%StronglySorted_inv).
    rewrite fmap_app, elem_of_app. intros [Hin|Hin].
    + rewrite Forall_forall in H2. specialize (H2 _ Hin). lia.
    + specialize (H1 _ (freep h) Hin ltac:(left)). lia.
  - intros b. rewrite E. set_solver.
  - apply (f_equal length) in E. rewrite length_app in E. simpl in E. rewrite length_app. lia.
Qed.

Lemma malloc_body_skip n nunits prevp p s q h w :
  hdr h !! p = Some (Header q s) -> s < nunits -> p <> freep h ->
  run ker (malloc_body n nunits (prevp, p, h)) w = (Done (inl (p, q, h)), w).
Proof.
  intros Hp Hs Hne. unfold malloc_body, size, ptr. rewrite Hp. simpl.
  replace (nunits <=? s) with false by (symmetry; apply Z.leb_gt; lia).
  replace (p =? freep h) with false by (symmetry; by apply Z.eqb_neq). done.
Qed.

(** The blocks that are too small are passed over. *)
Lemma search_skip n nunits h V R nxt prevp k w :
  linked (hdr h) (V ++ R) nxt -> Forall (λ b, b.2 < nunits) V -> (freep h ∉ V.*1) ->
  run ker (uloop (length V + k) (malloc_body n nunits) (prevp, first (V ++ R) nxt, h)) w =
  run ker (uloop k (malloc_body n nunits) (default prevp (last V.*1), first R nxt, h)) w.
Proof.
  revert prevp. induction V as [|b V IH]; intros prevp Hl Hs Hf; [done|].
  destruct Hl as [Hb Hl]. apply Forall_cons in Hs as [Hbs Hs].
  cbn [fmap list_fmap] in Hf. apply not_elem_of_cons in Hf as [Hbf Hf].
  cbn [length Nat.add app first].
  erewrite run_uloop_next; [|apply (malloc_body_skip _ _ _ _ b.2 _ _ _ Hb); [done|done]].
  rewrite IH by done. assert (E : default b.1 (last V.*1) = default prevp (last (b.1 :: V.*1))).
  { destruct V as [|c V]; [done|]. change (last (b.1 :: (c :: V).*1)) with (last (c :: V).*1).
    destruct (last (c :: V).*1) eqn:El; [done|]. by apply last_None in El. }
  rewrite E. done.
Qed.

Lemma last_ptr h f V p s R nxt :
  linked (hdr h) (V ++ (p, s) :: R) nxt -> ptr h f = Some (first (V ++ (p, s) :: R) nxt) ->
  ptr h (default f (last V.*1)) = Some p.
Proof.
  intros Hl Hf. destruct V as [|b V _] using rev_ind; [exact Hf|].
  rewrite fmap_app. change ([b].*1) with [b.1]. rewrite last_snoc. cbn [from_option id]. rewrite <- app_assoc in Hl.
  apply free_linked_app in Hl as [_ [Hb _]]. unfold ptr. by rewrite Hb.
Qed.

(** The first block of a list that is large enough, if there is one. *)
Lemma first_fit nunits (V : list block) :
  Forall (λ b, b.2 < nunits) V ∨
  ∃ V1 p s V2, V = V1 ++ (p, s) :: V2 ∧ Forall (λ b, b.2 < nunits) V1 ∧ nunits <= s.
Proof.
  induction V as [|[p s] V IH]; [by left|]. destruct (Z.lt_ge_cases s nunits) as [Hs|Hs].
  - destruct IH as [IH|(V1 & p1 & s1 & V2 & -> & H1 & H2)]; [left; by constructor|].
    right. exists ((p, s) :: V1), p1, s1, V2. split_and!; [done|by constructor|done].
  - right. by exists [], p, s, V.
Qed.

(** malloc()'s loop from [freep] when some free block is large enough. *)
Lemma search_hit n nunits h F B top w k c x :
  wf base top h F B -> (c, x) ∈ F -> nunits <= x -> 0 < nunits -> (S (length F) < k)%nat ->
  ∃ p a h' F', ptr h (freep h) = Some p ∧
    run ker (uloop k (malloc_body n nunits) (freep h, p, h)) w = (Done (padd a 1, h'), w) ∧
    wf base top h' F' (<[a := nunits]> B) ∧ B !! a = None ∧ units F' + nunits = units F.
Proof.
  intros Hwf Hc Hx Hn Hk. destruct (visit_order top h F B Hwf) as (V & sf & Hl & HfV & Hin & Hlen).
  set (L := V ++ [(freep h, sf)]) in *. exists (first L 0).
  assert (Hpf : ptr h (freep h) = Some (first L 0)).
  { unfold L in Hl. apply free_linked_app in Hl as [_ [Hp _]]. cbn [fst snd first] in Hp. unfold ptr. by rewrite Hp. }
  destruct (first_fit nunits L) as [Hall|(V1 & p & s & V2 & EL & HV1 & Hs)].
  { exfalso. rewrite Forall_forall in Hall. specialize (Hall (c, x) ltac:(apply Hin; by right)). simpl in Hall. lia. }
  assert (HfV1 : freep h ∉ V1.*1).
  { intros H1. unfold L in EL. destruct V2 as [|b V2 _] using rev_ind.
    - apply app_inj_tail in EL as [-> _]. done.
    - rewrite app_comm_cons, app_assoc in EL. apply app_inj_tail in EL as [-> _]. apply HfV.
      rewrite fmap_app, elem_of_app. by left. }
  rewrite EL in Hl, Hpf.
  assert (HlenL : (length V1 < k)%nat).
  { assert (length L = S (length F)) by (unfold L; rewrite length_app, Hlen; simpl; lia).
    rewrite EL, length_app in H. simpl in H. lia. }
  assert (Hfst : first (V1 ++ (p, s) :: V2) (first (V1 ++ (p, s) :: V2) 0) = first (V1 ++ (p, s) :: V2) 0)
    by (by destruct V1).
  pose proof (last_ptr h (freep h) V1 p s V2 _ Hl ltac:(by rewrite Hfst)) as Hlast.
  assert (Hprev : default (freep h) (last V1.*1) ∈ base :: F.*1).
  { destruct V1 as [|b V1 _] using rev_ind; [apply (wf_freep _ _ _ _ _ Hwf)|].
    rewrite fmap_app. change ([b].*1) with [b.1]. rewrite last_snoc. cbn [from_option id]. change (base :: F.*1) with (((base, 0) :: F).*1).
    apply list_elem_of_fmap. exists b. split; [done|]. apply Hin. rewrite EL. set_solver. }
  assert (Hsz : size h p = Some s).
  { apply free_linked_app in Hl as [_ [Hp _]]. cbn [fst snd] in Hp. unfold size. by rewrite Hp. }
  destruct (take_block_ok base top h F B _ p s nunits Hwf Hprev Hlast Hsz ltac:(lia)) as (a & h' & F' & Et & Hw).
  exists a, h', F'. split; [by rewrite EL|]. split; [|done]. rewrite EL.
  replace k with (length V1 + S (k - length V1 - 1))%nat by lia.
  pose proof (search_skip n nunits h V1 ((p, s) :: V2) _ (freep h) (S (k - length V1 - 1)) w Hl HV1 HfV1) as Hskip.
  rewrite Hfst in Hskip. rewrite Hskip. apply run_uloop_last. cbn [first fst].
  unfold malloc_body. rewrite Hsz. cbn [need mbind prog_bind].
  replace (nunits <=? s) with true by (symmetry; apply Z.leb_le; lia).
  rewrite Et. done.
Qed.
End search.

Section malloc.
Context {W : Type} (ker : kernel W) (brk : W -> Z).
(** sbrk() as the kernel implements it: the old end of memory, which moves up
    by the amount asked for, or -1 and no change. *)
Context (Hsbrk : ∀ n w, 0 < n ->
  (∃ w', ker _ (sbrk n) w = (brk w, w') ∧ brk w' = brk w + n ∧ brk w' <= 2 ^ 36) ∨
  ker _ (sbrk n) w = (-1, w)).
Context (base : Z).

Lemma morecore_ok n h nu w F B :
  wf base (brk w) h F B -> 0 < nu < 2 ^ 27 -> (S (length F) <= n)%nat ->
  run ker (morecore n h nu) w = (Done (0, h), w) ∨
  ∃ h' F' w', run ker (morecore n h nu) w = (Done (freep h', h'), w') ∧ wf base (brk w') h' F' B ∧
    units F' = units F + Z.max nu 4096 ∧ (length F' <= S (length F))%nat ∧ brk w <= brk w' ∧
    ∃ c x, (c, x) ∈ F' ∧ nu <= x.
Proof using Hsbrk.
  intros Hwf Hnu Hn. unfold morecore.
  replace (if nu <? 4096 then 4096 else nu) with (Z.max nu 4096) by (destruct (Z.ltb_spec nu 4096); lia).
  set (m := Z.max nu 4096). assert (Hm : 4096 <= m < 2 ^ 27 ∧ nu <= m) by (unfold m; lia).
  rewrite i32_small by lia. unfold call. cbn [mbind prog_bind run].
  destruct (Hsbrk (m * 16) w ltac:(lia)) as [(w' & E & Hbrk & Hmax)|E]; rewrite E.
  2: { by left. }
  pose proof (wf_top _ _ _ _ _ Hwf) as Ht. right.
  replace (brk w =? -1) with false by (symmetry; apply Z.eqb_neq; lia).
  pose proof Hwf as [_ _ _ Hfr Hus _ _].
  assert (Hwf1 : wf base (brk w') (set_size h (brk w) m) F B).
  { apply (wf_grow base (brk w)); [|lia]. by apply wf_fresh. }
  destruct (free_ok base (brk w') (set_size h (brk w) m) F B (brk w) m Hwf1) with n
    as (h' & F' & Ef & Hwf' & Hun & Hlen & c & x & Hc & Hx); try done; try (unfold padd; lia).
  - unfold size, set_size. simpl. by rewrite lookup_insert_eq.
  - eapply Forall_impl; [exact Hfr|]. intros b (_ & _ & Hb). by right.
  - intros a t Ha. destruct (Hus a t Ha) as (_ & _ & H3 & _). by left.
  - rewrite Ef. cbn [need mbind prog_bind run]. exists h', F', w'.
    split_and!; try done; [lia|]. exists c, x. split; [done|]. lia.
Qed.

(** The whole list is searched in vain: sbrk() is asked for more. *)
Lemma search_miss n nunits h F B w k :
  wf base (brk w) h F B -> Forall (λ b, b.2 < nunits) F -> 0 < nunits < 2 ^ 27 ->
  (S (length F) <= n)%nat -> (2 * length F + 4 < k)%nat ->
  ∃ p, ptr h (freep h) = Some p ∧
  (run ker (uloop k (malloc_body n nunits) (freep h, p, h)) w = (Done (0, h), w) ∨
   ∃ a h' F' w', run ker (uloop k (malloc_body n nunits) (freep h, p, h)) w = (Done (padd a 1, h'), w') ∧
     wf base (brk w') h' F' (<[a := nunits]> B) ∧ B !! a = None).
Proof using Hsbrk.
  intros Hwf Hsmall Hn Hfuel Hk. destruct (visit_order base _ h F B Hwf) as (V & sf & Hl & HfV & Hin & Hlen).
  set (nxt := first (V ++ [(freep h, sf)]) 0) in *. exists nxt.
  pose proof Hl as Hl0. apply free_linked_app in Hl0 as [_ [Hp _]]. cbn [fst snd first] in Hp.
  split; [unfold ptr; by rewrite Hp|].
  assert (HV : Forall (λ b, b.2 < nunits) (V ++ [(freep h, sf)])).
  { rewrite Forall_forall. intros b [->|Hb]%Hin%elem_of_cons; [simpl; lia|].
    rewrite Forall_forall in Hsmall. by apply Hsmall. }
  apply Forall_app in HV as [HV Hsf]. apply Forall_cons in Hsf as [Hsf _]. cbn [snd] in Hsf.
  assert (Enxt : first (V ++ [(freep h, sf)]) nxt = nxt) by (unfold nxt; by destruct V).
  pose proof (search_skip ker n nunits h V [(freep h, sf)] nxt (freep h) (S (k - length V - 1)) w Hl HV HfV) as Hskip.
  rewrite Enxt in Hskip. cbn [first fst] in Hskip.
  replace (length V + S (k - length V - 1))%nat with k in Hskip by lia. rewrite Hskip.
  set (k' := (k - length V - 1)%nat). set (prevp := default (freep h) (last V.*1)).
  assert (Hbody : malloc_body n nunits (prevp, freep h, h) =
    ('(p, h) ← morecore n h nunits;
     if p =? 0 then Ret (inr (0, h)) else q ← need (ptr h p); Ret (inl (p, q, h)))).
  { unfold malloc_body, size. rewrite Hp. cbn [fmap option_fmap option_map s_size need mbind prog_bind].
    replace (nunits <=? sf) with false by (symmetry; apply Z.leb_gt; lia). by rewrite Z.eqb_refl. }
  destruct (morecore_ok n h nunits w F B Hwf Hn Hfuel)
    as [Hm|(h' & F' & w' & Hm & Hwf' & _ & Hlen' & _ & c & x & Hc & Hx)].
  - left. apply run_uloop_last. rewrite Hbody, (run_bind_done _ _ _ _ _ _ Hm). done.
  - right. destruct (search_hit ker base n nunits h' F' B (brk w') w' k' c x Hwf' Hc Hx ltac:(lia) ltac:(unfold k'; lia))
      as (p & a & h2 & F2 & Hptr & Hrun & Hw & HaB & _).
    exists a, h2, F2, w'. split; [|done]. rewrite <- Hrun. apply run_uloop_next.
    rewrite Hbody, (run_bind_done _ _ _ _ _ _ Hm). pose proof (wf_freep _ _ _ _ _ Hwf') as Hfp.
    assert (freep h' <> 0).
    { pose proof (wf_top _ _ _ _ _ Hwf'). pose proof (wf_free _ _ _ _ _ Hwf') as Hfr.
      apply elem_of_cons in Hfp as [->|(b & -> & Hb)%list_elem_of_fmap]; [lia|].
      rewrite Forall_forall in Hfr. specialize (Hfr _ Hb). lia. }
    replace (freep h' =? 0) with false by (symmetry; by apply Z.eqb_neq). by rewrite Hptr.
Qed.

(** The number of units malloc() needs for [nbytes]. *)
Definition units_for (nbytes : Z) : Z := (nbytes + 15) / 16 + 1.

(** The states malloc() can be called in: before the first call, or with the
    invariant. *)
Definition heap_ok (top : Z) (h : heap) (F : list block) (B : gmap Z Z) : Prop :=
  wf base top h F B ∨
  (freep h = 0 ∧ F = [] ∧ B = ∅ ∧ 0 < base ∧ base + 16 <= top ∧ top <= 2 ^ 36).

Lemma malloc_wf n h nbytes w F B :
  wf base (brk w) h F B -> 0 <= nbytes < 2 ^ 31 - 64 -> (2 * length F + 4 < n)%nat ->
  (run ker (malloc base n h nbytes) w = (Done (0, h), w) ∧ Forall (λ b, b.2 < units_for nbytes) F) ∨
  ∃ a h' F' w', run ker (malloc base n h nbytes) w = (Done (padd a 1, h'), w') ∧
    wf base (brk w') h' F' (<[a := units_for nbytes]> B) ∧ B !! a = None.
Proof using Hsbrk.
  intros Hwf Hnb Hn.
  assert (Hu : 0 < units_for nbytes < 2 ^ 27) by (unfold units_for; zmod).
  assert (Hf0 : freep h <> 0).
  { pose proof (wf_freep _ _ _ _ _ Hwf) as Hfp. pose proof (wf_top _ _ _ _ _ Hwf).
    pose proof (wf_free _ _ _ _ _ Hwf) as Hfr.
    apply elem_of_cons in Hfp as [->|(b & -> & Hb)%list_elem_of_fmap]; [lia|].
    rewrite Forall_forall in Hfr. specialize (Hfr _ Hb). lia. }
  unfold malloc. replace (nbytes + 16 - 1) with (nbytes + 15) by lia. fold (units_for nbytes).
  rewrite u32_small by lia. replace (freep h =? 0) with false by (symmetry; by apply Z.eqb_neq).
  destruct (first_fit (units_for nbytes) F) as [Hsmall|(V1 & p & s & V2 & EF & _ & Hs)].
  - destruct (search_miss n (units_for nbytes) h F B w n Hwf Hsmall Hu ltac:(lia) Hn) as (p & Hp & H).
    rewrite Hp. cbn [need mbind prog_bind]. destruct H as [H|H]; [by left|by right].
  - destruct (search_hit ker base n (units_for nbytes) h F B (brk w) w n p s Hwf ltac:(rewrite EF; set_solver) Hs
      ltac:(lia) ltac:(lia)) as (q & a & h' & F' & Hq & Hrun & Hw & HaB & _).
    right. exists a, h', F', w. rewrite Hq. done.
Qed.
End malloc.


(** ** An example *)

(** A kernel that grows the memory up to [limit]. *)
Definition growing (limit : Z) : kernel Z := λ R e,
  match e in sys R return Z -> R * Z with
  | sbrk n => λ top, if top + n <=? limit then (top, top + n) else (-1, top)
  | e => λ top, (refuse e, top)
  end.

Lemma growing_ok limit n top :
  limit <= 2 ^ 36 ->
  (∃ top', growing limit _ (sbrk n) top = (top, top') ∧ top' = top + n ∧ top' <= 2 ^ 36) ∨
  growing limit _ (sbrk n) top = (-1, top).
Proof.
  intros H. simpl. destruct (Z.leb_spec (top + n) limit); [left|by right].
  exists (top + n). split_and!; [done|done|lia].
Qed.

(** A heap with the free block (0x2000, 10) and the allocated block (0x3000, 5). *)
Definition ex_heap : heap :=
  Heap {[ 0x1000 := Header 0x2000 0; 0x2000 := Header 0x1000 10; 0x3000 := Header 0 5 ]} 0x1000.

Lemma ex_heap_ok : wf 0x1000 0x4000 ex_heap [(0x2000, 10)] {[ 0x3000 := 5 ]}.
Proof.
  constructor.
  - done.
  - repeat constructor.
  - by left.
  - repeat constructor; unfold padd; simpl; lia.
  - intros a s [<- <-]%lookup_singleton_Some.
    split_and!; [lia|lia|unfold padd; lia|done|]. constructor; [|constructor]. right. unfold padd. simpl. lia.
  - intros a s a' s' [<- <-]%lookup_singleton_Some [<- <-]%lookup_singleton_Some. done.
  - lia.
Qed.

Lemma free_keeps_invariant_witness :
  ∃ h' F', free 2 ex_heap (padd 0x3000 1) = Some h' ∧
    wf 0x1000 0x4000 h' F' (delete 0x3000 {[ 0x3000 := 5 ]}) ∧ units F' = 15.
Proof.
  refine (free_keeps_invariant 0x1000 0x4000 ex_heap [(0x2000, 10)] {[ 0x3000 := 5 ]} 0x3000 5 2 _ _ _).
  - exact ex_heap_ok.
  - done.
  - apply le_n.
Defined.

