(* ===== verification/Regex.v ===== *)
(** * Patterns

    What the patterns of user/grep.c and user/find.c mean.  A pattern is a
    sequence of items, each a character (['.'] standing for any) that may be
    followed by ['*']; [lang] is the set of strings a sequence of items
    matches, by the usual definition of a regular language. *)

From Stdlib Require Import ZArith Lia.
From stdpp Require Import base numbers list.
From S2P Require Import Prelude.

(** An item: the character and whether it is starred. *)
Definition item : Type := Z * bool.

(** The items a pattern is read as: a character is starred when the next one
    is ['*'] (42). *)
Fixpoint items (re : list Z) : list item :=
  match re with
  | [] => []
  | c :: re1 =>
      match re1 with
      | d :: re2 => if d =? 42 then (c, true) :: items re2 else (c, false) :: items re1
      | [] => [(c, false)]
      end
  end.

(** The character [x] is one that [c] stands for; ['.'] is 46. *)
Definition atom (c x : Z) : Prop := c = 46 ∨ c = x.

Inductive lang : list item -> list Z -> Prop :=
| lang_nil : lang [] []
| lang_one c x r t : atom c x -> lang r t -> lang ((c, false) :: r) (x :: t)
| lang_star c xs r t : Forall (atom c) xs -> lang r t -> lang ((c, true) :: r) (xs ++ t).

(** A C string: an array that holds [l], which has no NUL, and then a NUL. *)
Definition no_nul (l : list Z) : Prop := Forall (λ c, c <> 0) l.

Lemma items_star c re : items (c :: 42 :: re) = (c, true) :: items re.
Proof. done. Qed.

Lemma items_plain c re : head re <> Some 42 -> items (c :: re) = (c, false) :: items re.
Proof. destruct re as [|d re]; [done|]. simpl. intros H. destruct (Z.eqb_spec d 42); congruence. Qed.

Lemma lang_one_inv c r t : lang ((c, false) :: r) t -> ∃ x t', t = x :: t' ∧ atom c x ∧ lang r t'.
Proof. intros H. inversion H; subst. eauto. Qed.

Lemma lang_star_inv c r t :
  lang ((c, true) :: r) t -> ∃ xs t', t = xs ++ t' ∧ Forall (atom c) xs ∧ lang r t'.
Proof. intros H. inversion H; subst. eauto. Qed.

(** A starred item: nothing, or one more character. *)
Lemma lang_star_unfold c r t :
  lang ((c, true) :: r) t <-> lang r t ∨ ∃ x t', t = x :: t' ∧ atom c x ∧ lang ((c, true) :: r) t'.
Proof.
  split.
  - intros (xs & t' & -> & Hxs & Hr)%lang_star_inv. destruct Hxs as [|x xs Hx Hxs]; [by left|].
    right. exists x, (xs ++ t'). split_and!; [done|done|by apply lang_star].
  - intros [H|(x & t' & -> & Hx & (xs & t'' & -> & Hxs & Hr)%lang_star_inv)].
    + by apply (lang_star c []).
    + apply (lang_star c (x :: xs)); [by constructor|done].
Qed.

(** [o] answers yes or no, and yes exactly when [P] holds. *)
Definition answers (o : option bool) (P : Prop) : Prop :=
  ∃ b : bool, o = Some b ∧ (b = true <-> P).

Lemma answers_yes P : P -> answers (Some true) P.
Proof. intros H. by exists true. Qed.

Lemma answers_no P : ~ P -> answers (Some false) P.
Proof. intros H. by exists false. Qed.

Lemma answers_iff o P Q : answers o P -> (P <-> Q) -> answers o Q.
Proof. intros (b & -> & Hb) H. exists b. by rewrite Hb. Qed.
