(* ===== verification/Grep.v ===== *)
(** * user/grep.c

    match(), matchhere() and matchstar() with the strings they are called on
    as arrays that end in NUL, and grep() with its 1024-byte buffer.  The
    matcher is shown to decide membership in the language of the pattern
    (Regex.v), and grep() to print exactly the matching lines of its input, in
    whatever pieces read() returns it. *)

From Stdlib Require Import ZArith Lia.
From stdpp Require Import base numbers list gmap strings.
From S2P Require Import Prelude User Ulib Regex.

(** matchstar(c, re, text); [mh] is [matchhere(re, .)]. *)
Fixpoint matchstar (mh : list Z -> option bool) (c : Z) (text : list Z) : option bool :=
  b ← mh text;
  if b : bool then Some true else
  match text with
  | [] => None
  | x :: text' => if truth x && ((x =? c) || (c =? 46)) then matchstar mh c text' else Some false
  end.

Fixpoint matchhere (re text : list Z) {struct re} : option bool :=
  match re with
  | [] => None
  | c :: re1 =>
      if c =? 0 then Some true else
      match re1 with
      | [] => None
      | d :: re2 =>
          if d =? 42 then matchstar (matchhere re2) c text else
          match text with
          | [] => None
          | x :: text' =>
              if (c =? 36) && (d =? 0) then Some (x =? 0) else
              if truth x && ((c =? 46) || (c =? x)) then matchhere re1 text' else Some false
          end
      end
  end.

(** [do { if(matchhere(re, text)) return 1; } while( *text++ != 0); return 0;] *)
Fixpoint match_loop (re text : list Z) {struct text} : option bool :=
  b ← matchhere re text;
  if b : bool then Some true else
  match text with
  | [] => None
  | x :: text' => if x =? 0 then Some false else match_loop re text'
  end.

Definition match_ (re text : list Z) : option bool :=
  match re with
  | [] => None
  | c :: re' => if c =? 94 then matchhere re' text else match_loop re text
  end.

(** The loop over the complete lines in [buf], from index [p]: the buffer and
    the new [p] are returned.  Every round moves [p] past a newline, so as
    many rounds as the buffer has bytes are enough. *)
Definition grep_line (pattern : list Z) (s : list Z * nat) :
    prog ((list Z * nat) + (list Z * nat)) :=
  let '(buf, p) := s in
  o ← need (strchr (drop p buf) 10);
  match o with
  | None => Ret (inr (buf, p))
  | Some k =>
      let q := (p + k)%nat in
      buf ← need (put buf q 0);
      m ← need (match_ pattern (drop p buf));
      buf ← (if m : bool then
               buf ← need (put buf q 10);
               _ ← call (write 1 (take (q + 1 - p) (drop p buf)));
               Ret buf
             else Ret buf);
      Ret (inl (buf, q + 1)%nat)
  end.

Definition grep_lines (pattern buf : list Z) (p : nat) : prog (list Z * nat) :=
  uloop (S (length buf)) (grep_line pattern) (buf, p).

(** One round of the outer loop: [m] bytes of [buf] are an incomplete line. *)
Definition grep_body (pattern : list Z) (fd : Z) (s : list Z * nat) :
    prog ((list Z * nat) + list Z) :=
  let '(buf, m) := s in
  '(n, b) ← call (read fd (1024 - Z.of_nat m - 1));
  if n <=? 0 then Ret (inr buf) else
  buf ← need (copy_to buf m b (length b));
  let m := (m + Z.to_nat n)%nat in
  buf ← need (put buf m 0);
  '(buf, p) ← grep_lines pattern buf 0;
  if decide (0 < m)%nat then
    buf ← need (memmove buf 0 p (Z.of_nat (m - p)));
    Ret (inl (buf, m - p)%nat)
  else Ret (inl (buf, m)).

(** grep(): [buf] is the static buffer, returned as it is left; [fuel] bounds
    the number of reads. *)
Definition grep (fuel : nat) (pattern : list Z) (fd : Z) (buf : list Z) : prog (list Z) :=
  uloop fuel (grep_body pattern fd) (buf, O).

Fixpoint grep_files (fuel : nat) (pattern : list Z) (buf : list Z) (files : list (list Z)) :
    prog unit :=
  match files with
  | [] => exit 0
  | f :: files =>
      fd ← call (open f 0);
      if fd <? 0 then
        _ ← printf ("grep: cannot open %s" +:+ newline) [A_str (Some f)]; exit 1
      else
      buf ← grep fuel pattern fd buf;
      _ ← call (close fd);
      grep_files fuel pattern buf files
  end.

Definition main (fuel : nat) (argv : list (list Z)) : prog unit :=
  match argv with
  | _ :: pattern :: files =>
      match files with
      | [] => _ ← grep fuel pattern 0 (replicate 1024 0); exit 0
      | _ => grep_files fuel pattern (replicate 1024 0) files
      end
  | _ => _ ← fprintf 2 ("usage: grep pattern [file ...]" +:+ newline) []; exit 1
  end.

(** ** What match() decides *)

(** The items [its] match a prefix of [t]; a final plain ['$'] (36) stands for
    the end of the text. *)
Definition here (its : list item) (t : list Z) : Prop :=
  ∃ mid post, t = mid ++ post ∧
    ((∃ its0, its = its0 ++ [(36, false)] ∧ post = [] ∧ lang its0 mid) ∨
     (last its <> Some (36, false) ∧ lang its mid)).

(** The pattern [re] occurs in the text [t]: somewhere, or at its start if
    [re] begins with ['^'] (94). *)
Definition matches (re t : list Z) : Prop :=
  match re with
  | 94 :: re' => here (items re') t
  | _ => ∃ pre t', t = pre ++ t' ∧ here (items re) t'
  end.

Lemma here_nil t : here [] t.
Proof. exists [], t. split; [done|]. right. split; [done|constructor]. Qed.

Lemma here_dollar t : here [(36, false)] t <-> t = [].
Proof.
  split.
  - intros (mid & post & -> & [(its0 & E & -> & Hl)|[H _]]); [|done].
    destruct its0 as [|i [|]]; simplify_eq/=. by inversion Hl.
  - intros ->. exists [], []. split; [done|]. left. exists []. split_and!; [done|done|constructor].
Qed.

Lemma here_plain c r t :
  (c, r) <> (36, []) ->
  here ((c, false) :: r) t <-> ∃ x t', t = x :: t' ∧ atom c x ∧ here r t'.
Proof.
  intros Hc. split.
  - intros (mid & post & -> & [(its0 & E & -> & Hl)|[H Hl]]).
    + destruct its0 as [|i its0]; simplify_eq/=.
      apply lang_one_inv in Hl as (x & t' & -> & Hx & Hl). exists x, (t' ++ []).
      split_and!; [done|done|]. exists t', []. split; [done|]. left. eauto.
    + apply lang_one_inv in Hl as (x & t' & -> & Hx & Hl). exists x, (t' ++ post).
      split_and!; [done|done|]. exists t', post. split; [done|]. right. split; [|done].
      destruct r as [|i r]; [done|exact H].
  - intros (x & t' & -> & Hx & mid & post & -> & [(its0 & -> & -> & Hl)|[H Hl]]).
    + exists (x :: mid), []. split; [done|]. left. exists ((c, false) :: its0).
      split_and!; [done|done|by constructor].
    + exists (x :: mid), post. split; [done|]. right. split; [|by constructor].
      destruct r as [|i r]; [|exact H]. simpl. congruence.
Qed.

Lemma here_star c r t :
  here ((c, true) :: r) t <->
  here r t ∨ ∃ x t', t = x :: t' ∧ atom c x ∧ here ((c, true) :: r) t'.
Proof.
  assert (Hlast : last ((c, true) :: r) <> Some (36, false) <-> last r <> Some (36, false)).
  { destruct r; simpl; [naive_solver|done]. }
  split.
  - intros (mid & post & -> & [(its0 & E & -> & Hl)|[H Hl]]).
    + destruct its0 as [|i its0]; simplify_eq/=. apply lang_star_unfold in Hl as [Hl|Hl].
      * left. exists mid, []. split; [done|]. left. eauto.
      * destruct Hl as (x & t' & -> & Hx & Hl). right. exists x, (t' ++ []).
        split_and!; [done|done|]. exists t', []. split; [done|]. left. by exists ((c, true) :: its0).
    + apply lang_star_unfold in Hl as [Hl|(x & t' & -> & Hx & Hl)].
      * left. exists mid, post. split; [done|]. right. split; [by apply Hlast|done].
      * right. exists x, (t' ++ post). split_and!; [done|done|]. exists t', post. by split; [|right].
  - intros [(mid & post & -> & [(its0 & -> & -> & Hl)|[H Hl]])|(x & t' & -> & Hx & mid & post & -> &
      [(its0 & E & -> & Hl)|[H Hl]])].
    + exists mid, []. split; [done|]. left. exists ((c, true) :: its0). split_and!; [done|done|].
      apply lang_star_unfold. by left.
    + exists mid, post. split; [done|]. right. split; [by apply Hlast|]. apply lang_star_unfold. by left.
    + destruct its0 as [|i its0]; simplify_eq/=. exists (x :: mid), []. split; [done|]. left.
      exists ((c, true) :: its0). split_and!; [done|done|]. apply lang_star_unfold. right. by exists x, mid.
    + exists (x :: mid), post. split; [done|]. right. split; [done|]. apply lang_star_unfold. right. by exists x, mid.
Qed.

Lemma matchstar_ok mh c r t junk :
  no_nul t ->
  (∀ t, no_nul t -> answers (mh (t ++ 0 :: junk)) (here r t)) ->
  answers (matchstar mh c (t ++ 0 :: junk)) (here ((c, true) :: r) t).
Proof.
  intros Ht Hmh. induction Ht as [|x t Hx Ht IH].
  - destruct (Hmh [] ltac:(constructor)) as (b & E & Hb).
    change ([] ++ 0 :: junk) with (0 :: junk) in *. simpl. rewrite E. simpl.
    destruct b; [apply answers_yes, here_star; left; by apply Hb|].
    apply answers_no. rewrite here_star. intros [H|(x & t' & H & _)]; [|done].
    apply Hb in H. done.
  - destruct (Hmh (x :: t) ltac:(by constructor)) as (b & E & Hb).
    change ((x :: t) ++ 0 :: junk) with (x :: (t ++ 0 :: junk)) in *. simpl. rewrite E. simpl.
    destruct b; [apply answers_yes, here_star; left; by apply Hb|].
    assert (Hno : ~ here r (x :: t)) by (intros H; apply Hb in H; done).
    replace (truth x) with true by (unfold truth; destruct (Z.eqb_spec x 0); done). simpl.
    destruct ((x =? c) || (c =? 46)) eqn:Ec.
    + eapply answers_iff; [apply IH|]. rewrite (here_star _ _ (x :: t)).
      apply orb_true_iff in Ec. split; [|naive_solver].
      intros H. right. exists x, t. split_and!; [done| |done].
      destruct Ec as [Ec|Ec]; apply Z.eqb_eq in Ec; [by right|by left].
    + zb. apply answers_no. rewrite here_star. intros [H'|(y & t' & [= <- <-] & [->| ->] & _)]; done.
Qed.

Lemma truth_nonzero x : x <> 0 -> truth x = true.
Proof. intros H. unfold truth. by destruct (Z.eqb_spec x 0). Qed.

(** One plain character of the pattern against the text. *)
Lemma matchhere_plain c re1 t junk1 junk2 :
  no_nul (c :: re1) -> no_nul t -> head re1 <> Some 42 ->
  (∀ t, no_nul t -> answers (matchhere (re1 ++ 0 :: junk1) (t ++ 0 :: junk2)) (here (items re1) t)) ->
  answers (matchhere ((c :: re1) ++ 0 :: junk1) (t ++ 0 :: junk2)) (here (items (c :: re1)) t).
Proof.
  intros [Hc Hre]%Forall_cons Ht Hd IH. rewrite items_plain by done.
  set (re' := re1 ++ 0 :: junk1) in *.
  assert (∃ d rest, re' = d :: rest ∧ d <> 42 ∧ (d = 0 <-> re1 = [])) as (d & rest & E & Hd42 & Hd0).
  { subst re'. destruct re1 as [|d re1]; [by exists 0, junk1|]. exists d, (re1 ++ 0 :: junk1).
    apply Forall_cons in Hre as [? ?]. split_and!; [done|by intros ->|done]. }
  change ((c :: re1) ++ 0 :: junk1) with (c :: re'). clearbody re'. subst re'.
  cbn [matchhere]. destruct (Z.eqb_spec c 0); [done|]. destruct (Z.eqb_spec d 42); [done|].
  destruct (decide ((c, items re1) = (36, []))) as [[= -> E]|Hne].
  { assert (re1 = []) as -> by (destruct re1 as [|? [|? ?]]; [done|done|simpl in E; by case_match]).
    replace d with 0 by (symmetry; by apply Hd0). simpl items.
    destruct Ht as [|x t Hx Ht]; cbn [app]; simpl.
    - by apply answers_yes, here_dollar.
    - destruct (Z.eqb_spec x 0); [done|]. apply answers_no. by rewrite here_dollar. }
  assert (Ecd : (c =? 36) && (d =? 0) = false).
  { apply andb_false_iff. destruct (Z.eqb_spec c 36) as [->|]; [|by left]. right.
    apply Z.eqb_neq. intros ->. apply Hne. by rewrite (proj1 Hd0 eq_refl). }
  destruct Ht as [|x t Hx Ht]; cbn [app]; rewrite Ecd.
  - apply answers_no. rewrite here_plain by done. by intros (? & ? & ? & _).
  - rewrite truth_nonzero by done. cbn [andb]. destruct ((c =? 46) || (c =? x)) eqn:Ec.
    + eapply answers_iff; [by apply IH|]. rewrite here_plain by done. split; [|naive_solver].
      intros H. exists x, t. split_and!; [done| |done].
      apply orb_true_iff in Ec as [Ec|Ec]; apply Z.eqb_eq in Ec; [by left|by right].
    + zb. apply answers_no. rewrite here_plain by done.
      intros (y & t' & [= <- <-] & [->| ->] & _); done.
Qed.

Lemma matchhere_ok re t junk1 junk2 :
  no_nul re -> no_nul t ->
  answers (matchhere (re ++ 0 :: junk1) (t ++ 0 :: junk2)) (here (items re) t).
Proof.
  revert t. induction re as [re IH] using (induction_ltof1 _ length). unfold ltof in IH.
  intros t Hre Ht. destruct re as [|c re1].
  { apply answers_yes, here_nil. }
  pose proof Hre as [Hc Hre1]%Forall_cons.
  destruct (decide (head re1 = Some 42)) as [H42|H42].
  - destruct re1 as [|d re2]; simplify_eq/=. apply Forall_cons in Hre1 as [_ Hre2].
    destruct (Z.eqb_spec c 0); [done|]. apply matchstar_ok; [done|].
    intros t' Ht'. apply IH; [simpl; lia|done|done].
  - apply matchhere_plain; [done|done|done|]. intros t' Ht'. apply IH; [simpl; lia|done|done].
Qed.

Lemma match_loop_ok re t junk1 junk2 :
  no_nul re -> no_nul t ->
  answers (match_loop (re ++ 0 :: junk1) (t ++ 0 :: junk2))
    (∃ pre t', t = pre ++ t' ∧ here (items re) t').
Proof.
  intros Hre Ht. induction Ht as [|x t Hx Ht IH].
  - destruct (matchhere_ok re [] junk1 junk2 Hre ltac:(constructor)) as (b & E & Hb).
    change ([] ++ 0 :: junk2) with (0 :: junk2) in *. cbn [match_loop]. rewrite E. simpl.
    destruct b; [apply answers_yes; exists [], []; split; [done|]; by apply Hb|].
    apply answers_no. intros (pre & t' & H & Hh). symmetry in H. apply app_nil in H as [-> ->].
    apply Hb in Hh. done.
  - destruct (matchhere_ok re (x :: t) junk1 junk2 Hre ltac:(by constructor)) as (b & E & Hb).
    change ((x :: t) ++ 0 :: junk2) with (x :: (t ++ 0 :: junk2)) in *. cbn [match_loop].
    rewrite E. simpl.
    destruct b; [apply answers_yes; exists [], (x :: t); split; [done|]; by apply Hb|].
    destruct (Z.eqb_spec x 0); [done|]. eapply answers_iff; [apply IH|]. split.
    + intros (pre & t' & -> & Hh). by exists (x :: pre), t'.
    + intros ([|y pre] & t' & H & Hh); simplify_eq/=; [|eauto]. apply Hb in Hh. done.
Qed.

Lemma match_answers re text junk1 junk2 :
  no_nul re -> no_nul text ->
  answers (match_ (re ++ 0 :: junk1) (text ++ 0 :: junk2)) (matches re text).
Proof.
  intros Hre Ht. destruct re as [|c re].
  { eapply answers_iff; [apply (match_loop_ok [] text junk1 junk2); [done|done]|]. done. }
  pose proof Hre as [Hc Hre']%Forall_cons. unfold match_. cbn [app].
  destruct (Z.eqb_spec c 94) as [->|Hne].
  - eapply answers_iff; [by apply matchhere_ok|]. done.
  - eapply answers_iff; [by apply (match_loop_ok (c :: re))|]. unfold matches.
    destruct c as [|p|p]; [done| |done]. do 7 (destruct p as [p|p|]; try done).
Qed.

(** C20: match() decides whether the pattern occurs in the text: with the two
    strings stored as NUL-terminated arrays it always answers, and answers yes
    exactly when some part of the text (a prefix, if the pattern starts with
    ['^']; a part that ends the text, if it ends in ['$']) is in the language
    of the pattern. *)
Theorem match_correct (re text junk1 junk2 : list Z) :
  no_nul re -> no_nul text ->
  ∃ b, match_ (re ++ 0 :: junk1) (text ++ 0 :: junk2) = Some b ∧ (b = true <-> matches re text).
Proof. apply match_answers. Qed.

Lemma match_correct_witness :
  (∃ b, match_ (chars "^a.*b$" ++ [0]) (chars "axyzb" ++ [0]) = Some b ∧
    (b = true <-> matches (chars "^a.*b$") (chars "axyzb"))) ∧
  match_ (chars "^a.*b$" ++ [0]) (chars "axyzb" ++ [0]) = Some true.
Proof.
  split; [|reflexivity]. refine (match_correct (chars "^a.*b$") (chars "axyzb") [] [] _ _).
  all: repeat constructor; done.
Defined.

(** ** grep() prints the matching lines *)

(** Lines, each followed by a newline (10). *)
Definition text_of (L : list (list Z)) : list Z := mjoin ((λ l, l ++ [10]) <$> L).
Definition no_newline (l : list Z) : Prop := Forall (λ c, c <> 10) l.

(** match() finds the pattern in the line. *)
Definition selects (pattern l : list Z) : Prop := match_ (pattern ++ [0]) (l ++ [0]) = Some true.
#[global] Instance selects_dec pattern l : Decision (selects pattern l).
Proof. unfold selects. apply _. Defined.

Lemma text_of_cons l L : text_of (l :: L) = l ++ 10 :: text_of L.
Proof. unfold text_of. simpl. by rewrite <- app_assoc. Qed.

Lemma text_of_app L1 L2 : text_of (L1 ++ L2) = text_of L1 ++ text_of L2.
Proof. unfold text_of. by rewrite fmap_app, join_app. Qed.

Lemma selects_any pattern l junk1 junk2 :
  no_nul pattern -> no_nul l ->
  match_ (pattern ++ 0 :: junk1) (l ++ 0 :: junk2) = Some (bool_decide (selects pattern l)).
Proof.
  intros Hp Hl. destruct (match_answers pattern l junk1 junk2 Hp Hl) as (b & -> & Hb).
  destruct (match_answers pattern l [] [] Hp Hl) as (b' & E & Hb'). f_equal.
  symmetry. destruct b; [apply bool_decide_eq_true|apply bool_decide_eq_false]; unfold selects;
    rewrite E; destruct b'; naive_solver.
Qed.

Lemma strchr_found l c rest :
  no_nul l -> Forall (λ x, x <> c) l -> c <> 0 ->
  strchr (l ++ c :: rest) c = Some (Some (length l)).
Proof.
  intros Hl Hc Hc0. induction Hl as [|x l Hx Hl IH]; simpl.
  - destruct (Z.eqb_spec c 0); [done|]. by rewrite Z.eqb_refl.
  - apply Forall_cons in Hc as [Hxc Hc]. destruct (Z.eqb_spec x 0); [done|].
    destruct (Z.eqb_spec x c); [done|]. by rewrite IH.
Qed.

Lemma strchr_absent l c rest :
  no_nul l -> Forall (λ x, x <> c) l -> strchr (l ++ 0 :: rest) c = Some None.
Proof.
  intros Hl Hc. induction Hl as [|x l Hx Hl IH]; simpl; [done|].
  apply Forall_cons in Hc as [Hxc Hc]. destruct (Z.eqb_spec x 0); [done|].
  destruct (Z.eqb_spec x c); [done|]. by rewrite IH.
Qed.

(** A prefix of the input is complete lines and the start of a line. *)
Lemma cut_lines x y L r :
  x ++ y = text_of L ++ r -> Forall no_newline L -> no_newline r ->
  ∃ L1 L2 p, L = L1 ++ L2 ∧ x = text_of L1 ++ p ∧ no_newline p ∧ p ++ y = text_of L2 ++ r.
Proof.
  revert x. induction L as [|l L IH]; intros x E HL Hr.
  { exists [], [], x. split_and!; [done|done| |done].
    unfold no_newline in *. simpl in E. subst r. by apply Forall_app in Hr as [? _]. }
  apply Forall_cons in HL as [Hl HL]. rewrite text_of_cons, <- app_assoc in E.
  apply app_eq_inv in E as [(k & Ex & Ey)|(k & El & Ey)].
  - destruct k as [|c k].
    + exists [], (l :: L), x. rewrite app_nil_r in Ex. subst x.
      split_and!; [done|done|done|]. simpl in *. rewrite text_of_cons, <- app_assoc. simpl. by rewrite <- Ey.
    + simpl in Ey. injection Ey as <- Ey. destruct (IH k (eq_sym Ey) HL Hr) as (L1 & L2 & p & -> & -> & Hp & E2).
      exists (l :: L1), L2, p. split_and!; [done| |done|done]. subst x. rewrite text_of_cons, <- app_assoc. done.
  - exists [], (l :: L), x. split_and!; [done|done| |].
    + unfold no_newline in *. subst l. by apply Forall_app in Hl as [? _].
    + simpl. rewrite text_of_cons, El, <- !app_assoc. simpl. by rewrite Ey.
Qed.

Lemma put_middle pre x v rest : put (pre ++ x :: rest) (length pre) v = Some (pre ++ v :: rest).
Proof.
  rewrite put_ok by (rewrite length_app; simpl; lia).
  by rewrite insert_app_r_alt, Nat.sub_diag by lia.
Qed.

(** What is printed of the lines [L]. *)
Definition selected (pattern : list Z) (L : list (list Z)) : list Z :=
  text_of (filter (selects pattern) L).

Lemma grep_line_next pattern junk pre l rest w :
  no_nul pattern -> no_nul l -> no_newline l ->
  ∃ pre', length pre' = (length pre + length l + 1)%nat ∧
  run streams (grep_line (pattern ++ 0 :: junk) (pre ++ l ++ 10 :: rest, length pre)) w =
    (Done (inl (pre' ++ rest, length pre')), emit 1 (selected pattern [l]) w).
Proof.
  intros Hp Hl Hn. unfold grep_line. rewrite drop_app_length.
  rewrite strchr_found by done. cbn [need mbind prog_bind].
  assert (Eput : ∀ x v, put (pre ++ l ++ x :: rest) (length pre + length l) v = Some (pre ++ l ++ v :: rest)).
  { intros x v. rewrite !app_assoc, <- length_app. apply put_middle. }
  rewrite Eput. cbn [need mbind prog_bind]. rewrite drop_app_length, selects_any by done.
  cbn [need mbind prog_bind]. unfold selected. destruct (decide (selects pattern l)) as [Hs|Hs].
  - rewrite bool_decide_eq_true_2 by done. rewrite Eput. cbn [need mbind prog_bind].
    exists (pre ++ l ++ [10]). rewrite !length_app. simpl length. split; [lia|].
    rewrite drop_app_length, filter_cons_True by done.
    replace (text_of (l :: filter (selects pattern) [])) with (l ++ [10])
      by (unfold text_of; simpl; by rewrite app_nil_r).
    assert (Et : take (length pre + length l + 1 - length pre) (l ++ 10 :: rest) = l ++ [10]).
    { replace (l ++ 10 :: rest) with ((l ++ [10]) ++ rest) by (by rewrite <- app_assoc).
      rewrite take_app_length'; [done|]. rewrite length_app. simpl. lia. }
    rewrite Et. simpl. rewrite <- !app_assoc. simpl. do 4 f_equal. lia.
  - rewrite bool_decide_eq_false_2 by done. cbn [need mbind prog_bind].
    exists (pre ++ l ++ [0]). rewrite !length_app. simpl length. split; [lia|].
    rewrite filter_cons_False by done. simpl. rewrite <- !app_assoc. simpl. do 4 f_equal. lia.
Qed.

Lemma selected_cons pattern l L : selected pattern (l :: L) = selected pattern [l] ++ selected pattern L.
Proof. unfold selected. rewrite <- text_of_app, <- filter_app. done. Qed.

Lemma grep_lines_ok pattern junk L pre pend rest w n :
  no_nul pattern -> Forall no_nul L -> Forall no_newline L -> no_nul pend -> no_newline pend ->
  (length L < n)%nat ->
  ∃ pre', length pre' = (length pre + length (text_of L))%nat ∧
  run streams (uloop n (grep_line (pattern ++ 0 :: junk)) (pre ++ text_of L ++ pend ++ 0 :: rest, length pre)) w =
    (Done (pre' ++ pend ++ 0 :: rest, length pre'), emit 1 (selected pattern L) w).
Proof.
  intros Hp HL0 HL Hq0 Hq. revert pre w n. induction L as [|l L IH]; intros pre w n Hn.
  - destruct n as [|n]; [lia|]. exists pre. simpl length. split; [lia|].
    apply run_uloop_last. unfold grep_line. simpl. rewrite drop_app_length, strchr_absent by done. done.
  - apply Forall_cons in HL0 as [Hl0 HL0]. apply Forall_cons in HL as [Hl HL].
    destruct n as [|n]; [lia|]. rewrite text_of_cons.
    destruct (grep_line_next pattern junk pre l (text_of L ++ pend ++ 0 :: rest) w Hp Hl0 Hl) as (pre1 & E1 & R1).
    destruct (IH HL0 HL pre1 (emit 1 (selected pattern [l]) w) n ltac:(simpl in Hn; lia)) as (pre2 & E2 & R2).
    exists pre2. split; [rewrite length_app; simpl; lia|].
    rewrite <- app_assoc. simpl app. rewrite (run_uloop_next _ _ _ _ _ _ _ R1), R2, emit_emit.
    by rewrite (selected_cons pattern l L).
Qed.

(** A line cannot end before the text it starts with does. *)
Lemma pending_no_lines pend y L r :
  pend ++ y = text_of L ++ r -> no_newline pend ->
  y = [] ∨ Forall (λ l, (length l < length pend)%nat) L -> L = [].
Proof.
  intros E Hp Hy. destruct L as [|l L]; [done|]. exfalso.
  rewrite text_of_cons, <- app_assoc in E.
  assert (Hlt : (length l < length pend)%nat).
  { destruct Hy as [->|Hy]; [|by apply Forall_cons in Hy as [? _]].
    apply (f_equal length) in E. rewrite !length_app in E. simpl in E. lia. }
  assert (E2 : pend !! length l = Some 10).
  { rewrite <- (lookup_app_l pend y), E, lookup_app_r, Nat.sub_diag by lia. done. }
  by apply (proj1 (Forall_lookup _ _) Hp _ _ E2).
Qed.

Lemma no_nul_text L r : Forall no_nul L -> no_nul r -> no_nul (text_of L ++ r).
Proof.
  intros HL Hr. induction HL as [|l L Hl HL IH]; [done|]. rewrite text_of_cons, <- app_assoc.
  apply Forall_app. split; [done|]. by constructor.
Qed.

Section grep_loop.
Context (pattern junk : list Z) (fd : Z) (Hpat : no_nul pattern).

(** A round that reads [b]: the lines completed by [b] are printed, and the
    start of the next line moves to the front of the buffer. *)
Lemma grep_body_reads pend buf b L1 p w :
  (length pend + length b < length buf)%nat -> (length buf = 1024)%nat ->
  take (length pend) buf = pend -> b <> [] ->
  take (chunk w (1023 - length pend)) (inp w fd) = b ->
  pend ++ b = text_of L1 ++ p ->
  Forall no_nul L1 -> Forall no_newline L1 -> no_nul p -> no_newline p ->
  ∃ buf', length buf' = 1024%nat ∧ take (length p) buf' = p ∧
  run streams (grep_body (pattern ++ 0 :: junk) fd (buf, length pend)) w =
    (Done (inl (buf', length p)), emit 1 (selected pattern L1) (consume fd (length b) w)).
Proof using Hpat.
  intros Hlen Hbuf Hpend Hb Hin E HL0 HL Hp0 Hp. unfold grep_body, call.
  cbn [mbind prog_bind run streams].
  replace (Z.to_nat (1024 - Z.of_nat (length pend) - 1)) with (1023 - length pend)%nat by lia.
  rewrite Hin.
  assert (Hb1 : (0 < length b)%nat) by (destruct b; [done|simpl; lia]).
  replace (Z.of_nat (length b) <=? 0) with false by (symmetry; apply Z.leb_gt; lia).
  rewrite copy_to_ok, firstn_all by lia. cbn [need mbind prog_bind]. rewrite Nat2Z.id.
  assert (Hov : overwrite buf (length pend) b = pend ++ b ++ drop (length pend + length b) buf).
  { unfold overwrite. by rewrite Hpend. }
  rewrite Hov. destruct (drop (length pend + length b) buf) as [|x rest] eqn:Ed.
  { apply (f_equal length) in Ed. rewrite length_drop in Ed. simpl in Ed. lia. }
  assert (Hrest : (length rest + length pend + length b = 1023)%nat).
  { apply (f_equal length) in Ed. rewrite length_drop in Ed. simpl in Ed. lia. }
  rewrite app_assoc, <- (length_app pend b), put_middle. cbn [need mbind prog_bind].
  rewrite E. rewrite <- app_assoc.
  pose proof (f_equal length E) as El. rewrite !length_app in El.
  assert (HLn : (length L1 <= length (text_of L1))%nat).
  { clear. induction L1 as [|l L IH]; [simpl; lia|]. rewrite text_of_cons, length_app. simpl. lia. }
  destruct (grep_lines_ok pattern junk L1 [] p rest (consume fd (length b) w)
    (S (length (text_of L1 ++ p ++ 0 :: rest))) Hpat HL0 HL Hp0 Hp ltac:(rewrite length_app; lia))
    as (pre' & Epre & R).
  cbn [app length] in R. unfold grep_lines.
  rewrite (run_bind_done _ _ _ _ _ _ R). cbn [mbind prog_bind run].
  rewrite length_app, decide_True by lia.
  simpl in Epre.
  replace (length (text_of L1) + length p - length pre')%nat with (length p) by lia.
  assert (Hm : memmove (pre' ++ p ++ 0 :: rest) 0 (length pre') (Z.of_nat (length p)) =
    Some (overwrite (pre' ++ p ++ 0 :: rest) 0 p)).
  { unfold memmove. rewrite Nat2Z.id.
    assert (Ht : take (length p) (drop (length pre') (pre' ++ p ++ 0 :: rest)) = p)
      by (by rewrite drop_app_length, take_app_length).
    case_decide.
    - rewrite move_up_ok, Ht by (rewrite ?length_app; lia). done.
    - rewrite move_down_ok, Ht by (rewrite ?length_app; lia). done. }
  rewrite Hm. cbn [need mbind prog_bind run].
  eexists. split_and!; [| |reflexivity].
  - rewrite length_overwrite; rewrite !length_app; simpl; lia.
  - unfold overwrite. simpl. by rewrite take_app_length.
Qed.

Lemma grep_loop_ok fuel pend buf L r w :
  length buf = 1024%nat -> take (length pend) buf = pend -> (length pend <= 1023)%nat ->
  pend ++ inp w fd = text_of L ++ r ->
  no_newline pend -> Forall no_newline L -> no_newline r -> Forall no_nul L -> no_nul r ->
  Forall (λ l, (length l <= 1022)%nat) L -> (length (inp w fd) < fuel)%nat ->
  ∃ buf' w', run streams (uloop fuel (grep_body (pattern ++ 0 :: junk) fd) (buf, length pend)) w =
    (Done buf', w') ∧ outp w' 1 = outp w 1 ++ selected pattern L.
Proof using Hpat.
  revert pend buf L w.
  induction fuel as [|fuel IH]; intros pend buf L w Hbuf Hpend Hm E Hp HL Hr HL0 Hr0 Hlen Hfuel; [lia|].
  set (b := take (chunk w (1023 - length pend)) (inp w fd)).
  destruct (decide (b = [])) as [Hb|Hb].
  - assert (L = []) as ->.
    { eapply pending_no_lines; [exact E|done|].
      destruct (decide (length pend = 1023%nat)) as [Hfull|Hfull].
      - right. eapply Forall_impl; [exact Hlen|]. simpl. lia.
      - left. subst b. pose proof (chunk_pos w (1023 - length pend) ltac:(lia)).
        destruct (inp w fd); [done|]. destruct (chunk w (1023 - length pend)); [lia|done]. }
    eexists _, _. split.
    + apply run_uloop_last. unfold grep_body, call. cbn [mbind prog_bind run streams].
      replace (Z.to_nat (1024 - Z.of_nat (length pend) - 1)) with (1023 - length pend)%nat by lia.
      fold b. rewrite Hb. simpl. reflexivity.
    + rewrite outp_consume. by rewrite app_nil_r.
  - assert (Hin : inp w fd = b ++ drop (length b) (inp w fd)).
    { subst b. destruct (decide (chunk w (1023 - length pend) <= length (inp w fd))%nat).
      - rewrite length_take_le by done. by rewrite take_drop.
      - rewrite take_ge by lia. by rewrite drop_all, app_nil_r. }
    rewrite Hin in E. rewrite app_assoc in E.
    destruct (cut_lines _ _ L r E HL Hr) as (L1 & L2 & p & -> & Ex & Hpn & E2).
    apply Forall_app in HL as [HL1 HL2]. apply Forall_app in HL0 as [HL01 HL02].
    apply Forall_app in Hlen as [_ Hlen2].
    assert (Hb1 : (length pend + length b <= 1023)%nat).
    { assert (chunk w (1023 - length pend) <= 1023 - length pend)%nat.
      { unfold chunk. destruct (w_sizes w); lia. }
      subst b. rewrite length_take. lia. }
    assert (Hp0 : no_nul p).
    { assert (Hall : no_nul (p ++ drop (length b) (inp w fd))) by (rewrite E2; by apply no_nul_text).
      by apply Forall_app in Hall as [? _]. }
    assert (Hpl : (length p <= 1023)%nat) by (apply (f_equal length) in Ex; rewrite !length_app in Ex; lia).
    destruct (grep_body_reads pend buf b L1 p w ltac:(lia) Hbuf Hpend Hb eq_refl Ex HL01 HL1 Hp0 Hpn)
      as (buf' & Hbuf' & Htake & R).
    rewrite (run_uloop_next _ _ _ _ _ _ _ R).
    destruct (IH p buf' L2 (emit 1 (selected pattern L1) (consume fd (length b) w)))
      as (buf2 & w2 & R2 & O2); try done.
    + by rewrite inp_emit, inp_consume.
    + rewrite inp_emit, inp_consume, length_drop.
      assert (0 < length b)%nat by (destruct b; [done|simpl; lia]). rewrite Hin in Hfuel.
      rewrite length_app, length_drop in Hfuel. lia.
    + exists buf2, w2. split; [done|]. rewrite O2, outp_emit, outp_consume, <- app_assoc.
      unfold selected. by rewrite filter_app, text_of_app.
Qed.
End grep_loop.

(** C21: grep() prints exactly the lines that match() selects, in order and each
    with its newline, however read() splits the input: for input without NUL
    bytes in lines [L] of at most 1022 characters, then an unterminated rest
    [r], which is dropped.  It never accesses its buffer out of bounds and
    returns after at most one read per byte and one at the end. *)
Theorem grep_selects_lines (fuel : nat) (pattern buf r : list Z) (L : list (list Z)) (fd : Z) (w : world) :
  no_nul pattern -> length buf = 1024%nat ->
  inp w fd = text_of L ++ r ->
  Forall no_newline L -> no_newline r -> Forall no_nul L -> no_nul r ->
  Forall (λ l, (length l <= 1022)%nat) L -> (length (inp w fd) < fuel)%nat ->
  ∃ buf' w', run streams (grep fuel (pattern ++ [0]) fd buf) w = (Done buf', w') ∧
    outp w' 1 = outp w 1 ++ text_of (filter (selects pattern) L).
Proof.
  intros. destruct (grep_loop_ok pattern [] fd ltac:(done) fuel [] buf L r w) as (b' & w' & R & O);
    try done; [simpl; lia|constructor|]. by exists b', w'.
Qed.

Lemma grep_selects_lines_witness :
  let w := World {[3 := chars "ab" ++ 10 :: chars "xyz" ++ 10 :: chars "cab" ++ 10 :: chars "a"]} [0; 4; 1]%nat ∅ in
  ∃ buf' w', run streams (grep 20 (chars "a" ++ [0]) 3 (replicate 1024 0)) w = (Done buf', w') ∧
    outp w' 1 = text_of [chars "ab"; chars "cab"].
Proof.
  intros w.
  refine (grep_selects_lines 20 (chars "a") (replicate 1024 0) (chars "a")
    [chars "ab"; chars "xyz"; chars "cab"] 3 w _ _ _ _ _ _ _ _ _).
  - by repeat constructor.
  - reflexivity.
  - reflexivity.
  - by repeat constructor.
  - by repeat constructor.
  - by repeat constructor.
  - by repeat constructor.
  - repeat constructor; simpl; lia.
  - refine (proj1 (Nat.ltb_lt _ _) _). reflexivity.
Defined.
