(* ===== verification/Find.v ===== *)
(** * user/find.c

    compare(), which matches a file name against a pattern, find(), which
    walks a directory tree, and main().  compare() is shown to decide whether
    the whole name is in the language of the pattern (Regex.v). *)

From Stdlib Require Import ZArith Lia.
From stdpp Require Import base numbers list gmap strings.
From S2P Require Import Prelude User Ulib Regex.

Definition T_DIR : Z := 1.
Definition T_FILE : Z := 2.

(** [*temp1==*temp2||( *temp2=='.'&&*temp1!='\0')] with [x] for [*temp1], [c] for [*temp2] *)
Definition same (x c : Z) : bool := (x =? c) || ((c =? 46) && truth x).

(** compare() where [temp2] is at [c*]: [rest] is [compare(., temp2+2)]. *)
Fixpoint compare_star (rest : list Z -> option bool) (c : Z) (temp1 : list Z) : option bool :=
  match temp1 with
  | [] => None
  | x :: t =>
      if same x c then
        b ← rest temp1; if b : bool then Some true else compare_star rest c t
      else rest temp1
  end.

Fixpoint compare (temp1 temp2 : list Z) {struct temp2} : option bool :=
  match temp2 with
  | [] => None
  | c :: p1 =>
      if c =? 0 then match temp1 with [] => None | x :: _ => Some (x =? 0) end else
      match p1 with
      | [] => None
      | d :: p2 =>
          if d =? 42 then compare_star (λ t, compare t p2) c temp1 else
          match temp1 with
          | [] => None
          | x :: t => if same x c then compare t p1 else Some false
          end
      end
  end.

(** fs.h: a directory entry as read() fills it in: [inum] and [name]. *)
Definition dirent_of (b : list Z) : Z * list Z :=
  (default 0 (b !! 0%nat) + 256 * default 0 (b !! 1%nat), drop 2 b).

(** The path of the entry [name] of [first], in the 512 bytes of [buff2], whose
    earlier contents are overwritten before they are read. *)
Definition join_path (first name : list Z) : option (list Z) :=
  n1 ← strlen first;
  n2 ← strlen name;
  buff2 ← copy_to (replicate 512 0) 0 first n1;
  buff2 ← put buff2 n1 47;
  buff2 ← copy_to buff2 (n1 + 1) name n2;
  put buff2 (n1 + 1 + n2) 0.

(** find(): one unit of [fuel] per directory entry read. *)
Fixpoint find (fuel : nat) (a : Z) (first name : list Z) : prog unit :=
  match fuel with
  | O => OutOfFuel
  | S fuel =>
      '(n, bytes) ← call (read a 16);
      if negb (n =? 16) then Ret tt else
      let '(inum, fname) := dirent_of bytes in
      c1 ← need (strcmp fname (lit "."));
      c2 ← (if c1 =? 0 then Ret 0 else need (strcmp fname (lit "..")));
      if (c1 =? 0) || (c2 =? 0) then find fuel a first name else
      buff2 ← need (join_path first fname);
      if inum =? 0 then find fuel a first name else
      '(r, b) ← stat buff2 (Ustat 0 0 0 0 0);
      if r <? 0 then
        _ ← printf ("Cannot find required data.. try again" +:+ newline) [];
        find fuel a first name
      else
      m ← (if st_type b =? T_FILE then need (compare fname name) else Ret false);
      if m : bool then
        _ ← printf ("%s" +:+ newline) [A_str (Some buff2)];
        find fuel a first name
      else if st_type b =? T_DIR then
        x ← call (open buff2 0);
        if x <? 0 then
          _ ← printf ("cannot open required directory.. try again" +:+ newline) [];
          find fuel a first name
        else
        _ ← find fuel x buff2 name;
        find fuel a first name
      else find fuel a first name
  end.

(** main(): [stack1] and [stack2] are what [directory] and [name], of DIRSIZ+1
    bytes each, hold when main() is entered. *)
Definition main (fuel : nat) (stack1 stack2 : list Z) (argv : list (list Z)) : prog unit :=
  arg2 ← need (argv !! 2%nat);
  n2 ← need (strlen arg2);
  name ← need (copy_to (take 15 stack2) 0 arg2 n2);
  arg1 ← need (argv !! 1%nat);
  n1 ← need (strlen arg1);
  directory ← need (copy_to (take 15 stack1) 0 arg1 n1);
  a ← call (open directory 0);
  '(r, b) ← (if a <? 0 then Ret (-1, Ustat 0 0 0 0 0) else call (fstat a));
  if (a <? 0) || (r <? 0) then
    _ ← printf ("cannot open required directory.. try again" +:+ newline) []; exit 1
  else
  _ ← (if negb (st_type b =? T_DIR)
       then printf ("Error this is not a directory.. try again" +:+ newline) []
       else find fuel a directory name);
  exit 0.

(** ** What compare() decides *)

Lemma same_atom x c : x <> 0 -> same x c = true <-> atom c x.
Proof.
  intros Hx. unfold same, atom, truth. destruct (Z.eqb_spec x 0); [done|].
  destruct (Z.eqb_spec x c), (Z.eqb_spec c 46); naive_solver.
Qed.

Lemma same_end c : c <> 0 -> same 0 c = false.
Proof. intros H. unfold same. destruct (Z.eqb_spec 0 c); [congruence|]. by destruct (c =? 46). Qed.

Lemma compare_star_ok rest c r t junk :
  c <> 0 -> no_nul t ->
  (∀ t, no_nul t -> answers (rest (t ++ 0 :: junk)) (lang r t)) ->
  answers (compare_star rest c (t ++ 0 :: junk)) (lang ((c, true) :: r) t).
Proof.
  intros Hc Ht Hrest. induction Ht as [|x t Hx Ht IH].
  - cbn [app compare_star]. rewrite same_end by done.
    eapply answers_iff; [apply (Hrest []); constructor|]. rewrite (lang_star_unfold c r []).
    split; [by left|]. by intros [?|(? & ? & ? & _)].
  - destruct (Hrest (x :: t) ltac:(by constructor)) as (b & E & Hb). cbn [app compare_star] in *.
    rewrite E. cbn [mbind option_bind]. pose proof (same_atom x c Hx) as Hs.
    destruct (same x c).
    + destruct b; [apply answers_yes, lang_star_unfold; left; by apply Hb|].
      eapply answers_iff; [apply IH|]. rewrite (lang_star_unfold c r (x :: t)). split.
      * intros H. right. exists x, t. split_and!; [done|by apply Hs|done].
      * intros [H|(y & t' & [= <- <-] & _ & H)]; [|done]. apply Hb in H. done.
    + exists b. split; [done|]. rewrite Hb, lang_star_unfold. split; [by left|].
      intros [H|(y & t' & [= <- <-] & H & _)]; [done|]. apply Hs in H. done.
Qed.

Lemma compare_plain c re1 t junk1 junk2 :
  no_nul (c :: re1) -> no_nul t -> head re1 <> Some 42 ->
  (∀ t, no_nul t -> answers (compare (t ++ 0 :: junk2) (re1 ++ 0 :: junk1)) (lang (items re1) t)) ->
  answers (compare (t ++ 0 :: junk2) ((c :: re1) ++ 0 :: junk1)) (lang (items (c :: re1)) t).
Proof.
  intros [Hc Hre]%Forall_cons Ht Hd IH. rewrite items_plain by done.
  set (re' := re1 ++ 0 :: junk1) in *.
  assert (∃ d rest, re' = d :: rest ∧ d <> 42) as (d & rest & E & Hd42).
  { subst re'. destruct re1 as [|d re1]; [by exists 0, junk1|]. exists d, (re1 ++ 0 :: junk1).
    split; [done|]. by intros ->. }
  change ((c :: re1) ++ 0 :: junk1) with (c :: re'). clearbody re'. subst re'.
  cbn [compare]. destruct (Z.eqb_spec c 0); [done|]. destruct (Z.eqb_spec d 42); [done|].
  destruct Ht as [|x t Hx Ht]; cbn [app].
  - rewrite same_end by done. apply answers_no. by intros (? & ? & ? & _)%lang_one_inv.
  - pose proof (same_atom x c Hx) as Hs. destruct (same x c).
    + eapply answers_iff; [by apply IH|]. split.
      * intros H. constructor; [by apply Hs|done].
      * by intros (y & t' & [= <- <-] & _ & H)%lang_one_inv.
    + apply answers_no. intros (y & t' & [= <- <-] & H & _)%lang_one_inv. apply Hs in H. done.
Qed.

(** C36: compare() decides whether the whole name is in the language of the
    pattern; it always answers. *)
Theorem compare_correct (name pattern junk1 junk2 : list Z) :
  no_nul name -> no_nul pattern ->
  ∃ b, compare (name ++ 0 :: junk1) (pattern ++ 0 :: junk2) = Some b ∧
    (b = true <-> lang (items pattern) name).
Proof.
  intros Hn Hp. change (answers (compare (name ++ 0 :: junk1) (pattern ++ 0 :: junk2)) (lang (items pattern) name)).
  revert name Hn. induction pattern as [re IH] using (induction_ltof1 _ length). unfold ltof in IH.
  intros t Ht. destruct re as [|c re1].
  { destruct Ht as [|x t Hx Ht]; cbn [app compare]; simpl.
    - apply answers_yes. constructor.
    - destruct (Z.eqb_spec x 0); [done|]. apply answers_no. intros H. inversion H. }
  pose proof Hp as [Hc Hre1]%Forall_cons.
  destruct (decide (head re1 = Some 42)) as [H42|H42].
  - destruct re1 as [|d re2]; simplify_eq/=. apply Forall_cons in Hre1 as [_ Hre2].
    destruct (Z.eqb_spec c 0); [done|]. apply compare_star_ok; [done|done|].
    intros t' Ht'. apply IH; [simpl; lia|done|done].
  - apply compare_plain; [done|done|done|]. intros t' Ht'. apply IH; [simpl; lia|done|done].
Qed.

Lemma compare_correct_witness :
  (∃ b, compare (chars "main.c" ++ [0]) (chars "m.*c" ++ [0]) = Some b ∧
    (b = true <-> lang (items (chars "m.*c")) (chars "main.c"))) ∧
  compare (chars "main.c" ++ [0]) (chars "m.*c" ++ [0]) = Some true.
Proof.
  split; [|reflexivity]. refine (compare_correct (chars "main.c") (chars "m.*c") [] [] _ _).
  all: by repeat constructor.
Defined.
