(* ===== verification/Cat.v ===== *)
(** * user/cat.c *)

From Stdlib Require Import ZArith Lia.
From stdpp Require Import base numbers list gmap strings.
From S2P Require Import Prelude User Ulib.

(** The [for] loop of ncat() over the [n] bytes read, from index [i]. *)
Fixpoint ncat_chars (b : list Z) (i n counter : Z) : prog Z :=
  match b with
  | [] => Ret counter
  | c :: b =>
      _ ← printf "%c" [A_int c];
      counter ← (if c =? 10 then
                   let counter := i32 (counter + 1) in
                   _ ← (if i <? n - 1 then printf ("%d" +:+ tab) [A_int counter] else Ret tt);
                   Ret counter
                 else Ret counter);
      ncat_chars b (i + 1) n counter
  end.

Definition ncat_body (fd : Z) (counter : Z) : prog (Z + unit) :=
  '(n, b) ← call (read fd 512);
  if n <=? 0 then Ret (inr tt) else
  _ ← printf ("%d" +:+ tab) [A_int counter];
  counter ← ncat_chars (take (Z.to_nat n) b) 0 n counter;
  Ret (inl counter).

Definition ncat (fuel : nat) (fd : Z) : prog unit := uloop fuel (ncat_body fd) 1.

Definition cat_body (fd : Z) (_ : unit) : prog (unit + Z) :=
  '(n, b) ← call (read fd 512);
  if n <=? 0 then Ret (inr n) else
  r ← call (write 1 (take (Z.to_nat n) b));
  if negb (r =? n) then
    _ ← fprintf 2 ("cat: write error" +:+ newline) []; exit 1
  else Ret (inl tt).

Definition cat (fuel : nat) (fd : Z) : prog unit :=
  n ← uloop fuel (cat_body fd) tt;
  if n <? 0 then _ ← fprintf 2 ("cat: read error" +:+ newline) []; exit 1
  else Ret tt.

Fixpoint cat_files (fuel : nat) (flag : Z) (files : list (list Z)) : prog unit :=
  match files with
  | [] => exit 0
  | f :: files =>
      fd ← call (open f 0);
      if fd <? 0 then
        _ ← fprintf 2 ("cat: cannot open %s" +:+ newline) [A_str (Some f)]; exit 1
      else
      _ ← (if flag =? 2 then ncat fuel fd else cat fuel fd);
      _ ← call (close fd);
      cat_files fuel flag files
  end.

Definition main (fuel : nat) (argv : list (list Z)) : prog unit :=
  match argv !! 1%nat with
  | None => _ ← cat fuel 0; exit 0
  | Some arg1 =>
      r ← need (strcmp arg1 (lit "-n"));
      let flag := if r =? 0 then 2 else 1 in
      cat_files fuel flag (drop (Z.to_nat flag) argv)
  end.

(** ** cat() copies its input *)

(** A read of up to [n] bytes, and what is left. *)
Lemma take_drop_chunk (l : list Z) (k : nat) :
  let b := take k l in l = b ++ drop (length b) l.
Proof.
  simpl. destruct (decide (k <= length l)%nat).
  - rewrite length_take_le by done. by rewrite take_drop.
  - rewrite take_ge by lia. by rewrite drop_all, app_nil_r.
Qed.

Lemma chunk_nonempty w n fd :
  (0 < n)%nat -> take (chunk w n) (inp w fd) = [] -> inp w fd = [].
Proof.
  intros Hn H. pose proof (chunk_pos w n Hn). destruct (inp w fd); [done|].
  destruct (chunk w n); [lia|done].
Qed.

Lemma cat_loop_ok fuel fd w :
  (length (inp w fd) < fuel)%nat ->
  ∃ w', run streams (uloop fuel (cat_body fd) tt) w = (Done 0, w') ∧
    outp w' 1 = outp w 1 ++ inp w fd ∧ inp w' fd = [].
Proof.
  revert w. induction fuel as [|fuel IH]; intros w Hf; [lia|].
  set (b := take (chunk w 512) (inp w fd)). pose proof (take_drop_chunk (inp w fd) (chunk w 512)) as Hin.
  fold b in Hin. simpl in Hin. destruct (decide (b = [])) as [Hb|Hb].
  - assert (E : inp w fd = []) by (by apply (chunk_nonempty w 512); [lia|]).
    exists (consume fd 0 w). split.
    + apply run_uloop_last. unfold cat_body, call. cbn [mbind prog_bind run streams].
      change (Z.to_nat 512) with 512%nat. fold b. by rewrite Hb.
    + rewrite outp_consume, inp_consume, E, app_nil_r. done.
  - assert (Hb1 : (0 < length b)%nat) by (destruct b; [done|simpl; lia]).
    destruct (IH (emit 1 b (consume fd (length b) w))) as (w' & R & O & I).
    { rewrite inp_emit, inp_consume, length_drop. rewrite Hin in Hf.
      rewrite length_app, length_drop in Hf. lia. }
    exists w'. split_and!; [| |done].
    + erewrite run_uloop_next; [exact R|]. unfold cat_body, call. cbn [mbind prog_bind run streams].
      change (Z.to_nat 512) with 512%nat. fold b.
      replace (Z.of_nat (length b) <=? 0) with false by (symmetry; apply Z.leb_gt; lia).
      rewrite Nat2Z.id, firstn_all. cbn [mbind prog_bind run streams]. by rewrite Z.eqb_refl.
    + rewrite O, outp_emit, outp_consume, inp_emit, inp_consume, <- app_assoc. by rewrite <- Hin.
Qed.

(** cat() writes to descriptor 1 exactly the bytes it reads, however read()
    splits them, and returns at the end of the file. *)
Theorem cat_copies (fuel : nat) (fd : Z) (w : world) :
  (length (inp w fd) < fuel)%nat ->
  ∃ w', run streams (cat fuel fd) w = (Done tt, w') ∧
    outp w' 1 = outp w 1 ++ inp w fd ∧ inp w' fd = [].
Proof.
  intros Hf. destruct (cat_loop_ok fuel fd w Hf) as (w' & R & O & I). exists w'. split; [|done].
  unfold cat. by rewrite (run_bind_done _ _ _ _ _ _ R).
Qed.

Lemma cat_copies_witness :
  let w := World {[3 := chars "hello, world"]} [2; 0; 7]%nat ∅ in
  ∃ w', run streams (cat 20 3) w = (Done tt, w') ∧
    outp w' 1 = outp w 1 ++ inp w 3 ∧ inp w' 3 = [].
Proof. intros w. refine (cat_copies 20 3 w _). refine (proj1 (Nat.ltb_lt _ _) _). reflexivity. Defined.
