(* ===== verification/Wc.v ===== *)
(** * user/wc.c *)

From Stdlib Require Import ZArith Lia.
From stdpp Require Import base numbers list gmap strings.
From S2P Require Import Prelude User Ulib Cat.

(** The counters [l], [w], [c] and [inword]. *)
Record counts := Counts { n_l : Z; n_w : Z; n_c : Z; inword : bool }.

(** ["\x20\r\t\n\v"] *)
Definition separators : list Z := [32; 13; 9; 10; 11; 0].

Definition wc_char (s : counts) (x : Z) : counts :=
  let c := i32 (n_c s + 1) in
  let l := if x =? 10 then i32 (n_l s + 1) else n_l s in
  match strchr separators x with
  | Some (Some _) => Counts l (n_w s) c false
  | _ => if inword s then Counts l (n_w s) c true else Counts l (i32 (n_w s + 1)) c true
  end.

Definition wc_body (fd : Z) (s : counts) : prog (counts + (Z * counts)) :=
  '(n, b) ← call (read fd 512);
  if n <=? 0 then Ret (inr (n, s)) else
  Ret (inl (foldl wc_char s (take (Z.to_nat n) b))).

Definition wc (fuel : nat) (fd : Z) (name : list Z) : prog unit :=
  '(n, s) ← uloop fuel (wc_body fd) (Counts 0 0 0 false);
  if n <? 0 then
    _ ← printf ("wc: read error" +:+ newline) []; exit 1
  else
  printf ("%d %d %d %s" +:+ newline) [A_int (n_l s); A_int (n_w s); A_int (n_c s); A_str (Some name)].

Fixpoint wc_files (fuel : nat) (files : list (list Z)) : prog unit :=
  match files with
  | [] => exit 0
  | f :: files =>
      fd ← call (open f 0);
      if fd <? 0 then
        _ ← printf ("wc: cannot open %s" +:+ newline) [A_str (Some f)]; exit 1
      else
      _ ← wc fuel fd f;
      _ ← call (close fd);
      wc_files fuel files
  end.

Definition main (fuel : nat) (argv : list (list Z)) : prog unit :=
  match argv with
  | _ :: f :: files => wc_files fuel (f :: files)
  | _ => _ ← wc fuel 0 (lit ""); exit 0
  end.

(** ** wc() counts *)

(** White space: the characters that separate words. *)
Definition space (x : Z) : bool := bool_decide (x ∈ [32; 13; 9; 10; 11]).

Definition lines (l : list Z) : nat := length (filter (λ x, x = 10) l).

(** The number of words: the characters that are not white space and are at the
    start of the text or after white space. *)
Fixpoint word_starts (after_space : bool) (l : list Z) : nat :=
  match l with
  | [] => 0
  | x :: l => (if negb (space x) && after_space then 1 else 0) + word_starts (space x) l
  end.
Definition words (l : list Z) : nat := word_starts true l.

Lemma strchr_cons x s c :
  x <> 0 -> strchr (x :: s) c = if x =? c then Some (Some O) else option_map (option_map S) (strchr s c).
Proof. intros H. cbn [strchr]. by destruct (Z.eqb_spec x 0). Qed.

Lemma separators_space x :
  match strchr separators x with Some (Some _) => true | _ => false end = space x.
Proof.
  unfold space, separators. rewrite !strchr_cons by done.
  destruct (Z.eqb_spec 32 x) as [<-|H1]; [done|]. destruct (Z.eqb_spec 13 x) as [<-|H2]; [done|].
  destruct (Z.eqb_spec 9 x) as [<-|H3]; [done|]. destruct (Z.eqb_spec 10 x) as [<-|H4]; [done|].
  destruct (Z.eqb_spec 11 x) as [<-|H5]; [done|]. simpl. symmetry.
  apply bool_decide_eq_false. set_solver.
Qed.

Lemma wc_char_eq s x :
  0 <= n_l s < 2 ^ 31 - 1 -> 0 <= n_w s < 2 ^ 31 - 1 -> 0 <= n_c s < 2 ^ 31 - 1 ->
  wc_char s x = Counts (n_l s + Z.of_nat (lines [x]))
    (n_w s + (if negb (space x) && negb (inword s) then 1 else 0)) (n_c s + 1) (negb (space x)).
Proof.
  intros Hl Hw Hc. unfold wc_char. rewrite <- separators_space.
  rewrite !i32_small by lia.
  assert (El : (if x =? 10 then n_l s + 1 else n_l s) = n_l s + Z.of_nat (lines [x])).
  { unfold lines. destruct (Z.eqb_spec x 10) as [->|Hx]; [done|].
    rewrite filter_cons_False by done. simpl. lia. }
  rewrite El. destruct (strchr separators x) as [[k|]|]; simpl; destruct (inword s); simpl;
    by rewrite ?Z.add_0_r.
Qed.

Lemma word_starts_length b l : (word_starts b l <= length l)%nat.
Proof. revert b. induction l as [|x l IH]; intros b; simpl; [lia|]. specialize (IH (space x)). case_match; lia. Qed.

Lemma wc_fold l s :
  0 <= n_l s <= n_c s -> 0 <= n_w s <= n_c s -> n_c s + Z.of_nat (length l) < 2 ^ 31 ->
  ∃ b, foldl wc_char s l = Counts (n_l s + Z.of_nat (lines l))
    (n_w s + Z.of_nat (word_starts (negb (inword s)) l)) (n_c s + Z.of_nat (length l)) b.
Proof.
  revert s. induction l as [|x l IH]; intros s Hl Hw Hc.
  { exists (inword s). destruct s. simpl. by rewrite !Z.add_0_r. }
  simpl in Hc. cbn [foldl]. rewrite wc_char_eq by lia.
  assert (Hx : (lines [x] <= 1)%nat).
  { unfold lines. pose proof (length_filter (λ x, x = 10) [x]). simpl in *. lia. }
  assert (Hcons : lines (x :: l) = (lines [x] + lines l)%nat).
  { unfold lines. by rewrite <- length_app, <- filter_app. }
  set (d := if negb (space x) && negb (inword s) then 1 else 0).
  assert (Hd : 0 <= d <= 1) by (subst d; case_match; lia).
  destruct (IH (Counts (n_l s + Z.of_nat (lines [x])) (n_w s + d) (n_c s + 1) (negb (space x))))
    as (b & E); simpl; [lia|lia|lia|].
  exists b. rewrite E. simpl. rewrite negb_involutive, Hcons. f_equal; [lia| |lia].
  subst d. case_match; lia.
Qed.

Lemma wc_loop_ok fuel fd s w :
  (length (inp w fd) < fuel)%nat ->
  ∃ w', run streams (uloop fuel (wc_body fd) s) w = (Done (0, foldl wc_char s (inp w fd)), w') ∧
    outp w' 1 = outp w 1.
Proof.
  revert s w. induction fuel as [|fuel IH]; intros s w Hf; [lia|].
  set (b := take (chunk w 512) (inp w fd)). pose proof (take_drop_chunk (inp w fd) (chunk w 512)) as Hin.
  fold b in Hin. simpl in Hin. destruct (decide (b = [])) as [Hb|Hb].
  - assert (E : inp w fd = []) by (by apply (chunk_nonempty w 512); [lia|]).
    exists (consume fd 0 w). rewrite E. split; [|done].
    apply run_uloop_last. unfold wc_body, call. cbn [mbind prog_bind run streams].
    change (Z.to_nat 512) with 512%nat. fold b. by rewrite Hb.
  - assert (Hb1 : (0 < length b)%nat) by (destruct b; [done|simpl; lia]).
    destruct (IH (foldl wc_char s b) (consume fd (length b) w)) as (w' & R & O).
    { rewrite inp_consume, length_drop. rewrite Hin in Hf. rewrite length_app, length_drop in Hf. lia. }
    exists w'. split; [|by rewrite O, outp_consume].
    rewrite Hin, foldl_app. rewrite inp_consume in R. rewrite <- R.
    apply run_uloop_next. unfold wc_body, call. cbn [mbind prog_bind run streams].
    change (Z.to_nat 512) with 512%nat. fold b.
    replace (Z.of_nat (length b) <=? 0) with false by (symmetry; apply Z.leb_gt; lia).
    by rewrite Nat2Z.id, firstn_all.
Qed.

(** The decimal numeral printf() writes for [n]. *)
Definition decimal (n : nat) : list Z := printint_chars (Z.of_nat n) 10 true.

Lemma wc_format (l w c : nat) name :
  Z.of_nat l < 2 ^ 31 -> Z.of_nat w < 2 ^ 31 -> Z.of_nat c < 2 ^ 31 -> Forall (λ c, c <> 0) name ->
  format (lit ("%d %d %d %s" +:+ newline)) false
    [A_int (0 + Z.of_nat l); A_int (0 + Z.of_nat w); A_int (0 + Z.of_nat c); A_str (Some (name ++ [0]))] =
  Some (decimal l ++ [32] ++ decimal w ++ [32] ++ decimal c ++ [32] ++ name ++ [10]).
Proof.
  intros Hl Hw Hc Hn. rewrite !Z.add_0_l.
  assert (Ei : ∀ n : nat, Z.of_nat n < 2 ^ 31 -> decimal n = printint_chars (i32 (Z.of_nat n)) 10 true).
  { intros n H. unfold decimal. by rewrite i32_small by lia. }
  rewrite (Ei l), (Ei w), (Ei c) by done.
  set (fmt := lit ("%d %d %d %s" +:+ newline)). vm_compute in fmt. subst fmt.
  cbn -[printint_chars i32 ucstr Z.of_nat app]. rewrite ucstr_ok by done. done.
Qed.

(** wc() prints the number of newlines, of words and of bytes of its input
    and the name it was given, however read() splits the input. *)
Theorem wc_counts (fuel : nat) (fd : Z) (name : list Z) (w : world) :
  (length (inp w fd) < fuel)%nat -> Z.of_nat (length (inp w fd)) < 2 ^ 31 -> Forall (λ c, c <> 0) name ->
  ∃ w', run streams (wc fuel fd (name ++ [0])) w = (Done tt, w') ∧
    outp w' 1 = outp w 1 ++ (u8 <$> decimal (lines (inp w fd)) ++ [32] ++ decimal (words (inp w fd)) ++ [32] ++
      decimal (length (inp w fd)) ++ [32] ++ name ++ [10]).
Proof.
  intros Hf Hlen Hname. destruct (wc_loop_ok fuel fd (Counts 0 0 0 false) w Hf) as (w1 & R & O).
  destruct (wc_fold (inp w fd) (Counts 0 0 0 false)) as (b & E); [simpl; lia|simpl; lia|simpl; lia|].
  rewrite E in R. unfold wc. rewrite (run_bind_done _ _ _ _ _ _ R). cbn [n_l n_w n_c inword negb].
  change ((0 <? 0)) with false. cbn [mbind].
  pose proof (length_filter (λ x, x = 10) (inp w fd)) as Hl. fold (lines (inp w fd)) in Hl.
  pose proof (word_starts_length true (inp w fd)) as Hw. fold (words (inp w fd)) in Hw |- *.
  eexists. split.
  - apply vprintf_streams, wc_format; lia || done.
  - by rewrite outp_emit, O.
Qed.

Lemma wc_counts_witness :
  let w := World {[3 := chars "two words" ++ 10 :: chars "x" ++ [10]]} [3; 1]%nat ∅ in
  (∃ w', run streams (wc 20 3 (chars "f" ++ [0])) w = (Done tt, w') ∧
    outp w' 1 = outp w 1 ++ (u8 <$> decimal (lines (inp w 3)) ++ [32] ++ decimal (words (inp w 3)) ++ [32] ++
      decimal (length (inp w 3)) ++ [32] ++ chars "f" ++ [10])) ∧
  outp (snd (run streams (wc 20 3 (chars "f" ++ [0])) w)) 1 = chars ("2 3 12 f" +:+ newline).
Proof.
  intros w. split; [|reflexivity]. refine (wc_counts 20 3 (chars "f") w _ _ _).
  - refine (proj1 (Nat.ltb_lt _ _) _). reflexivity.
  - reflexivity.
  - by repeat constructor.
Defined.
