(* ===== verification/Ls.v ===== *)
(** * user/ls.c

    fmtname(), ls() and main().  The global [counter] is threaded through the
    calls. *)

From Stdlib Require Import ZArith Lia.
From stdpp Require Import base numbers list gmap strings.
From S2P Require Import Prelude User Ulib Regex Find.

Definition T_DEVICE : Z := 3.
Definition DIRSIZ : nat := 14.

(** [for(p=path+strlen(path); p >= path && *p != '/'; p--) ; p++;] with [p] at
    index [k]: the index of the first character after the last slash. *)
Fixpoint after_slash (path : list Z) (k : nat) : option nat :=
  c ← path !! k;
  if c =? 47 then Some (S k) else
  match k with O => Some O | S k => after_slash path k end.

(** fmtname(): of the static [buf] of DIRSIZ+1 bytes only the first DIRSIZ are
    ever written, all of them by each call that returns it. *)
Definition fmtname (path : list Z) : option (list Z) :=
  n ← strlen path;
  i ← after_slash path n;
  let p := drop i path in
  m ← strlen p;
  if decide (DIRSIZ <= m)%nat then Some p else
  buf ← copy_to (replicate (DIRSIZ + 1) 0) 0 p m;
  pad ← memset (drop m buf) 32 (DIRSIZ - m);
  Some (take m buf ++ pad).

(** [if(flag>=1){ printf("%d\t",counter); counter+=1; }] *)
Definition number (flag counter : Z) : prog Z :=
  if 1 <=? flag then _ ← printf ("%d" +:+ tab) [A_int counter]; Ret (i32 (counter + 1))
  else Ret counter.

(** The loop over the entries of a directory; [k] is [p - buf]. *)
Definition ls_entry (fd flag : Z) (k : nat) (s : list Z * Z) : prog ((list Z * Z) + Z) :=
  let '(buf, counter) := s in
  '(n, b) ← call (read fd 16);
  if negb (n =? 16) then Ret (inr counter) else
  let '(inum, name) := dirent_of b in
  if inum =? 0 then Ret (inl (buf, counter)) else
  buf ← need (copy_to buf k name DIRSIZ);
  buf ← need (put buf (k + DIRSIZ) 0);
  '(r, st) ← stat buf (Ustat 0 0 0 0 0);
  if r <? 0 then
    _ ← printf ("ls: cannot stat %s" +:+ newline) [A_str (Some buf)];
    Ret (inl (buf, counter))
  else
  counter ← number flag counter;
  f ← need (fmtname buf);
  _ ← printf ("%s %d %d %d" +:+ newline)
        [A_str (Some f); A_int (st_type st); A_int (st_ino st); A_int (st_size st)];
  Ret (inl (buf, counter)).

Definition ls (fuel : nat) (path : list Z) (flag counter : Z) : prog Z :=
  fd ← call (open path 0);
  if fd <? 0 then
    _ ← fprintf 2 ("ls: cannot open %s" +:+ newline) [A_str (Some path)]; Ret counter
  else
  '(r, st) ← call (fstat fd);
  if r <? 0 then
    _ ← fprintf 2 ("ls: cannot stat %s" +:+ newline) [A_str (Some path)];
    _ ← call (close fd); Ret counter
  else
  counter ←
    (if (st_type st =? T_DEVICE) || (st_type st =? T_FILE) then
       counter ← number flag counter;
       f ← need (fmtname path);
       _ ← printf ("%s %d %d %l" +:+ newline)
             [A_str (Some f); A_int (st_type st); A_int (st_ino st); A_int (st_size st)];
       Ret counter
     else if st_type st =? T_DIR then
       n ← need (strlen path);
       if decide (512 < n + 1 + DIRSIZ + 1)%nat then
         _ ← printf ("ls: path too long" +:+ newline) []; Ret counter
       else
       buf ← need (strcpy (replicate 512 0) path);
       buf ← need (put buf n 47);
       uloop fuel (ls_entry fd flag (n + 1)) (buf, counter)
     else Ret counter);
  _ ← call (close fd);
  Ret counter.

(** [for(i=flag+1; i<argc; i++) ls(argv[i],i);] *)
Fixpoint ls_args (fuel : nat) (i : Z) (args : list (list Z)) (counter : Z) : prog unit :=
  match args with
  | [] => exit 0
  | a :: args => counter ← ls fuel a i counter; ls_args fuel (i + 1) args counter
  end.

(** main(): [text0] is the memory at address 0, which strcmp() is given when
    there is no argument. *)
Definition main (fuel : nat) (text0 : list Z) (argv : list (list Z)) : prog unit :=
  r ← need (strcmp (default text0 (argv !! 1%nat)) (lit "-n"));
  let flag := if r =? 0 then 1 else 0 in
  if Z.of_nat (length argv) <? 2 + flag then _ ← ls fuel (lit ".") flag 1; exit 0
  else ls_args fuel (flag + 1) (drop (Z.to_nat (flag + 1)) argv) 1.

(** ** fmtname() *)

Lemma memset_ok l c n : (n <= length l)%nat -> memset l c n = Some (replicate n (u8 c) ++ drop n l).
Proof.
  revert l. induction n as [|n IH]; intros l H; [done|].
  destruct l as [|x l]; [simpl in H; lia|]. cbn [memset]. rewrite IH by (simpl in H; lia). done.
Qed.

Lemma after_slash_step path k c :
  path !! k = Some c -> c <> 47 ->
  after_slash path k = match k with O => Some O | S k => after_slash path k end.
Proof. intros H Hc. destruct k; cbn [after_slash]; rewrite H; simpl; by destruct (Z.eqb_spec c 47). Qed.

Lemma after_slash_char dir name rest k :
  Forall (λ c, c <> 47) name -> (k <= length name)%nat ->
  ∃ c, (dir ++ name ++ 0 :: rest) !! (length dir + k)%nat = Some c ∧ c <> 47.
Proof.
  intros Hname Hk. rewrite lookup_app_r by lia.
  replace (length dir + k - length dir)%nat with k by lia.
  destruct (decide (k < length name)%nat) as [Hlt|Hge].
  - rewrite lookup_app_l by done. destruct (lookup_lt_is_Some_2 name k Hlt) as [c Hc].
    exists c. split; [done|]. by apply (proj1 (Forall_lookup _ _) Hname _ _ Hc).
  - exists 0. split; [|done]. rewrite lookup_app_r by lia. by replace (k - length name)%nat with O by lia.
Qed.

Lemma after_slash_ok dir name rest k :
  dir = [] ∨ last dir = Some 47 -> Forall (λ c, c <> 47) name -> (k <= length name)%nat ->
  after_slash (dir ++ name ++ 0 :: rest) (length dir + k) = Some (length dir).
Proof.
  intros Hdir Hname. induction k as [|k IH]; intros Hk.
  all: destruct (after_slash_char dir name rest _ Hname Hk) as (c & Hc & Hne).
  - erewrite after_slash_step; [|exact Hc|exact Hne]. rewrite Nat.add_0_r in *.
    destruct Hdir as [->|Hdir]; [done|]. destruct (length dir) as [|m] eqn:El.
    { by destruct dir. }
    assert (Em : (dir ++ name ++ 0 :: rest) !! m = Some 47).
    { rewrite lookup_app_l by lia. rewrite last_lookup, El in Hdir. exact Hdir. }
    destruct m; cbn [after_slash]; rewrite Em; done.
  - erewrite after_slash_step; [|exact Hc|exact Hne]. rewrite Nat.add_succ_r. apply IH. lia.
Qed.

(** fmtname() returns the last component of a path, padded with blanks to
    DIRSIZ characters if it is shorter. *)
Theorem fmtname_padded (dir name rest : list Z) :
  no_nul dir -> no_nul name -> dir = [] ∨ last dir = Some 47 -> Forall (λ c, c <> 47) name ->
  ∃ r, fmtname (dir ++ name ++ 0 :: rest) = Some r ∧
    ucstr r = Some (name ++ replicate (DIRSIZ - length name) 32).
Proof.
  intros Hd Hn Hdir Hname. unfold fmtname.
  assert (Hnn : no_nul (dir ++ name)) by (by apply Forall_app).
  rewrite app_assoc, strlen_ok by done. cbn [mbind option_bind].
  rewrite <- app_assoc, length_app, after_slash_ok by done. cbn [mbind option_bind].
  rewrite drop_app_length, strlen_ok by done. cbn [mbind option_bind]. case_decide as Hlen.
  - eexists. split; [done|]. rewrite ucstr_ok by done.
    replace (DIRSIZ - length name)%nat with O by lia. by rewrite app_nil_r.
  - rewrite copy_to_ok; [|rewrite length_replicate; lia|rewrite length_app; lia].
    cbn [mbind option_bind]. rewrite take_app_length.
    assert (Hb : overwrite (replicate (DIRSIZ + 1) 0) 0 name = name ++ replicate (DIRSIZ - length name + 1) 0).
    { unfold overwrite. rewrite take_0, app_nil_l, Nat.add_0_l, drop_replicate. do 2 f_equal. lia. }
    rewrite Hb, drop_app_length, memset_ok by (rewrite length_replicate; lia).
    cbn [mbind option_bind]. rewrite take_app_length, drop_replicate.
    replace (DIRSIZ - length name + 1 - (DIRSIZ - length name))%nat with 1%nat by lia.
    eexists. split; [done|]. rewrite app_assoc. apply ucstr_ok.
    apply Forall_app. split; [done|]. by apply Forall_replicate.
Qed.

Lemma fmtname_padded_witness :
  ∃ r, fmtname (chars "/bin/" ++ chars "sh" ++ [0]) = Some r ∧
    ucstr r = Some (chars "sh            ").
Proof.
  refine (fmtname_padded (chars "/bin/") (chars "sh") [] _ _ _ _).
  - by repeat constructor.
  - by repeat constructor.
  - by right.
  - by repeat constructor.
Defined.
