(* ===== verification/Utils.v ===== *)
(** * Small user programs

    user/echo.c, kill.c, ln.c, mkdir.c, rm.c, zombie.c and init.c. *)

From Stdlib Require Import ZArith Lia.
From stdpp Require Import base numbers list gmap strings.
From S2P Require Import Prelude User Ulib.

(** echo.c: the loop over [argv[1]], ..., [argv[argc-1]] *)
Fixpoint echo_args (args : list (list Z)) : prog unit :=
  match args with
  | [] => exit 0
  | a :: args =>
      n ← need (strlen a);
      _ ← call (write 1 (take n a));
      _ ← call (write 1 (match args with [] => [10] | _ => [32] end));
      echo_args args
  end.
Definition echo_main (argv : list (list Z)) : prog unit := echo_args (tail argv).

(** kill.c *)
Fixpoint kill_args (args : list (list Z)) : prog unit :=
  match args with
  | [] => exit 0
  | a :: args => pid ← need (atoi a); _ ← call (kill pid); kill_args args
  end.
Definition kill_main (argv : list (list Z)) : prog unit :=
  if decide (length argv < 2)%nat
  then _ ← fprintf 2 ("usage: kill pid..." +:+ newline) []; exit 1
  else kill_args (tail argv).

(** ln.c *)
Definition ln_main (argv : list (list Z)) : prog unit :=
  match argv with
  | [_; old; new] =>
      r ← call (link old new);
      _ ← (if r <? 0
           then fprintf 2 ("link %s %s: failed" +:+ newline) [A_str (Some old); A_str (Some new)]
           else Ret tt);
      exit 0
  | _ => _ ← fprintf 2 ("Usage: ln old new" +:+ newline) []; exit 1
  end.

(** mkdir.c *)
Fixpoint mkdir_args (args : list (list Z)) : prog unit :=
  match args with
  | [] => exit 0
  | a :: args =>
      r ← call (mkdir a);
      if r <? 0 then
        _ ← fprintf 2 ("mkdir: %s failed to create" +:+ newline) [A_str (Some a)]; exit 0
      else mkdir_args args
  end.
Definition mkdir_main (argv : list (list Z)) : prog unit :=
  if decide (length argv < 2)%nat
  then _ ← fprintf 2 ("Usage: mkdir files..." +:+ newline) []; exit 1
  else mkdir_args (tail argv).

(** rm.c *)
Fixpoint rm_args (args : list (list Z)) : prog unit :=
  match args with
  | [] => exit 0
  | a :: args =>
      r ← call (unlink a);
      if r <? 0 then
        _ ← fprintf 2 ("rm: %s failed to delete" +:+ newline) [A_str (Some a)]; exit 0
      else rm_args args
  end.
Definition rm_main (argv : list (list Z)) : prog unit :=
  if decide (length argv < 2)%nat
  then _ ← fprintf 2 ("Usage: rm files..." +:+ newline) []; exit 1
  else rm_args (tail argv).

(** zombie.c *)
Definition zombie_main : prog unit :=
  pid ← call fork;
  _ ← (if 0 <? pid then _ ← call (sleep 5); Ret tt else Ret tt);
  exit 0.

(** init.c: the inner loop, which waits for the shell [pid] *)
Definition init_wait (pid : Z) (_ : unit) : prog (unit + unit) :=
  '(wpid, _) ← call wait;
  if wpid =? pid then Ret (inr tt)
  else if wpid <? 0 then
    _ ← printf ("init: wait returned an error" +:+ newline) []; exit 1
  else Ret (inl tt).

(** The outer loop, which starts the shell. *)
Definition init_shell (fuel : nat) (_ : unit) : prog (unit + unit) :=
  _ ← printf ("init: starting sh" +:+ newline) [];
  pid ← call fork;
  if pid <? 0 then
    _ ← printf ("init: fork failed" +:+ newline) []; exit 1
  else if pid =? 0 then
    _ ← call (exec (lit "sh") [lit "sh"]);
    _ ← printf ("init: exec sh failed" +:+ newline) []; exit 1
  else
  _ ← uloop fuel (init_wait pid) tt;
  Ret (inl tt).

Definition O_RDWR : Z := 2.
Definition CONSOLE : Z := 1.

Definition init_main (fuel : nat) : prog unit :=
  r ← call (open (lit "console") O_RDWR);
  _ ← (if r <? 0 then
         _ ← call (mknod (lit "console") CONSOLE 0);
         _ ← call (open (lit "console") O_RDWR); Ret tt
       else Ret tt);
  _ ← call (dup 0);
  _ ← call (dup 0);
  uloop fuel (init_shell fuel) tt.
