(* ===== verification/Tests.v ===== *)
(** * forktest.c, stressfs.c and grind.c: programs that exercise the kernel

    forktest() forks until the kernel refuses and waits for the children; the
    theorem says when it reports success.  stressfs and grind put load on the
    file system and the process table; grind draws its system calls from the
    "minimal standard" random number generator of Park and Miller, and the
    theorem is that do_rand(), which avoids the overflow of the product, steps
    that generator. *)

From Stdlib Require Import ZArith Lia.
From stdpp Require Import base numbers list gmap strings.
From S2P Require Import Prelude User Ulib.

Definition O_RDONLY : Z := 0x000.
Definition O_RDWR : Z := 0x002.
Definition O_CREATE : Z := 0x200.

(** ** forktest.c *)

Definition N : nat := 1000.

Definition print (s : string) : prog unit :=
  n ← need (strlen (lit s)); _ ← call (write 1 (take n (lit s))); Ret tt.

(** The first loop of forktest(): how many times fork() worked, at most [k] more. *)
Fixpoint fork_loop (k n : nat) : prog nat :=
  match k with
  | O => Ret n
  | S k =>
      pid ← call fork;
      if pid <? 0 then Ret n
      else if pid =? 0 then exit 0
      else fork_loop k (S n)
  end.

(** The second: wait for [n] children. *)
Fixpoint wait_loop (n : nat) : prog unit :=
  match n with
  | O => Ret tt
  | S n =>
      '(r, _) ← call wait;
      if r <? 0 then _ ← print ("wait stopped early" +:+ newline); exit 1
      else wait_loop n
  end.

Definition forktest : prog unit :=
  _ ← print ("fork test" +:+ newline);
  n ← fork_loop N 0;
  if (n =? N)%nat then _ ← print ("fork claimed to work N times!" +:+ newline); exit 1 else
  _ ← wait_loop n;
  '(r, _) ← call wait;
  if negb (r =? -1) then _ ← print ("wait got too many" +:+ newline); exit 1 else
  print ("fork test OK" +:+ newline).

Definition forktest_main : prog unit := _ ← forktest; exit 0.

(** ** stressfs.c *)

(** The loop of main() that starts four processes: [i] when it is left. *)
Fixpoint stress_fork (k : nat) (i : Z) : prog Z :=
  match k with
  | O => Ret i
  | S k => r ← call fork; if 0 <? r then Ret i else stress_fork k (i + 1)
  end.

Definition stress_write (fd : Z) (data : list Z) (_ : Z) : prog unit := _ ← call (write fd data); Ret tt.

(** read() into the array [data], which is not used after that. *)
Definition stress_read (fd : Z) (_ : Z) : prog unit := _ ← call (read fd 512); Ret tt.

Definition stressfs_main : prog unit :=
  _ ← printf ("stressfs starting" +:+ newline) [];
  let data := replicate 512 97 in
  i ← stress_fork 4 0;
  _ ← printf ("write %d" +:+ newline) [A_int i];
  path ← need (put (lit "stressfs0") 8 (u8 (48 + i)));
  fd ← call (open path (Z.lor O_CREATE O_RDWR));
  _ ← ufor (zrange 0 20) (stress_write fd data);
  _ ← call (close fd);
  _ ← printf ("read" +:+ newline) [];
  fd ← call (open path O_RDONLY);
  _ ← ufor (zrange 0 20) (stress_read fd);
  _ ← call (close fd);
  _ ← call wait;
  exit 0.

(** ** grind.c *)

(** do_rand(): the number returned and the new context.  The C type long has 64
    bits, and nothing here leaves them. *)
Definition do_rand (ctx : Z) : Z * Z :=
  let x := ctx mod 0x7ffffffe + 1 in
  let hi := x ÷ 127773 in
  let lo := Z.rem x 127773 in
  let x := 16807 * lo - 2836 * hi in
  let x := if x <? 0 then x + 0x7fffffff else x in
  let x := x - 1 in
  (i32 x, u64 x).

(** rand() on the global variable [rand_next]. *)
Definition rand (rand_next : Z) : Z * Z := do_rand rand_next.

(** The variables of go(): the descriptor, the static buffer, the program break
    at the start, and the global [rand_next]. *)
Record gostate := Gostate { g_fd : Z; g_buf : list Z; g_break0 : Z; g_rand : Z; g_iters : Z }.
#[global] Instance eta_gostate : Eta gostate := λ r,
  Gostate (g_fd r) (g_buf r) (g_break0 r) (g_rand r) (g_iters r).

Definition O_CR : Z := Z.lor O_CREATE O_RDWR.

(** [close(open(path, O_CREATE|O_RDWR))] *)
Definition touch (path : string) : prog unit :=
  fd ← call (open (lit path) O_CR); _ ← call (close fd); Ret tt.

Definition remove (path : string) : prog unit := _ ← call (unlink (lit path)); Ret tt.

(** The end of a branch that forks: complain about [pid < 0], else go on. *)
Definition fork_failed (pid : Z) (k : prog unit) : prog unit :=
  if pid <? 0 then _ ← printf ("grind: fork failed" +:+ newline) []; exit 1 else k.

Definition wait0 : prog unit := _ ← call wait; Ret tt.

(** [what] 1 to 12: files and directories *)
Definition go_files (what : Z) (g : gostate) : prog gostate :=
  if what =? 1 then _ ← touch "grindir/../a"; Ret g
  else if what =? 2 then _ ← touch "grindir/../grindir/../b"; Ret g
  else if what =? 3 then _ ← remove "grindir/../a"; Ret g
  else if what =? 4 then
    r ← call (chdir (lit "grindir"));
    if negb (r =? 0) then _ ← printf ("grind: chdir grindir failed" +:+ newline) []; exit 1 else
    _ ← remove "../b";
    _ ← call (chdir (lit "/")); Ret g
  else if what =? 5 then
    _ ← call (close (g_fd g));
    fd ← call (open (lit "/grindir/../a") O_CR); Ret (g <| g_fd := fd |>)
  else if what =? 6 then
    _ ← call (close (g_fd g));
    fd ← call (open (lit "/./grindir/./../b") O_CR); Ret (g <| g_fd := fd |>)
  else if what =? 7 then _ ← call (write (g_fd g) (g_buf g)); Ret g
  else if what =? 8 then
    '(_, b) ← call (read (g_fd g) 999); Ret (g <| g_buf ::= λ buf, overwrite buf 0 b |>)
  else if what =? 9 then
    _ ← call (mkdir (lit "grindir/../a"));
    _ ← touch "a/../a/./a"; _ ← remove "a/a"; Ret g
  else if what =? 10 then
    _ ← call (mkdir (lit "/../b"));
    _ ← touch "grindir/../b/b"; _ ← remove "b/b"; Ret g
  else if what =? 11 then
    _ ← remove "b";
    _ ← call (link (lit "../grindir/./../a") (lit "../b")); Ret g
  else if what =? 12 then
    _ ← remove "../grindir/../a";
    _ ← call (link (lit ".././b") (lit "/grindir/../a")); Ret g
  else Ret g.

(** [what] 13 to 18: processes and memory *)
Definition go_procs (what : Z) (g : gostate) : prog unit :=
  if what =? 13 then
    pid ← call fork;
    if pid =? 0 then exit 0 else fork_failed pid wait0
  else if what =? 14 then
    pid ← call fork;
    if pid =? 0 then _ ← call fork; _ ← call fork; exit 0 else fork_failed pid wait0
  else if what =? 15 then _ ← call (sbrk 6011); Ret tt
  else if what =? 16 then
    b ← call (sbrk 0);
    if g_break0 g <? b then b ← call (sbrk 0); _ ← call (sbrk (i32 (- (b - g_break0 g)))); Ret tt else Ret tt
  else if what =? 17 then
    pid ← call fork;
    if pid =? 0 then _ ← touch "a"; exit 0 else
    fork_failed pid
      (r ← call (chdir (lit "../grindir/.."));
       if negb (r =? 0) then _ ← printf ("grind: chdir failed" +:+ newline) []; exit 1 else
       _ ← call (kill pid); wait0)
  else if what =? 18 then
    pid ← call fork;
    if pid =? 0 then me ← call getpid; _ ← call (kill me); exit 0 else fork_failed pid wait0
  else Ret tt.

(** [what] 19: a pipe among four processes *)
Definition go_pipe : prog unit :=
  '(r, (fds0, fds1)) ← call pipe;
  if r <? 0 then _ ← printf ("grind: pipe failed" +:+ newline) []; exit 1 else
  pid ← call fork;
  if pid =? 0 then
    _ ← call fork;
    _ ← call fork;
    n ← call (write fds1 [120]);
    _ ← (if negb (n =? 1) then printf ("grind: pipe write failed" +:+ newline) [] else Ret tt);
    '(n, _) ← call (read fds0 1);
    _ ← (if negb (n =? 1) then printf ("grind: pipe read failed" +:+ newline) [] else Ret tt);
    exit 0
  else
  fork_failed pid (_ ← call (close fds0); _ ← call (close fds1); wait0).

(** [what] 20: a child in a directory that is removed *)
Definition go_dir : prog unit :=
  pid ← call fork;
  if pid =? 0 then
    _ ← remove "a";
    _ ← call (mkdir (lit "a"));
    _ ← call (chdir (lit "a"));
    _ ← remove "../a";
    _ ← call (open (lit "x") O_CR);
    _ ← remove "x";
    exit 0
  else fork_failed pid wait0.

(** [what] 21: a file that must come out right *)
Definition go_create : prog unit :=
  _ ← remove "c";
  fd1 ← call (open (lit "c") O_CR);
  if fd1 <? 0 then _ ← printf ("grind: create c failed" +:+ newline) []; exit 1 else
  n ← call (write fd1 [120]);
  if negb (n =? 1) then _ ← printf ("grind: write c failed" +:+ newline) []; exit 1 else
  '(r, st) ← call (fstat fd1);
  if negb (r =? 0) then _ ← printf ("grind: fstat failed" +:+ newline) []; exit 1 else
  if negb (st_size st =? 1) then
    _ ← printf ("grind: fstat reports wrong size %d" +:+ newline) [A_int (i32 (st_size st))]; exit 1 else
  if 200 <? st_ino st then
    _ ← printf ("grind: fstat reports crazy i-number %d" +:+ newline) [A_int (st_ino st)]; exit 1 else
  _ ← call (close fd1);
  remove "c".

(** [what] 22: echo hi | cat, the children *)
Definition go_echo (aa0 aa1 bb0 bb1 : Z) : prog unit :=
  _ ← call (close bb0); _ ← call (close bb1); _ ← call (close aa0); _ ← call (close 1);
  r ← call (dup aa1);
  if negb (r =? 1) then _ ← fprintf 2 ("grind: dup failed" +:+ newline) []; exit 1 else
  _ ← call (close aa1);
  _ ← call (exec (lit "grindir/../echo") [lit "echo"; lit "hi"]);
  _ ← fprintf 2 ("grind: echo: not found" +:+ newline) [];
  exit 2.

Definition go_cat (aa0 aa1 bb0 bb1 : Z) : prog unit :=
  _ ← call (close aa1); _ ← call (close bb0); _ ← call (close 0);
  r ← call (dup aa0);
  if negb (r =? 0) then _ ← fprintf 2 ("grind: dup failed" +:+ newline) []; exit 4 else
  _ ← call (close aa0); _ ← call (close 1);
  r ← call (dup bb1);
  if negb (r =? 1) then _ ← fprintf 2 ("grind: dup failed" +:+ newline) []; exit 5 else
  _ ← call (close bb1);
  _ ← call (exec (lit "/cat") [lit "cat"]);
  _ ← fprintf 2 ("grind: cat: not found" +:+ newline) [];
  exit 6.

Definition quote : string := String (Ascii.ascii_of_nat 34) EmptyString.

Definition go_pipeline : prog unit :=
  '(r, (aa0, aa1)) ← call pipe;
  if r <? 0 then _ ← fprintf 2 ("grind: pipe failed" +:+ newline) []; exit 1 else
  '(r, (bb0, bb1)) ← call pipe;
  if r <? 0 then _ ← fprintf 2 ("grind: pipe failed" +:+ newline) []; exit 1 else
  pid1 ← call fork;
  if pid1 =? 0 then go_echo aa0 aa1 bb0 bb1 else
  if pid1 <? 0 then _ ← fprintf 2 ("grind: fork failed" +:+ newline) []; exit 3 else
  pid2 ← call fork;
  if pid2 =? 0 then go_cat aa0 aa1 bb0 bb1 else
  if pid2 <? 0 then _ ← fprintf 2 ("grind: fork failed" +:+ newline) []; exit 7 else
  _ ← call (close aa0); _ ← call (close aa1); _ ← call (close bb1);
  let buf := [0; 0; 0; 0] in
  '(_, b) ← call (read bb0 1); let buf := overwrite buf 0 b in
  '(_, b) ← call (read bb0 1); let buf := overwrite buf 1 b in
  '(_, b) ← call (read bb0 1); let buf := overwrite buf 2 b in
  _ ← call (close bb0);
  '(_, st1) ← call wait;
  '(_, st2) ← call wait;
  c ← (if negb (st1 =? 0) || negb (st2 =? 0) then Ret 1 else need (strcmp buf (lit ("hi" +:+ newline))));
  if negb (c =? 0) then
    _ ← printf ("grind: exec pipeline failed %d %d " +:+ quote +:+ "%s" +:+ quote +:+ newline)
          [A_int st1; A_int st2; A_str (Some buf)];
    exit 1
  else Ret tt.

(** One round of go(). *)
Definition go_round (which_child : Z) (g : gostate) : prog (gostate + unit) :=
  let g := g <| g_iters ::= λ i, u64 (i + 1) |> in
  _ ← (if g_iters g mod 500 =? 0 then
         _ ← call (write 1 (if truth which_child then [66] else [65])); Ret tt
       else Ret tt);
  let '(r, rand_next) := rand (g_rand g) in
  let g := g <| g_rand := rand_next |> in
  let what := Z.rem r 23 in
  if what <=? 12 then g ← go_files what g; Ret (inl g)
  else
  _ ← (if what <=? 18 then go_procs what g
       else if what =? 19 then go_pipe
       else if what =? 20 then go_dir
       else if what =? 21 then go_create
       else go_pipeline);
  Ret (inl g).

Definition go (fuel : nat) (which_child rand_next : Z) : prog unit :=
  break0 ← call (sbrk 0);
  _ ← call (mkdir (lit "grindir"));
  r ← call (chdir (lit "grindir"));
  if negb (r =? 0) then _ ← printf ("grind: chdir grindir failed" +:+ newline) []; exit 1 else
  _ ← call (chdir (lit "/"));
  uloop fuel (go_round which_child) (Gostate (-1) (replicate 999 0) break0 rand_next 0).

Definition iter (fuel : nat) (rand_next : Z) : prog unit :=
  _ ← remove "a";
  _ ← remove "b";
  pid1 ← call fork;
  if pid1 <? 0 then _ ← printf ("grind: fork failed" +:+ newline) []; exit 1 else
  if pid1 =? 0 then _ ← go fuel 0 (Z.lxor rand_next 31); exit 0 else
  pid2 ← call fork;
  if pid2 <? 0 then _ ← printf ("grind: fork failed" +:+ newline) []; exit 1 else
  if pid2 =? 0 then _ ← go fuel 1 (Z.lxor rand_next 7177); exit 0 else
  '(r, st) ← call wait;
  let st1 := if r <? 0 then -1 else st in
  _ ← (if negb (st1 =? 0) then _ ← call (kill pid1); _ ← call (kill pid2); Ret tt else Ret tt);
  _ ← call wait;
  exit 0.

(** One round of main(). *)
Definition grind_round (fuel : nat) (rand_next : Z) : prog (Z + unit) :=
  pid ← call fork;
  if pid =? 0 then _ ← iter fuel rand_next; exit 0 else
  _ ← (if 0 <? pid then wait0 else Ret tt);
  _ ← call (sleep 20);
  Ret (inl (u64 (rand_next + 1))).

Definition grind_main (fuel : nat) : prog unit := uloop fuel (grind_round fuel) 1.

(** ** Theorems *)

(** The Park-Miller generator on the numbers from 1 to [2^31 - 2]. *)
Definition minstd (x : Z) : Z := 7 ^ 5 * x mod (2 ^ 31 - 1).

Lemma schrage x :
  1 <= x <= 2 ^ 31 - 2 ->
  let y := 16807 * (x mod 127773) - 2836 * (x / 127773) in
  - (2 ^ 31 - 1) < y < 2 ^ 31 - 1 ∧ (if y <? 0 then y + (2 ^ 31 - 1) else y) = minstd x.
Proof.
  intros Hx y. change (2 ^ 31) with 2147483648 in *.
  assert (Hq : 0 <= x / 127773 <= 16807) by zmod. assert (Hr : 0 <= x mod 127773 < 127773) by zmod.
  assert (Hy : - (2147483648 - 1) < y < 2147483648 - 1) by (unfold y; lia). split; [done|].
  unfold minstd. change (7 ^ 5) with 16807. change (2 ^ 31) with 2147483648.
  assert (E : 16807 * x = (x / 127773) * 2147483647 + y) by (unfold y; pose proof (Z.div_mod x 127773); lia).
  rewrite E. destruct (Z.ltb_spec y 0).
  - apply (Z.mod_unique_pos _ _ (x / 127773 - 1)); lia.
  - apply (Z.mod_unique_pos _ _ (x / 127773)); lia.
Qed.

(** The generator has no 0: [2^31 - 1] has no factor in common with [7^5]. *)
Lemma minstd_range x : 1 <= x <= 2 ^ 31 - 2 -> 1 <= minstd x <= 2 ^ 31 - 2.
Proof.
  intros Hx. pose proof (Z.mod_pos_bound (7 ^ 5 * x) (2 ^ 31 - 1) ltac:(done)) as Hm. fold (minstd x) in Hm.
  assert (minstd x <> 0); [|lia]. intros E. apply Z.mod_divide in E; [|done].
  apply Z.gauss in E; [|reflexivity]. apply Z.divide_pos_le in E; lia.
Qed.

Lemma do_rand_ok ctx :
  0 <= ctx -> let x := ctx mod 0x7ffffffe + 1 in do_rand ctx = (minstd x - 1, minstd x - 1).
Proof.
  intros Hc x. assert (Hx : 1 <= x <= 2 ^ 31 - 2) by (unfold x; change (2 ^ 31) with 2147483648; zmod).
  destruct (schrage x Hx) as [_ E]. pose proof (minstd_range x Hx) as Hr. unfold do_rand. fold x.
  rewrite Z.quot_div_nonneg, Z.rem_mod_nonneg by lia.
  change 0x7fffffff with (2 ^ 31 - 1). rewrite E. f_equal; [apply i32_small|apply u64_small]; lia.
Qed.

(** [rand_next] and the number returned after [n] more calls of rand(). *)
Definition rand_nth (n : nat) (rand_next : Z) : Z * Z := Nat.iter n (λ p, rand (snd p)) (rand rand_next).

(** ** forktest *)

(** The kernel as forktest sees it: [t_left] more processes fit into the table,
    [t_children] are there to be waited for. *)
Record ptable := Ptable { t_left : nat; t_children : nat; t_out : list Z }.

Definition forking : kernel ptable := λ R e,
  match e in sys R return ptable -> R * ptable with
  | fork => λ t, match t_left t with
                 | O => (-1, t)
                 | S k => (1, Ptable k (S (t_children t)) (t_out t))
                 end
  | wait => λ t, match t_children t with
                 | O => ((-1, 0), t)
                 | S k => ((1, 0), Ptable (S (t_left t)) k (t_out t))
                 end
  | write 1 b => λ t, (Z.of_nat (length b), Ptable (t_left t) (t_children t) (t_out t ++ b))
  | e => λ t, (refuse e, t)
  end.

Lemma run_fork_loop k n l c o :
  run forking (fork_loop k n) (Ptable l c o)
  = let m := Nat.min k l in (Done (n + m)%nat, Ptable (l - m) (c + m) o).
Proof.
  revert n l c. induction k as [|k IH]; intros n l c; cbn [fork_loop].
  - simpl. by rewrite !Nat.add_0_r, Nat.sub_0_r.
  - destruct l as [|l]; simpl; [by rewrite !Nat.add_0_r|].
    specialize (IH (S n) l (S c)). cbv zeta in IH. unfold mbind in IH |- *. simpl in IH |- *. rewrite IH.
    f_equal; [|f_equal]; f_equal; lia.
Qed.

Lemma run_wait_loop n l c o :
  run forking (wait_loop n) (Ptable l (n + c) o) = (Done tt, Ptable (l + n) c o).
Proof.
  revert l. induction n as [|n IH]; intros l; cbn [wait_loop].
  - simpl. by rewrite Nat.add_0_r.
  - simpl. rewrite IH. do 2 f_equal. lia.
Qed.

Lemma run_print s l c o :
  Forall (.≠ 0) (chars s) -> run forking (print s) (Ptable l c o) = (Done tt, Ptable l c (o ++ chars s)).
Proof.
  intros Hz. unfold print. assert (E : strlen (lit s) = Some (length (chars s))).
  { unfold lit. clear -Hz. induction Hz as [|z cs Hz _ IH]; [done|]. simpl. destruct (Z.eqb_spec z 0); [done|]. by rewrite IH. }
  rewrite E. simpl. unfold lit. by rewrite take_app_length.
Qed.

(** *** Properties *)

(** C37: the random numbers of grind.  Whatever [rand_next] is, the numbers that
    rand() returns are those of the Park-Miller generator
    [x -> 7^5 x mod (2^31 - 1)], less one, and lie between 0 and 0x7ffffffd: the
    quotient and remainder by 127773 that do_rand() computes with avoid the
    product, and nothing it computes needs more than 31 bits and a sign. *)
Theorem grind_rand (n : nat) (rand_next : Z) :
  0 <= rand_next ->
  let v := Nat.iter (S n) minstd (rand_next mod 0x7ffffffe + 1) - 1 in
  rand_nth n rand_next = (v, v) ∧ 0 <= v <= 0x7ffffffd
  ∧ ∀ x, 1 <= x <= 2 ^ 31 - 2 ->
      0 <= 16807 * (x mod 127773) < 2 ^ 31 ∧ 0 <= 2836 * (x / 127773) < 2 ^ 31.
Proof.
  intros H0 v. assert (Hr : rand_nth n rand_next = (v, v) ∧ 1 <= v + 1 <= 2 ^ 31 - 2).
  { unfold v, rand_nth, rand. set (x0 := rand_next mod 0x7ffffffe + 1).
    assert (Hx0 : 1 <= x0 <= 2 ^ 31 - 2) by (unfold x0; change (2 ^ 31) with 2147483648; zmod).
    induction n as [|n [IH1 IH2]].
    - simpl. split; [by apply do_rand_ok|]. rewrite Z.sub_add. by apply minstd_range.
    - rewrite Z.sub_add in IH2 |- *.
      change (Nat.iter (S n) (λ p, do_rand p.2) (do_rand rand_next))
        with (do_rand (Nat.iter n (λ p, do_rand p.2) (do_rand rand_next)).2).
      change (Nat.iter (S (S n)) minstd x0) with (minstd (Nat.iter (S n) minstd x0)).
      set (y := Nat.iter (S n) minstd x0) in *. rewrite IH1. cbn [snd]. rewrite do_rand_ok by lia.
      assert (E : (y - 1) mod 2147483646 + 1 = y) by (change (2 ^ 31) with 2147483648 in IH2; zmod).
      rewrite E. split; [done|]. by apply minstd_range. }
  change (2 ^ 31) with 2147483648 in *. split; [apply Hr|]. split; [lia|]. intros x Hx. split; zmod.
Qed.

Lemma grind_rand_witness : rand_nth 1 1 = (564950497, 564950497).
Proof. pose proof (grind_rand 1 1 ltac:(lia)) as (E & _). rewrite E. vm_compute. reflexivity. Defined.

(** forktest says OK exactly when fewer than 1000 calls of fork() succeed, and
    every child that was created, and no other, can be waited for: also on a
    kernel whose fork() fails at once. *)
Theorem forktest_reports (m : nat) :
  run forking forktest_main (Ptable m 0 []) =
    if decide (m < 1000)%nat
    then (Exited 0, Ptable m 0 (chars ("fork test" +:+ newline +:+ "fork test OK" +:+ newline)))
    else (Exited 1, Ptable (m - 1000) 1000
            (chars ("fork test" +:+ newline +:+ "fork claimed to work N times!" +:+ newline))).
Proof.
  assert (Hz : ∀ s, forallb (λ z, negb (z =? 0)) (chars s) = true -> Forall (.≠ 0) (chars s)).
  { intros s Hs. apply Forall_forall. intros z Hin ->. rewrite forallb_forall in Hs.
    by specialize (Hs 0 (proj1 (list_elem_of_In _ _) Hin)). }
  unfold forktest_main, forktest.
  case_decide.
  - erewrite run_bind_done; [reflexivity|]. erewrite run_bind_done by (apply run_print, Hz; reflexivity).
    erewrite run_bind_done by apply run_fork_loop. cbv zeta. unfold N. rewrite Nat.min_r by lia.
    destruct (Nat.eqb_spec (0 + m) 1000); [lia|]. rewrite Nat.sub_diag.
    assert (Ew : ∀ o, run forking (wait_loop m) (Ptable 0 m o) = (Done tt, Ptable m 0 o)).
    { intros o. pose proof (run_wait_loop m 0 0 o) as E. by rewrite Nat.add_0_r in E. }
    rewrite !Nat.add_0_l. erewrite run_bind_done by apply Ew.
    cbn [run call mbind prog_bind forking t_children]. cbn [negb Z.eqb Pos.eqb]. apply run_print, Hz. reflexivity.
  - apply run_bind_exit. erewrite run_bind_done by (apply run_print, Hz; reflexivity).
    erewrite run_bind_done by apply run_fork_loop. cbv zeta. unfold N. rewrite Nat.min_l by lia.
    rewrite Nat.add_0_l, Nat.eqb_refl. erewrite run_bind_done by (apply run_print, Hz; reflexivity). reflexivity.
Qed.
