(* ===== verification/TestBase.v ===== *)
(** * usertests.c: what the tests share

    Every test of usertests.c is a function of the C string [s], the name of the
    test, run in a process of its own.  The process has its own copy of the
    global array [buf]: all zeros, as only the tests write it.  A local array
    that holds a name is the list of its bytes up to the NUL that ends it.

    A loop without an exit ([for(;;);]) has no result: [spin].  The loops that
    run until the kernel says no get a bound, [fuel]. *)

From Stdlib Require Import ZArith Lia.
From stdpp Require Import base numbers list gmap strings.
From S2P Require Import Prelude Machine User Ulib.

Definition BSIZE : Z := 1024.
Definition NDIRECT : Z := 12.
Definition MAXFILE : Z := NDIRECT + BSIZE / 4.
Definition O_RDONLY : Z := 0x000.
Definition O_WRONLY : Z := 0x001.
Definition O_RDWR : Z := 0x002.
Definition O_CREATE : Z := 0x200.
Definition O_TRUNC : Z := 0x400.

Definition BUFSZ : Z := (MAXOPBLOCKS + 2) * BSIZE.
Definition buf : list Z := replicate (Z.to_nat BUFSZ) 0.

Definition ln (s : string) : string := s +:+ newline.

(** A system call whose reply is not used. *)
Definition ignore {R} (e : sys R) : prog unit := _ ← call e; Ret tt.

(** [{ printf(fmt, args); exit(1); }] and the same after [if(c)] *)
Definition die {A} (fmt : string) (args : list uarg) : prog A := printf fmt args ;; exit 1.
Definition die_if (c : bool) (fmt : string) (args : list uarg) : prog unit :=
  if c then die fmt args else Ret tt.

(** [for(x in l) s = body(x, s);] *)
Fixpoint ufold {X S} (l : list X) (body : X -> S -> prog S) (s : S) : prog S :=
  match l with
  | [] => Ret s
  | x :: l => body x s ≫= ufold l body
  end.

(** [for(;;);]: no bound is enough. *)
Definition spin {A} : prog A := OutOfFuel.

(** [close(open(path, mode))] *)
Definition touch (path : list Z) (mode : Z) : prog unit := fd ← call (open path mode); ignore (close fd).

(** [fork()] where a failure ends the test with the message [fmt]. *)
Definition fork_or (fmt : string) (args : list uarg) : prog Z :=
  pid ← call fork; die_if (pid <? 0) fmt args ;; Ret pid.

(** wait(&st) with the old value [st]: the pid and the new one. *)
Definition wait_st (st : Z) : prog (Z * Z) :=
  '(pid, x) ← call wait; Ret (pid, if pid <? 0 then st else x).

(** A load or store of a killed process is its end, with status -1. *)
Definition peek_at (addr : Z) : prog Z :=
  o ← call (load_at addr 1);
  match o with Some (c :: _) => Ret c | Some [] => Crash | None => exit (-1) end.
Definition poke_at (addr : Z) (b : list Z) : prog unit :=
  ok ← call (store_at addr b); if ok : bool then Ret tt else exit (-1).

(** printf("%s") of the string at an address. *)
Definition print_at (fuel : nat) (a : Z) : prog unit :=
  uloop fuel (λ a, c ← peek_at a; if c =? 0 then Ret (inr tt) else putc 1 c ;; Ret (inl (a + 1))) a.

(** [for(x in l) if(body(x)) break;]: whether the loop was left early. *)
Fixpoint ufor_break {X} (l : list X) (body : X -> prog bool) : prog bool :=
  match l with
  | [] => Ret false
  | x :: l => b ← body x; if b : bool then Ret true else ufor_break l body
  end.

(** The values of [x] in [for(x = lo; x < hi; x += step)]. *)
Definition range_by (lo hi step : Z) : list Z :=
  (λ k, lo + step * k) <$> zrange 0 (Z.to_nat ((hi - lo + step - 1) / step)).

Definition str (s : list Z) : uarg := A_str (Some s).

Lemma elem_of_range_by lo hi step x :
  0 < step -> x ∈ range_by lo hi step <-> lo <= x < hi ∧ (x - lo) mod step = 0.
Proof.
  intros Hs. unfold range_by. rewrite list_elem_of_fmap. split.
  - intros (k & -> & Hk%elem_of_zrange).
    replace (lo + step * k - lo) with (k * step) by lia. rewrite Z.mod_mul by lia.
    pose proof (Z.mul_div_le (hi - lo + step - 1) step Hs). split; [|done].
    assert (0 < (hi - lo + step - 1) / step) by lia.
    assert (k + 1 <= (hi - lo + step - 1) / step) by lia. nia.
  - intros [Hx E]. exists ((x - lo) / step). apply Z.mod_divide in E as [q E]; [|lia].
    rewrite E, Z.div_mul by lia. split; [lia|]. apply elem_of_zrange.
    assert (0 <= q) by nia. split; [done|].
    assert (q + 1 <= (hi - lo + step - 1) / step) by (apply Z.div_le_lower_bound; nia). lia.
Qed.
