(* ===== verification/TestFiles.v ===== *)
(** * usertests.c: the tests of the file system

    Truncation, inodes that lose their last name while they are in use, files
    and directories of all sizes, links, and several processes at work in one
    directory. *)

From Stdlib Require Import ZArith Lia.
From stdpp Require Import base numbers list gmap strings.
From S2P Require Import Prelude Machine User Ulib TestBase.

(** ** Truncation *)

Definition O_CWT : Z := Z.lor (Z.lor O_CREATE O_WRONLY) O_TRUNC.
Definition O_CRT : Z := Z.lor (Z.lor O_CREATE O_RDWR) O_TRUNC.
Definition O_CR : Z := Z.lor O_CREATE O_RDWR.

Definition truncate1 (s : list Z) : prog unit :=
  ignore (unlink (lit "truncfile")) ;;
  fd1 ← call (open (lit "truncfile") O_CWT);
  ignore (write fd1 (chars "abcd")) ;;
  ignore (close fd1) ;;
  fd2 ← call (open (lit "truncfile") O_RDONLY);
  '(n, _) ← call (read fd2 32);
  die_if (negb (n =? 4)) (ln "%s: read %d bytes, wanted 4") [str s; A_int n] ;;
  fd1 ← call (open (lit "truncfile") (Z.lor O_WRONLY O_TRUNC));
  fd3 ← call (open (lit "truncfile") O_RDONLY);
  '(n, _) ← call (read fd3 32);
  (if negb (n =? 0) then
     printf (ln "aaa fd3=%d") [A_int fd3] ;; die (ln "%s: read %d bytes, wanted 0") [str s; A_int n]
   else Ret tt) ;;
  '(n, _) ← call (read fd2 32);
  (if negb (n =? 0) then
     printf (ln "bbb fd2=%d") [A_int fd2] ;; die (ln "%s: read %d bytes, wanted 0") [str s; A_int n]
   else Ret tt) ;;
  ignore (write fd1 (chars "abcdef")) ;;
  '(n, _) ← call (read fd3 32);
  die_if (negb (n =? 6)) (ln "%s: read %d bytes, wanted 6") [str s; A_int n] ;;
  '(n, _) ← call (read fd2 32);
  die_if (negb (n =? 2)) (ln "%s: read %d bytes, wanted 2") [str s; A_int n] ;;
  ignore (unlink (lit "truncfile")) ;;
  ignore (close fd1) ;;
  ignore (close fd2) ;;
  ignore (close fd3).

Definition truncate2 (s : list Z) : prog unit :=
  ignore (unlink (lit "truncfile")) ;;
  fd1 ← call (open (lit "truncfile") O_CWT);
  ignore (write fd1 (chars "abcd")) ;;
  fd2 ← call (open (lit "truncfile") (Z.lor O_TRUNC O_WRONLY));
  n ← call (write fd1 (chars "x"));
  die_if (negb (n =? -1)) (ln "%s: write returned %d, expected -1") [str s; A_int n] ;;
  ignore (unlink (lit "truncfile")) ;;
  ignore (close fd1) ;;
  ignore (close fd2).

(** The loops of the child and of the parent of truncate3(). *)
Definition truncate3_child (s : list Z) (_ : Z) : prog unit :=
  fd ← call (open (lit "truncfile") O_WRONLY);
  die_if (fd <? 0) (ln "%s: open failed") [str s] ;;
  n ← call (write fd (chars "1234567890"));
  die_if (negb (n =? 10)) (ln "%s: write got %d, expected 10") [str s; A_int n] ;;
  ignore (close fd) ;;
  fd ← call (open (lit "truncfile") O_RDONLY);
  ignore (read fd 32) ;;
  ignore (close fd).

Definition truncate3_parent (s : list Z) (_ : Z) : prog unit :=
  fd ← call (open (lit "truncfile") O_CWT);
  die_if (fd <? 0) (ln "%s: open failed") [str s] ;;
  n ← call (write fd (chars "xxx"));
  die_if (negb (n =? 3)) (ln "%s: write got %d, expected 3") [str s; A_int n] ;;
  ignore (close fd).

Definition truncate3 (s : list Z) : prog unit :=
  touch (lit "truncfile") O_CWT ;;
  pid ← fork_or (ln "%s: fork failed") [str s];
  if pid =? 0 then ufor (zrange 0 100) (truncate3_child s) ;; exit 0 else
  ufor (zrange 0 150) (truncate3_parent s) ;;
  '(_, xstatus) ← call wait;
  ignore (unlink (lit "truncfile")) ;;
  exit xstatus.

(** ** Inodes in use *)

Definition iputtest (s : list Z) : prog unit :=
  r ← call (mkdir (lit "iputdir"));
  die_if (r <? 0) (ln "%s: mkdir failed") [str s] ;;
  r ← call (chdir (lit "iputdir"));
  die_if (r <? 0) (ln "%s: chdir iputdir failed") [str s] ;;
  r ← call (unlink (lit "../iputdir"));
  die_if (r <? 0) (ln "%s: unlink ../iputdir failed") [str s] ;;
  r ← call (chdir (lit "/"));
  die_if (r <? 0) (ln "%s: chdir / failed") [str s].

Definition exitiputtest (s : list Z) : prog unit :=
  pid ← fork_or (ln "%s: fork failed") [str s];
  if pid =? 0 then
    r ← call (mkdir (lit "iputdir"));
    die_if (r <? 0) (ln "%s: mkdir failed") [str s] ;;
    r ← call (chdir (lit "iputdir"));
    die_if (r <? 0) (ln "%s: child chdir failed") [str s] ;;
    r ← call (unlink (lit "../iputdir"));
    die_if (r <? 0) (ln "%s: unlink ../iputdir failed") [str s] ;;
    exit 0
  else
  '(_, xstatus) ← call wait;
  exit xstatus.

Definition openiputtest (s : list Z) : prog unit :=
  r ← call (mkdir (lit "oidir"));
  die_if (r <? 0) (ln "%s: mkdir oidir failed") [str s] ;;
  pid ← fork_or (ln "%s: fork failed") [str s];
  if pid =? 0 then
    fd ← call (open (lit "oidir") O_RDWR);
    die_if (0 <=? fd) (ln "%s: open directory for write succeeded") [str s] ;;
    exit 0
  else
  ignore (sleep 1) ;;
  r ← call (unlink (lit "oidir"));
  die_if (negb (r =? 0)) (ln "%s: unlink failed") [str s] ;;
  '(_, xstatus) ← call wait;
  exit xstatus.

(** ** Files *)

Definition opentest (s : list Z) : prog unit :=
  fd ← call (open (lit "echo") 0);
  die_if (fd <? 0) (ln "%s: open echo failed!") [str s] ;;
  ignore (close fd) ;;
  fd ← call (open (lit "doesnotexist") 0);
  die_if (0 <=? fd) (ln "%s: open doesnotexist succeeded!") [str s].

Definition writetest_round (s : list Z) (fd i : Z) : prog unit :=
  n ← call (write fd (chars "aaaaaaaaaa"));
  die_if (negb (n =? 10)) (ln "%s: error: write aa %d new file failed") [str s; A_int i] ;;
  n ← call (write fd (chars "bbbbbbbbbb"));
  die_if (negb (n =? 10)) (ln "%s: error: write bb %d new file failed") [str s; A_int i].

Definition writetest (s : list Z) : prog unit :=
  fd ← call (open (lit "small") O_CR);
  die_if (fd <? 0) (ln "%s: error: creat small failed!") [str s] ;;
  ufor (zrange 0 100) (writetest_round s fd) ;;
  ignore (close fd) ;;
  fd ← call (open (lit "small") O_RDONLY);
  die_if (fd <? 0) (ln "%s: error: open small failed!") [str s] ;;
  '(i, _) ← call (read fd (100 * 10 * 2));
  die_if (negb (i =? 100 * 10 * 2)) (ln "%s: read failed") [str s] ;;
  ignore (close fd) ;;
  r ← call (unlink (lit "small"));
  die_if (r <? 0) (ln "%s: unlink small failed") [str s].

(** [buf] as an array of int: its element 0. *)
Definition buf_int (b : list Z) : Z := i32 (get32 0 b).

(** The loop that reads the blocks back: [n] and [buf] go around. *)
Definition writebig_read (s : list Z) (fd : Z) (x : Z * list Z) : prog ((Z * list Z) + unit) :=
  let '(n, b) := x in
  '(i, l) ← call (read fd BSIZE);
  let b := overwrite b 0 l in
  if i =? 0 then
    die_if (n =? MAXFILE - 1) "%s: read only %d blocks from big" [str s; A_int n] ;; Ret (inr tt)
  else
  die_if (negb (i =? BSIZE)) (ln "%s: read failed %d") [str s; A_int i] ;;
  die_if (negb (buf_int b =? n)) (ln "%s: read content of block %d is %d") [str s; A_int n; A_int (buf_int b)] ;;
  Ret (inl (n + 1, b)).

Definition writebig_write (s : list Z) (fd i : Z) (b : list Z) : prog (list Z) :=
  let b := set32 0 i b in
  n ← call (write fd (take (Z.to_nat BSIZE) b));
  die_if (negb (n =? BSIZE)) (ln "%s: error: write big file failed") [str s; A_int i] ;;
  Ret b.

Definition writebig (fuel : nat) (s : list Z) : prog unit :=
  fd ← call (open (lit "big") O_CR);
  die_if (fd <? 0) (ln "%s: error: creat big failed!") [str s] ;;
  b ← ufold (zrange 0 (Z.to_nat MAXFILE)) (writebig_write s fd) buf;
  ignore (close fd) ;;
  fd ← call (open (lit "big") O_RDONLY);
  die_if (fd <? 0) (ln "%s: error: open big failed!") [str s] ;;
  uloop fuel (writebig_read s fd) (0, b) ;;
  ignore (close fd) ;;
  r ← call (unlink (lit "big"));
  die_if (r <? 0) (ln "%s: unlink big failed") [str s].

Definition createtest (s : list Z) : prog unit :=
  ufor (zrange 0 52) (λ i, touch [97; u8 (48 + i); 0] O_CR) ;;
  ufor (zrange 0 52) (λ i, ignore (unlink [97; u8 (48 + i); 0])).

Definition dirtest (s : list Z) : prog unit :=
  r ← call (mkdir (lit "dir0"));
  die_if (r <? 0) (ln "%s: mkdir failed") [str s] ;;
  r ← call (chdir (lit "dir0"));
  die_if (r <? 0) (ln "%s: chdir dir0 failed") [str s] ;;
  r ← call (chdir (lit ".."));
  die_if (r <? 0) (ln "%s: chdir .. failed") [str s] ;;
  r ← call (unlink (lit "dir0"));
  die_if (r <? 0) (ln "%s: unlink dir0 failed") [str s].

(** ** Several processes and one directory *)

(** The loop that counts: short reads count what was left in [buf]. *)
Definition sharedfd_count (x : Z * Z) (c : Z) : Z * Z :=
  let '(nc, np) := x in
  (if c =? 99 then nc + 1 else nc, if c =? 112 then np + 1 else np).
Definition sharedfd_read (fd : Z) (x : list Z * (Z * Z)) : prog ((list Z * (Z * Z)) + (Z * Z)) :=
  let '(b, cnt) := x in
  '(n, l) ← call (read fd 10);
  if 0 <? n then let b := overwrite b 0 l in Ret (inl (b, foldl sharedfd_count cnt b))
  else Ret (inr cnt).

Definition sharedfd (fuel : nat) (s : list Z) : prog unit :=
  ignore (unlink (lit "sharedfd")) ;;
  fd ← call (open (lit "sharedfd") O_CR);
  die_if (fd <? 0) "%s: cannot open sharedfd for writing" [str s] ;;
  pid ← call fork;
  let b := replicate 10 (if pid =? 0 then 99 else 112) in
  ufor (zrange 0 1000) (λ _,
    n ← call (write fd b);
    die_if (negb (n =? 10)) (ln "%s: write sharedfd failed") [str s]) ;;
  if pid =? 0 then exit 0 else
  '(_, xstatus) ← call wait;
  if negb (xstatus =? 0) then exit xstatus else
  ignore (close fd) ;;
  fd ← call (open (lit "sharedfd") 0);
  die_if (fd <? 0) (ln "%s: cannot open sharedfd for reading") [str s] ;;
  '(nc, np) ← uloop fuel (sharedfd_read fd) (b, (0, 0));
  ignore (close fd) ;;
  ignore (unlink (lit "sharedfd")) ;;
  if (nc =? 1000 * 10) && (np =? 1000 * 10) then exit 0
  else die (ln "%s: nc/np test fails") [str s].

Definition fourfiles_child (s fname : list Z) (pi : Z) : prog unit :=
  fd ← call (open fname O_CR);
  die_if (fd <? 0) (ln "create failed") [str s] ;;
  b ← need (memset buf (48 + pi) 500);
  ufor (zrange 0 12) (λ _,
    n ← call (write fd (take 500 b));
    die_if (negb (n =? 500)) (ln "write failed %d") [A_int n]) ;;
  exit 0.

(** [total] and [buf] go around. *)
Definition fourfiles_read (s : list Z) (fd i : Z) (x : Z * list Z) : prog ((Z * list Z) + (Z * list Z)) :=
  let '(total, b) := x in
  '(n, l) ← call (read fd BUFSZ);
  let b := overwrite b 0 l in
  if 0 <? n then
    ufor (take (Z.to_nat n) b) (λ c, die_if (negb (c =? 48 + i)) (ln "wrong char") [str s]) ;;
    Ret (inl (total + n, b))
  else Ret (inr (total, b)).

Definition fourfiles (fuel : nat) (s : list Z) : prog unit :=
  let names := [(0, "f0"); (1, "f1"); (2, "f2"); (3, "f3")] in
  ufor names (λ '(pi, name),
    let fname := lit name in
    ignore (unlink fname) ;;
    pid ← fork_or (ln "fork failed") [str s];
    if pid =? 0 then fourfiles_child s fname pi else Ret tt) ;;
  ufor names (λ _, '(_, xstatus) ← call wait; if negb (xstatus =? 0) then exit xstatus else Ret tt) ;;
  _ ← ufold names (λ '(i, name) b,
    let fname := lit name in
    fd ← call (open fname 0);
    '(total, b) ← uloop fuel (fourfiles_read s fd i) (0, b);
    ignore (close fd) ;;
    die_if (negb (total =? 12 * 500)) (ln "wrong length %d") [A_int total] ;;
    ignore (unlink fname) ;;
    Ret b) buf;
  Ret tt.

Definition createdelete_child (s : list Z) (pi i : Z) : prog unit :=
  let name k := [u8 (112 + pi); u8 (48 + k); 0] in
  fd ← call (open (name i) O_CR);
  die_if (fd <? 0) (ln "%s: create failed") [str s] ;;
  ignore (close fd) ;;
  if (0 <? i) && (i mod 2 =? 0) then
    r ← call (unlink (name (i / 2)));
    die_if (r <? 0) (ln "%s: unlink failed") [str s]
  else Ret tt.

Definition createdelete_check (s : list Z) (i pi : Z) : prog unit :=
  let name := [u8 (112 + pi); u8 (48 + i); 0] in
  fd ← call (open name 0);
  (if ((i =? 0) || (10 <=? i)) && (fd <? 0) then
     die (ln "%s: oops createdelete %s didn't exist") [str s; str name]
   else die_if ((1 <=? i) && (i <? 10) && (0 <=? fd)) (ln "%s: oops createdelete %s did exist") [str s; str name]) ;;
  if 0 <=? fd then ignore (close fd) else Ret tt.

Definition createdelete (s : list Z) : prog unit :=
  ufor (zrange 0 4) (λ pi,
    pid ← fork_or (ln "fork failed") [str s];
    if pid =? 0 then ufor (zrange 0 20) (createdelete_child s pi) ;; exit 0 else Ret tt) ;;
  ufor (zrange 0 4) (λ _, '(_, xstatus) ← call wait; if negb (xstatus =? 0) then exit 1 else Ret tt) ;;
  ufor (zrange 0 20) (λ i, ufor (zrange 0 4) (createdelete_check s i)) ;;
  ufor (zrange 0 20) (λ i, ufor (zrange 0 4) (λ _, ignore (unlink [u8 (112 + i); u8 (48 + i); 0]))).

(** ** Links *)

Definition unlinkread (s : list Z) : prog unit :=
  fd ← call (open (lit "unlinkread") O_CR);
  die_if (fd <? 0) (ln "%s: create unlinkread failed") [str s] ;;
  ignore (write fd (chars "hello")) ;;
  ignore (close fd) ;;
  fd ← call (open (lit "unlinkread") O_RDWR);
  die_if (fd <? 0) (ln "%s: open unlinkread failed") [str s] ;;
  r ← call (unlink (lit "unlinkread"));
  die_if (negb (r =? 0)) (ln "%s: unlink unlinkread failed") [str s] ;;
  fd1 ← call (open (lit "unlinkread") O_CR);
  ignore (write fd1 (chars "yyy")) ;;
  ignore (close fd1) ;;
  '(n, l) ← call (read fd BUFSZ);
  let b := overwrite buf 0 l in
  die_if (negb (n =? 5)) "%s: unlinkread read failed" [str s] ;;
  c ← need (b !! 0%nat);
  die_if (negb (c =? 104)) (ln "%s: unlinkread wrong data") [str s] ;;
  n ← call (write fd (take 10 b));
  die_if (negb (n =? 10)) (ln "%s: unlinkread write failed") [str s] ;;
  ignore (close fd) ;;
  ignore (unlink (lit "unlinkread")).

Definition linktest (s : list Z) : prog unit :=
  ignore (unlink (lit "lf1")) ;;
  ignore (unlink (lit "lf2")) ;;
  fd ← call (open (lit "lf1") O_CR);
  die_if (fd <? 0) (ln "%s: create lf1 failed") [str s] ;;
  n ← call (write fd (chars "hello"));
  die_if (negb (n =? 5)) (ln "%s: write lf1 failed") [str s] ;;
  ignore (close fd) ;;
  r ← call (link (lit "lf1") (lit "lf2"));
  die_if (r <? 0) (ln "%s: link lf1 lf2 failed") [str s] ;;
  ignore (unlink (lit "lf1")) ;;
  r ← call (open (lit "lf1") 0);
  die_if (0 <=? r) (ln "%s: unlinked lf1 but it is still there!") [str s] ;;
  fd ← call (open (lit "lf2") 0);
  die_if (fd <? 0) (ln "%s: open lf2 failed") [str s] ;;
  '(n, _) ← call (read fd BUFSZ);
  die_if (negb (n =? 5)) (ln "%s: read lf2 failed") [str s] ;;
  ignore (close fd) ;;
  r ← call (link (lit "lf2") (lit "lf2"));
  die_if (0 <=? r) (ln "%s: link lf2 lf2 succeeded! oops") [str s] ;;
  ignore (unlink (lit "lf2")) ;;
  r ← call (link (lit "lf2") (lit "lf1"));
  die_if (0 <=? r) (ln "%s: link non-existent succeeded! oops") [str s] ;;
  r ← call (link (lit ".") (lit "lf1"));
  die_if (0 <=? r) (ln "%s: link . lf1 succeeded! oops") [str s].

(** The body of the first loop of concreate(). *)
Definition concreate_make (i : Z) : prog unit :=
  let file := [67; u8 (48 + i); 0] in
  ignore (unlink file) ;;
  pid ← call fork;
  (if truth pid && (i mod 3 =? 1) then ignore (link (lit "C0") file)
   else if (pid =? 0) && (i mod 5 =? 1) then ignore (link (lit "C0") file)
   else
     fd ← call (open file O_CR);
     die_if (fd <? 0) (ln "concreate create %s failed") [str file] ;;
     ignore (close fd)) ;;
  if pid =? 0 then exit 0 else
  '(_, xstatus) ← call wait;
  if negb (xstatus =? 0) then exit 1 else Ret tt.

(** The loop over the entries of the directory: [de], [fa] and [n] go around. *)
Definition concreate_entry (s : list Z) (fd : Z) (x : list Z * (list Z * Z)) :
    prog ((list Z * (list Z * Z)) + Z) :=
  let '(de, (fa, n)) := x in
  '(r, l) ← call (read fd 16);
  let de := overwrite de 0 l in
  if r <=? 0 then Ret (inr n) else
  if get16 0 de =? 0 then Ret (inl (de, (fa, n))) else
  let name := drop 2 de in
  if (aget name 0 =? 67) && (aget name 2 =? 0) then
    let i := aget name 1 - 48 in
    die_if ((i <? 0) || (40 <=? i)) (ln "%s: concreate weird file %s") [str s; str name] ;;
    die_if (truth (aget fa i)) (ln "%s: concreate duplicate file %s") [str s; str name] ;;
    Ret (inl (de, (aset fa i 1, n + 1)))
  else Ret (inl (de, (fa, n))).

(** The body of the last loop. *)
Definition concreate_remove (s : list Z) (i : Z) : prog unit :=
  let file := [67; u8 (48 + i); 0] in
  pid ← fork_or (ln "%s: fork failed") [str s];
  (if ((i mod 3 =? 0) && (pid =? 0)) || ((i mod 3 =? 1) && negb (pid =? 0))
   then ufor (zrange 0 6) (λ _, touch file 0)
   else ufor (zrange 0 6) (λ _, ignore (unlink file))) ;;
  if pid =? 0 then exit 0 else ignore wait.

Definition concreate (fuel : nat) (s : list Z) : prog unit :=
  ufor (zrange 0 40) concreate_make ;;
  fd ← call (open (lit ".") 0);
  n ← uloop fuel (concreate_entry s fd) (replicate 16 0, (replicate 40 0, 0));
  ignore (close fd) ;;
  die_if (negb (n =? 40)) (ln "%s: concreate not enough files in directory listing") [str s] ;;
  ufor (zrange 0 40) (concreate_remove s).

(** One round of linkunlink(): the next random number. *)
Definition linkunlink_round (_ x : Z) : prog Z :=
  let x := u32 (x * 1103515245 + 12345) in
  (if x mod 3 =? 0 then touch (lit "x") (Z.lor O_RDWR O_CREATE)
   else if x mod 3 =? 1 then ignore (link (lit "cat") (lit "x"))
   else ignore (unlink (lit "x"))) ;;
  Ret x.

Definition linkunlink (s : list Z) : prog unit :=
  ignore (unlink (lit "x")) ;;
  pid ← fork_or (ln "%s: fork failed") [str s];
  _ ← ufold (zrange 0 100) linkunlink_round (if truth pid then 1 else 97);
  if truth pid then ignore wait else exit 0.

(** ** Directories *)

(** subdir() up to the line that changes back to the root directory *)
Definition subdir_make (s : list Z) : prog unit :=
  ignore (unlink (lit "ff")) ;;
  r ← call (mkdir (lit "dd"));
  die_if (negb (r =? 0)) (ln "%s: mkdir dd failed") [str s] ;;
  fd ← call (open (lit "dd/ff") O_CR);
  die_if (fd <? 0) (ln "%s: create dd/ff failed") [str s] ;;
  ignore (write fd (chars "ff")) ;;
  ignore (close fd) ;;
  r ← call (unlink (lit "dd"));
  die_if (0 <=? r) (ln "%s: unlink dd (non-empty dir) succeeded!") [str s] ;;
  r ← call (mkdir (lit "/dd/dd"));
  die_if (negb (r =? 0)) (ln "subdir mkdir dd/dd failed") [str s] ;;
  fd ← call (open (lit "dd/dd/ff") O_CR);
  die_if (fd <? 0) (ln "%s: create dd/dd/ff failed") [str s] ;;
  ignore (write fd (chars "FF")) ;;
  ignore (close fd) ;;
  fd ← call (open (lit "dd/dd/../ff") 0);
  die_if (fd <? 0) (ln "%s: open dd/dd/../ff failed") [str s] ;;
  '(cc, l) ← call (read fd BUFSZ);
  c ← need (overwrite buf 0 l !! 0%nat);
  die_if (negb (cc =? 2) || negb (c =? 102)) (ln "%s: dd/dd/../ff wrong content") [str s] ;;
  ignore (close fd) ;;
  r ← call (link (lit "dd/dd/ff") (lit "dd/dd/ffff"));
  die_if (negb (r =? 0)) (ln "link dd/dd/ff dd/dd/ffff failed") [str s] ;;
  r ← call (unlink (lit "dd/dd/ff"));
  die_if (negb (r =? 0)) (ln "%s: unlink dd/dd/ff failed") [str s] ;;
  r ← call (open (lit "dd/dd/ff") O_RDONLY);
  die_if (0 <=? r) (ln "%s: open (unlinked) dd/dd/ff succeeded") [str s] ;;
  r ← call (chdir (lit "dd"));
  die_if (negb (r =? 0)) (ln "%s: chdir dd failed") [str s] ;;
  r ← call (chdir (lit "dd/../../dd"));
  die_if (negb (r =? 0)) (ln "%s: chdir dd/../../dd failed") [str s] ;;
  r ← call (chdir (lit "dd/../../../dd"));
  die_if (negb (r =? 0)) (ln "chdir dd/../../dd failed") [str s] ;;
  r ← call (chdir (lit "./.."));
  die_if (negb (r =? 0)) (ln "%s: chdir ./.. failed") [str s].

(** the calls that must be refused *)
Definition subdir_refused (s : list Z) : prog unit :=
  fd ← call (open (lit "dd/dd/ffff") 0);
  die_if (fd <? 0) (ln "%s: open dd/dd/ffff failed") [str s] ;;
  '(n, _) ← call (read fd BUFSZ);
  die_if (negb (n =? 2)) (ln "%s: read dd/dd/ffff wrong len") [str s] ;;
  ignore (close fd) ;;
  r ← call (open (lit "dd/dd/ff") O_RDONLY);
  die_if (0 <=? r) (ln "%s: open (unlinked) dd/dd/ff succeeded!") [str s] ;;
  r ← call (open (lit "dd/ff/ff") O_CR);
  die_if (0 <=? r) (ln "%s: create dd/ff/ff succeeded!") [str s] ;;
  r ← call (open (lit "dd/xx/ff") O_CR);
  die_if (0 <=? r) (ln "%s: create dd/xx/ff succeeded!") [str s] ;;
  r ← call (open (lit "dd") O_CREATE);
  die_if (0 <=? r) (ln "%s: create dd succeeded!") [str s] ;;
  r ← call (open (lit "dd") O_RDWR);
  die_if (0 <=? r) (ln "%s: open dd rdwr succeeded!") [str s] ;;
  r ← call (open (lit "dd") O_WRONLY);
  die_if (0 <=? r) (ln "%s: open dd wronly succeeded!") [str s] ;;
  r ← call (link (lit "dd/ff/ff") (lit "dd/dd/xx"));
  die_if (r =? 0) (ln "%s: link dd/ff/ff dd/dd/xx succeeded!") [str s] ;;
  r ← call (link (lit "dd/xx/ff") (lit "dd/dd/xx"));
  die_if (r =? 0) (ln "%s: link dd/xx/ff dd/dd/xx succeeded!") [str s] ;;
  r ← call (link (lit "dd/ff") (lit "dd/dd/ffff"));
  die_if (r =? 0) (ln "%s: link dd/ff dd/dd/ffff succeeded!") [str s] ;;
  r ← call (mkdir (lit "dd/ff/ff"));
  die_if (r =? 0) (ln "%s: mkdir dd/ff/ff succeeded!") [str s] ;;
  r ← call (mkdir (lit "dd/xx/ff"));
  die_if (r =? 0) (ln "%s: mkdir dd/xx/ff succeeded!") [str s] ;;
  r ← call (mkdir (lit "dd/dd/ffff"));
  die_if (r =? 0) (ln "%s: mkdir dd/dd/ffff succeeded!") [str s] ;;
  r ← call (unlink (lit "dd/xx/ff"));
  die_if (r =? 0) (ln "%s: unlink dd/xx/ff succeeded!") [str s] ;;
  r ← call (unlink (lit "dd/ff/ff"));
  die_if (r =? 0) (ln "%s: unlink dd/ff/ff succeeded!") [str s] ;;
  r ← call (chdir (lit "dd/ff"));
  die_if (r =? 0) (ln "%s: chdir dd/ff succeeded!") [str s] ;;
  r ← call (chdir (lit "dd/xx"));
  die_if (r =? 0) (ln "%s: chdir dd/xx succeeded!") [str s].

Definition subdir_remove (s : list Z) : prog unit :=
  r ← call (unlink (lit "dd/dd/ffff"));
  die_if (negb (r =? 0)) (ln "%s: unlink dd/dd/ff failed") [str s] ;;
  r ← call (unlink (lit "dd/ff"));
  die_if (negb (r =? 0)) (ln "%s: unlink dd/ff failed") [str s] ;;
  r ← call (unlink (lit "dd"));
  die_if (r =? 0) (ln "%s: unlink non-empty dd succeeded!") [str s] ;;
  r ← call (unlink (lit "dd/dd"));
  die_if (r <? 0) (ln "%s: unlink dd/dd failed") [str s] ;;
  r ← call (unlink (lit "dd"));
  die_if (r <? 0) (ln "%s: unlink dd failed") [str s].

Definition subdir (s : list Z) : prog unit := subdir_make s ;; subdir_refused s ;; subdir_remove s.

(** ** Large files *)

Definition bigwrite (s : list Z) : prog unit :=
  ignore (unlink (lit "bigwrite")) ;;
  ufor (range_by 499 ((MAXOPBLOCKS + 2) * BSIZE) 471) (λ sz,
    fd ← call (open (lit "bigwrite") O_CR);
    die_if (fd <? 0) (ln "%s: cannot create bigwrite") [str s] ;;
    ufor (zrange 0 2) (λ _,
      cc ← call (write fd (take (Z.to_nat sz) buf));
      die_if (negb (cc =? sz)) (ln "%s: write(%d) ret %d") [str s; A_int sz; A_int cc]) ;;
    ignore (close fd) ;;
    ignore (unlink (lit "bigwrite"))).

Definition bigfile_write (s : list Z) (fd i : Z) (b : list Z) : prog (list Z) :=
  b ← need (memset b i 600);
  n ← call (write fd (take 600 b));
  die_if (negb (n =? 600)) (ln "%s: write bigfile failed") [str s] ;;
  Ret b.

(** [i], [total] and [buf] go around. *)
Definition bigfile_read (s : list Z) (fd : Z) (x : Z * Z * list Z) : prog ((Z * Z * list Z) + Z) :=
  let '(i, total, b) := x in
  '(cc, l) ← call (read fd (600 / 2));
  let b := overwrite b 0 l in
  die_if (cc <? 0) (ln "%s: read bigfile failed") [str s] ;;
  if cc =? 0 then Ret (inr total) else
  die_if (negb (cc =? 600 / 2)) (ln "%s: short read bigfile") [str s] ;;
  die_if (negb (aget b 0 =? i / 2) || negb (aget b (600 / 2 - 1) =? i / 2)) (ln "%s: read bigfile wrong data") [str s] ;;
  Ret (inl (i + 1, total + cc, b)).

Definition bigfile (fuel : nat) (s : list Z) : prog unit :=
  ignore (unlink (lit "bigfile.dat")) ;;
  fd ← call (open (lit "bigfile.dat") O_CR);
  die_if (fd <? 0) "%s: cannot create bigfile" [str s] ;;
  b ← ufold (zrange 0 20) (bigfile_write s fd) buf;
  ignore (close fd) ;;
  fd ← call (open (lit "bigfile.dat") 0);
  die_if (fd <? 0) (ln "%s: cannot open bigfile") [str s] ;;
  total ← uloop fuel (bigfile_read s fd) (0, 0, b);
  ignore (close fd) ;;
  die_if (negb (total =? 20 * 600)) (ln "%s: read bigfile wrong total") [str s] ;;
  ignore (unlink (lit "bigfile.dat")).

(** ** Names *)

Definition fourteen (s : list Z) : prog unit :=
  r ← call (mkdir (lit "12345678901234"));
  die_if (negb (r =? 0)) (ln "%s: mkdir 12345678901234 failed") [str s] ;;
  r ← call (mkdir (lit "12345678901234/123456789012345"));
  die_if (negb (r =? 0)) (ln "%s: mkdir 12345678901234/123456789012345 failed") [str s] ;;
  fd ← call (open (lit "123456789012345/123456789012345/123456789012345") O_CREATE);
  die_if (fd <? 0) (ln "%s: create 123456789012345/123456789012345/123456789012345 failed") [str s] ;;
  ignore (close fd) ;;
  fd ← call (open (lit "12345678901234/12345678901234/12345678901234") 0);
  die_if (fd <? 0) (ln "%s: open 12345678901234/12345678901234/12345678901234 failed") [str s] ;;
  ignore (close fd) ;;
  r ← call (mkdir (lit "12345678901234/12345678901234"));
  die_if (r =? 0) (ln "%s: mkdir 12345678901234/12345678901234 succeeded!") [str s] ;;
  r ← call (mkdir (lit "123456789012345/12345678901234"));
  die_if (r =? 0) (ln "%s: mkdir 12345678901234/123456789012345 succeeded!") [str s] ;;
  ignore (unlink (lit "123456789012345/12345678901234")) ;;
  ignore (unlink (lit "12345678901234/12345678901234")) ;;
  ignore (unlink (lit "12345678901234/12345678901234/12345678901234")) ;;
  ignore (unlink (lit "123456789012345/123456789012345/123456789012345")) ;;
  ignore (unlink (lit "12345678901234/123456789012345")) ;;
  ignore (unlink (lit "12345678901234")).

Definition rmdot (s : list Z) : prog unit :=
  r ← call (mkdir (lit "dots"));
  die_if (negb (r =? 0)) (ln "%s: mkdir dots failed") [str s] ;;
  r ← call (chdir (lit "dots"));
  die_if (negb (r =? 0)) (ln "%s: chdir dots failed") [str s] ;;
  r ← call (unlink (lit "."));
  die_if (r =? 0) (ln "%s: rm . worked!") [str s] ;;
  r ← call (unlink (lit ".."));
  die_if (r =? 0) (ln "%s: rm .. worked!") [str s] ;;
  r ← call (chdir (lit "/"));
  die_if (negb (r =? 0)) (ln "%s: chdir / failed") [str s] ;;
  r ← call (unlink (lit "dots/."));
  die_if (r =? 0) (ln "%s: unlink dots/. worked!") [str s] ;;
  r ← call (unlink (lit "dots/.."));
  die_if (r =? 0) (ln "%s: unlink dots/.. worked!") [str s] ;;
  r ← call (unlink (lit "dots"));
  die_if (negb (r =? 0)) (ln "%s: unlink dots failed!") [str s].

Definition dirfile (s : list Z) : prog unit :=
  fd ← call (open (lit "dirfile") O_CREATE);
  die_if (fd <? 0) (ln "%s: create dirfile failed") [str s] ;;
  ignore (close fd) ;;
  r ← call (chdir (lit "dirfile"));
  die_if (r =? 0) (ln "%s: chdir dirfile succeeded!") [str s] ;;
  fd ← call (open (lit "dirfile/xx") 0);
  die_if (0 <=? fd) (ln "%s: create dirfile/xx succeeded!") [str s] ;;
  fd ← call (open (lit "dirfile/xx") O_CREATE);
  die_if (0 <=? fd) (ln "%s: create dirfile/xx succeeded!") [str s] ;;
  r ← call (mkdir (lit "dirfile/xx"));
  die_if (r =? 0) (ln "%s: mkdir dirfile/xx succeeded!") [str s] ;;
  r ← call (unlink (lit "dirfile/xx"));
  die_if (r =? 0) (ln "%s: unlink dirfile/xx succeeded!") [str s] ;;
  r ← call (link (lit "README") (lit "dirfile/xx"));
  die_if (r =? 0) (ln "%s: link to dirfile/xx succeeded!") [str s] ;;
  r ← call (unlink (lit "dirfile"));
  die_if (negb (r =? 0)) (ln "%s: unlink dirfile failed!") [str s] ;;
  fd ← call (open (lit ".") O_RDWR);
  die_if (0 <=? fd) (ln "%s: open . for writing succeeded!") [str s] ;;
  fd ← call (open (lit ".") 0);
  n ← call (write fd (chars "x"));
  die_if (0 <? n) (ln "%s: write . succeeded!") [str s] ;;
  ignore (close fd).

(** [if(fd >= 0) close(fd);] *)
Definition close_open (fd : Z) : prog unit := if 0 <=? fd then ignore (close fd) else Ret tt.

Definition iref (s : list Z) : prog unit :=
  ufor (zrange 0 (Z.to_nat (NINODE + 1))) (λ _,
    r ← call (mkdir (lit "irefd"));
    die_if (negb (r =? 0)) (ln "%s: mkdir irefd failed") [str s] ;;
    r ← call (chdir (lit "irefd"));
    die_if (negb (r =? 0)) (ln "%s: chdir irefd failed") [str s] ;;
    ignore (mkdir (lit "")) ;;
    ignore (link (lit "README") (lit "")) ;;
    fd ← call (open (lit "") O_CREATE);
    close_open fd ;;
    fd ← call (open (lit "xx") O_CREATE);
    close_open fd ;;
    ignore (unlink (lit "xx"))) ;;
  ufor (zrange 0 (Z.to_nat (NINODE + 1))) (λ _,
    ignore (chdir (lit "..")) ;;
    ignore (unlink (lit "irefd"))) ;;
  ignore (chdir (lit "/")).

(** ** A full disk *)

(** The name of file number [n] of fsfull(). *)
Definition fsfull_name (n : Z) : list Z :=
  [102; u8 (48 + n ÷ 1000); u8 (48 + Z.rem n 1000 ÷ 100); u8 (48 + Z.rem n 100 ÷ 10); u8 (48 + Z.rem n 10); 0].

(** [while(1)]: the bytes written to one file *)
Definition fsfull_fill (fd total : Z) : prog (Z + Z) :=
  cc ← call (write fd (take (Z.to_nat BSIZE) buf));
  if cc <? BSIZE then Ret (inr total) else Ret (inl (total + cc)).

Definition fsfull_file (fuel : nat) (nfiles : Z) : prog (Z + Z) :=
  let name := fsfull_name nfiles in
  printf (ln "writing %s") [str name] ;;
  fd ← call (open name O_CR);
  if fd <? 0 then printf (ln "open %s failed") [str name] ;; Ret (inr nfiles) else
  total ← uloop fuel (fsfull_fill fd) 0;
  printf (ln "wrote %d bytes") [A_int total] ;;
  ignore (close fd) ;;
  if total =? 0 then Ret (inr nfiles) else Ret (inl (nfiles + 1)).

(** [while(nfiles >= 0)]: from [nfiles] down to 0 *)
Definition fsfull (fuel : nat) : prog unit :=
  printf (ln "fsfull test") [] ;;
  nfiles ← uloop fuel (fsfull_file fuel) 0;
  ufor (reverse (zrange 0 (Z.to_nat (nfiles + 1)))) (λ n, ignore (unlink (fsfull_name n))) ;;
  printf (ln "fsfull test finished") [].

(** ** The slow tests *)

Definition bigdir_name (i : Z) : list Z := [120; u8 (48 + i / 64); u8 (48 + i mod 64); 0].

Definition bigdir (s : list Z) : prog unit :=
  ignore (unlink (lit "bd")) ;;
  fd ← call (open (lit "bd") O_CREATE);
  die_if (fd <? 0) (ln "%s: bigdir create failed") [str s] ;;
  ignore (close fd) ;;
  ufor (zrange 0 500) (λ i,
    r ← call (link (lit "bd") (bigdir_name i));
    die_if (negb (r =? 0)) (ln "%s: bigdir link(bd, %s) failed") [str s; str (bigdir_name i)]) ;;
  ignore (unlink (lit "bd")) ;;
  ufor (zrange 0 500) (λ i,
    r ← call (unlink (bigdir_name i));
    die_if (negb (r =? 0)) "%s: bigdir unlink failed" [str s]).

Definition manywrites_child (s : list Z) (ci : Z) : prog unit :=
  let name := [98; u8 (97 + ci); 0] in
  ignore (unlink name) ;;
  ufor (zrange 0 30) (λ _,
    ufor (zrange 0 (Z.to_nat (ci + 1))) (λ _,
      fd ← call (open name O_CR);
      die_if (fd <? 0) (ln "%s: cannot create %s") [str s; str name] ;;
      let sz := BUFSZ in
      cc ← call (write fd buf);
      die_if (negb (cc =? sz)) (ln "%s: write(%d) ret %d") [str s; A_int sz; A_int cc] ;;
      ignore (close fd)) ;;
    ignore (unlink name)) ;;
  ignore (unlink name) ;;
  exit 0.

Definition manywrites (s : list Z) : prog unit :=
  ufor (zrange 0 4) (λ ci,
    pid ← fork_or (ln "fork failed") [];
    if pid =? 0 then manywrites_child s ci else Ret tt) ;;
  ufor (zrange 0 4) (λ _,
    '(_, st) ← wait_st 0;
    if negb (st =? 0) then exit st else Ret tt) ;;
  exit 0.

Definition badwrite (s : list Z) : prog unit :=
  ignore (unlink (lit "junk")) ;;
  ufor (zrange 0 600) (λ _,
    fd ← call (open (lit "junk") (Z.lor O_CREATE O_WRONLY));
    die_if (fd <? 0) (ln "open junk failed") [] ;;
    ignore (write_at fd 0xffffffffff 1) ;;
    ignore (close fd) ;;
    ignore (unlink (lit "junk"))) ;;
  fd ← call (open (lit "junk") (Z.lor O_CREATE O_WRONLY));
  die_if (fd <? 0) (ln "open junk failed") [] ;;
  n ← call (write fd (chars "x"));
  die_if (negb (n =? 1)) (ln "write failed") [] ;;
  ignore (close fd) ;;
  ignore (unlink (lit "junk")) ;;
  exit 0.

Definition big_name (fi : Z) : list Z := [98; 105; 103; u8 (48 + fi); 0].
Definition zz_name (i : Z) : list Z := [122; 122; u8 (48 + i / 32); u8 (48 + i mod 32); 0].

(** One file of diskfull(): [inl] the next [fi], or [inr] its last value.
    [junk] is what happens to be in the array on the stack. *)
Definition diskfull_file (junk s : list Z) (fi : Z) : prog (Z + Z) :=
  let name := big_name fi in
  ignore (unlink name) ;;
  fd ← call (open name O_CRT);
  if fd <? 0 then printf (ln "%s: could not create file %s") [str s; str name] ;; Ret (inr fi) else
  done ← ufor_break (zrange 0 (Z.to_nat MAXFILE)) (λ _,
    n ← call (write fd (take (Z.to_nat BSIZE) junk));
    if negb (n =? BSIZE) then ignore (close fd) ;; Ret true else Ret false);
  ignore (close fd) ;;
  Ret (if done : bool then inr (fi + 1) else inl (fi + 1)).

(** One of the files [zz..]: whether the loop ends. *)
Definition zz_create (i : Z) : prog bool :=
  ignore (unlink (zz_name i)) ;;
  fd ← call (open (zz_name i) O_CRT);
  if fd <? 0 then Ret true else ignore (close fd) ;; Ret false.

Definition diskfull (fuel : nat) (junk s : list Z) : prog unit :=
  ignore (unlink (lit "diskfulldir")) ;;
  fi ← uloop fuel (diskfull_file junk s) 0;
  _ ← ufor_break (zrange 0 128) zz_create;
  r ← call (mkdir (lit "diskfulldir"));
  (if r =? 0 then printf (ln "%s: mkdir(diskfulldir) unexpectedly succeeded!") [] else Ret tt) ;;
  ignore (unlink (lit "diskfulldir")) ;;
  ufor (zrange 0 128) (λ i, ignore (unlink (zz_name i))) ;;
  ufor (zrange 0 (Z.to_nat fi)) (λ i, ignore (unlink (big_name i))).

Definition outofinodes (s : list Z) : prog unit :=
  _ ← ufor_break (zrange 0 (32 * 32)) zz_create;
  ufor (zrange 0 (32 * 32)) (λ i, ignore (unlink (zz_name i))).
