(* ===== verification/TestProcs.v ===== *)
(** * usertests.c: the tests of processes and pipes

    The theorem is about pipe1(): what its two processes write and accept. *)

From Stdlib Require Import ZArith Lia.
From stdpp Require Import base numbers list gmap strings.
From S2P Require Import Prelude Machine User Ulib Cat TestBase.

(** If exec() came back with a reply that is not negative, the child would go on
    as the parent does. *)
Definition exectest (s : list Z) : prog unit :=
  ignore (unlink (lit "echo-ok")) ;;
  pid ← fork_or (ln "%s: fork failed") [str s];
  (if pid =? 0 then
     ignore (close 1) ;;
     fd ← call (open (lit "echo-ok") (Z.lor O_CREATE O_WRONLY));
     die_if (fd <? 0) (ln "%s: create failed") [str s] ;;
     die_if (negb (fd =? 1)) (ln "%s: wrong fd") [str s] ;;
     r ← call (exec (lit "echo") [lit "echo"; lit "OK"]);
     die_if (r <? 0) (ln "%s: exec echo failed") [str s]
   else Ret tt) ;;
  '(r, xstatus) ← call wait;
  (if negb (r =? pid) then printf (ln "%s: wait failed!") [str s] else Ret tt) ;;
  if negb (xstatus =? 0) then exit xstatus else
  fd ← call (open (lit "echo-ok") O_RDONLY);
  die_if (fd <? 0) (ln "%s: open failed") [str s] ;;
  '(n, l) ← call (read fd 2);
  die_if (negb (n =? 2)) (ln "%s: read failed") [str s] ;;
  ignore (unlink (lit "echo-ok")) ;;
  if (aget l 0 =? 79) && (aget l 1 =? 75) then exit 0
  else die (ln "%s: wrong output") [str s].

(** ** pipe1() *)

(** One round of the writer: [SZ] more numbers.  [seq] and [buf] go around. *)
Definition pipe1_write (s : list Z) (fds1 : Z) (_ : Z) (x : Z * list Z) : prog (Z * list Z) :=
  let '(seq, b) := x in
  let b := overwrite b 0 (u8 <$> zrange seq 1033) in
  n ← call (write fds1 (take 1033 b));
  die_if (negb (n =? 1033)) (ln "%s: pipe1 oops 1") [str s] ;;
  Ret (seq + 1033, b).

Definition pipe1_child (s : list Z) (fds0 fds1 : Z) : prog unit :=
  ignore (close fds0) ;;
  _ ← ufold (zrange 0 5) (pipe1_write s fds1) (0, buf);
  exit 0.

(** [for(i = 0; i < n; i++)]: whether the bytes are the next numbers. *)
Definition pipe1_check (b : list Z) (n seq : Z) : bool :=
  forallb (λ i, Z.land (aget b i) 0xff =? Z.land (seq + i) 0xff) (zrange 0 (Z.to_nat n)).

(** One round of the reader, with [seq], [total], [cc] and [buf].  The loop ends
    with the total, or with nothing when the function returns. *)
Definition pipe1_read (s : list Z) (fds0 : Z) (x : Z * Z * Z * list Z) :
    prog ((Z * Z * Z * list Z) + option Z) :=
  let '(seq, total, cc, b) := x in
  '(n, l) ← call (read fds0 cc);
  let b := overwrite b 0 l in
  if n <=? 0 then Ret (inr (Some total)) else
  if negb (pipe1_check b n seq) then printf (ln "%s: pipe1 oops 2") [str s] ;; Ret (inr None) else
  let cc := cc * 2 in
  Ret (inl (seq + n, total + n, if BUFSZ <? cc then BUFSZ else cc, b)).

(** The argument for "%s" is missing in the call of printf(). *)
Definition pipe1_parent (fuel : nat) (s : list Z) (fds0 fds1 : Z) : prog unit :=
  ignore (close fds1) ;;
  r ← uloop fuel (pipe1_read s fds0) (0, 0, 1, buf);
  match r with
  | None => Ret tt
  | Some total =>
      die_if (negb (total =? 5 * 1033)) (ln "%s: pipe1 oops 3 total %d") [A_int total] ;;
      ignore (close fds0) ;;
      '(_, xstatus) ← call wait;
      exit xstatus
  end.

Definition pipe1 (fuel : nat) (s : list Z) : prog unit :=
  '(r, (fds0, fds1)) ← call pipe;
  die_if (negb (r =? 0)) (ln "%s: pipe() failed") [str s] ;;
  pid ← call fork;
  if pid =? 0 then pipe1_child s fds0 fds1
  else if 0 <? pid then pipe1_parent fuel s fds0 fds1
  else die (ln "%s: fork() failed") [str s].

(** ** Killing and waiting *)

Definition killstatus (fuel : nat) (s : list Z) : prog unit :=
  ufor (zrange 0 100) (λ _,
    pid1 ← fork_or (ln "%s: fork failed") [str s];
    if pid1 =? 0 then uloop fuel (λ _, ignore getpid ;; Ret (inl tt)) tt else
    ignore (sleep 1) ;;
    ignore (kill pid1) ;;
    '(_, xst) ← call wait;
    die_if (negb (xst =? -1)) (ln "%s: status should be -1") [str s]) ;;
  exit 0.

Definition preempt (s : list Z) : prog unit :=
  pid1 ← fork_or "%s: fork failed" [str s];
  if pid1 =? 0 then spin else
  pid2 ← fork_or (ln "%s: fork failed") [str s];
  if pid2 =? 0 then spin else
  '(_, (pfds0, pfds1)) ← call pipe;
  pid3 ← fork_or (ln "%s: fork failed") [str s];
  if pid3 =? 0 then
    ignore (close pfds0) ;;
    n ← call (write pfds1 (chars "x"));
    (if negb (n =? 1) then printf "%s: preempt write error" [str s] else Ret tt) ;;
    ignore (close pfds1) ;;
    spin
  else
  ignore (close pfds1) ;;
  '(n, _) ← call (read pfds0 BUFSZ);
  if negb (n =? 1) then printf "%s: preempt read error" [str s] else
  ignore (close pfds0) ;;
  printf "kill... " [] ;;
  ignore (kill pid1) ;;
  ignore (kill pid2) ;;
  ignore (kill pid3) ;;
  printf "wait... " [] ;;
  ignore wait ;;
  ignore wait ;;
  ignore wait.

Definition exitwait (s : list Z) : prog unit :=
  ufor (zrange 0 100) (λ i,
    pid ← fork_or (ln "%s: fork failed") [str s];
    if truth pid then
      '(r, xstate) ← call wait;
      die_if (negb (r =? pid)) (ln "%s: wait wrong pid") [str s] ;;
      die_if (negb (i =? xstate)) (ln "%s: wait wrong exit status") [str s]
    else exit i).

Definition reparent (s : list Z) : prog unit :=
  master_pid ← call getpid;
  ufor (zrange 0 200) (λ _,
    pid ← fork_or (ln "%s: fork failed") [str s];
    if truth pid then
      '(r, _) ← call wait;
      die_if (negb (r =? pid)) (ln "%s: wait wrong pid") [str s]
    else
      pid2 ← call fork;
      if pid2 <? 0 then ignore (kill master_pid) ;; exit 1 else exit 0) ;;
  exit 0.

Definition twochildren (s : list Z) : prog unit :=
  ufor (zrange 0 1000) (λ _,
    pid1 ← fork_or (ln "%s: fork failed") [str s];
    if pid1 =? 0 then exit 0 else
    pid2 ← fork_or (ln "%s: fork failed") [str s];
    if pid2 =? 0 then exit 0 else
    ignore wait ;;
    ignore wait).

Definition forkfork (s : list Z) : prog unit :=
  ufor (zrange 0 2) (λ _,
    pid ← fork_or "%s: fork failed" [str s];
    if pid =? 0 then
      ufor (zrange 0 200) (λ _,
        pid1 ← call fork;
        if pid1 <? 0 then exit 1 else
        if pid1 =? 0 then exit 0 else
        ignore wait) ;;
      exit 0
    else Ret tt) ;;
  ufor (zrange 0 2) (λ _,
    '(_, xstatus) ← call wait;
    die_if (negb (xstatus =? 0)) "%s: fork in child failed" [str s]).

Definition forkforkfork (fuel : nat) (s : list Z) : prog unit :=
  ignore (unlink (lit "stopforking")) ;;
  pid ← fork_or "%s: fork failed" [str s];
  if pid =? 0 then
    uloop fuel (λ _,
      fd ← call (open (lit "stopforking") 0);
      if 0 <=? fd then exit 0 else
      r ← call fork;
      (if r <? 0 then touch (lit "stopforking") (Z.lor O_CREATE O_RDWR) else Ret tt) ;;
      Ret (inl tt)) tt
  else
  ignore (sleep 20) ;;
  touch (lit "stopforking") (Z.lor O_CREATE O_RDWR) ;;
  ignore wait ;;
  ignore (sleep 10).

Definition reparent2 (s : list Z) : prog unit :=
  ufor (zrange 0 800) (λ _,
    pid1 ← fork_or (ln "fork failed") [];
    if pid1 =? 0 then ignore fork ;; ignore fork ;; exit 0 else
    ignore wait) ;;
  exit 0.

(** [n] when the loop of forktest() is left, with [k] rounds to go. *)
Fixpoint forktest_forks (k n : nat) : prog nat :=
  match k with
  | O => Ret n
  | S k =>
      pid ← call fork;
      if pid <? 0 then Ret n else if pid =? 0 then exit 0 else forktest_forks k (S n)
  end.

Definition forktest (s : list Z) : prog unit :=
  n ← forktest_forks 1000 0;
  die_if (n =? 0)%nat (ln "%s: no fork at all!") [str s] ;;
  die_if (n =? 1000)%nat (ln "%s: fork claimed to work 1000 times!") [str s] ;;
  ufor (seq 0 n) (λ _,
    '(r, _) ← call wait;
    die_if (r <? 0) (ln "%s: wait stopped early") [str s]) ;;
  '(r, _) ← call wait;
  die_if (negb (r =? -1)) (ln "%s: wait got too many") [str s].

(** The string every argument of bigargtest() points to. *)
Definition bigarg : list Z := chars (ln "bigargs test: failed") ++ replicate 199 32 ++ [0].

Definition bigargtest (s : list Z) : prog unit :=
  ignore (unlink (lit "bigarg-ok")) ;;
  pid ← call fork;
  if pid =? 0 then
    ignore (exec (lit "echo") (replicate (Z.to_nat (MAXARG - 1)) bigarg)) ;;
    fd ← call (open (lit "bigarg-ok") O_CREATE);
    ignore (close fd) ;;
    exit 0
  else
  die_if (pid <? 0) (ln "%s: bigargtest: fork failed") [str s] ;;
  '(_, xstatus) ← call wait;
  if negb (xstatus =? 0) then exit xstatus else
  fd ← call (open (lit "bigarg-ok") 0);
  die_if (fd <? 0) (ln "%s: bigarg test failed!") [str s] ;;
  ignore (close fd).

(** ** What pipe1() tests *)

(** The bytes that go through the pipe. *)
Definition sequence (k : Z) (n : nat) : list Z := u8 <$> zrange k n.

Lemma length_sequence k n : length (sequence k n) = n.
Proof. unfold sequence. by rewrite length_fmap, length_zrange. Qed.

Lemma sequence_app k n m : sequence k (n + m) = sequence k n ++ sequence (k + Z.of_nat n) m.
Proof. unfold sequence. by rewrite zrange_app, fmap_app. Qed.

Lemma land_ff z : Z.land z 0xff = u8 z.
Proof. change 0xff with (Z.ones 8). by apply Z.land_ones. Qed.

Lemma pipe1_check_ok l b k :
  Forall (λ c, 0 <= c < 256) l ->
  pipe1_check (l ++ b) (Z.of_nat (length l)) k = bool_decide (l = sequence k (length l)).
Proof.
  intros Hl. unfold pipe1_check. rewrite Nat2Z.id. apply eq_bool_prop_intro. rewrite Is_true_true, bool_decide_spec.
  rewrite forallb_forall. split.
  - intros H. apply list_eq. intros i. destruct (decide (i < length l)%nat) as [Hi|Hi].
    + destruct (lookup_lt_is_Some_2 l i Hi) as [c Hc]. rewrite Hc. symmetry. unfold sequence, zrange.
      rewrite !list_lookup_fmap, lookup_seq_lt by done. simpl. f_equal.
      specialize (H (Z.of_nat i)). rewrite !land_ff, Z.eqb_eq in H. rewrite <- H.
      * unfold aget. rewrite Nat2Z.id, lookup_app_l, Hc by done. apply u8_small.
        by apply (Forall_lookup_1 _ _ _ _ Hl Hc).
      * apply list_elem_of_In, elem_of_zrange. lia.
    + rewrite !lookup_ge_None_2; [done|rewrite length_sequence; lia|lia].
  - intros E i Hi%list_elem_of_In%elem_of_zrange. rewrite !land_ff. apply Z.eqb_eq.
    unfold aget. rewrite lookup_app_l by lia. rewrite E at 1. unfold sequence, zrange.
    rewrite !list_lookup_fmap, lookup_seq_lt by lia. simpl.
    rewrite Z2Nat.id by lia. unfold u8. by rewrite Z.mod_mod.
Qed.

Lemma overwrite_start b l : (length l <= length b)%nat -> overwrite b 0 l = l ++ drop (length l) b.
Proof. done. Qed.

Lemma bool_decide_app (l1 l2 m1 m2 : list Z) :
  length l1 = length m1 -> bool_decide (l1 ++ l2 = m1 ++ m2) = bool_decide (l1 = m1) && bool_decide (l2 = m2).
Proof.
  intros Hl. rewrite <- bool_decide_and. apply bool_decide_ext. split; [|by intros [-> ->]].
  intros E. by apply app_inj_1 in E.
Qed.

Lemma oops2 s t : ucstr s = Some t -> ∃ m, format (lit (ln "%s: pipe1 oops 2")) false [str s] = Some m.
Proof.
  intros E. change (lit (ln "%s: pipe1 oops 2")) with (37 :: 115 :: lit (ln ": pipe1 oops 2")). cbn [format].
  change (conversion 115 [str s]) with ((λ l, (l, @nil uarg)) <$> ucstr s). rewrite E. by eexists.
Qed.

(** The reader reads to the end, or to the first number that is not the next. *)
Lemma pipe1_loop fuel s t fds0 k total cc b w :
  ucstr s = Some t -> Forall (λ c, 0 <= c < 256) (inp w fds0) ->
  1 <= cc <= BUFSZ -> Z.of_nat (length b) = BUFSZ -> (length (inp w fds0) < fuel)%nat ->
  let r := inp w fds0 in
  ∃ w', run streams (uloop fuel (pipe1_read s fds0) (k, total, cc, b)) w
    = (Done (if bool_decide (r = sequence k (length r)) then Some (total + Z.of_nat (length r)) else None), w').
Proof.
  intros Hs. revert k total cc b w. induction fuel as [|fuel IH]; intros k total cc b w Hr Hcc Hb Hf; [lia|].
  set (l := take (chunk w (Z.to_nat cc)) (inp w fds0)).
  pose proof (take_drop_chunk (inp w fds0) (chunk w (Z.to_nat cc))) as Hin. fold l in Hin. simpl in Hin.
  pose proof (chunk_pos w (Z.to_nat cc) ltac:(lia)) as Hch.
  assert (Hll : (length l <= length b)%nat) by (unfold l; rewrite length_take; lia).
  assert (Hstep : run streams (pipe1_read s fds0 (k, total, cc, b)) w =
    if Z.of_nat (length l) <=? 0 then (Done (inr (Some total)), consume fds0 (length l) w) else
    if bool_decide (l = sequence k (length l)) then
      (Done (inl (k + Z.of_nat (length l), total + Z.of_nat (length l),
                  if BUFSZ <? cc * 2 then BUFSZ else cc * 2, overwrite b 0 l)), consume fds0 (length l) w)
    else run streams (printf (ln "%s: pipe1 oops 2") [str s] ;; Ret (inr None)) (consume fds0 (length l) w)).
  { unfold pipe1_read, call. cbn [mbind prog_bind run streams]. fold l.
    destruct (Z.of_nat (length l) <=? 0); [done|]. rewrite overwrite_start, pipe1_check_ok.
    - by destruct (bool_decide _).
    - unfold l. by apply Forall_take.
    - done. }
  destruct (decide (l = [])) as [Hl|Hl].
  { apply (chunk_nonempty w (Z.to_nat cc)) in Hl as Hi; [|lia]. exists (consume fds0 (length l) w).
    apply run_uloop_last. rewrite Hstep, Hl, Hi. simpl. by rewrite Z.add_0_r. }
  assert (Hl1 : (0 < length l)%nat) by (destruct l; [done|simpl; lia]).
  rewrite (proj2 (Z.leb_gt _ _)) in Hstep by lia.
  set (r' := drop (length l) (inp w fds0)) in Hin. cbv zeta.
  rewrite Hin, length_app, sequence_app, bool_decide_app by (by rewrite length_sequence).
  destruct (bool_decide (l = sequence k (length l))); cbn [andb].
  - destruct (IH (k + Z.of_nat (length l)) (total + Z.of_nat (length l)) (if BUFSZ <? cc * 2 then BUFSZ else cc * 2)
      (overwrite b 0 l) (consume fds0 (length l) w)) as [w' E].
    all: rewrite ?inp_consume.
    + by apply Forall_drop.
    + destruct (Z.ltb_spec BUFSZ (cc * 2)); lia.
    + by rewrite length_overwrite.
    + fold r'. rewrite Hin, length_app in Hf. lia.
    + rewrite inp_consume in E. fold r' in E. exists w'. rewrite (run_uloop_next _ _ _ _ _ _ _ Hstep), E.
      by rewrite Nat2Z.inj_add, Z.add_assoc.
  - destruct (oops2 s t Hs) as [m Hm]. eexists. apply run_uloop_last. rewrite Hstep, run_then.
    rewrite (printf_puts _ _ _ _ _ Hm).
    rewrite (prints_ufor 1 m _ : run streams (puts 1 m) _ = (Done tt, _)). reflexivity.
Qed.

Lemma pipe1_write_step s fds1 y k b w :
  (1033 <= length b)%nat ->
  ∃ b', length b' = length b
    ∧ run streams (pipe1_write s fds1 y (k, b)) w = (Done (k + 1033, b'), emit fds1 (sequence k 1033) w).
Proof.
  intros Hb. exists (overwrite b 0 (sequence k 1033)).
  assert (Ht : take 1033 (overwrite b 0 (sequence k 1033)) = sequence k 1033).
  { unfold overwrite. rewrite take_0, app_nil_l. apply take_app_length'. symmetry. apply length_sequence. }
  split; [apply length_overwrite; by rewrite length_sequence|].
  unfold pipe1_write. fold (sequence k 1033). cbv zeta. rewrite run_then. unfold call. cbn [run streams].
  rewrite Ht, length_sequence. change (Z.of_nat 1033) with 1033. by rewrite Z.eqb_refl.
Qed.

(** The writer puts the sequence into the pipe, [length l] times 1033 numbers. *)
Lemma pipe1_writes s fds1 l k b w :
  (1033 <= length b)%nat ->
  ∃ x, run streams (ufold l (pipe1_write s fds1) (k, b)) w = (Done x, emit fds1 (sequence k (length l * 1033)) w).
Proof.
  revert k b w. induction l as [|y l IH]; intros k b w Hb; [by exists (k, b)|].
  destruct (pipe1_write_step s fds1 y k b w Hb) as (b' & Hb' & E).
  destruct (IH (k + 1033) b' (emit fds1 (sequence k 1033) w) ltac:(lia)) as [x Ex]. exists x.
  cbn [ufold]. rewrite run_then, E, Ex, emit_emit. cbn [length Nat.mul]. rewrite sequence_app. done.
Qed.

(** *** Properties *)


