(* ===== verification/TestMemory.v ===== *)
(** * usertests.c: the tests of memory and of bad pointers

    Addresses that a test makes up, or gets from sbrk(), go to the kernel as
    they are.  The int argument of sbrk() is converted to 32 bits, and a
    (uint64) conversion of its reply turns -1 into [2^64 - 1]. *)

From Stdlib Require Import ZArith Lia.
From stdpp Require Import base numbers list gmap strings.
From S2P Require Import Prelude Machine User Ulib Umalloc TestBase.

Definition minus1 : Z := 0xffffffffffffffff.

(** [(uint64) sbrk(n)] *)
Definition sbrk64 (n : Z) : prog Z := a ← call (sbrk (i32 n)); Ret (u64 a).

(** ** Bad pointers in system calls *)

Definition addrs : list Z := [0x80000000; 0xffffffffffffffff].

Definition copyin (s : list Z) : prog unit :=
  ufor addrs (λ addr,
    fd ← call (open (lit "copyin1") (Z.lor O_CREATE O_WRONLY));
    die_if (fd <? 0) (ln "open(copyin1) failed") [] ;;
    n ← call (write_at fd addr 8192);
    die_if (0 <=? n) (ln "write(fd, %p, 8192) returned %d, not -1") [A_int addr; A_int n] ;;
    ignore (close fd) ;;
    ignore (unlink (lit "copyin1")) ;;
    n ← call (write_at 1 addr 8192);
    die_if (0 <? n) (ln "write(1, %p, 8192) returned %d, not -1 or 0") [A_int addr; A_int n] ;;
    '(r, (fds0, fds1)) ← call pipe;
    die_if (r <? 0) (ln "pipe() failed") [] ;;
    n ← call (write_at fds1 addr 8192);
    die_if (0 <? n) (ln "write(pipe, %p, 8192) returned %d, not -1 or 0") [A_int addr; A_int n] ;;
    ignore (close fds0) ;;
    ignore (close fds1)).

Definition copyout (s : list Z) : prog unit :=
  ufor addrs (λ addr,
    fd ← call (open (lit "README") 0);
    die_if (fd <? 0) (ln "open(README) failed") [] ;;
    n ← call (read_at fd addr 8192);
    die_if (0 <? n) (ln "read(fd, %p, 8192) returned %d, not -1 or 0") [A_int addr; A_int n] ;;
    ignore (close fd) ;;
    '(r, (fds0, fds1)) ← call pipe;
    die_if (r <? 0) (ln "pipe() failed") [] ;;
    n ← call (write fds1 (chars "x"));
    die_if (negb (n =? 1)) (ln "pipe write failed") [] ;;
    n ← call (read_at fds0 addr 8192);
    die_if (0 <? n) (ln "read(pipe, %p, 8192) returned %d, not -1 or 0") [A_int addr; A_int n] ;;
    ignore (close fds0) ;;
    ignore (close fds1)).

Definition copyinstr1 (s : list Z) : prog unit :=
  ufor addrs (λ addr,
    fd ← call (open_at addr (Z.lor O_CREATE O_WRONLY));
    die_if (0 <=? fd) (ln "open(%p) returned %d, not -1") [A_int addr; A_int fd]).

Definition copyinstr2 (s : list Z) : prog unit :=
  let b := replicate (Z.to_nat MAXPATH) 120 ++ [0] in
  ret ← call (unlink b);
  die_if (negb (ret =? -1)) (ln "unlink(%s) returned %d, not -1") [str b; A_int ret] ;;
  fd ← call (open b (Z.lor O_CREATE O_WRONLY));
  die_if (negb (fd =? -1)) (ln "open(%s) returned %d, not -1") [str b; A_int fd] ;;
  ret ← call (link b b);
  die_if (negb (ret =? -1)) (ln "link(%s, %s) returned %d, not -1") [str b; str b; A_int ret] ;;
  ret ← call (exec b [lit "xx"]);
  die_if (negb (ret =? -1)) (ln "exec(%s) returned %d, not -1") [str b; A_int fd] ;;
  pid ← fork_or (ln "fork failed") [];
  if pid =? 0 then
    let big := replicate (Z.to_nat PGSIZE) 120 ++ [0] in
    ret ← call (exec (lit "echo") [big; big; big]);
    die_if (negb (ret =? -1)) (ln "exec(echo, BIG) returned %d, not -1") [A_int fd] ;;
    exit 747
  else
  '(_, st) ← wait_st 0;
  die_if (negb (st =? 747)) (ln "exec(echo, BIG) succeeded, should have failed") [].

(** printf(pre %s mid %s ... post) with the string at address [b] *)
Definition die_at (fuel : nat) (c : bool) (pre : string) (b : Z) (post : string) (args : list uarg) : prog unit :=
  if c then printf pre [] ;; print_at fuel b ;; die post args else Ret tt.

Definition copyinstr3 (fuel : nat) (s : list Z) : prog unit :=
  ignore (sbrk 8192) ;;
  top ← sbrk64 0;
  (if negb (top mod PGSIZE =? 0) then ignore (sbrk (i32 (PGSIZE - top mod PGSIZE))) else Ret tt) ;;
  top ← sbrk64 0;
  die_if (truth (top mod PGSIZE)) (ln "oops") [] ;;
  let b := u64 (top - 1) in
  poke_at b [120] ;;
  ret ← call (unlink_at b);
  die_at fuel (negb (ret =? -1)) "unlink(" b (ln ") returned %d, not -1") [A_int ret] ;;
  fd ← call (open_at b (Z.lor O_CREATE O_WRONLY));
  die_at fuel (negb (fd =? -1)) "open(" b (ln ") returned %d, not -1") [A_int fd] ;;
  ret ← call (link_at (S_at b) (S_at b));
  (if negb (ret =? -1) then
     printf "link(" [] ;; print_at fuel b ;; die_at fuel true ", " b (ln ") returned %d, not -1") [A_int ret]
   else Ret tt) ;;
  ret ← call (exec_at (S_at b) [S_arr (lit "xx")]);
  die_at fuel (negb (ret =? -1)) "exec(" b (ln ") returned %d, not -1") [A_int fd].

Definition rwsbrk (s : list Z) : prog unit :=
  a ← sbrk64 8192;
  die_if (a =? minus1) (ln "sbrk(rwsbrk) failed") [] ;;
  r ← sbrk64 (-8192);
  die_if (r =? minus1) (ln "sbrk(rwsbrk) shrink failed") [] ;;
  fd ← call (open (lit "rwsbrk") (Z.lor O_CREATE O_WRONLY));
  die_if (fd <? 0) (ln "open(rwsbrk) failed") [] ;;
  n ← call (write_at fd (u64 (a + 4096)) 1024);
  die_if (0 <=? n) (ln "write(fd, %p, 1024) returned %d, not -1") [A_int (u64 (a + 4096)); A_int n] ;;
  ignore (close fd) ;;
  ignore (unlink (lit "rwsbrk")) ;;
  fd ← call (open (lit "README") O_RDONLY);
  die_if (fd <? 0) (ln "open(rwsbrk) failed") [] ;;
  n ← call (read_at fd (u64 (a + 4096)) 10);
  die_if (0 <=? n) (ln "read(fd, %p, 10) returned %d, not -1") [A_int (u64 (a + 4096)); A_int n] ;;
  ignore (close fd) ;;
  exit 0.

(** ** malloc() until there is no more *)

(** The first loop of mem(): every block holds the address of the one before. *)
Definition mem_take (base : Z) (fuel : nat) (x : Z * heap) : prog ((Z * heap) + (Z * heap)) :=
  let '(m1, h) := x in
  '(m2, h) ← malloc base fuel h 10001;
  if m2 =? 0 then Ret (inr (m1, h)) else
  poke_at m2 (le_bytes 8 m1) ;;
  Ret (inl (m2, h)).

(** The second. *)
Definition mem_give (fuel : nat) (x : Z * heap) : prog ((Z * heap) + heap) :=
  let '(m1, h) := x in
  if m1 =? 0 then Ret (inr h) else
  o ← call (load_at m1 8);
  match o with
  | None => exit (-1)
  | Some l => h ← need (free fuel h m1); Ret (inl (le_val l, h))
  end.

Definition mem (base : Z) (fuel : nat) (s : list Z) : prog unit :=
  pid ← call fork;
  if pid =? 0 then
    '(m1, h) ← uloop fuel (mem_take base fuel) (0, Heap ∅ 0);
    h ← uloop fuel (mem_give fuel) (m1, h);
    '(m1, h) ← malloc base fuel h (1024 * 20);
    die_if (m1 =? 0) (ln "couldn't allocate mem?!!") [str s] ;;
    _ ← need (free fuel h m1);
    exit 0
  else
  '(_, xstatus) ← call wait;
  if xstatus =? -1 then exit 0 else exit xstatus.

(** ** sbrk() *)

Definition TOOMUCH : Z := 1024 * 1024 * 1024.

(** One round of the loop that grows byte by byte: the expected address. *)
Definition sbrkbasic_byte (s : list Z) (i a : Z) : prog Z :=
  b ← call (sbrk 1);
  die_if (negb (b =? a)) (ln "%s: sbrk test failed %d %x %x") [str s; A_int i; A_int a; A_int b] ;;
  poke_at b [1] ;;
  Ret (b + 1).

Definition sbrkbasic (s : list Z) : prog unit :=
  pid ← fork_or (ln "fork failed in sbrkbasic") [];
  if pid =? 0 then
    a ← call (sbrk TOOMUCH);
    if a =? -1 then exit 0 else
    ufor (range_by a (a + TOOMUCH) 4096) (λ b, poke_at b [99]) ;;
    exit 1
  else
  '(_, xstatus) ← call wait;
  die_if (xstatus =? 1) (ln "%s: too much memory allocated!") [str s] ;;
  a ← call (sbrk 0);
  a ← ufold (zrange 0 5000) (sbrkbasic_byte s) a;
  pid ← fork_or (ln "%s: sbrk test fork failed") [str s];
  ignore (sbrk 1) ;;
  c ← call (sbrk 1);
  die_if (negb (c =? a + 1)) (ln "%s: sbrk test failed post-fork") [str s] ;;
  if pid =? 0 then exit 0 else
  '(_, xstatus) ← call wait;
  exit xstatus.

Definition BIG : Z := 100 * 1024 * 1024.

Definition sbrkmuch (s : list Z) : prog unit :=
  oldbrk ← call (sbrk 0);
  a ← call (sbrk 0);
  p ← call (sbrk (i32 (BIG - u64 a)));
  die_if (negb (p =? a)) (ln "%s: sbrk test failed to grow big address space; enough phys mem?") [str s] ;;
  eee ← call (sbrk 0);
  ufor (range_by a eee 4096) (λ pp, poke_at pp [1]) ;;
  let lastaddr := BIG - 1 in
  poke_at lastaddr [99] ;;
  a ← call (sbrk 0);
  c ← call (sbrk (- PGSIZE));
  die_if (c =? -1) (ln "%s: sbrk could not deallocate") [str s] ;;
  c ← call (sbrk 0);
  die_if (negb (c =? a - PGSIZE)) (ln "%s: sbrk deallocation produced wrong address, a %x c %x") [str s; A_int a; A_int c] ;;
  a ← call (sbrk 0);
  c ← call (sbrk PGSIZE);
  bad ← (if negb (c =? a) then Ret true else b ← call (sbrk 0); Ret (negb (b =? a + PGSIZE)));
  die_if bad (ln "%s: sbrk re-allocation failed, a %x c %x") [str s; A_int a; A_int c] ;;
  x ← peek_at lastaddr;
  die_if (x =? 99) (ln "%s: sbrk de-allocation didn't really deallocate") [str s] ;;
  a ← call (sbrk 0);
  b ← call (sbrk 0);
  c ← call (sbrk (i32 (- (b - oldbrk))));
  die_if (negb (c =? a)) (ln "%s: sbrk downsize failed, a %x c %x") [str s; A_int a; A_int c].

(** Ten children of sbrkfail() that take memory and stay: their pids. *)
Definition sbrkfail_child (fuel : nat) (fds1 : Z) : prog unit :=
  b ← sbrk64 0;
  ignore (sbrk (i32 (BIG - b))) ;;
  ignore (write fds1 (chars "x")) ;;
  uloop fuel (λ _, ignore (sleep 1000) ;; Ret (inl tt)) tt.

Definition sbrkfail_fork (fuel : nat) (fds0 fds1 : Z) (_ : Z) (pids : list Z) : prog (list Z) :=
  pid ← call fork;
  (if pid =? 0 then sbrkfail_child fuel fds1 else Ret tt) ;;
  (if negb (pid =? -1) then ignore (read fds0 1) else Ret tt) ;;
  Ret (pids ++ [pid]).

Definition sbrkfail (fuel : nat) (s : list Z) : prog unit :=
  '(r, (fds0, fds1)) ← call pipe;
  die_if (negb (r =? 0)) (ln "%s: pipe() failed") [str s] ;;
  pids ← ufold (zrange 0 10) (sbrkfail_fork fuel fds0 fds1) [];
  c ← call (sbrk PGSIZE);
  ufor pids (λ pid, if pid =? -1 then Ret tt else ignore (kill pid) ;; ignore wait) ;;
  die_if (c =? -1) (ln "%s: failed sbrk leaked memory") [str s] ;;
  pid ← fork_or (ln "%s: fork failed") [str s];
  if pid =? 0 then
    a ← call (sbrk 0);
    ignore (sbrk (10 * BIG)) ;;
    n ← ufold (range_by 0 (10 * BIG) PGSIZE) (λ i n, c ← peek_at (a + i); Ret (i32 (n + c))) 0;
    die (ln "%s: allocate a lot of memory succeeded %d") [str s; A_int n]
  else
  '(_, xstatus) ← call wait;
  if negb (xstatus =? -1) && negb (xstatus =? 2) then exit 1 else Ret tt.

Definition sbrkarg (s : list Z) : prog unit :=
  a ← call (sbrk PGSIZE);
  fd ← call (open (lit "sbrk") (Z.lor O_CREATE O_WRONLY));
  ignore (unlink (lit "sbrk")) ;;
  die_if (fd <? 0) (ln "%s: open sbrk failed") [str s] ;;
  n ← call (write_at fd a PGSIZE);
  die_if (n <? 0) (ln "%s: write sbrk failed") [str s] ;;
  ignore (close fd) ;;
  a ← call (sbrk PGSIZE);
  r ← call (pipe_at a);
  die_if (negb (r =? 0)) (ln "%s: pipe() failed") [str s].

Definition sbrkbugs (s : list Z) : prog unit :=
  pid ← fork_or (ln "fork failed") [];
  if pid =? 0 then
    b ← sbrk64 0;
    ignore (sbrk (i32 (- i32 b))) ;;
    exit 0
  else
  ignore wait ;;
  pid ← fork_or (ln "fork failed") [];
  if pid =? 0 then
    b ← sbrk64 0;
    ignore (sbrk (i32 (- (i32 b - 3500)))) ;;
    exit 0
  else
  ignore wait ;;
  pid ← fork_or (ln "fork failed") [];
  if pid =? 0 then
    b ← sbrk64 0;
    ignore (sbrk (i32 (10 * 4096 + 2048 - b))) ;;
    ignore (sbrk (-10)) ;;
    exit 0
  else
  ignore wait ;;
  exit 0.

Definition sbrklast (s : list Z) : prog unit :=
  top ← sbrk64 0;
  (if negb (top mod 4096 =? 0) then ignore (sbrk (i32 (4096 - top mod 4096))) else Ret tt) ;;
  ignore (sbrk 4096) ;;
  ignore (sbrk 10) ;;
  ignore (sbrk (-20)) ;;
  top ← sbrk64 0;
  let p := u64 (top - 64) in
  poke_at p [120] ;;
  poke_at (u64 (p + 1)) [0] ;;
  fd ← call (open_at p (Z.lor O_RDWR O_CREATE));
  ignore (write_at fd p 1) ;;
  ignore (close fd) ;;
  fd ← call (open_at p O_RDWR);
  poke_at p [0] ;;
  ignore (read_at fd p 1) ;;
  c ← peek_at p;
  if negb (c =? 120) then exit 1 else Ret tt.

Definition sbrk8000 (s : list Z) : prog unit :=
  ignore (sbrk (i32 0x80000004)) ;;
  top ← call (sbrk 0);
  c ← peek_at (top - 1);
  poke_at (top - 1) [u8 (c + 1)].

(** ** Memory of the kernel, the stack and the program text *)

Definition kernmem (s : list Z) : prog unit :=
  ufor (range_by KERNBASE (KERNBASE + 2000000) 50000) (λ a,
    pid ← fork_or (ln "%s: fork failed") [str s];
    if pid =? 0 then
      c ← peek_at a;
      die (ln "%s: oops could read %x = %x") [str s; A_int a; A_int c]
    else
    '(_, xstatus) ← call wait;
    if negb (xstatus =? -1) then exit 1 else Ret tt).

(** [a] has 26 values before the shift makes it 0. *)
Definition MAXVAplus (s : list Z) : prog unit :=
  uloop 27 (λ a,
    if a =? 0 then Ret (inr tt) else
    pid ← fork_or (ln "%s: fork failed") [str s];
    if pid =? 0 then
      poke_at a [99] ;;
      die (ln "%s: oops wrote %x") [str s; A_int a]
    else
    '(_, xstatus) ← call wait;
    if negb (xstatus =? -1) then exit 1 else
    Ret (inl (u64 (Z.shiftl a 1)))) MAXVA.

Definition validatetest (s : list Z) : prog unit :=
  let hi := 1100 * 1024 in
  ufor (range_by 0 (hi + 1) PGSIZE) (λ p,
    r ← call (link_at (S_arr (lit "nosuchfile")) (S_at p));
    die_if (negb (r =? -1)) (ln "%s: link should not succeed") [str s]).

(** [uninit] is the array as the process finds it. *)
Definition bsstest (uninit s : list Z) : prog unit :=
  ufor (zrange 0 10000) (λ i, die_if (negb (aget uninit i =? 0)) (ln "%s: bss test failed") [str s]).

Definition argptest (s : list Z) : prog unit :=
  fd ← call (open (lit "init") O_RDONLY);
  die_if (fd <? 0) (ln "%s: open failed") [str s] ;;
  a ← call (sbrk 0);
  ignore (read_at fd (a - 1) (-1)) ;;
  ignore (close fd).

(** The end of stacktest() and textwrite(): a child that was killed is right. *)
Definition exit_killed : prog unit :=
  '(_, xstatus) ← call wait;
  if xstatus =? -1 then exit 0 else exit xstatus.

(** [sp] is the stack pointer that r_sp() reads. *)
Definition stacktest (sp : Z) (s : list Z) : prog unit :=
  pid ← call fork;
  if pid =? 0 then
    c ← peek_at (u64 (sp - PGSIZE));
    die (ln "%s: stacktest: read below stack %p") [str s; A_int c]
  else
  die_if (pid <? 0) (ln "%s: fork failed") [str s] ;;
  exit_killed.

Definition textwrite (s : list Z) : prog unit :=
  pid ← call fork;
  if pid =? 0 then poke_at 0 (le_bytes 4 10) ;; exit 1 else
  die_if (pid <? 0) (ln "%s: fork failed") [str s] ;;
  exit_killed.

(** ** exec() and pipe() *)

Definition big : Z := 0xeaeb0b5b00002f5e.

Definition pgbug (s : list Z) : prog unit :=
  ignore (exec_at (S_at big) []) ;;
  ignore (pipe_at big) ;;
  exit 0.

Definition badarg (s : list Z) : prog unit :=
  ufor (zrange 0 50000) (λ _, ignore (exec_at (S_arr (lit "echo")) [S_at 0xffffffff])) ;;
  exit 0.

Definition execout_child (fuel : nat) (avail : Z) : prog unit :=
  uloop fuel (λ _,
    a ← sbrk64 4096;
    if a =? minus1 then Ret (inr tt) else
    poke_at (u64 (a + 4096 - 1)) [1] ;;
    Ret (inl tt)) tt ;;
  ufor (zrange 0 (Z.to_nat avail)) (λ _, ignore (sbrk (-4096))) ;;
  ignore (close 1) ;;
  ignore (exec (lit "echo") [lit "echo"; lit "x"]) ;;
  exit 0.

Definition execout (fuel : nat) (s : list Z) : prog unit :=
  ufor (zrange 0 15) (λ avail,
    pid ← fork_or (ln "fork failed") [];
    if pid =? 0 then execout_child fuel avail else ignore wait) ;;
  exit 0.
