(* ===== verification/Usertests.v ===== *)
(** * usertests.c: the tables of tests and the program that runs them

    run() runs one test in a child; runtests() runs the tests of a table, or the
    one with a given name, until one fails; countfree() counts the free pages by
    taking them all in a child; drivetests() runs the tables between two counts.

    The theorems say what the result of the program means, on a kernel that
    forks, waits and has pipes; what it is on a kernel that cannot fork, as the
    one of this repository; and which data pipe1() accepts. *)

From Stdlib Require Import ZArith Lia.
From stdpp Require Import base numbers list gmap strings.
From S2P Require Import Prelude Machine User Ulib Umalloc TestBase TestFiles TestProcs TestMemory.

Record test := Test { t_f : list Z -> prog unit; t_s : string }.

(** What the tests take from the running program: the address of the allocator's
    [base], the stack pointer, the array [uninit] and what is in an
    uninitialised array; and the bound of the loops. *)
Record process := Process { p_base : Z; p_sp : Z; p_uninit : list Z; p_junk : list Z; p_fuel : nat }.

(** The tables, without the entry [{0, 0}] that ends them. *)
Definition quicktests (p : process) : list test :=
  let fuel := p_fuel p in
  [Test copyin "copyin"; Test copyout "copyout"; Test copyinstr1 "copyinstr1"; Test copyinstr2 "copyinstr2";
   Test (copyinstr3 fuel) "copyinstr3"; Test rwsbrk "rwsbrk"; Test truncate1 "truncate1";
   Test truncate2 "truncate2"; Test truncate3 "truncate3"; Test openiputtest "openiput";
   Test exitiputtest "exitiput"; Test iputtest "iput"; Test opentest "opentest"; Test writetest "writetest";
   Test (writebig fuel) "writebig"; Test createtest "createtest"; Test dirtest "dirtest";
   Test exectest "exectest"; Test (pipe1 fuel) "pipe1"; Test (killstatus fuel) "killstatus";
   Test preempt "preempt"; Test exitwait "exitwait"; Test reparent "reparent"; Test twochildren "twochildren";
   Test forkfork "forkfork"; Test (forkforkfork fuel) "forkforkfork"; Test reparent2 "reparent2";
   Test (mem (p_base p) fuel) "mem"; Test (sharedfd fuel) "sharedfd"; Test (fourfiles fuel) "fourfiles";
   Test createdelete "createdelete"; Test unlinkread "unlinkread"; Test linktest "linktest";
   Test (concreate fuel) "concreate"; Test linkunlink "linkunlink"; Test subdir "subdir";
   Test bigwrite "bigwrite"; Test (bigfile fuel) "bigfile"; Test fourteen "fourteen"; Test rmdot "rmdot";
   Test dirfile "dirfile"; Test iref "iref"; Test forktest "forktest"; Test sbrkbasic "sbrkbasic";
   Test sbrkmuch "sbrkmuch"; Test kernmem "kernmem"; Test MAXVAplus "MAXVAplus";
   Test (sbrkfail fuel) "sbrkfail"; Test sbrkarg "sbrkarg"; Test validatetest "validatetest";
   Test (bsstest (p_uninit p)) "bsstest"; Test bigargtest "bigargtest"; Test argptest "argptest";
   Test (stacktest (p_sp p)) "stacktest"; Test textwrite "textwrite"; Test pgbug "pgbug";
   Test sbrkbugs "sbrkbugs"; Test sbrklast "sbrklast"; Test sbrk8000 "sbrk8000"; Test badarg "badarg"].

Definition slowtests (p : process) : list test :=
  let fuel := p_fuel p in
  [Test bigdir "bigdir"; Test manywrites "manywrites"; Test badwrite "badwrite";
   Test (execout fuel) "execout"; Test (diskfull fuel (p_junk p)) "diskfull"; Test outofinodes "outofinodes"].

(** run(): whether the child's exit() indicates success. *)
Definition run_test (f : list Z -> prog unit) (s : list Z) : prog bool :=
  printf "test %s: " [str s] ;;
  pid ← call fork;
  die_if (pid <? 0) (ln "runtest: fork error") [] ;;
  if pid =? 0 then f s ;; exit 0 else
  '(_, xstatus) ← call wait;
  (if negb (xstatus =? 0) then printf (ln "FAILED") [] else printf (ln "OK") []) ;;
  Ret (xstatus =? 0).

(** [(justone == 0) || strcmp(t->s, justone) == 0] *)
Definition is_chosen (justone : option (list Z)) (t : test) : prog bool :=
  match justone with
  | None => Ret true
  | Some j => c ← need (strcmp (lit (t_s t)) j); Ret (c =? 0)
  end.

Fixpoint runtests (tests : list test) (justone : option (list Z)) : prog Z :=
  match tests with
  | [] => Ret 0
  | t :: tests =>
      c ← is_chosen justone t;
      if c : bool then
        ok ← run_test (t_f t) (lit (t_s t));
        if ok : bool then runtests tests justone else printf (ln "SOME TESTS FAILED") [] ;; Ret 1
      else runtests tests justone
  end.

(** The child of countfree(): one byte for every page it gets. *)
Definition countfree_child (fuel : nat) (fds0 fds1 : Z) : prog unit :=
  ignore (close fds0) ;;
  uloop fuel (λ _,
    a ← sbrk64 4096;
    if a =? minus1 then Ret (inr tt) else
    poke_at (u64 (a + 4096 - 1)) [1] ;;
    n ← call (write fds1 (chars "x"));
    die_if (negb (n =? 1)) (ln "write() failed in countfree()") [] ;;
    Ret (inl tt)) tt ;;
  exit 0.

(** The loop of the parent. *)
Definition countfree_read (fds0 n : Z) : prog (Z + Z) :=
  '(cc, _) ← call (read fds0 1);
  die_if (cc <? 0) (ln "read() failed in countfree()") [] ;;
  if cc =? 0 then Ret (inr n) else Ret (inl (n + 1)).

Definition countfree (fuel : nat) : prog Z :=
  '(r, (fds0, fds1)) ← call pipe;
  die_if (r <? 0) (ln "pipe() failed in countfree()") [] ;;
  pid ← call fork;
  die_if (pid <? 0) (ln "fork failed in countfree()") [] ;;
  (if pid =? 0 then countfree_child fuel fds0 fds1 else Ret tt) ;;
  ignore (close fds1) ;;
  n ← uloop fuel (countfree_read fds0) 0;
  ignore (close fds0) ;;
  ignore wait ;;
  Ret n.

(** The slow tests: whether drivetests() returns 1 after them. *)
Definition drive_slow (p : process) (quick continuous : Z) (justone : option (list Z)) : prog bool :=
  if truth quick then Ret false else
  (if justone then Ret tt else printf (ln "usertests slow tests starting") []) ;;
  r ← runtests (slowtests p) justone;
  Ret (truth r && negb (continuous =? 2)).

(** One round of drivetests(). *)
Definition drive_round (p : process) (quick continuous : Z) (justone : option (list Z)) (_ : unit) : prog (unit + Z) :=
  printf (ln "usertests starting") [] ;;
  free0 ← countfree (p_fuel p);
  r ← runtests (quicktests p) justone;
  if truth r && negb (continuous =? 2) then Ret (inr 1) else
  stop ← drive_slow p quick continuous justone;
  if stop : bool then Ret (inr 1) else
  free1 ← countfree (p_fuel p);
  stop ← (if free1 <? free0 then
            printf (ln "FAILED -- lost some free pages %d (out of %d)") [A_int free1; A_int free0] ;;
            Ret (negb (continuous =? 2))
          else Ret false);
  if stop : bool then Ret (inr 1) else
  if truth continuous then Ret (inl tt) else Ret (inr 0).

Definition drivetests (p : process) (quick continuous : Z) (justone : option (list Z)) : prog Z :=
  uloop (p_fuel p) (drive_round p quick continuous justone) tt.

(** main() as far as the arguments: [quick], [continuous] and [justone]. *)
Definition parse_args (argv : list (list Z)) : prog (Z * Z * option (list Z)) :=
  let usage := die (ln "Usage: usertests [-c] [-C] [-q] [testname]") [] in
  match argv with
  | [_; a] =>
      c ← need (strcmp a (lit "-q"));
      if c =? 0 then Ret (1, 0, None) else
      c ← need (strcmp a (lit "-c"));
      if c =? 0 then Ret (0, 1, None) else
      c ← need (strcmp a (lit "-C"));
      if c =? 0 then Ret (0, 2, None) else
      c ← need (a !! 0%nat);
      if negb (c =? 45) then Ret (0, 0, Some a) else usage
  | _ => if (1 <? length argv)%nat then usage else Ret (0, 0, None)
  end.

Definition usertests_main (p : process) (argv : list (list Z)) : prog unit :=
  '(quick, continuous, justone) ← parse_args argv;
  r ← drivetests p quick continuous justone;
  if truth r then exit 1 else
  printf (ln "ALL TESTS PASSED") [] ;;
  exit 0.

(** ** A kernel for the driver

    The parent's view of the kernel: fork() works; each pipe is one of
    countfree(), in which the child leaves a byte for each of the [l_free] pages
    it gets; the children that run tests exit with the statuses [l_status], and
    with 0 after the end of that list; the standard output is [l_out]. *)
Record lab := Lab { l_free : list nat; l_status : list Z; l_pipe : option nat; l_out : list Z }.

Definition testing : kernel lab := λ R e,
  match e in sys R return lab -> R * lab with
  | fork => λ w, (1, w)
  | pipe => λ w,
      match l_free w with
      | [] => ((-1, (0, 0)), w)
      | n :: fs => ((0, (3, 4)), Lab fs (l_status w) (Some n) (l_out w))
      end
  | read 3 _ => λ w,
      match l_pipe w with
      | Some (S n) => ((1, [120]), Lab (l_free w) (l_status w) (Some n) (l_out w))
      | _ => ((0, []), w)
      end
  | wait => λ w,
      match l_pipe w with
      | Some _ => ((1, 0), Lab (l_free w) (l_status w) None (l_out w))
      | None => ((1, default 0 (head (l_status w))), Lab (l_free w) (tail (l_status w)) None (l_out w))
      end
  | write 1 b => λ w, (Z.of_nat (length b), Lab (l_free w) (l_status w) (l_pipe w) (l_out w ++ b))
  | close _ => λ w, (0, w)
  | e => λ w, (refuse e, w)
  end.

(** The names of the tests that the arguments select. *)
Definition selects (justone : option (list Z)) (name : string) : bool :=
  match justone with None => true | Some j => bool_decide (ucstr j = Some (chars name)) end.
Definition selected (justone : option (list Z)) (ts : list test) : list string :=
  filter (λ n, selects justone n = true) (t_s <$> ts).

(** What is printed about the tests [ns] whose children exit with [sts]; the
    statuses left over; whether all of them passed. *)
Fixpoint transcript (ns : list string) (sts : list Z) : list Z :=
  match ns with
  | [] => []
  | n :: ns =>
      chars "test " ++ chars n ++ chars ": " ++
      if default 0 (head sts) =? 0 then chars (ln "OK") ++ transcript ns (tail sts)
      else chars (ln "FAILED") ++ chars (ln "SOME TESTS FAILED")
  end.
Fixpoint rest (n : nat) (sts : list Z) : list Z :=
  match n with
  | O => sts
  | S n => if default 0 (head sts) =? 0 then rest n (tail sts) else tail sts
  end.
Definition passed (n : nat) (sts : list Z) : bool := forallb (λ z, z =? 0) (take n sts).

Lemma passed_S n sts : passed (S n) sts = (default 0 (head sts) =? 0) && passed n (tail sts).
Proof. destruct sts as [|z sts]; [by destruct n|done]. Qed.

Lemma run_testing_puts l fr sts pp out :
  run testing (puts 1 l) (Lab fr sts pp out) = (Done tt, Lab fr sts pp (out ++ (u8 <$> l))).
Proof.
  revert out. induction l as [|c l IH]; intros out; [by rewrite app_nil_r|].
  cbn [puts ufor fmap list_fmap]. fold (puts 1 l). rewrite run_then. simpl. rewrite IH. by rewrite <- app_assoc.
Qed.

Lemma run_testing_printf fmt args l fr sts pp out :
  format (lit fmt) false args = Some l ->
  run testing (printf fmt args) (Lab fr sts pp out) = (Done tt, Lab fr sts pp (out ++ (u8 <$> l))).
Proof. intros H. by rewrite (printf_puts _ _ _ _ _ H), run_testing_puts. Qed.

Lemma run_countfree_read fuel m n fr sts out :
  (n < fuel)%nat ->
  run testing (uloop fuel (countfree_read 3) m) (Lab fr sts (Some n) out)
  = (Done (m + Z.of_nat n), Lab fr sts (Some O) out).
Proof.
  revert m n. induction fuel as [|fuel IH]; intros m n Hn; [lia|].
  destruct n as [|n]; [simpl; by rewrite Z.add_0_r|].
  erewrite run_uloop_next by reflexivity. rewrite IH by lia. do 2 f_equal. lia.
Qed.

Lemma run_countfree fuel n fr sts out :
  (n < fuel)%nat ->
  run testing (countfree fuel) (Lab (n :: fr) sts None out) = (Done (Z.of_nat n), Lab fr sts None out).
Proof.
  intros Hn. unfold countfree, die_if, ignore, call. rewrite run_then. simpl. rewrite run_then.
  by rewrite run_countfree_read.
Qed.

(** A name as the tables have them. *)
Definition name_ok (n : string) : Prop := Forall (λ c, 0 < c < 256) (chars n).

(** A C string: an array of bytes with a NUL in it. *)
Definition c_string (a : list Z) : Prop := Forall (λ c, 0 <= c < 256) a ∧ 0 ∈ a.

Lemma strcmp_total p q : 0 ∈ p -> 0 ∈ q -> ∃ c, strcmp p q = Some c.
Proof.
  revert q. induction p as [|a p IH]; intros [|b q] Hp Hq; try by apply not_elem_of_nil in Hp || apply not_elem_of_nil in Hq.
  simpl. unfold truth. destruct (Z.eqb_spec a 0); simpl; [by eauto|].
  destruct (Z.eqb_spec a b); [subst|by eauto]. apply IH; set_solver.
Qed.

Lemma strcmp_name l q :
  Forall (λ c, 0 < c < 256) l -> c_string q ->
  ∃ c, strcmp (l ++ [0]) q = Some c ∧ (c =? 0) = bool_decide (ucstr q = Some l).
Proof.
  intros Hl [Hq H0]. revert q Hq H0. induction Hl as [|a l Ha Hl IH]; intros [|b q] Hq H0; try by apply not_elem_of_nil in H0.
  all: apply Forall_cons in Hq as [Hb Hq]; simpl; rewrite ?(u8_small b) by lia.
  - eexists. split; [done|]. destruct (Z.eqb_spec b 0) as [->|]; [done|].
    rewrite bool_decide_eq_false_2; [apply Z.eqb_neq; change (u8 0) with 0; lia|].
    destruct (ucstr q); naive_solver.
  - unfold truth. destruct (Z.eqb_spec a 0); [lia|]. destruct (Z.eqb_spec a b) as [<-|Hne]; simpl.
    + destruct (IH q Hq ltac:(set_solver)) as (c & -> & E). eexists. split; [done|]. rewrite E.
      destruct (Z.eqb_spec a 0); [lia|]. apply bool_decide_ext. destruct (ucstr q); naive_solver.
    + eexists. split; [done|]. rewrite (u8_small a) by lia.
      rewrite bool_decide_eq_false_2; [apply Z.eqb_neq; lia|].
      destruct (b =? 0); [done|]. destruct (ucstr q); naive_solver.
Qed.

Lemma format_plain l fmt args :
  Forall (λ c, c <> 0 ∧ c <> 37) l -> format (l ++ fmt) false args = app l <$> format fmt false args.
Proof.
  induction 1 as [|c l [H0 H37] _ IH]; cbn [app format]; [by destruct (format fmt false args)|].
  apply Z.eqb_neq in H0 as ->. apply Z.eqb_neq in H37 as ->. rewrite IH. by destruct (format fmt false args).
Qed.

Lemma format_test n :
  name_ok n -> format (lit "test %s: ") false [str (lit n)] = Some (chars "test " ++ chars n ++ chars ": ").
Proof.
  intros Hn. assert (E : ucstr (lit n) = Some (chars n)).
  { apply (ucstr_ok _ []). eapply Forall_impl; [done|]. simpl. lia. }
  change (lit "test %s: ") with (chars "test " ++ 37 :: 115 :: lit ": ").
  rewrite format_plain by (repeat constructor; done). unfold str. cbn [format].
  change (conversion 115 [A_str (Some (lit n))]) with ((λ l, (l, @nil uarg)) <$> ucstr (lit n)).
  rewrite E. reflexivity.
Qed.

(** A text without conversions. *)
Definition plain (s : string) : bool := forallb (λ c, negb (c =? 0) && negb (c =? 37)) (chars s).

Lemma format_text s : plain s = true -> format (lit s) false [] = Some (chars s).
Proof.
  intros H. unfold lit. rewrite format_plain; [simpl; by rewrite app_nil_r|].
  apply Forall_forall. intros c Hc. unfold plain in H. rewrite forallb_forall in H.
  specialize (H c (proj1 (list_elem_of_In _ _) Hc)). lia.
Qed.

Lemma run_testing_text s fr sts pp out :
  plain s = true ->
  run testing (printf s []) (Lab fr sts pp out) = (Done tt, Lab fr sts pp (out ++ (u8 <$> chars s))).
Proof. intros H. by apply run_testing_printf, format_text. Qed.

(** The line about lost pages. *)
Definition lost (free1 free0 : Z) : list Z :=
  chars "FAILED -- lost some free pages " ++ printint_chars (i32 free1) 10 true ++
  chars " (out of " ++ printint_chars (i32 free0) 10 true ++ chars (ln ")").

Lemma format_lost a b :
  format (lit (ln "FAILED -- lost some free pages %d (out of %d)")) false [A_int a; A_int b] = Some (lost a b).
Proof.
  assert (Hd : ∀ v fmt args, format (37 :: 100 :: fmt) false (A_int v :: args)
                             = app (printint_chars (i32 v) 10 true) <$> format fmt false args) by done.
  change (lit (ln "FAILED -- lost some free pages %d (out of %d)"))
    with (chars "FAILED -- lost some free pages " ++ 37 :: 100 :: chars " (out of " ++ 37 :: 100 :: lit (ln ")")).
  rewrite format_plain, Hd, format_plain, Hd, format_text by (repeat constructor; done). done.
Qed.

#[local] Opaque printf chars.

Lemma run_run_test f n fr sts out :
  name_ok n ->
  run testing (run_test f (lit n)) (Lab fr sts None out)
  = let ok := default 0 (head sts) =? 0 in
    (Done ok, Lab fr (tail sts) None
       (out ++ (u8 <$> chars "test " ++ chars n ++ chars ": " ++ chars (ln (if ok then "OK" else "FAILED"))))).
Proof.
  intros Hn. unfold run_test. rewrite run_then, (run_testing_printf _ _ _ _ _ _ _ (format_test n Hn)).
  unfold die_if, call. simpl. rewrite run_then.
  destruct (default 0 (head sts) =? 0); cbn [negb]; rewrite run_testing_text by (vm_compute; reflexivity).
  all: cbn [run]; by rewrite <- app_assoc, <- fmap_app, <- !app_assoc.
Qed.

Lemma run_is_chosen {W} (h : kernel W) j t w :
  name_ok (t_s t) -> (∀ a, j = Some a -> c_string a) ->
  run h (is_chosen j t) w = (Done (selects j (t_s t)), w).
Proof.
  intros Hn Hj. unfold is_chosen, selects. destruct j as [j|]; [|done].
  destruct (strcmp_name (chars (t_s t)) j Hn (Hj j eq_refl)) as (c & E & <-). unfold lit. by rewrite E.
Qed.

Lemma run_runtests j ts fr sts out :
  Forall (λ t, name_ok (t_s t)) ts -> (∀ a, j = Some a -> c_string a) ->
  let ns := selected j ts in
  run testing (runtests ts j) (Lab fr sts None out)
  = (Done (if passed (length ns) sts then 0 else 1),
     Lab fr (rest (length ns) sts) None (out ++ (u8 <$> transcript ns sts))).
Proof.
  intros Hts Hj. revert sts out. induction Hts as [|t ts Ht _ IH]; intros sts out ns.
  { simpl. by rewrite app_nil_r. }
  cbn [runtests]. rewrite run_then, run_is_chosen by done. unfold ns, selected. cbn [fmap list_fmap].
  destruct (selects j (t_s t)) eqn:E.
  - rewrite filter_cons_True by done. fold (selected j ts). rewrite run_then, run_run_test by done. cbv zeta.
    cbn [length rest transcript].
    rewrite passed_S. destruct (default 0 (head sts) =? 0); simpl.
    + rewrite IH. do 2 f_equal. by rewrite <- app_assoc, <- fmap_app, <- !app_assoc.
    + rewrite run_then, run_testing_text by (vm_compute; reflexivity). simpl.
      do 2 f_equal. by rewrite <- app_assoc, <- fmap_app, <- !app_assoc.
  - rewrite filter_cons_False by (by rewrite E). apply IH.
Qed.

Lemma passed_app n m sts : passed (n + m) sts = passed n sts && passed m (rest n sts).
Proof.
  revert sts. induction n as [|n IH]; intros sts; [done|]. cbn [rest Nat.add]. rewrite !passed_S, IH.
  by destruct (default 0 (head sts) =? 0).
Qed.

Lemma rest_app n m sts : rest (n + m) sts = if passed n sts then rest m (rest n sts) else rest n sts.
Proof.
  revert sts. induction n as [|n IH]; intros sts; [done|]. cbn [rest Nat.add]. rewrite passed_S, IH.
  by destruct (default 0 (head sts) =? 0).
Qed.

Lemma run_drive_slow p quick j fr sts out :
  Forall (λ t, name_ok (t_s t)) (slowtests p) -> (∀ a, j = Some a -> c_string a) ->
  let ns := if truth quick then [] else selected j (slowtests p) in
  let line := if truth quick then [] else if j then [] else chars (ln "usertests slow tests starting") in
  run testing (drive_slow p quick 0 j) (Lab fr sts None out)
  = (Done (negb (passed (length ns) sts)),
     Lab fr (rest (length ns) sts) None (out ++ (u8 <$> line ++ transcript ns sts))).
Proof.
  intros Hts Hj. unfold drive_slow. destruct (truth quick); [simpl; by rewrite app_nil_r|].
  rewrite run_then. destruct j as [j|]; [|rewrite run_testing_text by (vm_compute; reflexivity)]; cbn [run app].
  all: rewrite run_then, run_runtests by done; cbv zeta; cbn [run].
  2: rewrite <- app_assoc, <- fmap_app.
  all: by destruct (passed _ sts).
Qed.

(** The whole output. *)
Definition report (p : process) (quick : Z) (justone : option (list Z)) (sts : list Z) (free0 free1 : nat) : list Z :=
  let qs := selected justone (quicktests p) in
  let ss := if truth quick then [] else selected justone (slowtests p) in
  chars (ln "usertests starting") ++ transcript qs sts ++
  if passed (length qs) sts then
    let sts := rest (length qs) sts in
    (if truth quick then [] else if justone then [] else chars (ln "usertests slow tests starting")) ++
    transcript ss sts ++
    if passed (length ss) sts then
      if (free1 <? free0)%nat then lost (Z.of_nat free1) (Z.of_nat free0) else chars (ln "ALL TESTS PASSED")
    else []
  else [].

Lemma names_ok ts :
  forallb (λ t, forallb (λ c, (0 <? c) && (c <? 256)) (chars (t_s t))) ts = true -> Forall (λ t, name_ok (t_s t)) ts.
Proof.
  intros H. apply Forall_forall. intros t Ht. apply Forall_forall. intros c Hc.
  rewrite forallb_forall in H. apply list_elem_of_In in Ht. specialize (H t Ht). rewrite forallb_forall in H.
  apply list_elem_of_In in Hc. specialize (H c Hc). lia.
Qed.

Lemma quick_names p : Forall (λ t, name_ok (t_s t)) (quicktests p).
Proof. apply names_ok. vm_compute. reflexivity. Qed.

Lemma slow_names p : Forall (λ t, name_ok (t_s t)) (slowtests p).
Proof. apply names_ok. vm_compute. reflexivity. Qed.

Lemma run_drive_round p quick j sts (free0 free1 : nat) :
  (∀ a, j = Some a -> c_string a) -> (free0 < p_fuel p)%nat -> (free1 < p_fuel p)%nat ->
  let qs := selected j (quicktests p) in
  let ss := if truth quick then [] else selected j (slowtests p) in
  let ok := passed (length qs + length ss) sts && negb (free1 <? free0)%nat in
  ∃ w, run testing (drive_round p quick 0 j tt) (Lab [free0; free1] sts None []) = (Done (inr (if ok then 0 else 1)), w)
    ∧ l_status w = rest (length qs + length ss) sts
    ∧ l_out w ++ (if ok then u8 <$> chars (ln "ALL TESTS PASSED") else []) = u8 <$> report p quick j sts free0 free1.
Proof.
  intros Hj H0 H1 qs ss ok. unfold drive_round, report. fold qs ss.
  rewrite run_then, run_testing_text by (vm_compute; reflexivity). cbn [app].
  rewrite run_then, run_countfree, run_then, run_runtests by auto using quick_names. cbv zeta. fold qs.
  unfold ok. rewrite passed_app, rest_app. destruct (passed (length qs) sts); cbn [truth negb andb Z.eqb].
  2: { eexists. split; [reflexivity|]. cbn [l_status l_out]. split; [done|].
       by rewrite !app_nil_r, fmap_app. }
  rewrite run_then, run_drive_slow by auto using slow_names. cbv zeta. fold ss.
  destruct (passed (length ss) _); cbn [negb andb].
  2: { eexists. split; [reflexivity|]. cbn [l_status l_out]. split; [done|].
       by rewrite !app_nil_r, !fmap_app, <- app_assoc. }
  rewrite run_then, run_countfree, run_then by done.
  assert (Ef : (Z.of_nat free1 <? Z.of_nat free0) = (free1 <? free0)%nat).
  { destruct (Nat.ltb_spec free1 free0); lia. }
  rewrite Ef. destruct (free1 <? free0)%nat.
  - rewrite run_then, (run_testing_printf _ _ _ _ _ _ _ (format_lost _ _)).
    eexists. split; [reflexivity|]. cbn [l_status l_out]. split; [done|].
    by rewrite app_nil_r, !fmap_app, <- !app_assoc.
  - eexists. split; [reflexivity|]. cbn [l_status l_out]. split; [done|].
    by rewrite !fmap_app, <- !app_assoc.
Qed.

(** ** Kernels without fork() *)

Section any_kernel.
Context {W : Type} (h : kernel W).

(** The program exits with 1, or goes on, in any world. *)
Definition dies {A} (q : prog A) : Prop := ∀ w, ∃ w', run h q w = (Exited 1, w').

Lemma run_puts_any fd l w : ∃ w', run h (puts fd l) w = (Done tt, w').
Proof.
  revert w. induction l as [|c l IH]; intros w; [by exists w|].
  cbn [puts ufor]. fold (puts fd l). rewrite run_then. unfold putc. rewrite run_then. simpl.
  destruct (h Z (write fd [u8 c]) w) as [r w1]. apply IH.
Qed.

Lemma run_text_any s w : plain s = true -> ∃ w', run h (printf s []) w = (Done tt, w').
Proof. intros H. rewrite (printf_puts _ _ _ _ _ (format_text s H)). apply run_puts_any. Qed.

Lemma dies_bind {A B} (q : prog A) (f : A -> prog B) : dies q -> dies (q ≫= f).
Proof. intros H w. destruct (H w) as [w' E]. exists w'. by rewrite run_then, E. Qed.

Lemma dies_text {A} s (q : prog A) : plain s = true -> dies q -> dies (printf s [] ;; q).
Proof. intros Hs Hq w. destruct (run_text_any s w Hs) as [w1 E]. rewrite run_then, E. apply Hq. Qed.

Lemma dies_die {A} s : plain s = true -> dies (A:=A) (die s []).
Proof. intros H. apply dies_text; [done|]. intros w. by exists w. Qed.

(** A system call, whatever the reply. *)
Lemma dies_call {R A} (e : sys R) (f : R -> prog A) : (∀ w, dies (f (h R e w).1)) -> dies (call e ≫= f).
Proof.
  intros H w. rewrite run_then. simpl. specialize (H w). destruct (h R e w) as [r w1]. apply H.
Qed.

Context (no_fork : ∀ w, (h Z fork w).1 < 0).

Lemma dies_countfree fuel : dies (countfree fuel).
Proof.
  apply dies_call. intros w0. destruct (h _ pipe w0).1 as [r [fds0 fds1]].
  unfold die_if. destruct (r <? 0); [apply dies_bind, dies_die; vm_compute; reflexivity|].
  unfold mbind at 1. cbn [prog_bind]. apply dies_call. intros w1. specialize (no_fork w1).
  destruct (Z.ltb_spec (h Z fork w1).1 0); [|lia]. apply dies_bind, dies_die. vm_compute. reflexivity.
Qed.

Lemma dies_drivetests p quick continuous j : (0 < p_fuel p)%nat -> dies (drivetests p quick continuous j).
Proof.
  intros Hf. unfold drivetests. destruct (p_fuel p) as [|n] eqn:E; [lia|]. cbn [uloop]. apply dies_bind.
  apply dies_text; [vm_compute; reflexivity|]. apply dies_bind, dies_countfree.
Qed.

(** main() gets past its arguments, or exits with 1. *)
Lemma parse_args_cases argv :
  Forall c_string argv ->
  (∃ x, parse_args argv = Ret x) ∨ parse_args argv = die (ln "Usage: usertests [-c] [-C] [-q] [testname]") [].
Proof.
  intros Ha. unfold parse_args. destruct argv as [|a0 [|a [|a1 l]]]; [by left; eexists..| |by right].
  apply Forall_cons in Ha as [_ Ha]. apply Forall_cons in Ha as [[_ H0] _].
  assert (Hl : ∀ s, 0 ∈ lit s) by (intros s; apply elem_of_app; right; by left).
  destruct (strcmp_total a _ H0 (Hl "-q")) as [c1 ->]. simpl. destruct (c1 =? 0); [by left; eexists|].
  destruct (strcmp_total a _ H0 (Hl "-c")) as [c2 ->]. simpl. destruct (c2 =? 0); [by left; eexists|].
  destruct (strcmp_total a _ H0 (Hl "-C")) as [c3 ->]. simpl. destruct (c3 =? 0); [by left; eexists|].
  destruct a as [|c a]; [by apply not_elem_of_nil in H0|]. simpl.
  destruct (negb (c =? 45)); [by left; eexists|by right].
Qed.

Lemma dies_main p argv : Forall c_string argv -> (0 < p_fuel p)%nat -> dies (usertests_main p argv).
Proof.
  intros Ha Hf. unfold usertests_main. destruct (parse_args_cases argv Ha) as [[[[quick continuous] j] ->]| ->].
  - unfold mbind at 1. cbn [prog_bind]. by apply dies_bind, dies_drivetests.
  - apply dies_bind, dies_die. vm_compute. reflexivity.
Qed.
End any_kernel.

(** ** Properties *)

(** C38: what the verdict of usertests means.  Run once (with no argument, with -q
    or with the name of a test), the program exits with 0 if every child that
    ran one of the selected tests exited with 0 and no page was lost between the
    two counts, and with 1 otherwise; it runs the tests in the order of the
    tables up to the first that fails, whose child is the last it waits for, and
    prints one line for each. *)
Theorem usertests_verdict (p : process) (argv : list (list Z)) (quick : Z) (justone : option (list Z))
    (free0 free1 : nat) (sts : list Z) :
  parse_args argv = Ret (quick, 0, justone) -> (∀ a, justone = Some a -> c_string a) ->
  (free0 < p_fuel p)%nat -> (free1 < p_fuel p)%nat ->
  let names := selected justone (quicktests p ++ if truth quick then [] else slowtests p) in
  ∃ w, run testing (usertests_main p argv) (Lab [free0; free1] sts None [])
       = (Exited (if passed (length names) sts && (free0 <=? free1)%nat then 0 else 1), w)
    ∧ l_status w = rest (length names) sts
    ∧ l_out w = u8 <$> report p quick justone sts free0 free1.
Proof.
  intros Ha Hj H0 H1 names.
  assert (En : length names = (length (selected justone (quicktests p))
    + length (if truth quick then [] else selected justone (slowtests p)))%nat).
  { unfold names, selected. rewrite fmap_app, filter_app, length_app. by destruct (truth quick). }
  rewrite En, Nat.leb_antisym. destruct (run_drive_round p quick justone sts free0 free1 Hj H0 H1) as (w & E & Es & Eo).
  unfold usertests_main. rewrite Ha. unfold mbind at 1. cbn [prog_bind]. rewrite run_then. unfold drivetests.
  destruct (p_fuel p) as [|n] eqn:Ep; [lia|]. rewrite (run_uloop_last _ _ _ _ _ _ _ E).
  destruct (passed _ sts && _); cbn [truth negb Z.eqb].
  - destruct w as [fr' sts' pp out]. rewrite run_then, run_testing_text by (vm_compute; reflexivity).
    cbn [l_status l_out] in Es, Eo. eexists. split; [reflexivity|]. exact (conj Es Eo).
  - rewrite app_nil_r in Eo. eexists. split; [reflexivity|]. exact (conj Es Eo).
Qed.

Lemma usertests_verdict_witness :
  ∃ w, run testing (usertests_main (Process 0 0 [] [] 10) [lit "usertests"; lit "pipe1"]) (Lab [7%nat; 7%nat] [] None [])
       = (Exited 0, w)
    ∧ l_out w = u8 <$> chars (ln "usertests starting" +:+ ln "test pipe1: OK" +:+ ln "ALL TESTS PASSED").
Proof.
  destruct (usertests_verdict (Process 0 0 [] [] 10) [lit "usertests"; lit "pipe1"] 0 (Some (lit "pipe1")) 7 7 []) as (w & E & _ & Eo).
  - reflexivity.
  - intros a [= <-]. split; [|by apply (bool_decide_unpack _); vm_compute].
    vm_compute. repeat (constructor; [split; congruence|]). constructor.
  - simpl. lia.
  - simpl. lia.
  - exists w. split; [rewrite E; vm_compute; reflexivity|]. rewrite Eo. vm_compute. reflexivity.
Defined.

(** C39: usertests needs fork().  On every kernel whose fork() never succeeds, and
    with any arguments, the program exits with 1: it does not get past
    countfree().  The fork() of this kernel never succeeds, so its own test
    suite cannot run a single test on it. *)
Theorem usertests_needs_fork {W : Type} (h : kernel W) (p : process) (argv : list (list Z)) (w : W) :
  (∀ w, (h Z fork w).1 < 0) -> Forall c_string argv -> (0 < p_fuel p)%nat ->
  (run h (usertests_main p argv) w).1 = Exited 1.
Proof. intros Hf Ha Hp. by destruct (dies_main h Hf p argv Ha Hp w) as [w' ->]. Qed.

Lemma usertests_needs_fork_witness :
  (run streams (usertests_main (Process 0 0 [] [] 1) [lit "usertests"]) (World ∅ [] ∅)).1 = Exited 1.
Proof.
  apply usertests_needs_fork; [done| |simpl; lia].
  constructor; [|constructor]. split; [|by apply (bool_decide_unpack _); vm_compute].
  vm_compute. repeat (constructor; [split; congruence|]). constructor.
Defined.
