(* ===== verification/Shell.v ===== *)
(** * user/sh.c: the shell

    The parser works on the line buffer and on [struct cmd] nodes that it
    allocates and fills in; a [char *] into the buffer is its index, a
    [struct cmd *] the index of the node in the order of allocation (malloc()
    is taken to succeed; umalloc.c is verified in Umalloc.v).  EXEC nodes are
    filled in after redirections around them have been built, so the nodes are
    kept in a store.  A panic() ends the parse with its message. *)

From Stdlib Require Import ZArith Lia.
From stdpp Require Import base numbers list gmap strings.
From S2P Require Import Prelude User Ulib.

Definition MAXARGS : nat := 10.

(** [struct execcmd], [redircmd], [pipecmd], [listcmd], [backcmd] *)
Inductive cmdnode :=
| EXEC (argv eargv : list (option nat))
| REDIR (cmd file efile : nat) (mode fd : Z)
| PIPE (left right : nat)
| LIST (left right : nat)
| BACK (cmd : nat).

(** How a parse can end early: panic(msg); "leftovers: ..." and panic("syntax");
    an access outside the buffer or a node; the bound on the recursion. *)
Inductive perr := E_panic (msg : string) | E_leftovers (s : nat) | E_fault | E_fuel.

Inductive pres (A : Type) := Good (a : A) | Bad (e : perr).
Arguments Good {A} a.
Arguments Bad {A} e.

#[global] Instance pres_ret : MRet pres := λ A a, Good a.
#[global] Instance pres_bind : MBind pres := λ A B f r,
  match r with Good a => f a | Bad e => Bad e end.
#[global] Instance pres_fmap : FMap pres := λ A B f r,
  match r with Good a => Good (f a) | Bad e => Bad e end.

Definition panic {A} (msg : string) : pres A := Bad (E_panic msg).
Definition deref {A} (o : option A) : pres A := match o with Some a => Good a | None => Bad E_fault end.

(** ** Constructors *)

Notation store := (list cmdnode) (only parsing).
Definition alloc (h : store) (n : cmdnode) : nat * store := (length h, h ++ [n]).

Definition execcmd (h : store) : nat * store :=
  alloc h (EXEC (replicate MAXARGS None) (replicate MAXARGS None)).
Definition redircmd (h : store) (subcmd file efile : nat) (mode fd : Z) : nat * store :=
  alloc h (REDIR subcmd file efile mode fd).
Definition pipecmd (h : store) (left right : nat) : nat * store := alloc h (PIPE left right).
Definition listcmd (h : store) (left right : nat) : nat * store := alloc h (LIST left right).
Definition backcmd (h : store) (subcmd : nat) : nat * store := alloc h (BACK subcmd).

(** ** Tokens *)

(** [" \t\r\n\v"] and ["<|>&;()"] *)
Definition whitespace : list Z := [32; 9; 13; 10; 11; 0].
Definition symbols : list Z := chars "<|>&;()" ++ [0].

(** [strchr(s, c)] as a condition *)
Definition has (s : list Z) (c : Z) : bool :=
  match strchr s c with Some (Some _) => true | _ => false end.

(** [while(s < es && p( *s)) s++;] from [s], with [k = es - s] *)
Fixpoint skip (p : Z -> bool) (buf : list Z) (k s : nat) : pres nat :=
  match k with
  | O => Good s
  | S k => c ← deref (buf !! s); if p c then skip p buf k (S s) else Good s
  end.

Definition skip_space (buf : list Z) (es s : nat) : pres nat := skip (has whitespace) buf (es - s) s.

(** gettoken(): the token, [*q], [*eq] and [*ps] *)
Definition gettoken (buf : list Z) (es s : nat) : pres (Z * nat * nat * nat) :=
  s ← skip_space buf es s;
  let q := s in
  c ← deref (buf !! s);
  '(ret, s) ←
    (if c =? 0 then Good (c, s)
     else if (c =? 124) || (c =? 40) || (c =? 41) || (c =? 59) || (c =? 38) || (c =? 60)
     then Good (c, S s)
     else if c =? 62 then
       d ← deref (buf !! S s);
       if d =? 62 then Good (43, S (S s)) else Good (c, S s)
     else
       s ← skip (λ c, negb (has whitespace c) && negb (has symbols c)) buf (es - s) s;
       Good (97, s));
  let eq := s in
  s ← skip_space buf es s;
  Good (ret, q, eq, s).

(** peek(): its result and [*ps] *)
Definition peek (buf : list Z) (es s : nat) (toks : list Z) : pres (bool * nat) :=
  s ← skip_space buf es s;
  c ← deref (buf !! s);
  Good (truth c && has toks c, s).

(** ** The parser *)

(** fcntl.h *)
Definition O_RDONLY : Z := 0x000.
Definition O_WRONLY : Z := 0x001.
Definition O_RDWR : Z := 0x002.
Definition O_CREATE : Z := 0x200.
Definition O_TRUNC : Z := 0x400.

Section parser.
Context (buf : list Z) (es : nat).

Fixpoint parseredirs (n : nat) (h : store) (cmd s : nat) : pres (nat * store * nat) :=
  match n with
  | O => Bad E_fuel
  | S n =>
      '(b, s) ← peek buf es s (lit "<>");
      if negb b then Good (cmd, h, s) else
      '(tok, _, _, s) ← gettoken buf es s;
      '(t, q, eq, s) ← gettoken buf es s;
      if negb (t =? 97) then panic "missing file for redirection" else
      let '(cmd, h) :=
        if tok =? 60 then redircmd h cmd q eq O_RDONLY 0
        else if tok =? 62 then redircmd h cmd q eq (Z.lor (Z.lor O_WRONLY O_CREATE) O_TRUNC) 1
        else if tok =? 43 then redircmd h cmd q eq (Z.lor O_WRONLY O_CREATE) 1
        else (cmd, h) in
      parseredirs n h cmd s
  end.

(** [cmd->argv[i] = q; cmd->eargv[i] = eq;] *)
Definition set_arg (h : store) (cmd i : nat) (q eq : option nat) : pres store :=
  match h !! cmd with
  | Some (EXEC argv eargv) =>
      if decide (i < length argv)%nat
      then Good (<[cmd := EXEC (<[i := q]> argv) (<[i := eq]> eargv)]> h) else Bad E_fault
  | _ => Bad E_fault
  end.

(** The argument loop of parseexec(): [cmd] is the EXEC node, [r] is [ret]. *)
Fixpoint parseargs (n : nat) (h : store) (cmd r argc s : nat) : pres (nat * store * nat) :=
  match n with
  | O => Bad E_fuel
  | S n =>
      '(b, s) ← peek buf es s (lit "|)&;");
      if b : bool then h ← set_arg h cmd argc None None; Good (r, h, s) else
      '(tok, q, eq, s) ← gettoken buf es s;
      if tok =? 0 then h ← set_arg h cmd argc None None; Good (r, h, s) else
      if negb (tok =? 97) then panic "syntax" else
      h ← set_arg h cmd argc (Some q) (Some eq);
      let argc := S argc in
      if decide (MAXARGS <= argc)%nat then panic "too many args" else
      '(r, h, s) ← parseredirs n h r s;
      parseargs n h cmd r argc s
  end.

(** [while(peek(ps, es, "&")) { gettoken(ps, es, 0, 0); cmd = backcmd(cmd); }] *)
Fixpoint parseback (n : nat) (h : store) (cmd s : nat) : pres (nat * store * nat) :=
  match n with
  | O => Bad E_fuel
  | S n =>
      '(b, s) ← peek buf es s (lit "&");
      if negb b then Good (cmd, h, s) else
      '(_, _, _, s) ← gettoken buf es s;
      let '(cmd, h) := backcmd h cmd in
      parseback n h cmd s
  end.

(** Each function takes the position [*ps] and returns the node, the store and
    the new position; [n] bounds the depth of the recursion. *)
Fixpoint parseline (n : nat) (h : store) (s : nat) : pres (nat * store * nat) :=
  match n with
  | O => Bad E_fuel
  | S n =>
      '(cmd, h, s) ← parsepipe n h s;
      '(cmd, h, s) ← parseback n h cmd s;
      '(b, s) ← peek buf es s (lit ";");
      if b : bool then
        '(_, _, _, s) ← gettoken buf es s;
        '(rcmd, h, s) ← parseline n h s;
        let '(cmd, h) := listcmd h cmd rcmd in Good (cmd, h, s)
      else Good (cmd, h, s)
  end
with parsepipe (n : nat) (h : store) (s : nat) : pres (nat * store * nat) :=
  match n with
  | O => Bad E_fuel
  | S n =>
      '(cmd, h, s) ← parseexec n h s;
      '(b, s) ← peek buf es s (lit "|");
      if b : bool then
        '(_, _, _, s) ← gettoken buf es s;
        '(rcmd, h, s) ← parsepipe n h s;
        let '(cmd, h) := pipecmd h cmd rcmd in Good (cmd, h, s)
      else Good (cmd, h, s)
  end
with parseblock (n : nat) (h : store) (s : nat) : pres (nat * store * nat) :=
  match n with
  | O => Bad E_fuel
  | S n =>
      '(b, s) ← peek buf es s (lit "(");
      if negb b then panic "parseblock" else
      '(_, _, _, s) ← gettoken buf es s;
      '(cmd, h, s) ← parseline n h s;
      '(b, s) ← peek buf es s (lit ")");
      if negb b then panic "syntax - missing )" else
      '(_, _, _, s) ← gettoken buf es s;
      parseredirs n h cmd s
  end
with parseexec (n : nat) (h : store) (s : nat) : pres (nat * store * nat) :=
  match n with
  | O => Bad E_fuel
  | S n =>
      '(b, s) ← peek buf es s (lit "(");
      if b : bool then parseblock n h s else
      let '(cmd, h) := execcmd h in
      '(r, h, s) ← parseredirs n h cmd s;
      parseargs n h cmd r O s
  end.
End parser.

(** ** nulterminate() *)

(** [for(i=0; argv[i]; i++) *eargv[i] = 0;] *)
Fixpoint nul_args (argv eargv : list (option nat)) (buf : list Z) : pres (list Z) :=
  match argv, eargv with
  | Some _ :: argv, e :: eargv =>
      e ← deref e; buf ← deref (put buf e 0); nul_args argv eargv buf
  | None :: _, _ => Good buf
  | _, _ => Bad E_fault
  end.

Fixpoint nulterminate (n : nat) (h : store) (cmd : nat) (buf : list Z) : pres (list Z) :=
  match n with
  | O => Bad E_fuel
  | S n =>
      c ← deref (h !! cmd);
      match c with
      | EXEC argv eargv => nul_args argv eargv buf
      | REDIR c _ efile _ _ => buf ← nulterminate n h c buf; deref (put buf efile 0)
      | PIPE l r => buf ← nulterminate n h l buf; nulterminate n h r buf
      | LIST l r => buf ← nulterminate n h l buf; nulterminate n h r buf
      | BACK c => nulterminate n h c buf
      end
  end.

(** The recursion depth the parser is given: more than a line of [len]
    characters can need. *)
Definition depth (len : nat) : nat := 4 * len + 8.

(** parsecmd() on the line in [buf]: the command, the nodes, and the buffer
    with the strings terminated. *)
Definition parse (buf : list Z) : pres (nat * store * list Z) :=
  es ← deref (strlen buf);
  '(cmd, h, s) ← parseline buf es (depth es) [] O;
  '(_, s) ← peek buf es s (lit "");
  if negb (s =? es)%nat then Bad (E_leftovers s) else
  buf ← nulterminate (length h) h cmd buf;
  Good (cmd, h, buf).

Definition upanic {A} (msg : string) : prog A :=
  _ ← fprintf 2 ("%s" +:+ newline) [A_str (Some (lit msg))]; exit 1.

Definition parsecmd (buf : list Z) : prog (nat * store * list Z) :=
  match parse buf with
  | Good r => Ret r
  | Bad (E_panic msg) => upanic msg
  | Bad (E_leftovers s) =>
      _ ← fprintf 2 ("leftovers: %s" +:+ newline) [A_str (Some (drop s buf))]; upanic "syntax"
  | Bad E_fault => Crash
  | Bad E_fuel => OutOfFuel
  end.

(** ** Running commands *)

Definition fork1 : prog Z :=
  pid ← call fork;
  if pid =? -1 then upanic "fork" else Ret pid.

(** The strings [argv[0], argv[1], ...] up to the null pointer. *)
Fixpoint arg_strings (buf : list Z) (argv : list (option nat)) : list (list Z) :=
  match argv with
  | Some q :: argv => drop q buf :: arg_strings buf argv
  | _ => []
  end.

(** runcmd() never returns; [n] bounds the depth of the tree. *)
Fixpoint runcmd (n : nat) (h : store) (buf : list Z) (cmd : nat) : prog unit :=
  match n with
  | O => OutOfFuel
  | S n =>
      c ← need (h !! cmd);
      match c with
      | EXEC argv _ =>
          match arg_strings buf argv with
          | [] => exit 1
          | a :: _ =>
              _ ← call (exec a (arg_strings buf argv));
              _ ← fprintf 2 ("exec %s failed" +:+ newline) [A_str (Some a)];
              exit 0
          end
      | REDIR c file _ mode fd =>
          _ ← call (close fd);
          r ← call (open (drop file buf) mode);
          if r <? 0 then
            _ ← fprintf 2 ("open %s failed" +:+ newline) [A_str (Some (drop file buf))];
            exit 1
          else
          _ ← runcmd n h buf c; exit 0
      | LIST l r =>
          pid ← fork1;
          _ ← (if pid =? 0 then runcmd n h buf l else Ret tt);
          _ ← call wait;
          _ ← runcmd n h buf r;
          exit 0
      | PIPE l r =>
          '(b, (p0, p1)) ← call pipe;
          if b <? 0 then upanic "pipe" else
          pid ← fork1;
          _ ← (if pid =? 0 then
                 _ ← call (close 1); _ ← call (dup p1); _ ← call (close p0); _ ← call (close p1);
                 runcmd n h buf l
               else Ret tt);
          pid ← fork1;
          _ ← (if pid =? 0 then
                 _ ← call (close 0); _ ← call (dup p0); _ ← call (close p0); _ ← call (close p1);
                 runcmd n h buf r
               else Ret tt);
          _ ← call (close p0);
          _ ← call (close p1);
          _ ← call wait;
          _ ← call wait;
          exit 0
      | BACK c =>
          pid ← fork1;
          _ ← (if pid =? 0 then runcmd n h buf c else Ret tt);
          exit 0
      end
  end.

(** getcmd(): the result and the buffer *)
Definition getcmd (buf : list Z) (nbuf : nat) : prog (Z * list Z) :=
  _ ← call (write 2 (chars "$ "));
  buf ← need (memset buf 0 nbuf);
  buf ← gets buf (Z.of_nat nbuf);
  c ← need (head buf);
  Ret (if c =? 0 then -1 else 0, buf).

(** [while((fd = open("console", O_RDWR)) >= 0) if(fd >= 3){ close(fd); break; }] *)
Definition open_console (_ : unit) : prog (unit + unit) :=
  fd ← call (open (lit "console") O_RDWR);
  if fd <? 0 then Ret (inr tt) else
  if 3 <=? fd then _ ← call (close fd); Ret (inr tt) else Ret (inl tt).

(** One round of the main loop. *)
Definition read_run (buf : list Z) : prog (list Z + unit) :=
  '(r, buf) ← getcmd buf 100;
  if r <? 0 then Ret (inr tt) else
  match buf with
  | 99 :: 100 :: 32 :: _ =>
      n ← need (strlen buf);
      buf ← need (put buf (n - 1) 0);
      r ← call (chdir (drop 3 buf));
      _ ← (if r <? 0
           then fprintf 2 ("cannot cd %s" +:+ newline) [A_str (Some (drop 3 buf))] else Ret tt);
      Ret (inl buf)
  | _ =>
      pid ← fork1;
      _ ← (if pid =? 0 then
             '(cmd, h, buf) ← parsecmd buf;
             runcmd (length h) h buf cmd
           else Ret tt);
      _ ← call wait;
      Ret (inl buf)
  end.

Definition main (fuel : nat) : prog unit :=
  _ ← uloop fuel open_console tt;
  _ ← uloop fuel read_run (replicate 100 0);
  exit 0.

(** Examples: a pipeline with redirections, run through the parser. *)
Example parse_pipeline :
  (λ '(cmd, h, _), (cmd, h)) <$> parse (lit "ls -l <in | wc >out &") =
  Good (5%nat, [EXEC (Some 0 :: Some 3 :: replicate 8 None) (Some 2 :: Some 5 :: replicate 8 None);
    REDIR 0 7 9 0 0;
    EXEC (Some 12 :: replicate 9 None) (Some 14 :: replicate 9 None);
    REDIR 2 16 19 0x601 1;
    PIPE 1 3; BACK 4])%nat.
Proof. reflexivity. Qed.
