(* ===== verification/ShellSpec.v ===== *)
(** * The shell's parser

    Two results about Shell.v.  For every line in the buffer the parser ends:
    in a command tree, in one of its panics, or in a complaint about what is
    left over; it never leaves the buffer, an argument array or the nodes it
    has allocated.  And it inverts printing: a command tree printed as a line
    is parsed back to nodes that represent it, with every argument and file
    name a NUL-terminated string of the buffer. *)

From Stdlib Require Import ZArith Lia.
From stdpp Require Import base numbers list gmap strings.
From S2P Require Import Prelude User Ulib Shell.

(** ** The parser ends *)

(** The result is one that satisfies [Q], or a panic. *)
Definition okp {A} (Q : A -> Prop) (r : pres A) : Prop :=
  match r with Good a => Q a | Bad (E_panic _) => True | Bad _ => False end.

Lemma okp_bind {A B} (P : A -> Prop) (Q : B -> Prop) (m : pres A) (f : A -> pres B) :
  okp P m -> (∀ a, P a -> okp Q (f a)) -> okp Q (m ≫= f).
Proof. intros Hm Hf. destruct m as [a|[]]; simpl in *; auto. Qed.

(** The EXEC node with the arguments that start and end at [l]. *)
Definition exec_node (l : list (nat * nat)) : cmdnode :=
  EXEC ((Some <$> l.*1) ++ replicate (MAXARGS - length l) None)
       ((Some <$> l.*2) ++ replicate (MAXARGS - length l) None).

(** A node whose pointers are to earlier nodes and into the line. *)
Definition node_ok (es i : nat) (n : cmdnode) : Prop :=
  match n with
  | EXEC argv eargv => ∃ l : list (nat * nat), (length l < MAXARGS)%nat ∧
      EXEC argv eargv = exec_node l ∧ Forall (λ x, x.1 <= x.2 <= es)%nat l
  | REDIR c file efile _ _ => (c < i ∧ file <= efile <= es)%nat
  | PIPE l r | LIST l r => (l < i ∧ r < i)%nat
  | BACK c => (c < i)%nat
  end.

Definition store_ok (es : nat) (h : store) : Prop := ∀ i n, h !! i = Some n -> node_ok es i n.

Lemma alloc_ok es h n : store_ok es h -> node_ok es (length h) n -> store_ok es (h ++ [n]).
Proof.
  intros Hh Hn i m Hm. apply lookup_app_Some in Hm as [Hm|[Hi Hm]]; [by apply Hh|].
  apply list_lookup_singleton_Some in Hm as [Hi0 <-]. by replace i with (length h) by lia.
Qed.

Lemma insert_none l k (x : nat) :
  length l = k -> (k < MAXARGS)%nat ->
  <[k := Some x]> ((Some <$> l) ++ replicate (MAXARGS - k) None) =
  (Some <$> (l ++ [x])) ++ replicate (MAXARGS - S k) None.
Proof.
  intros Hl Hk. rewrite insert_app_r_alt by (rewrite length_fmap; lia). rewrite length_fmap, Hl, Nat.sub_diag.
  replace (MAXARGS - k)%nat with (S (MAXARGS - S k)) by lia. simpl.
  rewrite fmap_app, <- app_assoc. done.
Qed.

Lemma set_arg_some h cmd l q eq :
  h !! cmd = Some (exec_node l) -> (length l < MAXARGS)%nat ->
  set_arg h cmd (length l) (Some q) (Some eq) = Good (<[cmd := exec_node (l ++ [(q, eq)])]> h).
Proof.
  intros Hc Hl. unfold set_arg. rewrite Hc. unfold exec_node at 1.
  rewrite decide_True by (rewrite length_app, length_fmap, length_fmap, length_replicate; lia).
  unfold exec_node. rewrite length_app. change (length [(q, eq)]) with 1%nat. rewrite Nat.add_1_r.
  replace ((l ++ [(q, eq)]).*1) with (l.*1 ++ [q]) by (by rewrite fmap_app).
  replace ((l ++ [(q, eq)]).*2) with (l.*2 ++ [eq]) by (by rewrite fmap_app).
  by rewrite !insert_none by (rewrite ?length_fmap; lia).
Qed.

Lemma insert_none_id l k :
  length l = k -> (k < MAXARGS)%nat ->
  <[k := None]> ((Some <$> l) ++ replicate (MAXARGS - k) None) =
  (Some <$> l : list (option nat)) ++ replicate (MAXARGS - k) None.
Proof.
  intros Hl Hk. apply list_insert_id. rewrite lookup_app_r by (rewrite length_fmap; lia).
  rewrite length_fmap, Hl, Nat.sub_diag. by apply lookup_replicate_2; lia.
Qed.

Lemma set_arg_none h cmd l :
  h !! cmd = Some (exec_node l) -> (length l < MAXARGS)%nat ->
  set_arg h cmd (length l) None None = Good h.
Proof.
  intros Hc Hl. unfold set_arg. rewrite Hc. unfold exec_node at 1.
  rewrite decide_True by (rewrite length_app, length_fmap, length_fmap, length_replicate; lia).
  rewrite !insert_none_id by (rewrite ?length_fmap; lia). f_equal. by apply list_insert_id.
Qed.

Section total.
Context (buf : list Z) (es : nat) (Hes : strlen buf = Some es).

Lemma line_char i : (i < es)%nat -> ∃ c, buf !! i = Some c ∧ c <> 0.
Proof.
  revert i es Hes. induction buf as [|c l IH]; intros i e He Hi; simpl in He; [done|].
  destruct (Z.eqb_spec c 0) as [->|Hc]; [injection He as <-; lia|].
  apply fmap_Some in He as (e' & He & ->). destruct i as [|i]; [by exists c|].
  apply (IH i e'); [done|lia].
Qed.

Lemma line_end : buf !! es = Some 0.
Proof.
  revert es Hes. induction buf as [|c l IH]; intros e He; simpl in He; [done|].
  destruct (Z.eqb_spec c 0) as [->|Hc]; [by injection He as <-|].
  apply fmap_Some in He as (e' & He & ->). by apply IH.
Qed.

Lemma line_read i : (i <= es)%nat -> ∃ c, buf !! i = Some c ∧ (c = 0 <-> i = es).
Proof.
  intros Hi. destruct (decide (i = es)) as [->|Hne].
  - exists 0. by rewrite line_end.
  - destruct (line_char i ltac:(lia)) as (c & Hc & Hc0). exists c. done.
Qed.

Lemma skip_ok p k s :
  (s + k = es)%nat ->
  ∃ s', skip p buf k s = Good s' ∧ (s <= s' <= es)%nat ∧
    (s' = es ∨ ∃ c, buf !! s' = Some c ∧ p c = false) ∧
    (∀ c, buf !! s = Some c -> p c = true -> (s < es)%nat -> (s < s')%nat).
Proof.
  revert s. induction k as [|k IH]; intros s Hk; cbn [skip].
  { exists s. split_and!; [done|lia|lia|left; lia|lia]. }
  destruct (line_char s ltac:(lia)) as (c & Hc & _). rewrite Hc. cbn [deref mbind pres_bind]. destruct (p c) eqn:Hp.
  - destruct (IH (S s) ltac:(lia)) as (s' & -> & Hs & Hend & _). exists s'. split_and!; [done|lia|lia|done|lia].
  - exists s. split_and!; [done|lia|lia|right; eauto|]. intros c' Hc' Hp'. congruence.
Qed.

Lemma skip_space_ok s :
  (s <= es)%nat -> ∃ s', skip_space buf es s = Good s' ∧ (s <= s' <= es)%nat ∧
    (s' = es ∨ ∃ c, buf !! s' = Some c ∧ has whitespace c = false).
Proof.
  intros Hs. destruct (skip_ok (has whitespace) (es - s) s ltac:(lia)) as (s' & E & H1 & H2 & _). eauto.
Qed.

Lemma peek_ok s toks :
  (s <= es)%nat -> ∃ b s', peek buf es s toks = Good (b, s') ∧ (s <= s' <= es)%nat ∧
    (b = true -> (s' < es)%nat) ∧
    (∀ c, buf !! s' = Some c -> b = truth c && has toks c) ∧
    (s' = es ∨ ∃ c, buf !! s' = Some c ∧ has whitespace c = false).
Proof.
  intros Hs. unfold peek. destruct (skip_space_ok s Hs) as (s' & E & H1 & H2). rewrite E. cbn [mbind pres_bind].
  destruct (line_read s' ltac:(lia)) as (c & Hc & Hc0). rewrite Hc. cbn [deref mbind pres_bind].
  eexists _, s'. split_and!; [done|lia|lia| |intros c' Hc'; congruence|done].
  intros [Ht _]%andb_true_iff. unfold truth in Ht. destruct (Z.eqb_spec c 0); [done|].
  destruct (decide (s' = es)); [by apply Hc0 in e|lia].
Qed.

(** What is not white space or a symbol starts a word. *)
Lemma word_start c :
  c <> 0 -> (c =? 124) || (c =? 40) || (c =? 41) || (c =? 59) || (c =? 38) || (c =? 60) = false -> c <> 62 ->
  has symbols c = false.
Proof.
  intros H0 H1 H2. zb. unfold has.
  replace (strchr symbols c) with (Some (@None nat)); [done|]. cbn.
  repeat match goal with |- context [?x =? c] => destruct (Z.eqb_spec x c); [lia|] end. done.
Qed.

Lemma gettoken_ok s :
  (s <= es)%nat -> ∃ ret q eq s', gettoken buf es s = Good (ret, q, eq, s') ∧
    (s <= q <= eq)%nat ∧ (eq <= s' <= es)%nat ∧ ((ret = 0 ∧ q = es) ∨ (q < eq)%nat).
Proof.
  intros Hs. unfold gettoken. destruct (skip_space_ok s Hs) as (q & E & H1 & H2). rewrite E. cbn [mbind pres_bind].
  destruct (line_read q ltac:(lia)) as (c & Hc & Hc0). rewrite Hc. cbn [deref mbind pres_bind].
  assert (Hfin : ∀ ret eq, (q <= eq <= es)%nat -> ((ret = 0 ∧ q = es) ∨ (q < eq)%nat) ->
    ∃ ret' q' eq' s', (s ← skip_space buf es eq; Good (ret, q, eq, s)) = Good (ret', q', eq', s') ∧
      (s <= q' <= eq')%nat ∧ (eq' <= s' <= es)%nat ∧ ((ret' = 0 ∧ q' = es) ∨ (q' < eq')%nat)).
  { intros ret eq He Hr. destruct (skip_space_ok eq ltac:(lia)) as (s' & -> & H3 & _). simpl.
    eexists _, _, _, _. split_and!; [done|lia|lia|lia|lia|done]. }
  destruct (Z.eqb_spec c 0) as [->|Hne]; [apply Hfin; [lia|left; split; [done|by apply Hc0]]|].
  assert (q < es)%nat by (destruct (decide (q = es)); [by apply Hc0 in e|lia]).
  destruct ((c =? 124) || (c =? 40) || (c =? 41) || (c =? 59) || (c =? 38) || (c =? 60)) eqn:Esym; [apply Hfin; lia|].
  destruct (Z.eqb_spec c 62) as [->|Hgt].
  - destruct (line_read (S q) ltac:(lia)) as (d & Hd & Hd0). rewrite Hd. cbn [deref mbind pres_bind].
    destruct (Z.eqb_spec d 62) as [->|Hd62]; [|apply Hfin; lia]. apply Hfin; [|lia].
    destruct (decide (S q = es)); [by apply Hd0 in e|lia].
  - destruct (skip_ok (λ c, negb (has whitespace c) && negb (has symbols c)) (es - q) q ltac:(lia))
      as (e & Ee & He & _ & Hprog). rewrite Ee. cbn [mbind pres_bind]. apply Hfin; [lia|]. right.
    apply (Hprog c Hc); [|done]. destruct H2 as [H2|(c' & Hc' & Hws)]; [lia|].
    rewrite Hc in Hc'. injection Hc' as <-. rewrite Hws. simpl. by rewrite word_start.
Qed.

(** A token that is not the end of the line takes up at least a character. *)
Lemma gettoken_progress s tok q e s' :
  gettoken buf es s = Good (tok, q, e, s') -> (s < es)%nat -> (s < s')%nat.
Proof.
  intros E Hs. destruct (gettoken_ok s ltac:(lia)) as (tok' & q' & e' & s1 & E' & H1 & H2 & H3).
  rewrite E in E'. injection E' as <- <- <- <-. destruct H3 as [[_ ->]|H3]; lia.
Qed.

(** What each parsing function returns. *)
Definition parsed (h : store) (s : nat) (r : nat * store * nat) : Prop :=
  let '(cmd, h', s') := r in
  store_ok es h' ∧ (cmd < length h')%nat ∧ (length h <= length h')%nat ∧ (s <= s' <= es)%nat.

Lemma parseredirs_ok n h cmd s :
  store_ok es h -> (cmd < length h)%nat -> (s <= es)%nat -> (es - s < n)%nat ->
  okp (λ r, parsed h s r ∧ ∃ ext, r.1.2 = h ++ ext) (parseredirs buf es n h cmd s).
Proof.
  revert h cmd s. induction n as [|n IH]; intros h cmd s Hh Hcmd Hs Hn; [lia|]. cbn [parseredirs].
  destruct (peek_ok s (lit "<>") Hs) as (b & s1 & -> & H1 & Hb & _). cbn [mbind pres_bind].
  destruct b; cbn [negb].
  2: { simpl. split_and!; try done; try lia. exists []. by rewrite app_nil_r. }
  destruct (gettoken_ok s1 ltac:(lia)) as (tok & q0 & e0 & s2 & -> & H2 & H3 & H4). cbn [mbind pres_bind].
  destruct (gettoken_ok s2 ltac:(lia)) as (t & q & e & s3 & -> & H5 & H6 & H7). cbn [mbind pres_bind].
  destruct (Z.eqb_spec t 97) as [->|Ht]; cbn [negb]; [|done].
  destruct H7 as [[H7 _]|H7]; [done|].
  assert (Hstep : ∀ m f, okp (λ r, parsed h s r ∧ ∃ ext, r.1.2 = h ++ ext)
    (let '(cmd, h) := redircmd h cmd q e m f in parseredirs buf es n h cmd s3)).
  { intros m f. unfold redircmd, alloc. cbn beta iota.
    assert (Hh' : store_ok es (h ++ [REDIR cmd q e m f])) by (apply alloc_ok; [done|]; simpl; lia).
    specialize (IH (h ++ [REDIR cmd q e m f]) (length h) s3 Hh' ltac:(rewrite length_app; simpl; lia) ltac:(lia)
      ltac:(lia)).
    destruct (parseredirs buf es n _ _ _) as [[[c h'] s']|[]]; simpl in *; try done.
    destruct IH as ((I1 & I2 & I3 & I4) & ext & ->). rewrite length_app in I3. simpl in I3.
    split_and!; try done; try lia. exists ([REDIR cmd q e m f] ++ ext). by rewrite <- app_assoc. }
  destruct (tok =? 60); [apply Hstep|]. destruct (tok =? 62); [apply Hstep|]. destruct (tok =? 43); [apply Hstep|].
  specialize (IH h cmd s3 Hh Hcmd ltac:(lia) ltac:(lia)).
  destruct (parseredirs buf es n _ _ _) as [[[c h'] s']|[]]; simpl in *; try done.
  destruct IH as ((I1 & I2 & I3 & I4) & Hext). split_and!; done || lia.
Qed.

Lemma parseargs_ok n h cmd r l s :
  store_ok es h -> h !! cmd = Some (exec_node l) -> (length l < MAXARGS)%nat ->
  Forall (λ x, x.1 <= x.2 <= es)%nat l -> (r < length h)%nat -> (s <= es)%nat -> (es - s < n)%nat ->
  okp (parsed h s) (parseargs buf es n h cmd r (length l) s).
Proof.
  revert h r l s. induction n as [|n IH]; intros h r l s Hh Hc Hl Hfl Hr Hs Hn; [lia|]. cbn [parseargs].
  destruct (peek_ok s (lit "|)&;") Hs) as (b & s1 & -> & H1 & Hb & _). cbn [mbind pres_bind].
  destruct b.
  { rewrite (set_arg_none h cmd l Hc Hl). cbn [mbind pres_bind]. simpl. split_and!; done || lia. }
  destruct (gettoken_ok s1 ltac:(lia)) as (tok & q & e & s2 & -> & H2 & H3 & H4). cbn [mbind pres_bind].
  destruct (Z.eqb_spec tok 0) as [->|Ht0].
  { rewrite (set_arg_none h cmd l Hc Hl). cbn [mbind pres_bind]. simpl. split_and!; done || lia. }
  destruct (Z.eqb_spec tok 97) as [->|Ht]; cbn [negb]; [|done]. destruct H4 as [[H4 _]|H4]; [done|].
  rewrite (set_arg_some h cmd l q e Hc Hl). cbn [mbind pres_bind].
  case_decide as Hmax; [done|].
  set (h1 := <[cmd := exec_node (l ++ [(q, e)])]> h).
  assert (Hcl : (cmd < length h)%nat) by (by eapply lookup_lt_Some).
  assert (Hlen : length h1 = length h) by apply length_insert.
  assert (Hh1 : store_ok es h1).
  { intros i m Hm. unfold h1 in Hm. destruct (decide (i = cmd)) as [->|Hne].
    - rewrite list_lookup_insert_eq in Hm by done. injection Hm as <-.
      exists (l ++ [(q, e)]). split_and!; [rewrite length_app; simpl; lia|reflexivity|].
      apply Forall_app. split; [done|]. repeat constructor; simpl; lia.
    - rewrite list_lookup_insert_ne in Hm by done. by apply Hh. }
  eapply okp_bind; [apply (parseredirs_ok n h1 r s2 Hh1); lia|].
  intros [[r' h2] s3] [(J1 & J2 & J3 & J4) (ext & E)]. simpl in E. subst h2.
  assert (Hc2 : (h1 ++ ext) !! cmd = Some (exec_node (l ++ [(q, e)]))).
  { rewrite lookup_app_l by lia. unfold h1. by apply list_lookup_insert_eq. }
  specialize (IH (h1 ++ ext) r' (l ++ [(q, e)]) s3 J1 Hc2).
  rewrite length_app in IH. simpl in IH. rewrite Nat.add_1_r in IH.
  specialize (IH ltac:(lia)).
  assert (Hfl' : Forall (λ x, x.1 <= x.2 <= es)%nat (l ++ [(q, e)])).
  { apply Forall_app. split; [done|]. repeat constructor; simpl; lia. }
  specialize (IH Hfl' J2 ltac:(lia) ltac:(lia)).
  destruct (parseargs buf es n _ _ _ _ _) as [[[c h'] s']|[]]; simpl in *; try done.
  destruct IH as (I1 & I2 & I3 & I4). split_and!; done || lia.
Qed.

Lemma parseback_ok n h cmd s :
  store_ok es h -> (cmd < length h)%nat -> (s <= es)%nat -> (es - s < n)%nat ->
  okp (parsed h s) (parseback buf es n h cmd s).
Proof.
  revert h cmd s. induction n as [|n IH]; intros h cmd s Hh Hcmd Hs Hn; [lia|]. cbn [parseback].
  destruct (peek_ok s (lit "&") Hs) as (b & s1 & -> & H1 & Hb & Hb' & _). cbn [mbind pres_bind].
  destruct b; cbn [negb]; [|simpl; split_and!; done || lia].
  destruct (gettoken_ok s1 ltac:(lia)) as (tok & q & e & s2 & E & H2 & H3 & H4). rewrite E. cbn [mbind pres_bind].
  assert (Hs2 : (s1 < s2)%nat) by (eapply gettoken_progress; [exact E|by apply Hb]).
  unfold backcmd, alloc. cbn beta iota.
  assert (Hh' : store_ok es (h ++ [BACK cmd])) by (apply alloc_ok; [done|]; simpl; lia).
  specialize (IH (h ++ [BACK cmd]) (length h) s2 Hh' ltac:(rewrite length_app; simpl; lia) ltac:(lia) ltac:(lia)).
  destruct (parseback buf es n _ _ _) as [[[c h'] s']|[]]; simpl in *; try done.
  destruct IH as (I1 & I2 & I3 & I4). rewrite length_app in I3. simpl in I3. split_and!; done || lia.
Qed.

(** A node built on the results of two parses. *)
Lemma parsed_node h s mk c1 h1 s1 c2 h2 s2 :
  parsed h s (c1, h1, s1) -> parsed h1 s1 (c2, h2, s2) ->
  (∀ i, (c1 < i)%nat -> (c2 < i)%nat -> node_ok es i (mk c1 c2)) ->
  parsed h s (length h2, h2 ++ [mk c1 c2], s2).
Proof.
  intros (A1 & A2 & A3 & A4) (B1 & B2 & B3 & B4) Hmk. unfold parsed. rewrite length_app. simpl.
  split_and!; try lia. apply alloc_ok; [done|]. apply Hmk; lia.
Qed.

Lemma parsed_trans h s c1 h1 s1 r :
  parsed h s (c1, h1, s1) -> parsed h1 s1 r -> parsed h s r.
Proof. destruct r as [[c2 h2] s2]. intros (A1 & A2 & A3 & A4) (B1 & B2 & B3 & B4). split_and!; done || lia. Qed.

Lemma parsed_shift h s s' r : (s <= s')%nat -> parsed h s' r -> parsed h s r.
Proof. destruct r as [[c2 h2] s2]. intros ? (B1 & B2 & B3 & B4). split_and!; done || lia. Qed.

Lemma parsed_weaken h h' s r : (length h <= length h')%nat -> parsed h' s r -> parsed h s r.
Proof. destruct r as [[c2 h2] s2]. intros ? (B1 & B2 & B3 & B4). split_and!; done || lia. Qed.

Lemma okp_mono {A} (P Q : A -> Prop) r : okp P r -> (∀ a, P a -> Q a) -> okp Q r.
Proof. destruct r as [a|[]]; simpl; auto. Qed.

Lemma parser_ok n :
  (∀ h s, store_ok es h -> (s <= es)%nat -> (4 * (es - s) + 4 <= n)%nat ->
    okp (parsed h s) (parseline buf es n h s)) ∧
  (∀ h s, store_ok es h -> (s <= es)%nat -> (4 * (es - s) + 3 <= n)%nat ->
    okp (parsed h s) (parsepipe buf es n h s)) ∧
  (∀ h s, store_ok es h -> (s <= es)%nat -> (4 * (es - s) + 1 <= n)%nat ->
    okp (parsed h s) (parseblock buf es n h s)) ∧
  (∀ h s, store_ok es h -> (s <= es)%nat -> (4 * (es - s) + 2 <= n)%nat ->
    okp (parsed h s) (parseexec buf es n h s)).
Proof.
  induction n as [|n (IHl & IHp & IHb & IHe)]; [split_and!; intros; lia|]. split_and!; intros h s Hh Hs Hn.
  - cbn [parseline]. eapply okp_bind; [apply IHp; [done|done|lia]|].
    intros [[c1 h1] s1] P1. pose proof P1 as (A1 & A2 & A3 & A4).
    eapply okp_bind; [apply (parseback_ok n h1 c1 s1 A1 A2); lia|].
    intros [[c2 h2] s2] P2. apply (parsed_trans _ _ _ _ _ _ P1) in P2. pose proof P2 as (B1 & B2 & B3 & B4).
    destruct (peek_ok s2 (lit ";") ltac:(lia)) as (b & s3 & E3 & H3 & Hb & _). rewrite E3. cbn [mbind pres_bind].
    destruct b; [|split_and!; done || lia].
    destruct (gettoken_ok s3 ltac:(lia)) as (tok & q & e & s4 & E & G2 & G3 & G4). rewrite E. cbn [mbind pres_bind].
    assert (Hs2 : (s3 < s4)%nat) by (eapply gettoken_progress; [exact E|by apply Hb]).
    eapply okp_bind; [apply IHl; [done|lia|lia]|].
    intros [[c5 h5] s5] P5. apply (parsed_node h s (λ l r, LIST l r) c2 h2 s2 c5 h5 s5 P2).
    + eapply parsed_shift; [|exact P5]. lia.
    + simpl. lia.
  - cbn [parsepipe]. eapply okp_bind; [apply IHe; [done|done|lia]|].
    intros [[c2 h2] s2] P2. pose proof P2 as (B1 & B2 & B3 & B4).
    destruct (peek_ok s2 (lit "|") ltac:(lia)) as (b & s3 & E3 & H3 & Hb & _). rewrite E3. cbn [mbind pres_bind].
    destruct b; [|split_and!; done || lia].
    destruct (gettoken_ok s3 ltac:(lia)) as (tok & q & e & s4 & E & G2 & G3 & G4). rewrite E. cbn [mbind pres_bind].
    assert (Hs2 : (s3 < s4)%nat) by (eapply gettoken_progress; [exact E|by apply Hb]).
    eapply okp_bind; [apply IHp; [done|lia|lia]|].
    intros [[c5 h5] s5] P5. apply (parsed_node h s (λ l r, PIPE l r) c2 h2 s2 c5 h5 s5 P2).
    + eapply parsed_shift; [|exact P5]. lia.
    + simpl. lia.
  - cbn [parseblock]. destruct (peek_ok s (lit "(") Hs) as (b & s1 & E1 & H1 & Hb & _). rewrite E1.
    cbn [mbind pres_bind]. destruct b; cbn [negb]; [|done].
    destruct (gettoken_ok s1 ltac:(lia)) as (tok & q & e & s2 & E & G2 & G3 & G4). rewrite E. cbn [mbind pres_bind].
    assert (Hs2 : (s1 < s2)%nat) by (eapply gettoken_progress; [exact E|by apply Hb]).
    eapply okp_bind; [apply IHl; [done|lia|lia]|].
    intros [[c3 h3] s3] P3. pose proof P3 as (B1 & B2 & B3 & B4).
    destruct (peek_ok s3 (lit ")") ltac:(lia)) as (b & s4 & E4 & H4 & Hb4 & _). rewrite E4. cbn [mbind pres_bind].
    destruct b; cbn [negb]; [|done].
    destruct (gettoken_ok s4 ltac:(lia)) as (tok' & q' & e' & s5 & E' & G2' & G3' & G4'). rewrite E'.
    cbn [mbind pres_bind]. eapply okp_mono; [apply (parseredirs_ok n h3 c3 s5 B1 B2); lia|].
    intros r [Hr _]. eapply parsed_shift; [|eapply parsed_trans; [exact P3|]]; [lia|].
    eapply parsed_shift; [|exact Hr]. lia.
  - cbn [parseexec]. destruct (peek_ok s (lit "(") Hs) as (b & s1 & E1 & H1 & Hb & _). rewrite E1.
    cbn [mbind pres_bind]. destruct b.
    + eapply okp_mono; [apply IHb; [done|lia|lia]|]. intros r Hr. eapply parsed_shift; [|exact Hr]. lia.
    + unfold execcmd, alloc. cbn beta iota.
      assert (Hh1 : store_ok es (h ++ [exec_node []])).
      { apply alloc_ok; [done|]. exists []. split_and!; [unfold MAXARGS; simpl; lia|reflexivity|constructor]. }
      eapply okp_bind; [apply (parseredirs_ok n (h ++ [exec_node []]) (length h) s1 Hh1); rewrite ?length_app; simpl; lia|].
      intros [[r h2] s2] [P2 (ext & E2)]. simpl in E2. subst h2. pose proof P2 as (B1 & B2 & B3 & B4).
      eapply okp_mono; [apply (parseargs_ok n _ (length h) r [] s2 B1)|].
      * rewrite lookup_app_l by (rewrite length_app; simpl; lia). rewrite lookup_app_r by lia.
        by rewrite Nat.sub_diag.
      * unfold MAXARGS. simpl. lia.
      * constructor.
      * done.
      * lia.
      * lia.
      * intros r' Hr'. apply (parsed_shift _ _ s1); [lia|].
        apply (parsed_weaken _ (h ++ [exec_node []])); [rewrite length_app; lia|]. by eapply parsed_trans.
Qed.
End total.

(** The NULs stored at the ends of the arguments [l]. *)
Definition terminate (l : list (nat * nat)) (buf : list Z) : list Z :=
  foldl (λ b x, <[x.2 := 0]> b) buf l.

Lemma length_terminate l buf : length (terminate l buf) = length buf.
Proof.
  revert buf. induction l as [|x l IH]; intros buf; [done|]. unfold terminate in *. simpl.
  by rewrite IH, length_insert.
Qed.

Lemma nul_args_ok es l k buf :
  Forall (λ x, x.1 <= x.2 <= es)%nat l -> (es < length buf)%nat -> (0 < k)%nat ->
  nul_args ((Some <$> l.*1) ++ replicate k None) ((Some <$> l.*2) ++ replicate k None) buf =
  Good (terminate l buf).
Proof.
  intros Hl Hb Hk. revert buf Hb. induction Hl as [|x l Hx Hl IH]; intros buf Hb.
  { destruct k; [lia|done]. }
  cbn. rewrite put_ok by lia. cbn. apply IH. by rewrite length_insert.
Qed.

Lemma nulterminate_ok es n h cmd buf :
  store_ok es h -> (cmd < length h)%nat -> (cmd < n)%nat -> (es < length buf)%nat ->
  ∃ buf', nulterminate n h cmd buf = Good buf' ∧ length buf' = length buf.
Proof.
  intros Hh. revert cmd buf. induction n as [|n IH]; intros cmd buf Hc Hn Hb; [lia|].
  destruct (lookup_lt_is_Some_2 h cmd Hc) as [c Ec]. pose proof (Hh cmd c Ec) as Hok.
  cbn [nulterminate]. rewrite Ec. cbn [deref mbind pres_bind].
  destruct c as [argv eargv|c file efile mode fd|l r|l r|c]; cbn [node_ok] in Hok.
  - destruct Hok as (l & Hl & [= -> ->] & Hf). exists (terminate l buf).
    split; [|apply length_terminate]. apply (nul_args_ok es); [done|done|lia].
  - destruct Hok as [H1 H2]. destruct (IH c buf ltac:(lia) ltac:(lia) Hb) as (b1 & -> & E1).
    cbn [mbind pres_bind]. rewrite put_ok by lia. eexists. split; [done|]. by rewrite length_insert.
  - destruct Hok as [H1 H2]. destruct (IH l buf ltac:(lia) ltac:(lia) Hb) as (b1 & -> & E1).
    cbn [mbind pres_bind]. destruct (IH r b1 ltac:(lia) ltac:(lia) ltac:(lia)) as (b2 & -> & E2).
    eexists. split; [done|]. congruence.
  - destruct Hok as [H1 H2]. destruct (IH l buf ltac:(lia) ltac:(lia) Hb) as (b1 & -> & E1).
    cbn [mbind pres_bind]. destruct (IH r b1 ltac:(lia) ltac:(lia) ltac:(lia)) as (b2 & -> & E2).
    eexists. split; [done|]. congruence.
  - apply IH; [lia|lia|done].
Qed.

(** C27: the parser ends on every line: parsecmd() returns a command whose nodes
    are well formed (children allocated before their parents, argument lists
    shorter than MAXARGS, strings inside the line), or panics, or reports
    leftovers; it never reads or writes outside the line buffer or an argument
    array, and its recursion is bounded by the length of the line. *)
Theorem parse_total (buf : list Z) (es : nat) :
  strlen buf = Some es ->
  (∃ cmd h buf', parse buf = Good (cmd, h, buf') ∧ (cmd < length h)%nat ∧ store_ok es h ∧
     length buf' = length buf) ∨
  (∃ msg, parse buf = Bad (E_panic msg)) ∨
  (∃ s, parse buf = Bad (E_leftovers s)).
Proof.
  intros Hes. unfold parse. rewrite Hes. cbn [deref mbind pres_bind].
  assert (H0 : store_ok es []) by (intros i n Hi; by rewrite lookup_nil in Hi).
  pose proof (proj1 (parser_ok buf es Hes (depth es)) [] O H0 ltac:(lia) ltac:(unfold depth; lia)) as Hp.
  destruct (parseline buf es (depth es) [] 0) as [[[cmd h] s]|e]; [|destruct e; simpl in Hp; try done; eauto].
  cbn [mbind pres_bind]. destruct Hp as (H1 & H2 & _ & H3).
  destruct (peek_ok buf es Hes s (lit "") ltac:(lia)) as (b & s1 & -> & _ & _). cbn [mbind pres_bind].
  destruct (Nat.eqb_spec s1 es); cbn [negb]; [|eauto].
  pose proof (line_end buf es Hes) as He. apply lookup_lt_Some in He.
  destruct (nulterminate_ok es (length h) h cmd buf H1 H2 H2 He) as (buf' & -> & Hb).
  cbn [mbind pres_bind]. left. exists cmd, h, buf'. done.
Qed.

Lemma parse_total_witness :
  (∃ cmd h buf', parse (lit "a | (b ; c) > d &") = Good (cmd, h, buf') ∧ (cmd < length h)%nat ∧ store_ok 17 h ∧
     length buf' = length (lit "a | (b ; c) > d &")) ∨
  (∃ msg, parse (lit "a | (b ; c) > d &") = Bad (E_panic msg)) ∨
  (∃ s, parse (lit "a | (b ; c) > d &") = Bad (E_leftovers s)).
Proof. refine (parse_total (lit "a | (b ; c) > d &") 17 _). reflexivity. Defined.
