(* ===== verification/ShellPrint.v ===== *)
(** * Printing and parsing shell commands

    The abstract syntax of the shell's commands, how they are written as a
    line, and the theorem that parsecmd() reads a written command back. *)

From Stdlib Require Import ZArith Lia.
From stdpp Require Import base numbers list gmap strings.
From S2P Require Import Prelude User Ulib Shell ShellSpec.

(** ** Commands and their text *)

Inductive redir := R_in | R_out | R_append.

Inductive cmd :=
| Exec (argv : list (list Z))
| Redir (c : cmd) (k : redir) (file : list Z)
| Pipe (l r : cmd)
| Seq (l r : cmd)
| Back (c : cmd).

(** The mode open() is called with, and the descriptor replaced. *)
Definition redir_mode (k : redir) : Z :=
  match k with R_in => O_RDONLY | R_out => Z.lor (Z.lor O_WRONLY O_CREATE) O_TRUNC
             | R_append => Z.lor O_WRONLY O_CREATE end.
Definition redir_fd (k : redir) : Z := match k with R_in => 0 | _ => 1 end.

Definition word_char (c : Z) : Prop := c <> 0 ∧ has whitespace c = false ∧ has symbols c = false.
Definition word (w : list Z) : Prop := w <> [] ∧ Forall word_char w.

(** A command that can be written: fewer than MAXARGS arguments, every
    argument and file name a word. *)
Fixpoint cmd_ok (a : cmd) : Prop :=
  match a with
  | Exec argv => (length argv < MAXARGS)%nat ∧ Forall word argv
  | Redir c _ f => cmd_ok c ∧ word f
  | Pipe l r | Seq l r => cmd_ok l ∧ cmd_ok r
  | Back c => cmd_ok c
  end.

Inductive token := T_word (w : list Z) | T_sym (c : Z) | T_append.

Definition token_text (t : token) : list Z :=
  match t with T_word w => w | T_sym c => [c] | T_append => [62; 62] end.

(** A line: every token followed by a blank. *)
Definition line_of (ts : list token) : list Z := mjoin ((λ t, token_text t ++ [32]) <$> ts).

Definition redir_tokens (k : redir) (f : list Z) : list token :=
  [match k with R_in => T_sym 60 | R_out => T_sym 62 | R_append => T_append end; T_word f].

(** The tokens of a command where a whole line, a command followed by ['&'], a
    pipeline or a simple command is expected; parentheses where needed. *)
Record tokens := Tokens { t_line : list token; t_back : list token; t_pipe : list token; t_exec : list token }.

Definition parens (ts : list token) : list token := T_sym 40 :: ts ++ [T_sym 41].

Fixpoint print (a : cmd) : tokens :=
  match a with
  | Exec argv => let e := T_word <$> argv in Tokens e e e e
  | Redir c k f => let e := t_exec (print c) ++ redir_tokens k f in Tokens e e e e
  | Pipe l r => let p := t_exec (print l) ++ T_sym 124 :: t_pipe (print r) in Tokens p p p (parens p)
  | Back c => let b := t_back (print c) ++ [T_sym 38] in Tokens b b (parens b) (parens b)
  | Seq l r => let x := t_back (print l) ++ T_sym 59 :: t_line (print r) in
               Tokens x (parens x) (parens x) (parens x)
  end.

Definition print_line (a : cmd) : list Z := line_of (t_line (print a)).

(** ** Nodes that represent a command

    [S q e w]: the string of the buffer from [q] to [e] is [w]. *)
Section repr.
Context (S : nat -> nat -> list Z -> Prop).

Inductive repr (h : list cmdnode) : nat -> cmd -> Prop :=
| repr_exec i l argv : h !! i = Some (exec_node l) -> (length argv < MAXARGS)%nat ->
    Forall2 (λ x w, S x.1 x.2 w) l argv -> repr h i (Exec argv)
| repr_redir i c q e k f a : h !! i = Some (REDIR c q e (redir_mode k) (redir_fd k)) -> S q e f ->
    repr h c a -> repr h i (Redir a k f)
| repr_pipe i l r a b : h !! i = Some (PIPE l r) -> repr h l a -> repr h r b -> repr h i (Pipe a b)
| repr_seq i l r a b : h !! i = Some (LIST l r) -> repr h l a -> repr h r b -> repr h i (Seq a b)
| repr_back i c a : h !! i = Some (BACK c) -> repr h c a -> repr h i (Back a).

(** A chain of redirections around node [c], ending in node [d]. *)
Inductive redirs_at (h : list cmdnode) : nat -> list (redir * list Z) -> nat -> Prop :=
| redirs_nil c : redirs_at h c [] c
| redirs_cons c c1 q e k f rs d :
    h !! c1 = Some (REDIR c q e (redir_mode k) (redir_fd k)) -> S q e f ->
    redirs_at h c1 rs d -> redirs_at h c ((k, f) :: rs) d.

Definition redirect (a : cmd) (rs : list (redir * list Z)) : cmd :=
  foldl (λ a x, Redir a x.1 x.2) a rs.

Lemma repr_redirs h c rs d a : redirs_at h c rs d -> repr h c a -> repr h d (redirect a rs).
Proof.
  intros Hr. revert a. induction Hr as [|c c1 q e k f rs d Hc Hs Hr IH]; intros a Ha; [done|].
  apply (IH (Redir a k f)). by eapply repr_redir.
Qed.

Lemma repr_app h ext i a : repr h i a -> repr (h ++ ext) i a.
Proof.
  induction 1; econstructor; eauto; by apply lookup_app_l_Some.
Qed.

Lemma redirs_at_app h ext c rs d : redirs_at h c rs d -> redirs_at (h ++ ext) c rs d.
Proof. induction 1; econstructor; eauto; by apply lookup_app_l_Some. Qed.
End repr.

(** ** Tokens in the buffer *)

Definition token_ok (t : token) : Prop :=
  match t with
  | T_word w => word w
  | T_sym c => c ∈ [124; 40; 41; 59; 38; 60; 62]
  | T_append => True
  end.

Definition token_code (t : token) : Z := match t with T_word _ => 97 | T_sym c => c | T_append => 43 end.
Definition token_head (t : token) : Z := default 0 (head (token_text t)).

Lemma line_of_cons t ts : line_of (t :: ts) = token_text t ++ 32 :: line_of ts.
Proof. unfold line_of. simpl. by rewrite <- app_assoc. Qed.

Lemma line_of_app ts ts' : line_of (ts ++ ts') = line_of ts ++ line_of ts'.
Proof. unfold line_of. by rewrite fmap_app, join_app. Qed.

Lemma token_text_head t : token_ok t -> ∃ x, token_text t = token_head t :: x.
Proof.
  destruct t as [[|c w]|c|]; simpl; [by intros [? _]|eauto|eauto|eauto].
Qed.

Lemma token_head_ok t : token_ok t -> token_head t <> 0 ∧ has whitespace (token_head t) = false.
Proof.
  destruct t as [[|c w]|c|]; unfold token_head; simpl.
  - by intros [? _].
  - intros [_ [(H1 & H2 & _) _]%Forall_cons]. done.
  - intros H. set_unfold in H. repeat (destruct H as [->|H]; [done|]). done.
  - done.
Qed.

Lemma not_symbol c :
  has symbols c = false ->
  (c =? 124) || (c =? 40) || (c =? 41) || (c =? 59) || (c =? 38) || (c =? 60) = false ∧ c <> 62.
Proof.
  intros H. assert (Hn : c ∉ [124; 40; 41; 59; 38; 60; 62]).
  { intros Hin. set_unfold in Hin. repeat (destruct Hin as [->|Hin]; [done|]). done. }
  set_unfold in Hn. split; [|naive_solver].
  repeat (apply orb_false_iff; split); apply Z.eqb_neq; naive_solver.
Qed.

Section lexer.
Context (buf junk : list Z) (es : nat).

(** The line from [s] on consists of the tokens [ts]. *)
Definition at_toks (s : nat) (ts : list token) : Prop :=
  drop s buf = line_of ts ++ 0 :: junk ∧ (s + length (line_of ts) = es)%nat ∧ Forall token_ok ts.

Lemma at_toks_char s t ts :
  at_toks s (t :: ts) -> buf !! s = Some (token_head t) ∧ (s < es)%nat.
Proof.
  intros (Hd & Hl & [Ht _]%Forall_cons). destruct (token_text_head t Ht) as [x Ex].
  rewrite line_of_cons in Hd, Hl. rewrite Ex in Hd, Hl. split.
  - rewrite <- (Nat.add_0_r s), <- lookup_drop, Hd. done.
  - rewrite length_app in Hl. simpl in Hl. lia.
Qed.

Lemma at_toks_end s : at_toks s [] -> buf !! s = Some 0 ∧ s = es.
Proof.
  intros (Hd & Hl & _). simpl in Hl. split; [|lia].
  rewrite <- (Nat.add_0_r s), <- lookup_drop, Hd. done.
Qed.

Lemma skip_run p x y k s :
  drop s buf = x ++ y -> Forall (λ c, p c = true) x -> (length x <= k)%nat ->
  (k = length x ∨ ∃ c y', y = c :: y' ∧ p c = false) -> skip p buf k s = Good (s + length x)%nat.
Proof.
  revert k s. induction x as [|c x IH]; intros k s Hd Hp Hk Hend.
  - rewrite Nat.add_0_r. simpl in Hend. destruct Hend as [->|(c & y' & -> & Hc)]; [done|].
    destruct k; [done|]. cbn [skip].
    assert (Hs : buf !! s = Some c) by (rewrite <- (Nat.add_0_r s), <- lookup_drop, Hd; done).
    rewrite Hs. cbn [deref mbind pres_bind]. by rewrite Hc.
  - apply Forall_cons in Hp as [Hc Hp]. destruct k as [|k]; [simpl in Hk; lia|]. cbn [skip].
    assert (Hs : buf !! s = Some c) by (rewrite <- (Nat.add_0_r s), <- lookup_drop, Hd; done).
    rewrite Hs. cbn [deref mbind pres_bind]. rewrite Hc. rewrite (IH k (S s)).
    + f_equal. simpl. lia.
    + assert (E : drop (S s) buf = drop 1 (drop s buf)) by (rewrite drop_drop; f_equal; lia).
      by rewrite E, Hd.
    + done.
    + simpl in Hk. lia.
    + destruct Hend as [Hend|Hend]; [left; simpl in Hend; lia|by right].
Qed.

Lemma skip_space_stays s c y :
  drop s buf = c :: y -> has whitespace c = false ∨ s = es -> (s <= es)%nat -> skip_space buf es s = Good s.
Proof.
  intros Hd Hc Hs. unfold skip_space. rewrite (skip_run _ [] (c :: y)); [by rewrite Nat.add_0_r|done|constructor|simpl; lia|].
  destruct Hc as [Hc| ->]; [right; eauto|left; simpl; lia].
Qed.

Lemma at_toks_stays s ts : at_toks s ts -> skip_space buf es s = Good s.
Proof.
  intros Hat. destruct ts as [|t ts].
  - pose proof (at_toks_end s Hat) as [_ Hs]. destruct Hat as (Hd & _ & _).
    eapply skip_space_stays; [exact Hd|by right|lia].
  - pose proof (at_toks_char s t ts Hat) as [_ Hs]. destruct Hat as (Hd & _ & [Ht _]%Forall_cons).
    destruct (token_text_head t Ht) as [x Ex]. rewrite line_of_cons, Ex in Hd.
    eapply skip_space_stays; [exact Hd|left; by apply token_head_ok|lia].
Qed.

(** peek() looks at the first character of the next token. *)
Lemma peek_toks s ts toks :
  at_toks s ts ->
  peek buf es s toks = Good (match ts with [] => false | t :: _ => has toks (token_head t) end, s).
Proof.
  intros Hat. unfold peek. rewrite (at_toks_stays s ts Hat). cbn [mbind pres_bind]. destruct ts as [|t ts].
  - destruct (at_toks_end s Hat) as [-> _]. done.
  - destruct (at_toks_char s t ts Hat) as [-> _]. cbn [deref mbind pres_bind].
    destruct Hat as (_ & _ & [Ht _]%Forall_cons). destruct (token_head_ok t Ht) as [H0 _].
    unfold truth. by destruct (Z.eqb_spec (token_head t) 0).
Qed.

Lemma gettoken_end s : at_toks s [] -> gettoken buf es s = Good (0, s, s, s).
Proof.
  intros Hat. unfold gettoken. rewrite (at_toks_stays s [] Hat). cbn [mbind pres_bind].
  destruct (at_toks_end s Hat) as [-> _]. cbn [deref mbind pres_bind Z.eqb].
  rewrite (at_toks_stays s [] Hat). done.
Qed.

Lemma at_toks_next s t ts :
  at_toks s (t :: ts) ->
  at_toks (s + length (token_text t) + 1) ts ∧
  drop (s + length (token_text t)) buf = 32 :: line_of ts ++ 0 :: junk ∧
  (s + length (token_text t) + 1 <= es)%nat.
Proof.
  intros (Hd & Hl & [Ht Hts]%Forall_cons). rewrite line_of_cons, <- app_assoc in Hd.
  rewrite line_of_cons, length_app in Hl. simpl in Hl, Hd.
  assert (E : drop (s + length (token_text t)) buf = 32 :: line_of ts ++ 0 :: junk).
  { rewrite <- drop_drop, Hd. by rewrite drop_app_length. }
  split_and!; [|done|lia]. split_and!; [|lia|done]. rewrite <- drop_drop, E. done.
Qed.

(** White space after a token is skipped. *)
Lemma skip_space_after s t ts :
  at_toks s (t :: ts) -> skip_space buf es (s + length (token_text t)) = Good (s + length (token_text t) + 1)%nat.
Proof.
  intros Hat. destruct (at_toks_next s t ts Hat) as (Hnext & Hd & Hle). unfold skip_space.
  rewrite (skip_run _ [32] (line_of ts ++ 0 :: junk)); [done|done|by repeat constructor|simpl; lia|].
  destruct ts as [|t' ts].
  - left. destruct (at_toks_end _ Hnext) as [_ He]. simpl. lia.
  - right. destruct Hnext as (_ & _ & [Ht _]%Forall_cons). destruct (token_text_head t' Ht) as [x Ex].
    rewrite line_of_cons, Ex. eexists _, _. split; [done|]. by apply token_head_ok.
Qed.

Lemma gettoken_toks s t ts :
  at_toks s (t :: ts) ->
  gettoken buf es s = Good (token_code t, s, s + length (token_text t), s + length (token_text t) + 1)%nat.
Proof.
  intros Hat. unfold gettoken. rewrite (at_toks_stays s _ Hat). cbn [mbind pres_bind].
  destruct (at_toks_char s t ts Hat) as [Hc Hse]. rewrite Hc. cbn [deref mbind pres_bind].
  destruct (at_toks_next s t ts Hat) as (_ & Hd & Hle).
  pose proof (skip_space_after s t ts Hat) as Hskip.
  pose proof Hat as (Hd0 & _ & [Ht _]%Forall_cons).
  assert (Hat1 : ∀ i x y, drop (s + i) buf = x :: y -> buf !! (s + i)%nat = Some x).
  { intros i x y E. by rewrite <- (Nat.add_0_r (s + i)), <- lookup_drop, E. }
  destruct t as [w|c|]; cbn [token_text token_code length] in *.
  - destruct Ht as [Hne Hw]. destruct w as [|c w]; [done|]. unfold token_head. cbn [token_text head from_option id].
    pose proof Hw as [(Hc0 & Hcw & Hcs) _]%Forall_cons. destruct (not_symbol c Hcs) as [E1 E2].
    destruct (Z.eqb_spec c 0); [done|]. rewrite E1. destruct (Z.eqb_spec c 62); [done|].
    rewrite (skip_run _ (c :: w) (32 :: line_of ts ++ 0 :: junk)).
    + cbn [mbind pres_bind length]. cbn [length] in Hskip. by rewrite Hskip.
    + rewrite Hd0, line_of_cons, <- app_assoc. done.
    + eapply Forall_impl; [exact Hw|]. intros x (_ & H1 & H2). by rewrite H1, H2.
    + simpl in *. lia.
    + right. by eexists _, _.
  - unfold token_head. cbn [token_text head from_option id]. cbn [token_ok] in Ht.
    rewrite (Nat.add_comm s 1) in Hskip |- *. cbn [Nat.add] in Hskip |- *.
    set_unfold in Ht.
    destruct Ht as [->|[->|[->|[->|[->|[->|[->|[]]]]]]]]; cbn; try (by rewrite Hskip).
    rewrite Nat.add_comm in Hd. cbn [Nat.add] in Hd.
    assert (E : buf !! S s = Some 32) by (rewrite <- (Nat.add_1_r s) in *; by eapply Hat1).
    rewrite E. cbn. by rewrite Hskip.
  - unfold token_head. cbn [token_text head from_option id Z.eqb orb].
    assert (E : buf !! S s = Some 62).
    { rewrite <- (Nat.add_1_r s). eapply Hat1. rewrite <- drop_drop, Hd0, line_of_cons. reflexivity. }
    cbn. rewrite E. cbn.
    rewrite (Nat.add_comm s 2) in Hskip |- *. cbn [Nat.add] in Hskip |- *. by rewrite Hskip.
Qed.
End lexer.

(** ** Parsing what was printed *)

(** The next token, if any, is one of the symbols [cs]. *)
Definition next_in (cs : list Z) (ts : list token) : Prop :=
  match ts with [] => True | t :: _ => ∃ c, t = T_sym c ∧ c ∈ cs end.

Lemma next_in_weaken cs cs' ts : cs ⊆ cs' -> next_in cs ts -> next_in cs' ts.
Proof. intros H. destruct ts as [|t ts]; [done|]. intros (c & -> & Hc). exists c. auto. Qed.

Definition redirs_tokens (rs : list (redir * list Z)) : list token :=
  mjoin ((λ x, redir_tokens x.1 x.2) <$> rs).

(** How a command is put together at each level of the grammar. *)
Lemma exec_level a :
  cmd_ok a -> ∃ core rs, a = redirect core rs ∧ cmd_ok core ∧
    t_exec (print a) = t_exec (print core) ++ redirs_tokens rs ∧
    ((∃ argv, core = Exec argv) ∨ t_exec (print core) = parens (t_line (print core))).
Proof.
  induction a as [argv|c IH k f|l _ r _|l _ r _|c _]; intros Hok.
  - exists (Exec argv), []. rewrite app_nil_r. split_and!; try done. left. eauto.
  - destruct Hok as [Hc Hf]. destruct (IH Hc) as (core & rs & -> & H1 & H2 & H3).
    exists core, (rs ++ [(k, f)]). split_and!; try done.
    + unfold redirect. by rewrite foldl_app.
    + cbn [print t_exec]. rewrite H2. unfold redirs_tokens. rewrite fmap_app, join_app, <- app_assoc. simpl.
      done.
  - exists (Pipe l r), []. rewrite app_nil_r. split_and!; try done. by right.
  - exists (Seq l r), []. rewrite app_nil_r. split_and!; try done. by right.
  - exists (Back c), []. rewrite app_nil_r. split_and!; try done. by right.
Qed.

Lemma back_level a :
  cmd_ok a -> ∃ core k, a = Nat.iter k Back core ∧ cmd_ok core ∧
    t_back (print a) = t_pipe (print core) ++ replicate k (T_sym 38).
Proof.
  induction a as [argv|c IH k f|l _ r _|l _ r _|c IH]; intros Hok;
    try (by exists (Exec argv), O; rewrite app_nil_r).
  - exists (Redir c k f), O. by rewrite app_nil_r.
  - exists (Pipe l r), O. by rewrite app_nil_r.
  - exists (Seq l r), O. by rewrite app_nil_r.
  - destruct (IH Hok) as (core & k & -> & H1 & H2). exists core, (S k). split_and!; try done.
    cbn [print t_back]. rewrite H2, <- app_assoc. f_equal. by rewrite replicate_S_end.
Qed.

Lemma pipe_level a :
  (∃ l r, a = Pipe l r) ∨ t_pipe (print a) = t_exec (print a).
Proof. destruct a; [by right|by right|left; eauto|by right|by right]. Qed.

Lemma line_level a :
  (∃ l r, a = Seq l r) ∨ t_line (print a) = t_back (print a).
Proof. destruct a; [by right|by right|by right|left; eauto|by right]. Qed.

Section parser.
Context (buf junk : list Z) (es : nat).
Notation at_toks := (at_toks buf junk es).

(** The bytes of the buffer from [q] up to [e]. *)
Definition slice (q e : nat) (w : list Z) : Prop :=
  (q <= e <= es)%nat ∧ take (e - q) (drop q buf) = w ∧ Forall word_char w ∧
  (∃ x, buf !! e = Some x ∧ ~ word_char x).

Lemma at_toks_slice s w ts : at_toks s (T_word w :: ts) -> slice s (s + length w) w.
Proof.
  intros Hat. destruct (at_toks_next _ _ _ _ _ _ Hat) as (_ & Hd1 & Hle). cbn [token_text] in Hd1, Hle.
  destruct Hat as (Hd & Hl & [[Hne Hw] _]%Forall_cons). split_and!; [lia|lia| |done|].
  - replace (s + length w - s)%nat with (length w) by lia.
    rewrite Hd, line_of_cons, <- app_assoc. cbn [token_text]. by rewrite take_app_length.
  - exists 32. split; [|by intros (_ & H & _)]. by rewrite <- (Nat.add_0_r (s + length w)), <- lookup_drop, Hd1.
Qed.

Lemma parseredirs_toks n h cmd s rs ts :
  at_toks s (redirs_tokens rs ++ ts) ->
  match ts with [] => True | t :: _ => has (lit "<>") (token_head t) = false end ->
  (cmd < length h)%nat -> (es - s < n)%nat ->
  ∃ d ext s', parseredirs buf es n h cmd s = Good (d, h ++ ext, s') ∧ at_toks s' ts ∧
    redirs_at slice (h ++ ext) cmd rs d ∧ (d < length (h ++ ext))%nat ∧ (s <= s')%nat.
Proof.
  revert n h cmd s. induction rs as [|[k f] rs IH]; intros n h cmd s Hat Hts Hc Hn;
    (destruct n as [|n]; [lia|]); cbn [parseredirs].
  - change (redirs_tokens [] ++ ts) with ts in Hat. rewrite (peek_toks _ _ _ _ _ _ Hat). cbn [mbind pres_bind].
    assert (E : match ts with [] => false | t :: _ => has (lit "<>") (token_head t) end = false) by (by destruct ts).
    rewrite E. cbn [negb]. exists cmd, [], s. rewrite app_nil_r. split_and!; try done. constructor.
  - change (redirs_tokens ((k, f) :: rs) ++ ts) with (redir_tokens k f ++ redirs_tokens rs ++ ts) in Hat.
    set (t1 := match k with R_in => T_sym 60 | R_out => T_sym 62 | R_append => T_append end).
    change (redir_tokens k f ++ redirs_tokens rs ++ ts) with (t1 :: T_word f :: redirs_tokens rs ++ ts) in Hat.
    rewrite (peek_toks _ _ _ _ _ _ Hat). cbn [mbind pres_bind].
    assert (E : has (lit "<>") (token_head t1) = true) by (by destruct k). rewrite E. cbn [negb].
    rewrite (gettoken_toks _ _ _ _ _ _ Hat). cbn [mbind pres_bind].
    destruct (at_toks_next _ _ _ _ _ _ Hat) as (Hat1 & _ & Hle1). set (s1 := (s + length (token_text t1) + 1)%nat) in *.
    rewrite (gettoken_toks _ _ _ _ _ _ Hat1). cbn [mbind pres_bind token_code token_text].
    change (negb (97 =? 97)) with false. cbn iota.
    pose proof (at_toks_slice _ _ _ Hat1) as Hsl.
    destruct (at_toks_next _ _ _ _ _ _ Hat1) as (Hat2 & _ & Hle2). cbn [token_text] in Hat2, Hle2.
    set (node := REDIR cmd s1 (s1 + length f) (redir_mode k) (redir_fd k)).
    destruct (IH n (h ++ [node]) (length h) (s1 + length f + 1)%nat Hat2 Hts) as (d & ext & s' & Hp & Hs' & Hr & Hd & Hss).
    { rewrite length_app. simpl. lia. } { lia. }
    exists d, (node :: ext), s'. replace (h ++ node :: ext) with ((h ++ [node]) ++ ext) by (by rewrite <- app_assoc).
    split_and!; [|done| |done|lia].
    + rewrite <- Hp. unfold t1, node. destruct k; reflexivity.
    + eapply redirs_cons; [|exact Hsl|exact Hr]. rewrite <- app_assoc, lookup_app_r by lia.
      by rewrite Nat.sub_diag.
Qed.

(** The end of the arguments. *)
Lemma parseargs_end n h cmd r l s ts :
  at_toks s ts -> next_in [124; 41; 38; 59] ts -> h !! cmd = Some (exec_node l) -> (length l < MAXARGS)%nat ->
  (0 < n)%nat -> parseargs buf es n h cmd r (length l) s = Good (r, h, s).
Proof.
  intros Hat Hts Hc Hl Hn. destruct n as [|n]; [lia|]. cbn [parseargs].
  rewrite (peek_toks _ _ _ _ _ _ Hat). cbn [mbind pres_bind]. destruct ts as [|t ts].
  - rewrite (gettoken_end _ _ _ _ Hat). cbn [mbind pres_bind Z.eqb]. by rewrite (set_arg_none h cmd l Hc Hl).
  - destruct Hts as (c & -> & Hc'). unfold token_head. cbn [token_text head from_option id].
    assert (E : has (lit "|)&;") c = true) by (set_unfold in Hc'; by destruct Hc' as [->|[->|[->|[->|[]]]]]).
    rewrite E. by rewrite (set_arg_none h cmd l Hc Hl).
Qed.

(** Words are not stopped at. *)
Lemma word_head w : word w -> ∀ c, c ∈ [124; 40; 41; 59; 38; 60; 62] -> token_head (T_word w) <> c.
Proof.
  intros [Hne Hw] c Hc. destruct w as [|x w]; [done|]. apply Forall_cons in Hw as [(_ & _ & Hs) _].
  unfold token_head. simpl. intros ->. set_unfold in Hc.
  by destruct Hc as [->|[->|[->|[->|[->|[->|[->|[]]]]]]]].
Qed.

Lemma has_false toks c : Forall (λ x, x <> c) toks -> has toks c = false.
Proof.
  intros H. unfold has. induction H as [|x l Hx Hl IH]; [done|]. cbn [strchr].
  destruct (x =? 0); [done|]. destruct (Z.eqb_spec x c); [done|]. by destruct (strchr l c) as [[]|].
Qed.

Lemma word_not_stop w : word w -> has (lit "|)&;") (token_head (T_word w)) = false ∧
  has (lit "<>") (token_head (T_word w)) = false ∧ has (lit "(") (token_head (T_word w)) = false.
Proof.
  intros Hw. pose proof (word_head w Hw) as Hh.
  pose proof (proj1 (token_head_ok (T_word w) Hw)) as H0.
  change (lit "|)&;") with [124; 41; 38; 59; 0]. change (lit "<>") with [60; 62; 0].
  change (lit "(") with [40; 0].
  split_and!; apply has_false, Forall_forall; intros x Hx ->;
    (apply (Hh (token_head (T_word w))); [set_unfold; naive_solver|done]).
Qed.

Lemma parseargs_toks n h cmd l s w ws rs ts :
  at_toks s ((T_word <$> w :: ws) ++ redirs_tokens rs ++ ts) -> next_in [124; 41; 38; 59] ts ->
  h !! cmd = Some (exec_node l) -> (length l + length (w :: ws) < MAXARGS)%nat -> Forall word (w :: ws) ->
  (es - s < n)%nat ->
  ∃ d l2 ext s', let h1 := <[cmd := exec_node (l ++ l2)]> h in
    parseargs buf es n h cmd cmd (length l) s = Good (d, h1 ++ ext, s') ∧ at_toks s' ts ∧
    Forall2 (λ x w, slice x.1 x.2 w) l2 (w :: ws) ∧ redirs_at slice (h1 ++ ext) cmd rs d ∧
    (d < length (h1 ++ ext))%nat ∧ (s <= s')%nat.
Proof.
  intros Hat Hts. revert n h l s w Hat.
  induction ws as [|w2 ws IH]; intros n h l s w Hat Hc Hlen [Hw Hws]%Forall_cons Hn;
    (destruct n as [|n]; [lia|]); cbn [parseargs];
    cbn [fmap list_fmap app] in Hat; destruct (word_not_stop w Hw) as (W1 & W2 & W3);
    rewrite (peek_toks _ _ _ _ _ _ Hat); cbn [mbind pres_bind]; rewrite W1;
    rewrite (gettoken_toks _ _ _ _ _ _ Hat); cbn [mbind pres_bind token_code token_text];
    change (97 =? 0) with false; change (negb (97 =? 97)) with false; cbn iota;
    rewrite (set_arg_some h cmd l _ _ Hc) by (simpl in Hlen; lia); cbn [mbind pres_bind];
    rewrite decide_False by (simpl in Hlen; lia);
    pose proof (at_toks_slice _ _ _ Hat) as Hsl;
    destruct (at_toks_next _ _ _ _ _ _ Hat) as (Hat1 & _ & Hle1); cbn [token_text] in Hat1, Hle1;
    set (x := (s, s + length w)%nat) in *; set (h1 := <[cmd := exec_node (l ++ [x])]> h) in *;
    assert (Hcl : (cmd < length h1)%nat) by (unfold h1; rewrite length_insert; by eapply lookup_lt_Some);
    assert (Hc1 : h1 !! cmd = Some (exec_node (l ++ [x])))
      by (apply list_lookup_insert_eq; by eapply lookup_lt_Some);
    assert (Hl1 : length (l ++ [x]) = S (length l)) by (rewrite length_app; simpl; lia).
  - destruct (parseredirs_toks n h1 cmd _ rs ts Hat1) as (d & ext & s' & Hp & Hat' & Hr & Hd & Hss); [|done|lia|].
    { destruct ts as [|t ts]; [done|]. destruct Hts as (c & -> & Hc').
      set_unfold in Hc'. by destruct Hc' as [->|[->|[->|[->|[]]]]]. }
    exists d, [x], ext, s'. rewrite Hp. cbn [mbind pres_bind]. rewrite <- Hl1.
    rewrite (parseargs_end n (h1 ++ ext) cmd d (l ++ [x]) s' ts); [split_and!|..]; try done.
    + constructor; [done|constructor].
    + lia.
    + by apply lookup_app_l_Some.
    + rewrite Hl1. simpl in Hlen. lia.
    + lia.
  - assert (Hnone : parseredirs buf es n h1 cmd (s + length w + 1) = Good (cmd, h1, s + length w + 1)%nat).
    { destruct n as [|n]; [lia|]. cbn [parseredirs]. cbn [fmap list_fmap app] in Hat1.
      rewrite (peek_toks _ _ _ _ _ _ Hat1). cbn [mbind pres_bind].
      apply Forall_cons in Hws as [Hw2 _]. by destruct (word_not_stop w2 Hw2) as (_ & -> & _). }
    rewrite Hnone. cbn [mbind pres_bind].
    destruct (IH n h1 (l ++ [x]) (s + length w + 1)%nat w2 Hat1 Hc1) as (d & l2 & ext & s' & Hp & Hat' & Hf & Hr & Hd & Hss).
    { rewrite Hl1. simpl in *. lia. } { done. } { lia. }
    assert (Eh : <[cmd := exec_node ((l ++ [x]) ++ l2)]> h1 = <[cmd := exec_node (l ++ x :: l2)]> h).
    { unfold h1. rewrite list_insert_insert_eq, <- app_assoc. done. }
    cbn zeta in *. rewrite Eh in *. exists d, (x :: l2), ext, s'. rewrite Hl1 in Hp. split_and!; try done; [by constructor|lia].
Qed.

(** A parsing function that reads back the commands printed by [tk] when they
    are followed by one of the symbols [cs] or the end. *)
Definition reads (p : list cmdnode -> nat -> pres (nat * list cmdnode * nat)) (tk : tokens -> list token)
    (cs : list Z) (bound : nat -> Prop) : Prop :=
  ∀ a s ts h, cmd_ok a -> at_toks s (tk (print a) ++ ts) -> next_in cs ts -> bound s ->
  ∃ c ext s', p h s = Good (c, h ++ ext, s') ∧ at_toks s' ts ∧ repr slice (h ++ ext) c a ∧
    (c < length (h ++ ext))%nat ∧ (s <= s')%nat.

Lemma next_not_redir cs ts :
  cs ⊆ [124; 41; 38; 59] -> next_in cs ts ->
  match ts with [] => True | t :: _ => has (lit "<>") (token_head t) = false end.
Proof.
  intros Hcs. destruct ts as [|t ts]; [done|]. intros (c & -> & Hc). apply Hcs in Hc. set_unfold in Hc.
  by destruct Hc as [->|[->|[->|[->|[]]]]].
Qed.

(** The '&'s after a pipeline. *)
Lemma parseback_toks n h cmd s k ts a :
  at_toks s (replicate k (T_sym 38) ++ ts) -> next_in [41; 59] ts -> (cmd < length h)%nat -> (es - s < n)%nat ->
  repr slice h cmd a ->
  ∃ c ext s', parseback buf es n h cmd s = Good (c, h ++ ext, s') ∧ at_toks s' ts ∧
    repr slice (h ++ ext) c (Nat.iter k Back a) ∧ (c < length (h ++ ext))%nat ∧ (s <= s')%nat.
Proof.
  intros Hat Hts. revert n h cmd s a Hat. induction k as [|k IH]; intros n h cmd s a Hat Hc Hn Ha;
    (destruct n as [|n]; [lia|]); cbn [parseback].
  - cbn [replicate app] in Hat. rewrite (peek_toks _ _ _ _ _ _ Hat). cbn [mbind pres_bind].
    assert (E : match ts with [] => false | t :: _ => has (lit "&") (token_head t) end = false).
    { destruct ts as [|t ts]; [done|]. destruct Hts as (c & -> & Hc'). set_unfold in Hc'.
      by destruct Hc' as [->|[->|[]]]. }
    rewrite E. cbn [negb]. exists cmd, [], s. rewrite app_nil_r. done.
  - cbn [replicate app] in Hat. rewrite (peek_toks _ _ _ _ _ _ Hat). cbn [mbind pres_bind].
    change (negb (has (lit "&") (token_head (T_sym 38)))) with false. cbn iota.
    rewrite (gettoken_toks _ _ _ _ _ _ Hat). cbn [mbind pres_bind]. unfold backcmd, alloc. cbn beta iota.
    destruct (at_toks_next _ _ _ _ _ _ Hat) as (Hat1 & _ & Hle). cbn [token_text length] in *.
    assert (Ha' : repr slice (h ++ [BACK cmd]) (length h) (Back a)).
    { eapply repr_back; [|by apply repr_app]. rewrite lookup_app_r, Nat.sub_diag by lia. done. }
    destruct (IH n (h ++ [BACK cmd]) (length h) (s + 1 + 1)%nat (Back a) Hat1) as (c & ext & s' & H1 & H2 & H3 & H4 & H5);
      [rewrite length_app; simpl; lia|lia|done|].
    exists c, (BACK cmd :: ext), s'. rewrite <- app_assoc in *. cbn [app] in *. split_and!; try done; [|lia].
    by rewrite Nat.iter_succ_r.
Qed.

Lemma parseexec_words n h s argv rs ts :
  at_toks s ((T_word <$> argv) ++ redirs_tokens rs ++ ts) -> next_in [124; 41; 38; 59] ts ->
  (length argv < MAXARGS)%nat -> Forall word argv -> (es - s + 1 < n)%nat ->
  ∃ c ext s', parseexec buf es n h s = Good (c, h ++ ext, s') ∧ at_toks s' ts ∧
    repr slice (h ++ ext) c (redirect (Exec argv) rs) ∧ (c < length (h ++ ext))%nat ∧ (s <= s')%nat.
Proof.
  intros Hat Hts Hlen Hw Hn. destruct n as [|n]; [lia|]. cbn [parseexec].
  rewrite (peek_toks _ _ _ _ _ _ Hat). cbn [mbind pres_bind].
  assert (E : match (T_word <$> argv) ++ redirs_tokens rs ++ ts with
              | [] => false | t :: _ => has (lit "(") (token_head t) end = false).
  { destruct argv as [|w ws]; [|apply Forall_cons in Hw as [Hw _]; by apply word_not_stop].
    destruct rs as [|[[] f] rs]; [|done|done|done]. destruct ts as [|t ts]; [done|].
    destruct Hts as (c & -> & Hc'). set_unfold in Hc'. by destruct Hc' as [->|[->|[->|[->|[]]]]]. }
  rewrite E. clear E. unfold execcmd, alloc. cbn beta iota. change (EXEC _ _) with (exec_node []).
  set (h1 := h ++ [exec_node []]). set (cmd := length h).
  assert (Hc1 : h1 !! cmd = Some (exec_node [])).
  { unfold h1, cmd. by rewrite lookup_app_r, Nat.sub_diag by lia. }
  assert (Hcl : (cmd < length h1)%nat) by (by eapply lookup_lt_Some).
  destruct argv as [|w ws].
  - destruct (parseredirs_toks n h1 cmd s rs ts Hat) as (d & ext & s' & Hp & Hat' & Hr & Hd & Hss).
    { by eapply next_not_redir. } { done. } { lia. }
    rewrite Hp. cbn [mbind pres_bind].
    change O with (length (@nil (nat * nat))).
    rewrite (parseargs_end n (h1 ++ ext) cmd d [] s' ts Hat' Hts); [|by apply lookup_app_l_Some|simpl; lia|lia].
    exists d, ([exec_node []] ++ ext), s'. rewrite app_assoc. fold h1. split_and!; try done.
    eapply repr_redirs; [exact Hr|]. apply (repr_exec _ _ _ []); [by apply lookup_app_l_Some|done|constructor].
  - assert (Hnone : parseredirs buf es n h1 cmd s = Good (cmd, h1, s)).
    { destruct n as [|n]; [lia|]. cbn [parseredirs]. cbn [fmap list_fmap app] in Hat.
      rewrite (peek_toks _ _ _ _ _ _ Hat). cbn [mbind pres_bind].
      apply Forall_cons in Hw as [Hw _]. by destruct (word_not_stop w Hw) as (_ & -> & _). }
    rewrite Hnone. cbn [mbind pres_bind]. change O with (length (@nil (nat * nat))).
    destruct (parseargs_toks n h1 cmd [] s w ws rs ts Hat Hts Hc1) as (d & l2 & ext & s' & Hp & Hat' & Hf & Hr & Hd & Hss);
      [simpl in *; lia|done|lia|].
    cbn zeta in *. cbn [app] in *. rewrite Hp.
    assert (Eh : <[cmd := exec_node l2]> h1 = h ++ [exec_node l2]).
    { unfold h1, cmd. rewrite insert_app_r_alt, Nat.sub_diag by lia. done. }
    rewrite Eh in *. exists d, ([exec_node l2] ++ ext), s'. rewrite app_assoc. split_and!; try done.
    eapply repr_redirs; [exact Hr|]. apply (repr_exec _ _ _ l2); [|done|done]. apply lookup_app_l_Some.
    unfold cmd. by rewrite lookup_app_r, Nat.sub_diag by lia.
Qed.

(** One step of each parsing function. *)
Lemma parseline_S n h s : parseline buf es (S n) h s =
  '(cmd, h, s) ← parsepipe buf es n h s;
  '(cmd, h, s) ← parseback buf es n h cmd s;
  '(b, s) ← peek buf es s (lit ";");
  if b : bool then
    '(_, _, _, s) ← gettoken buf es s;
    '(rcmd, h, s) ← parseline buf es n h s;
    let '(cmd, h) := listcmd h cmd rcmd in Good (cmd, h, s)
  else Good (cmd, h, s).
Proof. done. Qed.

Lemma parsepipe_S n h s : parsepipe buf es (S n) h s =
  '(cmd, h, s) ← parseexec buf es n h s;
  '(b, s) ← peek buf es s (lit "|");
  if b : bool then
    '(_, _, _, s) ← gettoken buf es s;
    '(rcmd, h, s) ← parsepipe buf es n h s;
    let '(cmd, h) := pipecmd h cmd rcmd in Good (cmd, h, s)
  else Good (cmd, h, s).
Proof. done. Qed.

Lemma parseblock_S n h s : parseblock buf es (S n) h s =
  '(b, s) ← peek buf es s (lit "(");
  if negb b then panic "parseblock" else
  '(_, _, _, s) ← gettoken buf es s;
  '(cmd, h, s) ← parseline buf es n h s;
  '(b, s) ← peek buf es s (lit ")");
  if negb b then panic "syntax - missing )" else
  '(_, _, _, s) ← gettoken buf es s;
  parseredirs buf es n h cmd s.
Proof. done. Qed.

Lemma parseexec_S n h s : parseexec buf es (S n) h s =
  '(b, s) ← peek buf es s (lit "(");
  if b : bool then parseblock buf es n h s else
  let '(cmd, h) := execcmd h in
  '(r, h, s) ← parseredirs buf es n h cmd s;
  parseargs buf es n h cmd r O s.
Proof. done. Qed.

(** A block with redirections, given that lines are read back. *)
Lemma parseblock_toks n a rs s ts h :
  reads (parseline buf es n) t_line [41] (λ s, 4 * (es - s) + 4 <= n)%nat ->
  cmd_ok a -> at_toks s (parens (t_line (print a)) ++ redirs_tokens rs ++ ts) -> next_in [124; 41; 38; 59] ts ->
  (4 * (es - s) <= n)%nat ->
  ∃ c ext s', parseblock buf es (S n) h s = Good (c, h ++ ext, s') ∧ at_toks s' ts ∧
    repr slice (h ++ ext) c (redirect a rs) ∧ (c < length (h ++ ext))%nat ∧ (s <= s')%nat.
Proof.
  intros IH Hok Hat Hts Hn. unfold parens in Hat. cbn [app] in Hat. rewrite <- app_assoc in Hat. cbn [app] in Hat.
  rewrite parseblock_S, (peek_toks _ _ _ _ _ _ Hat). cbn [mbind pres_bind].
  change (negb (has (lit "(") (token_head (T_sym 40)))) with false. cbn iota.
  rewrite (gettoken_toks _ _ _ _ _ _ Hat). cbn [mbind pres_bind].
  destruct (at_toks_next _ _ _ _ _ _ Hat) as (Hat1 & _ & Hle). cbn [token_text length] in Hat1, Hle |- *.
  destruct (IH a (s + 1 + 1)%nat _ h Hok Hat1) as (c & ext & s1 & Hp & Hat2 & Hr & Hc & Hs1).
  { exists 41. split; [done|]. by left. } { lia. }
  rewrite Hp. cbn [mbind pres_bind]. rewrite (peek_toks _ _ _ _ _ _ Hat2). cbn [mbind pres_bind].
  change (negb (has (lit ")") (token_head (T_sym 41)))) with false. cbn iota.
  rewrite (gettoken_toks _ _ _ _ _ _ Hat2). cbn [mbind pres_bind].
  destruct (at_toks_next _ _ _ _ _ _ Hat2) as (Hat3 & _ & Hle3). cbn [token_text length] in Hat3, Hle3 |- *.
  destruct (parseredirs_toks n (h ++ ext) c _ rs ts Hat3) as (d & ext2 & s' & Hp2 & Hat4 & Hrd & Hd & Hss).
  { by eapply next_not_redir. } { done. } { lia. }
  exists d, (ext ++ ext2), s'. rewrite app_assoc. split_and!; try done; [|lia].
  eapply repr_redirs; [exact Hrd|]. by apply repr_app.
Qed.

(** Two commands joined by a symbol: [c1] is read, then the symbol, then [c2]. *)
Lemma read_symbol toks c s ts :
  at_toks s (T_sym c :: ts) -> has toks c = true ->
  peek buf es s toks = Good (true, s) ∧ gettoken buf es s = Good (c, s, s + 1, s + 1 + 1)%nat ∧
  at_toks (s + 1 + 1) ts ∧ (s + 1 + 1 <= es)%nat.
Proof.
  intros Hat Hc. rewrite (peek_toks _ _ _ _ _ _ Hat), (gettoken_toks _ _ _ _ _ _ Hat).
  unfold token_head. cbn [token_text head from_option id]. rewrite Hc.
  destruct (at_toks_next _ _ _ _ _ _ Hat) as (H1 & _ & H2). done.
Qed.

Lemma peek_not toks cs s ts :
  at_toks s ts -> next_in cs ts -> Forall (λ c, has toks c = false) cs ->
  peek buf es s toks = Good (false, s).
Proof.
  intros Hat Hts Hcs. rewrite (peek_toks _ _ _ _ _ _ Hat). destruct ts as [|t ts]; [done|].
  destruct Hts as (c & -> & Hc). rewrite Forall_forall in Hcs. by rewrite (Hcs c Hc : has toks (token_head (T_sym c)) = false).
Qed.

Lemma parser_reads n :
  reads (parseline buf es n) t_line [41] (λ s, 4 * (es - s) + 4 <= n)%nat ∧
  reads (parsepipe buf es n) t_pipe [41; 38; 59] (λ s, 4 * (es - s) + 3 <= n)%nat ∧
  reads (parseexec buf es n) t_exec [124; 41; 38; 59] (λ s, 4 * (es - s) + 2 <= n)%nat ∧
  (∀ m, n = S m -> reads (parseline buf es m) t_line [41] (λ s, 4 * (es - s) + 4 <= m)%nat).
Proof.
  induction n as [|n (IHl & IHp & IHe & IHm)].
  { split_and!; try (intros a s ts h _ _ _ Hn; lia). done. }
  split_and!.
  - intros a s ts h Hok Hat Hts Hn. rewrite parseline_S.
    assert (Hback : ∀ b ts, cmd_ok b -> at_toks s (t_back (print b) ++ ts) -> next_in [41; 59] ts ->
      ∃ c ext s' h1 c1 s1, parsepipe buf es n h s = Good (c1, h1, s1) ∧
        parseback buf es n h1 c1 s1 = Good (c, h ++ ext, s') ∧ at_toks s' ts ∧
        repr slice (h ++ ext) c b ∧ (c < length (h ++ ext))%nat ∧ (s <= s')%nat).
    { intros b ts0 Hb Hatb Htsb. destruct (back_level b Hb) as (core & k & -> & Hcore & Etk).
      rewrite Etk, <- app_assoc in Hatb.
      destruct (IHp core s _ h Hcore Hatb) as (c1 & ext & s1 & Hp & Hat1 & Hr & Hc & Hs1).
      { destruct k; [|exists 38; split; [done|set_solver]]. eapply next_in_weaken; [|exact Htsb]. set_solver. }
      { lia. }
      destruct (parseback_toks n (h ++ ext) c1 s1 k ts0 core Hat1 Htsb Hc ltac:(lia) Hr)
        as (c & ext2 & s' & Hpb & Hat2 & Hr2 & Hc2 & Hs2).
      exists c, (ext ++ ext2), s', (h ++ ext), c1, s1. rewrite app_assoc. split_and!; try done. lia. }
    destruct (line_level a) as [(l & r & ->)|E].
    + destruct Hok as [Hl Hr]. cbn [print t_line] in Hat. rewrite <- app_assoc in Hat. cbn [app] in Hat.
      destruct (Hback l _ Hl Hat) as (c & ext & s' & h1 & c1 & s1 & -> & Hpb & Hat1 & Hrl & Hc & Hs1).
      { exists 59. split; [done|set_solver]. }
      cbn [mbind pres_bind]. rewrite Hpb. cbn [mbind pres_bind].
      destruct (read_symbol (lit ";") 59 s' _ Hat1 eq_refl) as (Epk & Egt & Hat2 & Hle).
      rewrite Epk. cbn [mbind pres_bind]. rewrite Egt. cbn [mbind pres_bind].
      destruct (IHl r _ ts (h ++ ext) Hr Hat2 Hts) as (c2 & ext2 & s2 & -> & Hat3 & Hrr & Hc2 & Hs2); [lia|].
      cbn [mbind pres_bind]. unfold listcmd, alloc. cbn beta iota. rewrite <- !app_assoc.
      eexists _, _, s2. split; [done|]. split_and!; [done| |rewrite !length_app; simpl; lia|lia].
      rewrite !app_assoc. eapply repr_seq; [|apply repr_app; by apply repr_app|by apply repr_app].
      by rewrite lookup_app_r, Nat.sub_diag by lia.
    + rewrite E in Hat. destruct (Hback a ts Hok Hat) as (c & ext & s' & h1 & c1 & s1 & -> & Hpb & Hat1 & Hrl & Hc & Hs1).
      { eapply next_in_weaken; [|exact Hts]. set_solver. }
      cbn [mbind pres_bind]. rewrite Hpb. cbn [mbind pres_bind].
      rewrite (peek_not (lit ";") [41] s' ts Hat1 Hts) by (by repeat constructor). cbn [mbind pres_bind].
      exists c, ext, s'. done.
  - intros a s ts h Hok Hat Hts Hn. rewrite parsepipe_S. destruct (pipe_level a) as [(l & r & ->)|E].
    + destruct Hok as [Hl Hr]. cbn [print t_pipe] in Hat. rewrite <- app_assoc in Hat. cbn [app] in Hat.
      destruct (IHe l s _ h Hl Hat) as (c & ext & s' & -> & Hat1 & Hrl & Hc & Hs1).
      { exists 124. split; [done|set_solver]. } { lia. }
      cbn [mbind pres_bind].
      destruct (read_symbol (lit "|") 124 s' _ Hat1 eq_refl) as (Epk & Egt & Hat2 & Hle).
      rewrite Epk. cbn [mbind pres_bind]. rewrite Egt. cbn [mbind pres_bind].
      destruct (IHp r _ ts (h ++ ext) Hr Hat2 Hts) as (c2 & ext2 & s2 & -> & Hat3 & Hrr & Hc2 & Hs2); [lia|].
      cbn [mbind pres_bind]. unfold pipecmd, alloc. cbn beta iota. rewrite <- !app_assoc.
      eexists _, _, s2. split; [done|]. split_and!; [done| |rewrite !length_app; simpl; lia|lia].
      rewrite !app_assoc. eapply repr_pipe; [|apply repr_app; by apply repr_app|by apply repr_app].
      by rewrite lookup_app_r, Nat.sub_diag by lia.
    + rewrite E in Hat. destruct (IHe a s ts h Hok Hat) as (c & ext & s' & -> & Hat1 & Hrl & Hc & Hs1).
      { eapply next_in_weaken; [|exact Hts]. set_solver. } { lia. }
      cbn [mbind pres_bind].
      rewrite (peek_not (lit "|") [41; 38; 59] s' ts Hat1 Hts) by (by repeat constructor). cbn [mbind pres_bind].
      exists c, ext, s'. done.
  - intros a s ts h Hok Hat Hts Hn. destruct (exec_level a Hok) as (core & rs & -> & Hcore & E & Hkind).
    rewrite E, <- app_assoc in Hat. destruct Hkind as [[argv ->]|Ep].
    + destruct Hcore as [Hlen Hw]. apply parseexec_words; try done. lia.
    + rewrite Ep in Hat. rewrite parseexec_S.
      pose proof Hat as Hat0. unfold parens in Hat0. cbn [app] in Hat0.
      destruct (read_symbol (lit "(") 40 s _ Hat0 eq_refl) as (-> & _ & _ & Hle). cbn [mbind pres_bind].
      destruct n as [|m]; [lia|]. apply parseblock_toks; try done; [by apply IHm|lia].
  - intros m [= <-]. done.
Qed.
End parser.

(** ** The strings are terminated *)

Lemma repr_mono (S S' : nat -> nat -> list Z -> Prop) h i a :
  (∀ q e w, S q e w -> S' q e w) -> repr S h i a -> repr S' h i a.
Proof.
  intros HS. induction 1 as [i l argv Hi Hl Hf|i c q e k f a Hi Hq _ IH| | |].
  - eapply repr_exec; [exact Hi|done|]. eapply Forall2_impl; [exact Hf|]. auto.
  - eapply repr_redir; [exact Hi|auto|done].
  - by eapply repr_pipe.
  - by eapply repr_seq.
  - by eapply repr_back.
Qed.

Section terminated.
Context (buf : list Z) (es : nat) (Hes : (es < length buf)%nat).

(** [b] is the line with some characters that are not part of a word cleared. *)
Definition cut (b : list Z) : Prop :=
  length b = length buf ∧
  ∀ i, b !! i = buf !! i ∨ (b !! i = Some 0 ∧ ∃ x, buf !! i = Some x ∧ ~ word_char x).

(** The string from [q] to [e] with its end cleared. *)
Definition ended (b : list Z) (q e : nat) (w : list Z) : Prop := slice buf es q e w ∧ b !! e = Some 0.

Definition zeros_kept (b b' : list Z) : Prop := ∀ i, b !! i = Some 0 -> b' !! i = Some 0.

Lemma cut_clear b q e w :
  cut b -> slice buf es q e w ->
  put b e 0 = Some (<[e := 0]> b) ∧ cut (<[e := 0]> b) ∧ zeros_kept b (<[e := 0]> b) ∧
  <[e := 0]> b !! e = Some 0.
Proof.
  intros [Hl Hc] (Hqe & _ & _ & Hx). assert (He : (e < length b)%nat) by lia.
  split_and!; [by apply put_ok| | |by apply list_lookup_insert_eq].
  - split; [by rewrite length_insert|]. intros i. destruct (decide (e = i)) as [<-|Hne].
    + right. by rewrite list_lookup_insert_eq.
    + rewrite list_lookup_insert_ne by done. apply Hc.
  - intros i Hi. destruct (decide (e = i)) as [<-|Hne]; [by apply list_lookup_insert_eq|].
    by rewrite list_lookup_insert_ne.
Qed.

Lemma terminate_ended l argv b :
  cut b -> Forall2 (λ x w, slice buf es x.1 x.2 w) l argv ->
  cut (terminate l b) ∧ zeros_kept b (terminate l b) ∧
  Forall2 (λ x w, ended (terminate l b) x.1 x.2 w) l argv.
Proof.
  intros Hb Hf. revert b Hb. induction Hf as [|x w l argv Hx Hf IH]; intros b Hb.
  { split_and!; [done|by intros i|constructor]. }
  destruct (cut_clear b x.1 x.2 w Hb Hx) as (_ & Hb1 & Hz1 & He1).
  destruct (IH _ Hb1) as (H1 & H2 & H3). change (terminate (x :: l) b) with (terminate l (<[x.2 := 0]> b)).
  split_and!; [done| |].
  - intros i Hi. by apply H2, Hz1.
  - constructor; [|done]. split; [done|]. by apply H2.
Qed.

Lemma nulterminate_ended n h c a b :
  store_ok es h -> repr (slice buf es) h c a -> (c < n)%nat -> cut b ->
  ∃ b', nulterminate n h c b = Good b' ∧ cut b' ∧ zeros_kept b b' ∧ repr (ended b') h c a.
Proof.
  intros Hh. revert c a b. induction n as [|n IH]; intros c a b Ha Hc Hb; [lia|].
  assert (Hkeep : ∀ b1 b2 i x, zeros_kept b1 b2 -> repr (ended b1) h i x -> repr (ended b2) h i x).
  { intros b1 b2 i x Hz. apply repr_mono. intros q e w [Hs He]. split; [done|by apply Hz]. }
  assert (Htrans : ∀ b1 b2 b3, zeros_kept b1 b2 -> zeros_kept b2 b3 -> zeros_kept b1 b3).
  { intros b1 b2 b3 H1 H2 i Hi. by apply H2, H1. }
  cbn [nulterminate]. destruct Ha as [i l argv Hi Hlen Hf|i c q e k f a Hi Hq Ha|i l r x y Hi Hx Hy|i l r x y Hi Hx Hy|i c a Hi Ha];
    rewrite Hi; cbn [deref mbind pres_bind]; pose proof (Hh _ _ Hi) as Hok; cbn [node_ok] in Hok.
  - destruct (terminate_ended l argv b Hb Hf) as (H1 & H2 & H3). exists (terminate l b).
    split_and!; [|done|done|by eapply repr_exec].
    assert (Hin : Forall (λ x, x.1 <= x.2 <= es)%nat l).
    { apply Forall_forall. intros x Hx. apply list_elem_of_lookup in Hx as [j Hj].
      destruct (Forall2_lookup_l _ _ _ _ _ Hf Hj) as (w & _ & Hs & _). lia. }
    unfold exec_node. apply (nul_args_ok es); [done|destruct Hb; lia|].
    rewrite (Forall2_length _ _ _ Hf). lia.
  - destruct Hok as [Hci _]. destruct (IH c a b Ha ltac:(lia) Hb) as (b1 & -> & H1 & H2 & H3).
    cbn [mbind pres_bind]. destruct (cut_clear b1 q e f H1 Hq) as (-> & H4 & H5 & H6).
    eexists. split; [done|]. split_and!; [done|by eapply Htrans|].
    eapply repr_redir; [exact Hi|by split|]. by eapply Hkeep.
  - destruct Hok as [H1 H2]. destruct (IH l x b Hx ltac:(lia) Hb) as (b1 & -> & G1 & G2 & G3).
    cbn [mbind pres_bind]. destruct (IH r y b1 Hy ltac:(lia) G1) as (b2 & -> & K1 & K2 & K3).
    eexists. split; [done|]. split_and!; [done|by eapply Htrans|].
    eapply repr_pipe; [exact Hi|by eapply Hkeep|done].
  - destruct Hok as [H1 H2]. destruct (IH l x b Hx ltac:(lia) Hb) as (b1 & -> & G1 & G2 & G3).
    cbn [mbind pres_bind]. destruct (IH r y b1 Hy ltac:(lia) G1) as (b2 & -> & K1 & K2 & K3).
    eexists. split; [done|]. split_and!; [done|by eapply Htrans|].
    eapply repr_seq; [exact Hi|by eapply Hkeep|done].
  - destruct (IH c a b Ha ltac:(lia) Hb) as (b1 & -> & G1 & G2 & G3).
    eexists. split; [done|]. split_and!; [done|done|]. by eapply repr_back.
Qed.

(** A string whose end is cleared is a C string. *)
Lemma ended_string b q e w : cut b -> ended b q e w -> ucstr (drop q b) = Some w.
Proof.
  intros [Hl Hc] [(Hqe & Hw & Hchars & _) He].
  assert (Hlen : length w = (e - q)%nat) by (rewrite <- Hw, length_take, length_drop; lia).
  assert (E : drop q b = w ++ 0 :: drop (S e) b).
  { apply list_eq. intros i. rewrite lookup_drop. destruct (Nat.lt_trichotomy i (length w)) as [Hi|[Hi|Hi]].
    - rewrite lookup_app_l by done. destruct (lookup_lt_is_Some_2 w i Hi) as [x Hx]. rewrite Hx.
      assert (Hbx : buf !! (q + i)%nat = Some x).
      { rewrite <- lookup_drop, <- Hx, <- Hw, lookup_take_lt by lia. done. }
      destruct (Hc (q + i)%nat) as [->|(_ & y & Hy & Hny)]; [done|]. rewrite Hbx in Hy. injection Hy as <-.
      by apply (proj1 (Forall_lookup _ _) Hchars) in Hx.
    - rewrite lookup_app_r, Hi, Nat.sub_diag by lia. by replace (q + length w)%nat with e by lia.
    - rewrite lookup_app_r by lia. destruct (i - length w)%nat as [|j] eqn:Ej; [lia|]. simpl.
      rewrite lookup_drop. f_equal. lia. }
  rewrite E. apply ucstr_ok. eapply Forall_impl; [exact Hchars|]. by intros x (? & _).
Qed.
End terminated.

(** ** The theorem *)

Lemma print_ok a :
  cmd_ok a -> Forall token_ok (t_line (print a)) ∧ Forall token_ok (t_back (print a)) ∧
    Forall token_ok (t_pipe (print a)) ∧ Forall token_ok (t_exec (print a)).
Proof.
  assert (Hsym : ∀ c, c ∈ [124; 40; 41; 59; 38; 60; 62] -> token_ok (T_sym c)) by done.
  assert (Hpar : ∀ ts, Forall token_ok ts -> Forall token_ok (parens ts)).
  { intros ts H. constructor; [by apply Hsym; set_solver|]. apply Forall_app. split; [done|].
    constructor; [by apply Hsym; set_solver|constructor]. }
  induction a as [argv|c IH k f|l IHl r IHr|l IHl r IHr|c IH]; intros Hok; cbn [print t_line t_back t_pipe t_exec].
  - assert (Forall token_ok (T_word <$> argv)); [|done]. apply Forall_fmap. apply Hok.
  - destruct Hok as [Hc Hf]. destruct (IH Hc) as (_ & _ & _ & H4).
    assert (Forall token_ok (t_exec (print c) ++ redir_tokens k f)); [|done]. apply Forall_app. split; [done|].
    constructor; [destruct k; [apply Hsym; set_solver|apply Hsym; set_solver|done]|by constructor].
  - destruct Hok as [Hl Hr]. destruct (IHl Hl) as (_ & _ & _ & H4). destruct (IHr Hr) as (_ & _ & H3 & _).
    assert (H : Forall token_ok (t_exec (print l) ++ T_sym 124 :: t_pipe (print r))).
    { apply Forall_app. split; [done|]. constructor; [apply Hsym; set_solver|done]. }
    split_and!; try done. by apply Hpar.
  - destruct Hok as [Hl Hr]. destruct (IHl Hl) as (_ & H2 & _). destruct (IHr Hr) as (H1 & _).
    assert (H : Forall token_ok (t_back (print l) ++ T_sym 59 :: t_line (print r))).
    { apply Forall_app. split; [done|]. constructor; [apply Hsym; set_solver|done]. }
    split_and!; try done; by apply Hpar.
  - destruct (IH Hok) as (_ & H2 & _).
    assert (H : Forall token_ok (t_back (print c) ++ [T_sym 38])).
    { apply Forall_app. split; [done|]. constructor; [apply Hsym; set_solver|constructor]. }
    split_and!; try done; by apply Hpar.
Qed.

Lemma line_no_nul ts : Forall token_ok ts -> Forall (λ c, c <> 0) (line_of ts).
Proof.
  induction 1 as [|t ts Ht Hts IH]; [constructor|]. rewrite line_of_cons. apply Forall_app. split; [|by constructor].
  destruct t as [w|c|]; simpl in *.
  - destruct Ht as [_ Hw]. eapply Forall_impl; [exact Hw|]. by intros x (? & _).
  - constructor; [|constructor]. set_unfold in Ht. naive_solver.
  - by repeat constructor.
Qed.

(** C13: parsing inverts printing: for every command tree whose arguments and
    file names are words, parsecmd() on the line it is written as (with any
    bytes after the NUL) returns nodes that represent the tree, and in the
    buffer it returns every argument and file name is a NUL-terminated string. *)
Theorem parse_print (a : cmd) (junk : list Z) :
  cmd_ok a ->
  ∃ c h buf, parse (print_line a ++ 0 :: junk) = Good (c, h, buf) ∧
    repr (λ q e w, ucstr (drop q buf) = Some w) h c a.
Proof.
  intros Hok. set (line := print_line a). set (buf := line ++ 0 :: junk). set (es := length line).
  destruct (print_ok a Hok) as (Htok & _). pose proof (line_no_nul _ Htok) as Hnn.
  assert (Hes : strlen buf = Some es) by (by apply strlen_ok).
  assert (Hat : at_toks buf junk es 0 (t_line (print a) ++ [])) by (rewrite app_nil_r; by split_and!).
  assert (H0 : store_ok es []) by (intros i n Hi; by rewrite lookup_nil in Hi).
  destruct (proj1 (parser_reads buf junk es (depth es)) a 0%nat [] [] Hok Hat) as (c & h & s & Hp & Hat' & Hr & Hc & _);
    [done|unfold depth; lia|].
  pose proof (proj1 (parser_ok buf es Hes (depth es)) [] O H0 ltac:(lia) ltac:(unfold depth; lia)) as Hst.
  cbn [app] in *. rewrite Hp in Hst. destruct Hst as (Hst & _).
  destruct (at_toks_end _ _ _ _ Hat') as [_ ->].
  unfold parse. rewrite Hes. cbn [deref mbind pres_bind]. rewrite Hp. cbn [mbind pres_bind].
  rewrite (peek_toks _ _ _ _ _ _ Hat'). cbn [mbind pres_bind]. rewrite Nat.eqb_refl. cbn [negb].
  assert (Hlen : (es < length buf)%nat) by (unfold buf; rewrite length_app; simpl; lia).
  destruct (nulterminate_ended buf es Hlen (length h) h c a buf Hst Hr Hc) as (b & -> & Hcut & _ & Hend).
  { split; [done|]. intros i. by left. }
  cbn [mbind pres_bind]. exists c, h, b. split; [done|]. eapply repr_mono; [|exact Hend].
  intros q e w. by apply ended_string.
Qed.

Lemma parse_print_witness :
  let a := Seq (Back (Pipe (Redir (Exec [chars "ls"; chars "-l"]) R_out (chars "f"))
                           (Seq (Exec [chars "wc"]) (Exec [])))) (Exec [chars "echo"; chars "hi"]) in
  ∃ c h buf, parse (print_line a ++ [0]) = Good (c, h, buf) ∧
    repr (λ q e w, ucstr (drop q buf) = Some w) h c a.
Proof.
  intros a. refine (parse_print a [] _). subst a. cbn.
  repeat (split; try done); repeat (constructor; try done).
Defined.

