(* ===== verification/Mkfs.v ===== *)
(** * mkfs/mkfs.c: the program that builds the file-system image

    mkfs runs on the host, taken to be little-endian.  Its state is the image
    file, a sequence of sectors of BSIZE bytes, and its global variables.  The
    structures on the disk are those of the kernel (Fs.v).  A run returns
    ([Fine]), ends in die() ([Died], with the argument) or in a failing
    assert() ([Aborted]).  lseek() and write() on the image succeed; a read past
    its end returns 0 bytes.  What is printed on stdout is left out. *)

From Stdlib Require Import ZArith Lia.
From stdpp Require Import base numbers list gmap strings.
From S2P Require Import Prelude Machine Kernel Strings Virtio Fs.
Close Scope kernel_scope.

Record mkfs := MkMkfs {
  m_img : list (list Z);      (* the file fsfd *)
  m_sb : superblock;
  m_freeinode : Z;
  m_freeblock : Z
}.
#[global] Instance eta_mkfs : Eta mkfs := λ r,
  MkMkfs (m_img r) (m_sb r) (m_freeinode r) (m_freeblock r).

Inductive result (A : Type) := Fine (a : A) | Died (msg : list Z) | Aborted | OutOfRounds.
Arguments Fine {A} a.
Arguments Died {A} msg.
Arguments Aborted {A}.
Arguments OutOfRounds {A}.

Definition M (A : Type) : Type := mkfs -> result (A * mkfs).
#[global] Instance M_ret : MRet M := λ A a s, Fine (a, s).
#[global] Instance M_bind : MBind M := λ A B f m s,
  match m s with
  | Fine (a, s) => f a s
  | Died msg => Died msg
  | Aborted => Aborted
  | OutOfRounds => OutOfRounds
  end.
Definition die {A} (msg : list Z) : M A := λ _, Died msg.
Definition assert_ (b : bool) : M unit := λ s, if b then Fine (tt, s) else Aborted.
Definition get {A} (f : mkfs -> A) : M A := λ s, Fine (f s, s).
Definition set_ (f : mkfs -> mkfs) : M unit := λ s, Fine (tt, f s).

(** What mkfs finds on the host: whether the image can be created, and for
    each input file the pieces in which read() returns it. *)
Record host := Host {
  h_create : list Z -> bool;
  h_file : list Z -> option (list (list Z))
}.

Definition NINODES : Z := 200.
Definition nbitmap : Z := FSSIZE / (BSIZE * 8) + 1.
Definition ninodeblocks : Z := NINODES / IPB + 1.
Definition nlog : Z := LOGSIZE.
Definition zeroes : list Z := replicate (Z.to_nat BSIZE) 0.

(** The uint (or ushort) whose bytes in memory are those given. *)
Definition xshort (x : Z) : Z := le_val [u8 x; u8 (Z.shiftr x 8)].
Definition xint (x : Z) : Z :=
  le_val [u8 x; u8 (Z.shiftr x 8); u8 (Z.shiftr x 16); u8 (Z.shiftr x 24)].

(** ** Sectors *)

(** The sector at the file offset [sec * BSIZE], a uint. *)
Definition sector (sec : Z) : nat := Z.to_nat (u32 (sec * BSIZE) / BSIZE).

(** Writing past the end of the file fills the gap with zeroes. *)
Definition put_sector (i : nat) (b : list Z) (img : list (list Z)) : list (list Z) :=
  if decide (i < length img)%nat then <[i := b]> img
  else img ++ replicate (i - length img) zeroes ++ [b].

Definition wsect (sec : Z) (buf : list Z) : M unit :=
  set_ (λ s, s <| m_img ::= put_sector (sector sec) buf |>).

Definition rsect (sec : Z) : M (list Z) :=
  img ← get m_img;
  match img !! sector sec with Some b => mret b | None => die (chars "read") end.

(** ** Inodes *)

Definition winode (inum : Z) (ip : dinode) : M unit :=
  sb ← get m_sb;
  let bn := IBLOCK inum sb in
  buf ← rsect bn;
  wsect bn (put_dinode (inum mod IPB) ip buf).

Definition rinode (inum : Z) : M dinode :=
  sb ← get m_sb;
  buf ← rsect (IBLOCK inum sb);
  mret (get_dinode (inum mod IPB) buf).

Definition ialloc (type : Z) : M Z :=
  inum ← get m_freeinode;
  set_ (λ s, s <| m_freeinode := u32 (inum + 1) |>);;
  winode inum (Dinode (i16 (xshort type)) 0 0 (i16 (xshort 1)) (xint 0) (replicate 13 0));;
  mret inum.

(** [freeblock++] *)
Definition next_block : M Z :=
  b ← get m_freeblock;
  set_ (λ s, s <| m_freeblock := u32 (b + 1) |>);;
  mret b.

(** The block [x] of the file that holds its block [fbn], allocated if there
    is none yet. *)
Definition iappend_block (din : dinode) (fbn : Z) : M (dinode * Z) :=
  if fbn <? NDIRECT then
    din ← (if xint (aget (d_addrs din) fbn) =? 0 then
             b ← next_block;
             mret (din <| d_addrs ::= λ a, aset a fbn (xint b) |>)
           else mret din);
    mret (din, xint (aget (d_addrs din) fbn))
  else
    din ← (if xint (aget (d_addrs din) NDIRECT) =? 0 then
             b ← next_block;
             mret (din <| d_addrs ::= λ a, aset a NDIRECT (xint b) |>)
           else mret din);
    let ib := xint (aget (d_addrs din) NDIRECT) in
    indirect ← rsect ib;
    indirect ← (if get_addr (fbn - NDIRECT) indirect =? 0 then
                  b ← next_block;
                  let indirect := set_addr (fbn - NDIRECT) (xint b) indirect in
                  wsect ib indirect;;
                  mret indirect
                else mret indirect);
    mret (din, xint (get_addr (fbn - NDIRECT) indirect)).

(** The loop of iappend(), with [n] the length of what is left of [p]; each
    round takes at least one byte. *)
Fixpoint iappend_loop (rounds : nat) (din : dinode) (off : Z) (p : list Z) : M (dinode * Z) :=
  let n := Z.of_nat (length p) in
  if negb (0 <? n) then mret (din, off) else
  match rounds with
  | O => λ _, OutOfRounds
  | S rounds =>
      let fbn := off / BSIZE in
      assert_ (fbn <? MAXFILE);;
      '(din, x) ← iappend_block din fbn;
      let n1 := Z.min n (u32 ((fbn + 1) * BSIZE - off)) in
      buf ← rsect x;
      wsect x (splice (off - fbn * BSIZE) (take (Z.to_nat n1) p) buf);;
      iappend_loop rounds din (u32 (off + n1)) (drop (Z.to_nat n1) p)
  end.

Definition iappend (inum : Z) (p : list Z) : M unit :=
  din ← rinode inum;
  '(din, off) ← iappend_loop (length p) din (xint (d_size din)) p;
  winode inum (din <| d_size := xint off |>).

Definition balloc (used : Z) : M unit :=
  assert_ (used <? BSIZE * 8);;
  sb ← get m_sb;
  wsect (sb_bmapstart sb)
    (foldl (λ buf i, set_bit i buf) zeroes (zrange 0 (Z.to_nat used))).

(** ** main() *)

(** [struct dirent] with [de.inum = xshort(inum)] and a name of 14 bytes. *)
Definition dirent_bytes (inum : Z) (name : list Z) : list Z := le_bytes 2 (xshort (u16 inum)) ++ name.

(** strcpy() of a literal, and strncpy(), into a name cleared by bzero() *)
Definition put_name (s : list Z) : list Z :=
  take (Z.to_nat DIRSIZ) s ++ replicate (Z.to_nat DIRSIZ - length s) 0.

(** The name of a file: without "user/" and a leading underscore; [None] if the
    rest has a slash. *)
Definition strip_user (path : list Z) : list Z :=
  if bool_decide (take 5 path = chars "user/") then drop 5 path else path.
Definition strip_underscore (s : list Z) : list Z :=
  match s with 95 :: s => s | _ => s end.

Fixpoint append_all (inum : Z) (chunks : list (list Z)) : M unit :=
  match chunks with
  | [] => mret tt
  | c :: chunks => iappend inum c;; append_all inum chunks
  end.

Definition add_file (h : host) (rootino : Z) (path : list Z) : M unit :=
  let shortname := strip_user path in
  assert_ (negb (bool_decide (47 ∈ shortname)));;
  match h_file h path with
  | None => die path
  | Some chunks =>
      let shortname := strip_underscore shortname in
      inum ← ialloc T_FILE;
      iappend rootino (dirent_bytes inum (put_name shortname));;
      append_all inum chunks
  end.

Fixpoint add_files (h : host) (rootino : Z) (paths : list (list Z)) : M unit :=
  match paths with
  | [] => mret tt
  | p :: paths => add_file h rootino p;; add_files h rootino paths
  end.

Fixpoint clear_sectors (l : list Z) : M unit :=
  match l with
  | [] => mret tt
  | i :: l => wsect i zeroes;; clear_sectors l
  end.

Definition make_sb : superblock :=
  let nmeta := 2 + nlog + ninodeblocks + nbitmap in
  let nblocks := FSSIZE - nmeta in
  Superblock FSMAGIC (xint FSSIZE) (xint nblocks) (xint NINODES) (xint nlog) (xint 2)
    (xint (2 + nlog)) (xint (2 + nlog + ninodeblocks)).

Definition sb_bytes (sb : superblock) : list Z :=
  le_bytes 4 (sb_magic sb) ++ le_bytes 4 (sb_size sb) ++ le_bytes 4 (sb_nblocks sb)
  ++ le_bytes 4 (sb_ninodes sb) ++ le_bytes 4 (sb_nlog sb) ++ le_bytes 4 (sb_logstart sb)
  ++ le_bytes 4 (sb_inodestart sb) ++ le_bytes 4 (sb_bmapstart sb).

(** "fix size of root inode dir" *)
Definition fix_root (rootino : Z) : M unit :=
  din ← rinode rootino;
  let off := xint (d_size din) in
  let off := u32 ((off / BSIZE + 1) * BSIZE) in
  winode rootino (din <| d_size := xint off |>).

(** main() after the checks of its arguments. *)
Definition build (h : host) (image : list Z) (files : list (list Z)) : M unit :=
  assert_ (BSIZE mod 64 =? 0);;
  assert_ (BSIZE mod 16 =? 0);;
  if negb (h_create h image) then die image else
  set_ (λ s, s <| m_img := [] |> <| m_sb := make_sb |>);;
  set_ (λ s, s <| m_freeblock := 2 + nlog + ninodeblocks + nbitmap |>);;
  clear_sectors (zrange 0 (Z.to_nat FSSIZE));;
  wsect 1 (splice 0 (sb_bytes make_sb) zeroes);;
  rootino ← ialloc T_DIR;
  assert_ (rootino =? ROOTINO);;
  iappend rootino (dirent_bytes rootino (put_name (chars ".")));;
  iappend rootino (dirent_bytes rootino (put_name (chars "..")));;
  add_files h rootino files;;
  fix_root rootino;;
  b ← get m_freeblock;
  balloc (i32 b).

(** The initial values of the global variables. *)
Definition start_mkfs : mkfs := MkMkfs [] (Superblock 0 0 0 0 0 0 0 0) 1 0.

Definition main (h : host) (argv : list (list Z)) : result (unit * mkfs) :=
  match argv with
  | _ :: image :: files => build h image files start_mkfs
  | _ => Died (chars "Usage: mkfs fs.img files...")
  end.
