(* ===== verification/MkfsSpec.v ===== *)
(** * The image mkfs writes

    Each file mkfs is writing is described by its contents and the blocks
    that hold them ([afile]); [data_part] relates that description to the data
    blocks of the image, [inode_part] to the inode blocks.  iappend() is shown
    to append to the contents, and main() to end with an image that holds
    the files it was given. *)

From Stdlib Require Import ZArith Lia.
From stdpp Require Import base numbers list gmap strings.
From S2P Require Import Prelude Machine Kernel Strings Virtio Fs FsSpec FsView Mkfs.
Close Scope kernel_scope.

(** ** Integers and sectors *)

Lemma shiftr_bytes x k : 0 <= k -> Z.shiftr x k = x / 2 ^ k.
Proof. apply Z.shiftr_div_pow2. Qed.

Lemma xint_u32 x : xint x = u32 x.
Proof.
  unfold xint. rewrite !shiftr_bytes by lia.
  assert (E : le_val (le_bytes 4 x) = u32 x) by apply (le_val_bytes 4 x).
  rewrite <- E. cbn [le_bytes]. rewrite !Z.div_div by lia. reflexivity.
Qed.

Lemma xshort_u16 x : xshort x = u16 x.
Proof.
  unfold xshort. rewrite shiftr_bytes by lia.
  assert (E : le_val (le_bytes 2 x) = u16 x) by apply (le_val_bytes 2 x).
  rewrite <- E. reflexivity.
Qed.

Lemma xint_small x : 0 <= x < 2 ^ 32 -> xint x = x.
Proof. intros. rewrite xint_u32. by apply u32_small. Qed.

Lemma sector_small b : 0 <= b < 2 ^ 22 -> sector b = Z.to_nat b.
Proof.
  intros H. unfold sector. change BSIZE with 1024. rewrite u32_small by lia.
  by rewrite Z.div_mul by lia.
Qed.

(** ** Runs *)

Lemma m_bind {A B} (m : M A) (f : A -> M B) s a s' :
  m s = Fine (a, s') -> (m ≫= f) s = f a s'.
Proof. intros H. unfold mbind, M_bind. by rewrite H. Qed.

Lemma m_set {B} g (f : () -> M B) s : (set_ g ≫= f) s = f tt (g s).
Proof. done. Qed.

Lemma m_get {A B} (g : mkfs -> A) (f : A -> M B) s : (get g ≫= f) s = f (g s) s.
Proof. done. Qed.

Lemma m_assert {B} b (f : () -> M B) s : b = true -> (assert_ b ≫= f) s = f tt s.
Proof. by intros ->. Qed.

(** The image with sector [b] replaced. *)
Notation with_sector b x s := (s <| m_img ::= <[Z.to_nat b := x]> |>).

Lemma wsect_ok b x s :
  0 <= b < Z.of_nat (length (m_img s)) -> length (m_img s) = 2000%nat ->
  wsect b x s = Fine (tt, with_sector b x s).
Proof.
  intros H Hl. unfold wsect, set_. rewrite sector_small by lia. do 2 f_equal.
  destruct s as [img sb fi fb]. unfold update. simpl in *. f_equal.
  unfold put_sector. by rewrite decide_True by lia.
Qed.

Lemma rsect_ok b x s :
  0 <= b < 2 ^ 22 -> m_img s !! Z.to_nat b = Some x -> rsect b s = Fine (x, s).
Proof.
  intros H Hx. unfold rsect, get, mbind, M_bind. rewrite sector_small by lia. by rewrite Hx.
Qed.

(** ** Contents in blocks *)

(** The number of blocks for [n] bytes, and with the indirect block. *)
Definition nblk (n : nat) : nat := (n + 1023) / 1024.
Definition cost (n : nat) : Z := Z.of_nat (nblk n) + (if decide (12 < nblk n)%nat then 1 else 0).

(** The first BSIZE bytes of [l], filled up with zeroes; so block [k] of the
    contents [c], and an indirect block. *)
Definition pad (l : list Z) : list Z := take 1024 (l ++ zeroes).
Definition block_of (c : list Z) (k : nat) : list Z := pad (drop (1024 * k) c).
Definition words_block (l : list Z) : list Z := pad (concat (le_bytes 4 <$> l)).

Record afile := Afile {
  f_type : Z;
  f_data : list Z;
  f_blocks : list Z;
  f_ind : Z
}.

Definition used (f : afile) : list Z :=
  f_blocks f ++ (if f_ind f =? 0 then [] else [f_ind f]).

Definition addrs_of (f : afile) : list Z :=
  take 12 (f_blocks f) ++ replicate (12 - length (f_blocks f)) 0 ++ [f_ind f].

Definition dinode_of (f : afile) : dinode :=
  Dinode (f_type f) 0 0 1 (Z.of_nat (length (f_data f))) (addrs_of f).

(** The blocks of one file: as many as its contents need, or one more, still
    empty. *)
Record file_part (img : list (list Z)) (fb : Z) (f : afile) : Prop := {
  fp_range : Forall (λ b, 46 <= b < fb) (used f);
  fp_nodup : NoDup (used f);
  fp_direct : (length (f_blocks f) <= 12)%nat <-> f_ind f = 0;
  fp_data : ∀ k b, f_blocks f !! k = Some b -> img !! Z.to_nat b = Some (block_of (f_data f) k);
  fp_ind : f_ind f <> 0 -> img !! Z.to_nat (f_ind f) = Some (words_block (drop 12 (f_blocks f)))
}.

Record data_part (img : list (list Z)) (fb : Z) (files : list afile) : Prop := {
  dp_len : length img = 2000%nat;
  dp_full : Forall (λ b, length b = 1024%nat) img;
  dp_fb : 46 <= fb <= 2000;
  dp_free : ∀ b, fb <= b < 2000 -> img !! Z.to_nat b = Some zeroes;
  dp_file : ∀ i f, files !! i = Some f -> file_part img fb f;
  dp_apart : ∀ i j f g b, files !! i = Some f -> files !! j = Some g ->
    b ∈ used f -> b ∈ used g -> i = j
}.

(** *** Padded blocks *)

Lemma length_zeroes : length zeroes = 1024%nat.
Proof. apply length_replicate. Qed.

Lemma length_pad l : length (pad l) = 1024%nat.
Proof. unfold pad. rewrite length_take, length_app, length_zeroes. lia. Qed.

Lemma pad_nil : pad [] = zeroes.
Proof. apply take_ge. by rewrite length_zeroes. Qed.

Lemma pad_eq l : (length l <= 1024)%nat -> pad l = l ++ replicate (1024 - length l) 0.
Proof.
  intros H. unfold pad. rewrite take_app_ge by lia. f_equal.
  unfold zeroes. rewrite take_replicate. f_equal. change (Z.to_nat BSIZE) with 1024%nat. lia.
Qed.

Lemma pad_app_ge l r : (1024 <= length l)%nat -> pad (l ++ r) = pad l.
Proof. intros H. unfold pad. by rewrite <- app_assoc, !take_app_le by lia. Qed.

Lemma pad_splice l b :
  (length l + length b <= 1024)%nat -> splice (Z.of_nat (length l)) b (pad l) = pad (l ++ b).
Proof.
  intros H. unfold splice. rewrite Nat2Z.id, !pad_eq by (rewrite ?length_app; lia).
  rewrite take_app_length, <- drop_drop, drop_app_length, drop_replicate, length_app.
  rewrite <- app_assoc. do 3 f_equal. lia.
Qed.

Lemma pad_slice l off n :
  0 <= off -> (Z.to_nat off + n <= length l)%nat -> (Z.to_nat off + n <= 1024)%nat ->
  slice off n (pad l) = slice off n l.
Proof.
  intros H1 H2 H3. unfold slice, pad. apply list_eq. intros i. destruct (decide (i < n)%nat).
  - rewrite !lookup_take_lt, !lookup_drop, lookup_take_lt, lookup_app_l by lia. done.
  - by rewrite !lookup_take_ge by lia.
Qed.

Lemma block_of_end c k : (length c <= 1024 * k)%nat -> block_of c k = zeroes.
Proof. intros H. unfold block_of. by rewrite drop_ge, pad_nil by lia. Qed.

Lemma block_of_app c p k : (1024 * S k <= length c)%nat -> block_of (c ++ p) k = block_of c k.
Proof.
  intros H. unfold block_of. rewrite drop_app_le by lia. apply pad_app_ge. rewrite length_drop. lia.
Qed.

Lemma block_of_append c p k :
  (1024 * k <= length c)%nat -> (length c + length p <= 1024 * S k)%nat ->
  splice (Z.of_nat (length c - 1024 * k)) p (block_of c k) = block_of (c ++ p) k.
Proof.
  intros H1 H2. unfold block_of. rewrite drop_app_le by lia.
  rewrite <- pad_splice by (rewrite length_drop; lia). by rewrite length_drop.
Qed.

(** *** Indirect blocks *)

Lemma length_words l : length (concat (le_bytes 4 <$> l)) = (4 * length l)%nat.
Proof. apply length_concat_le_bytes. Qed.

Lemma words_get l i w :
  (length l <= 256)%nat -> l !! i = Some w -> 0 <= w < 2 ^ 32 ->
  get_addr (Z.of_nat i) (words_block l) = w.
Proof.
  intros Hl Hi Hw. pose proof (lookup_lt_Some _ _ _ Hi). unfold get_addr, get32, words_block.
  rewrite pad_slice by (rewrite ?length_words; lia).
  rewrite (slice_words _ _ w Hi). by apply le4.
Qed.

Lemma le_val_zeroes n : le_val (replicate n 0) = 0.
Proof. induction n as [|n IH]; [done|]. cbn [replicate le_val]. rewrite IH. done. Qed.

Lemma words_next l :
  (length l < 256)%nat -> get_addr (Z.of_nat (length l)) (words_block l) = 0.
Proof.
  intros Hl. unfold get_addr, get32, words_block. rewrite pad_eq by (rewrite length_words; lia).
  rewrite slice_app_r by (rewrite length_words; lia). rewrite length_words.
  unfold slice. rewrite drop_replicate, take_replicate. apply le_val_zeroes.
Qed.

Lemma words_append l v :
  (length l < 256)%nat ->
  set_addr (Z.of_nat (length l)) v (words_block l) = words_block (l ++ [v]).
Proof.
  intros Hl. unfold set_addr, set32, words_block.
  rewrite fmap_app, concat_app.
  replace (concat (le_bytes 4 <$> [v])) with (le_bytes 4 v) by (symmetry; apply app_nil_r).
  rewrite <- (pad_splice _ (le_bytes 4 v)) by (rewrite length_words, length_le_bytes; lia).
  f_equal. rewrite length_words. lia.
Qed.

(** *** The addresses in an inode *)

Lemma length_addrs_of f : length (addrs_of f) = 13%nat.
Proof. unfold addrs_of. rewrite !length_app, length_take, length_replicate. cbn [length]. lia. Qed.

Lemma addrs_block f k b :
  (k < 12)%nat -> f_blocks f !! k = Some b -> aget (addrs_of f) (Z.of_nat k) = b.
Proof.
  intros Hk Hb. unfold aget, addrs_of. rewrite Nat2Z.id.
  rewrite (lookup_app_l_Some _ _ _ b); [done|]. by rewrite lookup_take_lt.
Qed.

Lemma addrs_none f :
  (length (f_blocks f) < 12)%nat -> aget (addrs_of f) (Z.of_nat (length (f_blocks f))) = 0.
Proof.
  intros Hk. unfold aget, addrs_of. rewrite Nat2Z.id, take_ge by lia.
  rewrite lookup_app_r, Nat.sub_diag by lia.
  destruct (12 - length (f_blocks f))%nat as [|n] eqn:E; [lia|]. done.
Qed.

Lemma addrs_ind f : aget (addrs_of f) NDIRECT = f_ind f.
Proof.
  unfold aget, addrs_of. change (Z.to_nat NDIRECT) with 12%nat.
  rewrite app_assoc, lookup_app_r; rewrite !length_app, length_take, length_replicate; [|lia].
  by replace (12 - _)%nat with 0%nat by lia.
Qed.

Lemma addrs_set_ind f v :
  aset (addrs_of f) NDIRECT v = addrs_of (Afile (f_type f) (f_data f) (f_blocks f) v).
Proof.
  unfold aset, addrs_of. change (Z.to_nat NDIRECT) with 12%nat. cbn [f_blocks f_ind f_data f_type].
  rewrite !app_assoc, insert_app_r_alt; rewrite !length_app, length_take, length_replicate; [|lia].
  by replace (12 - (_ + _))%nat with 0%nat by lia.
Qed.

Lemma addrs_set_block f v :
  (length (f_blocks f) < 12)%nat ->
  aset (addrs_of f) (Z.of_nat (length (f_blocks f))) v
  = addrs_of (Afile (f_type f) (f_data f) (f_blocks f ++ [v]) (f_ind f)).
Proof.
  intros H. unfold aset, addrs_of. rewrite Nat2Z.id. cbn [f_blocks f_ind f_data f_type].
  rewrite !take_ge by (rewrite ?length_app; cbn [length]; lia).
  rewrite insert_app_r_alt, Nat.sub_diag, length_app by lia. cbn [f_blocks f_ind f_data f_type].
  replace (12 - length (f_blocks f))%nat with (S (12 - (length (f_blocks f) + 1))) by lia.
  simpl. by rewrite <- app_assoc.
Qed.

(** The direct addresses beyond the contents of a file with an indirect block
    do not change when it grows. *)
Lemma addrs_more f v ind :
  (12 <= length (f_blocks f))%nat ->
  addrs_of (Afile (f_type f) (f_data f) (f_blocks f ++ [v]) ind)
  = addrs_of (Afile (f_type f) (f_data f) (f_blocks f) ind).
Proof.
  intros H. unfold addrs_of. simpl. rewrite take_app_le by lia. 
  rewrite length_app. do 3 f_equal. lia.
Qed.

(** *** Changing one file *)

Lemma file_part_frame img img' fb fb' f :
  file_part img fb f -> fb <= fb' ->
  (∀ b, b ∈ used f -> img' !! Z.to_nat b = img !! Z.to_nat b) ->
  file_part img' fb' f.
Proof.
  intros [H1 H2 H3 H4 H5] Hfb Hi. split; try done.
  - eapply Forall_impl; [done|]. simpl. lia.
  - intros k b Hb. rewrite Hi; [by apply H4|]. apply elem_of_app. left.
    by eapply list_elem_of_lookup_2.
  - intros Hn. rewrite Hi; [by apply H5|]. apply elem_of_app. right.
    destruct (Z.eqb_spec (f_ind f) 0); [done|]. by apply list_elem_of_singleton.
Qed.

Lemma data_part_update img img' fb fb' files i f f' :
  data_part img fb files -> files !! i = Some f ->
  length img' = 2000%nat -> Forall (λ b, length b = 1024%nat) img' -> fb <= fb' <= 2000 ->
  (∀ b, 46 <= b -> b ∉ used f -> ¬ fb <= b < fb' -> img' !! Z.to_nat b = img !! Z.to_nat b) ->
  file_part img' fb' f' ->
  (∀ b, b ∈ used f' -> b ∈ used f ∨ fb <= b < fb') ->
  data_part img' fb' (<[i := f']> files).
Proof.
  intros [D1 Df D2 D3 D4 D5] Hi Hl Hfull Hfb Hf Hf' Hu. pose proof (lookup_lt_Some _ _ _ Hi) as Hlt.
  assert (Hr : ∀ j g b, files !! j = Some g -> b ∈ used g -> 46 <= b < fb).
  { intros j g b Hj Hb. pose proof (fp_range _ _ _ (D4 _ _ Hj)) as HF.
    rewrite Forall_forall in HF. by apply HF. }
  assert (Ho : ∀ j g b, i <> j -> files !! j = Some g -> b ∈ used g -> b ∉ used f').
  { intros j g b Hne Hj Hb Hb'. pose proof (Hr _ _ _ Hj Hb). destruct (Hu _ Hb') as [Hx|Hx]; [|lia].
    apply Hne. by eapply (D5 i j f g b). }
  split; [done|done|lia| | |].
  - intros b Hb. rewrite Hf; [by apply D3; lia|lia| |lia]. intros Hin.
    pose proof (Hr _ _ _ Hi Hin). lia.
  - intros j g Hj. destruct (decide (i = j)) as [<-|Hne].
    + rewrite list_lookup_insert_eq in Hj by done. by injection Hj as <-.
    + rewrite list_lookup_insert_ne in Hj by done.
      apply (file_part_frame img _ fb); [by eapply D4|lia|].
      intros b Hb. pose proof (Hr _ _ _ Hj Hb). apply Hf; [lia| |lia].
      intros Hin. apply Hne. by eapply (D5 i j f g b).
  - intros j k g1 g2 b Hj Hk Hb1 Hb2.
    destruct (decide (i = j)) as [<-|Hne], (decide (i = k)) as [<-|Hne']; [done|..].
    + rewrite list_lookup_insert_eq in Hj by done. injection Hj as <-.
      rewrite list_lookup_insert_ne in Hk by done. by destruct (Ho _ _ _ Hne' Hk Hb2).
    + rewrite list_lookup_insert_eq in Hk by done. injection Hk as <-.
      rewrite list_lookup_insert_ne in Hj by done. by destruct (Ho _ _ _ Hne Hj Hb1).
    + rewrite list_lookup_insert_ne in Hj, Hk by done. by eapply D5.
Qed.

(** *** Allocating a block *)

(** [f] with one more block, and the indirect block [ind]. *)
Definition grow (f : afile) (x ind : Z) : afile :=
  Afile (f_type f) (f_data f) (f_blocks f ++ [x]) ind.

Lemma used_grow f x ind b :
  b ∈ used (grow f x ind) <-> b ∈ f_blocks f ∨ b = x ∨ (ind <> 0 ∧ b = ind).
Proof.
  unfold used. cbn [grow f_blocks f_ind].
  rewrite !elem_of_app, list_elem_of_singleton.
  destruct (Z.eqb_spec ind 0); [rewrite elem_of_nil|rewrite list_elem_of_singleton]; tauto.
Qed.

Lemma used_block f b : b ∈ f_blocks f -> b ∈ used f.
Proof. intros. apply elem_of_app. by left. Qed.

Lemma used_ind f : f_ind f <> 0 -> f_ind f ∈ used f.
Proof.
  intros H. apply elem_of_app. right. destruct (Z.eqb_spec (f_ind f) 0); [done|].
  by apply list_elem_of_singleton.
Qed.

Lemma used_range img fb f b : file_part img fb f -> b ∈ used f -> 46 <= b < fb.
Proof. intros [H _ _ _ _]. rewrite Forall_forall in H. apply H. Qed.

Lemma grow_part img img' fb fb' f x ind :
  file_part img fb f -> fb <= fb' -> 46 <= fb ->
  (length (f_data f) <= 1024 * length (f_blocks f))%nat ->
  fb <= x < fb' ->
  ((length (f_blocks f) < 12)%nat ∧ ind = 0 ∨ (12 <= length (f_blocks f))%nat ∧ ind <> 0) ->
  (ind = f_ind f ∨ fb <= ind < fb' ∧ ind <> x) ->
  (∀ b, b ∈ f_blocks f -> img' !! Z.to_nat b = img !! Z.to_nat b) ->
  img' !! Z.to_nat x = Some zeroes ->
  (ind <> 0 -> img' !! Z.to_nat ind = Some (words_block (drop 12 (f_blocks f ++ [x])))) ->
  file_part img' fb' (grow f x ind).
Proof.
  intros Hp Hfb H46 Hd Hx Hk Hi Hb Hz Hw.
  pose proof (λ b, used_range _ _ _ b Hp) as Hr.
  assert (Hri : ind <> 0 -> 46 <= ind < fb').
  { intros Hn. destruct Hi as [->|Hi]; [|lia]. pose proof (Hr _ (used_ind f Hn)). lia. }
  split.
  - apply Forall_forall. intros b. rewrite used_grow. intros [H|[->|[Hn ->]]]; [|lia|by apply Hri].
    pose proof (Hr _ (used_block _ _ H)). lia.
  - assert (Hn : NoDup (f_blocks f)) by (pose proof (fp_nodup _ _ _ Hp) as Hnd; by apply NoDup_app in Hnd as [? _]).
    unfold used. cbn [grow f_blocks f_ind]. apply NoDup_app. split; [|split].
    + apply NoDup_app. split; [done|split; [|apply NoDup_singleton]].
      intros b Hbb ->%list_elem_of_singleton. pose proof (Hr _ (used_block _ _ Hbb)). lia.
    + intros b Hbb Hbi. destruct (Z.eqb_spec ind 0); [by apply elem_of_nil in Hbi|].
      apply list_elem_of_singleton in Hbi as ->. apply elem_of_app in Hbb as [Hbb|Hbb].
      * destruct Hi as [->|Hi]; [|pose proof (Hr _ (used_block _ _ Hbb)); lia].
        destruct Hp as [_ Hnd _ _ _]. apply NoDup_app in Hnd as (_ & Hnd & _).
        apply (Hnd _ Hbb). destruct (Z.eqb_spec (f_ind f) 0); [done|by apply list_elem_of_singleton].
      * apply list_elem_of_singleton in Hbb as ->.
        destruct Hi as [->|Hi]; [|lia]. pose proof (Hr _ (used_ind f ltac:(done))). lia.
    + destruct (ind =? 0); [constructor|apply NoDup_singleton].
  - cbn [grow f_blocks f_ind]. rewrite length_app. cbn [length]. lia.
  - cbn [grow f_blocks f_data]. intros k b Hkb.
    destruct (decide (k < length (f_blocks f))%nat) as [Hlt|Hge].
    + rewrite lookup_app_l in Hkb by done. rewrite Hb by (by eapply list_elem_of_lookup_2).
      by apply Hp.
    + apply lookup_snoc_Some in Hkb as [[? _]|[-> ->]]; [lia|]. by rewrite Hz, block_of_end.
  - exact Hw.
Qed.

(** The globals and the blocks before the data blocks are unchanged. *)
Definition same_meta (s s' : mkfs) : Prop :=
  m_sb s' = m_sb s ∧ m_freeinode s' = m_freeinode s
  ∧ ∀ b, 0 <= b < 46 -> m_img s' !! Z.to_nat b = m_img s !! Z.to_nat b.

Lemma same_meta_trans s1 s2 s3 : same_meta s1 s2 -> same_meta s2 s3 -> same_meta s1 s3.
Proof.
  intros (A1 & A2 & A3) (B1 & B2 & B3). split; [congruence|]. split; [congruence|].
  intros b Hb. by rewrite B3, A3.
Qed.

Lemma next_block_ok s :
  0 <= m_freeblock s < 2 ^ 32 - 1 ->
  next_block s = Fine (m_freeblock s, s <| m_freeblock := m_freeblock s + 1 |>).
Proof.
  intros H. unfold next_block, mbind, M_bind, get, set_, mret, M_ret. by rewrite u32_small by lia.
Qed.

Lemma iappend_block_old s fb f din k b :
  file_part (m_img s) fb f -> fb <= 2000 -> d_addrs din = addrs_of f ->
  (length (f_blocks f) <= 268)%nat -> f_blocks f !! k = Some b ->
  iappend_block din (Z.of_nat k) s = Fine (din, b, s).
Proof.
  intros Hp Hfb Ha Hl Hk. pose proof (lookup_lt_Some _ _ _ Hk) as Hlt.
  pose proof (used_range _ _ _ b Hp (used_block _ _ (list_elem_of_lookup_2 _ _ _ Hk))) as Hb.
  unfold iappend_block. rewrite Ha. change (Z.of_nat k <? NDIRECT) with (Z.of_nat k <? 12).
  destruct (Z.ltb_spec (Z.of_nat k) 12) as [H12|H12].
  - rewrite (addrs_block f k b) by (done || lia). rewrite xint_small by lia.
    destruct (Z.eqb_spec b 0); [lia|]. unfold mbind, M_bind, mret, M_ret.
    rewrite Ha, (addrs_block f k b) by (done || lia). by rewrite xint_small by lia.
  - assert (Hn : f_ind f <> 0) by (intros Hz; apply (fp_direct _ _ _ Hp) in Hz; lia).
    pose proof (used_range _ _ _ _ Hp (used_ind f Hn)) as Hr.
    rewrite addrs_ind, xint_small by lia. destruct (Z.eqb_spec (f_ind f) 0); [done|].
    assert (Hg : get_addr (Z.of_nat k - NDIRECT) (words_block (drop 12 (f_blocks f))) = b).
    { change NDIRECT with 12. replace (Z.of_nat k - 12) with (Z.of_nat (k - 12)) by lia.
      apply words_get; [rewrite length_drop; lia| |lia].
      rewrite lookup_drop. by replace (12 + (k - 12))%nat with k by lia. }
    rewrite (m_bind (mret din) _ s din s eq_refl), Ha, addrs_ind, xint_small by lia.
    rewrite (m_bind _ _ s _ s (rsect_ok (f_ind f) _ s ltac:(lia) (fp_ind _ _ _ Hp Hn))), Hg.
    destruct (Z.eqb_spec b 0); [lia|]. unfold mbind, M_bind, mret, M_ret.
    by rewrite Hg, xint_small by lia.
Qed.

Lemma set_addrs_id din a : d_addrs (din <| d_addrs := a |>) = a.
Proof. done. Qed.

(** What iappend_block() does for the next block of a file. *)
Definition gets_block (s : mkfs) (files : list afile) (i : nat) (f : afile) (din : dinode) (n : Z) : Prop :=
  ∃ x ind s',
    iappend_block din (Z.of_nat (length (f_blocks f))) s
      = Fine (din <| d_addrs := addrs_of (grow f x ind) |>, x, s')
    ∧ data_part (m_img s') (m_freeblock s') (<[i := grow f x ind]> files)
    ∧ m_freeblock s' = m_freeblock s + n
    ∧ same_meta s s'.

Section new_block.
Context (s : mkfs) (files : list afile) (i : nat) (f : afile) (din : dinode).
Hypothesis D : data_part (m_img s) (m_freeblock s) files.
Hypothesis Hi : files !! i = Some f.
Hypothesis Ha : d_addrs din = addrs_of f.
Hypothesis Hl : (length (f_blocks f) < 268)%nat.
Hypothesis Hd : (length (f_data f) <= 1024 * length (f_blocks f))%nat.

Local Lemma new_range b : b ∈ used f -> 46 <= b < m_freeblock s.
Proof using D Hi. apply (used_range (m_img s)). by eapply dp_file. Qed.

Lemma new_direct :
  (length (f_blocks f) < 12)%nat -> m_freeblock s + 1 <= 2000 -> gets_block s files i f din 1.
Proof using D Hi Ha Hl Hd.
  intros H12 Hroom. pose proof (dp_file _ _ _ D _ _ Hi) as Hp. pose proof (dp_fb _ _ _ D) as Hfb.
  assert (Hz : f_ind f = 0) by (apply (fp_direct _ _ _ Hp); lia).
  set (fb := m_freeblock s) in *. exists fb, 0, (s <| m_freeblock := fb + 1 |>).
  assert (Hb : f_blocks (grow f fb 0) !! length (f_blocks f) = Some fb).
  { cbn [grow f_blocks]. by rewrite lookup_app_r, Nat.sub_diag by lia. }
  split; [|split; [|done]].
  - unfold iappend_block. change NDIRECT with 12. destruct (Z.ltb_spec (Z.of_nat (length (f_blocks f))) 12); [|lia].
    rewrite Ha, addrs_none by done. change (xint 0 =? 0) with true. cbv iota.
    rewrite (m_bind _ _ s (din <| d_addrs := addrs_of (grow f fb 0) |>) (s <| m_freeblock := fb + 1 |>)).
    + rewrite set_addrs_id, (addrs_block _ _ _ H12 Hb). by rewrite xint_small by lia.
    + rewrite (m_bind _ _ _ _ _ (next_block_ok s ltac:(lia))). unfold mret, M_ret. do 2 f_equal.
      destruct din as [a1 a2 a3 a4 a5 a6]. unfold update. simpl in *. subst a6.
      rewrite xint_small by lia. rewrite addrs_set_block by done. by rewrite Hz.
  - apply (data_part_update (m_img s) _ fb _ _ _ f); try done; cbn [update]; try (simpl; lia).
    + apply (dp_len _ _ _ D).
    + apply (dp_full _ _ _ D).
    + apply (grow_part (m_img s) _ fb); try done; simpl; try lia. apply (dp_free _ _ _ D). lia.
    + simpl. intros b. rewrite used_grow.
      intros [Hx|[->|[? _]]]; [left; by apply used_block|right; lia|done].
Qed.

Lemma new_first :
  length (f_blocks f) = 12%nat -> m_freeblock s + 2 <= 2000 -> gets_block s files i f din 2.
Proof using D Hi Ha Hl Hd.
  intros H12 Hroom. pose proof (dp_file _ _ _ D _ _ Hi) as Hp. pose proof (dp_fb _ _ _ D) as Hfb.
  pose proof (dp_len _ _ _ D) as Hlen.
  assert (Hz : f_ind f = 0) by (apply (fp_direct _ _ _ Hp); lia).
  set (fb := m_freeblock s) in *.
  set (s1 := s <| m_freeblock := fb + 1 |>). set (s2 := s1 <| m_freeblock := fb + 2 |>).
  set (g := grow f (fb + 1) fb).
  exists (fb + 1), fb, (with_sector fb (words_block [fb + 1]) s2).
  assert (Hzf : m_img s !! Z.to_nat fb = Some zeroes) by (apply (dp_free _ _ _ D); lia).
  split; [|split; [|split; [done|]]].
  - unfold iappend_block. rewrite H12. change (Z.of_nat 12 <? NDIRECT) with false. cbv iota.
    rewrite Ha, addrs_ind, Hz. change (xint 0 =? 0) with true. cbv iota.
    rewrite (m_bind _ _ s (din <| d_addrs := addrs_of g |>) s1).
    2:{ rewrite (m_bind _ _ _ _ _ (next_block_ok s ltac:(lia))). unfold mret, M_ret. do 2 f_equal.
        destruct din as [a1 a2 a3 a4 a5 a6]. unfold update. simpl in *. subst a6.
        rewrite xint_small by lia. rewrite addrs_set_ind. unfold g, grow.
        by rewrite addrs_more by lia. }
    rewrite set_addrs_id, addrs_ind. cbn [g grow f_ind]. rewrite xint_small by lia.
    rewrite (m_bind _ _ s1 _ s1 (rsect_ok fb zeroes s1 ltac:(lia) Hzf)).
    change (Z.of_nat 12 - NDIRECT) with (Z.of_nat (@length Z [])).
    replace zeroes with (words_block []) by apply pad_nil.
    rewrite words_next by (simpl; lia). change (0 =? 0) with true. cbv iota.
    rewrite (m_bind _ _ s1 (words_block [fb + 1]) (with_sector fb (words_block [fb + 1]) s2)).
    2:{ rewrite (m_bind _ _ _ _ _ (next_block_ok s1 ltac:(simpl; lia))).
        change (m_freeblock s1) with (fb + 1). rewrite xint_small by lia.
        rewrite words_append by (simpl; lia). replace (fb + 1 + 1) with (fb + 2) by lia.
        rewrite (m_bind _ _ _ _ _ (wsect_ok fb _ s2 ltac:(simpl; lia) Hlen)). done. }
    unfold mret, M_ret. rewrite (words_get _ 0 (fb + 1)) by (simpl; done || lia).
    by rewrite xint_small by lia.
  - apply (data_part_update (m_img s) _ fb _ _ _ f); try done; simpl; try lia.
    + by rewrite length_insert.
    + apply Forall_insert; [apply (dp_full _ _ _ D)|apply length_pad].
    + intros b Hb Hu Hn. rewrite list_lookup_insert_ne by lia. done.
    + apply (grow_part (m_img s) _ fb); try done; simpl; try lia.
      * intros b Hb. pose proof (new_range b (used_block _ _ Hb)). by rewrite list_lookup_insert_ne by lia.
      * rewrite list_lookup_insert_ne by lia. apply (dp_free _ _ _ D). lia.
      * intros _. rewrite list_lookup_insert_eq by lia. rewrite drop_app_ge by lia. by rewrite H12.
    + intros b. rewrite used_grow.
      intros [Hx|[->|[_ ->]]]; [left; by apply used_block|right; lia|right; lia].
  - split; [done|]. split; [done|]. intros b Hb. simpl. by rewrite list_lookup_insert_ne by lia.
Qed.

Lemma new_more :
  (12 < length (f_blocks f))%nat -> m_freeblock s + 1 <= 2000 -> gets_block s files i f din 1.
Proof using D Hi Ha Hl Hd.
  intros H12 Hroom. pose proof (dp_file _ _ _ D _ _ Hi) as Hp. pose proof (dp_fb _ _ _ D) as Hfb.
  pose proof (dp_len _ _ _ D) as Hlen.
  assert (Hn : f_ind f <> 0) by (intros Hz; apply (fp_direct _ _ _ Hp) in Hz; lia).
  pose proof (new_range _ (used_ind f Hn)) as Hr.
  set (fb := m_freeblock s) in *. set (ind := f_ind f) in *. set (l := drop 12 (f_blocks f)).
  assert (Hll : length l = (length (f_blocks f) - 12)%nat) by apply length_drop.
  set (s1 := s <| m_freeblock := fb + 1 |>). set (g := grow f fb ind).
  exists fb, ind, (with_sector ind (words_block (l ++ [fb])) s1).
  assert (Hg : addrs_of g = addrs_of f).
  { unfold g, grow. rewrite addrs_more by lia. by destruct f. }
  assert (Hdin : din <| d_addrs := addrs_of g |> = din).
  { rewrite Hg, <- Ha. by destruct din. }
  assert (Hnd : ind ∉ f_blocks f).
  { intros Hin. pose proof (fp_nodup _ _ _ Hp) as Hnd. apply NoDup_app in Hnd as (_ & Hnd & _).
    apply (Hnd _ Hin). fold ind. destruct (Z.eqb_spec ind 0); [done|by apply list_elem_of_singleton]. }
  split; [|split; [|split; [done|]]].
  - fold g. rewrite Hdin. unfold iappend_block.
    destruct (Z.ltb_spec (Z.of_nat (length (f_blocks f))) NDIRECT) as [Hc|_].
    { change NDIRECT with 12 in Hc. lia. }
    rewrite Ha, addrs_ind, xint_small by lia. fold ind.
    destruct (Z.eqb_spec ind 0); [done|]. rewrite (m_bind (mret din) _ s din s eq_refl).
    rewrite Ha, addrs_ind, xint_small by lia. fold ind.
    rewrite (m_bind _ _ s _ s (rsect_ok ind _ s ltac:(lia) (fp_ind _ _ _ Hp Hn))). fold l.
    replace (Z.of_nat (length (f_blocks f)) - NDIRECT) with (Z.of_nat (length l))
      by (change NDIRECT with 12; lia).
    rewrite words_next by lia. change (0 =? 0) with true. cbv iota.
    rewrite (m_bind _ _ s (words_block (l ++ [fb])) (with_sector ind (words_block (l ++ [fb])) s1)).
    2:{ rewrite (m_bind _ _ _ _ _ (next_block_ok s ltac:(lia))). fold fb. fold s1.
        rewrite xint_small by lia. rewrite words_append by lia.
        rewrite (m_bind _ _ _ _ _ (wsect_ok ind _ s1 ltac:(simpl; lia) Hlen)). done. }
    unfold mret, M_ret. rewrite (words_get _ (length l) fb); [|rewrite length_app; simpl; lia| |lia].
    + by rewrite xint_small by lia.
    + by rewrite lookup_app_r, Nat.sub_diag by lia.
  - apply (data_part_update (m_img s) _ fb _ _ _ f); try done; simpl; try lia.
    + by rewrite length_insert.
    + apply Forall_insert; [apply (dp_full _ _ _ D)|apply length_pad].
    + intros b Hb Hu Hx. rewrite list_lookup_insert_ne; [done|]. intros E. apply Hu.
      replace b with ind by lia. by apply used_ind.
    + apply (grow_part (m_img s) _ fb); try done; simpl; try lia.
      * intros b Hb. pose proof (new_range b (used_block _ _ Hb)).
        rewrite list_lookup_insert_ne; [done|]. intros E. apply Hnd. by replace ind with b by lia.
      * rewrite list_lookup_insert_ne by lia. apply (dp_free _ _ _ D). lia.
      * intros _. rewrite list_lookup_insert_eq by lia. by rewrite drop_app_le by lia.
    + intros b. rewrite used_grow.
      intros [Hx|[->|[_ ->]]]; [left; by apply used_block|right; lia|left; by apply used_ind].
  - split; [done|]. split; [done|]. intros b Hb. simpl. by rewrite list_lookup_insert_ne by lia.
Qed.
End new_block.

(** *** Appending to a file *)

Definition sized (f : afile) : Prop := length (f_blocks f) = nblk (length (f_data f)).

Lemma nblk_spec n : (n <= 1024 * nblk n < n + 1024)%nat.
Proof.
  unfold nblk. pose proof (Nat.div_mod_eq (n + 1023) 1024).
  pose proof (Nat.mod_upper_bound (n + 1023) 1024 ltac:(lia)). lia.
Qed.

Lemma cost_mono n m : (n <= m)%nat -> cost n <= cost m.
Proof.
  intros H. pose proof (nblk_spec n). pose proof (nblk_spec m). unfold cost.
  repeat case_decide; lia.
Qed.

Lemma app_block_ok s files i f din k m :
  data_part (m_img s) (m_freeblock s) files -> files !! i = Some f -> d_addrs din = addrs_of f ->
  sized f -> let n := length (f_data f) in
  (1024 * k <= n)%nat -> (0 < m)%nat -> (n + m <= 1024 * S k)%nat -> (n + m <= 268 * 1024)%nat ->
  m_freeblock s + cost (n + m) - cost n <= 2000 ->
  ∃ f1 x s1,
    iappend_block din (Z.of_nat k) s = Fine (din <| d_addrs := addrs_of f1 |>, x, s1)
    ∧ data_part (m_img s1) (m_freeblock s1) (<[i := f1]> files)
    ∧ f_type f1 = f_type f ∧ f_data f1 = f_data f
    ∧ length (f_blocks f1) = S k ∧ f_blocks f1 !! k = Some x
    ∧ m_freeblock s1 = m_freeblock s + cost (n + m) - cost n
    ∧ same_meta s s1.
Proof.
  intros D Hi Ha Hs n Hk Hm Hkm Hmax Hroom. unfold sized in Hs. fold n in Hs.
  pose proof (nblk_spec n) as N1. pose proof (nblk_spec (n + m)) as N2.
  assert (E2 : nblk (n + m) = S k) by lia.
  destruct (decide (length (f_blocks f) = k)) as [E|E].
  - assert (Hg : gets_block s files i f din (cost (n + m) - cost n)).
    { assert (Hd : (n <= 1024 * length (f_blocks f))%nat) by lia.
      unfold cost in *. rewrite E2, <- Hs, E in *.
      destruct (Nat.lt_trichotomy k 12) as [Hc|[Hc|Hc]].
      - rewrite !decide_False in * by lia.
        replace (_ - _) with 1 by lia. apply new_direct; try done; lia.
      - rewrite decide_True, decide_False in * by lia.
        replace (_ - _) with 2 by lia. apply new_first; try done; lia.
      - rewrite !decide_True in * by lia.
        replace (_ - _) with 1 by lia. apply new_more; try done; lia. }
    destruct Hg as (x & ind & s1 & Hb & HD & Hf & Hsm). rewrite E in Hb.
    exists (grow f x ind), x, s1. split_and!; try done; try lia.
    + cbn [grow f_blocks]. rewrite length_app, E. cbn [length]. lia.
    + cbn [grow f_blocks]. by rewrite lookup_app_r, E, Nat.sub_diag by lia.
  - assert (Hx : is_Some (f_blocks f !! k)) by (apply lookup_lt_is_Some_2; lia).
    destruct Hx as [x Hx]. exists f, x, s.
    assert (Hc : cost (n + m) = cost n) by (unfold cost; by replace (nblk (n + m)) with (nblk n) by lia).
    split_and!; try done; try lia.
    + rewrite (iappend_block_old s (m_freeblock s) f din k x); try done.
      * rewrite <- Ha. by destruct din.
      * by apply (dp_file _ _ _ D i).
      * apply (dp_fb _ _ _ D).
      * lia.
    + by rewrite list_insert_id.
Qed.

(** [f] with [p] appended to the contents of its last block. *)
Definition extend (f : afile) (p : list Z) : afile :=
  Afile (f_type f) (f_data f ++ p) (f_blocks f) (f_ind f).

Lemma fill_block_ok s files i f p k x :
  data_part (m_img s) (m_freeblock s) files -> files !! i = Some f ->
  length (f_blocks f) = S k -> f_blocks f !! k = Some x ->
  (1024 * k <= length (f_data f))%nat -> (length (f_data f) + length p <= 1024 * S k)%nat ->
  data_part (<[Z.to_nat x := block_of (f_data f ++ p) k]> (m_img s)) (m_freeblock s)
    (<[i := extend f p]> files).
Proof.
  intros D Hi Hl Hx H1 H2. pose proof (dp_file _ _ _ D _ _ Hi) as Hp.
  pose proof (used_range _ _ _ x Hp (used_block _ _ (list_elem_of_lookup_2 _ _ _ Hx))) as Hr.
  pose proof (dp_fb _ _ _ D) as Hfb. pose proof (dp_len _ _ _ D) as Hlen.
  assert (Hu : used (extend f p) = used f) by done.
  apply (data_part_update (m_img s) _ (m_freeblock s) _ _ _ f); try done; try lia.
  - by rewrite length_insert.
  - apply Forall_insert; [apply (dp_full _ _ _ D)|apply length_pad].
  - intros b Hb Hn _. rewrite list_lookup_insert_ne; [done|]. intros E. apply Hn.
    replace b with x by lia. apply used_block. by eapply list_elem_of_lookup_2.
  - pose proof (fp_nodup _ _ _ Hp) as Hnd. apply NoDup_app in Hnd as (Hnd & Hnd2 & _).
    split; rewrite ?Hu; try apply Hp.
    + cbn [extend f_blocks f_data]. intros j b Hj.
      destruct (decide (j = k)) as [->|Hne].
      { replace b with x by congruence. by rewrite list_lookup_insert_eq by lia. }
      pose proof (lookup_lt_Some _ _ _ Hj). rewrite (block_of_app _ _ j) by lia.
      pose proof (used_range _ _ _ b Hp (used_block _ _ (list_elem_of_lookup_2 _ _ _ Hj))) as Hrb.
      rewrite list_lookup_insert_ne; [by apply Hp|]. intros E. apply Hne.
      apply (NoDup_lookup _ _ _ x Hnd); [|done]. by replace x with b by lia.
    + cbn [extend f_blocks f_ind]. intros Hn. pose proof (used_range _ _ _ _ Hp (used_ind f Hn)).
      rewrite list_lookup_insert_ne; [by apply Hp|]. intros E.
      apply (Hnd2 x); [by eapply list_elem_of_lookup_2|]. replace x with (f_ind f) by lia.
      destruct (Z.eqb_spec (f_ind f) 0); [done|by apply list_elem_of_singleton].
  - intros b Hb. by left.
Qed.

(** What iappend_loop() leaves when it appends [p] to file [i] of [files]. *)
Definition appended (s s' : mkfs) (files : list afile) (i : nat) (f f' : afile) (p : list Z) : Prop :=
  data_part (m_img s') (m_freeblock s') (<[i := f']> files)
  ∧ sized f' ∧ f_type f' = f_type f ∧ f_data f' = f_data f ++ p
  ∧ m_freeblock s' = m_freeblock s + cost (length (f_data f) + length p) - cost (length (f_data f))
  ∧ same_meta s s'.

Lemma iappend_round s files i f din p :
  data_part (m_img s) (m_freeblock s) files -> files !! i = Some f -> d_addrs din = addrs_of f ->
  sized f -> let n := length (f_data f) in
  (0 < length p)%nat -> (n + length p <= 268 * 1024)%nat ->
  m_freeblock s + cost (n + length p) - cost n <= 2000 ->
  ∃ m f1 s1,
    (0 < m <= length p)%nat ∧ appended s s1 files i f f1 (take m p)
    ∧ ∀ rounds, iappend_loop (S rounds) din (Z.of_nat n) p s
      = iappend_loop rounds (din <| d_addrs := addrs_of f1 |>) (Z.of_nat (n + m)) (drop m p) s1.
Proof.
  intros D Hi Ha Hs n Hp Hmax Hroom. set (k := (n / 1024)%nat).
  assert (Hk : (1024 * k <= n < 1024 * S k)%nat).
  { unfold k. pose proof (Nat.div_mod_eq n 1024). pose proof (Nat.mod_upper_bound n 1024 ltac:(lia)). lia. }
  set (m := Nat.min (length p) (1024 * S k - n)). assert (Hm : (0 < m <= length p)%nat) by lia.
  pose proof (cost_mono (n + m) (n + length p) ltac:(lia)) as Hcm.
  destruct (app_block_ok s files i f din k m D Hi Ha Hs) as (f1 & x & s1 & Hb & D1 & Ht & Hd & Hl & Hx & Hf & Hsm);
    fold n; try lia.
  pose proof (lookup_lt_Some _ _ _ Hi) as Hlt.
  assert (Hi1 : <[i := f1]> files !! i = Some f1) by (by rewrite list_lookup_insert_eq).
  pose proof (dp_file _ _ _ D1 _ _ Hi1) as Hp1. pose proof (dp_fb _ _ _ D1) as Hfb.
  pose proof (used_range _ _ _ x Hp1 (used_block _ _ (list_elem_of_lookup_2 _ _ _ Hx))) as Hr.
  assert (Hlm : length (take m p) = m) by (rewrite length_take; lia).
  pose proof (fill_block_ok s1 _ i f1 (take m p) k x D1 Hi1 Hl Hx) as D2. rewrite Hd in D2.
  rewrite Hlm in D2. specialize (D2 ltac:(fold n; lia) ltac:(fold n; lia)).
  rewrite list_insert_insert_eq in D2.
  exists m, (extend f1 (take m p)), (with_sector x (block_of (f_data f ++ take m p) k) s1).
  split; [done|]. split.
  - split_and!; cbn [extend f_type f_data]; rewrite ?Hd, ?Hlm; try done.
    + unfold sized. cbn [extend f_blocks f_data]. rewrite Hl, Hd, length_app, Hlm. fold n.
      pose proof (nblk_spec (n + m)). lia.
    + eapply same_meta_trans; [done|]. split; [done|]. split; [done|]. intros b Hb46. simpl.
      by rewrite list_lookup_insert_ne by lia.
  - intros rounds. cbn [iappend_loop]. destruct (Z.ltb_spec 0 (Z.of_nat (length p))); [|lia]. cbn [negb].
    change BSIZE with 1024. change MAXFILE with 268.
    replace (Z.of_nat n / 1024) with (Z.of_nat k) by (unfold k; by rewrite Nat2Z.inj_div).
    destruct (Z.ltb_spec (Z.of_nat k) 268); [|lia].
    rewrite (m_bind (assert_ true) _ s tt s eq_refl), (m_bind _ _ _ _ _ Hb). cbv beta iota.
    rewrite (u32_small ((Z.of_nat k + 1) * 1024 - Z.of_nat n)) by lia.
    replace (Z.min _ _) with (Z.of_nat m) by lia. rewrite Nat2Z.id.
    rewrite (m_bind _ _ _ _ _ (rsect_ok x _ s1 ltac:(lia) (fp_data _ _ _ Hp1 _ _ Hx))), Hd.
    replace (Z.of_nat n - Z.of_nat k * 1024) with (Z.of_nat (n - 1024 * k)) by lia.
    unfold n. rewrite block_of_append by (fold n; rewrite ?Hlm; lia). fold n.
    rewrite (m_bind _ _ _ _ _ (wsect_ok x _ s1 ltac:(rewrite (dp_len _ _ _ D1); lia) (dp_len _ _ _ D1))).
    rewrite u32_small by lia. by rewrite Nat2Z.inj_add.
Qed.

Lemma iappend_loop_ok rounds s files i f din p :
  data_part (m_img s) (m_freeblock s) files -> files !! i = Some f -> d_addrs din = addrs_of f ->
  sized f -> let n := length (f_data f) in
  (length p <= rounds)%nat -> (n + length p <= 268 * 1024)%nat ->
  m_freeblock s + cost (n + length p) - cost n <= 2000 ->
  ∃ f' s',
    iappend_loop rounds din (Z.of_nat n) p s
      = Fine (din <| d_addrs := addrs_of f' |>, Z.of_nat (n + length p), s')
    ∧ appended s s' files i f f' p.
Proof.
  revert s files f din p. induction rounds as [|rounds IH]; intros s files f din p D Hi Ha Hs n Hp Hmax Hroom;
    (destruct (decide (length p = 0%nat)) as [Hz|Hz];
     [apply length_zero_iff_nil in Hz as ->|try lia]).
  1,2: exists f, s; rewrite Nat.add_0_r; split;
    [simpl; rewrite <- Ha; by destruct din|].
  1,2: split_and!; try done; rewrite ?app_nil_r, ?Nat.add_0_r, ?list_insert_id; try done; simpl; try lia;
    split_and!; done.
  destruct (iappend_round s files i f din p D Hi Ha Hs) as (m & f1 & s1 & Hm & HA & Hstep); fold n; try lia.
  destruct HA as (D1 & Hs1 & Ht1 & Hd1 & Hf1 & Hsm1).
  assert (Hlm : length (take m p) = m) by (rewrite length_take; lia).
  pose proof (lookup_lt_Some _ _ _ Hi) as Hlt.
  assert (Hi1 : <[i := f1]> files !! i = Some f1) by (by rewrite list_lookup_insert_eq).
  assert (Hn1 : length (f_data f1) = (n + m)%nat) by (rewrite Hd1, length_app, Hlm; done).
  rewrite Hlm in Hf1. fold n in Hf1.
  assert (Hnm : (n + m + length (drop m p))%nat = (n + length p)%nat) by (rewrite length_drop; lia).
  destruct (IH s1 _ f1 (din <| d_addrs := addrs_of f1 |>) (drop m p) D1 Hi1 (set_addrs_id _ _) Hs1)
    as (f' & s' & Hrun & D2 & Hs2 & Ht2 & Hd2 & Hf2 & Hsm2); rewrite ?Hn1, ?Hnm, ?length_drop; try lia.
  rewrite Hn1, Hnm in *. exists f', s'. fold n in Hstep. rewrite Hstep, Hrun. split; [done|].
  rewrite list_insert_insert_eq in D2.
  split_and!; try done; try congruence.
  - by rewrite Hd2, Hd1, <- app_assoc, take_drop.
  - fold n. lia.
  - by eapply same_meta_trans.
Qed.

(** ** Inodes *)

Definition islot (i : nat) : Z := Z.of_nat (S i) mod 16.
Definition iblk (i : nat) : Z := 32 + Z.of_nat (S i) / 16.

Record inode_part (img : list (list Z)) (files : list afile) : Prop := {
  ip_blk : ∀ b, 32 <= b < 45 -> ∃ d, img !! Z.to_nat b = Some d ∧ length d = 1024%nat;
  ip_inode : ∀ i f, files !! i = Some f ->
    ∃ d, img !! Z.to_nat (iblk i) = Some d ∧ get_dinode (islot i) d = dinode_of f
}.

Lemma iblk_range i : (i < 207)%nat -> 32 <= iblk i < 45.
Proof. intros. unfold iblk. zmod. Qed.

Lemma IBLOCK_iblk i : (i < 207)%nat -> IBLOCK (Z.of_nat (S i)) make_sb = iblk i.
Proof.
  intros H. unfold IBLOCK. change IPB with 16. change (sb_inodestart make_sb) with 32.
  pose proof (iblk_range i H) as Hr. unfold iblk in *. rewrite u32_small by lia. lia.
Qed.

Lemma same_slot i j : iblk i = iblk j -> islot i = islot j -> i = j.
Proof. unfold iblk, islot. intros. zmod. Qed.

Lemma inode_part_ext img img' files :
  inode_part img files -> (∀ b, 32 <= b < 45 -> img' !! Z.to_nat b = img !! Z.to_nat b) ->
  (length files <= 207)%nat -> inode_part img' files.
Proof.
  intros [H1 H2] He Hl. split.
  - intros b Hb. rewrite He by done. by apply H1.
  - intros i f Hi. pose proof (lookup_lt_Some _ _ _ Hi). rewrite He by (apply iblk_range; lia).
    by apply H2.
Qed.

Lemma data_part_ext img img' fb files :
  data_part img fb files -> length img' = 2000%nat -> Forall (λ b, length b = 1024%nat) img' ->
  (∀ b, 46 <= b < 2000 -> img' !! Z.to_nat b = img !! Z.to_nat b) -> data_part img' fb files.
Proof.
  intros [H1 Hf H2 H3 H4 H5] Hl Hf' He. split; try done.
  - intros b Hb. rewrite He by lia. by apply H3.
  - intros i f Hi. apply (file_part_frame img _ fb); [by eapply H4|lia|].
    intros b Hb. pose proof (used_range _ _ _ b (H4 _ _ Hi) Hb). apply He. lia.
Qed.

Lemma dinode_of_wf img fb f :
  file_part img fb f -> fb <= 2000 -> 0 <= f_type f < 2 ^ 15 -> (length (f_data f) <= 268 * 1024)%nat ->
  dinode_wf (dinode_of f).
Proof.
  intros Hp Hfb Ht Hd. split; cbn [dinode_of d_type d_major d_minor d_nlink d_size d_addrs]; try lia.
  - apply length_addrs_of.
  - assert (Hb : ∀ b, b ∈ used f -> 0 <= b < 2 ^ 32).
    { intros b Hb. pose proof (used_range _ _ _ b Hp Hb). lia. }
    apply Forall_app. split; [|apply Forall_app; split].
    + apply Forall_take, Forall_forall. intros b Hin. apply Hb. by apply used_block.
    + apply Forall_replicate. lia.
    + apply Forall_singleton. destruct (decide (f_ind f = 0)) as [->|Hn]; [lia|].
      apply Hb. by apply used_ind.
Qed.

(** *** The image described by the types and contents of the inodes 1, 2, ... *)

Definition total (cs : list (Z * list Z)) : Z := foldr (λ c n, cost (length c.2) + n) 46 cs.
Definition content (f : afile) : Z * list Z := (f_type f, f_data f).

Record state_ok (s : mkfs) (cs : list (Z * list Z)) (files : list afile) : Prop := {
  so_content : content <$> files = cs;
  so_data : data_part (m_img s) (m_freeblock s) files;
  so_inode : inode_part (m_img s) files;
  so_sized : Forall sized files;
  so_type : Forall (λ c, 0 <= c.1 < 2 ^ 15) cs;
  so_small : Forall (λ c, length c.2 <= 268 * 1024)%nat cs;
  so_sb : m_sb s = make_sb;
  so_sbblk : m_img s !! 1%nat = Some (splice 0 (sb_bytes make_sb) zeroes);
  so_inum : m_freeinode s = Z.of_nat (S (length cs));
  so_room : (length cs <= 207)%nat;
  so_total : m_freeblock s = total cs
}.

(** File [i] is [f], a new one if [i] is the number of files. *)
Definition put_file (i : nat) (f : afile) (files : list afile) : list afile :=
  if decide (i < length files)%nat then <[i := f]> files else files ++ [f].

Lemma put_file_eq i f files g :
  (i <= length files)%nat -> put_file i f files !! i = Some g -> g = f.
Proof.
  intros Hi. unfold put_file. case_decide as Hc.
  - rewrite list_lookup_insert_eq by done. congruence.
  - intros [[? _]|[_ <-]]%lookup_snoc_Some; [lia|done].
Qed.

Lemma put_file_ne i f files j g :
  (i <= length files)%nat -> j <> i -> put_file i f files !! j = Some g -> files !! j = Some g.
Proof.
  intros Hi Hne. unfold put_file. case_decide as Hc.
  - by rewrite list_lookup_insert_ne by done.
  - intros [[_ ?]|[? _]]%lookup_snoc_Some; [done|lia].
Qed.

Lemma inode_part_put img files i f d :
  inode_part img files -> length img = 2000%nat -> (length files <= 207)%nat ->
  (i <= length files)%nat -> (i < 207)%nat ->
  img !! Z.to_nat (iblk i) = Some d -> length d = 1024%nat -> dinode_wf (dinode_of f) ->
  inode_part (<[Z.to_nat (iblk i) := put_dinode (islot i) (dinode_of f) d]> img) (put_file i f files).
Proof.
  intros [I1 I2] Hlen Hl Hi H207 Hd Hld Hwf. pose proof (iblk_range i H207) as Hr.
  assert (Hs : ∀ j, 0 <= islot j < IPB) by (intros j; unfold islot; change IPB with 16; zmod).
  assert (Hput : ∀ j, j <> islot i -> 0 <= j < IPB ->
    get_dinode j (put_dinode (islot i) (dinode_of f) d) = get_dinode j d
    ∧ length (put_dinode (islot i) (dinode_of f) d) = length d).
  { intros j Hj Hjr. apply put_get_dinode_ne; try done. by apply Hwf. }
  split.
  - intros b Hb. destruct (decide (b = iblk i)) as [->|Hne].
    + rewrite list_lookup_insert_eq by lia. eexists. split; [done|].
      destruct (decide (islot i = 0)) as [E|E].
      * by rewrite (proj2 (Hput 1 ltac:(lia) ltac:(done))).
      * by rewrite (proj2 (Hput 0 ltac:(lia) ltac:(done))).
    + rewrite list_lookup_insert_ne by lia. by apply I1.
  - intros j g Hj. destruct (decide (j = i)) as [->|Hne].
    + rewrite list_lookup_insert_eq by lia. eexists. split; [done|].
      rewrite (put_file_eq _ _ _ _ Hi Hj). by apply put_get_dinode.
    + apply put_file_ne in Hj; [|done..]. destruct (I2 _ _ Hj) as (e & He & Hg).
      pose proof (lookup_lt_Some _ _ _ Hj). pose proof (iblk_range j ltac:(lia)) as Hrj.
      destruct (decide (iblk j = iblk i)) as [Eb|Eb].
      * rewrite Eb, list_lookup_insert_eq by lia. eexists. split; [done|].
        rewrite Eb, Hd in He. injection He as <-. rewrite <- Hg.
        apply Hput; [|done]. intros Es. apply Hne. by apply same_slot.
      * rewrite list_lookup_insert_ne by lia. by exists e.
Qed.

Lemma winode_ok s files i f :
  length (m_img s) = 2000%nat -> inode_part (m_img s) files ->
  m_sb s = make_sb -> (length files <= 207)%nat -> (i <= length files)%nat -> (i < 207)%nat ->
  dinode_wf (dinode_of f) ->
  ∃ d, winode (Z.of_nat (S i)) (dinode_of f) s = Fine (tt, with_sector (iblk i) d s)
    ∧ length d = 1024%nat ∧ inode_part (<[Z.to_nat (iblk i) := d]> (m_img s)) (put_file i f files).
Proof.
  intros Hlen I Hsb Hl Hi H207 Hwf. pose proof (iblk_range i H207) as Hr.
  destruct (ip_blk _ _ I _ Hr) as (d & Hd & Hld).
  exists (put_dinode (islot i) (dinode_of f) d). split; [|split; [|by apply inode_part_put]].
  2:{ unfold put_dinode. rewrite length_splice; [done|unfold islot; zmod|].
      rewrite length_dinode_bytes by apply length_addrs_of. unfold islot. zmod. }
  unfold winode. rewrite m_get, Hsb, IBLOCK_iblk by done.
  rewrite (m_bind _ _ _ _ _ (rsect_ok (iblk i) d s ltac:(lia) Hd)).
  rewrite wsect_ok by (done || lia). done.
Qed.

Lemma rinode_ok s files i f :
  inode_part (m_img s) files -> m_sb s = make_sb -> (length files <= 207)%nat -> files !! i = Some f ->
  rinode (Z.of_nat (S i)) s = Fine (dinode_of f, s).
Proof.
  intros I Hsb Hl Hi. pose proof (lookup_lt_Some _ _ _ Hi).
  pose proof (iblk_range i ltac:(lia)) as Hr. destruct (ip_inode _ _ I _ _ Hi) as (d & Hd & Hg).
  unfold rinode. rewrite m_get, Hsb, IBLOCK_iblk by lia.
  rewrite (m_bind _ _ _ _ _ (rsect_ok (iblk i) d s ltac:(lia) Hd)).
  change IPB with 16. fold (islot i). by rewrite Hg.
Qed.

Lemma total_ge cs : 46 <= total cs.
Proof.
  induction cs as [|c cs IH]; [done|]. simpl. pose proof (cost_mono 0 (length c.2) ltac:(lia)) as Hc.
  change (cost 0) with 0 in Hc. lia.
Qed.

Lemma total_insert cs i c c' :
  cs !! i = Some c -> total (<[i := c']> cs) = total cs + cost (length c'.2) - cost (length c.2).
Proof.
  revert i. induction cs as [|x cs IH]; intros [|i] H; try done; simpl in *.
  - injection H as ->. lia.
  - rewrite (IH i H). lia.
Qed.

Lemma total_app cs cs' : total (cs ++ cs') = total cs + total cs' - 46.
Proof. induction cs as [|c cs IH]; simpl; [lia|]. fold (total (cs ++ cs')). rewrite IH. unfold total. lia. Qed.

(** iappend() appends to the contents of the inode. *)
Lemma iappend_ok s cs files i t c p :
  state_ok s cs files -> cs !! i = Some (t, c) ->
  (length c + length p <= 268 * 1024)%nat -> total (<[i := (t, c ++ p)]> cs) <= 2000 ->
  ∃ s' files', iappend (Z.of_nat (S i)) p s = Fine (tt, s')
    ∧ state_ok s' (<[i := (t, c ++ p)]> cs) files'.
Proof.
  intros [C D I Sz T L B K N R O] Hc Hp Htot. pose proof Hc as Hc'. rewrite <- C in Hc'.
  apply list_lookup_fmap_Some in Hc' as (f & Ef & Hi). injection Ef as Et Ed.
  pose proof (lookup_lt_Some _ _ _ Hi) as Hlt.
  assert (Hfl : length files = length cs) by (by rewrite <- C, length_fmap).
  rewrite (total_insert _ _ _ _ Hc) in Htot. simpl in Htot. rewrite length_app in Htot. rewrite <- O in Htot.
  rewrite Ed in Hp, Htot.
  destruct (iappend_loop_ok (length p) s files i f (dinode_of f) p D Hi eq_refl) as (f' & s1 & Hrun & A);
    try lia; try done. { by apply (Forall_lookup_1 _ _ _ _ Sz Hi). }
  destruct A as (D1 & S1 & T1 & C1 & F1 & Hsb & Hfi & Hlow).
  assert (Hwf : dinode_wf (dinode_of f')).
  { apply (dinode_of_wf (m_img s1) (m_freeblock s1)); rewrite ?T1, ?C1, ?length_app; try lia.
    - apply (dp_file _ _ _ D1 i). by rewrite list_lookup_insert_eq.
    - rewrite <- Et. apply (Forall_lookup_1 _ _ _ _ T Hc). }
  pose proof (dp_len _ _ _ D1) as Hlen1.
  assert (I1 : inode_part (m_img s1) files) by (apply (inode_part_ext _ _ _ I); [intros; apply Hlow; lia|lia]).
  destruct (winode_ok s1 files i f' Hlen1 I1 ltac:(congruence) ltac:(lia) ltac:(lia) ltac:(lia) Hwf) as (d & Hw & Hdl & I2).
  unfold put_file in I2. rewrite decide_True in I2 by done.
  pose proof (iblk_range i ltac:(lia)) as Hr.
  exists (with_sector (iblk i) d s1), (<[i := f']> files). split.
  - unfold iappend. rewrite (m_bind _ _ _ _ _ (rinode_ok s files i f I B ltac:(lia) Hi)).
    change (d_size (dinode_of f)) with (Z.of_nat (length (f_data f))).
    rewrite xint_small by lia. rewrite (m_bind _ _ _ _ _ Hrun). cbv beta iota.
    rewrite xint_small by lia. rewrite <- Hw. f_equal. unfold dinode_of. rewrite C1, T1, length_app. done.
  - set (s2 := with_sector _ _ _). change (m_sb s1) with (m_sb s2) in Hsb.
    change (m_freeinode s1) with (m_freeinode s2) in Hfi.
    change (m_freeblock s1) with (m_freeblock s2) in F1, D1.
    assert (Him : m_img s2 = <[Z.to_nat (iblk i) := d]> (m_img s1)) by done.
    split; rewrite ?Him, ?length_insert; try done; try congruence.
    + rewrite list_fmap_insert, C. f_equal. unfold content. congruence.
    + apply (data_part_ext (m_img s1)); [done|by rewrite length_insert| |].
      { apply Forall_insert; [apply (dp_full _ _ _ D1)|done]. }
      intros b Hb. by rewrite list_lookup_insert_ne by lia.
    + by apply Forall_insert.
    + apply Forall_insert; [done|]. apply (Forall_lookup_1 _ _ _ _ T Hc).
    + apply Forall_insert; [done|]. cbn [snd]. rewrite length_app, Ed. lia.
    + rewrite list_lookup_insert_ne by lia. rewrite <- K. by apply (Hlow 1).
    + rewrite (total_insert _ _ _ _ Hc). cbn [snd]. rewrite length_app, Ed. lia.
Qed.

Lemma dinode_of_empty t : 0 <= t < 2 ^ 15 ->
  dinode_of (Afile t [] [] 0)
  = Dinode (i16 (xshort t)) 0 0 (i16 (xshort 1)) (xint 0) (replicate 13 0).
Proof.
  intros H. rewrite (xshort_u16 t). unfold u16. rewrite Z.mod_small by lia.
  unfold i16, signed. rewrite Z.mod_small by lia. destruct (Z.ltb_spec t (2 ^ (16 - 1))); [done|lia].
Qed.

(** ialloc() makes the next inode, empty. *)
Lemma ialloc_ok s cs files t :
  state_ok s cs files -> 0 <= t < 2 ^ 15 -> (length cs < 207)%nat ->
  ∃ s' files', ialloc t s = Fine (Z.of_nat (S (length cs)), s')
    ∧ state_ok s' (cs ++ [(t, [])]) files'.
Proof.
  intros [C D I Sz T L B K N R O] Ht Hroom.
  assert (Hfl : length files = length cs) by (by rewrite <- C, length_fmap).
  set (f := Afile t [] [] 0). pose proof (dp_fb _ _ _ D) as Hfb.
  assert (Hp : file_part (m_img s) (m_freeblock s) f).
  { split; cbn [f f_blocks f_ind used]; try done.
    - constructor.
    - split; [done|cbn [length]; lia]. }
  assert (Hwf : dinode_wf (dinode_of f)).
  { apply (dinode_of_wf (m_img s) (m_freeblock s)); try done; [lia|]. cbn [f f_data length]. lia. }
  set (s1 := s <| m_freeinode := Z.of_nat (S (S (length cs))) |>).
  pose proof (dp_len _ _ _ D) as Hlen.
  destruct (winode_ok s1 files (length cs) f Hlen I B ltac:(lia) ltac:(lia) ltac:(lia) Hwf) as (d & Hw & Hdl & I2).
  unfold put_file in I2. rewrite decide_False in I2 by lia.
  pose proof (iblk_range (length cs) ltac:(lia)) as Hr.
  set (s2 := with_sector (iblk (length cs)) d s1) in *. exists s2, (files ++ [f]). split.
  - unfold ialloc. rewrite m_get, N.
    rewrite u32_small by lia. replace (Z.of_nat (S (length cs)) + 1) with (Z.of_nat (S (S (length cs)))) by lia.
    rewrite m_set. fold s1. rewrite <- dinode_of_empty by done.
    by rewrite (m_bind _ _ _ _ _ Hw).
  - assert (Him : m_img s2 = <[Z.to_nat (iblk (length cs)) := d]> (m_img s)) by done.
    split; rewrite ?Him, ?length_app; cbn [length]; try done; try lia.
    + by rewrite fmap_app, C.
    + apply (data_part_ext (m_img s)); [|by rewrite length_insert| |].
      2:{ apply Forall_insert; [apply (dp_full _ _ _ D)|done]. }
      2:{ intros b Hb. by rewrite list_lookup_insert_ne by lia. }
      change (m_freeblock s2) with (m_freeblock s).
      split; try apply D.
      * intros i g [[_ Hg]|[_ <-]]%lookup_snoc_Some; [by apply (dp_file _ _ _ D i)|done].
      * intros i j g1 g2 b H1 H2 Hb1 Hb2.
        apply lookup_snoc_Some in H1 as [[_ H1]|[_ <-]]; [|by apply elem_of_nil in Hb1].
        apply lookup_snoc_Some in H2 as [[_ H2]|[_ <-]]; [|by apply elem_of_nil in Hb2].
        by eapply (dp_apart _ _ _ D).
    + apply Forall_app. split; [done|]. by apply Forall_singleton.
    + apply Forall_app. split; [done|]. by apply Forall_singleton.
    + apply Forall_app. split; [done|]. apply Forall_singleton. cbn [snd length]. lia.
    + by rewrite list_lookup_insert_ne by lia.
    + change (m_freeinode s2) with (Z.of_nat (S (S (length cs)))). lia.
    + change (m_freeblock s2) with (m_freeblock s). rewrite O, total_app. simpl. change (cost 0) with 0. lia.
Qed.
