(* ===== verification/MkfsImage.v ===== *)
(** * What mkfs puts on the disk

    The theorem about main() of mkfs.c: given files that fit, it ends with an
    image in which the superblock, the free map, the root directory and every
    file are where the kernel looks for them. *)

From Stdlib Require Import ZArith Lia.
From stdpp Require Import base numbers list gmap strings.
From S2P Require Import Prelude Machine Kernel Strings Virtio Fs FsSpec FsView Mkfs MkfsSpec.
Close Scope kernel_scope.

(** ** The files of the command line *)

Definition file_name (path : list Z) : list Z := strip_underscore (strip_user path).

(** The host has the file [path] with contents [c], whatever the pieces in
    which it is read. *)
Definition good_file (h : host) (path c : list Z) : Prop :=
  (47 ∉ strip_user path) ∧ Z.of_nat (length c) <= MAXFILE * BSIZE
  ∧ ∃ chunks, h_file h path = Some chunks ∧ concat chunks = c.

(** The directory entries of the files, the first with number [inum]. *)
Fixpoint entries (inum : Z) (paths : list (list Z)) : list Z :=
  match paths with
  | [] => []
  | p :: paths => dirent_bytes inum (put_name (file_name p)) ++ entries (inum + 1) paths
  end.

(** The contents of the root directory. *)
Definition root_data (paths : list (list Z)) : list Z :=
  dirent_bytes 1 (put_name (chars ".")) ++ dirent_bytes 1 (put_name (chars "..")) ++ entries 2 paths.

(** The inodes 1, 2, ... of the image. *)
Definition image_contents (paths contents : list (list Z)) : list (Z * list Z) :=
  (T_DIR, root_data paths) :: (pair T_FILE <$> contents).

Lemma length_dirent inum name : length (dirent_bytes inum (put_name name)) = 16%nat.
Proof.
  unfold dirent_bytes, put_name. change (Z.to_nat DIRSIZ) with 14%nat.
  rewrite !length_app, length_le_bytes, length_take, length_replicate. lia.
Qed.

Lemma length_entries inum paths : length (entries inum paths) = (16 * length paths)%nat.
Proof.
  revert inum. induction paths as [|p paths IH]; intros inum; [done|].
  cbn [entries]. rewrite length_app, length_dirent, IH. simpl. lia.
Qed.

Lemma total_app_le cs i t c x y :
  cs !! i = Some (t, c) -> total (<[i := (t, x)]> cs) <= total (<[i := (t, x ++ y)]> cs).
Proof.
  intros H. rewrite !(total_insert _ _ _ _ H). cbn [snd].
  pose proof (cost_mono (length x) (length (x ++ y)) ltac:(rewrite length_app; lia)). lia.
Qed.

Lemma append_all_ok chunks s cs files i t c :
  state_ok s cs files -> cs !! i = Some (t, c) ->
  (length c + length (concat chunks) <= 268 * 1024)%nat ->
  total (<[i := (t, c ++ concat chunks)]> cs) <= 2000 ->
  ∃ s' files', append_all (Z.of_nat (S i)) chunks s = Fine (tt, s')
    ∧ state_ok s' (<[i := (t, c ++ concat chunks)]> cs) files'.
Proof.
  revert s cs files c. induction chunks as [|p chunks IH]; intros s cs files c Hs Hc Hl Ht.
  { exists s, files. split; [done|]. cbn [concat]. by rewrite app_nil_r, list_insert_id. }
  cbn [concat append_all] in *. rewrite length_app in Hl. rewrite app_assoc in Ht.
  pose proof (lookup_lt_Some _ _ _ Hc) as Hlt.
  pose proof (total_app_le _ _ _ _ (c ++ p) (concat chunks) Hc).
  destruct (iappend_ok s cs files i t c p Hs Hc ltac:(lia) ltac:(lia)) as (s1 & files1 & Hr & H1).
  rewrite (m_bind _ _ _ _ _ Hr).
  destruct (IH s1 _ files1 (c ++ p) H1) as (s2 & files2 & Hr2 & H2).
  - by rewrite list_lookup_insert_eq.
  - rewrite length_app. lia.
  - by rewrite list_insert_insert_eq.
  - exists s2, files2. split; [done|]. by rewrite list_insert_insert_eq, <- app_assoc in H2.
Qed.

Lemma insert_last {A} (x a b : A) l : <[S (length l) := b]> (x :: l ++ [a]) = x :: l ++ [b].
Proof. change (x :: insert (length l) b (l ++ [a]) = x :: l ++ [b]). f_equal.
  by rewrite insert_app_r_alt, Nat.sub_diag by lia. Qed.

Lemma add_file_ok h s r done_ files path c :
  state_ok s ((T_DIR, r) :: done_) files -> good_file h path c ->
  (length done_ < 206)%nat -> (length r + 16 <= 268 * 1024)%nat ->
  let r' := r ++ dirent_bytes (Z.of_nat (length done_) + 2) (put_name (file_name path)) in
  total ((T_DIR, r') :: done_ ++ [(T_FILE, c)]) <= 2000 ->
  ∃ s' files', add_file h 1 path s = Fine (tt, s')
    ∧ state_ok s' ((T_DIR, r') :: done_ ++ [(T_FILE, c)]) files'.
Proof.
  intros Hs (Hslash & Hc & chunks & Hfile & Hcat) Hd Hlr r' Ht.
  change (MAXFILE * BSIZE) with 274432 in Hc.
  assert (Ht' : total ((T_DIR, r') :: done_ ++ [(T_FILE, [])]) <= 2000).
  { rewrite app_comm_cons, total_app in *. pose proof (cost_mono 0 (length c) ltac:(lia)) as Hm.
    change (total [(T_FILE, c)]) with (cost (length c) + 46) in Ht.
    change (total [(T_FILE, [])]) with (cost 0 + 46). lia. }
  unfold add_file. rewrite m_assert by (by rewrite bool_decide_false). rewrite Hfile.
  destruct (ialloc_ok s _ files T_FILE Hs ltac:(done)) as (s1 & f1 & R1 & H1); [cbn [length]; lia|].
  rewrite (m_bind _ _ _ _ _ R1). fold (file_name path). cbn [length].
  replace (Z.of_nat (S (S (length done_)))) with (Z.of_nat (length done_) + 2) by lia.
  set (de := dirent_bytes _ _) in *.
  destruct (iappend_ok s1 _ f1 0 T_DIR r de H1 eq_refl) as (s2 & f2 & R2 & H2).
  { unfold de. rewrite length_dirent. lia. }
  { exact Ht'. }
  change (Z.of_nat 1) with 1 in R2. rewrite (m_bind _ _ _ _ _ R2). change (state_ok s2 ((T_DIR, r') :: done_ ++ [(T_FILE, [])]) f2) in H2.
  destruct (append_all_ok chunks s2 _ f2 (S (length done_)) T_FILE [] H2) as (s3 & f3 & R3 & H3).
  - simpl. by rewrite lookup_app_r, Nat.sub_diag by lia.
  - rewrite Hcat. cbn [length]. lia.
  - by rewrite insert_last, Hcat.
  - exists s3, f3. rewrite insert_last, Hcat in H3. split; [|done].
    rewrite <- R3. f_equal. lia.
Qed.

Lemma total_cons_le t t' c c' cs cs' :
  (length c <= length c')%nat -> total cs <= total cs' -> total ((t, c) :: cs) <= total ((t', c') :: cs').
Proof.
  intros Hc Hcs. pose proof (cost_mono _ _ Hc). unfold total in *. cbn [foldr snd]. lia.
Qed.

Lemma add_files_ok h paths contents s r done_ files :
  state_ok s ((T_DIR, r) :: done_) files -> Forall2 (good_file h) paths contents ->
  (length done_ + length paths <= 206)%nat -> (length r + 16 * length paths <= 268 * 1024)%nat ->
  let cs' := (T_DIR, r ++ entries (Z.of_nat (length done_) + 2) paths)
               :: done_ ++ (pair T_FILE <$> contents) in
  total cs' <= 2000 ->
  ∃ s' files', add_files h 1 paths s = Fine (tt, s') ∧ state_ok s' cs' files'.
Proof.
  intros Hs HF. revert s r done_ files Hs.
  induction HF as [|p c paths contents Hp HF IH]; intros s r done_ files Hs Hn Hr cs' Ht; subst cs'.
  { exists s, files. cbn [entries fmap list_fmap]. by rewrite !app_nil_r. }
  cbn [length] in Hn, Hr. cbn [entries fmap list_fmap add_files] in *.
  destruct (add_file_ok h s r done_ files p c Hs Hp ltac:(lia) ltac:(lia)) as (s1 & f1 & R1 & H1).
  { etransitivity; [|exact Ht]. apply total_cons_le; [rewrite !length_app; lia|].
    rewrite !total_app. change (total [(T_FILE, c)]) with (cost (length c) + 46).
    change (total ((T_FILE, c) :: ?l)) with (cost (length c) + total l).
    pose proof (total_ge (pair T_FILE <$> contents)). unfold fmap in *. lia. }
  rewrite (m_bind _ _ _ _ _ R1).
  destruct (IH s1 _ (done_ ++ [(T_FILE, c)]) f1 H1) as (s2 & f2 & R2 & H2);
    rewrite ?length_app, ?length_dirent; cbn [length]; try lia.
  - rewrite <- !app_assoc. cbn [app].
    replace (Z.of_nat (length done_ + 1) + 2) with (Z.of_nat (length done_) + 2 + 1) by lia. exact Ht.
  - exists s2, f2. split; [done|]. rewrite length_app in H2. rewrite <- !app_assoc in H2. cbn [app length] in H2.
    replace (Z.of_nat (length done_ + 1) + 2) with (Z.of_nat (length done_) + 2 + 1) in H2 by lia. exact H2.
Qed.

(** ** The empty image *)

Lemma clear_sectors_ok n s :
  (length (m_img s) + n <= 2000)%nat ->
  clear_sectors (zrange (Z.of_nat (length (m_img s))) n) s
  = Fine (tt, s <| m_img ::= λ l, l ++ replicate n zeroes |>).
Proof.
  revert s. induction n as [|n IH]; intros s Hn.
  { cbn. unfold mret, M_ret. do 2 f_equal. destruct s. unfold update. simpl. by rewrite app_nil_r. }
  rewrite zrange_S. cbn [clear_sectors]. unfold wsect at 1. rewrite m_set.
  rewrite sector_small, Nat2Z.id by lia.
  set (s1 := update m_img _ s).
  assert (E : m_img s1 = m_img s ++ [zeroes]).
  { unfold s1, put_sector. simpl. rewrite decide_False by lia. by rewrite Nat.sub_diag. }
  specialize (IH s1). rewrite E, length_app in IH. cbn [length] in IH.
  replace (Z.of_nat (length (m_img s)) + 1) with (Z.of_nat (length (m_img s) + 1)) by lia.
  rewrite IH by lia. do 2 f_equal. unfold s1. destruct s as [img sb fi fb]. unfold update. simpl. f_equal.
  unfold put_sector. rewrite decide_False by lia. rewrite Nat.sub_diag. simpl.
  by rewrite <- app_assoc.
Qed.

(** The state before the root directory is made. *)
Definition blank : mkfs :=
  MkMkfs (<[1%nat := splice 0 (sb_bytes make_sb) zeroes]> (replicate 2000 zeroes)) make_sb 1 46.

Lemma blank_lookup b :
  0 <= b < 2000 -> b <> 1 -> m_img blank !! Z.to_nat b = Some zeroes.
Proof.
  intros Hb Hne. unfold blank. cbn [m_img]. rewrite list_lookup_insert_ne by lia.
  apply lookup_replicate_2. lia.
Qed.

Lemma blank_ok : state_ok blank [] [].
Proof.
  assert (Hl : length (m_img blank) = 2000%nat)
    by (unfold blank; cbn [m_img]; by rewrite length_insert, length_replicate).
  split; try done; cbn [length]; try lia; try constructor; try done.
  - cbn [blank m_img]. apply Forall_insert; [|by vm_compute]. apply Forall_replicate, length_zeroes.
  - cbn [blank m_freeblock]. intros b Hb. apply blank_lookup; lia.
  - intros b Hb. exists zeroes. split; [apply blank_lookup; lia|apply length_zeroes].
Qed.

(** ** The root directory's size *)

(** The rest of the last block of a directory, counted in its size. *)
Definition round_up (f : afile) : afile :=
  extend f (replicate (1024 * S (length (f_data f) / 1024) - length (f_data f)) 0).

Lemma pad_zeroes l n : pad (l ++ replicate n 0) = pad l.
Proof.
  unfold pad, zeroes. rewrite <- app_assoc, <- replicate_add.
  apply list_eq. intros i. destruct (decide (i < 1024)%nat) as [Hi|Hi].
  - rewrite !lookup_take_lt by done. destruct (decide (i < length l)%nat).
    + by rewrite !lookup_app_l by done.
    + rewrite !lookup_app_r by lia. change (Z.to_nat BSIZE) with 1024%nat.
      by rewrite !lookup_replicate_2 by lia.
  - by rewrite !lookup_take_ge by lia.
Qed.

Lemma block_of_zeroes c n k : block_of (c ++ replicate n 0) k = block_of c k.
Proof.
  unfold block_of. destruct (decide (1024 * k <= length c)%nat) as [H|H].
  - rewrite drop_app_le by lia. apply pad_zeroes.
  - rewrite (drop_ge c), pad_nil by lia. rewrite drop_app_ge, drop_replicate by lia.
    rewrite <- (app_nil_l (replicate _ _)), pad_zeroes. apply pad_nil.
Qed.

Lemma round_up_part img fb f : file_part img fb f -> file_part img fb (round_up f).
Proof.
  intros [H1 H2 H3 H4 H5]. split; try done.
  intros k b Hb. cbn [round_up extend f_data]. rewrite block_of_zeroes. by apply H4.
Qed.

Lemma fix_root_ok s cs files f :
  state_ok s cs files -> files !! 0%nat = Some f -> (length (f_data f) <= 260 * 1024)%nat ->
  ∃ d, fix_root 1 s = Fine (tt, with_sector 32 d s) ∧ length d = 1024%nat
    ∧ inode_part (<[Z.to_nat 32 := d]> (m_img s)) (<[0%nat := round_up f]> files).
Proof.
  intros [C D I Sz T L B K N R O] Hf Hl. pose proof (lookup_lt_Some _ _ _ Hf) as Hlt.
  assert (Hfl : length files = length cs) by (by rewrite <- C, length_fmap).
  assert (Hn : length (f_data (round_up f)) = (1024 * S (length (f_data f) / 1024))%nat).
  { pose proof (Nat.div_mod_eq (length (f_data f)) 1024).
    pose proof (Nat.mod_upper_bound (length (f_data f)) 1024 ltac:(lia)).
    cbn [round_up extend f_data]. rewrite length_app, length_replicate. lia. }
  assert (Hwf : dinode_wf (dinode_of (round_up f))).
  { pose proof (Nat.Div0.div_le_mono (length (f_data f)) (260 * 1024) 1024 ltac:(lia)) as Hm.
    rewrite Nat.div_mul in Hm by lia.
    apply (dinode_of_wf (m_img s) (m_freeblock s)); rewrite ?Hn; try lia.
    - apply round_up_part. by apply (dp_file _ _ _ D 0).
    - apply (dp_fb _ _ _ D).
    - assert (Hc : cs !! 0%nat = Some (content f)) by (by rewrite <- C, list_lookup_fmap, Hf).
      apply (Forall_lookup_1 _ _ _ _ T Hc). }
  destruct (winode_ok s files 0 (round_up f) (dp_len _ _ _ D) I B) as (d & Hw & Hdl & I2); try done; try lia.
  unfold put_file in I2. rewrite decide_True in I2 by done.
  exists d. split; [|by split]. unfold fix_root.
  rewrite (m_bind _ _ _ _ _ (rinode_ok s files 0 f I B ltac:(lia) Hf)).
  change (d_size (dinode_of f)) with (Z.of_nat (length (f_data f))). change (iblk 0) with 32 in Hw.
  change (Z.of_nat 1) with 1 in Hw. rewrite <- Hw. f_equal. unfold dinode_of. rewrite Hn.
  rewrite (xint_small (Z.of_nat (length (f_data f)))) by lia. change BSIZE with 1024.
  pose proof (Z.div_le_mono (Z.of_nat (length (f_data f))) 266240 1024 ltac:(lia) ltac:(lia)) as Hm.
  change (266240 / 1024) with 260 in Hm. pose proof (Z.div_pos (Z.of_nat (length (f_data f))) 1024 ltac:(lia) ltac:(lia)).
  rewrite u32_small by lia. rewrite xint_small by lia.
  unfold update. cbn [d_type d_major d_minor d_nlink d_size d_addrs]. f_equal.
  assert (Ed : Z.of_nat (length (f_data f) / 1024) = Z.of_nat (length (f_data f)) / 1024)
    by apply Nat2Z.inj_div.
  rewrite <- Ed. lia.
Qed.

(** ** The free map *)

Lemma bitmap_prefix n b :
  Z.of_nat n <= 8192 -> 0 <= b < 8192 ->
  let d := foldl (λ buf i, set_bit i buf) zeroes (zrange 0 n) in
  length d = 1024%nat ∧ bit_of d b = bool_decide (b < Z.of_nat n).
Proof.
  intros Hn Hb. induction n as [|n IH].
  { split; [apply length_zeroes|]. rewrite bool_decide_false by lia. cbn [foldl zrange seq fmap list_fmap].
    rewrite bit_of_testbit by lia. unfold aget, zeroes. rewrite lookup_replicate_2; [apply Z.bits_0|].
    change (Z.to_nat BSIZE) with 1024%nat. zmod. }
  destruct (IH ltac:(lia)) as [Hl Hbit]. replace (S n) with (n + 1)%nat by lia.
  rewrite zrange_app, foldl_app. change (zrange (0 + Z.of_nat n) 1) with [0 + Z.of_nat n + Z.of_nat 0].
  cbn [foldl]. replace (0 + Z.of_nat n + Z.of_nat 0) with (Z.of_nat n) by lia. split.
  - unfold set_bit. by rewrite length_aset.
  - rewrite bit_of_set by (rewrite ?Hl; change (Z.of_nat 1024) with 1024; lia).
    rewrite Hbit, <- bool_decide_or. apply bool_decide_ext. lia.
Qed.

(** ** The image *)

Definition disk_of (s : mkfs) : Z -> list Z := λ b, default [] (m_img s !! Z.to_nat b).

(** The block with part [bn] of the file whose inode is number [S i]. *)
Definition block_at (s : mkfs) (i : nat) (bn : Z) : Z :=
  file_addr (disk_of s) (d_addrs (disk_inode (disk_of s) make_sb (Z.of_nat (S i)))) bn.

(** The inode [inum] has the given type and size, one link, and blocks that
    hold [c]. *)
Definition on_disk (s : mkfs) (inum type size : Z) (c : list Z) : Prop :=
  ∃ addrs, disk_inode (disk_of s) make_sb inum = Dinode type 0 0 1 size addrs
    ∧ readable FSSIZE (disk_of s) addrs c.

Definition in_file (c : list Z) (bn : Z) : Prop := 0 <= bn ∧ bn * BSIZE < Z.of_nat (length c).

Lemma disk_sector s b d : m_img s !! Z.to_nat b = Some d -> disk_of s b = d.
Proof. intros H. unfold disk_of. by rewrite H. Qed.

Lemma in_file_block f bn :
  sized f -> in_file (f_data f) bn -> ∃ b, f_blocks f !! Z.to_nat bn = Some b.
Proof.
  intros Hs [H1 H2]. apply lookup_lt_is_Some_2. rewrite Hs. change BSIZE with 1024 in H2.
  pose proof (nblk_spec (length (f_data f))). lia.
Qed.

Lemma file_part_addr s fb f bn b :
  file_part (m_img s) fb f -> fb <= 2000 -> (length (f_blocks f) <= 268)%nat ->
  0 <= bn -> f_blocks f !! Z.to_nat bn = Some b ->
  file_addr (disk_of s) (addrs_of f) bn = b.
Proof.
  intros Hp Hfb Hl Hbn Hb. pose proof (lookup_lt_Some _ _ _ Hb) as Hlt. unfold file_addr.
  pose proof (used_range _ _ _ b Hp (used_block _ _ (list_elem_of_lookup_2 _ _ _ Hb))) as Hr.
  change (bn <? NDIRECT) with (bn <? 12). destruct (Z.ltb_spec bn 12) as [H12|H12].
  - replace bn with (Z.of_nat (Z.to_nat bn)) by lia. apply addrs_block; [lia|done].
  - rewrite addrs_ind. destruct (Z.eqb_spec (f_ind f) 0) as [Hz|Hn].
    { apply (fp_direct _ _ _ Hp) in Hz. lia. }
    rewrite (disk_sector _ _ _ (fp_ind _ _ _ Hp Hn)). change NDIRECT with 12.
    replace (bn - 12) with (Z.of_nat (Z.to_nat bn - 12)) by lia.
    apply words_get; [rewrite length_drop; lia| |lia].
    rewrite lookup_drop. by replace (12 + (Z.to_nat bn - 12))%nat with (Z.to_nat bn) by lia.
Qed.

Lemma block_of_part c bn :
  0 <= bn -> take (length (part c bn)) (block_of c (Z.to_nat bn)) = part c bn.
Proof.
  intros H. unfold part, slice, block_of, pad. change BSIZE with 1024.
  replace (Z.to_nat (bn * 1024)) with (1024 * Z.to_nat bn)%nat by lia.
  change (Z.to_nat 1024) with 1024%nat. set (l := drop _ c).
  rewrite take_take, length_take, Nat.min_l by lia.
  rewrite take_app_le by lia. apply list_eq. intros i.
  destruct (decide (i < 1024 `min` length l)%nat).
  - by rewrite !lookup_take_lt by lia.
  - rewrite lookup_take_ge by lia. symmetry. apply lookup_ge_None_2. rewrite length_take. lia.
Qed.

Lemma file_part_holds s fb f :
  file_part (m_img s) fb f -> sized f -> fb <= 2000 -> (length (f_data f) <= 268 * 1024)%nat ->
  readable FSSIZE (disk_of s) (addrs_of f) (f_data f).
Proof.
  intros Hp Hs Hfb Hl.
  assert (Hb : ∀ bn, 0 <= bn -> bn * BSIZE < Z.of_nat (length (f_data f)) ->
    ∃ b, f_blocks f !! Z.to_nat bn = Some b ∧ file_addr (disk_of s) (addrs_of f) bn = b ∧ 46 <= b < 2000).
  { intros bn Hbn Hin. destruct (in_file_block f bn Hs (conj Hbn Hin)) as [b Hb]. exists b.
    pose proof (used_range _ _ _ b Hp (used_block _ _ (list_elem_of_lookup_2 _ _ _ Hb))) as Hr.
    pose proof (nblk_spec (length (f_data f))). unfold sized in Hs. split; [done|]. split; [|lia].
    apply (file_part_addr s fb); done || lia. }
  split.
  - intros bn Hbn Hin. destruct (Hb bn Hbn Hin) as (b & Hk & -> & Hr). split; [lia|].
    rewrite (disk_sector _ _ _ (fp_data _ _ _ Hp _ _ Hk)). by apply block_of_part.
  - change (MAXFILE * BSIZE) with 274432. lia.
  - intros bn Hbn Hin. change FSSIZE with 2000. destruct (Hb bn Hbn Hin) as (b & Hk & -> & Hr).
    split; [lia|]. intros H12. change NDIRECT with 12 in H12. rewrite addrs_ind.
    destruct (decide (f_ind f = 0)) as [->|Hn]; [lia|].
    pose proof (used_range _ _ _ _ Hp (used_ind f Hn)). lia.
Qed.

(** The part of main() after the files have been added. *)
Definition finish : M unit := fix_root 1;; b ← get m_freeblock; balloc (i32 b).

Lemma build_contents h prog image paths contents :
  h_create h image = true -> Forall2 (good_file h) paths contents -> (length paths <= 206)%nat ->
  total (image_contents paths contents) <= 2000 ->
  ∃ s files, state_ok s (image_contents paths contents) files
    ∧ main h (prog :: image :: paths) = finish s.
Proof.
  intros Hc HF Hn Ht. pose proof (Forall2_length _ _ _ HF) as Hl.
  set (dot := dirent_bytes 1 (put_name (chars "."))). set (dots := dirent_bytes 1 (put_name (chars ".."))).
  assert (Hroot : length (root_data paths) = (32 + 16 * length paths)%nat).
  { unfold root_data. rewrite !length_app, !length_dirent, length_entries. lia. }
  assert (Hpre : ∀ r, (length r <= length (root_data paths))%nat -> total [(T_DIR, r)] <= 2000).
  { intros r Hr. etransitivity; [|exact Ht]. apply total_cons_le; [done|]. apply total_ge. }
  destruct (ialloc_ok blank [] [] T_DIR blank_ok ltac:(done)) as (s1 & f1 & R1 & H1); [cbn [length]; lia|].
  cbn [app] in H1.
  destruct (iappend_ok s1 _ f1 0 T_DIR [] dot H1 eq_refl) as (s2 & f2 & R2 & H2).
  { unfold dot. rewrite length_dirent. cbn [length]. lia. }
  { apply Hpre. cbn [app]. unfold dot. rewrite length_dirent. lia. }
  destruct (iappend_ok s2 _ f2 0 T_DIR dot dots H2 eq_refl) as (s3 & f3 & R3 & H3).
  { unfold dot, dots. rewrite !length_dirent. lia. }
  { apply Hpre. unfold dot, dots. rewrite length_app, !length_dirent. lia. }
  change (state_ok s3 [(T_DIR, dot ++ dots)] f3) in H3.
  destruct (add_files_ok h paths contents s3 (dot ++ dots) [] f3 H3 HF) as (s4 & f4 & R4 & H4).
  { cbn [length]. lia. }
  { unfold dot, dots. rewrite length_app, !length_dirent. lia. }
  { cbn [app length]. change (Z.of_nat 0 + 2) with 2. by rewrite <- app_assoc. }
  cbn [app length] in H4. change (Z.of_nat 0 + 2) with 2 in H4. rewrite <- app_assoc in H4.
  exists s4, f4. split; [exact H4|]. change (Z.of_nat 1) with 1 in R2, R3.
  change (Z.of_nat (S (length ([] : list (Z * list Z))))) with 1 in R1.
  unfold main, build. rewrite !m_assert by done. rewrite Hc. cbn [negb]. rewrite !m_set.
  set (s0 := update m_freeblock _ _).
  rewrite (m_bind _ _ _ _ _ (clear_sectors_ok 2000 s0 ltac:(cbn [s0 m_img update length]; done))).
  set (sz := update m_img _ s0).
  assert (Hsz : length (m_img sz) = 2000%nat) by apply length_replicate.
  rewrite (m_bind _ _ _ _ _ (wsect_ok 1 _ sz ltac:(lia) Hsz)).
  change (with_sector 1 _ sz) with blank.
  rewrite (m_bind _ _ _ _ _ R1), m_assert by done.
  rewrite (m_bind _ _ _ _ _ R2), (m_bind _ _ _ _ _ R3), (m_bind _ _ _ _ _ R4). done.
Qed.

Lemma finish_ok s cs files f :
  state_ok s cs files -> files !! 0%nat = Some f -> (length (f_data f) <= 260 * 1024)%nat ->
  ∃ s', finish s = Fine (tt, s')
    ∧ data_part (m_img s') (total cs) files
    ∧ inode_part (m_img s') (<[0%nat := round_up f]> files)
    ∧ disk_of s' 1 = splice 0 (sb_bytes make_sb) zeroes
    ∧ disk_of s' 45 = foldl (λ buf i, set_bit i buf) zeroes (zrange 0 (Z.to_nat (total cs))).
Proof.
  intros H Hf Hl. destruct (fix_root_ok s cs files f H Hf Hl) as (d & R & Hdl & I).
  destruct H as [C D _ _ _ _ B K _ Hroom O]. pose proof (dp_len _ _ _ D) as Hlen. pose proof (dp_fb _ _ _ D) as Hfb.
  assert (Hfl : length files = length cs) by (by rewrite <- C, length_fmap).
  set (s1 := with_sector 32 d s) in *. set (bm := foldl _ _ _).
  assert (H1 : length (m_img s1) = 2000%nat) by (change (m_img s1) with (<[Z.to_nat 32 := d]> (m_img s)); by rewrite length_insert).
  exists (with_sector 45 bm s1).
  assert (Him : m_img (with_sector 45 bm s1) = <[Z.to_nat 45 := bm]> (<[Z.to_nat 32 := d]> (m_img s))) by done.
  split_and!.
  - unfold finish. rewrite (m_bind _ _ _ _ _ R), m_get. unfold balloc.
    change (m_freeblock s1) with (m_freeblock s). rewrite O in *. rewrite i32_small by lia.
    rewrite m_assert by (apply Z.ltb_lt; change (BSIZE * 8) with 8192; lia). rewrite m_get.
    change (m_sb s1) with (m_sb s). rewrite B. change (sb_bmapstart make_sb) with 45.
    by rewrite wsect_ok by (done || lia).
  - rewrite <- O. apply (data_part_ext (m_img s)); rewrite ?Him, ?length_insert; try done.
    + apply Forall_insert; [apply Forall_insert; [apply (dp_full _ _ _ D)|done]|].
      apply (bitmap_prefix (Z.to_nat (total cs)) 0); lia.
    + intros b Hb. by rewrite !list_lookup_insert_ne by lia.
  - rewrite Him. apply (inode_part_ext (<[Z.to_nat 32 := d]> (m_img s))); [done| |rewrite length_insert; lia].
    intros b Hb. by rewrite list_lookup_insert_ne by lia.
  - apply disk_sector. rewrite Him, !list_lookup_insert_ne by lia. exact K.
  - apply disk_sector. rewrite Him. apply list_lookup_insert_eq. rewrite length_insert. lia.
Qed.

(** *** Reading the image off the description of its files *)

Section image.
Context (s0 s : mkfs) (cs : list (Z * list Z)) (f : afile) (files : list afile).
Hypothesis H0 : state_ok s0 cs (f :: files).
Hypothesis D : data_part (m_img s) (total cs) (f :: files).
Hypothesis I : inode_part (m_img s) (round_up f :: files).

Lemma image_file i tc :
  cs !! i = Some tc ->
  ∃ g, (f :: files) !! i = Some g ∧ content g = tc ∧ sized g
    ∧ (length (f_data g) <= 268 * 1024)%nat ∧ file_part (m_img s) (total cs) g.
Proof using H0 D.
  intros Hc. pose proof Hc as Hg. rewrite <- (so_content _ _ _ H0) in Hg.
  apply list_lookup_fmap_Some in Hg as (g & Eg & Hg). exists g. split_and!; try done.
  - apply (Forall_lookup_1 _ _ _ _ (so_sized _ _ _ H0) Hg).
  - rewrite Eg in Hc. apply (Forall_lookup_1 _ _ _ _ (so_small _ _ _ H0) Hc).
  - by apply (dp_file _ _ _ D i).
Qed.

Lemma image_inode i g :
  (f :: files) !! i = Some g ->
  disk_inode (disk_of s) make_sb (Z.of_nat (S i))
  = Dinode (f_type g) 0 0 1
      (Z.of_nat (length (f_data (if decide (i = 0%nat) then round_up g else g)))) (addrs_of g).
Proof using H0 I.
  intros Hg. pose proof (so_room _ _ _ H0) as Hr. pose proof (lookup_lt_Some _ _ _ Hg) as Hlt.
  rewrite <- (so_content _ _ _ H0), length_fmap in Hr.
  assert (Hx : (round_up f :: files) !! i = Some (if decide (i = 0%nat) then round_up g else g)).
  { destruct i as [|i]; [by injection Hg as <-|done]. }
  destruct (ip_inode _ _ I _ _ Hx) as (d & Hd & Hgd).
  unfold disk_inode. rewrite IBLOCK_iblk, (disk_sector _ _ _ Hd) by lia.
  change IPB with 16. fold (islot i). rewrite Hgd. by case_decide.
Qed.

Lemma image_on_disk i t c :
  cs !! i = Some (t, c) ->
  on_disk s (Z.of_nat (S i)) t
    (if decide (i = 0%nat) then (Z.of_nat (length c) / BSIZE + 1) * BSIZE else Z.of_nat (length c)) c.
Proof using H0 D I.
  intros Hc. destruct (image_file i _ Hc) as (g & Hg & Eg & Hs & Hsm & Hp). injection Eg as <- <-.
  exists (addrs_of g). split.
  - rewrite (image_inode i g Hg). f_equal. case_decide; [|done].
    pose proof (Nat.div_mod_eq (length (f_data g)) 1024).
    pose proof (Nat.mod_upper_bound (length (f_data g)) 1024 ltac:(lia)).
    assert (Ed : Z.of_nat (length (f_data g) / 1024) = Z.of_nat (length (f_data g)) / 1024)
      by apply Nat2Z.inj_div.
    change BSIZE with 1024. rewrite <- Ed. cbn [round_up extend f_data].
    rewrite length_app, length_replicate. lia.
  - apply (file_part_holds s (total cs)); try done. apply (dp_fb _ _ _ D).
Qed.

Lemma image_block i tc bn :
  cs !! i = Some tc -> in_file tc.2 bn ->
  ∃ g, (f :: files) !! i = Some g ∧ file_part (m_img s) (total cs) g
    ∧ f_blocks g !! Z.to_nat bn = Some (block_at s i bn).
Proof using H0 D I.
  intros Hc Hin. destruct (image_file i tc Hc) as (g & Hg & <- & Hs & Hsm & Hp). exists g.
  split; [done|]. split; [done|]. destruct (in_file_block g bn Hs Hin) as [b Hb]. rewrite Hb. f_equal.
  unfold block_at. rewrite (image_inode i g Hg). cbn [d_addrs]. symmetry.
  pose proof (nblk_spec (length (f_data g))). unfold sized in Hs.
  apply (file_part_addr s (total cs) g); try done; [apply (dp_fb _ _ _ D)|lia|apply Hin].
Qed.

Lemma image_apart i tc bn j td bm :
  cs !! i = Some tc -> in_file tc.2 bn -> cs !! j = Some td -> in_file td.2 bm ->
  block_at s i bn = block_at s j bm -> i = j ∧ bn = bm.
Proof using H0 D I.
  intros Hc Hin Hd Hjn E. destruct (image_block i tc bn Hc Hin) as (g & Hg & Hp & Hb).
  destruct (image_block j td bm Hd Hjn) as (g' & Hg' & _ & Hb'). rewrite <- E in Hb'.
  assert (Hij : i = j).
  { eapply (dp_apart _ _ _ D); [done|done|..]; apply used_block; by eapply list_elem_of_lookup_2. }
  subst j. replace g' with g in Hb' by congruence. split; [done|].
  pose proof (fp_nodup _ _ _ Hp) as Hnd. apply NoDup_app in Hnd as [Hnd _].
  pose proof (NoDup_lookup _ _ _ _ Hnd Hb Hb') as Hbn. destruct Hin, Hjn. lia.
Qed.
End image.

Lemma mkfs_image_ok (h : host) (prog image : list Z) (paths contents : list (list Z)) :
  h_create h image = true -> Forall2 (good_file h) paths contents -> (length paths <= 206)%nat ->
  let cs := image_contents paths contents in
  total cs <= FSSIZE ->
  ∃ s, main h (prog :: image :: paths) = Fine (tt, s)
    ∧ length (m_img s) = Z.to_nat FSSIZE ∧ Forall (λ b, length b = Z.to_nat BSIZE) (m_img s)
    ∧ get_sb (disk_of s 1) = make_sb
    ∧ (∀ b, 0 <= b < FSSIZE ->
         bit_of (disk_of s (sb_bmapstart make_sb)) b = bool_decide (b < total cs))
    ∧ on_disk s ROOTINO T_DIR ((Z.of_nat (length (root_data paths)) / BSIZE + 1) * BSIZE) (root_data paths)
    ∧ (∀ i c, contents !! i = Some c -> on_disk s (Z.of_nat i + 2) T_FILE (Z.of_nat (length c)) c)
    ∧ (∀ i tc bn, cs !! i = Some tc -> in_file tc.2 bn ->
         46 <= block_at s i bn < total cs
         ∧ ∀ j td bm, cs !! j = Some td -> in_file td.2 bm -> block_at s i bn = block_at s j bm ->
             i = j ∧ bn = bm).
Proof.
  intros Hc HF Hn cs Ht. change FSSIZE with 2000 in *.
  destruct (build_contents h prog image paths contents Hc HF Hn Ht) as (s0 & files & H0 & Hmain).
  assert (Hlen : length (root_data paths) = (32 + 16 * length paths)%nat).
  { unfold root_data. rewrite !length_app, !length_dirent, length_entries. lia. }
  pose proof (so_content _ _ _ H0) as HC.
  destruct files as [|f files]; [done|]. injection HC as _ Hfd _.
  destruct (finish_ok s0 _ _ f H0 eq_refl) as (s & Hrun & D & I & Hsb & Hbm); [rewrite Hfd; lia|].
  fold cs in H0, D, Hbm. pose proof (dp_fb _ _ _ D) as Hfb. exists s. rewrite Hmain. split_and!.
  - done.
  - apply (dp_len _ _ _ D).
  - apply (dp_full _ _ _ D).
  - rewrite Hsb. vm_compute. reflexivity.
  - intros b Hb. change (sb_bmapstart make_sb) with 45. rewrite Hbm.
    rewrite (proj2 (bitmap_prefix (Z.to_nat (total cs)) b ltac:(lia) ltac:(lia))). apply bool_decide_ext. lia.
  - apply (image_on_disk s0 s cs f files H0 D I 0). done.
  - intros i c Hi. replace (Z.of_nat i + 2) with (Z.of_nat (S (S i))) by lia.
    apply (image_on_disk s0 s cs f files H0 D I (S i)). unfold cs, image_contents. simpl.
    rewrite list_lookup_fmap. by rewrite Hi.
  - intros i tc bn Hi Hin. split.
    + destruct (image_block s0 s cs f files H0 D I i tc bn Hi Hin) as (g & _ & Hp & Hb).
      apply (used_range _ _ _ _ Hp), used_block. by eapply list_elem_of_lookup_2.
    + intros j td bm Hj Hjn. by apply (image_apart s0 s cs f files H0 D I i tc bn j td bm).
Qed.

(** C12: given input files that fit on the disk (at most 206 of them, none longer
    than MAXFILE blocks, and together with the root directory no more blocks
    than there are), mkfs succeeds, however the host splits the files into
    reads.  The image has FSSIZE blocks.  In it, the superblock is the one the kernel expects; the free
    map marks exactly the blocks before the first free one; inode 1 is a
    readable directory with the entries of [root_data], its size rounded up to whole
    blocks; inode [i + 2] is a file with the contents of the [i]-th argument;
    and the blocks of the files are data blocks marked as used, no two files
    or parts of files sharing one. *)
Theorem mkfs_image (h : host) (prog image : list Z) (paths contents : list (list Z)) :
  h_create h image = true -> Forall2 (good_file h) paths contents -> (length paths <= 206)%nat ->
  let cs := image_contents paths contents in
  total cs <= FSSIZE ->
  ∃ s, main h (prog :: image :: paths) = Fine (tt, s)
    ∧ length (m_img s) = Z.to_nat FSSIZE ∧ Forall (λ b, length b = Z.to_nat BSIZE) (m_img s)
    ∧ get_sb (disk_of s 1) = make_sb
    ∧ (∀ b, 0 <= b < FSSIZE ->
         bit_of (disk_of s (sb_bmapstart make_sb)) b = bool_decide (b < total cs))
    ∧ on_disk s ROOTINO T_DIR ((Z.of_nat (length (root_data paths)) / BSIZE + 1) * BSIZE) (root_data paths)
    ∧ (∀ i c, contents !! i = Some c -> on_disk s (Z.of_nat i + 2) T_FILE (Z.of_nat (length c)) c)
    ∧ (∀ i tc bn, cs !! i = Some tc -> in_file tc.2 bn ->
         46 <= block_at s i bn < total cs
         ∧ ∀ j td bm, cs !! j = Some td -> in_file td.2 bm -> block_at s i bn = block_at s j bm ->
             i = j ∧ bn = bm).
Proof. apply mkfs_image_ok. Qed.

Definition ex_host : host := Host (λ _, true) (λ p,
  if bool_decide (p = chars "user/_cat") then Some [[1; 2; 3]; [4; 5]] else None).

Lemma mkfs_image_witness :
  ∃ s, main ex_host [chars "mkfs"; chars "fs.img"; chars "user/_cat"] = Fine (tt, s)
    ∧ on_disk s 2 T_FILE 5 [1; 2; 3; 4; 5].
Proof.
  destruct (mkfs_image ex_host (chars "mkfs") (chars "fs.img") [chars "user/_cat"] [[1; 2; 3; 4; 5]])
    as (s & Hr & _ & _ & _ & _ & _ & Hf & _).
  - reflexivity.
  - constructor; [|constructor]. split; [by apply (bool_decide_eq_false_1 (47 ∈ strip_user (chars "user/_cat")))|].
    split; [done|]. by exists [[1; 2; 3]; [4; 5]].
  - simpl. lia.
  - vm_compute. discriminate.
  - exists s. split; [exact Hr|]. exact (Hf 0%nat [1; 2; 3; 4; 5] eq_refl).
Defined.
