(* ===== verification/MkfsRead.v ===== *)
(** * The kernel on an image made by mkfs

    mkfs and the kernel meet in the format of the disk: a file given to mkfs is
    what ilock() and readi() return from the image. *)

From Stdlib Require Import ZArith Lia.
From stdpp Require Import base numbers functions list gmap strings.
From S2P Require Import Prelude Machine Kernel Riscv Spinlock Proc Sleeplock Virtio Bio BioSpec Log LogSpec Fs FsView.
From S2P Require Import FsRead Mkfs MkfsSpec MkfsImage.
#[local] Open Scope kernel_scope.

(** C3: let mkfs build an image from files that fit.  A kernel whose disk is that
    image, with the superblock it reads from block 1, that locks inode [i + 2]
    for the first time and reads [n] bytes from offset [off] gets those bytes
    of the [i]-th file given to mkfs, up to its end. *)
Theorem kernel_reads_mkfs `{Fuel} `{Symbols} `{DL : DiskLaw} (ho : host) (prog image : list Z)
    (paths contents : list (list Z)) (dev : Z) (h : hart) (cp : cpu) (p : nat) (px : proc)
    (pin : gset Z) (V : Z -> list Z) (s : kstate) (ip : nat) (x : inode) (name : string) (opid : Z)
    (i : nat) (c : list Z) (off n : Z) :
  h_create ho image = true -> Forall2 (good_file ho) paths contents -> (length paths <= 206)%nat ->
  total (image_contents paths contents) <= FSSIZE ->
  (1 <= fuel)%nat -> (size pin < bcache_head)%nat -> ready dev h cp p px pin V s ->
  k_inodes s !! ip = Some x -> i_dev x = dev -> 1 <= i_ref x -> i_valid x = 0 ->
  lock_free (L_sleep (SL_inode ip)) s -> k_slocks s !! SL_inode ip = Some (Sleeplock 0 name opid) ->
  contents !! i = Some c -> i_inum x = Z.of_nat i + 2 ->
  0 <= off <= Z.of_nat (length c) -> 0 <= n -> off + n < 2 ^ 32 ->
  ∃ m, main ho (prog :: image :: paths) = Fine (tt, m) ∧
    ((∀ b, 0 <= b < FSSIZE -> V b = disk_of m b) -> k_sb s = get_sb (V 1) ->
     let k := Z.min n (Z.of_nat (length c) - off) in
     ∃ s', run env ((ilock ip ;; readi ip D_local off n) s) = Ok (k, slice off (Z.to_nat k) c) s').
Proof.
  intros Hcr HF Hn Ht Hf Hroom Hr Hx Hd Href Hv Hlk Hsl Hc Hi Hoff Hn0 Hov.
  destruct (mkfs_image_ok ho prog image paths contents Hcr HF Hn Ht) as (m & Hm & _ & _ & Hsb & _ & _ & Hfile & _).
  exists m. split; [done|]. intros HV Hks k. destruct (Hfile i c Hc) as (addrs & Hino & Hrd).
  rewrite (HV 1), Hsb in Hks by done.
  assert (Hil : (i < 206)%nat).
  { pose proof (lookup_lt_Some _ _ _ Hc). pose proof (Forall2_length _ _ _ HF). lia. }
  assert (Eb : IBLOCK (i_inum x) make_sb = iblk (S i)).
  { rewrite Hi. replace (Z.of_nat i + 2) with (Z.of_nat (S (S i))) by lia. apply IBLOCK_iblk. lia. }
  pose proof (iblk_range (S i) ltac:(lia)) as Hib.
  assert (Ed : disk_inode V (k_sb s) (i_inum x) = Dinode T_FILE 0 0 1 (Z.of_nat (length c)) addrs).
  { rewrite Hks, <- Hino, <- Hi. unfold disk_inode. rewrite Eb. by rewrite HV by (change FSSIZE with 2000; lia). }
  destruct (ilock_readi_ok Hf dev h cp p px pin V Hroom ip x name opid c FSSIZE s off n) as (s' & E & _);
    rewrite ?Ed; cbn [d_type d_size d_addrs]; try done.
  - rewrite Hks, Eb. lia.
  - eapply readable_ext; [exact HV|done].
  - exists s'. rewrite Ed in E. exact E.
Qed.

(** ** An example *)

Definition image_of (r : result (unit * mkfs)) : mkfs :=
  match r with Fine (_, m) => m | _ => start_mkfs end.

Definition ex_image : mkfs := image_of (main ex_host [chars "mkfs"; chars "fs.img"; chars "user/_cat"]).

(** The image file, from sector [k] on, as the kernel's disk. *)
Fixpoint image_map (k : Z) (img : list (list Z)) : gmap Z (list Z) :=
  match img with [] => ∅ | b :: img => <[k := b]> (image_map (k + 1) img) end.

Lemma image_map_lookup k img b : k <= b -> image_map k img !! b = img !! Z.to_nat (b - k).
Proof.
  revert k. induction img as [|d img IH]; intros k Hb; cbn [image_map]; [by rewrite lookup_nil, lookup_empty|].
  destruct (decide (k = b)) as [->|Hne].
  - by rewrite lookup_insert_eq, Z.sub_diag.
  - rewrite lookup_insert_ne, IH by (done || lia).
    by replace (Z.to_nat (b - k)) with (S (Z.to_nat (b - (k + 1)))) by lia.
Qed.

Lemma image_map_low k img b : b < k -> image_map k img !! b = None.
Proof.
  revert k. induction img as [|d img IH]; intros k Hb; cbn [image_map]; [apply lookup_empty|].
  rewrite lookup_insert_ne by lia. apply IH. lia.
Qed.

Lemma image_map_blocks img n :
  Forall (λ b, length b = Z.to_nat BSIZE) img -> length (dblock (image_map 0 img) n) = Z.to_nat BSIZE.
Proof.
  intros Hall. unfold dblock. destruct (decide (n < 0)).
  { rewrite image_map_low by done. apply length_replicate. }
  rewrite image_map_lookup by lia. destruct (img !! Z.to_nat (n - 0)) as [b|] eqn:E; [|apply length_replicate].
  by apply (Forall_lookup_1 _ _ _ _ Hall E).
Qed.

Lemma image_map_disk m b :
  length (m_img m) = Z.to_nat FSSIZE -> 0 <= b < FSSIZE -> dblock (image_map 0 (m_img m)) b = disk_of m b.
Proof.
  intros Hl Hb. unfold dblock, disk_of. rewrite image_map_lookup, Z.sub_0_r by lia.
  destruct (m_img m !! Z.to_nat b) as [d|] eqn:E; [done|]. exfalso.
  apply lookup_ge_None in E. lia.
Qed.

Definition ex_disk : gmap Z (list Z) := image_map 0 (m_img ex_image).

Lemma ex_good : Forall2 (good_file ex_host) [chars "user/_cat"] [[1; 2; 3; 4; 5]].
Proof.
  constructor; [|constructor]. split; [by apply (bool_decide_eq_false_1 (47 ∈ strip_user (chars "user/_cat")))|].
  split; [done|]. by exists [[1; 2; 3]; [4; 5]].
Qed.

Lemma ex_image_ok :
  length (m_img ex_image) = Z.to_nat FSSIZE ∧ Forall (λ b, length b = Z.to_nat BSIZE) (m_img ex_image)
  ∧ get_sb (disk_of ex_image 1) = make_sb.
Proof.
  destruct (mkfs_image_ok ex_host (chars "mkfs") (chars "fs.img") _ _ eq_refl ex_good) as (m & Hm & H1 & H2 & H3 & _).
  - simpl. lia.
  - vm_compute. discriminate.
  - assert (Em : ex_image = m) by (unfold ex_image; rewrite Hm; reflexivity). rewrite Em.
    exact (conj H1 (conj H2 H3)).
Qed.

Lemma ex_disk_blocks n : length (dblock ex_disk n) = Z.to_nat BSIZE.
Proof. apply image_map_blocks. apply ex_image_ok. Qed.

Lemma ex_disk_image b : 0 <= b < FSSIZE -> dblock ex_disk b = disk_of ex_image b.
Proof. apply image_map_disk. apply ex_image_ok. Qed.

Lemma ex_disk_sb : make_sb = get_sb (dblock ex_disk 1).
Proof. rewrite ex_disk_image by done. symmetry. apply ex_image_ok. Qed.

#[local] Opaque ex_disk.

Lemma kernel_reads_mkfs_witness :
  let H : Fuel := 1%nat in let D : DiskDriver := sync_disk in let Y : Symbols := example_symbols in
  ∃ s', run no_wait ((ilock 0 ;; readi 0 D_local 1 10) (ex_mounted ex_disk make_sb 2)) = Ok (4, [2; 3; 4; 5]) s'.
Proof.
  intros H D Y. destruct (ex_mounted_ok ex_disk make_sb 2 ex_disk_blocks) as (M1 & M2 & M3 & M4 & M5 & _).
  revert M1 M2 M3 M4 M5. generalize (ex_mounted ex_disk make_sb 2). intros s M1 M2 M3 M4 M5.
  destruct (kernel_reads_mkfs (DL := sync_law) ex_host (chars "mkfs") (chars "fs.img") [chars "user/_cat"]
    [[1; 2; 3; 4; 5]] 1 (zero_hart 0) ex_cpu 0 ex_proc ∅ (dblock ex_disk) s 0 _ "inode" 0 0 [1; 2; 3; 4; 5] 1 10
    eq_refl ex_good ltac:(simpl; lia) ltac:(vm_compute; discriminate) ltac:(apply le_n)
    ltac:(rewrite size_empty; change bcache_head with 30%nat; lia) M1 M2 eq_refl ltac:(simpl; lia) eq_refl
    M3 M4 eq_refl eq_refl ltac:(simpl; lia) ltac:(lia) ltac:(lia)) as (m & Hm & T).
  assert (Em : ex_image = m) by (unfold ex_image; rewrite Hm; reflexivity). subst m.
  destruct T as (s' & E); [intros b Hb; by apply ex_disk_image| |by exists s'].
  rewrite M5. exact ex_disk_sb.
Defined.
