(* ===== verification/LogSpace.v ===== *)
(** * The space in the log

    begin_op() admits an operation only if the log has room for MAXOPBLOCKS
    blocks of every operation under way.  Here operations of any number of
    processes are interleaved call by call: the room is always there, so an
    operation that keeps to its MAXOPBLOCKS blocks is never stopped by
    log_write() for want of space, provided that the log has LOGSIZE blocks
    besides its header.  The log that mkfs makes has one block less. *)

From Stdlib Require Import ZArith Lia.
From stdpp Require Import base numbers functions list gmap strings.
From S2P Require Import Prelude Machine Kernel Riscv Spinlock Proc Sleeplock Virtio Bio BioSpec Log LogSpec Mkfs.
#[local] Open Scope kernel_scope.

Definition too_big : stop := Panic "too big a transaction".

Section keep.
Context (env : why -> kstate -> kstate) (Henv : ∀ w s, k_log (env w s) = k_log s).

(** [m] leaves the log's variables alone, and does not stop for want of
    space in the log. *)
Definition leaves {A} (m : K A) : Prop := ∀ s,
  match run env (m s) with
  | Ok _ s' => k_log s' = k_log s
  | Stop e _ => e <> too_big
  | Yield _ _ _ => True
  end.

(** The outcomes of a sequence. *)
Lemma run_bind_cases {A B} (m : K A) (f : A -> K B) s :
  match run env (m s) with
  | Ok a s1 => run env ((m ≫= f) s) = run env (f a s1)
  | Stop e s1 => run env ((m ≫= f) s) = Stop e s1
  | Yield _ _ _ => False
  end.
Proof.
  unfold kbind. induction (m s) as [a s1|e s1|w s1 k IH]; cbn [run bindo]; [done|done|]. apply IH.
Qed.

Lemma leaves_bind {A B} (m : K A) (f : A -> K B) :
  leaves m -> (∀ a, leaves (f a)) -> leaves (m ≫= f).
Proof.
  intros Hm Hf s. specialize (Hm s). pose proof (run_bind_cases m f s) as Hc.
  destruct (run env (m s)) as [a s1|e s1|]; [|by rewrite Hc|done].
  rewrite Hc. specialize (Hf a s1). destruct (run env (f a s1)); [|done|done]. congruence.
Qed.

Lemma leaves_ret {A} (a : A) : leaves (ret a).
Proof. by intros s. Qed.
Lemma leaves_gets {A} (g : kstate -> A) : leaves (gets g).
Proof. by intros s. Qed.
Lemma leaves_modify g : (∀ s, k_log (g s) = k_log s) -> leaves (modify g).
Proof. intros H s. apply H. Qed.
Lemma leaves_halt {A} e : e <> too_big -> leaves (halt (A := A) e).
Proof. by intros H s. Qed.
Lemma leaves_yield w : leaves (yield_cpu w).
Proof using Henv. intros s. apply Henv. Qed.
Lemma leaves_deref {A} (o : option A) : leaves (deref o).
Proof. destruct o; [apply leaves_ret|by apply leaves_halt]. Qed.
Lemma leaves_if {A} (b : bool) (m1 m2 : K A) : leaves m1 -> leaves m2 -> leaves (if b then m1 else m2).
Proof. by destruct b. Qed.
Lemma leaves_when b m : leaves m -> leaves (when b m).
Proof. intros. unfold when. apply leaves_if; [done|apply leaves_ret]. Qed.

Lemma leaves_loop {X R} n (body : X -> K (X + R)) x : (∀ x, leaves (body x)) -> leaves (loop n body x).
Proof.
  intros Hb. revert x. induction n as [|n IH]; intros x; [by apply leaves_halt|].
  cbn [loop]. apply leaves_bind; [done|]. intros [y|r]; [apply IH|apply leaves_ret].
Qed.

Lemma leaves_for_all {X} (l : list X) body : (∀ x, leaves (body x)) -> leaves (for_all l body).
Proof.
  intros Hb. induction l as [|x l IH]; [apply leaves_ret|]. cbn [for_all]. by apply leaves_bind.
Qed.
End keep.

(** Goes through a function: its calls by the lemmas of the database. *)
Create HintDb leaves.
#[export] Hint Resolve leaves_ret leaves_gets leaves_deref leaves_yield leaves_when leaves_if leaves_loop
  leaves_for_all : leaves.
#[export] Hint Extern 2 (leaves _ (kbind _ _)) => apply leaves_bind; [|intros ?] : leaves.
#[export] Hint Extern 2 (leaves _ (modify _)) => apply leaves_modify; intros ?; reflexivity : leaves.
#[export] Hint Extern 2 (leaves _ (halt _)) => apply leaves_halt; done : leaves.
#[export] Hint Extern 2 (leaves _ (panic _)) => apply leaves_halt; done : leaves.
#[export] Hint Extern 2 (leaves _ fault) => apply leaves_halt; done : leaves.
#[export] Hint Extern 3 (leaves _ (match ?x with _ => _ end)) => destruct x : leaves.
Ltac leave := intros; eauto 60 with leaves.

Section calls.
Context (env : why -> kstate -> kstate) (Henv : ∀ w s, k_log (env w s) = k_log s).
Context `{Fuel} `{Symbols} `{DiskDriver}.
Context (Hdrv : ∀ b w, leaves env (disk_rw b w)).

Lemma leaves_mycpu : leaves env mycpu.
Proof. unfold mycpu, cpuid, r_tp, hart_get. leave. Qed.
Lemma leaves_updcpu c f : leaves env (updcpu c f).
Proof. unfold updcpu, getcpu. leave. Qed.
Hint Resolve leaves_mycpu leaves_updcpu : leaves.
Lemma leaves_hart_set f : leaves env (hart_set f).
Proof. unfold hart_set. leave. Qed.
Lemma leaves_r_sstatus : leaves env r_sstatus.
Proof. unfold r_sstatus, hart_get. leave. Qed.
Hint Resolve leaves_hart_set leaves_r_sstatus : leaves.
Lemma leaves_intr_get : leaves env intr_get.
Proof. unfold intr_get. leave. Qed.
Hint Resolve leaves_intr_get : leaves.
Lemma leaves_push_off : leaves env push_off.
Proof. unfold push_off, intr_off, w_sstatus, getcpu. leave. Qed.
Lemma leaves_pop_off : leaves env pop_off.
Proof. unfold pop_off, intr_on, w_sstatus, getcpu. leave. Qed.
Lemma leaves_setlock l f : leaves env (setlock l f).
Proof. unfold setlock. leave. Qed.
Lemma leaves_getlock l : leaves env (getlock l).
Proof. unfold getlock. leave. Qed.
Hint Resolve leaves_push_off leaves_pop_off leaves_setlock leaves_getlock : leaves.
Lemma leaves_holding l : leaves env (holding l).
Proof. unfold holding. leave. Qed.
Lemma leaves_spin n l : leaves env (spin n l).
Proof using Henv. induction n as [|n IH]; cbn [spin]; leave. Qed.
Hint Resolve leaves_holding leaves_spin : leaves.
Lemma leaves_acquire l : leaves env (acquire l).
Proof using Henv. unfold acquire. leave. Qed.
Lemma leaves_release l : leaves env (release l).
Proof. unfold release. leave. Qed.
Hint Resolve leaves_acquire leaves_release : leaves.
Lemma leaves_getp p : leaves env (getp p).
Proof. unfold getp. leave. Qed.
Lemma leaves_myproc : leaves env myproc.
Proof. unfold myproc, getcpu. leave. Qed.
Hint Resolve leaves_getp leaves_myproc : leaves.
Lemma leaves_updp p f : leaves env (updp p f).
Proof. unfold updp. leave. Qed.
Lemma leaves_curproc : leaves env curproc.
Proof. unfold curproc. leave. Qed.
Hint Resolve leaves_updp leaves_curproc : leaves.
Lemma leaves_sched : leaves env sched.
Proof using Henv. unfold sched, getcpu. leave. Qed.
Hint Resolve leaves_sched : leaves.
Lemma leaves_sleep c l : leaves env (sleep c l).
Proof using Henv. unfold sleep. leave. Qed.
Lemma leaves_wakeup c : leaves env (wakeup c).
Proof using Henv. unfold wakeup, wakeup_one. leave. Qed.
Hint Resolve leaves_sleep leaves_wakeup : leaves.
Lemma leaves_updslock l f : leaves env (updslock l f).
Proof. unfold updslock. leave. Qed.
Lemma leaves_mypid : leaves env mypid.
Proof. unfold mypid. leave. Qed.
Hint Resolve leaves_updslock leaves_mypid : leaves.
Lemma leaves_acquiresleep l : leaves env (acquiresleep l).
Proof using Henv. unfold acquiresleep, getslock. leave. Qed.
Lemma leaves_releasesleep l : leaves env (releasesleep l).
Proof using Henv. unfold releasesleep. leave. Qed.
Lemma leaves_holdingsleep l : leaves env (holdingsleep l).
Proof using Henv. unfold holdingsleep, getslock. leave. Qed.
Lemma leaves_getb b : leaves env (getb b).
Proof. unfold getb. leave. Qed.
Hint Resolve leaves_acquiresleep leaves_releasesleep leaves_holdingsleep leaves_getb : leaves.
Lemma leaves_updb b f : leaves env (updb b f).
Proof. unfold updb. leave. Qed.
Hint Resolve leaves_updb : leaves.
Lemma leaves_bget dev n : leaves env (bget dev n).
Proof using Henv. unfold bget, bget_cached, bget_unused. leave. Qed.
Lemma leaves_bread dev n : leaves env (bread dev n).
Proof using Henv Hdrv. pose proof leaves_bget. unfold bread. leave. Qed.
Lemma leaves_bwrite b : leaves env (bwrite b).
Proof using Henv Hdrv. unfold bwrite. leave. Qed.
Lemma leaves_brelse b : leaves env (brelse b).
Proof using Henv. unfold brelse, push_front, set_prev, set_next. leave. Qed.
Lemma leaves_bpin b : leaves env (bpin b).
Proof using Henv. unfold bpin. leave. Qed.
Lemma leaves_bunpin b : leaves env (bunpin b).
Proof using Henv. unfold bunpin. leave. Qed.
Lemma leaves_bdata b : leaves env (bdata b).
Proof. unfold bdata. leave. Qed.
Lemma leaves_set_bdata b f : leaves env (set_bdata b f).
Proof. unfold set_bdata. leave. Qed.
Hint Resolve leaves_bread leaves_bwrite leaves_brelse leaves_bpin leaves_bunpin leaves_bdata leaves_set_bdata : leaves.
Lemma leaves_getlog : leaves env getlog.
Proof. unfold getlog. leave. Qed.
Hint Resolve leaves_getlog : leaves.
Lemma leaves_get_block i : leaves env (get_block i).
Proof. unfold get_block. leave. Qed.
Hint Resolve leaves_get_block : leaves.
Lemma leaves_write_head : leaves env write_head.
Proof using Henv Hdrv. unfold write_head. leave. Qed.
Lemma leaves_write_log : leaves env write_log.
Proof using Henv Hdrv. unfold write_log, write_log_one. leave. Qed.
Lemma leaves_install_trans r : leaves env (install_trans r).
Proof using Henv Hdrv. unfold install_trans, install_one. leave. Qed.

(** *** What the three calls do to the log's variables *)

Lemma run_bind_inv {A B} (m : K A) (f : A -> K B) s b s' :
  run env ((m ≫= f) s) = Ok b s' -> ∃ a s1, run env (m s) = Ok a s1 ∧ run env (f a s1) = Ok b s'.
Proof.
  intros Hr. pose proof (run_bind_cases env m f s) as Hc.
  destruct (run env (m s)) as [a s1|e s1|]; [|congruence|done]. exists a, s1. split; [done|congruence].
Qed.

Lemma leaves_ok {A B} (m : K A) (f : A -> K B) s b s' :
  leaves env m -> run env ((m ≫= f) s) = Ok b s' ->
  ∃ a s1, k_log s1 = k_log s ∧ run env (f a s1) = Ok b s'.
Proof.
  intros Hm Hr. apply run_bind_inv in Hr as (a & s1 & E & Hr). specialize (Hm s). rewrite E in Hm. eauto.
Qed.

Lemma leaves_last {A} (m : K A) s a s' : leaves env m -> run env (m s) = Ok a s' -> k_log s' = k_log s.
Proof. intros Hm Hr. specialize (Hm s). by rewrite Hr in Hm. Qed.

Lemma begin_op_log s s' :
  run env (begin_op s) = Ok tt s' ->
  lg_committing (k_log s) = 0
  ∧ lh_n (k_log s) + (lg_outstanding (k_log s) + 1) * MAXOPBLOCKS <= LOGSIZE
  ∧ k_log s' = (k_log s) <| lg_outstanding ::= λ n, n + 1 |>.
Proof using Henv.
  unfold begin_op. intros Hr. apply leaves_ok in Hr as (_ & s1 & E1 & Hr); [|leave]. rewrite <- E1. clear E1 s.
  revert s1 Hr. generalize (S fuel) as n. induction n as [|n IH]; intros s1 Hr; [done|]. cbn [loop] in Hr.
  apply run_bind_inv in Hr as (r & s2 & Hb & Hr). unfold getlog in Hb. rewrite bind_gets in Hb.
  assert (Hs : ∀ r s2, run env ((sleep Ch_log L_log ;; ret (inl tt)) s1) = Ok (r : unit + unit) s2 ->
    r = inl tt ∧ k_log s2 = k_log s1).
  { clear -Henv. intros r s2 Hb. apply leaves_ok in Hb as (_ & s3 & E3 & Hb); [|leave].
    injection Hb as <- <-. done. }
  unfold truth in Hb. destruct (Z.eqb_spec (lg_committing (k_log s1)) 0) as [Hz|Hz]; cbn [negb] in Hb.
  2:{ apply Hs in Hb as [-> E]. rewrite <- E. by apply IH. }
  destruct (Z.ltb_spec LOGSIZE (lh_n (k_log s1) + (lg_outstanding (k_log s1) + 1) * MAXOPBLOCKS)) as [Hl|Hl].
  { apply Hs in Hb as [-> E]. rewrite <- E. by apply IH. }
  unfold updlog in Hb. rewrite bind_modify in Hb. apply leaves_ok in Hb as (_ & s3 & E3 & Hb); [|leave].
  injection Hb as <- <-. injection Hr as <-. split; [done|]. split; [done|]. exact E3.
Qed.

Lemma commit_log s s' :
  run env (commit s) = Ok tt s' ->
  k_log s' = if 0 <? lh_n (k_log s) then (k_log s) <| lh_n := 0 |> else k_log s.
Proof using Henv Hdrv.
  unfold commit, getlog. intros Hr. rewrite bind_gets in Hr. unfold when in Hr.
  destruct (0 <? lh_n (k_log s)); [|by injection Hr as <-].
  apply leaves_ok in Hr as (_ & s1 & E1 & Hr); [|apply leaves_write_log].
  apply leaves_ok in Hr as (_ & s2 & E2 & Hr); [|apply leaves_write_head].
  apply leaves_ok in Hr as (_ & s3 & E3 & Hr); [|apply leaves_install_trans].
  unfold updlog in Hr. rewrite bind_modify in Hr.
  apply leaves_last in Hr; [|apply leaves_write_head]. rewrite Hr. simpl. congruence.
Qed.

Lemma end_op_log s s' :
  run env (end_op s) = Ok tt s' ->
  lg_committing (k_log s) = 0
  ∧ lg_committing (k_log s') = 0
  ∧ lg_outstanding (k_log s') = lg_outstanding (k_log s) - 1
  ∧ lg_size (k_log s') = lg_size (k_log s)
  ∧ lh_n (k_log s') = (if lg_outstanding (k_log s) - 1 =? 0 then Z.min 0 (lh_n (k_log s)) else lh_n (k_log s)).
Proof using Henv Hdrv.
  unfold end_op. intros Hr. apply leaves_ok in Hr as (_ & s1 & E1 & Hr); [|leave]. rewrite <- E1. clear E1 s.
  unfold updlog at 1, getlog in Hr. rewrite bind_modify, bind_gets in Hr.
  set (lg := k_log (s1 <| k_log ::= _ |>)) in Hr.
  change (lg_committing lg) with (lg_committing (k_log s1)) in Hr.
  change (lg_outstanding lg) with (lg_outstanding (k_log s1) - 1) in Hr.
  unfold truth in Hr. destruct (Z.eqb_spec (lg_committing (k_log s1)) 0) as [Hz|]; [|done]. cbn [negb] in Hr.
  split; [done|]. destruct (lg_outstanding (k_log s1) - 1 =? 0).
  - unfold updlog at 1 in Hr. rewrite bind_modify in Hr.
    apply leaves_ok in Hr as (_ & s2 & E2 & Hr); [|leave]. cbn [when] in Hr.
    apply run_bind_inv in Hr as ([] & s3 & Hc & Hr). apply commit_log in Hc.
    apply leaves_ok in Hr as (_ & s4 & E4 & Hr); [|leave].
    unfold updlog in Hr. rewrite bind_modify in Hr.
    apply leaves_ok in Hr as (_ & s5 & E5 & Hr); [|leave].
    apply leaves_last in Hr; [|leave]. rewrite Hr, E5. simpl. rewrite E4, Hc, E2. simpl.
    destruct (Z.ltb_spec 0 (lh_n (k_log s1))); simpl; split_and!; try done; lia.
  - apply leaves_ok in Hr as (_ & s2 & E2 & Hr); [|leave].
    apply leaves_ok in Hr as (_ & s3 & E3 & Hr); [|leave].
    injection Hr as <-. rewrite E3, E2. done.
Qed.

(** Every return leaves the log's variables as [P] says, and no stop is for want
    of space. *)
Definition ends {A} (P : logstate -> Prop) (o : out A) : Prop :=
  match o with Ok _ s => P (k_log s) | Stop e _ => e <> too_big | Yield _ _ _ => True end.

Lemma ends_bind {A B} P (m : K A) (f : A -> K B) s :
  leaves env m -> (∀ a s1, k_log s1 = k_log s -> ends P (run env (f a s1))) ->
  ends P (run env ((m ≫= f) s)).
Proof.
  intros Hm Hf. specialize (Hm s). pose proof (run_bind_cases env m f s) as Hc.
  destruct (run env (m s)) as [a s1|e s1|]; [|by rewrite Hc|done]. rewrite Hc. by apply Hf.
Qed.

Lemma ends_leaves {A} (P : logstate -> Prop) (m : K A) s : leaves env m -> P (k_log s) -> ends P (run env (m s)).
Proof. intros Hm HP. specialize (Hm s). unfold ends. destruct (run env (m s)); [by rewrite Hm|done|done]. Qed.

Lemma run_assoc {A B C} (m : K A) (f : A -> K B) (g : B -> K C) s :
  run env (((m ≫= f) ≫= g) s) = run env ((m ≫= λ a, f a ≫= g) s).
Proof. unfold kbind. induction (m s) as [a s1|e s1|w s1 k IH]; cbn [run bindo]; done. Qed.

Lemma set_block_cases i v s :
  run env (set_block i v s) = Ok tt (s <| k_log ::= λ lg, lg <| lh_block ::= λ l, aset l i v |> |>)
  ∨ run env (set_block i v s) = Stop Fault s.
Proof.
  unfold set_block, get_block, getlog, updlog, kbind, gets, deref. cbn [bindo].
  destruct (lh_block (k_log s) !! Z.to_nat i); [by left|by right].
Qed.

(** log_write() with room in the log. *)
Lemma log_write_room b s :
  lh_n (k_log s) < LOGSIZE -> lh_n (k_log s) < lg_size (k_log s) - 1 ->
  ends (λ lg, lg_committing lg = lg_committing (k_log s) ∧ lg_size lg = lg_size (k_log s)
      ∧ lg_outstanding lg = lg_outstanding (k_log s)
      ∧ lh_n (k_log s) <= lh_n lg <= lh_n (k_log s) + 1) (run env (log_write b s)).
Proof using Henv.
  intros Hl Hsz. unfold log_write. apply ends_bind; [leave|]. intros _ s1 E1. rewrite <- E1 in *. clear E1 s.
  unfold getlog. rewrite bind_gets.
  destruct (Z.leb_spec LOGSIZE (lh_n (k_log s1))); [lia|].
  destruct (Z.leb_spec (lg_size (k_log s1) - 1) (lh_n (k_log s1))); [lia|]. cbn [orb].
  destruct (lg_outstanding (k_log s1) <? 1); [done|].
  apply ends_bind; [leave|]. intros x s2 E2. rewrite <- E2.
  set (i := Z.of_nat _). set (f := λ _ : unit, _).
  pose proof (run_bind_cases env (set_block i (i32 (b_blockno x))) f s2) as Hc.
  destruct (set_block_cases i (i32 (b_blockno x)) s2) as [E|E]; rewrite E in Hc; rewrite Hc; [|done].
  set (s3 := s2 <| k_log ::= _ |>). unfold f. unfold when. destruct (i =? lh_n (k_log s2)).
  - rewrite run_assoc. apply ends_bind; [apply leaves_bpin|]. intros _ s4 E4. unfold updlog. rewrite bind_modify.
    apply ends_leaves; [leave|]. simpl. rewrite E4. simpl. split_and!; done || lia.
  - apply ends_leaves; [leave|]. simpl. split_and!; done || lia.
Qed.

Lemma log_write_tests b s s' :
  run env (log_write b s) = Ok tt s' ->
  lh_n (k_log s) < LOGSIZE ∧ lh_n (k_log s) < lg_size (k_log s) - 1.
Proof using Henv.
  unfold log_write. intros Hr. apply leaves_ok in Hr as (_ & s1 & E1 & Hr); [|leave]. rewrite <- E1.
  unfold getlog in Hr. rewrite bind_gets in Hr.
  destruct (Z.leb_spec LOGSIZE (lh_n (k_log s1))); [done|].
  destruct (Z.leb_spec (lg_size (k_log s1) - 1) (lh_n (k_log s1))); [done|]. done.
Qed.

Lemma log_write_log b s s' :
  run env (log_write b s) = Ok tt s' ->
  lg_committing (k_log s') = lg_committing (k_log s) ∧ lg_size (k_log s') = lg_size (k_log s)
  ∧ lg_outstanding (k_log s') = lg_outstanding (k_log s)
  ∧ lh_n (k_log s) <= lh_n (k_log s') <= lh_n (k_log s) + 1.
Proof using Henv.
  intros Hr. destruct (log_write_tests b s s' Hr) as [T1 T2].
  pose proof (log_write_room b s T1 T2) as Hw. by rewrite Hr in Hw.
Qed.

(** ** Operations under way *)

(** The states of the log that calls of begin_op(), log_write() and end_op()
    lead to, from a log of [size] blocks that is not in use.  With each state,
    the number of blocks that each operation under way may still add.  A call
    is one step: begin_op() and log_write() are inside log.lock, and while
    end_op() commits begin_op() waits. *)
Inductive reached (size : Z) : kstate -> list Z -> Prop :=
| rc_init s :
    lg_committing (k_log s) = 0 -> lg_outstanding (k_log s) = 0 -> lh_n (k_log s) = 0 ->
    lg_size (k_log s) = size -> reached size s []
| rc_begin s ops s' :
    reached size s ops -> run env (begin_op s) = Ok tt s' -> reached size s' (MAXOPBLOCKS :: ops)
| rc_write s ops1 k ops2 b s' :
    reached size s (ops1 ++ k :: ops2) -> 0 < k -> run env (log_write b s) = Ok tt s' ->
    reached size s' (ops1 ++ (k - (lh_n (k_log s') - lh_n (k_log s))) :: ops2)
| rc_end s ops1 k ops2 s' :
    reached size s (ops1 ++ k :: ops2) -> run env (end_op s) = Ok tt s' ->
    reached size s' (ops1 ++ ops2).

Definition room (ops : list Z) : Z := foldr Z.add 0 ops.

Lemma room_app l l' : room (l ++ l') = room l + room l'.
Proof. induction l as [|x l IH]; simpl; [done|]. fold (room (l ++ l')). fold (room l). lia. Qed.

Record space_ok (size : Z) (lg : logstate) (ops : list Z) : Prop := {
  so_idle : lg_committing lg = 0;
  so_logsize : lg_size lg = size;
  so_ops : lg_outstanding lg = Z.of_nat (length ops);
  so_n : 0 <= lh_n lg;
  so_each : Forall (λ k, 0 <= k <= MAXOPBLOCKS) ops;
  so_sum : lh_n lg + room ops <= LOGSIZE;
  so_none : ops = [] -> lh_n lg = 0
}.

Lemma room_max ops : Forall (λ k, 0 <= k <= MAXOPBLOCKS) ops -> 0 <= room ops <= Z.of_nat (length ops) * MAXOPBLOCKS.
Proof.
  induction 1 as [|k ops Hk Hf IH]; [done|]. change (room (k :: ops)) with (k + room ops). cbn [length]. lia.
Qed.

Lemma reached_space size s ops : reached size s ops -> space_ok size (k_log s) ops.
Proof using Henv Hdrv.
  induction 1 as [s A1 A2 A3 A4|s ops s' Hr IH Hb|s ops1 k ops2 b s' Hr IH Hk Hb|s ops1 k ops2 s' Hr IH Hb].
  - split; try done; rewrite ?A3; try done.
  - destruct (begin_op_log s s' Hb) as (B1 & B2 & B3). destruct IH as [I1 I2 I3 I4 I5 I6 I7].
    pose proof (room_max ops I5). rewrite I3 in B2.
    split; rewrite ?B3; simpl; try done.
    + rewrite I3. lia.
    + constructor; [|done]. unfold MAXOPBLOCKS. lia.
    + fold (room ops). lia.
  - destruct (log_write_log b s s' Hb) as (B1 & B2 & B3 & B4). destruct IH as [I1 I2 I3 I4 I5 I6 I7].
    rewrite room_app in I6. change (room (k :: ops2)) with (k + room ops2) in I6.
    apply Forall_app in I5 as [J1 J2]. apply Forall_cons in J2 as [J2 J3].
    split; try congruence; try lia.
    + rewrite B3, I3, !length_app. done.
    + apply Forall_app. split; [done|]. constructor; [lia|done].
    + rewrite room_app. change (room (?x :: ops2)) with (x + room ops2). lia.
    + by destruct ops1.
  - destruct (end_op_log s s' Hb) as (B1 & B2 & B3 & B4 & B5). destruct IH as [I1 I2 I3 I4 I5 I6 I7].
    rewrite room_app in I6. change (room (k :: ops2)) with (k + room ops2) in I6.
    apply Forall_app in I5 as [J1 J2]. apply Forall_cons in J2 as [J2 J3].
    rewrite length_app in I3. cbn [length] in I3.
    pose proof (room_max ops1 J1). pose proof (room_max ops2 J3).
    split; try congruence.
    + rewrite B3, I3, length_app. lia.
    + rewrite B5. case_match; lia.
    + apply Forall_app. done.
    + rewrite B5, room_app. case_match; lia.
    + intros Hn. apply app_eq_nil in Hn as [-> ->]. rewrite B5, I3. simpl. lia.
Qed.
End calls.

(** C16: in every interleaving of operations, the blocks in the log and the
    MAXOPBLOCKS that each operation under way may still add, less those it has
    added, never exceed LOGSIZE; log.outstanding counts the operations; and if
    the log has more than LOGSIZE blocks (the header is one of them), log_write()
    never panics with "too big a transaction" on an operation that keeps to its
    MAXOPBLOCKS blocks.  The disk driver is taken not to touch the log's
    variables, and the rest of the system not to during one call. *)
Theorem log_space_reserved `{Fuel} `{Symbols} `{DiskDriver} (env : why -> kstate -> kstate)
    (size : Z) (s : kstate) (ops : list Z) :
  (∀ w s, k_log (env w s) = k_log s) -> (∀ b w, leaves env (disk_rw b w)) ->
  reached env size s ops ->
  lg_outstanding (k_log s) = Z.of_nat (length ops)
  ∧ 0 <= lh_n (k_log s) ∧ lh_n (k_log s) + room ops <= LOGSIZE
  ∧ (LOGSIZE < size -> ∀ k b s1, k ∈ ops -> 0 < k -> run env (log_write b s) <> Stop too_big s1).
Proof.
  intros Henv Hdrv Hr. pose proof (reached_space env Henv Hdrv size s ops Hr) as [I1 I2 I3 I4 I5 I6 _].
  split; [done|]. split; [done|]. split; [done|]. intros Hsz k b s1 Hk Hp E.
  apply list_elem_of_split in Hk as (l1 & l2 & ->). apply Forall_app in I5 as [J1 J2].
  apply Forall_cons in J2 as [J2 J3]. pose proof (room_max l1 J1). pose proof (room_max l2 J3).
  rewrite room_app in I6. change (room (k :: l2)) with (k + room l2) in I6.
  pose proof (log_write_room env Henv b s ltac:(lia) ltac:(lia)) as Hw. by rewrite E in Hw.
Qed.

(** ** Examples *)

(** A machine with 30 buffers for the blocks 100, 101, ... and a log of
    [size] blocks. *)
Definition ex_space (size : Z) : kstate :=
  (ex_running [L_log; L_bcache] [])
    <| k_bufs := imap (λ i b, b <| b_blockno := 100 + Z.of_nat i |>) (replicate (S bcache_head) zero_buf) |>
    <| k_log := Logstate 2 size 0 0 1 0 (replicate 30 0) |>.

(** Calls, and running them: an operation begins, or the first operation under
    way that has blocks left logs the buffer [b]. *)
Inductive lop := Begin | Write (b : nat).

Section exec.
Local Instance one_fuel : Fuel := 1%nat.
Local Instance sync_driver : DiskDriver := sync_disk.
Local Instance ex_symbols : Symbols := example_symbols.

Definition lcall (o : lop) : K unit := match o with Begin => begin_op | Write b => log_write b end.

(** The budgets after a call that took the log from [n] to [n'] blocks. *)
Definition lnext (o : lop) (n n' : Z) (ops : list Z) : option (list Z) :=
  match o with
  | Begin => Some (MAXOPBLOCKS :: ops)
  | Write _ =>
      match list_find (λ k, 0 < k) ops with
      | Some (i, k) => Some (take i ops ++ (k - (n' - n)) :: drop (S i) ops)
      | None => None
      end
  end.

Fixpoint lexec (l : list lop) (s : kstate) (ops : list Z) : option (kstate * list Z) :=
  match l with
  | [] => Some (s, ops)
  | o :: l =>
      match run no_wait (lcall o s) with
      | Ok _ s' =>
          match lnext o (lh_n (k_log s)) (lh_n (k_log s')) ops with
          | Some ops' => lexec l s' ops'
          | None => None
          end
      | _ => None
      end
  end.

Lemma lexec_reached size l s ops s' ops' :
  reached no_wait size s ops -> lexec l s ops = Some (s', ops') -> reached no_wait size s' ops'.
Proof.
  revert s ops. induction l as [|o l IH]; intros s ops Hr He; cbn [lexec] in He; [by injection He as <- <-|].
  destruct (run no_wait (lcall o s)) as [[] s1| |] eqn:E; [|done|done].
  destruct (lnext o _ _ ops) as [ops1|] eqn:En; [|done]. apply (IH s1 ops1); [|done].
  destruct o as [|b]; cbn [lnext lcall] in *.
  - injection En as <-. by eapply rc_begin.
  - destruct (list_find (λ k, 0 < k) ops) as [[i k]|] eqn:Ef; [|done]. injection En as <-.
    apply list_find_Some in Ef as (Hi & Hk & _).
    eapply rc_write; [|exact Hk|exact E]. by rewrite take_drop_middle.
Qed.

Lemma sync_leaves b w : leaves no_wait (sync_disk b w).
Proof.
  unfold sync_disk. apply leaves_bind; [unfold getb; leave|]. intros x. apply leaves_modify. intros s.
  unfold disk_done. by destruct w.
Qed.

(** The calls of three operations that log [n] blocks in all. *)
Definition ex_calls (n : nat) : list lop := [Begin; Begin; Begin] ++ (Write <$> seq 0 n).

Lemma ex_space_reached size : reached no_wait size (ex_space size) [].
Proof. by apply rc_init. Qed.

(** Some operation has blocks left, but log_write() panics for want of space. *)
Definition starved (r : option (kstate * list Z)) (b : nat) : bool :=
  match r with
  | Some (s, ops) =>
      match list_find (λ k, 0 < k) ops, run no_wait (log_write b s) with
      | Some _, Stop (Panic msg) _ => String.eqb msg "too big a transaction"
      | _, _ => false
      end
  | None => false
  end.

(** C32: with the log that mkfs makes, of LOGSIZE blocks with its header, three
    concurrent operations that begin_op() has admitted and that each keep to
    their MAXOPBLOCKS blocks can bring log_write() to panic with "too big a
    transaction": begin_op() reckons with LOGSIZE blocks besides the header. *)
Theorem log_one_block_short :
  ∃ s ops k b s1, reached no_wait (sb_nlog make_sb) s ops ∧ k ∈ ops ∧ 0 < k
    ∧ run no_wait (log_write b s) = Stop too_big s1.
Proof.
  assert (Hs : starved (lexec (ex_calls 29) (ex_space 30) []) 29 = true) by (vm_compute; reflexivity).
  destruct (lexec (ex_calls 29) (ex_space 30) []) as [[s ops]|] eqn:E; [|done].
  apply (lexec_reached 30) in E; [|apply ex_space_reached]. unfold starved in Hs.
  destruct (list_find (λ k, 0 < k) ops) as [[i k]|] eqn:Ef; [|done].
  apply list_find_Some in Ef as (Hi & Hk & _).
  destruct (run no_wait (log_write 29 s)) as [| [msg| | |] s1 |] eqn:Ew; try done.
  apply String.eqb_eq in Hs as ->. exists s, ops, k, 29%nat, s1.
  split_and!; try done. by eapply list_elem_of_lookup_2.
Qed.

Definition budgets (r : option (kstate * list Z)) : list Z :=
  match r with Some (_, ops) => ops | None => [] end.

Lemma log_space_reserved_witness :
  ∃ s, run no_wait (log_write 0 s) <> Stop too_big s ∧ lh_n (k_log s) + room [10] <= LOGSIZE.
Proof.
  assert (Hb : budgets (lexec [Begin] (ex_space 31) []) = [10]) by (vm_compute; reflexivity).
  destruct (lexec [Begin] (ex_space 31) []) as [[s ops]|] eqn:E; [|discriminate Hb].
  cbn [budgets] in Hb. rewrite Hb in E.
  pose proof (lexec_reached 31 _ _ _ _ _ (ex_space_reached 31) E) as Hr.
  destruct (log_space_reserved no_wait 31 s [10]) as (_ & _ & H1 & H2);
    [reflexivity|apply sync_leaves|exact Hr|].
  exists s. split; [|exact H1]. apply (H2 eq_refl 10); [by left|done].
Defined.
End exec.
